(* ===== verification/_CoqProject ===== *)
-Q . S2P
Prelude.v
GoStd.v
GoText.v
GoStrings.v
GoFloat.v
GoCodec.v
GoJson.v
Sdk.v
SdkExample.v
LedgerBucketWindow.v
Tables.v
DbTransaction.v
DbEvent.v
DbLedger.v
Db.v
FeeWindow.v
Migration.v
Ingest.v
Backfill.v
Protocol.v
ProtocolExample.v
MethodJson.v
GetEventsMethod.v
GetTransactionsMethod.v
GetLedgersMethod.v
DatastoreReader.v
Network.v
Handlers.v
PreflightPool.v
LedgerEntries.v
SimulateTransactionMethod.v
Cgo.v
CgoLogic.v
HostLib.v
HostRefines.v
Preflight.v
PreflightMemory.v
PreflightRefines.v
Xdr2Json.v
Config.v
ConfigOptions.v
ConfigLoad.v
ConfigRender.v
ConfigRoundtrip.v
JsonRpc.v
Metrics.v
Frames.v
Daemon.v
DaemonMigrations.v
DaemonRestart.v
DaemonWiring.v
PanicGroup.v
Shutdown.v
Server.v
PerfHarness.v
PerfComment.v
PerfBench.v
PerfBackfill.v
PerfBlaster.v
