(* ===== verification/Prelude.v ===== *)
(** * A verification library for stellar-rpc

    stellar-rpc (cmd/stellar-rpc under src/) is a Go server.  It ingests the
    ledgers of a Stellar network from a captive core or a datastore, stores
    their headers, transactions and contract events in SQLite for a retention
    window, keeps two windows of fee statistics in memory and answers JSON-RPC
    requests from that state.  This library models its own logic as executable
    functions and step relations on explicit states, and proves what makes each
    part correct.  All paths below are under cmd/stellar-rpc/internal/.

    ** How the parts interact

    A request goes through the limiters of the HTTP server and of its method
    (jsonrpc.go, network/) to the method's handler (methods/), which reads
    the database through the readers of db/, the fee windows (feewindow/), the
    preflight pool (preflight/) or a stellar-core client.  The ingestion service
    (ingest/service.go) is the only writer: one transaction per ledger through
    the writers of db/, then the fee windows and the shared cache of the ledger
    range.  Backfill (ingest/backfill.go) drives the same service over past
    ledgers, and data migrations (db/migration.go) re-read stored ledgers to fill
    tables.  The configuration (config/) decides windows, limits and sources.

    Beside the server, integrationtest/infrastructure/perf-eval evaluates its
    performance: legs that each run on a machine of their own publish one result
    object in S3, a gatherer polls for it, and a coordinator renders the results
    of all legs, and of the runs before, in one comment.

    ** Files

    - Prelude.v (this file): machine integers, errors, the result and state
      monads, tactics, the hint database [keeps], generic lemmas on lists,
      loops, and counting ([tally]).
    - GoStd.v, GoText.v, GoStrings.v: the functions of the Go standard library that
      the code calls (strconv, hex, base64, time, strings), executable, with round
      trips, the totality of [ParseDuration], and lemmas on words and lines.
    - GoFloat.v, GoCodec.v, GoJson.v: doubles as fmt prints them, base64, UTF-8, and
      encoding/json: a printer and a scanner of documents that are inverse, and
      the filling of Go values.
    - Sdk.v, Protocol.v: the code outside the repository (the Stellar Go SDK, its
      protocol package), as type classes; the laws the code relies on are classes
      of their own.  SdkExample.v, ProtocolExample.v: concrete instances, on which
      the witnesses of the theorems are evaluated.
    - LedgerBucketWindow.v: ledgerbucketwindow/, the circular buffer of the fee
      windows, and its refinement of a bounded queue.
    - Tables.v: the tables of db/sqlmigrations, the meaning of the SQL the code
      sends, sessions whose statements may fail.
    - DbTransaction.v, DbEvent.v, DbLedger.v: db/transaction.go, db/event.go,
      db/ledger.go, writers, trimming and readers.
    - Db.v: db/db.go, the write transaction, its commit with the shared cache, the
      interleaving of commits and readers, and the bulk-load reshaping.
    - FeeWindow.v: feewindow/feewindow.go.  Migration.v: db/migration.go.
    - Ingest.v, Backfill.v: ingest/service.go and ingest/backfill.go.
    - Frames.v: what the database writers leave alone, as relations kept by their
      calls.  Daemon.v: the storage part of daemon/daemon.go, from the open
      database to the start of ingestion ([mustInitializeStorage], [mustBackfill],
      [MustNew]).  DaemonMigrations.v, DaemonRestart.v: its failures.
      DaemonWiring.v: what the core, the archives and the clients are made of.
      Shutdown.v: [Close], called concurrently.  PanicGroup.v: util/panicgroup.go.
      Server.v: the commands of main.go, the opening of the database, the HTTP
      servers and [Run].  Metrics.v: daemon/metrics.go and every registration of a
      metric.
    - MethodJson.v, GetEventsMethod.v, GetTransactionsMethod.v,
      GetLedgersMethod.v, LedgerEntries.v, SimulateTransactionMethod.v,
      Handlers.v: methods/ and ledgerentries/, one file per large handler, the
      small ones (getHealth, getLatestLedger, getNetwork, getVersionInfo,
      getFeeStats, sendTransaction) in Handlers.v.  DatastoreReader.v:
      rpcdatastore/, the implementation of the interface getLedgers reads old
      ledgers through.
    - Network.v: network/, the queue limiters as processes of atomic steps, the
      duration limiters as races of a handler, write by write, with two timers.
    - PreflightPool.v: preflight/pool.go, the worker pool as a step relation over
      callers, workers and closers.
    - Cgo.v, CgoLogic.v: the C heap, the structs of lib/*.h, cgo handles and
      deferred calls; refinement of computations without memory, brackets, owned
      blocks.  HostLib.v, HostRefines.v: lib/preflight/ and lib/ffi/, the Rust
      adaptor of the Soroban host, over the interface [Ffi] of what crosses the
      boundary.  Preflight.v, PreflightMemory.v, PreflightRefines.v:
      preflight/preflight.go on that memory and on plain values.  Xdr2Json.v:
      xdr2json/ and lib/xdr2json/ in the same way.
    - Config.v, ConfigOptions.v, ConfigLoad.v: config/, the engine (option.go,
      parse.go, flags.go, toml.go, main.go), the table of options and validators
      (options.go), and the theorems about the two together.  ConfigRender.v,
      ConfigRoundtrip.v: the rendering of a file (toml.go), and that it is read back.
    - JsonRpc.v: jsonrpc.go, the table of methods behind their limiters.
    - PerfHarness.v: perf-eval/harness, over the machine a leg runs on (class
      [Box]).  PerfComment.v: perf-eval/coordinator-runner.go.  PerfBench.v,
      PerfBackfill.v, PerfBlaster.v: the runners of go-bench and ingest-load-test,
      of backfill-test, and of endpoint-load-test.

    State is a Record per component with the Go fields; a method that can fail is
    a computation of the monad [M] (the state is what it had reached when it
    failed, as in Go) or of [Res] (a value, an error or a panic).  Go's map
    iteration order is the parameter [range_map] of [Nondet].  Integers are [Z]
    with the wrap-around of their type written where the code can leave it.

    ** What the theorems show

    - Storage (LedgerBucketWindow and the Db files): the buffer refines a queue; every
      transaction hash and every event of an ingested ledger is stored once, the
      events at the cursors their positions ([event_pos]) are due, found again,
      and trimmed exactly when it leaves the window; no statement binds more
      variables than SQLite takes; a commit is all or nothing under any schedule of
      statement failures; the cached ledger range equals the stored one under every
      interleaving of readers and of commits of newer ledgers; interrupted bulk
      loads resume.
    - Pipelines (FeeWindow, Migration, Ingest, Backfill): fee statistics are
      those of the ledgers in the window; ingesting the next ledger stores exactly
      its data, keeps the cache coherent and feeds both windows; migrations are
      published as a whole; backfill covers its range in contiguous chunks down to
      the edge of the window, terminates, and its check is exact.
    - Start-up (Daemon, DaemonMigrations, DaemonRestart): a restarted server finds
      the fees of its newest ledgers; initialisation succeeds in one step or keeps
      everything but done-guards ([kept]); a start-up killed anywhere can be run
      again, and one that succeeds leaves the indexes the readers need.  Shutdown: however many callers, everything is closed once,
      in order, and everybody is told the same errors.
    - Methods: a page of events, transactions or ledgers is exactly what its
      request selects, in order (for getLedgers, if the database scans ledgers in
      the order of their key), and its cursor resumes after it; lookups,
      submissions, health, ledger entries and simulations answer what the database
      and the core hold, errors included, with one submission and one preflight.
    - Concurrency (Network, PreflightPool): bounded concurrency, refusals only when
      the slots are taken, no stuck request, no lost answer, in every interleaving;
      a handler's response and the timeout's are never mixed.
    - The C boundary (PreflightRefines, Xdr2Json): what is computed on C memory,
      through handles, callbacks and caught panics, is what is computed on plain
      values, and the memory is left as it was.
    - Configuration (ConfigLoad, ConfigOptions, JsonRpc): the precedence of flags,
      environment, file and defaults; well-typed fields whatever the sources hold;
      an exact account of what validation accepts; no panic when the flags are
      declared; the network option; a rendered file is read back, but for options at
      their zero value, for configurations as [renderable] describes; the handlers,
      limits and options of every method of a validated server.
    - The process (Server, Metrics): a server is only run with a validated
      configuration; [Run] returns only when everything is closed; every metric is
      registered once, but those of the limiters never are; the recording client
      of the core changes no answer.
    - Performance evaluation (PerfHarness, PerfComment, PerfBench, PerfBackfill,
      PerfBlaster): a published result is what the gatherer of the same run
      relays, and polling ends; a leg that ends well has run its whole suite on both
      checkouts and its report is that of these runs ([leg_ran]); the history in the
      comment is read back, numbered without gaps; the backfill leg's verdict is that
      of [verifyBounds] unless the datastore is shorter than the window; one row per
      endpoint of the document, in order.

    Some theorems record a behaviour the code does not intend: a failed commit
    that wedges ingestion ([failed_commit_wedges]), a cursor that goes back
    ([getTransactions_empty_page_rewinds]), a guard written outside its
    transaction ([Commit_mm_leaks_guard]), a send on a closed channel
    ([send_on_closed_channel]), a port reduced to its low 16 bits ([ex_loads]),
    memory left behind by a caught panic ([preflight_leaks]).

    ** Bounds and fuel

    Loops over data recurse on the data.  The others carry fuel that is shown to
    be enough, or is given by the code: chunk loops of backfill (the distance to
    the bound), full-batch flushes (the number of pending rows), the parts of a
    duration (its length, [duration_parts_fuel]), retries ([maxRetries]), the
    ledgers of a datastore range (its length and one, [GetLedgers_terminates]; a
    range that ends at the largest sequence has no bound, and never succeeds).

    The JSON scanner is given as many steps as it has characters
    ([scan_fuel_enough]), the polling loops as many as intervals fit before their
    deadline ([gather_ends], [await_fuel_enough]), the loop that sheds old runs as
    many as there are runs ([shed_spec]).

    ** What is assumed

    SQLite is the relational meaning of the statements the code sends, with a
    schedule of failures and a bound on the variables of a statement
    ([maxVariables]); a read transaction has its snapshot from its beginning
    (SQLite takes it at the first read, which may be later); a query without ORDER
    BY returns its rows in an order of its own ([scan_order]).  The XDR types and readers, cursors and strkeys, the
    protocol structs, the core clients, [sort.Sort], the TOML library, pflag,
    logrus, the Soroban and XDR crates behind the Rust adaptors, the
    operating system, the clock and the network, S3 and SSM, the registry of Prometheus and
    the programs the evaluation runs are parameters; the laws assumed of them
    are classes ([...Laws]) of documented behaviour, each with an instance.

    ** Not modelled

    Failures while the rows of a query are read (rows.Scan, rows.Err), and the
    panic of xdr.Hash on a stored hash that is not 32 bytes long; readers that run
    during the commits of a backfill, which the daemon does not start before it has
    ended.  Logging, the values metrics take (but those of the core client and of the
    preflight pool), the HTTP transport, the SQL migration files beyond the tables
    they define, accessors of fields, the mocks, and the drivers of the
    integration tests (integrationtest/infrastructure but for perf-eval), which
    start processes and containers and have no logic of the server. *)

From stdpp Require Export base tactics list gmap strings pretty sorting.
From Stdlib Require Export ZArith Lia.

Declare Scope go_scope.
Delimit Scope go_scope with go.
Open Scope Z_scope.

(** ** Machine integers

    A Go integer is a [Z]; every operation of the source that can leave the
    range of its type is followed by the wrap-around of that type. *)

Definition u32 (z : Z) : Z := z mod 2 ^ 32.
Definition u64 (z : Z) : Z := z mod 2 ^ 64.
Definition i32 (z : Z) : Z := (z + 2 ^ 31) mod 2 ^ 32 - 2 ^ 31.
Definition i64 (z : Z) : Z := (z + 2 ^ 63) mod 2 ^ 64 - 2 ^ 63.

Definition is_u32 (z : Z) : Prop := 0 <= z < 2 ^ 32.
Definition is_u64 (z : Z) : Prop := 0 <= z < 2 ^ 64.
Definition is_i32 (z : Z) : Prop := - 2 ^ 31 <= z < 2 ^ 31.

(** ** Errors

    A Go [error] value.  Sentinels are the package-level errors that the code
    compares with [errors.Is]; [EWrap] is [fmt.Errorf] with a [%w] verb (or
    [errors.Wrap]); [EJoin] is [errors.Join] of two non-nil errors; [EExt] is
    an error made by code outside the repository; [EJrpc] is a [jrpc2.Error]
    (by value or by pointer). *)

Inductive sentinel :=
  | ErrEmptyDB | ErrNoTransaction | EOF | ErrEmptyArchives | ErrLoadTestDone
  | ContextCanceled | DeadlineExceeded | ErrMissingDiff
  | ErrPreflightQueueFull | NotInTransaction | ErrResultNotReady.

#[global] Instance sentinel_eq_dec : EqDecision sentinel.
Proof. solve_decision. Defined.

Inductive jrpc_code :=
  | InvalidParams | InvalidRequest | InternalError | OtherCode (c : Z).

#[global] Instance jrpc_code_eq_dec : EqDecision jrpc_code.
Proof. solve_decision. Defined.

Inductive error :=
  | ESentinel (s : sentinel)
  | EMsg (m : string)
  | EExt (m : string)
  | EWrap (m : string) (e : error)
  | EJoin (e1 e2 : error)
  | EJrpc (c : jrpc_code) (m : string).

#[global] Instance error_eq_dec : EqDecision error.
Proof. solve_decision. Defined.

Definition sentinel_message (s : sentinel) : string :=
  match s with
  | ErrEmptyDB => "DB is empty"
  | ErrNoTransaction => "no transaction with this hash exists"
  | EOF => "EOF"
  | ErrEmptyArchives => "cannot start ingestion without history archives, wait until first history archives are published"
  | ErrLoadTestDone => "load test done"
  | ContextCanceled => "context canceled"
  | DeadlineExceeded => "context deadline exceeded"
  | ErrMissingDiff => "no ledger difference found"
  | ErrPreflightQueueFull => "preflight queue full"
  | NotInTransaction => "not in transaction"
  | ErrResultNotReady => "result not published yet"
  end.

(** [err.Error()] *)
Fixpoint error_message (e : error) : string :=
  match e with
  | ESentinel s => sentinel_message s
  | EMsg m | EExt m | EJrpc _ m => m
  | EWrap m e => m +:+ ": " +:+ error_message e
  | EJoin e1 e2 => error_message e1 +:+ "; " +:+ error_message e2
  end.

(** [errors.Is(err, sentinel)]: some error of the tree is the sentinel. *)
Fixpoint errors_Is (e : error) (s : sentinel) : bool :=
  match e with
  | ESentinel s' => bool_decide (s = s')
  | EMsg _ | EExt _ | EJrpc _ _ => false
  | EWrap _ e => errors_Is e s
  | EJoin e1 e2 => errors_Is e1 s || errors_Is e2 s
  end.

(** [errors.Join]: the non-nil errors, [None] when there is none. *)
Definition errors_Join2 (e1 e2 : option error) : option error :=
  match e1, e2 with
  | None, e | e, None => e
  | Some a, Some b => Some (EJoin a b)
  end.

(** ** Results and the state-and-error monad

    A call returns a value, returns an error or panics.  A stateful call keeps
    the state it had reached when it failed: Go code does not undo its writes
    when it returns an error. *)

Inductive Res (A : Type) :=
  | Ok (a : A)
  | Err (e : error)
  | Panic (m : string).
Arguments Ok {A} a.
Arguments Err {A} e.
Arguments Panic {A} m.

Definition M (S A : Type) : Type := S -> Res A * S.

#[global] Instance Res_ret : MRet Res := fun A a => Ok a.
#[global] Instance Res_bind : MBind Res := fun A B f r =>
  match r with Ok a => f a | Err e => Err e | Panic m => Panic m end.
#[global] Instance Res_fmap : FMap Res := fun A B f r =>
  match r with Ok a => Ok (f a) | Err e => Err e | Panic m => Panic m end.

#[global] Instance M_ret {S} : MRet (M S) := fun A a s => (Ok a, s).
#[global] Instance M_bind {S} : MBind (M S) := fun A B f m s =>
  match m s with
  | (Ok a, s') => f a s'
  | (Err e, s') => (Err e, s')
  | (Panic p, s') => (Panic p, s')
  end.

Definition fail {S A} (e : error) : M S A := fun s => (Err e, s).
Definition panic {S A} (m : string) : M S A := fun s => (Panic m, s).
Definition get {S} : M S S := fun s => (Ok s, s).
Definition gets {S A} (f : S -> A) : M S A := fun s => (Ok (f s), s).
Definition put {S} (s : S) : M S unit := fun _ => (Ok tt, s).
Definition modify {S} (f : S -> S) : M S unit := fun s => (Ok tt, f s).
Definition of_res {S A} (r : Res A) : M S A := fun s => (r, s).

(** Observing the error of a call: [v, err := f()] followed by a test. *)
Definition attempt {S A} (m : M S A) : M S (A + error) := fun s =>
  match m s with
  | (Ok a, s') => (Ok (inl a), s')
  | (Err e, s') => (Ok (inr e), s')
  | (Panic p, s') => (Panic p, s')
  end.

(** [if err != nil { return ..., g(err) }] *)
Definition map_err {S A} (g : error -> error) (m : M S A) : M S A := fun s =>
  match m s with
  | (Err e, s') => (Err (g e), s')
  | r => r
  end.

(** Running a call on a part of the state. *)
Definition zoom {S T A} (proj : S -> T) (upd : T -> S -> S) (m : M T A) : M S A :=
  fun s => let '(r, t) := m (proj s) in (r, upd t s).

Definition zoom1 {S T A} (m : M S A) : M (S * T) A :=
  fun st => let '(r, s) := m (fst st) in (r, (s, snd st)).
Definition zoom2 {S T A} (m : M T A) : M (S * T) A :=
  fun st => let '(r, t) := m (snd st) in (r, (fst st, t)).

(** [defer cleanup()] before the rest of a function (or the end of a scope in
    Rust): the cleanup runs however the rest ends, its error is dropped and its
    panic is what the caller sees. *)
Definition deferred {S A} (cleanup : M S unit) (rest : M S A) : M S A := fun s =>
  let '(r, s1) := rest s in
  match cleanup s1 with
  | (Panic m, s2) => (Panic m, s2)
  | (_, s2) => (r, s2)
  end.

(** A [for range] loop whose body can fail. *)
Fixpoint for_each {S A} (l : list A) (body : A -> M S unit) : M S unit :=
  match l with
  | [] => mret tt
  | a :: l => body a ;; for_each l body
  end.

Fixpoint res_map {A B} (f : A -> Res B) (l : list A) : Res (list B) :=
  match l with
  | [] => Ok []
  | a :: l => b ← f a; bs ← res_map f l; Ok (b :: bs)
  end.

(** Slice indexing: out of range panics. *)
Definition index {A} (l : list A) (i : Z) : Res A :=
  if decide (0 <= i) then
    match l !! Z.to_nat i with
    | Some a => Ok a
    | None => Panic "index out of range"
    end
  else Panic "index out of range".

(** [len] *)
Definition zlen {A} (l : list A) : Z := Z.of_nat (length l).

(** ** Tactics *)

(** Case analysis on the scrutinee of a [match] or [if] of the goal or of a
    hypothesis, keeping its equation. *)
Ltac dmatch :=
  match goal with
  | |- context [match ?x with _ => _ end] => destruct x eqn:?
  | H : context [match ?x with _ => _ end] |- _ => destruct x eqn:?
  end.

Ltac dmatches := repeat (dmatch; simplify_eq/=; try done).

Ltac unfold_m :=
  unfold mbind, M_bind, mret, M_ret, fail, panic, get, gets, put, modify,
    of_res, attempt, map_err, zoom, zoom1, zoom2 in *.

Ltac unfold_ints :=
  unfold is_u32, is_u64, is_i32, u32, u64, i32, i64 in *.

(** Arithmetic over list lengths. *)
Ltac llia := unfold zlen in *; simpl length in *; lia.

(** ** Generic lemmas *)

Lemma u32_small z : is_u32 z -> u32 z = z.
Proof. unfold_ints. intros. by apply Z.mod_small. Qed.

Lemma u64_small z : is_u64 z -> u64 z = z.
Proof. unfold_ints. intros. by apply Z.mod_small. Qed.

Lemma u32_range z : is_u32 (u32 z).
Proof. unfold_ints. apply Z.mod_pos_bound. lia. Qed.

Lemma u64_range z : is_u64 (u64 z).
Proof. unfold_ints. apply Z.mod_pos_bound. lia. Qed.

Lemma i32_small z : is_i32 z -> i32 z = z.
Proof. unfold_ints. intros. rewrite Z.mod_small; lia. Qed.

Lemma zlen_nonneg {A} (l : list A) : 0 <= zlen l.
Proof. unfold zlen. lia. Qed.

Lemma zlen_app {A} (l k : list A) : zlen (l ++ k) = zlen l + zlen k.
Proof. unfold zlen. rewrite length_app. lia. Qed.

Lemma zlen_cons {A} (a : A) l : zlen (a :: l) = zlen l + 1.
Proof. unfold zlen. simpl. lia. Qed.

Lemma zlen_nil {A} : zlen (@nil A) = 0.
Proof. done. Qed.

Lemma index_lookup {A} (l : list A) (i : nat) a :
  l !! i = Some a -> index l (Z.of_nat i) = Ok a.
Proof.
  intros H. unfold index. rewrite decide_True by lia.
  by rewrite Nat2Z.id, H.
Qed.

Lemma index_Ok {A} (l : list A) i a :
  index l i = Ok a <-> 0 <= i /\ l !! Z.to_nat i = Some a.
Proof.
  unfold index. case_decide; [|naive_solver].
  destruct (l !! Z.to_nat i); naive_solver.
Qed.

Lemma index_in_range {A} (l : list A) i :
  0 <= i < zlen l -> exists a, index l i = Ok a /\ l !! Z.to_nat i = Some a.
Proof.
  unfold zlen. intros [? ?].
  destruct (lookup_lt_is_Some_2 l (Z.to_nat i)) as [a Ha]; [lia|].
  exists a. split; [|done]. by apply index_Ok.
Qed.

Lemma bind_ok {S A B} (m : M S A) (f : A -> M S B) s b s' :
  (m ≫= f) s = (Ok b, s') <->
  exists a s1, m s = (Ok a, s1) /\ f a s1 = (Ok b, s').
Proof. unfold_m. destruct (m s) as [[] ?]; naive_solver. Qed.

Lemma for_each_app {S A} (l k : list A) (body : A -> M S unit) s :
  for_each (l ++ k) body s = (for_each l body ;; for_each k body) s.
Proof.
  revert s; induction l as [|a l IH]; intros s; [done|].
  simpl. unfold_m. destruct (body a s) as [[] s1]; [apply IH|done..].
Qed.

Lemma map_err_ok {S A} g (m : M S A) s a s' :
  map_err g m s = (Ok a, s') <-> m s = (Ok a, s').
Proof. unfold_m. destruct (m s) as [[] ?]; naive_solver. Qed.

Lemma filter_none {A} (P : A -> Prop) `{forall x, Decision (P x)} (l : list A) :
  (forall x, x ∈ l -> ~ P x) -> filter P l = [].
Proof.
  induction l as [|a l IH]; intros HP; [done|].
  rewrite filter_cons_False by (apply HP; by left). apply IH. intros. apply HP. by right.
Qed.

Lemma filter_all {A} (P : A -> Prop) `{forall x, Decision (P x)} (l : list A) :
  (forall x, x ∈ l -> P x) -> filter P l = l.
Proof.
  induction l as [|a l IH]; intros HP; [done|].
  rewrite filter_cons_True by (apply HP; by left). f_equal. apply IH. intros. apply HP. by right.
Qed.

Lemma res_map_app {A B} (f : A -> Res B) l k r :
  res_map f (l ++ k) = Ok r <->
  exists r1 r2, res_map f l = Ok r1 /\ res_map f k = Ok r2 /\ r = r1 ++ r2.
Proof.
  revert r; induction l as [|a l IH]; intros r; csimpl.
  - split; [intros H; by exists [], r|by intros (?&?&[= <-]&?&->)].
  - unfold mbind, Res_bind. destruct (f a) as [b|e|m]; [|naive_solver..].
    destruct (res_map f (l ++ k)) as [x|e|m] eqn:E.
    + destruct (proj1 (IH x) eq_refl) as (r1&r2&H1&H2&->). rewrite H1, H2.
      split; [intros [= <-]; by exists (b :: r1), r2|by intros (?&?&[= <-]&[= <-]&->)].
    + split; [done|]. intros (r1&r2&H1&H2&->).
      destruct (res_map f l) as [y| |] eqn:E2; simplify_eq.
      assert (Err e = Ok (y ++ r2)) as H by (apply IH; eauto). done.
    + split; [done|]. intros (r1&r2&H1&H2&->).
      destruct (res_map f l) as [y| |] eqn:E2; simplify_eq.
      assert (Panic m = Ok (y ++ r2)) as H by (apply IH; eauto). done.
Qed.

Lemma res_map_length {A B} (f : A -> Res B) l r : res_map f l = Ok r -> length r = length l.
Proof.
  revert r; induction l as [|a l IH]; intros r; csimpl; [by intros [= <-]|].
  unfold mbind, Res_bind. destruct (f a); try done. destruct (res_map f l); try done.
  intros [= <-]. csimpl. by rewrite IH.
Qed.

Lemma res_map_elem_of {A B} (f : A -> Res B) l r a :
  res_map f l = Ok r -> a ∈ l -> exists b, f a = Ok b /\ b ∈ r.
Proof.
  revert r; induction l as [|a' l IH]; intros r; csimpl; [set_solver|].
  unfold mbind, Res_bind. destruct (f a') as [b| |] eqn:E; try done.
  destruct (res_map f l) as [bs| |]; try done. intros [= <-] [->|Hin]%elem_of_cons; [set_solver|].
  destruct (IH bs) as (b'&?&?); [done..|]. set_solver.
Qed.

Lemma res_map_elem_of_inv {A B} (f : A -> Res B) l r b :
  res_map f l = Ok r -> b ∈ r -> exists a, a ∈ l /\ f a = Ok b.
Proof.
  revert r; induction l as [|a l IH]; intros r; simpl; [by intros [= <-] ?%elem_of_nil|].
  unfold mbind, Res_bind. destruct (f a) as [b'| |] eqn:Ha; try done.
  destruct (res_map f l) as [bs| |]; try done. intros [= <-] [->|Hin]%elem_of_cons; [set_solver|].
  destruct (IH bs eq_refl Hin) as (a'&?&?). exists a'. by split; [right|].
Qed.

Lemma res_map_total {A B} (f : A -> Res B) l :
  (forall a, a ∈ l -> exists b, f a = Ok b) -> exists r, res_map f l = Ok r.
Proof.
  induction l as [|a l IH]; intros Hf; simpl; [by eexists|].
  destruct (Hf a) as [b Hb]; [by left|]. destruct IH as [bs Hbs]; [intros; apply Hf; by right|].
  unfold mbind, Res_bind. rewrite Hb, Hbs. by eexists.
Qed.

Lemma res_map_Forall2 {A B} (f : A -> Res B) l r :
  res_map f l = Ok r <-> Forall2 (fun a b => f a = Ok b) l r.
Proof.
  revert r; induction l as [|a l IH]; intros r; simpl.
  - split; [intros [= <-]; constructor|by intros ->%Forall2_nil_inv_l].
  - unfold mbind, Res_bind. split.
    + destruct (f a) as [b| |] eqn:E; try done. destruct (res_map f l) as [r'| |]; try done.
      intros [= <-]. constructor; [done|]. by apply IH.
    + intros (b&r'&E&H%IH&->)%Forall2_cons_inv_l. by rewrite E, H.
Qed.

Lemma res_map_lookup {A B} (f : A -> Res B) l r i a b :
  res_map f l = Ok r -> l !! i = Some a -> r !! i = Some b -> f a = Ok b.
Proof.
  revert r i; induction l as [|a' l IH]; intros r i; csimpl; [done|].
  unfold mbind, Res_bind. destruct (f a') as [b'| |] eqn:E; try done.
  destruct (res_map f l) as [bs| |]; try done. intros [= <-]. destruct i; csimpl; [congruence|by apply IH].
Qed.

Lemma snd_fmap_pair {A B} (a : A) (l : list B) : snd <$> (pair a <$> l) = l.
Proof. rewrite <- list_fmap_compose. by apply list_fmap_id. Qed.

Section SortedFilters.
Context {A : Type} (R : relation A).

(** A condition closed downwards holds of a prefix of a sorted list. *)
Lemma sorted_filter_prefix (Q : A -> Prop) `{forall x, Decision (Q x)} (l : list A) :
  StronglySorted R l -> (forall a b, R a b -> Q b -> Q a) -> filter Q l = take (length (filter Q l)) l.
Proof.
  intros HS HQ. induction HS as [|a l HS IH HF]; [done|]. rewrite filter_cons.
  case_decide as Ha; [simpl; by f_equal|]. rewrite filter_none; [done|].
  intros b Hb Hqb. rewrite Forall_forall in HF. eauto.
Qed.

(** What follows the element at a position. *)
Lemma sorted_filter_after `{!RelDecision R} (l : list A) n x :
  StronglySorted R l -> l !! n = Some x -> (forall a b, R a b -> ~ R b a) ->
  filter (R x) l = drop (S n) l.
Proof.
  intros HS. revert n. induction HS as [|a l HS IH HF]; intros n Hn Has; [done|].
  rewrite Forall_forall in HF. destruct n as [|n]; simpl in Hn.
  - simplify_eq. rewrite filter_cons_False by (intros Hx; by apply (Has x x)).
    rewrite filter_all; [done|]. intros b Hb. by apply HF.
  - rewrite filter_cons_False; [by apply IH|]. apply Has, HF. by eapply list_elem_of_lookup_2.
Qed.

Lemma sorted_filter (Q : A -> Prop) `{forall x, Decision (Q x)} (l : list A) :
  StronglySorted R l -> StronglySorted R (filter Q l).
Proof.
  induction 1 as [|a l HS IH HF]; [constructor|]. rewrite filter_cons. case_decide; [|done].
  constructor; [done|]. rewrite Forall_forall in *. intros b [_ Hb]%list_elem_of_filter. auto.
Qed.

End SortedFilters.

(** ** Counting the elements of a list that satisfy a condition *)

Section Tally.
Context {A : Type}.

Definition tally (P : A -> Prop) `{forall a, Decision (P a)} (l : list A) : Z := zlen (filter P l).

Definition bit (P : Prop) `{Decision P} : Z := if decide P then 1 else 0.

Lemma bit_iff P Q `{Decision P} `{Decision Q} : (P <-> Q) -> bit P = bit Q.
Proof. intros HPQ. unfold bit. repeat case_decide; tauto. Qed.

Lemma bit_true P `{Decision P} : P -> bit P = 1.
Proof. intros HP. unfold bit. by case_decide. Qed.

Lemma bit_false P `{Decision P} : ~ P -> bit P = 0.
Proof. intros HP. unfold bit. by case_decide. Qed.

Lemma tally_cons P `{forall a, Decision (P a)} a l : tally P (a :: l) = bit (P a) + tally P l.
Proof. unfold tally, bit. rewrite filter_cons. case_decide; rewrite ?zlen_cons; lia. Qed.

Lemma tally_app P `{forall a, Decision (P a)} l k : tally P (l ++ k) = tally P l + tally P k.
Proof. unfold tally. by rewrite filter_app, zlen_app. Qed.

Lemma tally_insert P `{forall a, Decision (P a)} l i a b :
  l !! i = Some a -> tally P (<[i := b]> l) = tally P l - bit (P a) + bit (P b).
Proof.
  revert i; induction l as [|x l IH]; intros i; [done|]. destruct i as [|i]; simpl; intros Hi; rewrite !tally_cons.
  - simplify_eq. lia.
  - specialize (IH _ Hi). lia.
Qed.

Lemma tally_le P Q `{forall a, Decision (P a)} `{forall a, Decision (Q a)} l :
  (forall a, P a -> Q a) -> tally P l <= tally Q l.
Proof.
  intros HPQ. induction l as [|x l IH]; [done|]. rewrite !tally_cons. unfold bit.
  repeat case_decide; try lia. naive_solver.
Qed.

Lemma tally_bounds P `{forall a, Decision (P a)} l : 0 <= tally P l <= zlen l.
Proof. unfold tally. pose proof (length_filter P l). unfold zlen. lia. Qed.

Lemma tally_none P `{forall a, Decision (P a)} l : (forall a, a ∈ l -> ~ P a) -> tally P l = 0.
Proof. intros HP. unfold tally. by rewrite filter_none. Qed.

Lemma tally_pos P `{forall a, Decision (P a)} l : 0 < tally P l <-> exists a, a ∈ l /\ P a.
Proof.
  unfold tally. split.
  - intros Hl. destruct (filter P l) as [|a k] eqn:E; [done|]. exists a.
    assert (P a /\ a ∈ l) as [? ?] by (apply (proj1 (list_elem_of_filter P l a)); rewrite E; by left). done.
  - intros (a&Ha&HP). assert (a ∈ filter P l) as Hin by (by apply (proj2 (list_elem_of_filter P l a))).
    destruct (filter P l) as [|b k]; [by apply elem_of_nil in Hin|]. rewrite zlen_cons. pose proof (zlen_nonneg k). lia.
Qed.

Lemma tally_lookup_pos P `{forall a, Decision (P a)} l i a : l !! i = Some a -> P a -> 0 < tally P l.
Proof. intros Hi HP. apply tally_pos. exists a. split; [by eapply list_elem_of_lookup_2|done]. Qed.

End Tally.

(** ** Calls and relations between their states

    [keeps R m]: whatever its outcome, the call [m] relates the state it starts
    from to the state it ends in by [R]. *)

Definition keeps {S A} (R : relation S) (m : M S A) : Prop :=
  forall s r s', m s = (r, s') -> R s s'.

Section Keeps.
Context {S : Type} (R : relation S) `{!PreOrder R}.

Lemma keeps_ret {A} (a : A) : keeps R (mret a : M S A).
Proof. intros s r s' [= <- <-]. reflexivity. Qed.

Lemma keeps_fail {A} e : keeps R (fail e : M S A).
Proof. intros s r s' [= <- <-]. reflexivity. Qed.

Lemma keeps_panic {A} e : keeps R (panic e : M S A).
Proof. intros s r s' [= <- <-]. reflexivity. Qed.

Lemma keeps_of_res {A} (x : Res A) : keeps R (of_res x : M S A).
Proof. intros s r s' [= <- <-]. reflexivity. Qed.

Lemma keeps_get : keeps R (get : M S S).
Proof. intros s r s' [= <- <-]. reflexivity. Qed.

Lemma keeps_gets {A} (f : S -> A) : keeps R (gets f).
Proof. intros s r s' [= <- <-]. reflexivity. Qed.

Lemma keeps_modify f : (forall s, R s (f s)) -> keeps R (modify f).
Proof. intros H s r s' [= <- <-]. apply H. Qed.

Lemma keeps_bind {A B} (m : M S A) (k : A -> M S B) :
  keeps R m -> (forall a, keeps R (k a)) -> keeps R (m ≫= k).
Proof.
  intros Hm Hk s r s'. unfold mbind, M_bind. destruct (m s) as [[a|e|p] s1] eqn:E; intros H.
  - etrans; [by eapply Hm|by eapply Hk].
  - simplify_eq. by eapply Hm.
  - simplify_eq. by eapply Hm.
Qed.

Lemma keeps_map_err {A} g (m : M S A) : keeps R m -> keeps R (map_err g m).
Proof.
  intros Hm s r s'. unfold map_err. destruct (m s) as [[a|e|p] s1] eqn:E; intros [= <- <-]; by eapply Hm.
Qed.

Lemma keeps_attempt {A} (m : M S A) : keeps R m -> keeps R (attempt m).
Proof.
  intros Hm s r s'. unfold attempt. destruct (m s) as [[a|e|p] s1] eqn:E; intros [= <- <-]; by eapply Hm.
Qed.

Lemma keeps_for_each {A} (l : list A) (body : A -> M S unit) :
  (forall a, a ∈ l -> keeps R (body a)) -> keeps R (for_each l body).
Proof.
  induction l as [|a l IH]; intros H; simpl; [apply keeps_ret|].
  apply keeps_bind; [apply H; by left|intros _; apply IH; intros; apply H; by right].
Qed.

End Keeps.

Lemma keeps_zoom {S T A} (RS : relation S) (RT : relation T) proj upd (m : M T A) :
  keeps RT m -> (forall s t, RT (proj s) t -> RS s (upd t s)) -> keeps RS (zoom proj upd m).
Proof.
  intros Hm Hu s r s'. unfold zoom. destruct (m (proj s)) as [r1 t] eqn:E. intros [= <- <-].
  eapply Hu, Hm, E.
Qed.

Lemma keeps_zoom1 {S T A} (R : relation (S * T)) (RS : relation S) (m : M S A) :
  keeps RS m -> (forall s s' t, RS s s' -> R (s, t) (s', t)) -> keeps R (zoom1 m).
Proof.
  intros Hm Hu [s t] r s'. unfold zoom1. simpl. destruct (m s) as [r1 s1] eqn:E. intros [= <- <-].
  eapply Hu, Hm, E.
Qed.

Lemma keeps_zoom2 {S T A} (R : relation (S * T)) (RT : relation T) (m : M T A) :
  keeps RT m -> (forall s t t', RT t t' -> R (s, t) (s, t')) -> keeps R (zoom2 m).
Proof.
  intros Hm Hu [s t] r s'. unfold zoom2. simpl. destruct (m t) as [r1 t1] eqn:E. intros [= <- <-].
  eapply Hu, Hm, E.
Qed.

Lemma keeps_weaken {S A} (R R' : relation S) (m : M S A) :
  (forall s s', R s s' -> R' s s') -> keeps R m -> keeps R' m.
Proof. intros H Hm s r s' E. eapply H, Hm, E. Qed.

(** The relation that fixes the image of a projection. *)
Definition fixes {S T} (f : S -> T) : relation S := fun s s' => f s' = f s.

#[global] Instance fixes_preorder {S T} (f : S -> T) : PreOrder (fixes f).
Proof. split; [by intros x|]. unfold fixes. intros x y z H1 H2. congruence. Qed.

(** Closes [keeps R m] for a call built from the combinators. *)
Ltac keeps_tac :=
  repeat first
    [ apply keeps_ret; apply _ | apply keeps_fail; apply _ | apply keeps_panic; apply _
    | apply keeps_of_res; apply _ | apply keeps_get; apply _ | apply keeps_gets; apply _
    | apply keeps_bind; [apply _| |intros]
    | apply keeps_map_err | apply keeps_attempt
    | eassumption
    | case_match ].

Create HintDb go discriminated.
Create Rewrite HintDb go.
#[export] Hint Rewrite @zlen_app @zlen_cons @zlen_nil : go.
#[export] Hint Resolve u32_range u64_range zlen_nonneg : go.
