(* ===== verification/GoStd.v ===== *)
(** * The parts of the Go standard library the handlers use

    strconv, encoding/hex, encoding/base64 and the formats of package time, as
    executable functions on strings of bytes, with the round trips the
    pagination of the handlers depends on. *)

From S2P Require Import Prelude.

(** ** strconv *)

Definition digit_of (c : Ascii.ascii) : option N :=
  let n := Ascii.N_of_ascii c in
  if decide (48 <= n /\ n <= 57)%N then Some (n - 48)%N else None.

(** The value of a string of decimal digits read after [acc]. *)
Fixpoint parse_digits (s : string) (acc : N) : option N :=
  match s with
  | EmptyString => Some acc
  | String c s => d ← digit_of c; parse_digits s (acc * 10 + d)%N
  end.

Definition syntax_error (fn s : string) : error :=
  EExt ("strconv." +:+ fn +:+ ": parsing '" +:+ s +:+ "': invalid syntax").
Definition range_error (fn s : string) : error :=
  EExt ("strconv." +:+ fn +:+ ": parsing '" +:+ s +:+ "': value out of range").

(** [strconv.ParseUint(s, 10, bitSize)] *)
Definition ParseUint (s : string) (bitSize : Z) : Res Z :=
  if decide (s = "") then Err (syntax_error "ParseUint" s)
  else match parse_digits s 0 with
  | None => Err (syntax_error "ParseUint" s)
  | Some n => if decide (Z.of_N n < 2 ^ bitSize) then Ok (Z.of_N n)
              else Err (range_error "ParseUint" s)
  end.

(** [strconv.ParseInt(s, 10, bitSize)]: an optional sign, then digits. *)
Definition ParseInt (s : string) (bitSize : Z) : Res Z :=
  let '(neg, digits) :=
    match s with
    | String c r => if decide (c = Ascii.ascii_of_nat 45) then (true, r)
                    else if decide (c = Ascii.ascii_of_nat 43) then (false, r) else (false, s)
    | EmptyString => (false, s)
    end in
  if decide (digits = "") then Err (syntax_error "ParseInt" s)
  else match parse_digits digits 0 with
  | None => Err (syntax_error "ParseInt" s)
  | Some n =>
      if (neg : bool)
      then if decide (Z.of_N n <= 2 ^ (bitSize - 1)) then Ok (- Z.of_N n) else Err (range_error "ParseInt" s)
      else if decide (Z.of_N n < 2 ^ (bitSize - 1)) then Ok (Z.of_N n) else Err (range_error "ParseInt" s)
  end.

(** [strconv.FormatUint], [strconv.FormatInt], [strconv.Itoa] *)
Definition FormatUint (z : Z) : string := pretty z.

(** ** encoding/hex *)

Definition hex_digit (n : N) : Ascii.ascii :=
  Ascii.ascii_of_N (if decide (n < 10)%N then 48 + n else 87 + n)%N.

Definition hex_value (c : Ascii.ascii) : option N :=
  let n := Ascii.N_of_ascii c in
  if decide (48 <= n /\ n <= 57)%N then Some (n - 48)%N
  else if decide (97 <= n /\ n <= 102)%N then Some (n - 87)%N
  else if decide (65 <= n /\ n <= 70)%N then Some (n - 55)%N
  else None.

(** [hex.EncodeToString] *)
Fixpoint hex_EncodeToString (s : string) : string :=
  match s with
  | EmptyString => ""
  | String c s =>
      let n := Ascii.N_of_ascii c in
      String (hex_digit (n / 16)) (String (hex_digit (n mod 16)) (hex_EncodeToString s))
  end.

Definition hex_byte_error : error := EExt "encoding/hex: invalid byte".

(** [hex.Decode] into a destination of the right size *)
Fixpoint hex_Decode (s : string) : Res string :=
  match s with
  | EmptyString => Ok ""
  | String a (String b s) =>
      match hex_value a, hex_value b with
      | Some x, Some y => r ← hex_Decode s; Ok (String (Ascii.ascii_of_N (16 * x + y)) r)
      | _, _ => Err hex_byte_error
      end
  | String a EmptyString =>
      match hex_value a with
      | Some _ => Err (EExt "encoding/hex: odd length hex string")
      | None => Err hex_byte_error
      end
  end.

(** ** encoding/base64 *)

Definition base64_char (n : N) : Ascii.ascii :=
  Ascii.ascii_of_N
    (if decide (n < 26)%N then 65 + n
     else if decide (n < 52)%N then 71 + n
     else if decide (n < 62)%N then n - 4
     else if decide (n = 62)%N then 43 else 47)%N.

Definition base64_pad : Ascii.ascii := Ascii.ascii_of_nat 61.

(** [base64.StdEncoding.EncodeToString] *)
Fixpoint base64_EncodeToString (s : string) : string :=
  match s with
  | EmptyString => ""
  | String a EmptyString =>
      let n := (Ascii.N_of_ascii a * 65536)%N in
      String (base64_char (n / 262144)) (String (base64_char (n / 4096 mod 64))
        (String base64_pad (String base64_pad "")))
  | String a (String b EmptyString) =>
      let n := (Ascii.N_of_ascii a * 65536 + Ascii.N_of_ascii b * 256)%N in
      String (base64_char (n / 262144)) (String (base64_char (n / 4096 mod 64))
        (String (base64_char (n / 64 mod 64)) (String base64_pad "")))
  | String a (String b (String c s)) =>
      let n := (Ascii.N_of_ascii a * 65536 + Ascii.N_of_ascii b * 256 + Ascii.N_of_ascii c)%N in
      String (base64_char (n / 262144)) (String (base64_char (n / 4096 mod 64))
        (String (base64_char (n / 64 mod 64)) (String (base64_char (n mod 64)) (base64_EncodeToString s))))
  end.

(** ** time *)

(** Decimal digits padded with zeros to a width. *)
Definition zero_pad (width : nat) (z : Z) : string :=
  let s := pretty z in
  String.append (String.concat "" (replicate (width - String.length s) "0")) s.

(** Year, month and day of a day number counted from 1970-01-01, in the
    proleptic Gregorian calendar. *)
Definition civil_of_days (days : Z) : Z * Z * Z :=
  let z := days + 719468 in
  let era := z / 146097 in
  let doe := z mod 146097 in
  let yoe := (doe - doe / 1460 + doe / 36524 - doe / 146096) / 365 in
  let doy := doe - (365 * yoe + yoe / 4 - yoe / 100) in
  let mp := (5 * doy + 2) / 153 in
  let d := doy - (153 * mp + 2) / 5 + 1 in
  let m := if decide (mp < 10) then mp + 3 else mp - 9 in
  (yoe + era * 400 + (if decide (m <= 2) then 1 else 0), m, d).

(** [time.Unix(t, 0).UTC().Format(time.RFC3339)], for years 0 to 9999 *)
Definition FormatRFC3339 (t : Z) : string :=
  let '(y, m, d) := civil_of_days (t / 86400) in
  let sec := t mod 86400 in
  zero_pad 4 y +:+ "-" +:+ zero_pad 2 m +:+ "-" +:+ zero_pad 2 d +:+ "T" +:+
  zero_pad 2 (sec / 3600) +:+ ":" +:+ zero_pad 2 (sec / 60 mod 60) +:+ ":" +:+ zero_pad 2 (sec mod 60) +:+ "Z".

(** The fraction [v / 10^prec] of a duration without trailing zeros, and what is
    left of [v]: [fmtFrac] of package time. *)
Fixpoint fmt_frac (v : Z) (prec : nat) (print : bool) (acc : string) : string * Z :=
  match prec with
  | O => ((if print then "." +:+ acc else acc), v)
  | S prec =>
      let digit := v mod 10 in
      let print := print || negb (bool_decide (digit = 0)) in
      fmt_frac (v / 10) prec print (if (print : bool) then pretty digit +:+ acc else acc)
  end.

(** [Duration.String], of a duration in nanoseconds *)
Definition Duration_String (d : Z) : string :=
  let u := Z.abs d in
  let body :=
    if decide (u = 0) then "0s"
    else if decide (u < 1000) then pretty u +:+ "ns"
    else if decide (u < 1000000) then let '(f, q) := fmt_frac u 3 false "" in pretty q +:+ f +:+ "µs"
    else if decide (u < 1000000000) then let '(f, q) := fmt_frac u 6 false "" in pretty q +:+ f +:+ "ms"
    else
      let '(f, q) := fmt_frac u 9 false "" in
      let secs := pretty (q mod 60) +:+ f +:+ "s" in
      let mins := q / 60 in
      if decide (mins = 0) then secs
      else if decide (mins / 60 = 0) then pretty (mins mod 60) +:+ "m" +:+ secs
      else pretty (mins / 60) +:+ "h" +:+ pretty (mins mod 60) +:+ "m" +:+ secs in
  if decide (d < 0) then "-" +:+ body else body.

(** [d.Round(time.Second)]: to the nearest multiple, halfway away from zero *)
Definition Round_Second (d : Z) : Z :=
  let m := 1000000000 in
  let r := Z.rem d m in
  if decide (d < 0)
  then if decide (- r + - r < m) then d - r else d - m - r
  else if decide (r + r < m) then d - r else d + m - r.

Example FormatRFC3339_examples :
  FormatRFC3339 0 = "1970-01-01T00:00:00Z" /\
  FormatRFC3339 951782399 = "2000-02-28T23:59:59Z" /\
  FormatRFC3339 951782400 = "2000-02-29T00:00:00Z" /\
  FormatRFC3339 1735689600 = "2025-01-01T00:00:00Z".
Proof. vm_compute. done. Qed.

Example encodings :
  base64_EncodeToString "any carnal pleas" = "YW55IGNhcm5hbCBwbGVhcw==" /\
  hex_EncodeToString "Hi!" = "486921" /\ hex_Decode "4869" = Ok "Hi" /\ hex_Decode "48z" = Err hex_byte_error /\
  ParseUint "4294967296" 32 = Err (range_error "ParseUint" "4294967296") /\
  ParseInt "-9223372036854775808" 64 = Ok (- 2 ^ 63) /\
  Duration_String 5400500000000 = "1h30m0.5s" /\ Duration_String 1500000 = "1.5ms" /\
  Round_Second 2500000000 = 3000000000.
Proof. vm_compute. done. Qed.

(** ** Round trips *)

Lemma digit_of_pretty x : (x < 10)%N -> digit_of (pretty_N_char x) = Some x.
Proof.
  intros Hx.
  assert (x = 0 \/ x = 1 \/ x = 2 \/ x = 3 \/ x = 4 \/ x = 5 \/ x = 6 \/ x = 7 \/ x = 8 \/ x = 9)%N
    as Hc by lia.
  by repeat destruct Hc as [->|Hc]; [..|subst].
Qed.

Lemma parse_digits_pretty_go x s :
  parse_digits (pretty_N_go x s) 0 = parse_digits s x.
Proof.
  revert s. induction (N.lt_wf_0 x) as [x _ IH]; intros s.
  destruct (decide (x = 0)%N) as [->|Hx]; [by rewrite pretty_N_go_0|].
  rewrite pretty_N_go_step by lia. rewrite IH by (apply N.div_lt; lia). csimpl.
  rewrite digit_of_pretty by (apply N.mod_lt; lia). csimpl. f_equal.
  rewrite N.mul_comm. symmetry. by apply N.div_mod.
Qed.

Lemma parse_digits_pretty z : 0 <= z -> parse_digits (pretty z) 0 = Some (Z.to_N z).
Proof.
  intros Hz. destruct z as [|p|p]; [done| |lia].
  change (pretty (Zpos p)) with (pretty (Npos p)). unfold pretty, pretty_N. simpl.
  by rewrite parse_digits_pretty_go.
Qed.

(** A decimal rendering starts with a digit. *)
Definition starts_with_digit (s : string) : Prop :=
  match s with String c _ => is_Some (digit_of c) | EmptyString => False end.

Lemma pretty_N_go_digit x s : starts_with_digit s \/ (0 < x)%N -> starts_with_digit (pretty_N_go x s).
Proof.
  revert s. induction (N.lt_wf_0 x) as [x _ IH]; intros s H.
  destruct (decide (x = 0)%N) as [->|Hx].
  { rewrite pretty_N_go_0. destruct H as [?|H]; [done|lia]. }
  rewrite pretty_N_go_step by lia. apply IH; [apply N.div_lt; lia|]. left. simpl.
  rewrite digit_of_pretty by (apply N.mod_lt; lia). done.
Qed.

Lemma pretty_starts_with_digit z : 0 <= z -> starts_with_digit (pretty z).
Proof.
  intros Hz. destruct z as [|p|p]; [by eexists| |lia].
  change (pretty (Zpos p)) with (pretty (Npos p)). unfold pretty, pretty_N. simpl.
  apply pretty_N_go_digit. right. lia.
Qed.

(** Parsing reads back what formatting wrote, when it fits. *)
Lemma ParseUint_FormatUint z bitSize :
  0 <= z < 2 ^ bitSize -> ParseUint (FormatUint z) bitSize = Ok z.
Proof.
  intros Hz. unfold ParseUint, FormatUint.
  rewrite decide_False, parse_digits_pretty by (try lia; intros E;
    pose proof (pretty_starts_with_digit z ltac:(lia)) as H; by rewrite E in H).
  by rewrite Z2N.id, decide_True by lia.
Qed.

Lemma ParseInt_FormatUint z bitSize :
  0 <= z < 2 ^ (bitSize - 1) -> ParseInt (FormatUint z) bitSize = Ok z.
Proof.
  intros Hz. unfold ParseInt, FormatUint.
  pose proof (pretty_starts_with_digit z ltac:(lia)) as H.
  destruct (pretty z) as [|c r] eqn:E; [done|]. simpl in H.
  rewrite !decide_False by (intros ->; by destruct H).
  rewrite decide_False by done. rewrite <- E, parse_digits_pretty by lia.
  by rewrite Z2N.id, decide_True by lia.
Qed.

Lemma hex_value_digit n : (n < 16)%N -> hex_value (hex_digit n) = Some n.
Proof.
  intros Hn. unfold hex_value, hex_digit. rewrite Ascii.N_ascii_embedding by (case_decide; lia).
  repeat case_decide; f_equal; lia.
Qed.

(** Decoding reads back what encoding wrote. *)
Lemma hex_Decode_Encode s : hex_Decode (hex_EncodeToString s) = Ok s.
Proof.
  induction s as [|c s IH]; [done|]. simpl.
  pose proof (Ascii.N_ascii_bounded c).
  rewrite !hex_value_digit by (first [apply N.mod_lt; lia|apply N.Div0.div_lt_upper_bound; lia]).
  rewrite IH. simpl. do 2 f_equal. rewrite <- N.div_mod by lia. apply Ascii.ascii_N_embedding.
Qed.

Lemma hex_EncodeToString_length s : String.length (hex_EncodeToString s) = (2 * String.length s)%nat.
Proof. induction s as [|c s IH]; simpl; lia. Qed.
