(* ===== verification/GoText.v ===== *)
(** * The text functions of the Go standard library the configuration uses

    strings.ToLower, strings.Split, strings.Fields, strconv.ParseBool,
    time.ParseDuration, as executable functions on strings of bytes.  The
    fraction of a duration is multiplied in IEEE double precision, as package
    time does, with the specification floats of the Standard Library. *)

From Stdlib Require Import Floats.SpecFloat.
From S2P Require Import Prelude GoStd.

Definition char (n : nat) : Ascii.ascii := Ascii.ascii_of_nat n.

(** The text between double quotes, of the [%q] verb (escapes are left out: it
    only occurs in the text of errors). *)
Definition quoted (s : string) : string := String (char 34) (s +:+ String (char 34) "").

(** ** strings *)

Definition lower_char (c : Ascii.ascii) : Ascii.ascii :=
  let n := Ascii.nat_of_ascii c in
  if decide (65 <= n /\ n <= 90)%nat then char (n + 32) else c.

(** [strings.ToLower] on ASCII text: a byte outside of it is kept. *)
Fixpoint ToLower (s : string) : string :=
  match s with
  | EmptyString => ""
  | String c s => String (lower_char c) (ToLower s)
  end.

(** [strings.Split(s, sep)] for a separator of one byte *)
Fixpoint Split (sep : Ascii.ascii) (s : string) : list string :=
  match s with
  | EmptyString => [""]
  | String c s =>
      match Split sep s with
      | w :: ws => if decide (c = sep) then "" :: w :: ws else String c w :: ws
      | [] => [String c ""]
      end
  end.

(** [strings.Join] *)
Definition Join (l : list string) (sep : string) : string := String.concat sep l.

(** ASCII white space: tab, line feed, vertical tab, form feed, carriage return
    and space. *)
Definition is_space (c : Ascii.ascii) : bool :=
  let n := Ascii.nat_of_ascii c in bool_decide (n = 32 \/ (9 <= n /\ n <= 13))%nat.

(** [strings.Fields] on ASCII text; [word] is the word being read. *)
Fixpoint fields_from (s word : string) : list string :=
  match s with
  | EmptyString => if decide (word = "") then [] else [word]
  | String c s =>
      if is_space c
      then if decide (word = "") then fields_from s "" else word :: fields_from s ""
      else fields_from s (word +:+ String c "")
  end.
Definition Fields (s : string) : list string := fields_from s "".

(** ** strconv *)

(** [strconv.ParseBool] *)
Definition ParseBool (s : string) : Res bool :=
  if bool_decide (s ∈ ["1"; "t"; "T"; "TRUE"; "true"; "True"]) then Ok true
  else if bool_decide (s ∈ ["0"; "f"; "F"; "FALSE"; "false"; "False"]) then Ok false
  else Err (syntax_error "ParseBool" s).

(** [strconv.FormatBool] *)
Definition FormatBool (b : bool) : string := if b then "true" else "false".

(** [strconv.FormatInt(z, 10)] *)
Definition FormatInt (z : Z) : string := pretty z.

(** ** time.ParseDuration *)

Definition is_digit (c : Ascii.ascii) : bool := bool_decide (is_Some (digit_of c)).

(** [float64(z)], and [uint64(f)] of a float that is not negative *)
Definition float64 (z : Z) : spec_float := binary_normalize 53 1024 z 0 false.
Definition trunc_float64 (f : spec_float) : Z :=
  match f with
  | S754_finite _ m e => if decide (0 <= e) then Zpos m * 2 ^ e else Zpos m / 2 ^ (- e)
  | _ => 0
  end.

(** [leadingInt]: the digits at the front, [None] when they pass 2^63. *)
Fixpoint leadingInt (s : string) (x : Z) : option (Z * string) :=
  match s with
  | EmptyString => Some (x, s)
  | String c r =>
      match digit_of c with
      | None => Some (x, s)
      | Some d =>
          if decide (2 ^ 63 / 10 < x) then None
          else let x := x * 10 + Z.of_N d in
               if decide (2 ^ 63 < x) then None else leadingInt r x
      end
  end.

(** [leadingFraction]: the digits at the front and their scale; the ones that do
    not fit are skipped. *)
Fixpoint leadingFraction (s : string) (x scale : Z) (overflow : bool) : Z * Z * string :=
  match s with
  | EmptyString => (x, scale, s)
  | String c r =>
      match digit_of c with
      | None => (x, scale, s)
      | Some d =>
          if overflow || bool_decide ((2 ^ 63 - 1) / 10 < x)
          then leadingFraction r x scale true
          else let y := x * 10 + Z.of_N d in
               if decide (2 ^ 63 < y) then leadingFraction r x scale true
               else leadingFraction r y (scale * 10) false
      end
  end.

(** The unit at the front: what precedes the next digit or dot. *)
Fixpoint span_unit (s : string) : string * string :=
  match s with
  | EmptyString => ("", "")
  | String c r =>
      if decide (c = char 46) then ("", s)
      else if is_digit c then ("", s)
      else let '(u, rest) := span_unit r in (String c u, rest)
  end.

(** [unitMap] *)
Definition unitMap (u : string) : option Z :=
  if decide (u = "ns") then Some 1
  else if decide (u = "us") then Some 1000
  else if decide (u = "µs") then Some 1000
  else if decide (u = "μs") then Some 1000
  else if decide (u = "ms") then Some 1000000
  else if decide (u = "s") then Some 1000000000
  else if decide (u = "m") then Some 60000000000
  else if decide (u = "h") then Some 3600000000000
  else None.

(** One number with its unit: nanoseconds and the rest of the text. *)
Definition duration_part (orig s : string) : Res (Z * string) :=
  let invalid := Err (EExt ("time: invalid duration " +:+ quoted orig)) in
  match s with
  | EmptyString => invalid
  | String c _ =>
      if negb (bool_decide (c = char 46) || is_digit c) then invalid
      else match leadingInt s 0 with
      | None => invalid
      | Some (v, s1) =>
          let pre := negb (bool_decide (s1 = s)) in
          let '(f, scale, s2, post) :=
            match s1 with
            | String c1 r1 =>
                if decide (c1 = char 46)
                then let '(f, scale, s2) := leadingFraction r1 0 1 false in
                     (f, scale, s2, negb (bool_decide (s2 = r1)))
                else (0, 1, s1, false)
            | EmptyString => (0, 1, s1, false)
            end in
          if negb pre && negb post then invalid
          else let '(u, rest) := span_unit s2 in
          if decide (u = "") then Err (EExt ("time: missing unit in duration " +:+ quoted orig))
          else match unitMap u with
          | None => Err (EExt ("time: unknown unit " +:+ quoted u +:+ " in duration " +:+ quoted orig))
          | Some unit =>
              if decide (2 ^ 63 / unit < v) then invalid
              else
                let v := v * unit in
                let v :=
                  if decide (0 < f)
                  then v + trunc_float64 (SFmul 53 1024 (float64 f) (SFdiv 53 1024 (float64 unit) (float64 scale)))
                  else v in
                if decide (0 < f /\ 2 ^ 63 < v) then invalid else Ok (v, rest)
          end
      end
  end.

(** The loop over the parts: each takes at least one byte, so the length of the
    text bounds the number of rounds. *)
Fixpoint duration_parts (fuel : nat) (orig s : string) (d : Z) : Res Z :=
  match s, fuel with
  | EmptyString, _ => Ok d
  | _, O => Err (EExt "out of fuel")
  | _, S fuel =>
      '(v, rest) ← duration_part orig s;
      let d := u64 (d + v) in
      if decide (2 ^ 63 < d) then Err (EExt ("time: invalid duration " +:+ quoted orig))
      else duration_parts fuel orig rest d
  end.

(** [time.ParseDuration]: nanoseconds *)
Definition ParseDuration (orig : string) : Res Z :=
  let '(neg, s) :=
    match orig with
    | String c r => if decide (c = char 45) then (true, r)
                    else if decide (c = char 43) then (false, r) else (false, orig)
    | EmptyString => (false, orig)
    end in
  if decide (s = "0") then Ok 0
  else if decide (s = "") then Err (EExt ("time: invalid duration " +:+ quoted orig))
  else
    d ← duration_parts (String.length s) orig s 0;
    if (neg : bool) then Ok (- d)
    else if decide (2 ^ 63 - 1 < d) then Err (EExt ("time: invalid duration " +:+ quoted orig))
    else Ok d.

Definition Second : Z := 1000000000.
Definition Minute : Z := 60 * Second.

Example durations :
  ParseDuration "2s" = Ok (2 * Second) /\ ParseDuration "1h15m30.918s" = Ok 4530918000000 /\
  ParseDuration "-1.5h" = Ok (- 5400 * Second) /\ ParseDuration ".5m" = Ok (30 * Second) /\
  ParseDuration "0" = Ok 0 /\ ParseDuration "9223372036854775807ns" = Ok (2 ^ 63 - 1) /\
  ParseDuration "0.9223372036854775807h" = Ok 3320413933267 /\
  (exists e, ParseDuration "3" = Err e) /\ (exists e, ParseDuration "." = Err e) /\
  (exists e, ParseDuration "3000000h" = Err e) /\ (exists e, ParseDuration "1x" = Err e).
Proof. vm_compute. split_and!; eauto. Qed.

Example splits :
  Split (char 44) "a,b,,c" = ["a"; "b"; ""; "c"] /\ Split (char 44) "" = [""] /\
  Fields " two  words " = ["two"; "words"] /\ ToLower "TrUE" = "true".
Proof. vm_compute. done. Qed.

(** ** The fuel of the loop over the parts is enough *)

Lemma leadingInt_length s x v r : leadingInt s x = Some (v, r) -> (String.length r <= String.length s)%nat.
Proof.
  revert x. induction s as [|c s IH]; intros x; simpl; [by intros [= _ <-]|].
  destruct (digit_of c); [|by intros [= _ <-]].
  repeat case_decide; try done. intros Hr%IH; lia.
Qed.

Lemma leadingFraction_length s x k o v k' r :
  leadingFraction s x k o = (v, k', r) -> (String.length r <= String.length s)%nat.
Proof.
  revert x k o. induction s as [|c s IH]; intros x k o; simpl; [by intros [= _ _ <-]|].
  destruct (digit_of c); [|by intros [= _ _ <-]].
  destruct (_ || _); [|case_decide]; intros Hr%IH; lia.
Qed.

Lemma span_unit_length s u r :
  span_unit s = (u, r) -> String.length s = (String.length u + String.length r)%nat.
Proof.
  revert u. induction s as [|c s IH]; intros u; simpl; [by intros [= <- <-]|].
  case_decide; [by intros [= <- <-]|]. destruct (is_digit c); [by intros [= <- <-]|].
  destruct (span_unit s) as [u' r'] eqn:E. intros [= <- <-]. simpl. by rewrite (IH u').
Qed.

(** A part takes at least the byte of its unit. *)
Lemma duration_part_shorter orig s v r :
  duration_part orig s = Ok (v, r) -> (String.length r < String.length s)%nat.
Proof.
  unfold duration_part. destruct s as [|c s]; [done|]. set (s0 := String c s).
  destruct (negb _); [done|]. destruct (leadingInt s0 0) as [[i s1]|] eqn:E1; [|done].
  apply leadingInt_length in E1.
  assert (exists f k s2 post, (String.length s2 <= String.length s1)%nat /\
    match s1 with
    | String c1 r1 =>
        if decide (c1 = char 46)
        then let '(f, scale, s2) := leadingFraction r1 0 1 false in
             (f, scale, s2, negb (bool_decide (s2 = r1)))
        else (0, 1, s1, false)
    | EmptyString => (0, 1, s1, false)
    end = (f, k, s2, post)) as (f&k&s2&post&H2&->).
  { destruct s1 as [|c1 r1]; [by eexists _, _, _, _|]. case_decide; [|by eexists _, _, _, _].
    destruct (leadingFraction r1 0 1 false) as [[f k] s2] eqn:E2.
    apply leadingFraction_length in E2. eexists _, _, _, _. split; [|done]. simpl. lia. }
  destruct (_ && _); [done|]. destruct (span_unit s2) as [u rest] eqn:E3.
  apply span_unit_length in E3. destruct (decide (u = "")) as [|Hu]; [done|].
  destruct (unitMap u); [|done]. case_decide; [done|]. cbv zeta. case_decide; [done|].
  intros [= _ <-]. destruct u; [done|]. simpl in E3. lia.
Qed.

Lemma duration_parts_fuel n k orig s d :
  (String.length s <= n)%nat -> (String.length s <= k)%nat ->
  duration_parts n orig s d = duration_parts k orig s d.
Proof.
  revert k s d. induction n as [|n IH]; intros k s d Hn Hk.
  { destruct s; simpl in *; [|lia]. by destruct k. }
  destruct s as [|c s]; [by destruct k|]. destruct k as [|k]; [simpl in Hk; lia|].
  cbn -[duration_part u64]. destruct (duration_part orig (String c s)) as [[v rest]|e|m] eqn:E; [|done..].
  apply duration_part_shorter in E. unfold mbind, Res_bind. case_decide; [done|].
  simpl in *. apply IH; lia.
Qed.

(** ** A duration fits 64 bits *)

Lemma duration_parts_range fuel orig s d r :
  0 <= d <= 2 ^ 63 -> duration_parts fuel orig s d = Ok r -> 0 <= r <= 2 ^ 63.
Proof.
  revert s d. induction fuel as [|fuel IH]; intros s d Hd; destruct s; cbn -[duration_part u64]; try done; try (by intros [= <-]).
  unfold mbind, Res_bind. destruct (duration_part _ _) as [[v rest]| |]; [|done..].
  case_decide; [done|]. apply IH. pose proof (u64_range (d + v)) as Hr. unfold is_u64 in Hr. lia.
Qed.

Lemma ParseDuration_range s d : ParseDuration s = Ok d -> - 2 ^ 63 <= d < 2 ^ 63.
Proof.
  unfold ParseDuration. destruct (match s with String _ _ => _ | _ => _ end) as [neg s1].
  case_decide; [intros [= <-]; lia|]. case_decide; [done|]. unfold mbind, Res_bind.
  destruct (duration_parts _ _ _ _) as [r| |] eqn:E; [|done..]. apply duration_parts_range in E; [|lia].
  destruct neg; [intros [= <-]; lia|]. case_decide; [done|]. intros [= <-]. lia.
Qed.
