(* ===== verification/GoStrings.v ===== *)
(** * Words, lines and durations as text

    strings.TrimSpace, what the functions of GoText.v guarantee about the words
    and the lines of a text, and the round trip of a duration of whole seconds. *)

From S2P Require Import Prelude GoStd GoText.

(** ** Concatenation and length *)

Definition strlen (s : string) : Z := Z.of_nat (String.length s).

Lemma string_cons_app c s t : String c s +:+ t = String c (s +:+ t).
Proof. done. Qed.

Lemma app_string_assoc s t u : (s +:+ t) +:+ u = s +:+ (t +:+ u).
Proof. induction s as [|c s IH]; [done|]. by rewrite !string_cons_app, IH. Qed.

Lemma app_string_nil s : s +:+ "" = s.
Proof. induction s as [|c s IH]; [done|]. by rewrite string_cons_app, IH. Qed.

Lemma string_length_app s t : String.length (s +:+ t) = (String.length s + String.length t)%nat.
Proof. induction s as [|c s IH]; [done|]. simpl. by rewrite IH. Qed.

Lemma strlen_app s t : strlen (s +:+ t) = strlen s + strlen t.
Proof. unfold strlen. rewrite string_length_app. lia. Qed.

(** ** Words *)

(** [strings.TrimSpace] *)
Fixpoint TrimLeft (s : string) : string :=
  match s with String c r => if is_space c then TrimLeft r else s | EmptyString => "" end.
Fixpoint TrimRight (s : string) : string :=
  match s with
  | String c r => let r := TrimRight r in if is_space c && bool_decide (r = "") then "" else String c r
  | EmptyString => ""
  end.
Definition TrimSpace (s : string) : string := TrimRight (TrimLeft s).

Fixpoint spaceless (s : string) : bool :=
  match s with String c s => negb (is_space c) && spaceless s | EmptyString => true end.

Definition word (s : string) : Prop := s ≠ "" /\ spaceless s = true.

Lemma spaceless_app s t : spaceless (s +:+ t) = spaceless s && spaceless t.
Proof. induction s as [|c s IH]; [done|]. simpl. by rewrite IH, andb_assoc. Qed.

Lemma fields_from_words s w : spaceless w = true -> Forall word (fields_from s w).
Proof.
  revert w. induction s as [|c s IH]; intros w Hw; simpl.
  - case_decide; by repeat constructor.
  - destruct (is_space c) eqn:Ec; [case_decide; [by apply IH|constructor; [done|by apply IH]]|].
    apply IH. rewrite spaceless_app, Hw. simpl. by rewrite Ec.
Qed.

Lemma Fields_words s : Forall word (Fields s).
Proof. by apply fields_from_words. Qed.

(** Reading a word *)
Lemma fields_from_app w s v : spaceless w = true -> fields_from (w +:+ s) v = fields_from s (v +:+ w).
Proof.
  revert v. induction w as [|c w IH]; intros v; simpl; [by rewrite app_string_nil|].
  intros [Hc Hw]%andb_prop. apply negb_true_iff in Hc. rewrite Hc, IH by done. by rewrite app_string_assoc.
Qed.

Lemma Fields_space w c s : word w -> is_space c = true -> Fields (w +:+ String c s) = w :: Fields s.
Proof.
  intros [Hn Hw] Hc. unfold Fields. rewrite fields_from_app by done. simpl. rewrite Hc. by rewrite decide_False.
Qed.

Lemma Fields_word w : word w -> Fields w = [w].
Proof.
  intros [Hn Hw]. rewrite <- (app_string_nil w) at 1. unfold Fields.
  rewrite fields_from_app by done. simpl. by rewrite decide_False.
Qed.

Lemma Fields_TrimLeft s : Fields (TrimLeft s) = Fields s.
Proof. induction s as [|c s IH]; [done|]. simpl. destruct (is_space c) eqn:E; [|done]. rewrite IH. unfold Fields. simpl. by rewrite E. Qed.

Lemma fields_from_TrimRight s w : fields_from (TrimRight s) w = fields_from s w.
Proof.
  revert w. induction s as [|c s IH]; intros w; [done|]. simpl.
  destruct (is_space c) eqn:Ec; cbn [andb]; [|simpl; by rewrite Ec, IH].
  case_bool_decide as Ht; [|simpl; rewrite Ec; by rewrite IH].
  specialize (IH ""). rewrite Ht in IH. simpl in IH. by rewrite <- IH.
Qed.

Lemma Fields_TrimSpace s : Fields (TrimSpace s) = Fields s.
Proof. rewrite <- (Fields_TrimLeft s). apply fields_from_TrimRight. Qed.

(** ** Lines *)

Fixpoint no_newline (s : string) : bool :=
  match s with String c s => negb (bool_decide (c = char 10)) && no_newline s | EmptyString => true end.

Lemma spaceless_no_newline s : spaceless s = true -> no_newline s = true.
Proof.
  induction s as [|c s IH]; [done|]. simpl. intros [Hc Hs]%andb_prop. rewrite IH by done.
  case_bool_decide; [by subst|done].
Qed.

Lemma no_newline_app s t : no_newline (s +:+ t) = no_newline s && no_newline t.
Proof. induction s as [|c s IH]; [done|]. simpl. by rewrite IH, andb_assoc. Qed.

Lemma Split_no_newline s : no_newline s = true -> Split (char 10) s = [s].
Proof.
  induction s as [|c s IH]; [done|]. simpl. intros [Hc Hs]%andb_prop. rewrite IH by done.
  rewrite decide_False; [done|]. intros ->. by rewrite bool_decide_true in Hc.
Qed.

Lemma Split_nonempty c s : exists w ws, Split c s = w :: ws.
Proof.
  induction s as [|c' s (w&ws&IH)]; simpl; [by eexists _, _|]. rewrite IH. case_decide; by eexists _, _.
Qed.

Lemma Split_newline s t : no_newline s = true -> Split (char 10) (s +:+ String (char 10) t) = s :: Split (char 10) t.
Proof.
  induction s as [|c s IH].
  - intros _. simpl. destruct (Split_nonempty (char 10) t) as (w&ws&->). done.
  - simpl. intros [Hc Hs]%andb_prop. rewrite IH by done.
    rewrite decide_False; [done|]. intros ->. by rewrite bool_decide_true in Hc.
Qed.

(** ** Durations *)

Lemma parse_digits_grows s acc r : parse_digits s acc = Some r -> (acc <= r)%N.
Proof.
  revert acc. induction s as [|c s IH]; intros acc; simpl; [intros [= ->]; lia|].
  destruct (digit_of c); [|done]. intros H%IH. lia.
Qed.

(** The digits of a number, up to what follows them *)
Lemma leadingInt_digits s rest n x :
  parse_digits s (Z.to_N x) = Some n -> 0 <= x -> Z.of_N n <= 2 ^ 63 -> ~ starts_with_digit rest ->
  leadingInt (s +:+ rest) x = Some (Z.of_N n, rest).
Proof.
  revert x. induction s as [|c s IH]; intros x Hp Hx Hn Hr; simpl in *.
  - injection Hp as <-. rewrite Z2N.id by done. destruct rest as [|c r]; [done|]. simpl in *.
    destruct (digit_of c); [|done]. destruct Hr. by eexists.
  - destruct (digit_of c) as [d|]; [|done]. simpl in Hp. pose proof (parse_digits_grows _ _ _ Hp) as Hg.
    replace (Z.to_N x * 10 + d)%N with (Z.to_N (x * 10 + Z.of_N d)) in Hp by lia.
    rewrite decide_False by (apply Zle_not_lt, Z.div_le_lower_bound; lia).
    rewrite decide_False by lia. apply IH; [done|lia|done|done].
Qed.

Lemma leadingInt_pretty z rest :
  0 <= z <= 2 ^ 63 -> ~ starts_with_digit rest -> leadingInt (pretty z +:+ rest) 0 = Some (z, rest).
Proof.
  intros Hz Hr. rewrite (leadingInt_digits _ _ (Z.to_N z)); [|by apply parse_digits_pretty; lia|lia|lia|done].
  by rewrite Z2N.id by lia.
Qed.

(** A text that ends, or goes on with a digit, after a unit *)
Definition unit_ends (s : string) : Prop := s = "" \/ starts_with_digit s.

Lemma duration_part_pretty orig z u unit rest :
  0 <= z -> unitMap u = Some unit -> z <= 2 ^ 63 / unit -> 0 < unit ->
  (forall r, unit_ends r -> span_unit (u +:+ r) = (u, r)) -> ~ starts_with_digit (u +:+ rest) ->
  (forall c r, u +:+ rest = String c r -> c ≠ char 46) -> unit_ends rest ->
  duration_part orig (pretty z +:+ (u +:+ rest)) = Ok (z * unit, rest).
Proof.
  intros Hz Hu Hle Hpos Hspan Hnd Hdot Hrest.
  assert (z <= 2 ^ 63) as Hz63 by (etrans; [exact Hle|apply Z.div_le_upper_bound; nia]).
  pose proof (pretty_starts_with_digit z Hz) as Hd. destruct (pretty z +:+ (u +:+ rest)) as [|c p] eqn:Ep.
  { exfalso. by destruct (pretty z). }
  assert (is_digit c = true) as Hc.
  { apply bool_decide_true. destruct (pretty z) as [|c' p']; [done|]. simpl in Ep. by injection Ep as -> _. }
  unfold duration_part. rewrite Hc, orb_true_r. cbn [negb]. rewrite <- Ep.
  rewrite leadingInt_pretty by (done || lia).
  assert (bool_decide (u +:+ rest = pretty z +:+ (u +:+ rest)) = false) as ->.
  { apply bool_decide_false. intros E. apply (f_equal String.length) in E. destruct (pretty z); [done|]. rewrite !string_length_app in E. simpl in E. lia. }
  assert (u ≠ "") as Hne by (intros ->; done). cbn [negb andb].
  destruct (u +:+ rest) as [|c1 r1] eqn:E1; [by destruct u|].
  rewrite decide_False by (by eapply Hdot). cbv zeta. rewrite <- E1, Hspan by done. cbn beta iota.
  rewrite decide_False, Hu, decide_False by (done || lia). rewrite decide_False by lia. by rewrite decide_False by lia.
Qed.

(** The three parts of a whole number of seconds *)
Lemma duration_part_unit orig z u unit rest :
  (u, unit) ∈ [("h", 3600000000000); ("m", 60000000000); ("s", 1000000000)] -> unit_ends rest ->
  0 <= z -> z * unit <= 2 ^ 63 -> duration_part orig (pretty z +:+ (u +:+ rest)) = Ok (z * unit, rest).
Proof.
  intros Hu Hrest Hz Hle.
  assert (forall r c, unit_ends r -> c ≠ char 46 -> is_digit c = false ->
    span_unit (String c r) = (String c "", r)) as Hspan.
  { intros r c Hr H1 H2. simpl. rewrite decide_False, H2 by done. destruct Hr as [->|Hr]; [done|].
    destruct r as [|c' r']; [done|]. simpl in *. case_decide as Hc; [subst; by destruct Hr|].
    assert (is_digit c' = true) as -> by (unfold is_digit; by apply bool_decide_true). done. }
  repeat (apply elem_of_cons in Hu as [Hu|Hu]); [injection Hu as -> ->..|by apply elem_of_nil in Hu].
  all: apply duration_part_pretty; [lia|done|apply Z.div_le_lower_bound; lia|lia|by intros r Hr; apply Hspan|
    intros [? ?]; done|by intros c r [= <- _]|done].
Qed.

(** A round of the loop *)
Lemma duration_parts_step orig z u unit rest d :
  (u, unit) ∈ [("h", 3600000000000); ("m", 60000000000); ("s", 1000000000)] -> unit_ends rest ->
  0 <= z -> 0 <= d -> d + z * unit <= 2 ^ 63 ->
  let s := pretty z +:+ (u +:+ rest) in
  duration_parts (String.length s) orig s d = duration_parts (String.length rest) orig rest (d + z * unit).
Proof.
  intros Hu Hrest Hz Hd Hle. cbn zeta.
  assert (0 <= unit) as Hunit.
  { repeat (apply elem_of_cons in Hu as [Hu|Hu]); [injection Hu as _ ->; lia..|by apply elem_of_nil in Hu]. }
  pose proof (duration_part_unit orig z u unit rest Hu Hrest Hz ltac:(nia)) as Hp.
  set (s := pretty z +:+ (u +:+ rest)) in *. pose proof (duration_part_shorter _ _ _ _ Hp) as Hs.
  destruct s as [|c s]; [simpl in Hs; lia|]. cbn -[duration_part u64]. rewrite Hp. unfold mbind, Res_bind.
  rewrite u64_small by (unfold is_u64; nia). rewrite decide_False by lia.
  apply duration_parts_fuel; simpl in *; lia.
Qed.

Lemma fmt_frac_zeros q n : fmt_frac (q * 10 ^ Z.of_nat n) n false "" = ("", q).
Proof.
  induction n as [|n IH]; [simpl; do 2 f_equal; lia|]. cbn [fmt_frac].
  replace (q * 10 ^ Z.of_nat (S n)) with (q * 10 ^ Z.of_nat n * 10) by (rewrite Nat2Z.inj_succ, Z.pow_succ_r; lia).
  rewrite Z.mod_mul, Z.div_mul by lia. by rewrite bool_decide_true by done.
Qed.

(** An unsigned text with more than one byte *)
Lemma ParseDuration_unsigned s d :
  starts_with_digit s -> (2 <= String.length s)%nat ->
  duration_parts (String.length s) s s 0 = Ok d -> d < 2 ^ 63 -> ParseDuration s = Ok d.
Proof.
  intros Hs Hl Hp Hd. unfold ParseDuration. destruct s as [|c r]; [done|]. simpl in Hs.
  rewrite !decide_False by (intros ->; by destruct Hs). cbn beta iota.
  rewrite decide_False by (intros E; rewrite E in Hl; simpl in Hl; lia). rewrite decide_False by done.
  rewrite Hp. cbn [mbind Res_bind]. by rewrite decide_False by lia.
Qed.

Lemma starts_with_digit_app s t : starts_with_digit s -> starts_with_digit (s +:+ t).
Proof. by destruct s. Qed.

(** A whole number of seconds is read back as it was written. *)
Lemma ParseDuration_String q :
  0 <= q -> q * Second < 2 ^ 63 -> ParseDuration (Duration_String (q * Second)) = Ok (q * Second).
Proof.
  unfold Second. intros Hq Hle. unfold Duration_String. rewrite Z.abs_eq by lia.
  destruct (decide (q = 0)) as [->|Hne]; [reflexivity|].
  rewrite !decide_False by lia. change 1000000000 with (10 ^ Z.of_nat 9) at 1. rewrite fmt_frac_zeros.
  pose proof (Z.div_mod q 60 ltac:(lia)) as Hdm. pose proof (Z.mod_pos_bound q 60 ltac:(lia)) as Hm.
  pose proof (Z.div_mod (q / 60) 60 ltac:(lia)) as Hdm2. pose proof (Z.mod_pos_bound (q / 60) 60 ltac:(lia)) as Hm2.
  assert (0 <= q / 60 /\ 0 <= q / 60 / 60) as [Hp1 Hp2] by (split; repeat apply Z.div_pos; lia).
  assert (forall z t, 0 <= z -> unit_ends (pretty z +:+ t)) as Hends.
  { intros z t Hz. right. by apply starts_with_digit_app, pretty_starts_with_digit. }
  assert (("h", 3600000000000) ∈ [("h", 3600000000000); ("m", 60000000000); ("s", 1000000000)] /\
    ("m", 60000000000) ∈ [("h", 3600000000000); ("m", 60000000000); ("s", 1000000000)] /\
    ("s", 1000000000) ∈ [("h", 3600000000000); ("m", 60000000000); ("s", 1000000000)]) as (Hh&Hmin&Hs)
    by (split_and!; [by left|by right; left|by right; right; left]).
  set (m := q / 60) in *. set (h := m / 60) in *. set (sec := q mod 60) in *. set (min := m mod 60) in *.
  assert (forall t u, starts_with_digit t -> u ≠ "" -> (2 <= String.length (t +:+ u))%nat) as Hlen.
  { intros t u Ht Hu. rewrite string_length_app. destruct t; [done|]. destruct u; [done|]. simpl. lia. }
  assert (forall z t, 0 <= z -> t ≠ "" -> starts_with_digit (pretty z +:+ t) /\ (2 <= String.length (pretty z +:+ t))%nat) as Hstart.
  { intros z t Hz Ht. split; [by apply starts_with_digit_app, pretty_starts_with_digit|].
    by apply Hlen; [apply pretty_starts_with_digit|]. }
  change ("" +:+ "s") with ("s" +:+ "").
  repeat case_decide.
  - apply ParseDuration_unsigned; [apply Hstart; (done || lia)..| |lia].
    rewrite (duration_parts_step _ sec "s" 1000000000 "" 0) by (done || lia || by left). simpl. f_equal. lia.
  - apply ParseDuration_unsigned; [apply Hstart; (done || lia)..| |lia].
    rewrite (duration_parts_step _ min "m" 60000000000 _ 0) by (done || lia || apply Hends; lia).
    rewrite (duration_parts_step _ sec "s" 1000000000 "") by (done || lia || by left). simpl. f_equal. lia.
  - apply ParseDuration_unsigned; [apply Hstart; (done || lia)..| |lia].
    rewrite (duration_parts_step _ h "h" 3600000000000 _ 0) by (done || lia || apply Hends; lia).
    rewrite (duration_parts_step _ min "m" 60000000000) by (done || lia || apply Hends; lia).
    rewrite (duration_parts_step _ sec "s" 1000000000 "") by (done || lia || by left). simpl. f_equal. lia.
Qed.
