(* ===== verification/GoFloat.v ===== *)
(** * Floating-point numbers as the Go standard library prints and reads them

    IEEE double precision is that of the Standard Library's specification
    floats: time.Duration.Seconds, the verb %.nf of package fmt and
    strconv.ParseFloat on decimal literals, all correctly rounded. *)

From Stdlib Require Import Floats.SpecFloat.
From S2P Require Import Prelude GoStd GoText GoStrings.

Definition float_add : spec_float -> spec_float -> spec_float := SFadd 53 1024.
Definition float_mul : spec_float -> spec_float -> spec_float := SFmul 53 1024.
Definition float_div : spec_float -> spec_float -> spec_float := SFdiv 53 1024.

(** [Duration.Seconds] *)
Definition Duration_Seconds (d : Z) : spec_float :=
  float_add (float64 (Z.quot d 1000000000)) (float_div (float64 (Z.rem d 1000000000)) (float64 1000000000)).

(** [Duration.Minutes] *)
Definition Duration_Minutes (d : Z) : spec_float :=
  float_add (float64 (Z.quot d 60000000000)) (float_div (float64 (Z.rem d 60000000000)) (float64 60000000000)).

(** [int(f)]: the fraction is dropped; what the language leaves open is 0 here. *)
Definition int_of_float (f : spec_float) : Z :=
  match f with
  | S754_finite s m e =>
      let v := if decide (0 <= e) then Zpos m * 2 ^ e else Zpos m / 2 ^ (- e) in if s then - v else v
  | _ => 0
  end.

(** The nearest integer to [n / d], ties to the even one *)
Definition round_half_even (n d : Z) : Z :=
  let q := n / d in
  let r := n mod d in
  if decide (2 * r < d) then q else if decide (2 * r > d) then q + 1 else if Z.even q then q else q + 1.

(** [%.nf]: the exact value, rounded to [prec] decimals *)
Definition FormatFixed (prec : nat) (f : spec_float) : string :=
  let scale := 10 ^ Z.of_nat prec in
  let sign (s : bool) := if s then "-" else "" in
  let digits n := pretty (n / scale) +:+ (if decide (prec = 0%nat) then "" else "." +:+ zero_pad prec (n mod scale)) in
  match f with
  | S754_zero s => sign s +:+ digits 0
  | S754_infinity s => if s then "-Inf" else "+Inf"
  | S754_nan => "NaN"
  | S754_finite s m e =>
      sign s +:+ digits (if decide (0 <= e) then Zpos m * 2 ^ e * scale
                         else round_half_even (Zpos m * scale) (2 ^ (- e)))
  end.

(** A decimal number, [(-1)^neg * n * 10^e], as the nearest double *)
Definition float_of_decimal (neg : bool) (n e : Z) : spec_float :=
  match n with
  | Zpos m =>
      if decide (0 <= e) then binary_normalize 53 1024 ((if neg then -1 else 1) * (n * 10 ^ e)) 0 neg
      else match 10 ^ (- e) with
      | Zpos d => float_div (S754_finite neg m 0) (S754_finite false d 0)
      | _ => S754_nan
      end
  | _ => S754_zero neg
  end.

(** The value of the digits of a string, other characters skipped *)
Fixpoint digits_value (s : string) (acc : Z) : Z :=
  match s with
  | EmptyString => acc
  | String c s => digits_value s (match digit_of c with Some d => acc * 10 + Z.of_N d | None => acc end)
  end.

Example ex_float :
  FormatFixed 0 (Duration_Seconds 90000000000) = "90" /\ FormatFixed 1 (Duration_Seconds 2500000000) = "2.5" /\
  FormatFixed 1 (float_div (float64 2) (float64 3)) = "0.7" /\ FormatFixed 1 (float64 (-7)) = "-7.0" /\
  int_of_float (Duration_Minutes 21600000000000) = 360 /\ int_of_float (Duration_Minutes 119999999999) = 1 /\
  FormatFixed 0 (float_div (float64 5) (float64 2)) = "2" /\
  FormatFixed 1 (float_of_decimal false 601 (-1)) = "60.1" /\ float_of_decimal false 1 (-1) = float_div (float64 1) (float64 10) /\
  FormatFixed 1 (float_of_decimal true 25 1) = "-250.0".
Proof. vm_compute. repeat split. Qed.

Lemma round_half_even_exact q d : 0 < d -> round_half_even (q * d) d = q.
Proof.
  intros H. unfold round_half_even. rewrite Z.div_mul, Z.mod_mul by lia. by rewrite decide_True by lia.
Qed.
