(* ===== verification/GoCodec.v ===== *)
(** * Text encodings of the Go standard library

    The decoder of base64.StdEncoding, the runes of a string as the package
    unicode/utf8 reads them, and the string literals of encoding/json, with the
    round trips of both encodings. *)

From S2P Require Import Prelude GoStd GoText GoStrings.

(** ** encoding/base64 *)

Definition base64_value (c : Ascii.ascii) : option N :=
  let n := Ascii.N_of_ascii c in
  if decide (65 <= n /\ n <= 90)%N then Some (n - 65)%N
  else if decide (97 <= n /\ n <= 122)%N then Some (n - 71)%N
  else if decide (48 <= n /\ n <= 57)%N then Some (n + 4)%N
  else if decide (n = 43)%N then Some 62%N
  else if decide (n = 47)%N then Some 63%N
  else None.

Definition corrupt_input : error := EExt "illegal base64 data".

Definition byte (n : N) : Ascii.ascii := Ascii.ascii_of_N n.

(** The quanta of four characters, the line breaks already dropped.  The bits
    left over in a padded quantum are not looked at (the encoding is not strict). *)
Fixpoint base64_quanta (s : string) : Res string :=
  match s with
  | EmptyString => Ok ""
  | String a (String b (String c (String d r))) =>
      match base64_value a, base64_value b with
      | Some x, Some y =>
          if decide (c = base64_pad) then
            if decide (d = base64_pad /\ r = "") then Ok (String (byte ((x * 64 + y) / 16)) "")
            else Err corrupt_input
          else match base64_value c with
          | None => Err corrupt_input
          | Some z =>
              let n := ((x * 64 + y) * 64 + z)%N in
              if decide (d = base64_pad) then
                if decide (r = "") then Ok (String (byte (n / 1024)) (String (byte (n / 4 mod 256)) ""))
                else Err corrupt_input
              else match base64_value d with
              | None => Err corrupt_input
              | Some w =>
                  let n := (n * 64 + w)%N in
                  rest ← base64_quanta r;
                  Ok (String (byte (n / 65536)) (String (byte (n / 256 mod 256)) (String (byte (n mod 256)) rest)))
              end
          end
      | _, _ => Err corrupt_input
      end
  | _ => Err corrupt_input
  end.

Fixpoint string_filter (f : Ascii.ascii -> bool) (s : string) : string :=
  match s with
  | EmptyString => ""
  | String c s => if f c then String c (string_filter f s) else string_filter f s
  end.

Fixpoint string_forall (f : Ascii.ascii -> bool) (s : string) : bool :=
  match s with EmptyString => true | String c s => f c && string_forall f s end.

Definition is_newline (c : Ascii.ascii) : bool := bool_decide (c = char 10 \/ c = char 13).

(** [base64.StdEncoding.DecodeString] *)
Definition base64_DecodeString (s : string) : Res string :=
  base64_quanta (string_filter (fun c => negb (is_newline c)) s).

(** The characters of the encoding. *)
Definition base64_class (c : Ascii.ascii) : bool :=
  bool_decide (is_Some (base64_value c)) || bool_decide (c = base64_pad).

Lemma string_forall_app f s t : string_forall f (s +:+ t) = string_forall f s && string_forall f t.
Proof. induction s as [|c s IH]; [done|]. rewrite string_cons_app. simpl. by rewrite IH, andb_assoc. Qed.

Lemma string_forall_impl f g s :
  (forall c, f c = true -> g c = true) -> string_forall f s = true -> string_forall g s = true.
Proof.
  intros Hfg. induction s as [|c s IH]; [done|]. simpl. rewrite !andb_true_iff. intros [? ?]. eauto.
Qed.

Lemma string_filter_forall f s : string_forall f s = true -> string_filter f s = s.
Proof.
  induction s as [|c s IH]; [done|]. simpl. rewrite andb_true_iff. intros [-> Hs]. by rewrite IH.
Qed.

(** A property of characters holds of all when it holds of the 256 of them. *)
Definition all_chars : list Ascii.ascii := Ascii.ascii_of_nat <$> seq 0 256.

Lemma all_chars_in c : c ∈ all_chars.
Proof.
  unfold all_chars. rewrite list_elem_of_fmap. exists (Ascii.nat_of_ascii c).
  rewrite Ascii.ascii_nat_embedding. split; [done|].
  apply elem_of_seq. pose proof (Ascii.nat_ascii_bounded c). lia.
Qed.

Lemma chars_forall (f : Ascii.ascii -> bool) : forallb f all_chars = true -> forall c, f c = true.
Proof.
  intros H c. rewrite forallb_forall in H. apply H. apply list_elem_of_In, all_chars_in.
Qed.

Lemma byte_of_ascii c : byte (Ascii.N_of_ascii c) = c.
Proof. apply Ascii.ascii_N_embedding. Qed.

Lemma below_forall (f : N -> bool) k :
  forallb f (N.of_nat <$> seq 0 k) = true -> forall n, (n < N.of_nat k)%N -> f n = true.
Proof.
  intros H n Hn. rewrite forallb_forall in H. apply H, list_elem_of_In, list_elem_of_fmap.
  exists (N.to_nat n). split; [lia|]. apply elem_of_seq. lia.
Qed.

Lemma base64_value_char n : (n < 64)%N -> base64_value (base64_char n) = Some n.
Proof.
  intros H.
  pose proof (below_forall (fun n => bool_decide (base64_value (base64_char n) = Some n)) 64
    ltac:(by vm_compute) n H) as Hb.
  by apply bool_decide_eq_true in Hb.
Qed.

Lemma base64_char_class n : (n < 64)%N -> base64_class (base64_char n) = true.
Proof. intros H. unfold base64_class. rewrite base64_value_char by done. done. Qed.

Lemma base64_char_not_pad n : (n < 64)%N -> base64_char n <> base64_pad.
Proof. intros H E. pose proof (base64_value_char n H) as Hv. rewrite E in Hv. done. Qed.

(** ** The bits of a quantum *)

Lemma quantum_split n : (n < 64 * 262144)%N ->
  (n / 262144 < 64 /\ n / 4096 mod 64 < 64 /\ n / 64 mod 64 < 64 /\ n mod 64 < 64)%N /\
  (((n / 262144 * 64 + n / 4096 mod 64) * 64 + n / 64 mod 64) * 64 + n mod 64)%N = n.
Proof. intros H. zify. Z.to_euclidean_division_equations. lia. Qed.

Lemma quantum_bytes a b c : (a < 256 -> b < 256 -> c < 256 ->
  let n := a * 65536 + b * 256 + c in n < 64 * 262144 /\ n / 65536 = a /\ n / 256 mod 256 = b /\ n mod 256 = c)%N.
Proof. intros. subst n. zify. Z.to_euclidean_division_equations. lia. Qed.

Lemma ascii_bound c : (Ascii.N_of_ascii c < 256)%N.
Proof. apply Ascii.N_ascii_bounded. Qed.

Lemma base64_step n r : (n < 64 * 262144)%N ->
  base64_quanta (String (base64_char (n / 262144)) (String (base64_char (n / 4096 mod 64))
    (String (base64_char (n / 64 mod 64)) (String (base64_char (n mod 64)) r))))
  = (rest ← base64_quanta r;
     Ok (String (byte (n / 65536)) (String (byte (n / 256 mod 256)) (String (byte (n mod 256)) rest)))).
Proof.
  intros Hn. destruct (quantum_split n Hn) as [(Hx & Hy & Hz & Hw) E]. cbn [base64_quanta].
  rewrite !base64_value_char by done.
  rewrite !decide_False by (by apply base64_char_not_pad). by rewrite E.
Qed.

Lemma base64_quanta_Encode s : base64_quanta (base64_EncodeToString s) = Ok s.
Proof.
  revert s. fix IH 1. intros [|a [|b [|c s]]]; [done| | |].
  - cbn [base64_EncodeToString].
    destruct (quantum_bytes (Ascii.N_of_ascii a) 0 0) as (Hn & Ha & _ & _);
      [apply ascii_bound|done|done|]. rewrite !N.add_0_r in *.
    destruct (quantum_split _ Hn) as [(Hx & Hy & _ & _) _]. cbn [base64_quanta].
    rewrite !base64_value_char by done. rewrite decide_True, decide_True by done.
    do 2 f_equal. rewrite <-(byte_of_ascii a) at 3. f_equal. rewrite <-Ha at 3.
    clear. zify. Z.to_euclidean_division_equations. lia.
  - cbn [base64_EncodeToString].
    destruct (quantum_bytes (Ascii.N_of_ascii a) (Ascii.N_of_ascii b) 0) as (Hn & Ha & Hb & _);
      [apply ascii_bound..|done|]. rewrite !N.add_0_r in *.
    set (n := (Ascii.N_of_ascii a * 65536 + Ascii.N_of_ascii b * 256)%N) in *.
    destruct (quantum_split _ Hn) as [(Hx & Hy & Hz & _) _]. cbn [base64_quanta].
    rewrite !base64_value_char by done. rewrite decide_False by (by apply base64_char_not_pad).
    rewrite decide_True, decide_True by done.
    rewrite <-(byte_of_ascii a), <-(byte_of_ascii b). do 2 f_equal; [|f_equal].
    + f_equal. rewrite <-Ha. clear. zify. Z.to_euclidean_division_equations. lia.
    + f_equal. rewrite <-Hb. clear. zify. Z.to_euclidean_division_equations. lia.
  - cbn [base64_EncodeToString].
    destruct (quantum_bytes (Ascii.N_of_ascii a) (Ascii.N_of_ascii b) (Ascii.N_of_ascii c)) as (Hn & Ha & Hb & Hc);
      [apply ascii_bound..|].
    rewrite base64_step by done. rewrite Ha, Hb, Hc, !byte_of_ascii. by rewrite IH.
Qed.

(** The text has only characters of the encoding. *)
Lemma base64_class_all s : string_forall base64_class (base64_EncodeToString s) = true.
Proof.
  assert (forall n, (n < 64 * 262144)%N ->
    base64_class (base64_char (n / 262144)) = true /\ base64_class (base64_char (n / 4096 mod 64)) = true /\
    base64_class (base64_char (n / 64 mod 64)) = true /\ base64_class (base64_char (n mod 64)) = true) as Hn.
  { intros n Hn. destruct (quantum_split n Hn) as [(? & ? & ? & ?) _]. auto using base64_char_class. }
  assert (base64_class base64_pad = true) as Hp by done.
  revert s. fix IH 1. intros [|a [|b [|c s]]]; [done| | |]; cbn [base64_EncodeToString string_forall].
  - destruct (quantum_bytes (Ascii.N_of_ascii a) 0 0) as (H & _); [apply ascii_bound|done|done|].
    rewrite !N.add_0_r in H. destruct (Hn _ H) as (-> & -> & _). by rewrite Hp.
  - destruct (quantum_bytes (Ascii.N_of_ascii a) (Ascii.N_of_ascii b) 0) as (H & _); [apply ascii_bound..|done|].
    rewrite !N.add_0_r in H. destruct (Hn _ H) as (-> & -> & -> & _). by rewrite Hp.
  - destruct (quantum_bytes (Ascii.N_of_ascii a) (Ascii.N_of_ascii b) (Ascii.N_of_ascii c)) as (H & _);
      [apply ascii_bound..|]. destruct (Hn _ H) as (-> & -> & -> & ->). by rewrite IH.
Qed.

Lemma base64_class_plain c : base64_class c = true -> is_newline c = false /\ c <> char 32 /\ c <> char 10.
Proof. destruct c as [[] [] [] [] [] [] [] []]; intros H; try (by vm_compute in H); by vm_compute. Qed.

(** [DecodeString] reads back what [EncodeToString] wrote. *)
Lemma base64_DecodeString_Encode s : base64_DecodeString (base64_EncodeToString s) = Ok s.
Proof.
  unfold base64_DecodeString. rewrite string_filter_forall; [apply base64_quanta_Encode|].
  apply (string_forall_impl base64_class); [|apply base64_class_all].
  intros c Hc. by destruct (base64_class_plain c Hc) as [-> _].
Qed.

Lemma base64_EncodeToString_nonempty s : s <> "" -> base64_EncodeToString s <> "".
Proof. by destruct s as [|a [|b [|c s]]]. Qed.

(** ** unicode/utf8 *)

Definition code (c : Ascii.ascii) : N := Ascii.N_of_ascii c.
Definition between (lo hi : N) (c : Ascii.ascii) : bool := ((lo <=? code c) && (code c <=? hi))%N.
Definition cont (c : Ascii.ascii) : bool := between 128 191 c.

(** The size [utf8.DecodeRuneInString] returns for a well-formed first rune, 0
    when the string is empty or starts with a byte that is not well-formed. *)
Definition rune_width (s : string) : nat :=
  match s with
  | EmptyString => 0
  | String a s =>
      if (code a <? 128)%N then 1
      else match s with
      | EmptyString => 0
      | String b s =>
          if between 194 223 a then (if cont b then 2 else 0)
          else match s with
          | EmptyString => 0
          | String c s =>
              if between 224 239 a then
                if between (if (code a =? 224)%N then 160 else 128) (if (code a =? 237)%N then 159 else 191) b && cont c
                then 3 else 0
              else match s with
              | EmptyString => 0
              | String d _ =>
                  if between 240 244 a
                     && between (if (code a =? 240)%N then 144 else 128) (if (code a =? 244)%N then 143 else 191) b
                     && cont c && cont d
                  then 4 else 0
              end
          end
      end
  end%nat.

(** One step of [for range s]: the bytes of a rune, or a byte that is none. *)
Inductive rune := RBytes (bytes : string) | RBad.

Definition str1 (a : Ascii.ascii) : string := String a "".
Definition str2 (a b : Ascii.ascii) : string := String a (str1 b).
Definition str3 (a b c : Ascii.ascii) : string := String a (str2 b c).
Definition str4 (a b c d : Ascii.ascii) : string := String a (str3 b c d).

Fixpoint runes (s : string) : list rune :=
  match s with
  | EmptyString => []
  | String a r =>
      match rune_width s, r with
      | 1%nat, _ => RBytes (str1 a) :: runes r
      | 2%nat, String b r => RBytes (str2 a b) :: runes r
      | 3%nat, String b (String c r) => RBytes (str3 a b c) :: runes r
      | 4%nat, String b (String c (String d r)) => RBytes (str4 a b c d) :: runes r
      | _, _ => RBad :: runes r
      end
  end.

(** U+FFFD *)
Definition replacement : string := str3 (char 239) (char 191) (char 189).

Definition rune_text (r : rune) : string := match r with RBytes b => b | RBad => replacement end.
Definition rune_valid (r : rune) : bool := match r with RBytes _ => true | RBad => false end.

Fixpoint concat_map {A} (f : A -> string) (l : list A) : string :=
  match l with [] => "" | a :: l => f a +:+ concat_map f l end.

(** [strings.ToValidUTF8] with U+FFFD for every bad byte, [utf8.ValidString] *)
Definition utf8_fix (s : string) : string := concat_map rune_text (runes s).
Definition utf8_Valid (s : string) : bool := forallb rune_valid (runes s).

(** A rune as the loop produces it. *)
Definition wf_rune (r : rune) : Prop :=
  match r with
  | RBytes b => b <> "" /\ rune_width b = String.length b
  | RBad => True
  end.

Lemma rune_width_le s : (rune_width s <= 4)%nat.
Proof. unfold rune_width. repeat (case_match; try lia). Qed.

(** The bytes of a rune decide its width, whatever follows them. *)
Lemma rune_width_app b t : b <> "" -> rune_width b = String.length b -> rune_width (b +:+ t) = String.length b.
Proof.
  destruct b as [|x b]; [done|]. intros _. rewrite string_cons_app. unfold rune_width at 1 2.
  destruct (code x <? 128)%N; [by intros <-|].
  destruct b as [|y b]; [done|]. rewrite string_cons_app.
  destruct (between 194 223 x); [by destruct (cont y); [intros <-|]|].
  destruct b as [|z b]; [done|]. rewrite string_cons_app.
  destruct (between 224 239 x); [by destruct (between _ _ y && cont z); [intros <-|]|].
  destruct b as [|w b]; [done|]. rewrite string_cons_app.
  by destruct (_ && cont w); [intros <-|].
Qed.

Lemma rune_width_first s n : rune_width s = n -> n <> 0%nat ->
  exists b t, s = b +:+ t /\ String.length b = n /\ rune_width b = n.
Proof.
  unfold rune_width at 1. intros H Hn. destruct s as [|x s]; [by subst|].
  destruct (code x <? 128)%N eqn:E1.
  { subst. exists (str1 x), s. simpl. by rewrite E1. }
  destruct s as [|y s]; [by subst|].
  destruct (between 194 223 x) eqn:E2.
  { destruct (cont y) eqn:E3; [|by subst]. subst. exists (str2 x y), s. simpl. by rewrite E1, E2, E3. }
  destruct s as [|z s]; [by subst|].
  destruct (between 224 239 x) eqn:E4.
  { destruct (between _ _ y && cont z) eqn:E5; [|by subst]. subst. exists (str3 x y z), s. cbn. by rewrite E1, E2, E4, E5. }
  destruct s as [|w s]; [by subst|].
  destruct (_ && cont w) eqn:E6; [|by subst]. subst. exists (str4 x y z w), s. cbn. by rewrite E1, E2, E4, E6.
Qed.

Lemma runes_bytes b t : wf_rune (RBytes b) -> runes (b +:+ t) = RBytes b :: runes t.
Proof.
  intros [Hne Hw]. pose proof (rune_width_app b t Hne Hw) as Ht. pose proof (rune_width_le (b +:+ t)) as Hle.
  rewrite Ht in Hle.
  destruct b as [|x [|y [|z [|w [|? b]]]]]; simpl in Hle; try lia; try done;
    rewrite ?string_cons_app in *; cbn [runes]; rewrite Ht; done.
Qed.

Lemma runes_cons a s : exists r t, runes (String a s) = r :: runes t /\ wf_rune r /\
  (String.length t <= String.length s)%nat /\ (rune_valid r = true -> String a s = rune_text r +:+ t).
Proof.
  destruct (rune_width (String a s)) as [|n] eqn:E.
  - exists RBad, s. cbn [runes]. rewrite E. done.
  - destruct (rune_width_first _ _ E) as (b & t & Es & Hl & Hw); [lia|].
    assert (wf_rune (RBytes b)) as Hwf by (split; [by intros ->|congruence]).
    exists (RBytes b), t. rewrite Es, runes_bytes by done. split_and!; try done.
    assert (String.length (String a s) = String.length (b +:+ t)) as El by by rewrite Es.
    rewrite string_length_app in El. simpl in El. lia.
Qed.

(** Induction on the runes of a string. *)
Lemma runes_ind (P : string -> Prop) :
  P "" -> (forall a s r t, runes (String a s) = r :: runes t -> wf_rune r ->
    (rune_valid r = true -> String a s = rune_text r +:+ t) -> P t -> P (String a s)) -> forall s, P s.
Proof.
  intros H0 Hs s. remember (String.length s) as n eqn:E. revert s E.
  induction (lt_wf n) as [n _ IH]. intros [|a s] ->; [done|].
  destruct (runes_cons a s) as (r & t & Er & Hwf & Hl & Ht). eapply Hs; [done..|].
  eapply IH; [|done]. simpl. lia.
Qed.

Lemma runes_wf s : Forall wf_rune (runes s).
Proof. induction s as [|a s r t -> Hr _ IH] using runes_ind; by constructor. Qed.

(** Putting back the bytes of valid runes gives the string. *)
Lemma utf8_fix_Valid s : utf8_Valid s = true -> utf8_fix s = s.
Proof.
  unfold utf8_Valid, utf8_fix. induction s as [|a s r t Er _ Ht IH] using runes_ind; [done|].
  rewrite Er. simpl. rewrite andb_true_iff. intros [Hr Hv]. by rewrite IH, Ht.
Qed.

Lemma rune_text_wf r : wf_rune r -> wf_rune (RBytes (rune_text r)).
Proof. by destruct r. Qed.

Lemma runes_texts rs : Forall wf_rune rs -> runes (concat_map rune_text rs) = RBytes ∘ rune_text <$> rs.
Proof.
  induction 1 as [|r rs Hr _ IH]; [done|]. simpl. rewrite runes_bytes by by apply rune_text_wf.
  by rewrite IH.
Qed.

Lemma utf8_Valid_fix s : utf8_Valid (utf8_fix s) = true.
Proof.
  unfold utf8_Valid, utf8_fix. rewrite runes_texts by apply runes_wf. by induction (runes s).
Qed.

(** ** The string literals of encoding/json *)

Definition backslash : Ascii.ascii := char 92.
Definition dquote : Ascii.ascii := char 34.
Definition esc (c : Ascii.ascii) (s : string) : string := String backslash (String c s).
Definition esc_u (hi lo : N) (h3 h4 : Ascii.ascii) : string :=
  esc (char 117) (String (hex_digit hi) (String (hex_digit lo) (str2 h3 h4))).

(** [appendString], the escapes of a character below U+0080; HTML characters are
    escaped, as in [json.Marshal]. *)
Definition quote_char (c : Ascii.ascii) : string :=
  let n := code c in
  if decide (c = backslash \/ c = dquote) then esc c ""
  else if decide (n = 8)%N then esc (char 98) ""
  else if decide (n = 12)%N then esc (char 102) ""
  else if decide (n = 10)%N then esc (char 110) ""
  else if decide (n = 13)%N then esc (char 114) ""
  else if decide (n = 9)%N then esc (char 116) ""
  else if decide (n < 32 \/ n = 60 \/ n = 62 \/ n = 38)%N
    then esc_u 0 0 (hex_digit (n / 16)) (hex_digit (n mod 16))
  else str1 c.

Definition quote_rune (r : rune) : string :=
  match r with
  | RBad => esc_u 15 15 (hex_digit 15) (hex_digit 13)
  | RBytes (String c EmptyString) => quote_char c
  | RBytes b =>
      if decide (b = str3 (char 226) (char 128) (char 168)) then esc_u 2 0 (hex_digit 2) (hex_digit 8)
      else if decide (b = str3 (char 226) (char 128) (char 169)) then esc_u 2 0 (hex_digit 2) (hex_digit 9)
      else b
  end.

Definition json_quote_body (s : string) : string := concat_map quote_rune (runes s).

(** [getu4]: the value of an escape of four digits at the start of a string. *)
Definition getu4 (s : string) : option N :=
  match s with
  | String c (String u (String h1 (String h2 (String h3 (String h4 _))))) =>
      if decide (c = backslash /\ u = char 117) then
        a ← hex_value h1; b ← hex_value h2; c ← hex_value h3; d ← hex_value h4;
        Some (((a * 16 + b) * 16 + c) * 16 + d)%N
      else None
  | _ => None
  end.

Definition is_surrogate (r : N) : bool := bool_decide (55296 <= r /\ r < 57344)%N.

(** [utf16.DecodeRune], [None] for U+FFFD *)
Definition DecodeRune16 (r1 r2 : N) : option N :=
  if decide (55296 <= r1 /\ r1 < 56320 /\ 56320 <= r2 /\ r2 < 57344)%N
  then Some ((r1 - 55296) * 1024 + (r2 - 56320) + 65536)%N else None.

(** [utf8.EncodeRune] of a rune that is not a surrogate *)
Definition EncodeRune (r : N) : string :=
  if decide (r < 128)%N then str1 (byte r)
  else if decide (r < 2048)%N then str2 (byte (192 + r / 64)) (byte (128 + r mod 64))
  else if decide (r < 65536)%N
    then str3 (byte (224 + r / 4096)) (byte (128 + r / 64 mod 64)) (byte (128 + r mod 64))
  else str4 (byte (240 + r / 262144)) (byte (128 + r / 4096 mod 64)) (byte (128 + r / 64 mod 64))
          (byte (128 + r mod 64)).

Definition simple_escape (e : Ascii.ascii) : option Ascii.ascii :=
  if decide (e = dquote \/ e = backslash \/ e = char 47) then Some e
  else if decide (e = char 98) then Some (char 8)
  else if decide (e = char 102) then Some (char 12)
  else if decide (e = char 110) then Some (char 10)
  else if decide (e = char 114) then Some (char 13)
  else if decide (e = char 116) then Some (char 9)
  else None.

(** [unquoteBytes] on the text between the quotes of a literal the scanner has
    accepted: bad UTF-8 and unpaired surrogates become U+FFFD. *)
Fixpoint unquote (s : string) : option string :=
  match s with
  | EmptyString => Some ""
  | String c r =>
      if decide (c = backslash) then
        match r with
        | EmptyString => None
        | String e r2 =>
            if decide (e = char 117) then
              match getu4 s, r2 with
              | Some rr, String _ (String _ (String _ (String _ r6))) =>
                  if is_surrogate rr then
                    match getu4 r6 ≫= DecodeRune16 rr, r6 with
                    | Some dec, String _ (String _ (String _ (String _ (String _ (String _ r12))))) =>
                        t ← unquote r12; Some (EncodeRune dec +:+ t)
                    | _, _ => t ← unquote r6; Some (replacement +:+ t)
                    end
                  else t ← unquote r6; Some (EncodeRune rr +:+ t)
              | _, _ => None
              end
            else x ← simple_escape e; t ← unquote r2; Some (String x t)
        end
      else if decide (c = dquote \/ code c < 32)%N then None
      else match rune_width s, r with
      | 1%nat, _ => t ← unquote r; Some (String c t)
      | 2%nat, String x r => t ← unquote r; Some (str2 c x +:+ t)
      | 3%nat, String x (String y r) => t ← unquote r; Some (str3 c x y +:+ t)
      | 4%nat, String x (String y (String z r)) => t ← unquote r; Some (str4 c x y z +:+ t)
      | _, _ => t ← unquote r; Some (replacement +:+ t)
      end
  end.

Definition is_hex (c : Ascii.ascii) : bool := bool_decide (is_Some (hex_value c)).

(** The scanner inside a string literal: the text up to the closing quote, and
    what follows it. *)
Fixpoint scan_string (s : string) : option (string * string) :=
  match s with
  | EmptyString => None
  | String c r =>
      if decide (c = dquote) then Some ("", r)
      else if decide (c = backslash) then
        match r with
        | EmptyString => None
        | String e r2 =>
            if decide (e = char 117) then
              match r2 with
              | String h1 (String h2 (String h3 (String h4 r6))) =>
                  if is_hex h1 && is_hex h2 && is_hex h3 && is_hex h4 then
                    '(b, t) ← scan_string r6; Some (esc e (str4 h1 h2 h3 h4) +:+ b, t)
                  else None
              | _ => None
              end
            else if decide (is_Some (simple_escape e)) then
              '(b, t) ← scan_string r2; Some (esc e b, t)
            else None
        end
      else if decide (code c < 32)%N then None
      else '(b, t) ← scan_string r; Some (String c b, t)
  end.

Lemma high_char c : (128 <= code c)%N -> c <> backslash /\ c <> dquote /\ ~ (code c < 32)%N.
Proof. intros H. split_and!; [intros ->; by vm_compute in H..|lia]. Qed.

(** *** One rune of a literal is read back *)

Ltac each_char c := destruct c as [[] [] [] [] [] [] [] []].

Lemma unquote_quote_char c t : (code c < 128)%N ->
  unquote (quote_char c +:+ t) = (t' ← unquote t; Some (str1 c +:+ t')).
Proof. intros H. each_char c; first [by vm_compute in H|reflexivity]. Qed.

Lemma scan_quote_char c t : (code c < 128)%N ->
  scan_string (quote_char c +:+ t) = ('(b, r) ← scan_string t; Some (quote_char c +:+ b, r)).
Proof. intros H. each_char c; first [by vm_compute in H|cbn; by destruct (scan_string t) as [[??]|]]. Qed.

Definition high (c : Ascii.ascii) : bool := (128 <=? code c)%N.

Lemma rune_width_high b : rune_width b = String.length b -> (1 < String.length b)%nat -> string_forall high b = true.
Proof.
  unfold rune_width. destruct b as [|x b]; [done|]. intros H Hl.
  assert (forall lo hi c, (128 <= lo)%N -> between lo hi c = true -> high c = true) as Hb.
  { intros lo hi c Hlo. unfold between, high. rewrite andb_true_iff, !N.leb_le. lia. }
  destruct (code x <? 128)%N eqn:Ex; [simpl in *; lia|].
  assert (high x = true) as Hx by (apply N.leb_le; by apply N.ltb_ge in Ex). cbn. rewrite Hx.
  destruct b as [|y b]; [simpl in *; lia|].
  destruct (between 194 223 x).
  { destruct (cont y) eqn:Ey; [|done]. destruct b; [|done]. cbn. by rewrite (Hb 128%N 191%N y). }
  destruct b as [|z b]; [done|].
  destruct (between 224 239 x).
  { destruct (between _ _ y) eqn:Ey; [|done]. destruct (cont z) eqn:Ez; [|done]. destruct b; [|done].
    cbn. rewrite (Hb 128%N 191%N z), andb_true_r by done. refine (Hb _ _ _ _ Ey). destruct (_ =? _)%N; lia. }
  destruct b as [|w b]; [done|].
  destruct (between 240 244 x); [|done]. destruct (between _ _ y) eqn:Ey; [|done].
  destruct (cont z) eqn:Ez; [|done]. destruct (cont w) eqn:Ew; [|done]. destruct b; [|done].
  cbn. rewrite (Hb 128%N 191%N z), (Hb 128%N 191%N w), !andb_true_r by done. refine (Hb _ _ _ _ Ey). destruct (_ =? _)%N; lia.
Qed.

Lemma scan_high b t : string_forall high b = true ->
  scan_string (b +:+ t) = ('(x, r) ← scan_string t; Some (b +:+ x, r)).
Proof.
  induction b as [|c b IH]; cbn [string_forall].
  - intros _. transitivity (scan_string t); [done|]. by destruct (scan_string t) as [[??]|].
  - rewrite andb_true_iff. intros [Hc Hb]. apply N.leb_le in Hc. destruct (high_char c Hc) as (? & ? & ?).
    rewrite string_cons_app. cbn [scan_string]. rewrite !decide_False, IH by done.
    by destruct (scan_string t) as [[??]|].
Qed.

Lemma unquote_high b t : wf_rune (RBytes b) -> string_forall high b = true ->
  unquote (b +:+ t) = (t' ← unquote t; Some (b +:+ t')).
Proof.
  intros [Hne Hw] Hb. pose proof (rune_width_app b t Hne Hw) as Ht. pose proof (rune_width_le (b +:+ t)) as Hle.
  rewrite Ht in Hle. destruct b as [|c b]; [done|]. simpl in Hb. apply andb_true_iff in Hb as [Hc _].
  apply N.leb_le in Hc. destruct (high_char c Hc) as (? & ? & ?).
  destruct b as [|y [|z [|w [|? b]]]]; simpl in Hle; try lia;
    rewrite ?string_cons_app in *; cbn [unquote]; rewrite (decide_False (P := c = backslash)), decide_False, Ht by naive_solver; done.
Qed.

Lemma single_rune c : wf_rune (RBytes (str1 c)) -> (code c < 128)%N.
Proof. intros [_ H]. simpl in H. destruct (code c <? 128)%N eqn:E; [by apply N.ltb_lt|done]. Qed.

Lemma quote_rune_long b : (1 < String.length b)%nat ->
  quote_rune (RBytes b) =
    if decide (b = str3 (char 226) (char 128) (char 168)) then esc_u 2 0 (hex_digit 2) (hex_digit 8)
    else if decide (b = str3 (char 226) (char 128) (char 169)) then esc_u 2 0 (hex_digit 2) (hex_digit 9)
    else b.
Proof. destruct b as [|c [|d b]]; simpl; [lia|lia|done]. Qed.

(** Every rune is one scanned piece of the literal, and is read back as its
    valid text. *)
Lemma unquote_quote_rune r t : wf_rune r ->
  unquote (quote_rune r +:+ t) = (t' ← unquote t; Some (rune_text r +:+ t')).
Proof.
  destruct r as [b|]; [|by intros _]. intros Hwf.
  destruct b as [|c [|d b]]; [by destruct Hwf|by apply unquote_quote_char, single_rune|].
  rewrite quote_rune_long by (simpl; lia). case_decide as E1; [by rewrite E1|]. case_decide as E2; [by rewrite E2|].
  apply unquote_high; [done|]. apply rune_width_high; [by destruct Hwf|simpl; lia].
Qed.

Lemma scan_esc_u hi lo h3 h4 t :
  is_hex (hex_digit hi) && is_hex (hex_digit lo) && is_hex h3 && is_hex h4 = true ->
  scan_string (esc_u hi lo h3 h4 +:+ t) = ('(b, x) ← scan_string t; Some (esc_u hi lo h3 h4 +:+ b, x)).
Proof.
  intros H. unfold esc_u, esc, str2, str1. rewrite !string_cons_app. cbn [scan_string].
  rewrite (decide_False (P := backslash = dquote)), !decide_True by done. rewrite H.
  change ("" +:+ t) with t. by destruct (scan_string t) as [[??]|].
Qed.

Lemma scan_quote_rune r t : wf_rune r ->
  scan_string (quote_rune r +:+ t) = ('(b, x) ← scan_string t; Some (quote_rune r +:+ b, x)).
Proof.
  destruct r as [b|]; [|by intros _; apply scan_esc_u]. intros Hwf.
  destruct b as [|c [|d b]]; [by destruct Hwf|by apply scan_quote_char, single_rune|].
  rewrite quote_rune_long by (simpl; lia).
  case_decide; [by apply scan_esc_u|]. case_decide; [by apply scan_esc_u|].
  apply scan_high, rune_width_high; [by destruct Hwf|simpl; lia].
Qed.

(** A literal is read back as the valid UTF-8 of the string it was made of. *)
Lemma unquote_quote s : unquote (json_quote_body s) = Some (utf8_fix s).
Proof.
  unfold json_quote_body, utf8_fix. induction (runes_wf s) as [|r rs Hr _ IH]; [done|].
  simpl. by rewrite unquote_quote_rune, IH.
Qed.

Lemma scan_quote s t : scan_string (json_quote_body s +:+ String dquote t) = Some (json_quote_body s, t).
Proof.
  unfold json_quote_body. induction (runes_wf s) as [|r rs Hr _ IH]; [done|].
  simpl. rewrite app_string_assoc, scan_quote_rune by done. by rewrite IH.
Qed.

(** ** What is read from a literal is valid UTF-8 *)

Lemma utf8_Valid_rune b t : wf_rune (RBytes b) -> utf8_Valid (b +:+ t) = utf8_Valid t.
Proof. intros H. unfold utf8_Valid. by rewrite runes_bytes. Qed.

Lemma code_byte n : (n < 256)%N -> code (byte n) = n.
Proof. intros H. unfold code, byte. by apply Ascii.N_ascii_embedding. Qed.

Lemma between_byte lo hi n : (n < 256 -> lo <= n -> n <= hi -> between lo hi (byte n) = true)%N.
Proof. intros H Hl Hh. unfold between. rewrite code_byte by done. rewrite andb_true_iff, !N.leb_le. done. Qed.

Lemma cont_byte n : (n < 64)%N -> cont (byte (128 + n)) = true.
Proof. intros H. apply between_byte; lia. Qed.

Lemma not_ascii n : (n < 256 -> 128 <= n -> (code (byte n) <? 128) = false)%N.
Proof. intros H Hn. rewrite code_byte by done. by apply N.ltb_ge. Qed.

Lemma between_byte_false lo hi n : (n < 256 -> n < lo \/ hi < n -> between lo hi (byte n) = false)%N.
Proof. intros H Hn. unfold between. rewrite code_byte by done. rewrite andb_false_iff, !N.leb_gt. lia. Qed.

(** A scalar value: a rune that is not a surrogate *)
Definition scalar (r : N) : Prop := (r < 55296 \/ 57344 <= r < 1114112)%N.

Lemma EncodeRune_wf r : scalar r -> wf_rune (RBytes (EncodeRune r)).
Proof.
  intros Hr. unfold EncodeRune. case_decide as H1; [|case_decide as H2; [|case_decide as H3]].
  - split; [done|]. cbn. rewrite code_byte by lia. by apply N.ltb_lt in H1 as ->.
  - split; [done|].
    assert (r / 64 < 32 /\ 2 <= r / 64 /\ r mod 64 < 64)%N as (? & ? & ?)
      by (zify; Z.to_euclidean_division_equations; lia).
    cbn [rune_width str2 str1 String.length]. rewrite not_ascii, between_byte, cont_byte by lia. done.
  - split; [done|].
    assert (r / 4096 < 16 /\ r / 64 mod 64 < 64 /\ r mod 64 < 64)%N as (? & ? & ?)
      by (zify; Z.to_euclidean_division_equations; lia).
    assert (r / 4096 = 0 -> 32 <= r / 64 mod 64)%N by (zify; Z.to_euclidean_division_equations; lia).
    assert (r / 4096 = 13 -> r / 64 mod 64 < 32)%N
      by (unfold scalar in Hr; zify; Z.to_euclidean_division_equations; lia).
    cbn [rune_width str3 str2 str1 String.length].
    remember (r / 4096)%N as q eqn:Eq. remember (r / 64 mod 64)%N as m eqn:Em. remember (r mod 64)%N as l eqn:El.
    clear Hr Eq Em El.
    rewrite (not_ascii (224 + q)), (between_byte_false 194 223 (224 + q)),
      (between_byte 224 239 (224 + q)), (code_byte (224 + q)) by lia.
    rewrite between_byte, cont_byte; [done|lia..| |].
    + destruct (_ =? 224)%N eqn:E; [apply N.eqb_eq in E|]; lia.
    + destruct (_ =? 237)%N eqn:E; [apply N.eqb_eq in E|]; lia.
  - split; [done|].
    assert (r / 262144 <= 4 /\ r / 4096 mod 64 < 64 /\ r / 64 mod 64 < 64 /\ r mod 64 < 64)%N as (? & ? & ? & ?)
      by (unfold scalar in Hr; zify; Z.to_euclidean_division_equations; lia).
    assert (r / 262144 = 0 -> 16 <= r / 4096 mod 64)%N by (zify; Z.to_euclidean_division_equations; lia).
    assert (r / 262144 = 4 -> r / 4096 mod 64 < 16)%N
      by (unfold scalar in Hr; zify; Z.to_euclidean_division_equations; lia).
    cbn [rune_width str4 str3 str2 str1 String.length].
    remember (r / 262144)%N as q eqn:Eq. remember (r / 4096 mod 64)%N as m eqn:Em.
    remember (r / 64 mod 64)%N as k eqn:Ek. remember (r mod 64)%N as l eqn:El. clear Hr Eq Em Ek El.
    rewrite (not_ascii (240 + q)), (between_byte_false 194 223 (240 + q)),
      (between_byte_false 224 239 (240 + q)), (between_byte 240 244 (240 + q)), (code_byte (240 + q)) by lia.
    rewrite between_byte, !cont_byte; [done|lia..| |].
    + destruct (_ =? 240)%N eqn:E; [apply N.eqb_eq in E|]; lia.
    + destruct (_ =? 244)%N eqn:E; [apply N.eqb_eq in E|]; lia.
Qed.

Lemma hex_value_lt c n : hex_value c = Some n -> (n < 16)%N.
Proof. unfold hex_value. repeat case_decide; try done; intros [= <-]; lia. Qed.

Lemma getu4_lt s r : getu4 s = Some r -> (r < 65536)%N.
Proof.
  unfold getu4. destruct s as [|c [|u [|h1 [|h2 [|h3 [|h4 s]]]]]]; try done. case_decide; [|done].
  destruct (hex_value h1) eqn:E1; [|done]. destruct (hex_value h2) eqn:E2; [|done].
  destruct (hex_value h3) eqn:E3; [|done]. destruct (hex_value h4) eqn:E4; [|done].
  apply hex_value_lt in E1, E2, E3, E4. cbn. intros [= <-]. lia.
Qed.

Lemma DecodeRune16_scalar a b r : DecodeRune16 a b = Some r -> scalar r.
Proof. unfold DecodeRune16, scalar. case_decide; [|done]. intros [= <-]. lia. Qed.

Lemma simple_escape_ascii e c : simple_escape e = Some c -> (code c < 128)%N.
Proof. unfold simple_escape. repeat case_decide; try done; intros [= <-]; naive_solver. Qed.

Lemma replacement_wf : wf_rune (RBytes replacement).
Proof. split; done. Qed.

Lemma ascii_wf c : (code c < 128)%N -> wf_rune (RBytes (str1 c)).
Proof. intros H. split; [done|]. simpl. by apply N.ltb_lt in H as ->. Qed.

(** The rune at the head of a string, by its width *)
Lemma head_wf b t : rune_width (b +:+ t) = String.length b -> b <> "" -> wf_rune (RBytes b).
Proof.
  intros Hw Hb. split; [done|].
  destruct (rune_width_first (b +:+ t) _ Hw) as (b' & t' & E & Hl & Hw'); [by destruct b|].
  assert (b = b') as ->; [|congruence]. clear Hw Hw' Hb. revert b' t' E Hl.
  induction b as [|c b IH]; intros [|c' b'] t' E Hl; try done. rewrite !string_cons_app in E.
  injection E as -> E. injection Hl as Hl. f_equal. by eapply IH.
Qed.

Lemma unquote_Valid s t : unquote s = Some t -> utf8_Valid t = true.
Proof.
  remember (String.length s) as n eqn:En. revert s t En.
  induction (lt_wf n) as [n _ IH]. intros [|c s] t ->; [by intros [= <-]|]. cbn [unquote].
  assert (forall r x, (String.length r < String.length (String c s))%nat -> unquote r = Some x -> utf8_Valid x = true)
    as IHs by (intros r x Hl; by eapply IH). clear IH.
  assert (forall b x, wf_rune (RBytes b) -> utf8_Valid x = true -> utf8_Valid (b +:+ x) = true) as Hb
    by (intros b x Hw Hx; by rewrite utf8_Valid_rune).
  assert (forall b r y, wf_rune (RBytes b) -> (forall x, unquote r = Some x -> utf8_Valid x = true) ->
    (x ← unquote r; Some (b +:+ x)) = Some y -> utf8_Valid y = true) as Hstep.
  { intros b r y Hw Hr. destruct (unquote r) as [x|] eqn:E; [|done]. intros [= <-]. auto. }
  case_decide.
  - destruct s as [|e s]; [done|]. case_decide.
    + destruct (getu4 _) as [rr|] eqn:Eu; [|done]. destruct s as [|h1 [|h2 [|h3 [|h4 s]]]]; try done.
      apply getu4_lt in Eu. destruct (is_surrogate rr) eqn:Es.
      * destruct (getu4 s ≫= DecodeRune16 rr) as [dec|] eqn:Ed; [|apply Hstep; [apply replacement_wf|intros x'; apply IHs; simpl; lia]].
        assert (scalar dec) as Hdec by (destruct (getu4 s); [by eapply DecodeRune16_scalar|done]).
        destruct s as [|? [|? [|? [|? [|? [|? s]]]]]];
          try (apply Hstep; [apply replacement_wf|intros x'; apply IHs; simpl; lia]).
        apply Hstep; [by apply EncodeRune_wf|intros x'; apply IHs; simpl; lia].
      * apply Hstep; [|intros x'; apply IHs; simpl; lia]. apply EncodeRune_wf. unfold is_surrogate, scalar in *.
        apply bool_decide_eq_false in Es. lia.
    + destruct (simple_escape e) as [x|] eqn:Ee; [|done]. cbn [mbind option_bind].
      apply (Hstep (str1 x)); [|intros x'; apply IHs; simpl; lia]. by apply ascii_wf, (simple_escape_ascii e).
  - case_decide; [done|]. pose proof (rune_width_le (String c s)) as Hle.
    destruct (rune_width (String c s)) as [|[|[|[|[|w]]]]] eqn:Ew; [| | | | |lia].
    + apply Hstep; [apply replacement_wf|intros x'; apply IHs; simpl; lia].
    + apply (Hstep (str1 c)); [by apply (head_wf _ s)|intros x'; apply IHs; simpl; lia].
    + destruct s as [|x s]; [apply Hstep; [apply replacement_wf|intros x'; apply IHs; simpl; lia]|].
      apply Hstep; [by apply (head_wf _ s)|intros x'; apply IHs; simpl; lia].
    + destruct s as [|x [|y s]]; try (apply Hstep; [apply replacement_wf|intros x'; apply IHs; simpl; lia]).
      apply Hstep; [by apply (head_wf _ s)|intros x'; apply IHs; simpl; lia].
    + destruct s as [|x [|y [|z s]]]; try (apply Hstep; [apply replacement_wf|intros x'; apply IHs; simpl; lia]).
      apply Hstep; [by apply (head_wf _ s)|intros x'; apply IHs; simpl; lia].
Qed.
