(* ===== verification/GoJson.v ===== *)
(** * encoding/json

    JSON documents as the encoder prints them and the scanner reads them, and
    the way json.Unmarshal fills strings, integers, slices and structs. *)

From S2P Require Import Prelude GoStd GoText GoStrings GoCodec.

(** A document; strings and numbers are the text of their literals. *)
Inductive json :=
  | JNull
  | JBool (b : bool)
  | JNum (literal : string)
  | JStr (body : string)
  | JArr (l : list json)
  | JObj (l : list (string * json)).

(** ** Printing *)

Definition lit (body : string) : string := String dquote (body +:+ str1 dquote).

Fixpoint json_print (j : json) : string :=
  match j with
  | JNull => "null"
  | JBool b => FormatBool b
  | JNum n => n
  | JStr s => lit s
  | JArr l => "[" +:+ Join (json_print <$> l) "," +:+ "]"
  | JObj l => "{" +:+ Join ((fun '(k, v) => lit k +:+ ":" +:+ json_print v) <$> l) "," +:+ "}"
  end.

(** What [json.Marshal] makes of a string and of an [int]. *)
Definition json_string (s : string) : json := JStr (json_quote_body s).
Definition json_int (z : Z) : json := JNum (FormatInt z).

(** ** Scanning *)

Definition is_json_space (c : Ascii.ascii) : bool :=
  bool_decide (c = char 32 \/ c = char 9 \/ c = char 10 \/ c = char 13).

Fixpoint skip_space (s : string) : string :=
  match s with
  | String c r => if is_json_space c then skip_space r else s
  | EmptyString => ""
  end.

(** The rest of a string after a prefix. *)
Fixpoint CutPrefix (p s : string) : option string :=
  match p, s with
  | EmptyString, _ => Some s
  | String a p, String b s => if decide (a = b) then CutPrefix p s else None
  | _, _ => None
  end.

Fixpoint span_digits (s : string) : string * string :=
  match s with
  | String c r => if is_digit c then let '(d, t) := span_digits r in (String c d, t) else ("", s)
  | EmptyString => ("", "")
  end.

Definition digits1 (s : string) : option (string * string) :=
  let '(d, r) := span_digits s in if decide (d = "") then None else Some (d, r).

Definition scan_int (s : string) : option (string * string) :=
  match s with
  | String c r => if decide (c = char 48) then Some (str1 c, r) else digits1 s
  | EmptyString => None
  end.

Definition scan_frac (s : string) : option (string * string) :=
  match s with
  | String c r => if decide (c = char 46) then '(d, t) ← digits1 r; Some (String c d, t) else Some ("", s)
  | EmptyString => Some ("", "")
  end.

Definition scan_exp (s : string) : option (string * string) :=
  match s with
  | String c r =>
      if decide (c = char 101 \/ c = char 69) then
        match r with
        | String e r2 =>
            if decide (e = char 43 \/ e = char 45) then '(d, t) ← digits1 r2; Some (String c (String e d), t)
            else '(d, t) ← digits1 r; Some (String c d, t)
        | EmptyString => None
        end
      else Some ("", s)
  | EmptyString => Some ("", "")
  end.

Definition scan_sign (s : string) : string * string :=
  match s with
  | String c r => if decide (c = char 45) then (str1 c, r) else ("", s)
  | EmptyString => ("", "")
  end.

Definition scan_number (s : string) : option (string * string) :=
  let '(m, r) := scan_sign s in
  '(i, r) ← scan_int r; '(f, r) ← scan_frac r; '(e, r) ← scan_exp r;
  Some (m +:+ i +:+ f +:+ e, r).

(** [null], [true] and [false] *)
Definition scan_word (s : string) : option (json * string) :=
  match CutPrefix "null" s, CutPrefix "true" s, CutPrefix "false" s with
  | Some r, _, _ => Some (JNull, r)
  | _, Some r, _ => Some (JBool true, r)
  | _, _, Some r => Some (JBool false, r)
  | _, _, _ => None
  end.

Definition scan_scalar (c : Ascii.ascii) (r : string) : option (json * string) :=
  if decide (c = dquote) then '(b, t) ← scan_string r; Some (JStr b, t)
  else if decide (c = char 45 \/ is_digit c = true) then '(n, t) ← scan_number (String c r); Some (JNum n, t)
  else scan_word (String c r).

(** A character, after white space. *)
Definition expect (c : Ascii.ascii) (s : string) : option string := CutPrefix (str1 c) (skip_space s).

Definition scan_key (s : string) : option (string * string) :=
  r ← expect dquote s; '(k, r) ← scan_string r; r ← expect (char 58) r; Some (k, r).

(** A value with at most [depth] open brackets; the elements of an array and
    the members of an object after the opening bracket, up to the closing one. *)
Fixpoint scan_value (fuel : nat) (depth : N) (s : string) : option (json * string) :=
  match fuel with
  | O => None
  | S fuel =>
      match skip_space s with
      | EmptyString => None
      | String c r =>
          if decide (c = char 91) then
            if decide (depth = 0)%N then None
            else match expect (char 93) r with
            | Some t => Some (JArr [], t)
            | None => '(l, t) ← scan_elements fuel (depth - 1) r; Some (JArr l, t)
            end
          else if decide (c = char 123) then
            if decide (depth = 0)%N then None
            else match expect (char 125) r with
            | Some t => Some (JObj [], t)
            | None => '(l, t) ← scan_members fuel (depth - 1) r; Some (JObj l, t)
            end
          else scan_scalar c r
      end
  end
with scan_elements (fuel : nat) (depth : N) (s : string) : option (list json * string) :=
  match fuel with
  | O => None
  | S fuel =>
      '(v, r) ← scan_value fuel depth s;
      match expect (char 44) r, expect (char 93) r with
      | Some r, _ => '(l, t) ← scan_elements fuel depth r; Some (v :: l, t)
      | _, Some t => Some ([v], t)
      | _, _ => None
      end
  end
with scan_members (fuel : nat) (depth : N) (s : string) : option (list (string * json) * string) :=
  match fuel with
  | O => None
  | S fuel =>
      '(k, r) ← scan_key s;
      '(v, r) ← scan_value fuel depth r;
      match expect (char 44) r, expect (char 125) r with
      | Some r, _ => '(l, t) ← scan_members fuel depth r; Some ((k, v) :: l, t)
      | _, Some t => Some ([(k, v)], t)
      | _, _ => None
      end
  end.

(** The nesting limit of the scanner. *)
Definition maxNestingDepth : N := 10000.

Definition scan_fuel (s : string) : nat := 2 * String.length s + 2.

(** [checkValid] and the document it has accepted. *)
Definition json_parse (s : string) : option json :=
  '(j, r) ← scan_value (scan_fuel s) maxNestingDepth s;
  if decide (skip_space r = "") then Some j else None.

Example ex_parse : json_parse (" {" +:+ lit "a" +:+ " : [1, -2.5e3 ,true,null, {} ] } ")
  = Some (JObj [("a", JArr [JNum "1"; JNum "-2.5e3"; JBool true; JNull; JObj []])]).
Proof. by vm_compute. Qed.

(** ** The scanner consumes its input *)

Lemma skip_space_le s : (String.length (skip_space s) <= String.length s)%nat.
Proof. induction s as [|c s IH]; simpl; [lia|]. destruct (is_json_space c); simpl; lia. Qed.

Lemma CutPrefix_app p s r : CutPrefix p s = Some r <-> s = p +:+ r.
Proof.
  revert s. induction p as [|a p IH]; intros s; simpl.
  - split; [by intros [= ->]|by intros ->].
  - destruct s as [|b s]; [split; [done|by rewrite string_cons_app]|]. rewrite string_cons_app.
    case_decide as E; [subst|].
    + rewrite IH. split; [by intros ->|by intros [= ->]].
    + split; [done|by intros [= ->]].
Qed.

Lemma CutPrefix_length p s r : CutPrefix p s = Some r -> String.length s = (String.length p + String.length r)%nat.
Proof. intros ->%CutPrefix_app. apply string_length_app. Qed.

Lemma expect_length c s r : expect c s = Some r -> (String.length r < String.length s)%nat.
Proof. unfold expect. intros H%CutPrefix_length. pose proof (skip_space_le s). simpl in *. lia. Qed.

Lemma scan_string_length s b r : scan_string s = Some (b, r) -> (String.length r < String.length s)%nat.
Proof.
  revert s b r. fix IH 1. intros [|c s] b r; [done|]. cbn [scan_string].
  case_decide; [intros [= <- <-]; simpl; lia|]. case_decide.
  - destruct s as [|e s]; [done|]. case_decide.
    + destruct s as [|? [|? [|? [|? s]]]]; try done. destruct (_ && _); [|done].
      destruct (scan_string s) as [[b' r']|] eqn:E; [|done]. intros [= _ <-]. apply IH in E. simpl. lia.
    + case_decide; [|done]. destruct (scan_string s) as [[b' r']|] eqn:E; [|done].
      intros [= _ <-]. apply IH in E. simpl. lia.
  - case_decide; [done|]. destruct (scan_string s) as [[b' r']|] eqn:E; [|done].
    intros [= _ <-]. apply IH in E. simpl. lia.
Qed.

Lemma span_digits_split s d r : span_digits s = (d, r) -> String.length s = (String.length d + String.length r)%nat.
Proof.
  revert d r. induction s as [|c s IH]; intros d r; simpl; [by intros [= <- <-]|].
  destruct (is_digit c); [|by intros [= <- <-]].
  destruct (span_digits s) as [d' r'] eqn:E. intros [= <- <-]. simpl. by rewrite (IH _ _ eq_refl).
Qed.

Lemma digits1_length s d r : digits1 s = Some (d, r) -> (String.length r < String.length s)%nat.
Proof.
  unfold digits1. destruct (span_digits s) as [d' r'] eqn:E. case_decide; [done|]. intros [= <- <-].
  apply span_digits_split in E. destruct d'; [done|]. simpl in E. lia.
Qed.

Lemma scan_int_length s d r : scan_int s = Some (d, r) -> (String.length r < String.length s)%nat.
Proof.
  destruct s as [|c s]; [done|]. cbn [scan_int]. case_decide; [intros [= _ <-]; simpl; lia|apply digits1_length].
Qed.

Lemma scan_frac_length s d r : scan_frac s = Some (d, r) -> (String.length r <= String.length s)%nat.
Proof.
  destruct s as [|c s]; [by intros [= _ <-]|]. cbn [scan_frac]. case_decide; [|by intros [= _ <-]].
  destruct (digits1 s) as [[d' r']|] eqn:E; [|done]. intros [= _ <-]. apply digits1_length in E. simpl. lia.
Qed.

Lemma scan_exp_length s d r : scan_exp s = Some (d, r) -> (String.length r <= String.length s)%nat.
Proof.
  destruct s as [|c s]; [by intros [= _ <-]|]. cbn [scan_exp]. case_decide; [|by intros [= _ <-]].
  destruct s as [|e s]; [done|]. case_decide.
  - destruct (digits1 s) as [[d' r']|] eqn:E; [|done]. intros [= _ <-]. apply digits1_length in E. simpl. lia.
  - destruct (digits1 (String e s)) as [[d' r']|] eqn:E; [|done]. intros [= _ <-].
    apply digits1_length in E. simpl in *. lia.
Qed.

Lemma scan_sign_length s : (String.length (scan_sign s).2 <= String.length s)%nat.
Proof. destruct s as [|c s]; [done|]. simpl. case_decide; simpl; lia. Qed.

Lemma scan_number_length s n r : scan_number s = Some (n, r) -> (String.length r < String.length s)%nat.
Proof.
  unfold scan_number. pose proof (scan_sign_length s) as Hs. destruct (scan_sign s) as [m s']. simpl in Hs.
  destruct (scan_int s') as [[i r1]|] eqn:E1; [|done]. cbn.
  destruct (scan_frac r1) as [[f r2]|] eqn:E2; [|done]. cbn.
  destruct (scan_exp r2) as [[e r3]|] eqn:E3; [|done]. intros [= _ <-].
  apply scan_int_length in E1. apply scan_frac_length in E2. apply scan_exp_length in E3. lia.
Qed.

Lemma scan_word_length s j r : scan_word s = Some (j, r) -> (String.length r < String.length s)%nat.
Proof.
  unfold scan_word. destruct (CutPrefix "null" s) eqn:E1; [intros [= _ <-]; apply CutPrefix_length in E1; simpl in *; lia|].
  destruct (CutPrefix "true" s) eqn:E2; [intros [= _ <-]; apply CutPrefix_length in E2; simpl in *; lia|].
  destruct (CutPrefix "false" s) eqn:E3; [intros [= _ <-]; apply CutPrefix_length in E3; simpl in *; lia|done].
Qed.

Lemma scan_scalar_length c s j r : scan_scalar c s = Some (j, r) -> (String.length r <= String.length s)%nat.
Proof.
  unfold scan_scalar. case_decide; [|case_decide].
  - destruct (scan_string s) as [[b t]|] eqn:E; [|done]. intros [= _ <-]. apply scan_string_length in E. lia.
  - destruct (scan_number _) as [[b t]|] eqn:E; [|done]. intros [= _ <-]. apply scan_number_length in E. simpl in E. lia.
  - intros E%scan_word_length. simpl in E. lia.
Qed.

Lemma scan_key_length s k r : scan_key s = Some (k, r) -> (String.length r < String.length s)%nat.
Proof.
  unfold scan_key. destruct (expect dquote s) as [s'|] eqn:E1; [|done]. cbn [mbind option_bind].
  destruct (scan_string s') as [[k' r1]|] eqn:E2; [|done]. cbn [mbind option_bind].
  destruct (expect (char 58) r1) as [r2|] eqn:E3; [|done]. intros [= _ <-].
  apply expect_length in E1. apply scan_string_length in E2. apply expect_length in E3. lia.
Qed.

(** The three loops return a rest shorter than their input. *)
Definition shorter {A} (s : string) (x : option (A * string)) : Prop :=
  forall a r, x = Some (a, r) -> (String.length r < String.length s)%nat.

Lemma scan_shorter fuel : forall depth s,
  shorter s (scan_value fuel depth s) /\ shorter s (scan_elements fuel depth s) /\
  shorter s (scan_members fuel depth s).
Proof.
  unfold shorter. induction fuel as [|fuel IH]; intros depth s; [split_and!; by intros a r [=]|]. split_and!; intros a r.
  - cbn [scan_value]. pose proof (skip_space_le s) as Hs. destruct (skip_space s) as [|c s']; [done|]. simpl in Hs.
    assert (forall b, expect b s' = Some r -> (String.length r < String.length s)%nat) as Hc
      by (intros b E%expect_length; lia).
    case_decide; [|case_decide].
    + case_decide; [done|]. destruct (expect (char 93) s') eqn:E1; [intros [= _ <-]; by eapply Hc|].
      destruct (scan_elements _ _ s') as [[l t]|] eqn:E; [|done]. intros [= _ <-]. apply IH in E. lia.
    + case_decide; [done|]. destruct (expect (char 125) s') eqn:E1; [intros [= _ <-]; by eapply Hc|].
      destruct (scan_members _ _ s') as [[l t]|] eqn:E; [|done]. intros [= _ <-]. apply IH in E. lia.
    + intros E%scan_scalar_length. lia.
  - cbn [scan_elements]. destruct (scan_value fuel depth s) as [[v r1]|] eqn:E1; [|done]. apply IH in E1. cbn [mbind option_bind].
    destruct (expect (char 44) r1) as [r2|] eqn:E2.
    + destruct (scan_elements fuel depth r2) as [[l t]|] eqn:E; [|done]. intros [= _ <-].
      apply IH in E. apply expect_length in E2. lia.
    + destruct (expect (char 93) r1) eqn:E3; [|done]. intros [= _ <-]. apply expect_length in E3. lia.
  - cbn [scan_members]. destruct (scan_key s) as [[k r0]|] eqn:E0; [|done]. apply scan_key_length in E0. cbn [mbind option_bind].
    destruct (scan_value fuel depth r0) as [[v r1]|] eqn:E1; [|done]. apply IH in E1. cbn [mbind option_bind].
    destruct (expect (char 44) r1) as [r2|] eqn:E2.
    + destruct (scan_members fuel depth r2) as [[l t]|] eqn:E; [|done]. intros [= _ <-].
      apply IH in E. apply expect_length in E2. lia.
    + destruct (expect (char 125) r1) eqn:E3; [|done]. intros [= _ <-]. apply expect_length in E3. lia.
Qed.

(** ** The fuel is enough *)

Lemma scan_fuel_stable f : forall g depth s,
  ((2 * String.length s + 1 <= f)%nat -> (2 * String.length s + 1 <= g)%nat ->
    scan_value f depth s = scan_value g depth s) /\
  ((2 * String.length s + 2 <= f)%nat -> (2 * String.length s + 2 <= g)%nat ->
    scan_elements f depth s = scan_elements g depth s /\ scan_members f depth s = scan_members g depth s).
Proof.
  induction f as [|f IH]; intros g depth s; [split; lia|].
  destruct g as [|g]; [split; lia|]. split; [intros Hf Hg|intros Hf Hg; split].
  - cbn [scan_value]. pose proof (skip_space_le s) as Hs. destruct (skip_space s) as [|c s']; [done|]. simpl in Hs.
    destruct (IH g (depth - 1)%N s') as [_ IHs]. destruct IHs as [-> ->]; [lia..|]. done.
  - cbn [scan_elements]. destruct (IH g depth s) as [IHv _]. rewrite IHv by lia.
    destruct (scan_value g depth s) as [[v r1]|] eqn:E1; [|done]. apply scan_shorter in E1. cbn [mbind option_bind].
    destruct (expect (char 44) r1) as [r2|] eqn:E2; [|done]. apply expect_length in E2.
    destruct (IH g depth r2) as [_ IHs]. destruct IHs as [-> _]; [lia..|]. done.
  - cbn [scan_members]. destruct (scan_key s) as [[k r0]|] eqn:E0; [|done]. apply scan_key_length in E0. cbn [mbind option_bind].
    destruct (IH g depth r0) as [IHv _]. rewrite IHv by lia.
    destruct (scan_value g depth r0) as [[v r1]|] eqn:E1; [|done]. apply scan_shorter in E1. cbn [mbind option_bind].
    destruct (expect (char 44) r1) as [r2|] eqn:E2; [|done]. apply expect_length in E2.
    destruct (IH g depth r2) as [_ IHs]. destruct IHs as [_ ->]; [lia..|]. done.
Qed.

(** More fuel than [scan_fuel] never changes what the scanner answers. *)
Lemma scan_fuel_enough g depth s : (scan_fuel s <= g)%nat -> scan_value g depth s = scan_value (scan_fuel s) depth s.
Proof. unfold scan_fuel. intros H. apply scan_fuel_stable; lia. Qed.

(** ** What is printed is read back *)

Section JsonInd.
Variable P : json -> Prop.
Hypothesis Hnull : P JNull.
Hypothesis Hbool : forall b, P (JBool b).
Hypothesis Hnum : forall n, P (JNum n).
Hypothesis Hstr : forall s, P (JStr s).
Hypothesis Harr : forall l, Forall P l -> P (JArr l).
Hypothesis Hobj : forall l, Forall (fun m => P m.2) l -> P (JObj l).

Fixpoint json_nested_ind (j : json) : P j :=
  match j with
  | JNull => Hnull
  | JBool b => Hbool b
  | JNum n => Hnum n
  | JStr s => Hstr s
  | JArr l =>
      Harr l ((fix go l : Forall P l :=
        match l with [] => Forall_nil_2 _ | j :: l => Forall_cons_2 _ _ _ (json_nested_ind j) (go l) end) l)
  | JObj l =>
      Hobj l ((fix go l : Forall (fun m => P m.2) l :=
        match l with
        | [] => Forall_nil_2 _
        | m :: l => Forall_cons_2 (fun m => P m.2) m l (json_nested_ind m.2) (go l)
        end) l)
  end.
End JsonInd.

(** What may follow a number *)
Definition ends (t : string) : Prop :=
  match t with
  | EmptyString => True
  | String c _ => is_digit c = false /\ c <> char 46 /\ c <> char 101 /\ c <> char 69
  end.

Definition wf_num (n : string) : Prop :=
  (exists c r, n = String c r /\ (c = char 45 \/ is_digit c = true)) /\
  forall t, ends t -> scan_number (n +:+ t) = Some (n, t).
Definition wf_body (b : string) : Prop := forall t, scan_string (b +:+ String dquote t) = Some (b, t).

Fixpoint json_wf (j : json) : Prop :=
  match j with
  | JNull | JBool _ => True
  | JNum n => wf_num n
  | JStr b => wf_body b
  | JArr l => foldr and True (json_wf <$> l)
  | JObj l => foldr and True ((fun '(k, v) => wf_body k /\ json_wf v) <$> l)
  end.

Fixpoint json_depth (j : json) : N :=
  match j with
  | JNull | JBool _ | JNum _ | JStr _ => 0
  | JArr l => 1 + foldr N.max 0 (json_depth <$> l)
  | JObj l => 1 + foldr N.max 0 ((fun '(k, v) => json_depth v) <$> l)
  end%N.

Lemma json_string_wf s : json_wf (json_string s).
Proof. intros t. apply scan_quote. Qed.

(** *** Heads *)

Definition starts_value (s : string) : Prop :=
  exists c r, s = String c r /\ is_json_space c = false /\ c <> char 93 /\ c <> char 125.

Lemma skip_space_head s c r : s = String c r -> is_json_space c = false -> skip_space s = s.
Proof. intros ->. simpl. by intros ->. Qed.

Lemma digit_head c : c = char 45 \/ is_digit c = true ->
  is_json_space c = false /\ c <> char 93 /\ c <> char 125 /\ c <> char 91 /\ c <> char 123 /\ c <> dquote.
Proof. each_char c; intros [[=]|H]; try (by vm_compute in H); by vm_compute. Qed.

Lemma json_print_head j t : json_wf j -> starts_value (json_print j +:+ t).
Proof.
  destruct j as [|[]|n|b|l|l]; intros Hwf; unfold starts_value.
  1-3: (eexists _, _; split; [done|]; split_and!; done).
  - destruct Hwf as [(c & r & -> & Hc) _]. eexists c, _. split; [done|].
    destruct (digit_head c Hc) as (? & ? & ? & _). done.
  - eexists dquote, _. split; [done|]. done.
  - eexists (char 91), _. split; [done|]. done.
  - eexists (char 123), _. split; [done|]. done.
Qed.

Lemma starts_value_skip s : starts_value s -> skip_space s = s.
Proof. intros (c & r & E & Hs & _). by eapply skip_space_head. Qed.

Lemma expect_hit c t : is_json_space c = false -> expect c (String c t) = Some t.
Proof. intros H. unfold expect. cbn [skip_space]. rewrite H. apply CutPrefix_app. done. Qed.

Lemma expect_miss c d t : is_json_space d = false -> c <> d -> expect c (String d t) = None.
Proof. intros H Hn. unfold expect. cbn [skip_space]. rewrite H. simpl. by rewrite decide_False. Qed.

Lemma expect_not_value s : starts_value s -> expect (char 93) s = None /\ expect (char 125) s = None.
Proof. intros (c & r & -> & Hs & ? & ?). split; by apply expect_miss. Qed.

(** *** Values *)

Definition scans (j : json) : Prop :=
  exists f, forall g depth t, (f <= g)%nat -> (json_depth j <= depth)%N -> ends t ->
    scan_value g depth (json_print j +:+ t) = Some (j, t).

Lemma scan_value_scalar g depth s c r : (0 < g)%nat -> s = String c r ->
  is_json_space c = false -> c <> char 91 -> c <> char 123 ->
  scan_value g depth s = scan_scalar c r.
Proof.
  intros Hg -> Hs Ha Ho. destruct g as [|g]; [lia|]. cbn [scan_value]. rewrite (skip_space_head _ c r) by done.
  by rewrite !decide_False.
Qed.

Lemma scans_scalar j c r : json_depth j = 0%N -> (forall t, json_print j +:+ t = String c (r +:+ t)) ->
  is_json_space c = false -> c <> char 91 -> c <> char 123 ->
  (forall t, ends t -> scan_scalar c (r +:+ t) = Some (j, t)) -> scans j.
Proof.
  intros _ Hp Hs Ha Ho Hsc. exists 1%nat. intros g depth t Hg _ Ht.
  rewrite (scan_value_scalar g depth _ c (r +:+ t)) by (done || lia). auto.
Qed.

Lemma ends_comma t : ends (String (char 44) t). Proof. done. Qed.
Lemma ends_bracket t : ends (String (char 93) t). Proof. done. Qed.
Lemma ends_brace t : ends (String (char 125) t). Proof. done. Qed.

Lemma Join_cons s l t : l <> [] -> Join (s :: l) "," +:+ t = s +:+ String (char 44) (Join l "," +:+ t).
Proof.
  destruct l as [|s' l]; [done|]. intros _. unfold Join at 1. cbn [String.concat].
  by rewrite app_string_assoc, app_string_assoc.
Qed.

Lemma foldr_max_le {A} (f : A -> N) (l : list A) (n : N) :
  (foldr N.max 0 (f <$> l) <= n)%N -> Forall (fun a => f a <= n)%N l.
Proof. induction l as [|a l IH]; [by constructor|]. intros [Ha Hl]%N.max_lub_iff. constructor; auto. Qed.

Lemma foldr_and_Forall {A} (f : A -> Prop) (l : list A) : foldr and True (f <$> l) -> Forall f l.
Proof. induction l as [|a l IH]; simpl; [by constructor|]. intros [? ?]. constructor; auto. Qed.

(** The elements of an array, after the opening bracket. *)
Lemma scans_elements l : l <> [] -> Forall scans l -> Forall json_wf l ->
  exists f, forall g depth t, (f <= g)%nat -> Forall (fun j : json => json_depth j <= depth)%N l ->
    scan_elements g depth (Join (json_print <$> l) "," +:+ String (char 93) t) = Some (l, t).
Proof.
  induction l as [|j l IH]; [done|]. intros _ [[f Hf] Hl]%Forall_cons [Hj Hwl]%Forall_cons.
  destruct (decide (l = [])) as [->|Hne].
  - exists (S f). intros [|g] depth t Hg Hd; [lia|]. apply Forall_cons in Hd as [Hd _].
    cbn [scan_elements fmap list_fmap Join String.concat].
    rewrite (Hf g depth (String (char 93) t)) by (lia || done). cbn [mbind option_bind].
    by rewrite expect_miss, expect_hit by done.
  - destruct (IH Hne Hl Hwl) as [f' Hf']. exists (S (f + f')). intros [|g] depth t Hg Hd; [lia|].
    apply Forall_cons in Hd as [Hd Hdl]. cbn [scan_elements fmap list_fmap]. rewrite Join_cons by by destruct l.
    rewrite (Hf g depth) by (lia || done). cbn [mbind option_bind].
    rewrite expect_hit by done. fold (json_print <$> l). rewrite Hf' by (lia || done). done.
Qed.

Definition print_member : string * json -> string := fun '(k, v) => lit k +:+ ":" +:+ json_print v.

Lemma scan_key_lit k t : wf_body k -> scan_key (lit k +:+ String (char 58) t) = Some (k, t).
Proof.
  intros Hk. unfold scan_key, lit. rewrite string_cons_app, app_string_assoc, expect_hit by done.
  cbn [mbind option_bind]. change (str1 dquote +:+ String (char 58) t) with (String dquote (String (char 58) t)).
  rewrite Hk. cbn [mbind option_bind]. by rewrite expect_hit.
Qed.

Lemma print_member_app k v t : print_member (k, v) +:+ t = lit k +:+ String (char 58) (json_print v +:+ t).
Proof. unfold print_member. by rewrite !app_string_assoc. Qed.

Lemma scans_members l : l <> [] -> Forall (fun m => scans m.2) l ->
  Forall (fun m => wf_body m.1 /\ json_wf m.2) l ->
  exists f, forall g depth t, (f <= g)%nat -> Forall (fun m : string * json => json_depth m.2 <= depth)%N l ->
    scan_members g depth (Join (print_member <$> l) "," +:+ String (char 125) t) = Some (l, t).
Proof.
  induction l as [|[k j] l IH]; [done|]. intros _ [[f Hf] Hl]%Forall_cons [[Hk Hj] Hwl]%Forall_cons. simpl in Hf, Hk, Hj.
  destruct (decide (l = [])) as [->|Hne].
  - exists (S f). intros [|g] depth t Hg Hd; [lia|]. apply Forall_cons in Hd as [Hd _].
    assert (Join (print_member <$> [(k, j)]) "," = print_member (k, j)) as -> by done. cbn [scan_members].
    rewrite print_member_app, scan_key_lit by done. cbn [mbind option_bind].
    rewrite (Hf g depth (String (char 125) t)) by (lia || done). cbn [mbind option_bind].
    by rewrite expect_miss, expect_hit by done.
  - destruct (IH Hne Hl Hwl) as [f' Hf']. exists (S (f + f')). intros [|g] depth t Hg Hd; [lia|].
    apply Forall_cons in Hd as [Hd Hdl]. cbn [scan_members fmap list_fmap]. rewrite Join_cons by by destruct l.
    rewrite print_member_app, scan_key_lit by done. cbn [mbind option_bind].
    rewrite (Hf g depth) by (lia || done). cbn [mbind option_bind].
    rewrite expect_hit by done. fold (print_member <$> l). rewrite Hf' by (lia || done). done.
Qed.

Lemma Forall_mp {A} (P Q : A -> Prop) l : Forall (fun a => P a -> Q a) l -> Forall P l -> Forall Q l.
Proof. intros H. induction H; intros HP; [constructor|]. inversion HP; subst. constructor; auto. Qed.

Lemma scan_array g depth s : (0 < depth)%N -> expect (char 93) s = None ->
  scan_value (S g) depth (String (char 91) s) = ('(l, t) ← scan_elements g (depth - 1) s; Some (JArr l, t)).
Proof.
  intros Hd He. cbn [scan_value]. rewrite (skip_space_head _ (char 91) s) by done.
  by rewrite decide_True, decide_False, He by (done || lia).
Qed.

Lemma scan_object g depth s : (0 < depth)%N -> expect (char 125) s = None ->
  scan_value (S g) depth (String (char 123) s) = ('(l, t) ← scan_members g (depth - 1) s; Some (JObj l, t)).
Proof.
  intros Hd He. cbn [scan_value]. rewrite (skip_space_head _ (char 123) s) by done.
  by rewrite decide_False, decide_True, decide_False, He by (done || lia).
Qed.

Lemma scan_empty g depth o c t : (0 < depth)%N -> (o = char 91 /\ c = char 93) \/ (o = char 123 /\ c = char 125) ->
  scan_value (S g) depth (String o (String c t)) = Some (if decide (o = char 91) then JArr [] else JObj [], t).
Proof.
  intros Hd [[-> ->]|[-> ->]]; cbn [scan_value].
  - rewrite (skip_space_head _ (char 91) (String (char 93) t)) by done.
    rewrite decide_True, decide_False, expect_hit by (done || lia). done.
  - rewrite (skip_space_head _ (char 123) (String (char 125) t)) by done.
    rewrite decide_False, decide_True, decide_False, expect_hit by (done || lia). done.
Qed.

Lemma print_array l t : json_print (JArr l) +:+ t = String (char 91) (Join (json_print <$> l) "," +:+ String (char 93) t).
Proof. cbn [json_print]. by rewrite !app_string_assoc. Qed.

Lemma print_object l t :
  json_print (JObj l) +:+ t = String (char 123) (Join (print_member <$> l) "," +:+ String (char 125) t).
Proof. cbn [json_print]. by rewrite !app_string_assoc. Qed.

Lemma Join_head s l t : exists r, Join (s :: l) "," +:+ t = s +:+ r.
Proof. destruct l as [|s' l]; [by eexists|]. eexists. by apply Join_cons. Qed.

Lemma elements_head j l t : json_wf j -> expect (char 93) (Join (json_print <$> j :: l) "," +:+ t) = None.
Proof.
  intros Hj. rewrite fmap_cons. destruct (Join_head (json_print j) (json_print <$> l) t) as [r ->].
  by apply expect_not_value, json_print_head.
Qed.

Lemma members_head m l t : expect (char 125) (Join (print_member <$> m :: l) "," +:+ t) = None.
Proof.
  rewrite fmap_cons. destruct (Join_head (print_member m) (print_member <$> l) t) as [r ->].
  destruct m as [k v]. rewrite print_member_app. by apply expect_miss.
Qed.

Lemma scans_all j : json_wf j -> scans j.
Proof.
  induction j as [|b|n|b|l IH|l IH] using json_nested_ind; intros Hwf.
  - by apply (scans_scalar _ (char 110) "ull").
  - destruct b; [by apply (scans_scalar _ (char 116) "rue")|by apply (scans_scalar _ (char 102) "alse")].
  - destruct Hwf as [(c & r & -> & Hc) Hn]. destruct (digit_head c Hc) as (? & ? & ? & ? & ? & ?).
    apply (scans_scalar _ c r); try done. intros t Ht. unfold scan_scalar.
    rewrite decide_False, decide_True by done. rewrite <-string_cons_app. by rewrite Hn.
  - apply (scans_scalar _ dquote (b +:+ str1 dquote)); try done. intros t _. unfold scan_scalar.
    rewrite decide_True by done. rewrite app_string_assoc. change (str1 dquote +:+ t) with (String dquote t).
    by rewrite (Hwf t).
  - apply foldr_and_Forall in Hwf. pose proof (Forall_mp _ _ l IH Hwf) as Hl.
    destruct l as [|j l].
    { exists 1%nat. intros [|g] depth t Hg Hd _; [lia|]. simpl in Hd. rewrite print_array.
      apply (scan_empty g depth (char 91) (char 93) t); [lia|auto]. }
    destruct (scans_elements (j :: l)) as [f Hf]; [done..|].
    exists (S f). intros [|g] depth t Hg Hd _; [lia|]. cbn [json_depth] in Hd. rewrite print_array.
    rewrite scan_array; [|lia|apply elements_head; by inversion Hwf].
    rewrite Hf; [done|lia|]. apply foldr_max_le. lia.
  - apply foldr_and_Forall in Hwf.
    assert (Forall (fun m => wf_body m.1 /\ json_wf m.2) l) as Hw
      by (eapply Forall_impl; [exact Hwf|by intros [k v]]).
    assert (Forall (fun m => scans m.2) l) as Hl
      by (refine (Forall_mp _ _ l IH _); eapply Forall_impl; [exact Hw|naive_solver]).
    destruct l as [|m l].
    { exists 1%nat. intros [|g] depth t Hg Hd _; [lia|]. simpl in Hd. rewrite print_object.
      apply (scan_empty g depth (char 123) (char 125) t); [lia|auto]. }
    destruct (scans_members (m :: l)) as [f Hf]; [done..|].
    exists (S f). intros [|g] depth t Hg Hd _; [lia|]. cbn [json_depth] in Hd. rewrite print_object.
    rewrite scan_object; [|lia|by apply members_head]. rewrite Hf; [done|lia|].
    assert (Forall (fun m => (fun '(k, v) => json_depth v) m <= depth - 1)%N (m :: l)) as Hm
      by (apply foldr_max_le; lia).
    eapply Forall_impl; [exact Hm|by intros [k v]].
Qed.

(** A document printed and parsed is the document, when it does not nest deeper
    than the scanner allows. *)
Lemma json_parse_print j : json_wf j -> (json_depth j <= maxNestingDepth)%N -> json_parse (json_print j) = Some j.
Proof.
  intros Hj Hd. destruct (scans_all j Hj) as [f Hf]. unfold json_parse.
  rewrite <-(scan_fuel_enough (f + scan_fuel (json_print j))) by lia.
  rewrite <-(app_string_nil (json_print j)) at 2. by rewrite Hf by (done || lia).
Qed.

(** ** Numbers *)

Lemma span_digits_app d t : string_forall is_digit d = true -> ends t -> span_digits (d +:+ t) = (d, t).
Proof.
  intros Hd Ht. induction d as [|c d IH].
  - change ("" +:+ t) with t. destruct t as [|c t]; [done|]. destruct Ht as [Hc _]. simpl. by rewrite Hc.
  - simpl in Hd. apply andb_true_iff in Hd as [Hc Hd]. rewrite string_cons_app. simpl. by rewrite Hc, IH.
Qed.

Lemma pretty_N_go_spec x s : string_forall is_digit s = true -> (0 < x)%N ->
  string_forall is_digit (pretty_N_go x s) = true /\
  exists c r, pretty_N_go x s = String c r /\ c <> char 48.
Proof.
  revert s. induction (N.lt_wf_0 x) as [x _ IH]. intros s Hs Hx.
  rewrite pretty_N_go_step by done.
  assert (is_digit (pretty_N_char (x `mod` 10)) = true) as Hd.
  { unfold is_digit. rewrite digit_of_pretty; [done|]. by apply N.mod_lt. }
  destruct (decide (x < 10)%N) as [Hlt|Hge].
  - rewrite N.div_small by done. rewrite pretty_N_go_0. split; [simpl; by rewrite Hd|].
    eexists _, _. split; [done|]. rewrite N.mod_small by done.
    pose proof (below_forall (fun n => (n =? 0)%N || negb (bool_decide (pretty_N_char n = char 48))) 10
      ltac:(by vm_compute) x Hlt) as Hb. apply orb_true_iff in Hb as [Hb|Hb]; [apply N.eqb_eq in Hb; lia|].
    by apply negb_true_iff, bool_decide_eq_false in Hb.
  - apply IH; [apply N.div_lt; lia|simpl; by rewrite Hd|].
    apply N.div_str_pos. lia.
Qed.

Lemma scan_number_digits m d t : (m = "" \/ m = str1 (char 45)) -> string_forall is_digit d = true ->
  (d = str1 (char 48) \/ exists c r, d = String c r /\ c <> char 48) -> ends t ->
  scan_number (m +:+ d +:+ t) = Some (m +:+ d, t).
Proof.
  intros Hm Hd Hh Ht. unfold scan_number.
  assert (d <> "") as Hne by (destruct Hh as [->|(? & ? & -> & _)]; done).
  assert (scan_sign (m +:+ d +:+ t) = (m, d +:+ t)) as ->.
  { destruct Hm as [-> | ->]; [|done]. change ("" +:+ d +:+ t) with (d +:+ t). destruct d as [|c d]; [done|].
    rewrite string_cons_app. unfold scan_sign. rewrite decide_False; [done|]. intros ->. by vm_compute in Hd. }
  assert (scan_int (d +:+ t) = Some (d, t)) as ->.
  { destruct Hh as [->|(c & r & -> & Hc)]; [done|]. rewrite string_cons_app. cbn [scan_int].
    rewrite decide_False by done. unfold digits1. rewrite <-string_cons_app, span_digits_app by done.
    by rewrite decide_False. }
  cbn [mbind option_bind].
  assert (scan_frac t = Some ("", t)) as ->.
  { destruct t as [|c t]; [done|]. destruct Ht as (_ & ? & _). cbn [scan_frac]. by rewrite decide_False. }
  cbn [mbind option_bind].
  assert (scan_exp t = Some ("", t)) as ->.
  { destruct t as [|c t]; [done|]. destruct Ht as (_ & _ & ? & ?). cbn [scan_exp]. rewrite decide_False by naive_solver. done. }
  cbn [mbind option_bind]. by rewrite !app_string_nil.
Qed.

(** The digits of an integer after its sign. *)
Lemma FormatInt_digits z : exists m d, FormatInt z = m +:+ d /\ (m = "" \/ m = str1 (char 45)) /\
  string_forall is_digit d = true /\ (d = str1 (char 48) \/ exists c r, d = String c r /\ c <> char 48) /\
  (z < 0 -> m = str1 (char 45) /\ d = FormatInt (- z)).
Proof.
  assert (forall p, string_forall is_digit (pretty (N.pos p)) = true /\
    exists c r, pretty (N.pos p) = String c r /\ c <> char 48) as Hp.
  { intros p. unfold pretty, pretty_N. rewrite decide_False by done. by apply pretty_N_go_spec. }
  destruct z as [|p|p].
  - exists "", (str1 (char 48)). split_and!; auto; lia.
  - exists "", (pretty (N.pos p)). split_and!; auto; [apply Hp|right; apply Hp|lia..].
  - exists (str1 (char 45)), (pretty (N.pos p)). split_and!; auto; [apply Hp|right; apply Hp].
Qed.

Lemma json_int_wf z : json_wf (json_int z).
Proof.
  unfold json_int. cbn [json_wf]. destruct (FormatInt_digits z) as (m & d & -> & Hm & Hd & Hh & _). split.
  - destruct Hm as [-> | ->]; [|exists (char 45), d; auto].
    destruct Hh as [->|(c & r & -> & _)].
    + exists (char 48), "". split; [done|]. right. by vm_compute.
    + exists c, r. split; [done|]. right. simpl in Hd. by apply andb_true_iff in Hd as [? _].
  - intros t Ht. rewrite app_string_assoc. by apply scan_number_digits.
Qed.

Lemma ParseInt_FormatInt z : - 2 ^ 63 <= z < 2 ^ 63 -> ParseInt (FormatInt z) 64 = Ok z.
Proof.
  intros Hz. destruct (decide (0 <= z)) as [Hp|Hn]; [apply (ParseInt_FormatUint z 64); split; [lia|apply Hz]|].
  destruct (FormatInt_digits z) as (m & d & -> & _ & _ & _ & Hneg).
  destruct Hneg as [-> ->]; [lia|]. unfold ParseInt, str1. rewrite string_cons_app.
  rewrite decide_True by done. change ("" +:+ FormatInt (- z)) with (FormatInt (- z)).
  pose proof (pretty_starts_with_digit (- z) ltac:(lia)) as H. unfold FormatInt.
  rewrite decide_False by (intros E; by rewrite E in H). rewrite parse_digits_pretty by lia.
  rewrite decide_True by lia. f_equal. lia.
Qed.

(** ** Filling Go values

    [json.Unmarshal] into a value that is there already: null leaves it alone
    (and makes a slice nil), a document of another kind is an error.  Where the
    library goes on after such an error and returns the first one at the end, so
    does [None] stand for the call's error. *)

Definition fill_string (old : string) (j : json) : option string :=
  match j with JNull => Some old | JStr b => unquote b | _ => None end.

Definition res_option {A} (r : Res A) : option A := match r with Ok a => Some a | _ => None end.

(** An [int] of 64 bits: the literal has no fraction and no exponent. *)
Definition fill_int (old : Z) (j : json) : option Z :=
  match j with JNull => Some old | JNum n => res_option (ParseInt n 64) | _ => None end.

(** A slice: its elements are filled in place as far as they exist, the others
    start from the zero value; [None] is the nil slice. *)
Fixpoint fill_list {A} (zero : A) (fill : A -> json -> option A) (old : list A) (l : list json) : option (list A) :=
  match l with
  | [] => Some []
  | j :: l =>
      a ← fill (default zero (head old)) j;
      r ← fill_list zero fill (tail old) l;
      Some (a :: r)
  end.

Definition fill_slice {A} (zero : A) (fill : A -> json -> option A) (old : option (list A)) (j : json)
    : option (option (list A)) :=
  match j with
  | JNull => Some None
  | JArr l => r ← fill_list zero fill (default [] old) l; Some (Some r)
  | _ => None
  end.

(** [foldName]: the runes that fold to an ASCII letter, as capitals. *)
Definition upper_char (c : Ascii.ascii) : Ascii.ascii := if between 97 122 c then byte (code c - 32) else c.

Definition fold_rune (r : rune) : string :=
  match r with
  | RBytes (String c EmptyString) => str1 (upper_char c)
  | RBytes b =>
      if decide (b = str2 (char 197) (char 191)) then "S"
      else if decide (b = str3 (char 226) (char 132) (char 170)) then "K"
      else b
  | RBad => replacement
  end.
Definition fold_name (s : string) : string := concat_map fold_rune (runes s).

(** The field a name stands for: the exact one, or else the one of the same
    folded name. *)
Definition find_field {A} (fields : list (string * A)) (name : string) : option A :=
  match list_find (fun f => f.1 = name) fields with
  | Some (_, (_, f)) => Some f
  | None =>
      match list_find (fun f => fold_name f.1 = fold_name name) fields with
      | Some (_, (_, f)) => Some f
      | None => None
      end
  end.

(** The members of an object, in order; unknown names are skipped. *)
Fixpoint fill_members {A} (fields : list (string * (A -> json -> option A))) (old : A) (l : list (string * json))
    : option A :=
  match l with
  | [] => Some old
  | (k, v) :: l =>
      name ← unquote k;
      a ← match find_field fields name with Some fill => fill old v | None => Some old end;
      fill_members fields a l
  end.

Definition fill_struct {A} (fields : list (string * (A -> json -> option A))) (old : A) (j : json) : option A :=
  match j with JNull => Some old | JObj l => fill_members fields old l | _ => None end.

Definition invalid_json : error := EExt "invalid JSON".

(** [json.Unmarshal] of a text.  The error stands for whichever error the library
    reports. *)
Definition json_Unmarshal {A} (fill : A -> json -> option A) (data : string) (old : A) : Res A :=
  match json_parse data ≫= fill old with Some a => Ok a | None => Err invalid_json end.

Lemma fill_string_json old s : fill_string old (json_string s) = Some (utf8_fix s).
Proof. apply unquote_quote. Qed.

Lemma fill_int_json old z : - 2 ^ 63 <= z < 2 ^ 63 -> fill_int old (json_int z) = Some z.
Proof. intros H. unfold fill_int, json_int. by rewrite ParseInt_FormatInt. Qed.

Lemma fill_list_json {A} (zero : A) fill (enc : A -> json) (g : A -> A) l :
  Forall (fun a => fill zero (enc a) = Some (g a)) l -> fill_list zero fill [] (enc <$> l) = Some (g <$> l).
Proof. induction 1 as [|a l Ha _ IH]; [done|]. cbn. by rewrite Ha, IH. Qed.

Lemma json_Unmarshal_print {A} (fill : A -> json -> option A) j old :
  json_wf j -> (json_depth j <= maxNestingDepth)%N ->
  json_Unmarshal fill (json_print j) old = match fill old j with Some a => Ok a | None => Err invalid_json end.
Proof. intros Hj Hd. unfold json_Unmarshal. by rewrite json_parse_print. Qed.

(** ** Documents that can be read back *)

(** Well formed, and nesting at most [n]. *)
Definition good (n : N) (j : json) : Prop := json_wf j /\ (json_depth j <= n)%N.

Lemma foldr_max_bound (l : list N) n : Forall (fun d => d <= n)%N l -> (foldr N.max 0 l <= n)%N.
Proof. induction 1; simpl; lia. Qed.

Lemma foldr_and_intro (l : list Prop) : Forall id l -> foldr and True l.
Proof. by induction 1. Qed.

Lemma good_null n : good n JNull.
Proof. split; [done|simpl; lia]. Qed.

Lemma good_string n s : good n (json_string s).
Proof. split; [apply json_string_wf|simpl; lia]. Qed.

Lemma good_int n z : good n (json_int z).
Proof. split; [apply json_int_wf|simpl; lia]. Qed.

Lemma good_array n l : Forall (good n) l -> good (1 + n) (JArr l).
Proof.
  intros Hl. split; cbn [json_wf json_depth].
  - apply foldr_and_intro, Forall_fmap. eapply Forall_impl; [exact Hl|]. by intros j [? _].
  - pose proof (foldr_max_bound (json_depth <$> l) n) as H. rewrite Forall_fmap in H.
    specialize (H ltac:(eapply Forall_impl; [exact Hl|]; by intros j [_ ?])). lia.
Qed.

Lemma good_object n l : Forall (fun m => wf_body m.1 /\ good n m.2) l -> good (1 + n) (JObj l).
Proof.
  intros Hl. split; cbn [json_wf json_depth].
  - apply foldr_and_intro, Forall_fmap. eapply Forall_impl; [exact Hl|]. by intros [k j] (? & ? & _).
  - pose proof (foldr_max_bound ((fun '(k, v) => json_depth v) <$> l) n) as H. rewrite Forall_fmap in H.
    specialize (H ltac:(eapply Forall_impl; [exact Hl|]; by intros [k j] (_ & _ & ?))). lia.
Qed.

Lemma good_le n m j : (n <= m)%N -> good n j -> good m j.
Proof. intros H [? ?]. split; [done|lia]. Qed.

(** A name of plain characters is its own literal. *)
Lemma wf_body_name k : json_quote_body k = k -> wf_body k.
Proof. intros H t. rewrite <-H at 1 2. apply scan_quote. Qed.

Lemma fill_members_step {A} (fields : list (string * (A -> json -> option A))) k fill old v l :
  unquote k = Some k -> find_field fields k = Some fill ->
  fill_members fields old ((k, v) :: l) = (a ← fill old v; fill_members fields a l).
Proof. intros Hk Hf. cbn [fill_members]. rewrite Hk. cbn [mbind option_bind]. by rewrite Hf. Qed.

(** Filling a struct from an object whose names are its own. *)
Ltac fill_steps :=
  repeat (erewrite fill_members_step; [|by vm_compute|reflexivity];
    cbn [fill_string fill_int mbind option_bind];
    rewrite ?fill_string_json, ?fill_int_json by lia; cbn [mbind option_bind]).

(** The members of a struct are documents of their own. *)
Ltac good_members :=
  repeat (apply Forall_cons; split;
    [split; cbn [fst snd]; [by apply wf_body_name; vm_compute|auto using good_string, good_int, good_null]|]);
  try by apply Forall_nil.

(** ** Invariants of what was filled *)

Lemma find_field_in {A} (fields : list (string * A)) name f :
  find_field fields name = Some f -> exists k, (k, f) ∈ fields.
Proof.
  unfold find_field.
  destruct (list_find (fun f => f.1 = name) fields) as [[i [k g]]|] eqn:E.
  - intros [= ->]. apply list_find_Some in E as (E & _). exists k. by eapply list_elem_of_lookup_2.
  - destruct (list_find (fun f => fold_name f.1 = fold_name name) fields) as [[i [k g]]|] eqn:E2; [|done]. intros [= ->].
    apply list_find_Some in E2 as (E2 & _). exists k. by eapply list_elem_of_lookup_2.
Qed.

Definition fill_keeps {A} (P : A -> Prop) (fill : A -> json -> option A) : Prop :=
  forall a j b, P a -> fill a j = Some b -> P b.

Lemma fill_struct_keeps {A} (P : A -> Prop) (fields : list (string * (A -> json -> option A))) :
  Forall (fun f => fill_keeps P f.2) fields -> fill_keeps P (fill_struct fields).
Proof.
  intros Hf a [|bb|n|s|la|l] r Ha; try done; [by intros [= <-]|]. cbn [fill_struct]. revert a Ha.
  induction l as [|[k v] l IH]; intros a Ha; [by intros [= <-]|]. cbn [fill_members].
  destruct (unquote k) as [name|]; [|done]. cbn [mbind option_bind].
  destruct (find_field fields name) as [fill|] eqn:E; cbn [mbind option_bind]; [|by apply IH].
  apply find_field_in in E as [k' Hin]. rewrite Forall_forall in Hf. specialize (Hf _ Hin).
  destruct (fill a v) as [a'|] eqn:Ea; [|done]. cbn [mbind option_bind]. apply IH. by eapply Hf.
Qed.

Lemma fill_slice_keeps {A} (P : A -> Prop) zero fill : P zero -> fill_keeps P fill ->
  fill_keeps (fun o : option (list A) => Forall P (default [] o)) (fill_slice zero fill).
Proof.
  intros Hz Hf old j r Hold. destruct j as [| | | |l|]; try done; [by intros [= <-]; constructor|].
  cbn [fill_slice]. destruct (fill_list zero fill (default [] old) l) as [x|] eqn:E; [|done]. intros [= <-].
  cbn. revert E. generalize (default [] old) Hold. clear Hold. intros o Ho. revert o Ho x.
  induction l as [|j l IH]; intros o Ho x; [by intros [= <-]|]. cbn [fill_list].
  destruct (fill (default zero (head o)) j) as [a|] eqn:Ea; [|done]. cbn [mbind option_bind].
  destruct (fill_list zero fill (tail o) l) as [r|] eqn:Er; [|done]. intros [= <-]. constructor.
  - eapply Hf; [|exact Ea]. destruct Ho; done.
  - eapply IH; [|exact Er]. by destruct Ho.
Qed.

Lemma fill_string_keeps : fill_keeps (fun s => utf8_Valid s = true) fill_string.
Proof. intros a [| |n|x| |] r Ha; try done; [by intros [= <-]|]. apply unquote_Valid. Qed.

Lemma ParseInt_range s z : ParseInt s 64 = Ok z -> - 2 ^ 63 <= z < 2 ^ 63.
Proof.
  unfold ParseInt. change (64 - 1) with 63. intros H. repeat case_match; simplify_eq; lia.
Qed.

Lemma fill_int_keeps : fill_keeps (fun z => - 2 ^ 63 <= z < 2 ^ 63) fill_int.
Proof.
  intros a [| |n|x| |] r Ha; try done; [by intros [= <-]|]. unfold fill_int, res_option.
  destruct (ParseInt n 64) eqn:E; [|done..]. intros [= <-]. by eapply ParseInt_range.
Qed.

Lemma json_Unmarshal_keeps {A} (P : A -> Prop) fill data old r :
  fill_keeps P fill -> P old -> json_Unmarshal fill data old = Ok r -> P r.
Proof.
  intros Hf Ho. unfold json_Unmarshal. destruct (json_parse data ≫= fill old) as [x|] eqn:E; [|done].
  intros [= <-]. destruct (json_parse data) as [j|]; [|done]. by eapply Hf.
Qed.
