(* ===== verification/Sdk.v ===== *)
(** * The code outside the repository

    stellar-rpc builds on the Stellar Go SDK (XDR types, the ledger
    transaction reader, cursors, strkey), on a JSON-RPC library and on SQLite.
    None of it is under src/: it enters the development as the classes of this
    file, which declare what the modelled code calls and define none of it.
    The laws the code relies on are separate classes, used as hypotheses. *)

From S2P Require Import Prelude.

(** XDR types the code treats as opaque. *)
Class SdkTypes := {
  LedgerCloseMeta : Type;
  LedgerTransaction : Type;
  LedgerHeaderHistoryEntry : Type;
  ScVal : Type;
}.

(** The public structs of the SDK whose fields the code reads or builds. *)

(** [protocol.Cursor] and [protocol.CursorRange] *)
Record Cursor := MkCursor { C_Ledger : Z; C_Tx : Z; C_Op : Z; C_Event : Z }.
Record CursorRange := MkCursorRange { CR_Start : Cursor; CR_End : Cursor }.

#[global] Instance Cursor_eq_dec : EqDecision Cursor.
Proof. solve_decision. Defined.

(** [toid.ID] *)
Record TOID := MkTOID { LedgerSequence32 : Z; TransactionOrder : Z; OperationOrder : Z }.

#[global] Instance TOID_eq_dec : EqDecision TOID.
Proof. solve_decision. Defined.

(** [xdr.TransactionEventStage] *)
Inductive TransactionEventStage :=
  | BeforeAllTxs | AfterTx | AfterAllTxs | UnknownStage (n : Z).

#[global] Instance TransactionEventStage_eq_dec : EqDecision TransactionEventStage.
Proof. solve_decision. Defined.

(** [xdr.OperationType]: the three Soroban operations the code names. *)
Inductive OperationType :=
  | InvokeHostFunction | ExtendFootprintTtl | RestoreFootprint | OtherOperation (n : Z).

#[global] Instance OperationType_eq_dec : EqDecision OperationType.
Proof. solve_decision. Defined.

(** [xdr.SorobanTransactionMetaExtV1] *)
Record SorobanFees := MkSorobanFees {
  TotalNonRefundableResourceFeeCharged : Z;
  TotalRefundableResourceFeeCharged : Z;
}.

(** [SorobanMeta] of a V3 or V4 transaction meta. *)
Record SorobanMeta := MkSorobanMeta { SM_ExtV : Z; SM_ExtV1 : option SorobanFees }.

(** The fields of a V1 or V2 [LedgerCloseMeta] the handlers read. *)
Record LedgerCloseMetaArm := MkLedgerCloseMetaArm {
  Arm_LedgerVersion : Z;
  Arm_CloseTime : Z;
  Arm_TotalByteSizeOfLiveSorobanState : Z;
}.

Section EventTypes.
Context {ST : SdkTypes}.

(** [xdr.ContractEvent]; [CE_V0] is [Body.GetV0()]: topics and data. *)
Record ContractEvent := MkContractEvent {
  CE_ContractId : option string;
  CE_Type : Z;
  CE_V0 : option (list ScVal * ScVal);
}.

Record DiagnosticEvent := MkDiagnosticEvent {
  InSuccessfulContractCall : bool;
  DE_Event : ContractEvent;
}.

Record TransactionEvent := MkTransactionEvent {
  TE_Stage : TransactionEventStage;
  TE_Event : ContractEvent;
}.

(** [ingest.TransactionEvents] *)
Record TransactionEvents := MkTransactionEvents {
  OperationEvents : list (list ContractEvent);
  TxEvents : list TransactionEvent;
}.

End EventTypes.

(** The functions and methods of the SDK that the code calls.  Byte slices and
    hashes are strings of bytes. *)
Class Sdk {ST : SdkTypes} := {
  (* xdr.LedgerCloseMeta *)
  LedgerSequence : LedgerCloseMeta -> Z;
  LedgerCloseTime : LedgerCloseMeta -> Z;
  CountTransactions : LedgerCloseMeta -> Z;
  lcm_MarshalBinary : LedgerCloseMeta -> Res string;
  lcm_Unmarshal : string -> Res LedgerCloseMeta;
  lcm_V : LedgerCloseMeta -> Z;
  lcm_V1 : LedgerCloseMeta -> option LedgerCloseMetaArm;
  lcm_V2 : LedgerCloseMeta -> option LedgerCloseMetaArm;
  lcm_LedgerHeaderHistoryEntry : LedgerCloseMeta -> LedgerHeaderHistoryEntry;
  (* xdr.LedgerCloseMetaView: the version tag and the raw header of each arm *)
  view_MustV : string -> Res Z;
  view_MustRawHeader : Z -> string -> Res string;
  header_UnmarshalBinary : string -> Res LedgerHeaderHistoryEntry;
  header_MarshalBinary : LedgerHeaderHistoryEntry -> Res string;
  header_Header_MarshalBase64 : LedgerHeaderHistoryEntry -> Res string;
  header_Hash : LedgerHeaderHistoryEntry -> string;
  header_LedgerSeq : LedgerHeaderHistoryEntry -> Z;
  header_CloseTime : LedgerHeaderHistoryEntry -> Z;
  header_LedgerVersion : LedgerHeaderHistoryEntry -> Z;
  (* ingest.LedgerTransactionReader: the finite sequence of its Read results,
     io.EOF after the last one *)
  NewLedgerTransactionReader : string -> LedgerCloseMeta -> Res (list (Res LedgerTransaction));
  reader_Seek : list (Res LedgerTransaction) -> Z -> Res (list (Res LedgerTransaction));
  (* ingest.LedgerTransaction *)
  tx_Index : LedgerTransaction -> Z;
  tx_Hash : LedgerTransaction -> string;
  tx_IsFeeBump : LedgerTransaction -> bool;
  tx_InnerHash : LedgerTransaction -> string;
  tx_TransactionHash : LedgerTransaction -> string;
  tx_FeeCharged : LedgerTransaction -> Z;
  tx_Operations : LedgerTransaction -> list OperationType;
  tx_MetaV : LedgerTransaction -> Z;
  tx_V3_SorobanMeta : LedgerTransaction -> option SorobanMeta;
  tx_V4_SorobanMeta : LedgerTransaction -> option SorobanMeta;
  tx_Successful : LedgerTransaction -> bool;
  tx_Result_MarshalBinary : LedgerTransaction -> Res string;
  tx_Meta_MarshalBinary : LedgerTransaction -> Res string;
  tx_Envelope_MarshalBinary : LedgerTransaction -> Res string;
  GetTransactionEvents : LedgerTransaction -> Res TransactionEvents;
  GetDiagnosticEvents : LedgerTransaction -> Res (list DiagnosticEvent);
  (* events *)
  DiagnosticEvent_MarshalBinary : DiagnosticEvent -> Res string;
  DiagnosticEvent_UnmarshalBinary : string -> Res DiagnosticEvent;
  ContractEvent_MarshalBinary : ContractEvent -> Res string;
  TransactionEvent_MarshalBinary : TransactionEvent -> Res string;
  ScVal_MarshalBinary : ScVal -> Res string;
  ScVal_MarshalBase64 : ScVal -> Res string;
  (* protocol.Cursor, toid *)
  Cursor_String : Cursor -> string;
  ParseCursor : string -> Res Cursor;
  MaxTopicCount : nat;
  MaxCursor : Cursor;
  TransactionMask : Z;
  OperationMask : Z;
  TOID_Parse : Z -> TOID;
  TOID_String : TOID -> string;
  (* strkey, hashes *)
  strkey_EncodeContract : string -> Res string;
  strkey_DecodeContract : string -> Res string;
  HexString : string -> string;
  (* the Rust XDR-to-JSON converter behind xdr2json.convertAnyBytes *)
  xdr_to_json : string -> string -> string * string;
}.

(** Choices left open by Go and by SQLite: the iteration order of a Go map and
    the order of the rows of a SELECT without ORDER BY. *)
Class Nondet := {
  range_map : forall {K V : Type}, list (K * V) -> list (K * V);
  range_map_perm : forall {K V : Type} (l : list (K * V)), range_map l ≡ₚ l;
  scan_order : forall {A : Type}, list A -> list A;
  scan_order_perm : forall {A : Type} (l : list A), scan_order l ≡ₚ l;
}.

(** Serialization laws: what is stored is what is read back. *)
Class SdkXdrLaws `{Sdk} := {
  lcm_roundtrip : forall l b, lcm_MarshalBinary l = Ok b -> lcm_Unmarshal b = Ok l;
  event_roundtrip : forall e b, DiagnosticEvent_MarshalBinary e = Ok b ->
    DiagnosticEvent_UnmarshalBinary b = Ok e;
}.

(** The order on cursors: ledger, transaction, operation, event. *)
Definition cursor_lt (a b : Cursor) : Prop :=
  C_Ledger a < C_Ledger b \/
  (C_Ledger a = C_Ledger b /\
   (C_Tx a < C_Tx b \/
    (C_Tx a = C_Tx b /\
     (C_Op a < C_Op b \/ (C_Op a = C_Op b /\ C_Event a < C_Event b))))).

#[global] Instance cursor_lt_dec a b : Decision (cursor_lt a b).
Proof. unfold cursor_lt. apply _. Defined.

(** The cursors whose components fit the bit fields of a TOID. *)
Definition cursor_ok `{Sdk} (c : Cursor) : Prop :=
  0 <= C_Ledger c < 2 ^ 31 /\ 0 <= C_Tx c <= TransactionMask /\
  0 <= C_Op c <= OperationMask /\ is_u32 (C_Event c).

(** [Cursor.String] renders the cursors in an order-preserving way and
    [ParseCursor] reads them back. *)
Class SdkCursorLaws `{Sdk} := {
  masks_nonneg : 0 <= TransactionMask /\ 0 <= OperationMask;
  cursor_string_lt : forall a b, cursor_ok a -> cursor_ok b ->
    (String.le (Cursor_String a) (Cursor_String b) <-> ~ cursor_lt b a);
  parse_cursor_string : forall a, cursor_ok a -> ParseCursor (Cursor_String a) = Ok a;
}.

(** The reader yields the transactions of the ledger in application order,
    1-indexed, and [Seek] moves it to a position. *)
Class SdkReaderLaws `{Sdk} := {
  reader_count : forall p l rd, NewLedgerTransactionReader p l = Ok rd ->
    CountTransactions l = zlen rd;
  reader_index : forall p l rd i tx, NewLedgerTransactionReader p l = Ok rd ->
    rd !! i = Some (Ok tx) -> tx_Index tx = Z.of_nat i + 1;
  seek_in_range : forall rd i, 0 <= i < zlen rd -> reader_Seek rd i = Ok (drop (Z.to_nat i) rd);
}.
