(* ===== verification/SdkExample.v ===== *)
(** * A small SDK

    A concrete instance of the classes of Sdk.v, on which the theorems that
    assume them are applied: ledgers are their sequence numbers, every ledger
    above 2 holds two transactions (the first a fee bump), and cursors are
    rendered as fixed-width binary strings. *)

From S2P Require Import Prelude Sdk.

(** ** Fixed-width binary strings *)

Definition zero_char : Ascii.ascii := Ascii.ascii_of_nat 48.
Definition one_char : Ascii.ascii := Ascii.ascii_of_nat 49.

Fixpoint bits (n : nat) (z : Z) : string :=
  match n with
  | O => ""
  | S n => if decide (2 ^ Z.of_nat n <= z) then String one_char (bits n (z - 2 ^ Z.of_nat n))
           else String zero_char (bits n z)
  end.

Fixpoint unbits (s : string) : option Z :=
  match s with
  | EmptyString => Some 0
  | String c s =>
      z ← unbits s;
      if decide (c = one_char) then Some (2 ^ Z.of_nat (String.length s) + z)
      else if decide (c = zero_char) then Some z else None
  end.

Lemma bits_length n z : String.length (bits n z) = n.
Proof. revert z; induction n; intros z; [done|]. simpl. case_decide; simpl; by rewrite IHn. Qed.

Lemma unbits_bits n z : 0 <= z < 2 ^ Z.of_nat n -> unbits (bits n z) = Some z.
Proof.
  revert z; induction n as [|n IH]; intros z Hz; simpl.
  - simpl in Hz. f_equal. lia.
  - rewrite Nat2Z.inj_succ, Z.pow_succ_r in Hz by lia. case_decide; simpl.
    + rewrite IH by lia. simpl. rewrite bits_length. f_equal. lia.
    + rewrite IH by lia. done.
Qed.

Lemma bits_compare n a b :
  0 <= a < 2 ^ Z.of_nat n -> 0 <= b < 2 ^ Z.of_nat n ->
  String.compare (bits n a) (bits n b) = (a ?= b).
Proof.
  revert a b; induction n as [|n IH]; intros a b Ha Hb; simpl.
  - simpl in *. symmetry. apply Z.compare_eq_iff. lia.
  - rewrite Nat2Z.inj_succ, Z.pow_succ_r in Ha, Hb by lia.
    do 2 case_decide; simpl.
    + rewrite IH by lia. destruct (Z.compare_spec a b); [apply Z.compare_eq_iff|apply Z.compare_lt_iff|
        apply Z.compare_gt_iff]; lia.
    + symmetry. apply Z.compare_gt_iff. lia.
    + symmetry. apply Z.compare_lt_iff. lia.
    + apply IH; lia.
Qed.

Lemma bits_le n a b :
  0 <= a < 2 ^ Z.of_nat n -> 0 <= b < 2 ^ Z.of_nat n ->
  (String.le (bits n a) (bits n b) <-> a <= b).
Proof.
  intros Ha Hb. unfold String.le, String.leb. rewrite bits_compare by done.
  destruct (Z.compare_spec a b); split; intros; try done; lia.
Qed.

#[global] Arguments bits : simpl never.

(** ** Cursors *)

Definition ex_cursor_value (c : Cursor) : Z :=
  ((C_Ledger c * 2 ^ 20 + C_Tx c) * 2 ^ 12 + C_Op c) * 2 ^ 32 + C_Event c.

Definition ex_cursor_of (z : Z) : Cursor :=
  MkCursor (z / 2 ^ 64) (z / 2 ^ 44 mod 2 ^ 20) (z / 2 ^ 32 mod 2 ^ 12) (z mod 2 ^ 32).

Definition ex_cursor_string (c : Cursor) : string := bits 95 (ex_cursor_value c).

Definition ex_parse_cursor (s : string) : Res Cursor :=
  match unbits s with
  | Some z => if decide (String.length s = 95%nat) then Ok (ex_cursor_of z) else Err (EExt "invalid cursor")
  | None => Err (EExt "invalid cursor")
  end.

(** ** Ledgers and transactions *)

#[global] Instance ex_types : SdkTypes := {|
  LedgerCloseMeta := Z;
  LedgerTransaction := Z * Z;
  LedgerHeaderHistoryEntry := Z;
  ScVal := string;
|}.

#[global] Instance ContractEvent_eq_dec : EqDecision (@ContractEvent ex_types).
Proof. intros x y. unfold Decision. decide equality; apply (_ : EqDecision _). Defined.

#[global] Instance DiagnosticEvent_eq_dec : EqDecision (@DiagnosticEvent ex_types).
Proof. intros x y. unfold Decision. decide equality; apply (_ : EqDecision _). Defined.

Definition ex_event (data : string) : ContractEvent :=
  MkContractEvent (Some "C") 1 (Some (["transfer"], data)).

(** The data of the events that have a serialization. *)
Definition ex_datas : list string := ["fee"; "refund"; "op1"; "op2"; "op3"].

Definition ex_event_marshal (e : DiagnosticEvent) : Res string :=
  match CE_V0 (DE_Event e) with
  | Some (_, data) =>
      if decide (e = MkDiagnosticEvent true (ex_event data)) then Ok data
      else Err (EExt "unsupported event")
  | None => Err (EExt "unsupported event")
  end.

Definition ex_event_unmarshal (b : string) : Res DiagnosticEvent :=
  Ok (MkDiagnosticEvent true (ex_event b)).

Definition ex_lcm_marshal (l : Z) : Res string :=
  if decide (0 <= l < 2 ^ 32) then Ok (bits 32 l) else Err (EExt "bad ledger").

Definition ex_lcm_unmarshal (b : string) : Res Z :=
  match unbits b with Some l => Ok l | None => Err (EExt "bad xdr") end.

Definition ex_txs (l : Z) : list (Z * Z) := if decide (2 < l) then [(l, 1); (l, 2)] else [].

Definition ex_tx_events (tx : Z * Z) : TransactionEvents :=
  if decide (snd tx = 1) then
    MkTransactionEvents [[ex_event "op1"; ex_event "op2"]; [ex_event "op3"]]
      [MkTransactionEvent BeforeAllTxs (ex_event "fee"); MkTransactionEvent AfterTx (ex_event "refund")]
  else MkTransactionEvents [[ex_event "op1"]] [MkTransactionEvent BeforeAllTxs (ex_event "fee")].

Definition ex_tx_hash (tx : Z * Z) : string := "outer_transaction_hash_of_32_" +:+ pretty (fst tx) +:+ "." +:+ pretty (snd tx).

#[global] Instance ex_sdk : Sdk := {|
  LedgerSequence := fun l => l;
  LedgerCloseTime := fun l => 5 * l;
  CountTransactions := fun l => zlen (ex_txs l);
  lcm_MarshalBinary := ex_lcm_marshal;
  lcm_Unmarshal := ex_lcm_unmarshal;
  lcm_V := fun _ => 1;
  lcm_V1 := fun l => Some (MkLedgerCloseMetaArm 23 (5 * l) 1000);
  lcm_V2 := fun _ => None;
  lcm_LedgerHeaderHistoryEntry := fun l => l;
  view_MustV := fun _ => Ok 1;
  view_MustRawHeader := fun _ b => Ok b;
  header_UnmarshalBinary := ex_lcm_unmarshal;
  header_MarshalBinary := ex_lcm_marshal;
  header_Header_MarshalBase64 := ex_lcm_marshal;
  header_Hash := fun h => "hash" +:+ pretty h;
  header_LedgerSeq := fun h => h;
  header_CloseTime := fun h => 5 * h;
  header_LedgerVersion := fun _ => 23;
  NewLedgerTransactionReader := fun _ l => Ok (Ok <$> ex_txs l);
  reader_Seek := fun rd i => Ok (drop (Z.to_nat i) rd);
  tx_Index := snd;
  tx_Hash := ex_tx_hash;
  tx_IsFeeBump := fun tx => bool_decide (snd tx = 1);
  tx_InnerHash := fun tx => "inner_transaction_hash_of_32_" +:+ pretty (fst tx) +:+ "." +:+ pretty (snd tx);
  tx_TransactionHash := ex_tx_hash;
  tx_FeeCharged := fun tx => 100 * snd tx;
  tx_Operations := fun tx => if decide (snd tx = 1) then [InvokeHostFunction] else [OtherOperation 1];
  tx_MetaV := fun _ => 4;
  tx_V3_SorobanMeta := fun _ => None;
  tx_V4_SorobanMeta := fun tx => if decide (snd tx = 1) then Some (MkSorobanMeta 1 (Some (MkSorobanFees 30 20))) else None;
  tx_Successful := fun _ => true;
  tx_Result_MarshalBinary := fun tx => Ok ("result" +:+ ex_tx_hash tx);
  tx_Meta_MarshalBinary := fun tx => Ok ("meta" +:+ ex_tx_hash tx);
  tx_Envelope_MarshalBinary := fun tx => Ok ("envelope" +:+ ex_tx_hash tx);
  GetTransactionEvents := fun tx => Ok (ex_tx_events tx);
  GetDiagnosticEvents := fun _ => Ok [];
  DiagnosticEvent_MarshalBinary := ex_event_marshal;
  DiagnosticEvent_UnmarshalBinary := ex_event_unmarshal;
  ContractEvent_MarshalBinary := fun e => Ok (match CE_V0 e with Some (_, d) => d | None => "" end);
  TransactionEvent_MarshalBinary := fun e => Ok (match CE_V0 (TE_Event e) with Some (_, d) => d | None => "" end);
  ScVal_MarshalBinary := fun v => Ok v;
  ScVal_MarshalBase64 := fun v => Ok v;
  Cursor_String := ex_cursor_string;
  ParseCursor := ex_parse_cursor;
  MaxTopicCount := 4%nat;
  MaxCursor := MkCursor (2 ^ 31 - 1) (2 ^ 20 - 1) (2 ^ 12 - 1) (2 ^ 32 - 1);
  TransactionMask := 2 ^ 20 - 1;
  OperationMask := 2 ^ 12 - 1;
  TOID_Parse := fun z => MkTOID (z / 2 ^ 32) (z / 2 ^ 12 mod 2 ^ 20) (z mod 2 ^ 12);
  TOID_String := fun t => pretty (LedgerSequence32 t * 2 ^ 32 + TransactionOrder t * 2 ^ 12 + OperationOrder t);
  strkey_EncodeContract := fun c => Ok ("C" +:+ c);
  strkey_DecodeContract := fun s => match s with
    | String c r => if decide (c = Ascii.ascii_of_nat 67) then Ok r else Err (EExt "bad strkey")
    | EmptyString => Err (EExt "bad strkey")
    end;
  HexString := fun s => s;
  xdr_to_json := fun _ s => (s, "");
|}.

#[global] Instance ex_nondet : Nondet.
Proof.
  refine {| range_map := fun K V l => l; scan_order := fun A l => l |}; intros; reflexivity.
Defined.

#[global] Instance ex_xdr_laws : SdkXdrLaws.
Proof.
  split.
  - intros l b. simpl. unfold ex_lcm_marshal, ex_lcm_unmarshal. case_decide; [|done].
    intros E. assert (b = bits 32 l) as -> by congruence. by rewrite unbits_bits.
  - intros e b. simpl. unfold ex_event_marshal, ex_event_unmarshal.
    destruct (CE_V0 (DE_Event e)) as [[ts d]|]; [|done]. case_decide as E; [|done].
    intros [= <-]. by rewrite <- E.
Qed.

Lemma ex_cursor_value_range (c : Cursor) : cursor_ok c -> 0 <= ex_cursor_value c < 2 ^ Z.of_nat 95.
Proof. unfold cursor_ok, ex_cursor_value, is_u32. simpl. lia. Qed.

#[global] Instance ex_cursor_laws : SdkCursorLaws.
Proof.
  split.
  - simpl. lia.
  - intros a b Ha Hb. simpl. unfold ex_cursor_string.
    rewrite bits_le by (apply ex_cursor_value_range; done).
    unfold cursor_ok, is_u32, cursor_lt, ex_cursor_value in *. simpl in *. lia.
  - intros a Ha. simpl. unfold ex_parse_cursor, ex_cursor_string.
    rewrite unbits_bits by (apply ex_cursor_value_range; done).
    rewrite decide_True by apply bits_length. f_equal.
    unfold cursor_ok, is_u32 in Ha. simpl in Ha.
    destruct a as [l t o e]. unfold ex_cursor_of, ex_cursor_value. simpl in *.
    f_equal; Z.to_euclidean_division_equations; lia.
Qed.

#[global] Instance ex_reader_laws : SdkReaderLaws.
Proof.
  split.
  - intros p l rd. simpl. intros [= <-]. unfold zlen. by rewrite length_fmap.
  - intros p l rd i tx. simpl. intros [= <-]. unfold ex_txs. case_decide; [|done].
    destruct i as [|[|i]]; simpl; [intros [= <-]..|done]; done.
  - done.
Qed.

Lemma ex_unmarshal n : 0 <= n < 2 ^ 32 -> lcm_Unmarshal (bits 32 n) = Ok n.
Proof. intros Hn. simpl. unfold ex_lcm_unmarshal. by rewrite unbits_bits. Qed.
