(* ===== verification/LedgerBucketWindow.v ===== *)
(** * The ledger bucket window (internal/ledgerbucketwindow)

    A circular buffer of per-ledger buckets.  The first section follows
    ledgerbucketwindow.go; [view] is the abstraction function to the queue of
    ledgers, oldest first, and the theorems refine every operation to the
    bounded queue [queue_append] on it. *)

From S2P Require Import Prelude.

Record LedgerBucket (T : Type) := MkLedgerBucket {
  LedgerSeq : Z;
  LedgerCloseTimestamp : Z;
  BucketContent : T;
}.
Arguments MkLedgerBucket {T}.
Arguments LedgerSeq {T}.
Arguments LedgerCloseTimestamp {T}.
Arguments BucketContent {T}.

(** [bcap] is [cap(buckets)]: the buffer is only ever appended to below its
    capacity, so Go never reallocates it. *)
Record LedgerBucketWindow (T : Type) := MkLedgerBucketWindow {
  buckets : list (LedgerBucket T);
  bcap : Z;
  start : Z;
}.
Arguments MkLedgerBucketWindow {T}.
Arguments buckets {T}.
Arguments bcap {T}.
Arguments start {T}.

Record LedgerInfo := MkLedgerInfo { Sequence : Z; CloseTime : Z }.
Record LedgerRange := MkLedgerRange { FirstLedger : LedgerInfo; LastLedger : LedgerInfo }.

(** [protocol.LedgerSeqRange] *)
Record LedgerSeqRangeP := MkLedgerSeqRangeP { FirstLedgerP : Z; LastLedgerP : Z }.

#[global] Instance LedgerInfo_eq_dec : EqDecision LedgerInfo.
Proof. solve_decision. Defined.
#[global] Instance LedgerRange_eq_dec : EqDecision LedgerRange.
Proof. solve_decision. Defined.

Definition ToLedgerSeqRange (lr : LedgerRange) : LedgerSeqRangeP :=
  {| FirstLedgerP := Sequence (FirstLedger lr);
     LastLedgerP := Sequence (LastLedger lr) |}.

(** The zero values of the structs. *)
Definition zeroLedgerInfo : LedgerInfo := {| Sequence := 0; CloseTime := 0 |}.
Definition zeroLedgerRange : LedgerRange :=
  {| FirstLedger := zeroLedgerInfo; LastLedger := zeroLedgerInfo |}.

Section Window.
Context {T : Type}.
Implicit Types (w : LedgerBucketWindow T) (b : LedgerBucket T).

Definition NewLedgerBucketWindow (retentionWindow : Z) : LedgerBucketWindow T :=
  {| buckets := []; bcap := retentionWindow; start := 0 |}.

Definition Len w : Z := u32 (zlen (buckets w)).

(** [w.buckets[i] = b]: an index out of range panics. *)
Definition set_bucket w (i : Z) b : Res (LedgerBucketWindow T) :=
  _ ← index (buckets w) i;
  Ok {| buckets := <[Z.to_nat i := b]> (buckets w); bcap := bcap w; start := start w |}.

Definition Append (bucket : LedgerBucket T) : M (LedgerBucketWindow T) (option (LedgerBucket T)) :=
  w ← get;
  let length := Len w in
  (if decide (length > 0) then
     head ← of_res (index (buckets w) (start w));
     let expectedLedgerSequence := u32 (LedgerSeq head + length) in
     if decide (expectedLedgerSequence ≠ LedgerSeq bucket) then
       fail (EMsg ("error appending ledgers: ledgers not contiguous: expected ledger sequence "
                   +:+ pretty expectedLedgerSequence +:+ " but received "
                   +:+ pretty (LedgerSeq bucket)))
     else mret tt
   else mret tt) ;;
  if decide (length < u32 (bcap w)) then
    put {| buckets := buckets w ++ [bucket]; bcap := bcap w; start := start w |} ;;
    mret None
  else
    saved ← of_res (index (buckets w) (start w));
    w' ← of_res (set_bucket w (start w) bucket);
    put {| buckets := buckets w'; bcap := bcap w'; start := u32 (start w + 1) mod length |} ;;
    mret (Some saved).

Definition Get w (i : Z) : Res (LedgerBucket T) :=
  let length := Len w in
  if decide (i >= length) then
    Panic ("index out of range [" +:+ pretty i +:+ "] with length " +:+ pretty length)
  else
    index (buckets w) (u32 (start w + i) mod length).

Definition GetLedgerRange w : Res LedgerRange :=
  let length := Len w in
  if decide (length = 0) then Ok zeroLedgerRange
  else
    firstBucket ← Get w 0;
    lastBucket ← Get w (length - 1);
    Ok {| FirstLedger := {| Sequence := LedgerSeq firstBucket;
                            CloseTime := LedgerCloseTimestamp firstBucket |};
          LastLedger := {| Sequence := LedgerSeq lastBucket;
                           CloseTime := LedgerCloseTimestamp lastBucket |} |}.

Definition Reset w : LedgerBucketWindow T :=
  {| buckets := take 0 (buckets w); bcap := bcap w; start := 0 |}.

(** ** Abstraction *)

(** The ledgers of the window, oldest first. *)
Definition view w : list (LedgerBucket T) :=
  drop (Z.to_nat (start w)) (buckets w) ++ take (Z.to_nat (start w)) (buckets w).

(** Consecutive sequence numbers, as the code computes them (modulo 2^32). *)
Definition contiguous (q : list (LedgerBucket T)) : Prop :=
  forall h i b, q !! 0%nat = Some h -> q !! i = Some b ->
    LedgerSeq b = u32 (LedgerSeq h + Z.of_nat i).

Definition window_inv w : Prop :=
  0 < bcap w <= 2 ^ 31 /\ zlen (buckets w) <= bcap w /\
  0 <= start w /\
  (buckets w = [] -> start w = 0) /\ (buckets w ≠ [] -> start w < zlen (buckets w)) /\
  (zlen (buckets w) < bcap w -> start w = 0) /\
  Forall (fun b => is_u32 (LedgerSeq b)) (buckets w) /\
  contiguous (view w).

(** The specification: a queue of at most [cap] consecutive ledgers. *)
Definition queue_accepts (q : list (LedgerBucket T)) b : Prop :=
  match q with
  | [] => True
  | h :: _ => LedgerSeq b = u32 (LedgerSeq h + zlen q)
  end.

Definition queue_append (cap : Z) (q : list (LedgerBucket T)) b :
    option (LedgerBucket T) * list (LedgerBucket T) :=
  if decide (zlen q < cap) then (None, q ++ [b])
  else (head q, tail q ++ [b]).

End Window.

Section WindowLemmas.
Context {T : Type}.
Implicit Types (w : LedgerBucketWindow T) (b : LedgerBucket T) (q : list (LedgerBucket T)).

Lemma length_view w : length (view w) = length (buckets w).
Proof. unfold view. rewrite length_app, length_drop, length_take. lia. Qed.

Lemma zlen_view w : zlen (view w) = zlen (buckets w).
Proof. unfold zlen. by rewrite length_view. Qed.

Lemma view_start0 w : start w = 0 -> view w = buckets w.
Proof. unfold view. intros ->. rewrite drop_0, take_0. apply app_nil_r. Qed.

Lemma zlen_range w : window_inv w -> 0 <= zlen (buckets w) < 2 ^ 32.
Proof. intros (?&?&_). pose proof (zlen_nonneg (buckets w)). lia. Qed.

Lemma Len_inv w : window_inv w -> Len w = zlen (buckets w).
Proof. intros H. apply u32_small. by apply zlen_range. Qed.

Lemma zlen_zero {A} (l : list A) : zlen l = 0 <-> l = [].
Proof. unfold zlen. destruct l; simpl; split; try done; lia. Qed.

(** The element at logical position [i] sits at physical index
    [(start + i) mod len]. *)
Lemma lookup_view w (i : nat) :
  0 <= start w < zlen (buckets w) -> Z.of_nat i < zlen (buckets w) ->
  view w !! i = buckets w !! Z.to_nat ((start w + Z.of_nat i) mod zlen (buckets w)).
Proof.
  unfold view, zlen. intros [? ?] ?.
  destruct (decide (start w + Z.of_nat i < Z.of_nat (length (buckets w)))).
  - rewrite Z.mod_small by lia.
    rewrite lookup_app_l by (rewrite length_drop; lia).
    rewrite lookup_drop. f_equal. lia.
  - rewrite lookup_app_r by (rewrite length_drop; lia).
    rewrite length_drop.
    replace ((start w + Z.of_nat i) mod Z.of_nat (length (buckets w)))
      with (start w + Z.of_nat i - Z.of_nat (length (buckets w))).
    + rewrite lookup_take_lt by lia. f_equal. lia.
    + rewrite <- (Z_mod_plus_full _ (-1)), Z.mod_small; lia.
Qed.

Lemma view_head w : window_inv w -> view w !! 0%nat = buckets w !! Z.to_nat (start w).
Proof.
  intros Hw. destruct (decide (buckets w = [])) as [E|E].
  - unfold view. by rewrite E, drop_nil, take_nil.
  - destruct Hw as (?&?&?&?&Hs&?). specialize (Hs E).
    rewrite lookup_view by (unfold zlen in *; lia).
    rewrite Z.add_0_r, Z.mod_small by lia. done.
Qed.

Lemma contiguous_snoc q b :
  contiguous q -> queue_accepts q b -> is_u32 (LedgerSeq b) -> contiguous (q ++ [b]).
Proof.
  intros Hc Ha Hb h i x Hh Hx. destruct q as [|h' q].
  - destruct i as [|[]]; simplify_eq/=. by rewrite Z.add_0_r, u32_small.
  - simpl in Hh. simplify_eq/=.
    change (h :: q ++ [b]) with ((h :: q) ++ [b]) in Hx.
    apply lookup_app_Some in Hx as [Hx|[? Hx]]; [by eapply Hc|].
    apply list_lookup_singleton_Some in Hx as [? <-].
    rewrite Ha. f_equal. unfold zlen. f_equal. f_equal. lia.
Qed.

Lemma contiguous_tail q : contiguous q -> contiguous (tail q).
Proof.
  intros Hc h i x Hh Hx. destruct q as [|h' q]; [done|]. simpl in *.
  rewrite (Hc h' 1%nat h) by done.
  rewrite (Hc h' (S i) x) by done.
  unfold u32. rewrite Zplus_mod_idemp_l. f_equal. lia.
Qed.

Lemma Forall_view P w : Forall P (buckets w) -> Forall P (view w).
Proof. intros H. apply Forall_app; split; [by apply Forall_drop|by apply Forall_take]. Qed.

(** Overwriting the oldest slot and advancing [start] rotates the view. *)
Lemma view_overwrite w b :
  0 <= start w < zlen (buckets w) ->
  view {| buckets := <[Z.to_nat (start w) := b]> (buckets w); bcap := bcap w;
          start := u32 (start w + 1) mod zlen (buckets w) |}
  = tail (view w) ++ [b] \/ 2 ^ 32 <= zlen (buckets w).
Proof.
  intros [H0 H1]. destruct (decide (2 ^ 32 <= zlen (buckets w))); [by right|left].
  rewrite u32_small by (unfold_ints; lia).
  unfold view, zlen in *; simpl.
  set (k := Z.to_nat (start w)). set (l := buckets w) in *.
  assert (k < length l)%nat as Hk by lia.
  destruct (lookup_lt_is_Some_2 l k Hk) as [x Hx].
  assert (l = take k l ++ x :: drop (S k) l) as Hl by (symmetry; by apply take_drop_middle).
  rewrite (drop_S l x k) by done. simpl.
  rewrite insert_take_drop by done.
  destruct (decide (S k = length l)) as [E|E].
  - replace ((start w + 1) mod Z.of_nat (length l)) with 0.
    + simpl. rewrite app_nil_r, E, drop_all. done.
    + replace (start w + 1) with (Z.of_nat (length l)) by lia. by rewrite Z_mod_same_full.
  - rewrite Z.mod_small by lia.
    replace (Z.to_nat (start w + 1)) with (S k) by lia.
    rewrite drop_app_ge by (rewrite length_take; lia).
    rewrite length_take, Nat.min_l by lia.
    replace (S k - k)%nat with 1%nat by lia. simpl.
    rewrite take_app_ge by (rewrite length_take; lia).
    rewrite length_take, Nat.min_l by lia.
    replace (S k - k)%nat with 1%nat by lia. simpl. rewrite drop_0.
    by rewrite app_assoc.
Qed.

Lemma Len_nonempty w : window_inv w -> (Len w > 0 <-> buckets w ≠ []).
Proof.
  intros Hw. rewrite Len_inv by done.
  pose proof (zlen_nonneg (buckets w)). rewrite <- zlen_zero. lia.
Qed.

Lemma oldest_bucket w :
  window_inv w -> buckets w ≠ [] ->
  exists h, index (buckets w) (start w) = Ok h /\ head (view w) = Some h.
Proof.
  intros Hw Hne. pose proof (view_head w Hw) as Hv.
  destruct Hw as (?&?&?&?&Hs&_). specialize (Hs Hne).
  destruct (index_in_range (buckets w) (start w)) as (h&Hi&Hl); [lia|].
  exists h. split; [done|]. by rewrite head_lookup, Hv.
Qed.

Lemma queue_accepts_head q h b :
  head q = Some h -> queue_accepts q b <-> LedgerSeq b = u32 (LedgerSeq h + zlen q).
Proof. destruct q; simpl; naive_solver. Qed.

#[local] Instance queue_accepts_dec q b : Decision (queue_accepts q b).
Proof. destruct q; simpl; apply _. Defined.

(** The contiguity test that [Append] starts with. *)
Lemma Append_rejects w b :
  window_inv w -> ~ queue_accepts (view w) b -> exists e, Append b w = (Err e, w).
Proof.
  intros Hw Hn.
  assert (buckets w ≠ []) as Hne.
  { intros E. apply Hn. unfold view. by rewrite E, drop_nil, take_nil. }
  destruct (oldest_bucket w Hw Hne) as (h&Hi&Hh).
  rewrite (queue_accepts_head _ h), zlen_view in Hn by done.
  eexists. unfold Append. unfold_m.
  rewrite decide_True by (by apply Len_nonempty).
  rewrite Hi, Len_inv by done. rewrite decide_True by congruence. done.
Qed.

Lemma Append_below w b :
  window_inv w -> queue_accepts (view w) b -> zlen (buckets w) < bcap w ->
  Append b w = (Ok None, {| buckets := buckets w ++ [b]; bcap := bcap w; start := start w |}).
Proof.
  intros Hw Ha Hlt. pose proof (Len_inv w Hw) as HL.
  assert (u32 (bcap w) = bcap w) as Hc by (apply u32_small; destruct Hw; unfold_ints; lia).
  unfold Append. unfold_m. rewrite HL, Hc.
  destruct (decide (buckets w = [])) as [E|Hne].
  - rewrite decide_False by (rewrite E; by rewrite zlen_nil).
    by rewrite decide_True by done.
  - destruct (oldest_bucket w Hw Hne) as (h&Hi&Hh).
    rewrite (queue_accepts_head _ h), zlen_view in Ha by done.
    rewrite decide_True by (rewrite <- HL; by apply Len_nonempty).
    rewrite Hi. rewrite decide_False by (intros HH; by apply HH).
    by rewrite decide_True by done.
Qed.

Lemma Append_full w b :
  window_inv w -> queue_accepts (view w) b -> zlen (buckets w) = bcap w ->
  Append b w = (Ok (head (view w)),
    {| buckets := <[Z.to_nat (start w) := b]> (buckets w); bcap := bcap w;
       start := u32 (start w + 1) mod zlen (buckets w) |}).
Proof.
  intros Hw Ha Heq. pose proof (Len_inv w Hw) as HL.
  assert (u32 (bcap w) = bcap w) as Hc by (apply u32_small; destruct Hw; unfold_ints; lia).
  assert (buckets w ≠ []) as Hne.
  { intros E. destruct Hw as [? _]. rewrite E, zlen_nil in Heq. lia. }
  destruct (oldest_bucket w Hw Hne) as (h&Hi&Hh).
  rewrite (queue_accepts_head _ h), zlen_view in Ha by done.
  unfold Append. unfold_m. rewrite HL, Hc.
  rewrite decide_True by (rewrite <- HL; by apply Len_nonempty).
  rewrite Hi. rewrite decide_False by (intros HH; by apply HH).
  rewrite decide_False by lia.
  unfold set_bucket. rewrite Hi. simpl. by rewrite Hh.
Qed.

Lemma window_inv_below w b :
  window_inv w -> queue_accepts (view w) b -> is_u32 (LedgerSeq b) ->
  zlen (buckets w) < bcap w ->
  window_inv {| buckets := buckets w ++ [b]; bcap := bcap w; start := start w |}.
Proof.
  intros Hw Ha Hb Hlt.
  pose proof Hw as (?&?&?&?&?&Hs&HF&Hc). pose proof (zlen_nonneg (buckets w)).
  rewrite view_start0 in Ha, Hc by auto.
  repeat split; simpl; autorewrite with go; try (rewrite Hs by done); try lia.
  - apply Forall_app_2; [done|by apply Forall_singleton].
  - rewrite view_start0 by (simpl; auto). by apply contiguous_snoc.
Qed.

Lemma window_inv_full w b :
  window_inv w -> queue_accepts (view w) b -> is_u32 (LedgerSeq b) ->
  zlen (buckets w) = bcap w ->
  let w' := {| buckets := <[Z.to_nat (start w) := b]> (buckets w); bcap := bcap w;
               start := u32 (start w + 1) mod zlen (buckets w) |} in
  window_inv w' /\ view w' = tail (view w) ++ [b].
Proof.
  intros Hw Ha Hb Heq w'.
  assert (buckets w ≠ []) as Hne.
  { intros E. destruct Hw as [? _]. rewrite E, zlen_nil in Heq. lia. }
  pose proof Hw as (?&?&?&?&Hst&Hs&HF&Hc). specialize (Hst Hne).
  assert (view w' = tail (view w) ++ [b]) as Hv.
  { destruct (view_overwrite w b) as [|]; [lia|done|lia]. }
  assert (zlen (buckets w') = zlen (buckets w)) as Hzl.
  { unfold zlen, w'. simpl. by rewrite length_insert. }
  pose proof (Z.mod_pos_bound (u32 (start w + 1)) (zlen (buckets w))).
  split; [|done]. split; [done|]. rewrite Hzl. subst w'.
  repeat split; simpl in *; try lia.
  - intros E. exfalso. apply Hne, length_zero_iff_nil.
    by rewrite <- (length_insert (buckets w) (Z.to_nat (start w)) b), E.
  - by apply Forall_insert.
  - rewrite Hv. destruct (view w) as [|h q] eqn:Ev.
    { exfalso. apply Hne, length_zero_iff_nil. rewrite <- length_view. by rewrite Ev. }
    apply contiguous_snoc; [by apply contiguous_tail| |done].
    destruct q as [|h2 q]; [done|]. simpl.
    rewrite (Hc h 1%nat h2) by done. simpl in Ha. rewrite Ha.
    autorewrite with go. unfold u32. rewrite Zplus_mod_idemp_l. f_equal. lia.
Qed.

Lemma Append_accepts w b :
  window_inv w -> is_u32 (LedgerSeq b) -> queue_accepts (view w) b ->
  exists w', Append b w = (Ok (fst (queue_append (bcap w) (view w) b)), w') /\
    view w' = snd (queue_append (bcap w) (view w) b) /\
    window_inv w' /\ bcap w' = bcap w.
Proof.
  intros Hw Hb Ha.
  unfold queue_append. rewrite zlen_view. case_decide as Hlt.
  - eexists. rewrite Append_below by done. split_and!; [done| |by apply window_inv_below|done].
    destruct Hw as (?&?&?&?&?&Hs&_). by rewrite !view_start0 by (simpl; auto).
  - assert (zlen (buckets w) = bcap w) as Heq by (destruct Hw as (?&?&_); lia).
    eexists. rewrite Append_full by done.
    destruct (window_inv_full w b) as [Hinv Hv]; [done..|].
    split_and!; [done|exact Hv|exact Hinv|done].
Qed.

Lemma Get_view w (i : Z) :
  window_inv w -> 0 <= i < zlen (buckets w) ->
  exists b, Get w i = Ok b /\ view w !! Z.to_nat i = Some b.
Proof.
  intros Hw Hi. pose proof (zlen_range w Hw).
  assert (buckets w ≠ []) as Hne by (rewrite <- zlen_zero; lia).
  pose proof (Len_inv w Hw) as HL.
  destruct Hw as (?&?&?&?&Hst&_). specialize (Hst Hne).
  unfold Get. rewrite HL, decide_False by lia.
  rewrite u32_small by (unfold_ints; lia).
  destruct (index_in_range (buckets w) ((start w + i) mod zlen (buckets w))) as (b&Hb&Hl).
  { apply Z.mod_pos_bound. lia. }
  exists b. split; [done|].
  rewrite lookup_view by lia. by rewrite Z2Nat.id by lia.
Qed.

Lemma Get_out_of_range w i :
  window_inv w -> zlen (buckets w) <= i -> exists m, Get w i = Panic m.
Proof.
  intros Hw Hi. unfold Get. rewrite Len_inv, decide_True by (done || lia). eauto.
Qed.

Lemma New_inv n : 0 < n <= 2 ^ 31 -> window_inv (T:=T) (NewLedgerBucketWindow n).
Proof.
  intros Hn. unfold window_inv. split_and!; simpl; try done; llia.
Qed.

Lemma Reset_inv w : window_inv w -> window_inv (Reset w) /\ view (Reset w) = [].
Proof.
  intros (Hc&_). unfold Reset. rewrite take_0. split; [|done]. unfold window_inv.
  split_and!; simpl; try done; llia.
Qed.

End WindowLemmas.

#[export] Hint Resolve New_inv zlen_range Len_inv : go.

(** ** Properties *)

Section WindowTheorems.
Context {T : Type}.
Implicit Types (w : LedgerBucketWindow T) (b : LedgerBucket T).

(** C1: [Append] refines the bounded queue of consecutive ledgers: on the next
    ledger it never fails, returns the evicted oldest bucket exactly when the
    window is full, leaves the window at the queue's result and keeps the
    invariant; on any other ledger it returns an error and changes nothing. *)
Theorem Append_refines w b :
  window_inv w -> is_u32 (LedgerSeq b) ->
  (queue_accepts (view w) b ->
     exists w', Append b w = (Ok (fst (queue_append (bcap w) (view w) b)), w') /\
       view w' = snd (queue_append (bcap w) (view w) b) /\
       window_inv w' /\ bcap w' = bcap w) /\
  (~ queue_accepts (view w) b -> exists e, Append b w = (Err e, w)).
Proof.
  intros Hw Hb. split; [by apply Append_accepts|by apply Append_rejects].
Qed.

(** reading the window reads the queue: [Get i] is the [i]-th oldest ledger
    and panics out of range, and [GetLedgerRange] is the pair of the oldest and
    newest ledgers, zero on an empty window. *)
Theorem Get_GetLedgerRange_view w :
  window_inv w ->
  (forall i, 0 <= i -> (exists b, Get w i = Ok b /\ view w !! Z.to_nat i = Some b) \/
     (exists m, Get w i = Panic m) /\ view w !! Z.to_nat i = None) /\
  match head (view w), last (view w) with
  | Some f, Some l => GetLedgerRange w =
      Ok {| FirstLedger := {| Sequence := LedgerSeq f; CloseTime := LedgerCloseTimestamp f |};
            LastLedger := {| Sequence := LedgerSeq l; CloseTime := LedgerCloseTimestamp l |} |}
  | _, _ => GetLedgerRange w = Ok zeroLedgerRange
  end.
Proof.
  intros Hw. split.
  { intros i Hi. destruct (decide (i < zlen (buckets w))).
    - left. by apply Get_view.
    - right. split; [apply Get_out_of_range; [done|lia]|].
      apply lookup_ge_None. rewrite length_view. unfold zlen in *. lia. }
  unfold GetLedgerRange. rewrite Len_inv by done.
  rewrite head_lookup, last_lookup. rewrite length_view.
  case_decide as E.
  - apply zlen_zero in E. unfold view. by rewrite E, drop_nil, take_nil.
  - pose proof (zlen_nonneg (buckets w)).
    destruct (Get_view w 0) as (f&->&Hf); [done|lia|].
    destruct (Get_view w (zlen (buckets w) - 1)) as (l&->&Hl); [done|lia|].
    change (Z.to_nat 0) with 0%nat in Hf. rewrite Hf.
    replace (Z.to_nat (zlen (buckets w) - 1)) with (pred (length (buckets w))) in Hl
      by (unfold zlen; lia).
    by rewrite Hl.
Qed.

End WindowTheorems.

Definition witness_bucket (s : Z) : LedgerBucket (list Z) :=
  {| LedgerSeq := s; LedgerCloseTimestamp := 10 * s; BucketContent := [s] |}.

Definition witness_window : LedgerBucketWindow (list Z) :=
  {| buckets := [witness_bucket 8; witness_bucket 6; witness_bucket 7]; bcap := 3; start := 1 |}.

Lemma witness_window_inv : window_inv witness_window.
Proof.
  unfold window_inv. split_and!; simpl; try done; try llia.
  - repeat constructor; simpl; lia.
  - intros h i b Hh Hb. change (view witness_window)
      with [witness_bucket 6; witness_bucket 7; witness_bucket 8] in *.
    simpl in Hh. do 3 (destruct i; [by simplify_eq/=|]). done.
Qed.

Lemma Append_refines_witness :
  exists w', Append (witness_bucket 9) witness_window = (Ok (Some (witness_bucket 6)), w') /\
    view w' = [witness_bucket 7; witness_bucket 8; witness_bucket 9].
Proof.
  destruct (Append_refines witness_window (witness_bucket 9)) as [H _].
  - apply witness_window_inv.
  - split; simpl; lia.
  - destruct H as (w'&H1&H2&_); [reflexivity|]. exists w'. split; [exact H1|exact H2].
Defined.

Lemma Get_GetLedgerRange_view_witness :
  Get witness_window 2 = Ok (witness_bucket 8) /\
  (exists m, Get witness_window 3 = Panic m) /\
  GetLedgerRange witness_window = Ok {| FirstLedger := {| Sequence := 6; CloseTime := 60 |};
                                        LastLedger := {| Sequence := 8; CloseTime := 80 |} |}.
Proof.
  destruct (Get_GetLedgerRange_view witness_window witness_window_inv) as [H1 H2].
  split_and!; [|eexists; reflexivity|exact H2].
  destruct (H1 2) as [(b&Hb&Hv)|[[m Hm] _]]; [lia| |discriminate Hm].
  rewrite Hb. f_equal. simpl in Hv. congruence.
Defined.
