(* ===== verification/Tables.v ===== *)
(** * The database: tables, statements and sessions

    The tables of db/sqlmigrations, the meaning of the statements the code
    sends to SQLite, and a session whose statements can fail: every statement
    takes the next entry of a fault schedule, which is a parameter of the
    theorems. *)

From S2P Require Import Prelude Sdk.

(** ** Rows and tables *)

(** [transactions]: hash, ledger_sequence, application_order *)
Record tx_row := MkTxRow { row_hash : string; row_ledger : Z; row_order : Z }.

#[global] Instance tx_row_eq_dec : EqDecision tx_row.
Proof. solve_decision. Defined.

(** [events], without its key [id] *)
Record ev_row := MkEvRow {
  ev_contract_id : option string;
  ev_type : Z;
  ev_data : string;
  ev_close_time : Z;
  ev_tx_hash : string;
  ev_topics : list (option string); (* topic1 .. topic4, NULL is None *)
}.

#[global] Instance ev_row_eq_dec : EqDecision ev_row.
Proof. solve_decision. Defined.

(** [t_ledgers] maps sequence to the XDR of the ledger; [t_indexes] are the
    explicit indexes of the schema and [t_hash_pk] tells whether [transactions]
    declares [hash] as its PRIMARY KEY (the bulk-load table does not). *)
Record tables := MkTables {
  t_ledgers : gmap Z string;
  t_txs : list tx_row;
  t_events : gmap string ev_row;
  t_meta : gmap string string;
  t_indexes : gset string;
  t_hash_pk : bool;
}.

Definition set_ledgers l t := MkTables l (t_txs t) (t_events t) (t_meta t) (t_indexes t) (t_hash_pk t).
Definition set_txs x t := MkTables (t_ledgers t) x (t_events t) (t_meta t) (t_indexes t) (t_hash_pk t).
Definition set_events e t := MkTables (t_ledgers t) (t_txs t) e (t_meta t) (t_indexes t) (t_hash_pk t).
Definition set_meta m t := MkTables (t_ledgers t) (t_txs t) (t_events t) m (t_indexes t) (t_hash_pk t).
Definition set_indexes i t := MkTables (t_ledgers t) (t_txs t) (t_events t) (t_meta t) i (t_hash_pk t).

(** The canonical schema: the result of running sqlmigrations/*.sql. *)
Definition empty_tables : tables :=
  MkTables ∅ [] ∅ ∅ {["index_ledger_sequence"; "idx_id_contract_id"; "idx_id_topic1"]} true.

(** ** Ordered scans *)

Section SortedRows.
Context {K A : Type} `{Countable K}.
Context (R : relation K) `{!RelDecision R} `{!PartialOrder R} `{!Total R}.

Definition key_le : relation (K * A) := fun p q => R (fst p) (fst q).

#[global] Instance key_le_dec : RelDecision key_le.
Proof. unfold key_le. intros p q. apply _. Defined.

(** The rows of a table in the order of its primary key. *)
Definition rows_by_key (m : gmap K A) : list (K * A) := merge_sort key_le (map_to_list m).

#[global] Instance key_le_trans : Transitive key_le.
Proof. intros p q r. unfold key_le. apply transitivity. Qed.

#[global] Instance key_le_total : Total key_le.
Proof. intros p q. unfold key_le. apply total, _. Qed.

Lemma rows_by_key_perm m : rows_by_key m ≡ₚ map_to_list m.
Proof. apply merge_sort_Permutation. Qed.

Lemma elem_of_rows_by_key m k a : (k, a) ∈ rows_by_key m <-> m !! k = Some a.
Proof. by rewrite rows_by_key_perm, elem_of_map_to_list. Qed.

Lemma NoDup_rows_by_key m : NoDup (rows_by_key m).*1.
Proof. rewrite rows_by_key_perm. apply NoDup_fst_map_to_list. Qed.

Lemma rows_by_key_sorted m : StronglySorted key_le (rows_by_key m).
Proof. apply StronglySorted_merge_sort; apply _. Qed.

(** A key-sorted list of rows with distinct keys is the scan of its table. *)
Lemma rows_by_key_unique (l1 l2 : list (K * A)) :
  StronglySorted key_le l1 -> StronglySorted key_le l2 ->
  NoDup l1.*1 -> l1 ≡ₚ l2 -> l1 = l2.
Proof.
  intros H1 H2 Hn Hp. eapply StronglySorted_unique_strong; [|done..].
  intros [k1 a1] [k2 a2] Hin1 Hin2 L1 L2.
  assert (k1 = k2) as -> by (by apply (anti_symm R)).
  rewrite <- Hp in Hin2.
  apply list_elem_of_lookup in Hin1 as [i Hi]. apply list_elem_of_lookup in Hin2 as [j Hj].
  assert (i = j) as ->; [|congruence].
  eapply NoDup_lookup; [exact Hn|by rewrite list_lookup_fmap, Hi|by rewrite list_lookup_fmap, Hj].
Qed.

Lemma rows_by_key_insert_last m k a :
  (forall k' a', m !! k' = Some a' -> R k' k /\ k' ≠ k) ->
  rows_by_key (<[k := a]> m) = rows_by_key m ++ [(k, a)].
Proof.
  intros Hmax.
  assert (m !! k = None) as Hnone.
  { destruct (m !! k) eqn:E; [|done]. by destruct (Hmax _ _ E). }
  apply rows_by_key_unique.
  - apply rows_by_key_sorted.
  - apply StronglySorted_app_2; [|apply rows_by_key_sorted|by repeat constructor].
    intros [k1 a1] [k2 a2] H1 H2. apply elem_of_rows_by_key in H1.
    apply list_elem_of_singleton in H2. simplify_eq. unfold key_le. simpl. by eapply Hmax.
  - apply NoDup_rows_by_key.
  - rewrite rows_by_key_perm, map_to_list_insert, rows_by_key_perm by done.
    by rewrite Permutation_app_comm.
Qed.

Lemma rows_by_key_filter (P : K * A -> Prop) `{forall x, Decision (P x)} m :
  rows_by_key (filter P m) = filter P (rows_by_key m).
Proof.
  apply rows_by_key_unique.
  - apply rows_by_key_sorted.
  - apply sorted_filter, rows_by_key_sorted.
  - apply NoDup_rows_by_key.
  - apply NoDup_Permutation.
    + eapply NoDup_fmap_1, NoDup_rows_by_key.
    + apply NoDup_filter. eapply NoDup_fmap_1, NoDup_rows_by_key.
    + intros [k a]. rewrite list_elem_of_filter, !elem_of_rows_by_key.
      rewrite map_lookup_filter_Some. naive_solver.
Qed.

Lemma rows_by_key_head m k a :
  head (rows_by_key m) = Some (k, a) <->
  m !! k = Some a /\ forall k' a', m !! k' = Some a' -> R k k'.
Proof.
  pose proof (rows_by_key_sorted m) as HS. split.
  - intros Hh. destruct (rows_by_key m) as [|p l] eqn:E; [done|]. simplify_eq/=.
    split; [apply elem_of_rows_by_key; rewrite E; by left|].
    intros k' a' Hk. apply elem_of_rows_by_key in Hk. rewrite E in Hk.
    apply StronglySorted_inv in HS as [_ HF].
    apply elem_of_cons in Hk as [?|Hk]; [simplify_eq; reflexivity|].
    rewrite Forall_forall in HF. by apply HF in Hk.
  - intros [Hk Hmin]. apply elem_of_rows_by_key in Hk as Hin.
    destruct (rows_by_key m) as [|[k1 a1] l] eqn:E; [by apply elem_of_nil in Hin|].
    assert (m !! k1 = Some a1) as H1 by (apply elem_of_rows_by_key; rewrite E; by left).
    simpl. assert (k1 = k) as ->; [|congruence].
    apply (anti_symm R); [|by eapply Hmin].
    apply StronglySorted_inv in HS as [_ HF].
    apply elem_of_cons in Hin as [?|Hin]; [simplify_eq; reflexivity|].
    rewrite Forall_forall in HF. by apply HF in Hin.
Qed.

Lemma rows_by_key_last m k a :
  last (rows_by_key m) = Some (k, a) <->
  m !! k = Some a /\ forall k' a', m !! k' = Some a' -> R k' k.
Proof.
  pose proof (rows_by_key_sorted m) as HS.
  assert (forall l p, StronglySorted key_le (l ++ [p]) -> forall x, x ∈ l ++ [p] -> key_le x p) as Hmx.
  { intros l p Hs x [Hx|Hx]%elem_of_app.
    - eapply StronglySorted_app_1_elem_of; [done|done|by left].
    - apply list_elem_of_singleton in Hx as ->. unfold key_le. reflexivity. }
  split.
  - intros [l Hl]%last_Some. rewrite Hl in HS. specialize (Hmx _ _ HS).
    split; [apply elem_of_rows_by_key; rewrite Hl; apply elem_of_app; right; by left|].
    intros k' a' Hk. apply elem_of_rows_by_key in Hk. rewrite Hl in Hk. by apply Hmx in Hk.
  - intros [Hk Hmax]. apply elem_of_rows_by_key in Hk as Hin.
    destruct (last (rows_by_key m)) as [[k1 a1]|] eqn:E.
    + apply last_Some in E as [l Hl]. rewrite Hl in HS, Hin. specialize (Hmx _ _ HS _ Hin).
      assert (m !! k1 = Some a1) as H1.
      { apply elem_of_rows_by_key. rewrite Hl. apply elem_of_app. right. by left. }
      assert (k1 = k) as -> by (apply (anti_symm R); [by eapply Hmax|done]).
      congruence.
    + apply last_None in E. rewrite E in Hin. by apply elem_of_nil in Hin.
Qed.

Lemma rows_by_key_nil m : rows_by_key m = [] <-> m = ∅.
Proof.
  split; intros Hm.
  - apply map_empty. intros k. destruct (m !! k) eqn:E; [|done].
    apply elem_of_rows_by_key in E. rewrite Hm in E. by apply elem_of_nil in E.
  - subst. unfold rows_by_key. by rewrite map_to_list_empty.
Qed.

End SortedRows.

(** ** Sessions

    The statements of a session run on [s_tab]: the working copy of its open
    transaction, or the committed tables outside one. *)
Record session := MkSession { s_tab : tables; s_faults : list (option error) }.

Definition next_fault (fs : list (option error)) : option error * list (option error) :=
  match fs with
  | [] => (None, [])
  | f :: fs => (f, fs)
  end.

(** A statement: fails with the scheduled fault, leaving the tables alone, or
    runs.  A statement that violates a constraint is undone as a whole. *)
Definition statement {A} (f : tables -> Res (A * tables)) : M session A := fun s =>
  match next_fault (s_faults s) with
  | (Some e, fs) => (Err e, MkSession (s_tab s) fs)
  | (None, fs) =>
      match f (s_tab s) with
      | Ok (a, t) => (Ok a, MkSession t fs)
      | Err e => (Err e, MkSession (s_tab s) fs)
      | Panic m => (Panic m, MkSession (s_tab s) fs)
      end
  end.

(** [Exec]: a statement that only writes. *)
Definition sql_exec (f : tables -> Res tables) : M session unit :=
  statement (fun t => t' ← f t; Ok (tt, t')).

(** [Select], [Query]: a statement that only reads. *)
Definition sql_select {A} (q : tables -> A) : M session A :=
  statement (fun t => Ok (q t, t)).

Lemma sql_select_inv {A} (q : tables -> A) s r s' :
  sql_select q s = (r, s') -> s_tab s' = s_tab s /\ (r = Ok (q (s_tab s)) \/ exists e, r = Err e).
Proof.
  unfold sql_select, statement. destruct (next_fault (s_faults s)) as [[e|] fs];
    intros; simplify_eq/=; naive_solver.
Qed.

Lemma sql_exec_inv f s r s' :
  sql_exec f s = (r, s') ->
  (exists t, r = Ok tt /\ f (s_tab s) = Ok t /\ s_tab s' = t) \/
  (r ≠ Ok tt /\ s_tab s' = s_tab s).
Proof.
  unfold sql_exec, statement. destruct (next_fault (s_faults s)) as [[e|] fs];
    intros; simplify_eq/=; [naive_solver|].
  destruct (f (s_tab s)); simplify_eq/=; naive_solver.
Qed.

Lemma statement_no_fault {A} (f : tables -> Res (A * tables)) t :
  statement f (MkSession t []) =
  match f t with
  | Ok (a, t') => (Ok a, MkSession t' [])
  | Err e => (Err e, MkSession t [])
  | Panic m => (Panic m, MkSession t [])
  end.
Proof. done. Qed.

(** ** Helpers the writers share *)

(** SQLite prepares no statement with more than 32,766 host parameters
    (SQLITE_MAX_VARIABLE_NUMBER): an INSERT binds [width] of them per row. *)
Definition maxVariables : Z := 32766.

Definition bind_limited {A} (width : Z) (rows : list A) (f : Res tables) : Res tables :=
  if decide (width * zlen rows <= maxVariables) then f else Err (EExt "too many SQL variables").

Lemma bind_limited_within {A} width (rows : list A) f :
  width * zlen rows <= maxVariables -> bind_limited width rows f = f.
Proof. intros H. unfold bind_limited. by rewrite decide_True. Qed.

Lemma bind_limited_ok {A} width (rows : list A) f t : bind_limited width rows f = Ok t -> f = Ok t.
Proof. unfold bind_limited. by case_decide. Qed.

Lemma bind_limited_no_panic {A} width (rows : list A) f :
  (forall m, f <> Panic m) -> forall m, bind_limited width rows f <> Panic m.
Proof. intros Hf m. unfold bind_limited. by case_decide. Qed.

(** The cutoff of the trim statements: [None] when nothing is to be trimmed. *)
Definition trim_cutoff (latestLedgerSeq retentionWindow : Z) : option Z :=
  if decide (u32 (latestLedgerSeq + 1) <= retentionWindow) then None
  else Some (u32 (latestLedgerSeq + 1 - retentionWindow)).

(** [for len(pending) >= max { flush(max) }].  The fuel is the length of the
    buffer at loop entry: each flush shortens it. *)
Fixpoint flush_full_batches {S} (fuel : nat) (len : S -> nat) (max : nat)
    (flush : nat -> M S unit) : M S unit := fun s =>
  if decide (max <= len s)%nat then
    match fuel with
    | O => (Panic "out of fuel", s)
    | Datatypes.S fuel => (flush max ;; flush_full_batches fuel len max flush) s
    end
  else (Ok tt, s).

(** [reader.Read()] on the sequence of read results. *)
Definition reader_Read {A} : M (list (Res A)) A := fun rd =>
  match rd with
  | [] => (Err (ESentinel EOF), [])
  | r :: rd => (r, rd)
  end.

Lemma trim_cutoff_spec latest w :
  0 <= latest < 2 ^ 32 - 1 -> 0 < w < 2 ^ 32 ->
  trim_cutoff latest w = if decide (latest < w) then None else Some (latest + 1 - w).
Proof.
  intros Hl Hw. unfold trim_cutoff. rewrite u32_small by (unfold_ints; lia).
  repeat case_decide; try lia; [done|].
  by rewrite u32_small by (unfold_ints; lia).
Qed.

Section FlushLemmas.
Context {S : Type} (len : S -> nat) (max : nat) (flush : nat -> M S unit).
Hypothesis max_pos : (0 < max)%nat.

(** Every property [P] of the state kept by a full flush, and every property
    [Q] of its result, hold of the loop, which ends with less than a batch in
    the buffer and never runs out of fuel. *)
Lemma flush_full_batches_spec (P : S -> Prop) (Q : Res unit -> Prop) fuel s r s' :
  (len s <= fuel)%nat -> P s -> Q (Ok tt) ->
  (forall s r s', P s -> (max <= len s)%nat -> flush max s = (r, s') ->
     P s' /\ Q r /\ (r = Ok tt -> len s' = len s - max)%nat) ->
  flush_full_batches fuel len max flush s = (r, s') ->
  P s' /\ Q r /\ (r = Ok tt -> (len s' < max)%nat).
Proof.
  intros Hfuel HP HQ Hstep. revert s Hfuel HP. induction fuel as [|fuel IH]; intros s Hfuel HP; simpl;
    case_decide as Hd; intros Hrun; simplify_eq/=.
  - lia.
  - split_and!; [done|done|intros; lia].
  - unfold_m. destruct (flush max s) as [r1 s1] eqn:Hf.
    destruct (Hstep s r1 s1) as (H1&H2&H3); [done..|].
    destruct r1 as [[]|e|m]; simplify_eq; [|naive_solver..].
    apply (IH s1); [|done|done]. rewrite H3 by done. lia.
  - split_and!; [done|done|intros; lia].
Qed.

End FlushLemmas.

Lemma sql_exec_no_panic f s r s' :
  (forall t m, f t <> Panic m) -> sql_exec f s = (r, s') -> forall m, r <> Panic m.
Proof.
  intros Hf. unfold sql_exec, statement. destruct (next_fault (s_faults s)) as [[e|] fs];
    intros; simplify_eq/=; [done|]. specialize (Hf (s_tab s)).
  destruct (f (s_tab s)); simplify_eq/=; naive_solver.
Qed.

Lemma sql_exec_ok f s t :
  s_faults s = [] -> f (s_tab s) = Ok t -> sql_exec f s = (Ok tt, MkSession t []).
Proof. intros Hf Ht. unfold sql_exec, statement. rewrite Hf. simpl. by rewrite Ht. Qed.

(** Statements that leave a part of the tables alone. *)
Lemma keeps_sql_select {A B} (f : tables -> B) (q : tables -> A) :
  keeps (fixes (f ∘ s_tab)) (sql_select q).
Proof. intros s r s' [H _]%sql_select_inv. unfold fixes. simpl. by rewrite H. Qed.

Lemma keeps_sql_exec {B} (f : tables -> B) (x : tables -> Res tables) :
  (forall t t', x t = Ok t' -> f t' = f t) -> keeps (fixes (f ∘ s_tab)) (sql_exec x).
Proof.
  intros Hx s r s' [(t&_&Ht&E)|[_ E]]%sql_exec_inv; unfold fixes; simpl; rewrite E; [by apply Hx|done].
Qed.

Lemma sql_noop_inv s r s' :
  sql_exec (fun t => Ok t) s = (r, s') -> s_tab s' = s_tab s /\ (r = Ok tt \/ exists e, r = Err e).
Proof.
  unfold sql_exec, statement. destruct (next_fault (s_faults s)) as [[e|] fs]; intros; simplify_eq/=; eauto.
Qed.

(** Statements do not make faults appear. *)
Definition no_new_faults (s s' : session) : Prop := s_faults s = [] -> s_faults s' = [].

#[global] Instance no_new_faults_preorder : PreOrder no_new_faults.
Proof. split; unfold no_new_faults; [by intros s|intros a b c; auto]. Qed.

Lemma keeps_statement_faults {A} (f : tables -> Res (A * tables)) : keeps no_new_faults (statement f).
Proof.
  intros s r s'. unfold statement, no_new_faults. intros H Hf. rewrite Hf in H. simpl in H.
  destruct (f (s_tab s)) as [[a t]|e|m]; by simplify_eq/=.
Qed.
