(* ===== verification/DbTransaction.v ===== *)
(** * The transactions table (internal/db/transaction.go)

    The writer [transactionHandler] buffers lookup rows and flushes them in
    batches; the reader finds a transaction by joining its row with the ledger
    that holds it. *)

From S2P Require Import Prelude Sdk SdkExample LedgerBucketWindow Tables.

Record pendingTx := MkPendingTx { ptx_hash : string; ptx_seq : Z; ptx_index : Z }.

Record transactionHandler := MkTransactionHandler {
  th_stmtCache : bool; (* stmtCache != nil *)
  th_passphrase : string;
  th_pending : list pendingTx;
}.

Definition maxTxRowsPerBatch : nat := Z.to_nat 10000.

(** [db.Transaction] *)
Record Transaction := MkTransaction {
  TransactionHash : string;
  T_Result : string;
  T_Meta : string;
  T_Envelope : string;
  T_Events : list string;
  T_FeeBump : bool;
  T_ApplicationOrder : Z;
  T_Successful : bool;
  T_Ledger : LedgerInfo;
  T_TransactionEvents : list string;
  T_ContractEvents : list (list string);
}.

Definition zeroTransaction : Transaction :=
  MkTransaction "" "" "" "" [] false 0 false zeroLedgerInfo [] [].

Section Handler.
Context `{X : Sdk} `{ND : Nondet}.

Definition set_th_pending (p : list pendingTx) (h : transactionHandler) : transactionHandler :=
  MkTransactionHandler (th_stmtCache h) (th_passphrase h) p.

(** The read loop of [InsertTransactions]: the map from hash to transaction,
    with both hashes of a fee bump. *)
Fixpoint read_transactions (n : nat) (i : Z) (reader : list (Res LedgerTransaction))
    (transactions : gmap string LedgerTransaction) : Res (gmap string LedgerTransaction) :=
  match n with
  | O => Ok transactions
  | S n =>
      match reader_Read reader with
      | (Err e, _) => Err (EWrap ("failed reading tx " +:+ pretty i) e)
      | (Panic m, _) => Panic m
      | (Ok tx, reader) =>
          let transactions :=
            if tx_IsFeeBump tx then <[tx_InnerHash tx := tx]> transactions else transactions in
          read_transactions n (i + 1) reader (<[tx_TransactionHash tx := tx]> transactions)
      end
  end.

(** INSERT INTO transactions: refused as a whole when a unique hash repeats or
    when the three variables of its rows are more than a statement binds. *)
Definition hash_unique (t : tables) : bool :=
  t_hash_pk t || bool_decide ("idx_transactions_hash" ∈ t_indexes t).

Definition insert_tx_rows (rows : list tx_row) (t : tables) : Res tables :=
  let all := t_txs t ++ rows in
  bind_limited 3 rows $
  if hash_unique t && negb (bool_decide (NoDup (row_hash <$> all))) then
    Err (EExt "UNIQUE constraint failed: transactions.hash")
  else Ok (set_txs all t).

Definition tx_row_of (p : pendingTx) : tx_row :=
  {| row_hash := ptx_hash p; row_ledger := ptx_seq p; row_order := ptx_index p |}.

(** [flush]: [pending[:n]] panics when [n] exceeds the buffer. *)
Definition flush_txs (n : nat) : M (transactionHandler * session) unit :=
  '(h, _) ← get;
  (if decide (length (th_pending h) < n)%nat
   then panic "slice bounds out of range" else mret tt) ;;
  zoom2 (sql_exec (insert_tx_rows (tx_row_of <$> take n (th_pending h)))) ;;
  zoom1 (modify (set_th_pending (drop n (th_pending h)))).

Definition flushPending_txs : M (transactionHandler * session) unit :=
  '(h, _) ← get;
  if decide (length (th_pending h) = 0%nat) then mret tt
  else flush_txs (length (th_pending h)).

Definition InsertTransactions (lcm : LedgerCloseMeta) : M (transactionHandler * session) unit :=
  '(h, _) ← get;
  let txCount := CountTransactions lcm in
  if negb (th_stmtCache h) then
    fail (EMsg "TransactionWriter incorrectly initialized without stmtCache")
  else if decide (txCount = 0) then mret tt
  else
    reader ← map_err (EWrap ("failed to open transaction reader for ledger "
                             +:+ pretty (LedgerSequence lcm)))
               (of_res (NewLedgerTransactionReader (th_passphrase h) lcm));
    transactions ← of_res (read_transactions (Z.to_nat txCount) 0 reader ∅);
    let rows := (fun '(hash, tx) => MkPendingTx hash (LedgerSequence lcm) (tx_Index tx)) <$>
                range_map (map_to_list transactions) in
    zoom1 (modify (fun h => set_th_pending (th_pending h ++ rows) h)) ;;
    '(h, _) ← get;
    flush_full_batches (length (th_pending h)) (fun s => length (th_pending (fst s)))
      maxTxRowsPerBatch flush_txs.

(** DELETE FROM transactions WHERE ledger_sequence < cutoff *)
Definition trimTransactions (latestLedgerSeq retentionWindow : Z)
    : M (transactionHandler * session) unit :=
  match trim_cutoff latestLedgerSeq retentionWindow with
  | None => mret tt
  | Some cutoff =>
      zoom2 (sql_exec (fun t =>
        Ok (set_txs (filter (fun r => cutoff <= row_ledger r) (t_txs t)) t)))
  end.

(** ** Reading *)

(** The rows of the join of [getTransactionByHash], before LIMIT. *)
Definition join_rows (hash : string) (t : tables) : list (Z * string) :=
  omap (fun r => meta ← t_ledgers t !! row_ledger r; Some (row_order r, meta))
    (scan_order (filter (fun r => row_hash r = hash) (t_txs t))).

Definition getTransactionByHash (passphrase hash : string)
    : M session (LedgerCloseMeta * LedgerTransaction) :=
  let wrap := EWrap ("db read failed for txhash " +:+ HexString hash) in
  rows ← map_err wrap (sql_select (fun t => take 1 (join_rows hash t)));
  match rows with
  | [] => fail (ESentinel ErrNoTransaction)
  | (txIndex, blob) :: _ =>
      lcm ← map_err wrap (of_res (lcm_Unmarshal blob));
      reader ← map_err (EWrap "failed to create ledger reader")
                 (of_res (NewLedgerTransactionReader passphrase lcm));
      reader ← map_err (EWrap ("failed to index to tx " +:+ pretty txIndex +:+ " in ledger "
                               +:+ pretty (LedgerSequence lcm) +:+ " (txhash=" +:+ HexString hash
                               +:+ ")"))
                 (of_res (reader_Seek reader (txIndex - 1)));
      ledgerTx ← of_res (fst (reader_Read reader));
      mret (lcm, ledgerTx)
  end.

(** [strconv.ParseInt(strconv.FormatUint(v, 10), 10, 32)]: fails above MaxInt32. *)
Definition parse_int32 (v : Z) : option Z := if decide (v < 2 ^ 31) then Some v else None.

Definition res_wrap {A} (m : string) (r : Res A) : Res A :=
  match r with Err e => Err (EWrap m e) | r => r end.

(** Marshalling the elements of a slice, the index in the error message. *)
Fixpoint marshal_all {A} (marshal : A -> Res string) (msg : nat -> string) (i : nat) (l : list A)
    : Res (list string) :=
  match l with
  | [] => Ok []
  | a :: l => b ← res_wrap (msg i) (marshal a); bs ← marshal_all marshal msg (S i) l; Ok (b :: bs)
  end.

Fixpoint marshal_ops (opIndex : nat) (ops : list (list ContractEvent)) : Res (list (list string)) :=
  match ops with
  | [] => Ok []
  | evs :: ops =>
      b ← marshal_all ContractEvent_MarshalBinary
            (fun i => "couldn't encode ContractEvent " +:+ pretty (Z.of_nat i) +:+ " for operation "
                      +:+ pretty (Z.of_nat opIndex)) 0 evs;
      bs ← marshal_ops (S opIndex) ops;
      Ok (b :: bs)
  end.

Definition parseEvents (allEvents : TransactionEvents) : Res (list string * list (list string)) :=
  txEvents ← marshal_all TransactionEvent_MarshalBinary
               (fun i => "couldn't encode TransactionEvent " +:+ pretty (Z.of_nat i)) 0
               (TxEvents allEvents);
  contractEvents ← marshal_ops 0 (OperationEvents allEvents);
  Ok (txEvents, contractEvents).

Definition ParseTransaction (lcm : LedgerCloseMeta) (ingestTx : LedgerTransaction) : Res Transaction :=
  match parse_int32 (tx_Index ingestTx) with
  | None => Err (EMsg ("transaction index " +:+ pretty (tx_Index ingestTx) +:+ " exceeds supported range"))
  | Some applicationOrder =>
      result ← res_wrap "couldn't encode transaction Result" (tx_Result_MarshalBinary ingestTx);
      meta ← res_wrap "couldn't encode transaction UnsafeMeta" (tx_Meta_MarshalBinary ingestTx);
      envelope ← res_wrap "couldn't encode transaction Envelope" (tx_Envelope_MarshalBinary ingestTx);
      allEvents ← res_wrap "couldn't encode transaction Events" (GetTransactionEvents ingestTx);
      diagEvents ← match GetDiagnosticEvents ingestTx with
                   | Err e => Err (EJoin (EMsg "couldn't encode diagnostic events") e)
                   | r => r
                   end;
      events ← marshal_all DiagnosticEvent_MarshalBinary
                 (fun i => "couldn't encode transaction DiagnosticEvent " +:+ pretty (Z.of_nat i)) 0
                 diagEvents;
      '(txEvents, contractEvents) ← parseEvents allEvents;
      Ok {| TransactionHash := HexString (tx_TransactionHash ingestTx);
            T_Result := result; T_Meta := meta; T_Envelope := envelope; T_Events := events;
            T_FeeBump := tx_IsFeeBump ingestTx; T_ApplicationOrder := applicationOrder;
            T_Successful := tx_Successful ingestTx;
            T_Ledger := {| Sequence := LedgerSequence lcm; CloseTime := LedgerCloseTime lcm |};
            T_TransactionEvents := txEvents; T_ContractEvents := contractEvents |}
  end.

Definition GetTransaction_db (passphrase hash : string) : M session Transaction :=
  '(lcm, ingestTx) ← getTransactionByHash passphrase hash;
  of_res (ParseTransaction lcm ingestTx).

End Handler.

Section HandlerLemmas.
Context `{X : Sdk} `{ND : Nondet}.

(** Every lookup row the handler answers for: written or still buffered. *)
Definition all_tx_rows (st : transactionHandler * session) : list tx_row :=
  t_txs (s_tab (snd st)) ++ (tx_row_of <$> th_pending (fst st)).

(** What the tables hold besides the transactions. *)
Definition same_but_txs (t t' : tables) : Prop := t' = set_txs (t_txs t') t.

Lemma same_but_txs_refl t : same_but_txs t t.
Proof. by destruct t. Qed.

Lemma same_but_txs_trans t1 t2 t3 : same_but_txs t1 t2 -> same_but_txs t2 t3 -> same_but_txs t1 t3.
Proof. unfold same_but_txs. intros -> ->. done. Qed.

Lemma insert_tx_rows_inv rows t t' :
  insert_tx_rows rows t = Ok t' -> t' = set_txs (t_txs t ++ rows) t.
Proof. unfold insert_tx_rows. intros H%bind_limited_ok. revert H. case_match; naive_solver. Qed.

Lemma insert_tx_rows_no_panic rows t m : insert_tx_rows rows t <> Panic m.
Proof. apply bind_limited_no_panic. intros m'. by case_match. Qed.

Lemma insert_tx_rows_fresh rows t :
  3 * zlen rows <= maxVariables -> NoDup (row_hash <$> (t_txs t ++ rows)) ->
  insert_tx_rows rows t = Ok (set_txs (t_txs t ++ rows) t).
Proof.
  intros Hv H. unfold insert_tx_rows. rewrite bind_limited_within by done.
  by rewrite bool_decide_eq_true_2, andb_false_r by done.
Qed.

(** The error of a repeated hash. *)
Definition tx_hash_conflict : error := EExt "UNIQUE constraint failed: transactions.hash".

Lemma insert_tx_rows_err rows t e :
  3 * zlen rows <= maxVariables -> insert_tx_rows rows t = Err e ->
  e = tx_hash_conflict /\ ~ NoDup (row_hash <$> (t_txs t ++ rows)).
Proof.
  intros Hv. unfold insert_tx_rows. rewrite bind_limited_within by done.
  case_match eqn:E; [|done]. intros [= <-]. split; [done|].
  apply andb_true_iff in E as [_ E%negb_true_iff]. by apply bool_decide_eq_false in E.
Qed.

(** A flush of at most the buffer moves rows or, when the statement fails,
    does nothing. *)
Lemma flush_txs_spec n h s r h' s' :
  (n <= length (th_pending h))%nat -> flush_txs n (h, s) = (r, (h', s')) ->
  same_but_txs (s_tab s) (s_tab s') /\ all_tx_rows (h', s') = all_tx_rows (h, s) /\
  (forall m, r <> Panic m) /\
  match r with
  | Ok _ => h' = set_th_pending (drop n (th_pending h)) h
  | _ => h' = h /\ s_tab s' = s_tab s
  end.
Proof.
  intros Hn. unfold flush_txs. unfold_m. simpl. rewrite decide_False by lia. simpl.
  set (rows := tx_row_of <$> take n (th_pending h)).
  destruct (sql_exec (insert_tx_rows rows) s) as [r1 s1] eqn:Hx.
  assert (forall m, r1 <> Panic m) as Hnp.
  { eapply sql_exec_no_panic; [|done]. apply insert_tx_rows_no_panic. }
  apply sql_exec_inv in Hx as [(t&->&Hi%insert_tx_rows_inv&Ht)|[Hne Ht]].
  - simpl. intros [= <- <- <-]. unfold all_tx_rows, same_but_txs. simpl. rewrite Ht, Hi. simpl.
    split_and!; [done| |done|done].
    unfold rows. by rewrite <- app_assoc, <- fmap_app, take_drop.
  - unfold all_tx_rows, same_but_txs.
    destruct r1 as [[]|e|m]; [done| |naive_solver]. intros [= <- <- <-]. simpl. rewrite !Ht.
    split_and!; try done. by destruct (s_tab s).
Qed.

(** A batch binds at most 30,000 variables. *)
Lemma tx_batch_binds n (l : list pendingTx) :
  (n <= maxTxRowsPerBatch)%nat -> 3 * zlen (tx_row_of <$> take n l) <= maxVariables.
Proof.
  unfold maxTxRowsPerBatch, maxVariables, zlen. rewrite length_fmap, length_take. lia.
Qed.

(** The errors of a batch: those the database reports, or a repeated hash. *)
Lemma flush_txs_err n h s e h' s' :
  (n <= maxTxRowsPerBatch)%nat -> flush_txs n (h, s) = (Err e, (h', s')) ->
  Some e ∈ s_faults s \/ (e = tx_hash_conflict /\ ~ NoDup (row_hash <$> all_tx_rows (h, s))).
Proof.
  intros Hmax. unfold flush_txs. unfold_m. simpl. case_decide; [done|]. simpl.
  unfold sql_exec, statement, next_fault.
  destruct (s_faults s) as [|[f|] fs]; simpl; [|intros [= -> _ _]; left; by left|].
  all: unfold mbind, Res_bind; destruct (insert_tx_rows _ _) as [t|e1|m] eqn:E; simpl; [done| |done].
  all: intros [= -> _ _]; right; apply insert_tx_rows_err in E as [-> Hnd]; [|by apply tx_batch_binds].
  all: split; [done|]; contradict Hnd; unfold all_tx_rows in Hnd; simpl in Hnd.
  all: rewrite <- (take_drop n (th_pending h)), (fmap_app tx_row_of), app_assoc, fmap_app in Hnd.
  all: by apply NoDup_app in Hnd as [? _].
Qed.

(** Faults are consumed in the order they are scheduled. *)
Lemma flush_txs_faults n h s r h' s' :
  flush_txs n (h, s) = (r, (h', s')) -> s_faults s' ⊆ s_faults s.
Proof.
  unfold flush_txs. unfold_m. simpl. case_decide; [by intros [= _ _ <-]|]. simpl.
  unfold sql_exec, statement, next_fault.
  destruct (s_faults s) as [|[f|] fs]; simpl; [|intros [= _ _ <-]; set_solver|].
  all: unfold mbind, Res_bind; destruct (insert_tx_rows _ _) as [t|e1|m]; simpl;
    intros [= _ _ <-]; set_solver.
Qed.

(** Without faults and without a repeated hash a flush succeeds. *)
Lemma flush_txs_ok n h s :
  (n <= length (th_pending h))%nat -> (n <= maxTxRowsPerBatch)%nat -> s_faults s = [] -> NoDup (row_hash <$> all_tx_rows (h, s)) ->
  exists s', flush_txs n (h, s) = (Ok tt, (set_th_pending (drop n (th_pending h)) h, s')) /\
    s_faults s' = [].
Proof.
  intros Hn Hmax Hf Hnd. unfold flush_txs. unfold_m. simpl. rewrite decide_False by lia. simpl.
  rewrite (sql_exec_ok _ _ (set_txs (t_txs (s_tab s) ++ (tx_row_of <$> take n (th_pending h))) (s_tab s)));
    [by eexists|done|].
  apply insert_tx_rows_fresh; [by apply tx_batch_binds|].
  unfold all_tx_rows in Hnd. simpl in Hnd.
  rewrite <- (take_drop n (th_pending h)) in Hnd.
  rewrite (fmap_app tx_row_of), app_assoc, fmap_app in Hnd. by apply NoDup_app in Hnd as [? _].
Qed.

Lemma maxTxRowsPerBatch_pos : (0 < maxTxRowsPerBatch)%nat.
Proof. unfold maxTxRowsPerBatch. lia. Qed.

(** The errors of the writer. *)
Definition tx_error (st : transactionHandler * session) (e : error) : Prop :=
  Some e ∈ s_faults (snd st) \/ (e = tx_hash_conflict /\ ~ NoDup (row_hash <$> all_tx_rows st)).

(** The full batches of [InsertTransactions]. *)
Lemma flush_txs_loop_spec fuel st r st' :
  (length (th_pending (fst st)) <= fuel)%nat ->
  flush_full_batches fuel (fun s => length (th_pending (fst s))) maxTxRowsPerBatch flush_txs st
    = (r, st') ->
  (same_but_txs (s_tab (snd st)) (s_tab (snd st')) /\ all_tx_rows st' = all_tx_rows st /\
   (s_faults (snd st) = [] -> NoDup (row_hash <$> all_tx_rows st) ->
      r = Ok tt /\ s_faults (snd st') = [])) /\
  ((forall m, r <> Panic m) /\ forall e, r = Err e -> tx_error st e) /\
  (r = Ok tt -> (length (th_pending (fst st')) < maxTxRowsPerBatch)%nat).
Proof.
  intros Hfuel Hrun.
  set (P s := same_but_txs (s_tab (snd st)) (s_tab (snd s)) /\ all_tx_rows s = all_tx_rows st /\
    s_faults (snd s) ⊆ s_faults (snd st) /\
    (s_faults (snd st) = [] -> NoDup (row_hash <$> all_tx_rows st) -> s_faults (snd s) = [])).
  pose proof (flush_full_batches_spec (fun s => length (th_pending (fst s))) _ flush_txs
    maxTxRowsPerBatch_pos P
    (fun r => ((forall m, r <> Panic m) /\ forall e, r = Err e -> tx_error st e) /\
      (s_faults (snd st) = [] -> NoDup (row_hash <$> all_tx_rows st) -> r = Ok tt))
    fuel st r st') as HL.
  destruct HL as ((H1&H2&_&H3)&[H4 H4']&H5); try done.
  - split_and!; try done. apply same_but_txs_refl.
  - intros [h s] r1 [h1 s1] (HP1&HP2&HPf&HP3) Hmax Hf.
    pose proof (flush_txs_spec _ _ _ _ _ _ Hmax Hf) as (Hs1&Hs2&Hs3&Hs4).
    assert (s_faults (snd st) = [] -> NoDup (row_hash <$> all_tx_rows st) ->
            r1 = Ok tt /\ s_faults s1 = []) as Hok.
    { intros HF HN. destruct (flush_txs_ok maxTxRowsPerBatch h s) as (s2&Hs2'&?);
        [done|done|by apply HP3|by rewrite HP2|]. rewrite Hf in Hs2'. by simplify_eq. }
    split_and!; [|done| |naive_solver|].
    + unfold P. split_and!; [by eapply same_but_txs_trans|by rewrite Hs2| |naive_solver].
      apply flush_txs_faults in Hf. simpl in *. set_solver.
    + intros e ->. apply flush_txs_err in Hf; [|done]. unfold tx_error. rewrite <- HP2.
      simpl in *. set_solver.
    + intros ->. simpl. rewrite Hs4. simpl. by rewrite length_drop.
  - split_and!; [done|done| |by apply H4|by apply H4|done]. intros. split; auto.
Qed.

Lemma flushPending_txs_ok h s :
  (length (th_pending h) < maxTxRowsPerBatch)%nat -> s_faults s = [] -> NoDup (row_hash <$> all_tx_rows (h, s)) ->
  exists s', flushPending_txs (h, s) = (Ok tt, (set_th_pending [] h, s')) /\
    s_faults s' = [] /\ same_but_txs (s_tab s) (s_tab s') /\
    t_txs (s_tab s') = all_tx_rows (h, s).
Proof.
  intros Hmax Hf Hn. unfold flushPending_txs. unfold_m. simpl. case_decide as Hl.
  - apply length_zero_iff_nil in Hl. exists s. split_and!; [|done|apply same_but_txs_refl|].
    + unfold set_th_pending. rewrite <- Hl. by destruct h.
    + unfold all_tx_rows. simpl. rewrite Hl. simpl. by rewrite app_nil_r.
  - destruct (flush_txs_ok (length (th_pending h)) h s) as (s'&Hrun&Hf'); [done|lia|done..|].
    exists s'. rewrite Hrun, drop_all. split_and!; [done|done|..];
      pose proof (flush_txs_spec _ _ _ _ _ _ (Nat.le_refl _) Hrun) as (H1&H2&_); [done|].
    unfold all_tx_rows in H2 at 1. simpl in H2. rewrite drop_all, app_nil_r in H2. done.
Qed.

(** The hashes a transaction is looked up by. *)
Definition lookup_entries (tx : LedgerTransaction) : list (string * LedgerTransaction) :=
  (if tx_IsFeeBump tx then [(tx_InnerHash tx, tx)] else []) ++ [(tx_TransactionHash tx, tx)].

Lemma read_transactions_ok txs i m :
  NoDup (concat (lookup_entries <$> txs)).*1 ->
  (forall k, k ∈ (concat (lookup_entries <$> txs)).*1 -> m !! k = None) ->
  exists m', read_transactions (length txs) i (Ok <$> txs) m = Ok m' /\
    map_to_list m' ≡ₚ concat (lookup_entries <$> txs) ++ map_to_list m.
Proof.
  revert i m; induction txs as [|tx txs IH]; intros i m Hn Hm; [by exists m|].
  csimpl in *. set (rest := concat (lookup_entries <$> txs)) in *.
  unfold lookup_entries at 1 in Hn. unfold lookup_entries at 1 in Hm.
  unfold lookup_entries at 1.
  destruct (tx_IsFeeBump tx); csimpl in *.
  - apply NoDup_cons in Hn as [Hn1 Hn]. apply NoDup_cons in Hn as [Hn2 Hn].
    rewrite elem_of_cons in Hn1.
    assert (m !! tx_InnerHash tx = None) as E1 by (apply Hm; set_solver).
    assert (m !! tx_TransactionHash tx = None) as E2 by (apply Hm; set_solver).
    assert (<[tx_InnerHash tx:=tx]> m !! tx_TransactionHash tx = None) as E3
      by (rewrite lookup_insert_ne by naive_solver; done).
    destruct (IH (i + 1) (<[tx_TransactionHash tx:=tx]> (<[tx_InnerHash tx:=tx]> m)))
      as (m'&->&Hp); [done| |].
    + intros k Hk. rewrite !lookup_insert_ne by (intros <-; naive_solver). apply Hm. set_solver.
    + exists m'. split; [done|]. rewrite Hp, !map_to_list_insert by done.
      by rewrite <- !Permutation_middle, (Permutation_swap (tx_InnerHash tx, tx)).
  - apply NoDup_cons in Hn as [Hn2 Hn].
    destruct (IH (i + 1) (<[tx_TransactionHash tx:=tx]> m)) as (m'&->&Hp); [done| |].
    + intros k Hk. rewrite lookup_insert_ne by (intros <-; naive_solver). apply Hm. set_solver.
    + exists m'. split; [done|]. rewrite Hp, map_to_list_insert by (apply Hm; set_solver).
      by rewrite <- Permutation_middle.
Qed.

(** The lookup rows of a ledger. *)
Definition ledger_tx_rows (lcm : LedgerCloseMeta) (txs : list LedgerTransaction) : list tx_row :=
  (fun '(hash, tx) => {| row_hash := hash; row_ledger := LedgerSequence lcm;
                         row_order := tx_Index tx |}) <$> concat (lookup_entries <$> txs).

Lemma ledger_tx_rows_hashes lcm txs :
  row_hash <$> ledger_tx_rows lcm txs = (concat (lookup_entries <$> txs)).*1.
Proof.
  unfold ledger_tx_rows. rewrite <- list_fmap_compose. apply list_fmap_ext. by intros ? [].
Qed.

End HandlerLemmas.

Section HandlerTheorems.
Context `{X : Sdk} `{ND : Nondet} `{RL : !SdkReaderLaws}.

Lemma zlen_fmap {A B} (f : A -> B) (l : list A) : zlen (f <$> l) = zlen l.
Proof. unfold zlen. by rewrite length_fmap. Qed.

Lemma InsertTransactions_spec lcm txs h s r h' s' :
  th_stmtCache h = true ->
  NewLedgerTransactionReader (th_passphrase h) lcm = Ok (Ok <$> txs) ->
  NoDup (concat (lookup_entries <$> txs)).*1 ->
  (length (th_pending h) < maxTxRowsPerBatch)%nat ->
  InsertTransactions lcm (h, s) = (r, (h', s')) ->
  same_but_txs (s_tab s) (s_tab s') /\
  all_tx_rows (h', s') ≡ₚ all_tx_rows (h, s) ++ ledger_tx_rows lcm txs /\
  (forall m, r <> Panic m) /\
  (r = Ok tt -> (length (th_pending h') < maxTxRowsPerBatch)%nat) /\
  (forall e, r = Err e -> Some e ∈ s_faults s \/
     (e = tx_hash_conflict /\ ~ NoDup (row_hash <$> (all_tx_rows (h, s) ++ ledger_tx_rows lcm txs)))) /\
  (s_faults s = [] -> NoDup (row_hash <$> (all_tx_rows (h, s) ++ ledger_tx_rows lcm txs)) ->
     r = Ok tt /\ s_faults s' = []).
Proof.
  intros Hc Hrd Hnd Hlen. pose proof (reader_count _ _ _ Hrd) as Hcnt.
  rewrite zlen_fmap in Hcnt.
  unfold InsertTransactions. unfold_m. csimpl. rewrite Hc. csimpl.
  case_decide as E0.
  { rewrite E0 in Hcnt. destruct txs; [|by rewrite zlen_cons in Hcnt; pose proof (zlen_nonneg txs); lia].
    intros [= <- <- <-]. unfold ledger_tx_rows. csimpl. rewrite app_nil_r.
    split_and!; try done. apply same_but_txs_refl. }
  rewrite Hrd, Hcnt. unfold zlen. rewrite Nat2Z.id.
  destruct (read_transactions_ok txs 0 ∅) as (m&->&Hm); [done|done|].
  rewrite map_to_list_empty, app_nil_r in Hm. csimpl.
  set (rows := (fun '(hash, tx) => MkPendingTx hash (LedgerSequence lcm) (tx_Index tx)) <$>
                range_map (map_to_list m)).
  assert (tx_row_of <$> rows ≡ₚ ledger_tx_rows lcm txs) as Hrows.
  { unfold rows, ledger_tx_rows. rewrite range_map_perm, Hm, <- list_fmap_compose.
    apply Permutation_refl', list_fmap_ext. by intros ? []. }
  set (h1 := set_th_pending (th_pending h ++ rows) h).
  assert (all_tx_rows (h1, s) ≡ₚ all_tx_rows (h, s) ++ ledger_tx_rows lcm txs) as Hall.
  { unfold all_tx_rows, h1. csimpl. by rewrite fmap_app, app_assoc, Hrows. }
  intros Hrun. apply flush_txs_loop_spec in Hrun as ((H1&H2&H3)&[H4 H6]&H5); [|done].
  csimpl in *. split_and!; [done|by rewrite H2|done|done| |].
  { intros e [?|[-> Hn]]%H6; [by left|right]. by rewrite Hall in Hn. }
  intros HF HN. apply H3; [done|]. by rewrite Hall.
Qed.

(** C2: Ingesting the transactions of a ledger and flushing the buffer leaves
    in the table, besides what was there, exactly one row per hash of every
    transaction of the ledger (both hashes of a fee bump), whatever the map
    iteration order; nothing else changes, and no row stays buffered. *)
Theorem InsertTransactions_flush_rows lcm txs h s :
  th_stmtCache h = true ->
  NewLedgerTransactionReader (th_passphrase h) lcm = Ok (Ok <$> txs) ->
  NoDup (row_hash <$> (all_tx_rows (h, s) ++ ledger_tx_rows lcm txs)) ->
  (length (th_pending h) < maxTxRowsPerBatch)%nat -> s_faults s = [] ->
  exists h' s', (InsertTransactions lcm ;; flushPending_txs) (h, s) = (Ok tt, (h', s')) /\
    th_pending h' = [] /\
    t_txs (s_tab s') ≡ₚ all_tx_rows (h, s) ++ ledger_tx_rows lcm txs /\
    same_but_txs (s_tab s) (s_tab s').
Proof.
  intros Hc Hrd Hnd Hlen Hf.
  assert (NoDup (concat (lookup_entries <$> txs)).*1) as Hnd'.
  { rewrite <- (ledger_tx_rows_hashes lcm). rewrite fmap_app in Hnd. by apply NoDup_app in Hnd as (_&_&?). }
  destruct (InsertTransactions lcm (h, s)) as [r [h1 s1]] eqn:Hrun.
  pose proof (InsertTransactions_spec _ _ _ _ _ _ _ Hc Hrd Hnd' Hlen Hrun) as (H1&H2&_&H4&_&H3).
  destruct H3 as [-> Hf1]; [done..|].
  destruct (flushPending_txs_ok h1 s1) as (s2&Hfl&_&H5&H6); [by apply H4|done|by rewrite H2|].
  exists (set_th_pending [] h1), s2. split_and!.
  - unfold_m. by rewrite Hrun.
  - done.
  - by rewrite H6, H2.
  - by eapply same_but_txs_trans.
Qed.

(** C3: Ingesting the transactions of a ledger keeps within SQLite's limit of
    32,766 variables per statement however many transactions it has: it fails
    with nothing but an error the database reports or a hash that repeats, never
    because a batch binds too many variables, and never panics.  Whatever fails,
    each row is in the table or in the buffer, none lost or duplicated, and on
    success the flush of what stays buffered is within the limit too.  (For a
    ledger whose transactions can be read and have distinct hashes, and a buffer
    below the batch size, which each call leaves again.) *)
Theorem InsertTransactions_conserves lcm txs h s r h' s' :
  th_stmtCache h = true ->
  NewLedgerTransactionReader (th_passphrase h) lcm = Ok (Ok <$> txs) ->
  NoDup (concat (lookup_entries <$> txs)).*1 ->
  (length (th_pending h) < maxTxRowsPerBatch)%nat ->
  InsertTransactions lcm (h, s) = (r, (h', s')) ->
  all_tx_rows (h', s') ≡ₚ all_tx_rows (h, s) ++ ledger_tx_rows lcm txs /\
  (forall m, r <> Panic m) /\
  (forall e, r = Err e -> Some e ∈ s_faults s \/
     (e = tx_hash_conflict /\ ~ NoDup (row_hash <$> (all_tx_rows (h, s) ++ ledger_tx_rows lcm txs)))) /\
  (r = Ok tt -> zlen (th_pending h') < 10000 /\ 3 * zlen (th_pending h') <= maxVariables).
Proof.
  intros Hc Hrd Hnd Hlen Hrun.
  pose proof (InsertTransactions_spec _ _ _ _ _ _ _ Hc Hrd Hnd Hlen Hrun) as (_&H2&H3&H4&H5&_).
  split_and!; [done|done|done|]. intros Hr. specialize (H4 Hr).
  unfold maxTxRowsPerBatch, maxVariables in *. llia.
Qed.

Lemma join_rows_single hash t r meta :
  r ∈ t_txs t -> row_hash r = hash -> NoDup (row_hash <$> t_txs t) ->
  t_ledgers t !! row_ledger r = Some meta -> join_rows hash t = [(row_order r, meta)].
Proof.
  intros Hin Hh Hnd Hl. unfold join_rows.
  assert (filter (fun r => row_hash r = hash) (t_txs t) = [r]) as ->.
  - apply list_elem_of_split in Hin as (l1&l2&E). rewrite E in *. rewrite fmap_app in Hnd. csimpl in *.
    apply NoDup_app in Hnd as (_&Hd&[Hni _]%NoDup_cons).
    rewrite filter_app, filter_cons, decide_True by done.
    rewrite (filter_none _ l1), (filter_none _ l2); [done| |].
    + intros x Hx Hxe. apply Hni. rewrite <- Hxe in Hh. rewrite Hh. by apply list_elem_of_fmap_2.
    + intros x Hx Hxe. apply (Hd (row_hash x)); [by apply list_elem_of_fmap_2|].
      rewrite Hxe, <- Hh. by left.
  - pose proof (scan_order_perm [r]) as Hp. apply Permutation_sym, Permutation_singleton_l in Hp.
    rewrite <- Hp. unfold omap, list_omap. by rewrite Hl.
Qed.

(** A row written for a transaction leads back to it. *)
Lemma GetTransaction_found lcm txs h s blob :
  th_stmtCache h = true ->
  NewLedgerTransactionReader (th_passphrase h) lcm = Ok (Ok <$> txs) ->
  NoDup (row_hash <$> (all_tx_rows (h, s) ++ ledger_tx_rows lcm txs)) ->
  (length (th_pending h) < maxTxRowsPerBatch)%nat -> s_faults s = [] ->
  t_ledgers (s_tab s) !! LedgerSequence lcm = Some blob -> lcm_Unmarshal blob = Ok lcm ->
  exists h' s', (InsertTransactions lcm ;; flushPending_txs) (h, s) = (Ok tt, (h', s')) /\
    forall tx hash, tx ∈ txs -> hash ∈ (lookup_entries tx).*1 ->
      fst (GetTransaction_db (th_passphrase h) hash (MkSession (s_tab s') []))
      = ParseTransaction lcm tx.
Proof.
  intros Hc Hrd Hnd Hlen Hf Hblob Hun.
  assert (NoDup (concat (lookup_entries <$> txs)).*1) as Hnd'.
  { rewrite <- (ledger_tx_rows_hashes lcm). rewrite fmap_app in Hnd. by apply NoDup_app in Hnd as (_&_&?). }
  destruct (InsertTransactions lcm (h, s)) as [r [h1 s1]] eqn:Hrun.
  pose proof (InsertTransactions_spec _ _ _ _ _ _ _ Hc Hrd Hnd' Hlen Hrun) as (H1&H2&_&H4&_&H3).
  destruct H3 as [-> Hf1]; [done..|].
  destruct (flushPending_txs_ok h1 s1) as (s2&Hfl&_&H5&H6); [by apply H4|done|by rewrite H2|].
  exists (set_th_pending [] h1), s2. split; [unfold_m; by rewrite Hrun|].
  intros tx hash Htx Hhash.
  assert (t_ledgers (s_tab s2) = t_ledgers (s_tab s)) as Hled by (by rewrite H5, H1).
  apply list_elem_of_lookup in Htx as [i Hi].
  assert (tx_Index tx = Z.of_nat i + 1) as Hidx.
  { eapply reader_index; [done|]. by rewrite list_lookup_fmap, Hi. }
  set (row := {| row_hash := hash; row_ledger := LedgerSequence lcm; row_order := tx_Index tx |}).
  assert (row ∈ t_txs (s_tab s2)) as Hrow.
  { rewrite H6, H2. apply elem_of_app. right. unfold ledger_tx_rows.
    apply list_elem_of_fmap. exists (hash, tx). split; [done|].
    apply list_elem_of_In, in_concat. exists (lookup_entries tx). split.
    - apply list_elem_of_In. apply list_elem_of_fmap_2. by eapply list_elem_of_lookup_2.
    - apply list_elem_of_In. unfold lookup_entries in *. destruct (tx_IsFeeBump tx); set_solver. }
  unfold GetTransaction_db, getTransactionByHash. unfold_m. unfold sql_select, statement. csimpl.
  rewrite (join_rows_single hash (s_tab s2) row blob); [|done|done| |by rewrite Hled].
  2: { rewrite H6, H2. done. }
  csimpl. rewrite Hun, Hrd.
  pose proof (lookup_lt_Some _ _ _ Hi).
  rewrite Hidx, seek_in_range by (rewrite zlen_fmap; llia).
  replace (Z.to_nat (Z.of_nat i + 1 - 1)) with i by lia.
  rewrite <- fmap_drop, (drop_S _ _ _ Hi). csimpl. done.
Qed.

(** Round trip of a transaction: once a ledger is stored and its transactions
    are ingested and flushed, looking up any hash of any of its transactions
    (outer, or inner for a fee bump) returns that very transaction. *)
Theorem GetTransaction_roundtrip lcm txs h s blob :
  th_stmtCache h = true ->
  NewLedgerTransactionReader (th_passphrase h) lcm = Ok (Ok <$> txs) ->
  NoDup (row_hash <$> (all_tx_rows (h, s) ++ ledger_tx_rows lcm txs)) ->
  (length (th_pending h) < maxTxRowsPerBatch)%nat -> s_faults s = [] ->
  t_ledgers (s_tab s) !! LedgerSequence lcm = Some blob -> lcm_Unmarshal blob = Ok lcm ->
  exists h' s', (InsertTransactions lcm ;; flushPending_txs) (h, s) = (Ok tt, (h', s')) /\
    forall tx hash, tx ∈ txs -> hash ∈ (lookup_entries tx).*1 ->
      fst (GetTransaction_db (th_passphrase h) hash (MkSession (s_tab s') []))
      = ParseTransaction lcm tx.
Proof. apply GetTransaction_found. Qed.

End HandlerTheorems.

Section Witnesses.

(** A session on an empty database whose ledger table holds ledger 3. *)
Definition ex_session : session :=
  MkSession (set_ledgers {[3 := bits 32 3]} empty_tables) [].

Definition ex_tx_handler : transactionHandler := MkTransactionHandler true "" [].

Lemma InsertTransactions_flush_rows_witness :
  exists h' s', (InsertTransactions (X := ex_sdk) 3 ;; flushPending_txs) (ex_tx_handler, ex_session)
                = (Ok tt, (h', s')) /\ th_pending h' = [] /\
    t_txs (s_tab s') ≡ₚ ledger_tx_rows (X := ex_sdk) 3 (ex_txs 3) /\
    same_but_txs (s_tab ex_session) (s_tab s').
Proof.
  apply (InsertTransactions_flush_rows (X := ex_sdk) 3 (ex_txs 3) ex_tx_handler ex_session);
    [reflexivity|reflexivity|apply (bool_decide_unpack _); vm_compute; exact I|cbn; unfold maxTxRowsPerBatch; lia|reflexivity].
Defined.

Lemma InsertTransactions_conserves_witness :
  let '(r, (h', s')) := InsertTransactions (X := ex_sdk) 3 (ex_tx_handler, ex_session) in
  all_tx_rows (h', s') ≡ₚ ledger_tx_rows (X := ex_sdk) 3 (ex_txs 3) /\
  (forall m, r <> Panic m) /\
  (forall e, r = Err e -> Some e ∈ s_faults ex_session \/
     (e = tx_hash_conflict /\ ~ NoDup (row_hash <$>
        (all_tx_rows (ex_tx_handler, ex_session) ++ ledger_tx_rows (X := ex_sdk) 3 (ex_txs 3))))) /\
  (r = Ok tt -> zlen (th_pending h') < 10000 /\ 3 * zlen (th_pending h') <= maxVariables).
Proof.
  destruct (InsertTransactions (X := ex_sdk) 3 (ex_tx_handler, ex_session)) as [r [h' s']] eqn:E.
  apply (InsertTransactions_conserves (X := ex_sdk) 3 (ex_txs 3) ex_tx_handler ex_session);
    [reflexivity|reflexivity|apply (bool_decide_unpack _); vm_compute; exact I|cbn; unfold maxTxRowsPerBatch; lia|exact E].
Defined.

Lemma GetTransaction_roundtrip_witness :
  exists h' s', (InsertTransactions (X := ex_sdk) 3 ;; flushPending_txs) (ex_tx_handler, ex_session)
                = (Ok tt, (h', s')) /\
    forall tx hash, tx ∈ ex_txs 3 -> hash ∈ (lookup_entries (X := ex_sdk) tx).*1 ->
      fst (GetTransaction_db (X := ex_sdk) "" hash (MkSession (s_tab s') []))
      = ParseTransaction (X := ex_sdk) 3 tx.
Proof.
  apply (GetTransaction_roundtrip (X := ex_sdk) 3 (ex_txs 3) ex_tx_handler ex_session (bits 32 3));
    [reflexivity|reflexivity|apply (bool_decide_unpack _); vm_compute; exact I
    |cbn; unfold maxTxRowsPerBatch; lia|reflexivity|reflexivity|reflexivity].
Defined.

End Witnesses.
