(* ===== verification/DbEvent.v ===== *)
(** * The events table (internal/db/event.go)

    The writer gathers the events of a ledger under cursors that order them
    chronologically, buffers them and flushes them in batches; the reader scans
    a cursor range with the filters pushed down to SQL. *)

From S2P Require Import Prelude Sdk SdkExample LedgerBucketWindow Tables.

Definition firstLedger : Z := 2.

Record TopicCondition := MkTopicCondition { TC_Column : Z; TC_Value : string }.
Abbreviation TopicFilter := (list TopicCondition).
Abbreviation TopicFilters := (list (list TopicCondition)).

Definition maxEventsPerBatch : nat := Z.to_nat 3000.

Record txEventIndices := MkTxEventIndices { beforeAll : Z; afterAll : Z; afterTx : Z }.

Section Events.
Context `{X : Sdk} `{ND : Nondet}.

Record dbEvent := MkDbEvent {
  e_TxHash : string;
  e_Event : DiagnosticEvent;
  e_Cursor : string;
  e_CloseTime : Z;
}.

Record eventHandler := MkEventHandler {
  eh_stmtCache : bool; (* stmtCache != nil *)
  eh_passphrase : string;
  eh_pending : list dbEvent;
}.

Definition set_eh_pending (p : list dbEvent) (h : eventHandler) : eventHandler :=
  MkEventHandler (eh_stmtCache h) (eh_passphrase h) p.

(** ** Cursors *)

Definition stage_string (s : TransactionEventStage) : string :=
  match s with
  | BeforeAllTxs => "0" | AfterTx => "1" | AfterAllTxs => "2" | UnknownStage n => pretty n
  end.

(** [txEventIndices.cursor] *)
Definition cursor (indices : txEventIndices) (stage : TransactionEventStage) (ledgerSeq txIndex : Z)
    : Res (Cursor * txEventIndices) :=
  match stage with
  | BeforeAllTxs =>
      Ok (MkCursor ledgerSeq 0 0 (beforeAll indices),
          MkTxEventIndices (u32 (beforeAll indices + 1)) (afterAll indices) (afterTx indices))
  | AfterAllTxs =>
      Ok (MkCursor ledgerSeq TransactionMask 0 (afterAll indices),
          MkTxEventIndices (beforeAll indices) (u32 (afterAll indices + 1)) (afterTx indices))
  | AfterTx =>
      Ok (MkCursor ledgerSeq txIndex OperationMask (afterTx indices),
          MkTxEventIndices (beforeAll indices) (afterAll indices) (u32 (afterTx indices + 1)))
  | UnknownStage _ => Err (EMsg ("unhandled event phase: " +:+ stage_string stage))
  end.

(** The transaction-level events with their cursors, up to the first error. *)
Fixpoint stage_cursors (ledgerSeq txIndex : Z) (indices : txEventIndices)
    (evs : list TransactionEvent) : list (ContractEvent * Cursor) * Res txEventIndices :=
  match evs with
  | [] => ([], Ok indices)
  | event :: evs =>
      match cursor indices (TE_Stage event) ledgerSeq txIndex with
      | Ok (c, indices) =>
          let '(l, r) := stage_cursors ledgerSeq txIndex indices evs in ((TE_Event event, c) :: l, r)
      | Err e => ([], Err e)
      | Panic m => ([], Panic m)
      end
  end.

(** The operation events with their cursors. *)
Fixpoint op_event_cursors (ledgerSeq txIndex : Z) (opIndex eventIndex : nat)
    (evs : list ContractEvent) : list (ContractEvent * Cursor) :=
  match evs with
  | [] => []
  | ev :: evs =>
      (ev, MkCursor ledgerSeq txIndex (u32 (Z.of_nat opIndex)) (u32 (Z.of_nat eventIndex)))
      :: op_event_cursors ledgerSeq txIndex opIndex (S eventIndex) evs
  end.

Fixpoint op_cursors (ledgerSeq txIndex : Z) (opIndex : nat) (opEvents : list (list ContractEvent))
    : list (ContractEvent * Cursor) :=
  match opEvents with
  | [] => []
  | innerOpEvents :: opEvents =>
      op_event_cursors ledgerSeq txIndex opIndex 0 innerOpEvents
      ++ op_cursors ledgerSeq txIndex (S opIndex) opEvents
  end.

Definition db_event_of (lcm : LedgerCloseMeta) (tx : LedgerTransaction)
    (ec : ContractEvent * Cursor) : dbEvent :=
  {| e_TxHash := tx_Hash tx;
     e_Event := {| InSuccessfulContractCall := tx_Successful tx; DE_Event := fst ec |};
     e_Cursor := Cursor_String (snd ec);
     e_CloseTime := LedgerCloseTime lcm |}.

(** ** Writing *)

Fixpoint marshal_topics (topics : list ScVal) : Res (list (option string)) :=
  match topics with
  | [] => Ok []
  | t :: ts => b ← ScVal_MarshalBinary t; bs ← marshal_topics ts; Ok (Some b :: bs)
  end.

(** [insertEvents]: the row of one event. *)
Definition insertEvents (event : dbEvent) : Res (string * ev_row) :=
  eventBlob ← DiagnosticEvent_MarshalBinary (e_Event event);
  match CE_V0 (DE_Event (e_Event event)) with
  | None => Err (EMsg "unknown event version")
  | Some (topics, _) =>
      segs ← marshal_topics (take MaxTopicCount topics);
      let topicList := segs ++ replicate (MaxTopicCount - length segs) None in
      t1 ← index topicList 0; t2 ← index topicList 1; t3 ← index topicList 2; t4 ← index topicList 3;
      Ok (e_Cursor event,
          {| ev_contract_id := CE_ContractId (DE_Event (e_Event event));
             ev_type := CE_Type (DE_Event (e_Event event));
             ev_data := eventBlob;
             ev_close_time := e_CloseTime event;
             ev_tx_hash := e_TxHash event;
             ev_topics := [t1; t2; t3; t4] |})
  end.

(** INSERT INTO events: refused as a whole when an id repeats or when the ten
    variables of its rows are more than a statement binds. *)
Definition insert_ev_rows (rows : list (string * ev_row)) (t : tables) : Res tables :=
  bind_limited 10 rows $
  if bool_decide (NoDup rows.*1) && forallb (fun p => bool_decide (t_events t !! fst p = None)) rows
  then Ok (set_events (list_to_map rows ∪ t_events t) t)
  else Err (EExt "UNIQUE constraint failed: events.id").

Definition flush_evs (n : nat) : M (eventHandler * session) unit :=
  '(h, _) ← get;
  (if decide (length (eh_pending h) < n)%nat
   then panic "slice bounds out of range" else mret tt) ;;
  rows ← of_res (res_map insertEvents (take n (eh_pending h)));
  zoom2 (sql_exec (insert_ev_rows rows)) ;;
  zoom1 (modify (set_eh_pending (drop n (eh_pending h)))).

Definition flushPending_evs : M (eventHandler * session) unit :=
  '(h, _) ← get;
  if decide (length (eh_pending h) = 0%nat) then mret tt
  else flush_evs (length (eh_pending h)).

Definition append_pending (evs : list dbEvent) : M (eventHandler * session) unit :=
  zoom1 (modify (fun h => set_eh_pending (eh_pending h ++ evs) h)).

(** The read loop of [InsertEvents]. *)
Fixpoint insert_events_loop (lcm : LedgerCloseMeta) (indices : txEventIndices)
    (reader : list (Res LedgerTransaction)) : M (eventHandler * session) unit :=
  match reader with
  | [] => mret tt (* io.EOF *)
  | Err e :: _ => if errors_Is e EOF then mret tt else fail e
  | Panic m :: _ => panic m
  | Ok tx :: reader =>
      allEvents ← of_res (GetTransactionEvents tx);
      let indices := MkTxEventIndices (beforeAll indices) (afterAll indices) 0 in
      let '(evs, r) := stage_cursors (LedgerSequence lcm) (tx_Index tx) indices (TxEvents allEvents) in
      append_pending (db_event_of lcm tx <$> evs) ;;
      indices ← of_res r;
      append_pending (db_event_of lcm tx <$>
        op_cursors (LedgerSequence lcm) (tx_Index tx) 0 (OperationEvents allEvents)) ;;
      '(h, _) ← get;
      flush_full_batches (length (eh_pending h)) (fun s => length (eh_pending (fst s)))
        maxEventsPerBatch flush_evs ;;
      insert_events_loop lcm indices reader
  end.

Definition InsertEvents (lcm : LedgerCloseMeta) : M (eventHandler * session) unit :=
  '(h, _) ← get;
  if negb (eh_stmtCache h) then
    fail (EMsg "EventWriter incorrectly initialized without stmtCache")
  else if decide (CountTransactions lcm = 0) then mret tt
  else
    txReader ← map_err (fun e => EJoin e (EMsg ("failed to open transaction reader for ledger "
                                              +:+ pretty (LedgerSequence lcm))))
                 (of_res (NewLedgerTransactionReader (eh_passphrase h) lcm));
    insert_events_loop lcm (MkTxEventIndices 0 0 0) txReader.

(** SQLite's [<] on TEXT: bytewise. *)
Definition str_lt (a b : string) : Prop := String.le a b /\ a <> b.

#[global] Instance str_lt_dec a b : Decision (str_lt a b).
Proof. unfold str_lt. apply _. Defined.

(** DELETE FROM events WHERE id < Cursor{Ledger: cutoff} *)
Definition trimEvents (latestLedgerSeq retentionWindow : Z) : M (eventHandler * session) unit :=
  match trim_cutoff latestLedgerSeq retentionWindow with
  | None => mret tt
  | Some cutoff =>
      let id := Cursor_String (MkCursor cutoff 0 0 0) in
      zoom2 (sql_exec (fun t =>
        Ok (set_events (filter (fun p => ~ str_lt (fst p) id) (t_events t)) t)))
  end.

(** ** Reading *)

(** The equality of a topic column with a value; NULL equals nothing. *)
Definition topic_cond_holds (row : ev_row) (c : TopicCondition) : bool :=
  match ev_topics row !! Z.to_nat (TC_Column c - 1) with
  | Some (Some v) => bool_decide (v = TC_Value c)
  | _ => false
  end.

(** The columns named by the topic filters; the table has topic1 to topic4. *)
Definition topic_columns_ok (topics : TopicFilters) : bool :=
  forallb (forallb (fun c => bool_decide (1 <= TC_Column c <= 4))) topics.

(** The WHERE clause of [GetEvents]. *)
Definition row_selected (cursorRange : CursorRange) (contractIDs : list string)
    (topics : TopicFilters) (eventTypes : list Z) (p : string * ev_row) : bool :=
  let '(id, row) := p in
  bool_decide (String.le (Cursor_String (CR_Start cursorRange)) id) &&
  bool_decide (str_lt id (Cursor_String (CR_End cursorRange))) &&
  (if decide (0 < length contractIDs)%nat then
     match ev_contract_id row with Some c => bool_decide (c ∈ contractIDs) | None => false end
   else true) &&
  (if decide (0 < length eventTypes)%nat then bool_decide (ev_type row ∈ eventTypes) else true) &&
  (let ors := filter (fun f => length f <> 0%nat) topics in
   if decide (0 < length ors)%nat then existsb (forallb (topic_cond_holds row)) ors else true).

Definition select_events (cursorRange : CursorRange) (contractIDs : list string)
    (topics : TopicFilters) (eventTypes : list Z) (t : tables) : list (string * ev_row) :=
  filter (fun p => row_selected cursorRange contractIDs topics eventTypes p = true)
    (rows_by_key String.le (t_events t)).

(** Scanning the rows until the callback asks to stop. *)
Fixpoint scan_rows {S} (rows : list (string * ev_row))
    (scanner : DiagnosticEvent -> Cursor -> Z -> string -> M S bool) : M S unit :=
  match rows with
  | [] => mret tt
  | (id, row) :: rows =>
      cur ← map_err (fun e => EJoin e (EMsg "failed to parse cursor")) (of_res (ParseCursor id));
      event ← map_err (fun e => EJoin e (EMsg "failed to decode event"))
                (of_res (DiagnosticEvent_UnmarshalBinary (ev_data row)));
      continue ← scanner event cur (ev_close_time row) (ev_tx_hash row);
      if (continue : bool) then scan_rows rows scanner else mret tt
  end.

Definition GetEvents {S} (cursorRange : CursorRange) (contractIDs : list string)
    (topics : TopicFilters) (eventTypes : list Z)
    (scanner : DiagnosticEvent -> Cursor -> Z -> string -> M S bool) : M (S * session) unit :=
  _ ← map_err (fun e => EJoin e (EMsg "failed to encode contract id"))
        (of_res (res_map strkey_EncodeContract contractIDs));
  rows ← map_err (fun e => EJoin e (EMsg "db read failed for requested parameter"))
           (zoom2 (statement (fun t =>
              if topic_columns_ok topics
              then Ok (select_events cursorRange contractIDs topics eventTypes t, t)
              else Err (EExt "no such column"))));
  zoom1 (scan_rows rows scanner).

End Events.

Section CursorLemmas.
Context `{X : Sdk} `{ND : Nondet} `{CL : !SdkCursorLaws}.

(** Where the cursors of the transactions [lo .. hi - 1] lie, with the ledger's
    stage counters going from [ix] to [ix']. *)
Definition cursor_zone (seq lo hi : Z) (ix ix' : txEventIndices) (c : Cursor) : Prop :=
  C_Ledger c = seq /\
  ((C_Tx c = 0 /\ C_Op c = 0 /\ beforeAll ix <= C_Event c < beforeAll ix') \/
   (C_Tx c = TransactionMask /\ C_Op c = 0 /\ afterAll ix <= C_Event c < afterAll ix') \/
   (lo <= C_Tx c < hi /\ 0 <= C_Op c <= OperationMask /\ is_u32 (C_Event c))).

(** The transaction-level cursors of one transaction. *)
Definition stage_zone (seq i : Z) (ix ix' : txEventIndices) (c : Cursor) : Prop :=
  C_Ledger c = seq /\
  ((C_Tx c = 0 /\ C_Op c = 0 /\ beforeAll ix <= C_Event c < beforeAll ix') \/
   (C_Tx c = TransactionMask /\ C_Op c = 0 /\ afterAll ix <= C_Event c < afterAll ix') \/
   (C_Tx c = i /\ C_Op c = OperationMask /\ afterTx ix <= C_Event c < afterTx ix')).

Definition indices_ok (n : Z) (ix : txEventIndices) : Prop :=
  0 <= beforeAll ix /\ 0 <= afterAll ix /\ 0 <= afterTx ix /\
  beforeAll ix + n < 2 ^ 32 /\ afterAll ix + n < 2 ^ 32 /\ afterTx ix + n < 2 ^ 32.

Definition indices_le (ix ix' : txEventIndices) : Prop :=
  beforeAll ix <= beforeAll ix' /\ afterAll ix <= afterAll ix'.

Lemma stage_cursors_spec seq i ix evs l ix' :
  0 < i < TransactionMask -> indices_ok (zlen evs) ix ->
  stage_cursors seq i ix evs = (l, Ok ix') ->
  NoDup l.*2 /\ Forall (stage_zone seq i ix ix') l.*2 /\ indices_le ix ix' /\
  afterTx ix <= afterTx ix' /\
  (forall n, indices_ok (zlen evs + n) ix -> indices_ok n ix').
Proof.
  intros Hi. revert ix l. induction evs as [|ev evs IH]; intros ix l Hok; csimpl.
  - intros [= <- <-]. split_and!; [constructor|constructor|unfold indices_le; lia|lia|done].
  - rewrite zlen_cons in Hok. pose proof (zlen_nonneg evs).
    destruct (cursor ix (TE_Stage ev) seq i) as [[c ix1]|e|m] eqn:Hc; [|done..].
    destruct (stage_cursors seq i ix1 evs) as [l1 r1] eqn:Hs. intros [= <- ->].
    assert (indices_ok (zlen evs) ix1 /\ indices_le ix ix1 /\ afterTx ix <= afterTx ix1 /\
      stage_zone seq i ix ix1 c /\ (forall c', stage_zone seq i ix1 ix' c' -> c' <> c) /\
      (forall n, indices_ok (zlen evs + 1 + n) ix -> indices_ok (zlen evs + n) ix1))
      as (H1&H2&H3&H4&H5&H6).
    { unfold indices_ok, indices_le, stage_zone in *.
      destruct (TE_Stage ev); simplify_eq/=; rewrite u32_small by (unfold_ints; lia);
        split_and!; try lia; first [intros c' Hz ->; simpl in Hz; lia|intros n Hn; lia]. }
    destruct (IH ix1 l1 H1 Hs) as (N&F&L&A&G). csimpl. split_and!.
    + apply NoDup_cons. split; [|done]. intros Hin.
      rewrite Forall_forall in F. by apply (H5 _ (F _ Hin)).
    + constructor; [|eapply Forall_impl; [exact F|intros c']];
        unfold stage_zone, indices_le in *; lia.
    + unfold indices_le in *; lia.
    + lia.
    + intros n Hn. rewrite zlen_cons in Hn. by apply G, H6.
Qed.

Lemma op_event_cursors_spec seq i op k evs :
  Z.of_nat op < 2 ^ 32 -> Z.of_nat k + zlen evs < 2 ^ 32 ->
  NoDup (op_event_cursors seq i op k evs).*2 /\
  Forall (fun c => C_Ledger c = seq /\ C_Tx c = i /\ C_Op c = Z.of_nat op /\
                   Z.of_nat k <= C_Event c < 2 ^ 32) (op_event_cursors seq i op k evs).*2.
Proof.
  revert k; induction evs as [|ev evs IH]; intros k Ho Hk; csimpl; [split; constructor|].
  rewrite zlen_cons in Hk. pose proof (zlen_nonneg evs).
  rewrite !u32_small by (unfold_ints; lia).
  destruct (IH (S k)) as [N F]; [done|lia|]. split.
  - apply NoDup_cons. split; [|done]. rewrite Forall_forall in F.
    intros Hin%F. simpl in Hin. lia.
  - constructor; [simpl; lia|]. eapply Forall_impl; [exact F|]. intros c. simpl. lia.
Qed.

Lemma op_cursors_spec seq i op ops :
  Z.of_nat op + zlen ops < 2 ^ 32 -> Forall (fun evs => zlen evs < 2 ^ 32) ops ->
  NoDup (op_cursors seq i op ops).*2 /\
  Forall (fun c => C_Ledger c = seq /\ C_Tx c = i /\
    Z.of_nat op <= C_Op c < Z.of_nat op + zlen ops /\ is_u32 (C_Event c)) (op_cursors seq i op ops).*2.
Proof.
  revert op; induction ops as [|evs ops IH]; intros op Ho HF; csimpl; [split; constructor|].
  rewrite zlen_cons in *. apply Forall_cons in HF as [He HF]. pose proof (zlen_nonneg ops).
  destruct (op_event_cursors_spec seq i op 0 evs) as [N1 F1]; [lia|lia|].
  destruct (IH (S op)) as [N2 F2]; [lia|done|]. rewrite fmap_app.
  rewrite Forall_forall in F1, F2. split.
  - apply NoDup_app. split_and!; [done| |done]. intros c H1%F1 H2%F2. lia.
  - apply Forall_app; split; apply Forall_forall; unfold_ints; [intros c H1%F1|intros c H2%F2]; lia.
Qed.

(** The events of the transactions of a ledger, each with its cursor. *)
Fixpoint ledger_cursors (seq : Z) (ix : txEventIndices) (txs : list LedgerTransaction)
    : Res (list (LedgerTransaction * (ContractEvent * Cursor))) :=
  match txs with
  | [] => Ok []
  | tx :: txs =>
      evs ← GetTransactionEvents tx;
      let '(l, r) := stage_cursors seq (tx_Index tx)
                       (MkTxEventIndices (beforeAll ix) (afterAll ix) 0) (TxEvents evs) in
      ix' ← r;
      rest ← ledger_cursors seq ix' txs;
      Ok ((pair tx <$> l ++ op_cursors seq (tx_Index tx) 0 (OperationEvents evs)) ++ rest)
  end.

(** The number of transaction-level events, and the sizes the encoding allows. *)
Fixpoint tx_event_count (txs : list LedgerTransaction) : Z :=
  match txs with
  | [] => 0
  | tx :: txs =>
      match GetTransactionEvents tx with Ok evs => zlen (TxEvents evs) | _ => 0 end
      + tx_event_count txs
  end.

Definition op_events_fit (tx : LedgerTransaction) : Prop :=
  forall evs, GetTransactionEvents tx = Ok evs ->
    zlen (OperationEvents evs) <= OperationMask /\ zlen (OperationEvents evs) < 2 ^ 32 /\
    Forall (fun es => zlen es < 2 ^ 32) (OperationEvents evs).

Lemma tx_event_count_nonneg txs : 0 <= tx_event_count txs.
Proof.
  induction txs as [|tx txs IH]; simpl; [lia|].
  destruct (GetTransactionEvents tx) as [evs| |]; try lia.
  pose proof (zlen_nonneg (TxEvents evs)). lia.
Qed.

Lemma ledger_cursors_zone seq lo ix txs l :
  0 < lo -> lo + zlen txs <= TransactionMask ->
  (forall k tx, txs !! k = Some tx -> tx_Index tx = lo + Z.of_nat k) ->
  Forall op_events_fit txs ->
  0 <= beforeAll ix -> 0 <= afterAll ix ->
  beforeAll ix + tx_event_count txs < 2 ^ 32 -> afterAll ix + tx_event_count txs < 2 ^ 32 ->
  ledger_cursors seq ix txs = Ok l ->
  exists ix', NoDup (snd <$> l).*2 /\
    Forall (cursor_zone seq lo (lo + zlen txs) ix ix') (snd <$> l).*2 /\ indices_le ix ix' /\
    beforeAll ix' < 2 ^ 32 /\ afterAll ix' < 2 ^ 32.
Proof.
  revert lo ix l. induction txs as [|tx txs IH]; intros lo ix l Hlo Hhi Hidx Hfit Hb Ha Hbn Han; csimpl.
  { intros [= <-]. exists ix. simpl in *. split_and!; [constructor|constructor|unfold indices_le; lia|lia..]. }
  pose proof (tx_event_count_nonneg txs) as Hc0. pose proof masks_nonneg as [_ HOM].
  rewrite zlen_cons in *. pose proof (zlen_nonneg txs). simpl in Hbn, Han.
  assert (tx_Index tx = lo) as Htx by (rewrite (Hidx 0%nat tx) by done; lia).
  apply Forall_cons in Hfit as [Hf Hfit]. rewrite Htx. unfold mbind, Res_bind.
  destruct (GetTransactionEvents tx) as [evs|e|m] eqn:Hg; [|done..].
  destruct (Hf _ Hg) as (Ho1&Ho2&Ho3). pose proof (zlen_nonneg (TxEvents evs)).
  destruct (stage_cursors _ _ _ _) as [l1 r1] eqn:Hs. destruct r1 as [ix1| |]; [|done..].
  destruct (ledger_cursors seq ix1 txs) as [rest| |] eqn:Hr; [|done..]. intros [= <-].
  apply stage_cursors_spec in Hs as (N1&F1&L1&_&G1); [|lia|unfold indices_ok; simpl; lia].
  destruct (op_cursors_spec seq lo 0 (OperationEvents evs)) as [N2 F2]; [lia|done|].
  destruct (G1 (tx_event_count txs)) as (?&?&?&?&?&?); [unfold indices_ok; simpl; lia|].
  destruct (IH (lo + 1) ix1 rest) as (ix2&N3&F3&L3&B3&A3); try done; try lia.
  { intros k tx' Hk. rewrite (Hidx (S k) tx') by done. lia. }
  exists ix2. unfold indices_le in *. simpl in L1. pose proof (zlen_nonneg (OperationEvents evs)).
  rewrite fmap_app, snd_fmap_pair, !fmap_app.
  rewrite Forall_forall in F1, F2, F3. split_and!; try lia.
  - apply NoDup_app. split_and!; [apply NoDup_app; split_and!; [done| |done]| |done].
    + intros c Q1%F1 Q2%F2. unfold stage_zone in Q1. lia.
    + intros c [Q1%F1|Q2%F2]%elem_of_app Q3%F3; unfold stage_zone, cursor_zone in *; simpl in *; lia.
  - rewrite !Forall_app. split_and!; apply Forall_forall; unfold_ints.
    + intros c Q1%F1. unfold stage_zone, cursor_zone in *. unfold_ints. simpl in *. lia.
    + intros c Q2%F2. unfold cursor_zone. unfold_ints. lia.
    + intros c Q3%F3. unfold cursor_zone in *. unfold_ints. lia.
Qed.

End CursorLemmas.

Section WriterLemmas.
Context `{X : Sdk} `{ND : Nondet}.

(** What the tables hold besides the events. *)
Definition same_but_events (t t' : tables) : Prop := t' = set_events (t_events t') t.

Lemma same_but_events_refl t : same_but_events t t.
Proof. by destruct t. Qed.

Lemma same_but_events_trans t1 t2 t3 :
  same_but_events t1 t2 -> same_but_events t2 t3 -> same_but_events t1 t3.
Proof. unfold same_but_events. intros -> ->. done. Qed.

Lemma insertEvents_id e p : insertEvents e = Ok p -> fst p = e_Cursor e.
Proof.
  unfold insertEvents, mbind, Res_bind. intros H. by repeat (case_match; simplify_eq/=).
Qed.

Lemma insertEvents_ids evs rows :
  res_map insertEvents evs = Ok rows -> rows.*1 = e_Cursor <$> evs.
Proof.
  revert rows; induction evs as [|e evs IH]; intros rows; csimpl; [by intros [= <-]|].
  unfold mbind, Res_bind. destruct (insertEvents e) as [p| |] eqn:He; [|done..].
  destruct (res_map insertEvents evs) as [ps| |]; [|done..]. intros [= <-]. csimpl.
  by rewrite (insertEvents_id _ _ He), (IH ps).
Qed.

Lemma insert_ev_rows_fresh rows t :
  10 * zlen rows <= maxVariables ->
  NoDup rows.*1 -> (forall id, id ∈ rows.*1 -> t_events t !! id = None) ->
  insert_ev_rows rows t = Ok (set_events (list_to_map rows ∪ t_events t) t).
Proof.
  intros Hv Hn Hf. unfold insert_ev_rows. rewrite bind_limited_within, bool_decide_eq_true_2 by done. simpl.
  assert (forallb (fun p => bool_decide (t_events t !! fst p = None)) rows = true) as ->; [|done].
  apply forallb_forall. intros p Hp. apply bool_decide_eq_true. apply Hf.
  apply list_elem_of_fmap_2. by apply list_elem_of_In.
Qed.

(** The state of the writer once it has produced the events [evs]: a prefix
    of their rows is in the table, the other events are in the buffer. *)
Definition ev_progress (t0 : tables) (evs : list dbEvent) (rows : list (string * ev_row))
    (st : eventHandler * session) : Prop :=
  exists done_rows rest, rows = done_rows ++ rest /\
    exists done_evs, evs = done_evs ++ eh_pending (fst st) /\
    res_map insertEvents (eh_pending (fst st)) = Ok rest /\
    t_events (s_tab (snd st)) = list_to_map done_rows ∪ t_events t0 /\
    same_but_events t0 (s_tab (snd st)) /\ s_faults (snd st) = [].

Section Progress.
Context (t0 : tables).

Definition rows_fresh (rows : list (string * ev_row)) : Prop :=
  NoDup rows.*1 /\ forall id, id ∈ rows.*1 -> t_events t0 !! id = None.

Lemma rows_fresh_app r1 r2 : rows_fresh (r1 ++ r2) -> rows_fresh r1.
Proof.
  unfold rows_fresh. rewrite fmap_app. intros [(H1&H2&H3)%NoDup_app H4].
  split; [done|]. intros. apply H4. set_solver.
Qed.

Lemma flush_evs_progress n evs rows st :
  (n <= length (eh_pending (fst st)))%nat -> (n <= maxEventsPerBatch)%nat ->
  rows_fresh rows -> ev_progress t0 evs rows st ->
  exists st', flush_evs n st = (Ok tt, st') /\ ev_progress t0 evs rows st' /\
    fst st' = set_eh_pending (drop n (eh_pending (fst st))) (fst st).
Proof.
  destruct st as [h s]. intros Hn Hmax Hfr (dr&rest&->&de&->&Hr&Ht&Hs&Hf). simpl in *.
  rewrite <- (take_drop n (eh_pending h)) in Hr.
  apply res_map_app in Hr as (r1&r2&Hr1&Hr2&->).
  destruct Hfr as [Hnd Hno]. rewrite !fmap_app in Hnd. apply NoDup_app in Hnd as (Hd1&Hd2&Hd3).
  assert (forall id, id ∈ r1.*1 -> t_events (s_tab s) !! id = None) as Hfree.
  { intros id Hid. rewrite Ht, lookup_union_None. split.
    - apply not_elem_of_list_to_map_1. intros Hin. apply (Hd2 _ Hin). set_solver.
    - apply Hno. rewrite !fmap_app. set_solver. }
  unfold flush_evs. unfold_m. simpl. rewrite decide_False by lia. simpl. rewrite Hr1.
  rewrite (sql_exec_ok _ _ (set_events (list_to_map r1 ∪ t_events (s_tab s)) (s_tab s))); [|done|].
  2: { apply insert_ev_rows_fresh; [|by apply NoDup_app in Hd3 as (?&_)|done].
       pose proof (f_equal length (insertEvents_ids _ _ Hr1)) as Hlen.
       rewrite !length_fmap, length_take in Hlen.
       unfold maxEventsPerBatch, maxVariables, zlen in *. lia. }
  eexists. split; [done|]. split; [|done].
  exists (dr ++ r1), r2. split; [by rewrite <- app_assoc|].
  exists (de ++ take n (eh_pending h)). simpl.
  split_and!; [by rewrite <- app_assoc, take_drop|done| |..|done].
  - rewrite Ht, map_union_assoc, list_to_map_app. f_equal. apply map_union_comm.
    apply map_disjoint_list_to_map_l. apply Forall_forall. intros p Hp.
    apply not_elem_of_list_to_map_1. intros Hin. apply (Hd2 _ Hin).
    apply elem_of_app. left. by apply list_elem_of_fmap_2.
  - eapply same_but_events_trans; [done|]. by destruct (s_tab s).
Qed.

Lemma append_progress evs new rows nrows st :
  res_map insertEvents new = Ok nrows -> ev_progress t0 evs rows st ->
  exists st', append_pending new st = (Ok tt, st') /\ ev_progress t0 (evs ++ new) (rows ++ nrows) st' /\
    fst st' = set_eh_pending (eh_pending (fst st) ++ new) (fst st).
Proof.
  destruct st as [h s]. intros Hnew (dr&rest&->&de&->&Hr&Ht&Hs&Hf). simpl in *.
  eexists. split; [done|]. split; [|done].
  exists dr, (rest ++ nrows). split; [by rewrite app_assoc|].
  exists de. simpl. split_and!; [by rewrite app_assoc| |done..].
  apply res_map_app. eauto.
Qed.

Lemma flush_full_progress evs rows fuel st :
  (length (eh_pending (fst st)) <= fuel)%nat -> rows_fresh rows -> ev_progress t0 evs rows st ->
  exists st', flush_full_batches fuel (fun s => length (eh_pending (fst s))) maxEventsPerBatch
                flush_evs st = (Ok tt, st') /\ ev_progress t0 evs rows st' /\
    eh_stmtCache (fst st') = eh_stmtCache (fst st) /\
    (length (eh_pending (fst st')) < maxEventsPerBatch)%nat.
Proof.
  intros Hfuel Hfr. revert st Hfuel. induction fuel as [|fuel IH]; intros st Hfuel HP; simpl;
    case_decide as Hd.
  - unfold maxEventsPerBatch in Hd. lia.
  - exists st. split_and!; [done..|lia].
  - destruct (flush_evs_progress maxEventsPerBatch evs rows st) as (st1&Hf&HP1&Hst1); [done..|].
    unfold_m. rewrite Hf. destruct (IH st1) as (st2&Hst2); [|done|].
    + rewrite Hst1. simpl. rewrite length_drop. unfold maxEventsPerBatch in *. lia.
    + exists st2. rewrite Hst1 in Hst2. by destruct (fst st).
  - exists st. split_and!; [done..|lia].
Qed.

Lemma flushPending_progress evs rows st :
  (length (eh_pending (fst st)) < maxEventsPerBatch)%nat ->
  rows_fresh rows -> ev_progress t0 evs rows st ->
  exists st', flushPending_evs st = (Ok tt, st') /\ eh_pending (fst st') = [] /\
    t_events (s_tab (snd st')) = list_to_map rows ∪ t_events t0 /\
    same_but_events t0 (s_tab (snd st')) /\ s_faults (snd st') = [].
Proof.
  intros Hmax Hfr HP. unfold flushPending_evs, mbind, M_bind, get. simpl.
  destruct st as [h s]. simpl. case_decide as Hl.
  - apply length_zero_iff_nil in Hl. destruct HP as (dr&rest&->&de&->&Hr&Ht&Hs&Hf). simpl in *.
    rewrite Hl in Hr. simpl in Hr. simplify_eq. exists (h, s). by rewrite app_nil_r.
  - destruct (flush_evs_progress (length (eh_pending h)) evs rows (h, s))
      as ([h' s']&Hrun&(dr&rest&->&de&->&Hr&Ht&Hs&Hf)&Hst); [done|simpl in *; lia|done..|].
    simpl in *. rewrite Hrun. exists (h', s'). subst h'. rewrite drop_all in *. simpl in *.
    simplify_eq. by rewrite app_nil_r.
Qed.

(** The events of a ledger, in the order they are produced. *)
Definition ledger_events (lcm : LedgerCloseMeta)
    (l : list (LedgerTransaction * (ContractEvent * Cursor))) : list dbEvent :=
  (fun p => db_event_of lcm (fst p) (snd p)) <$> l.

Lemma insert_events_loop_progress lcm ix txs l evs rows nrows st :
  ledger_cursors (LedgerSequence lcm) ix txs = Ok l ->
  res_map insertEvents (ledger_events lcm l) = Ok nrows ->
  rows_fresh (rows ++ nrows) -> ev_progress t0 evs rows st ->
  exists st', insert_events_loop lcm ix (Ok <$> txs) st = (Ok tt, st') /\
    ev_progress t0 (evs ++ ledger_events lcm l) (rows ++ nrows) st' /\
    (txs <> [] -> (length (eh_pending (fst st')) < maxEventsPerBatch)%nat).
Proof.
  revert ix l evs rows nrows st.
  induction txs as [|tx txs IH]; intros ix l evs rows nrows st; csimpl.
  { intros [= <-]. csimpl. intros [= <-] _ HP. exists st. by rewrite !app_nil_r. }
  unfold mbind at 1 2, Res_bind. destruct (GetTransactionEvents tx) as [all| |]; [|done..].
  destruct (stage_cursors _ _ _ _) as [l1 r1] eqn:Hst. destruct r1 as [ix1| |]; [|done..].
  destruct (ledger_cursors _ ix1 txs) as [rest| |] eqn:Hrest; [|done..]. intros [= <-].
  set (g := fun p => db_event_of lcm (fst p) (snd p)).
  assert (forall k, g <$> (pair tx <$> k) = db_event_of lcm tx <$> k) as Hg
    by (intros k; by rewrite <- list_fmap_compose).
  unfold ledger_events. fold g. rewrite fmap_app, Hg, fmap_app. intros Hrows.
  apply res_map_app in Hrows as (n12&n3&Hn12&Hn3&->).
  apply res_map_app in Hn12 as (n1&n2&Hn1&Hn2&->). intros Hfr HP.
  destruct (append_progress _ _ _ _ st Hn1 HP) as (st1&Ha1&HP1&Hs1).
  destruct (append_progress _ _ _ _ st1 Hn2 HP1) as (st2&Ha2&HP2&Hs2).
  rewrite !app_assoc in Hfr.
  destruct (flush_full_progress _ _ (length (eh_pending (fst st2))) st2 (Nat.le_refl _)
    (rows_fresh_app _ _ Hfr) HP2) as (st3&Hfl&HP3&_&Hlt).
  destruct (IH ix1 rest _ _ n3 st3 Hrest Hn3 Hfr HP3) as (st4&Hrun&HP4&Hlt4).
  unfold append_pending, zoom1, modify in Ha1, Ha2. simplify_eq. csimpl in *.
  exists st4. unfold of_res, mbind, M_bind, get. csimpl. rewrite Hst. csimpl. rewrite Hfl.
  split_and!; [done|by rewrite !app_assoc|].
  intros _. destruct txs; [|by apply Hlt4]. by injection Hrun as <-.
Qed.

End Progress.

End WriterLemmas.

(** ** The events of a ledger by position

    What the writer is to store, said of the transactions alone: an event is
    the [i]-th transaction-level event of the [k]-th transaction, or the [j]-th
    event of its [i]-th operation, and its cursor depends on its position and,
    for the stages counted over the ledger, on the events before it. *)

Inductive event_pos := TxEventAt (k i : nat) | OpEventAt (k i j : nat).

Section EventPositions.
Context `{X : Sdk} `{ND : Nondet}.

Definition tx_events (tx : LedgerTransaction) : list TransactionEvent :=
  match GetTransactionEvents tx with Ok evs => TxEvents evs | _ => [] end.

Definition op_events (tx : LedgerTransaction) : list (list ContractEvent) :=
  match GetTransactionEvents tx with Ok evs => OperationEvents evs | _ => [] end.

Definition event_at (txs : list LedgerTransaction) (p : event_pos)
    : option (LedgerTransaction * ContractEvent) :=
  match p with
  | TxEventAt k i => tx ← txs !! k; te ← tx_events tx !! i; Some (tx, TE_Event te)
  | OpEventAt k i j => tx ← txs !! k; evs ← op_events tx !! i; ev ← evs !! j; Some (tx, ev)
  end.

Definition stage_count (st : TransactionEventStage) (evs : list TransactionEvent) : Z :=
  zlen (filter (fun te => TE_Stage te = st) evs).

Definition tx_events_at (txs : list LedgerTransaction) (k : nat) : list TransactionEvent :=
  from_option tx_events [] (txs !! k).

(** The transaction-level events of the ledger before the [i]-th of the [k]-th
    transaction. *)
Definition earlier (txs : list LedgerTransaction) (k i : nat) : list TransactionEvent :=
  concat (tx_events <$> take k txs) ++ take i (tx_events_at txs k).

(** The cursor an event is due: before all transactions, in its operation,
    after its transaction or after all transactions. *)
Definition event_cursor (seq : Z) (txs : list LedgerTransaction) (p : event_pos) : Cursor :=
  match p with
  | OpEventAt k i j => MkCursor seq (Z.of_nat k + 1) (Z.of_nat i) (Z.of_nat j)
  | TxEventAt k i =>
      match TE_Stage <$> tx_events_at txs k !! i with
      | Some BeforeAllTxs => MkCursor seq 0 0 (stage_count BeforeAllTxs (earlier txs k i))
      | Some AfterTx =>
          MkCursor seq (Z.of_nat k + 1) OperationMask (stage_count AfterTx (take i (tx_events_at txs k)))
      | Some AfterAllTxs => MkCursor seq TransactionMask 0 (stage_count AfterAllTxs (earlier txs k i))
      | _ => MkCursor 0 0 0 0
      end
  end.

(** The row that represents an event. *)
Definition stored_as (lcm : LedgerCloseMeta) (tx : LedgerTransaction) (ev : ContractEvent)
    (row : ev_row) : Prop :=
  DiagnosticEvent_MarshalBinary
    {| InSuccessfulContractCall := tx_Successful tx; DE_Event := ev |} = Ok (ev_data row) /\
  ev_contract_id row = CE_ContractId ev /\ ev_type row = CE_Type ev /\
  ev_close_time row = LedgerCloseTime lcm /\ ev_tx_hash row = tx_Hash tx /\
  exists topics data segs, CE_V0 ev = Some (topics, data) /\
    Forall2 (fun t b => ScVal_MarshalBinary t = Ok b) (take 4 topics) segs /\
    ev_topics row = (Some <$> segs) ++ replicate (4 - length segs) None.

Definition stages_known (tx : LedgerTransaction) : Prop :=
  exists evs, GetTransactionEvents tx = Ok evs /\
    Forall (fun te => forall n, TE_Stage te <> UnknownStage n) (TxEvents evs).

Lemma marshal_topics_spec ts l :
  marshal_topics ts = Ok l <->
  exists segs, Forall2 (fun t b => ScVal_MarshalBinary t = Ok b) ts segs /\ l = Some <$> segs.
Proof.
  revert l; induction ts as [|t ts IH]; intros l; csimpl.
  - split; [intros [= <-]; by exists []|]. intros (segs&H&->). by apply Forall2_nil_inv_l in H as ->.
  - unfold mbind, Res_bind. split.
    + destruct (ScVal_MarshalBinary t) as [b| |] eqn:Hb; [|done..].
      destruct (marshal_topics ts) as [bs| |]; [|done..]. intros [= <-].
      destruct (proj1 (IH bs) eq_refl) as (segs&H&->). exists (b :: segs). by split; [constructor|].
    + intros (segs&H&->). apply Forall2_cons_inv_l in H as (b&segs'&Hb&H&->). rewrite Hb.
      rewrite (proj2 (IH (Some <$> segs'))); [done|by exists segs'].
Qed.

(** [insertEvents] builds that row, under the cursor of the event. *)
Lemma insertEvents_stored lcm tx ev c id row :
  MaxTopicCount = 4%nat ->
  insertEvents (db_event_of lcm tx (ev, c)) = Ok (id, row) <->
  id = Cursor_String c /\ stored_as lcm tx ev row.
Proof.
  intros H4. unfold insertEvents, stored_as, mbind, Res_bind. simpl. rewrite H4.
  destruct (DiagnosticEvent_MarshalBinary _) as [blob| |] eqn:Hb; [|naive_solver..].
  destruct (CE_V0 ev) as [[topics data]|] eqn:Hv; [|naive_solver].
  destruct (marshal_topics (take 4 topics)) as [l| |] eqn:Hm.
  - pose proof Hm as (segs&HF&->)%marshal_topics_spec.
    assert (length segs <= 4)%nat as Hl.
    { apply Forall2_length in HF. rewrite length_take in HF. lia. }
    assert (exists t1 t2 t3 t4, (Some <$> segs) ++ replicate (4 - length (Some <$> segs)) None
      = [t1; t2; t3; t4]) as (t1&t2&t3&t4&E).
    { destruct segs as [|? [|? [|? [|? [|? ?]]]]]; simpl in *; try lia; by do 4 eexists. }
    rewrite E. simpl. split.
    + intros [= <- <-]. split; [done|]. simpl. split_and!; try done.
      exists topics, data, segs. rewrite length_fmap in E. done.
    + intros [-> (Hd&Hc&Ht&Hct&Hh&ts&dt&segs'&[= -> ->]&HF'&Hrow)].
      assert (Ok (Some <$> segs) = Ok (Some <$> segs')) as [= Es].
      { rewrite <- Hm. apply marshal_topics_spec. eauto. }
      apply (inj (fmap Some)) in Es as <-. rewrite length_fmap in E. rewrite E in Hrow. destruct row; simpl in *. by simplify_eq.
  - split; [done|]. intros [_ (_&_&_&_&_&ts&dt&segs&[= <- <-]&HF&_)].
    assert (marshal_topics (take 4 topics) = Ok (Some <$> segs)); [|congruence].
    apply marshal_topics_spec. eauto.
  - split; [done|]. intros [_ (_&_&_&_&_&ts&dt&segs&[= <- <-]&HF&_)].
    assert (marshal_topics (take 4 topics) = Ok (Some <$> segs)); [|congruence].
    apply marshal_topics_spec. eauto.
Qed.

(** ** The cursors the writer assigns *)

Lemma stage_count_app st l k : stage_count st (l ++ k) = stage_count st l + stage_count st k.
Proof. unfold stage_count. by rewrite filter_app, zlen_app. Qed.

Lemma stage_count_cons st te l :
  stage_count st (te :: l) = (if decide (TE_Stage te = st) then 1 else 0) + stage_count st l.
Proof. unfold stage_count. rewrite filter_cons. case_decide; [by rewrite zlen_cons; lia|lia]. Qed.

Lemma stage_count_le st l : 0 <= stage_count st l <= zlen l.
Proof.
  unfold stage_count. split; [apply zlen_nonneg|].
  pose proof (length_filter (fun te => TE_Stage te = st) l). unfold zlen. lia.
Qed.

(** The cursor of an event that follows [before] in its transaction. *)
Definition stage_cursor (seq i : Z) (ix : txEventIndices) (before : list TransactionEvent)
    (st : TransactionEventStage) : Cursor :=
  match st with
  | BeforeAllTxs => MkCursor seq 0 0 (beforeAll ix + stage_count BeforeAllTxs before)
  | AfterTx => MkCursor seq i OperationMask (afterTx ix + stage_count AfterTx before)
  | AfterAllTxs => MkCursor seq TransactionMask 0 (afterAll ix + stage_count AfterAllTxs before)
  | UnknownStage _ => MkCursor 0 0 0 0
  end.

Lemma stage_cursors_at seq i ix evs l ix' :
  indices_ok (zlen evs) ix -> stage_cursors seq i ix evs = (l, Ok ix') ->
  length l = length evs /\
  (forall n te, evs !! n = Some te ->
     l !! n = Some (TE_Event te, stage_cursor seq i ix (take n evs) (TE_Stage te))) /\
  beforeAll ix' = beforeAll ix + stage_count BeforeAllTxs evs /\
  afterAll ix' = afterAll ix + stage_count AfterAllTxs evs.
Proof.
  revert ix l; induction evs as [|ev evs IH]; intros ix l Hok; csimpl.
  { intros [= <- <-]. split_and!; [done|by intros []|unfold stage_count; simpl; llia..]. }
  rewrite zlen_cons in Hok. pose proof (zlen_nonneg evs).
  destruct (cursor ix (TE_Stage ev) seq i) as [[c ix1]|e|m] eqn:Hc; [|done..].
  destruct (stage_cursors seq i ix1 evs) as [l1 r1] eqn:Hs. intros [= <- ->].
  unfold indices_ok in *.
  assert (indices_ok (zlen evs) ix1 /\ c = stage_cursor seq i ix [] (TE_Stage ev) /\
    forall before st, stage_cursor seq i ix1 before st = stage_cursor seq i ix (ev :: before) st)
    as (H1&H2&H3).
  { unfold indices_ok. destruct (TE_Stage ev) eqn:Est; simplify_eq/=; rewrite u32_small by (unfold_ints; lia);
      (split_and!; [lia..|f_equal; unfold stage_count; simpl; llia|]);
      intros before []; unfold stage_cursor; try rewrite stage_count_cons, Est; simpl;
      repeat (case_decide; [done| ] || (case_decide; [ |done])); try done; f_equal; lia. }
  destruct (IH ix1 l1 H1 Hs) as (L&A&B&C). csimpl. split_and!.
  - lia.
  - intros [|n] te; csimpl; [by intros [= <-]; rewrite H2|]. intros Hn. rewrite (A _ _ Hn), H3. done.
  - specialize (H3 [] BeforeAllTxs). unfold stage_cursor in H3. injection H3 as H3.
    rewrite stage_count_cons in H3. rewrite B, stage_count_cons. lia.
  - specialize (H3 [] AfterAllTxs). unfold stage_cursor in H3. injection H3 as H3.
    rewrite stage_count_cons in H3. rewrite C, stage_count_cons. lia.
Qed.

Lemma op_event_cursors_at seq i op k evs ev c :
  Z.of_nat op < 2 ^ 32 -> Z.of_nat k + zlen evs < 2 ^ 32 ->
  (ev, c) ∈ op_event_cursors seq i op k evs <->
  exists j, evs !! j = Some ev /\ c = MkCursor seq i (Z.of_nat op) (Z.of_nat (k + j)).
Proof.
  revert k; induction evs as [|e evs IH]; intros k Ho Hk; csimpl.
  { split; [by intros ?%elem_of_nil|]. by intros (j&?&_). }
  rewrite zlen_cons in Hk. pose proof (zlen_nonneg evs).
  rewrite !u32_small by (unfold_ints; lia). rewrite elem_of_cons, (IH (S k)) by lia. split.
  - intros [[= -> ->]|(j&Hj&->)]; [exists 0%nat|exists (S j)]; (split; [done|]); do 2 f_equal; lia.
  - intros ([|j]&Hj&->); csimpl; [left; simplify_eq/=; do 3 f_equal; lia|right].
    exists j. split; [done|]. do 2 f_equal; lia.
Qed.

Lemma op_cursors_at seq i op ops ev c :
  Z.of_nat op + zlen ops < 2 ^ 32 -> Forall (fun evs => zlen evs < 2 ^ 32) ops ->
  (ev, c) ∈ op_cursors seq i op ops <->
  exists a b evs, ops !! a = Some evs /\ evs !! b = Some ev /\
    c = MkCursor seq i (Z.of_nat (op + a)) (Z.of_nat b).
Proof.
  revert op; induction ops as [|evs ops IH]; intros op Ho HF; csimpl.
  { split; [by intros ?%elem_of_nil|]. by intros (a&b&?&?&_). }
  rewrite zlen_cons in Ho. pose proof (zlen_nonneg ops). apply Forall_cons in HF as [He HF].
  rewrite elem_of_app, op_event_cursors_at, (IH (S op)) by lia || done. split.
  - intros [(j&Hj&->)|(a&b&es&?&?&->)].
    + exists 0%nat, j, evs. split_and!; [done..|]. f_equal; lia.
    + exists (S a), b, es. split_and!; [done..|]. f_equal; lia.
  - intros ([|a]&b&es&Ha&Hb&->); csimpl; [left|right].
    + simplify_eq/=. exists b. split; [done|]. f_equal; lia.
    + exists a, b, es. split_and!; [done..|]. f_equal; lia.
Qed.

(** [event_cursor] for the transactions from [lo] on, the counters of the
    ledger starting at [ix]. *)
Definition cursor_from (seq lo : Z) (ix : txEventIndices) (txs : list LedgerTransaction)
    (p : event_pos) : Cursor :=
  match p with
  | OpEventAt k i j => MkCursor seq (Z.of_nat k + lo) (Z.of_nat i) (Z.of_nat j)
  | TxEventAt k i =>
      match TE_Stage <$> tx_events_at txs k !! i with
      | Some AfterTx =>
          MkCursor seq (Z.of_nat k + lo) OperationMask (stage_count AfterTx (take i (tx_events_at txs k)))
      | Some st => stage_cursor seq lo ix (earlier txs k i) st
      | None => MkCursor 0 0 0 0
      end
  end.

Lemma event_cursor_from seq txs p : event_cursor seq txs p = cursor_from seq 1 (MkTxEventIndices 0 0 0) txs p.
Proof. destruct p as [k i|k i j]; simpl; [|done]. by destruct (TE_Stage <$> _) as [[]|]. Qed.

Definition shift_pos (p : event_pos) : event_pos :=
  match p with TxEventAt k i => TxEventAt (S k) i | OpEventAt k i j => OpEventAt (S k) i j end.

Lemma cursor_from_shift seq lo ix ix' tx txs p :
  beforeAll ix' = beforeAll ix + stage_count BeforeAllTxs (tx_events tx) ->
  afterAll ix' = afterAll ix + stage_count AfterAllTxs (tx_events tx) ->
  cursor_from seq lo ix (tx :: txs) (shift_pos p) = cursor_from seq (lo + 1) ix' txs p.
Proof.
  intros Hb Ha. destruct p as [k i|k i j]; simpl; [|f_equal; lia].
  unfold tx_events_at. simpl. destruct (TE_Stage <$> _) as [[| | |n]|]; simpl; try done;
    unfold earlier; csimpl; rewrite <- ?app_assoc, ?stage_count_app; f_equal; try lia.
  all: unfold tx_events_at; simpl; rewrite ?stage_count_app; lia.
Qed.

(** The events the writer produces are those of the ledger, each with the
    cursor its position is due. *)
Lemma ledger_cursors_at seq lo ix txs l tx ev c :
  0 < lo -> lo + zlen txs <= TransactionMask ->
  (forall k tx, txs !! k = Some tx -> tx_Index tx = lo + Z.of_nat k) ->
  Forall op_events_fit txs -> 0 <= beforeAll ix -> 0 <= afterAll ix ->
  beforeAll ix + tx_event_count txs < 2 ^ 32 -> afterAll ix + tx_event_count txs < 2 ^ 32 ->
  ledger_cursors seq ix txs = Ok l ->
  (tx, (ev, c)) ∈ l <->
  exists p, event_at txs p = Some (tx, ev) /\ c = cursor_from seq lo ix txs p.
Proof.
  revert lo ix l. induction txs as [|tx0 txs IH]; intros lo ix l Hlo Hhi Hidx Hfit Hb Ha Hbn Han; csimpl.
  { intros [= <-]. split; [by intros ?%elem_of_nil|]. intros ([]&?&_); done. }
  pose proof (tx_event_count_nonneg txs) as Hc0.
  rewrite zlen_cons in *. pose proof (zlen_nonneg txs). simpl in Hbn, Han.
  assert (tx_Index tx0 = lo) as Htx by (rewrite (Hidx 0%nat tx0) by done; lia).
  apply Forall_cons in Hfit as [Hf Hfit]. rewrite Htx. clear Htx. unfold mbind at 1 2, Res_bind.
  destruct (GetTransactionEvents tx0) as [evs|e|m] eqn:Hg; [|done..].
  assert (tx_events tx0 = TxEvents evs) as Hte by (unfold tx_events; by rewrite Hg).
  assert (op_events tx0 = OperationEvents evs) as Hoe by (unfold op_events; by rewrite Hg).
  destruct (Hf _ Hg) as (Ho1&Ho2&Ho3). pose proof (zlen_nonneg (TxEvents evs)).
  destruct (stage_cursors _ _ _ _) as [l1 r1] eqn:Hs. destruct r1 as [ix1| |]; [|done..].
  destruct (ledger_cursors seq ix1 txs) as [rest| |] eqn:Hr; [|done..]. intros [= <-].
  apply stage_cursors_at in Hs as (Hlen&Hat&Hb1&Ha1); [|unfold indices_ok; simpl; lia]. simpl in Hb1, Ha1.
  pose proof (stage_count_le BeforeAllTxs (TxEvents evs)). pose proof (stage_count_le AfterAllTxs (TxEvents evs)).
  rewrite elem_of_app, fmap_app, elem_of_app.
  rewrite (IH (lo + 1) ix1 rest) by (done || lia || (intros k tx' Hk; rewrite (Hidx (S k) tx') by done; lia)).
  assert (forall p, cursor_from seq lo ix (tx0 :: txs) (shift_pos p) = cursor_from seq (lo + 1) ix1 txs p) as Hsh
    by (intros p; by apply cursor_from_shift; rewrite Hte).
  assert (forall n te, TxEvents evs !! n = Some te ->
    cursor_from seq lo ix (tx0 :: txs) (TxEventAt 0 n) =
    stage_cursor seq lo (MkTxEventIndices (beforeAll ix) (afterAll ix) 0) (take n (TxEvents evs)) (TE_Stage te)) as Hz.
  { intros n te Hn. unfold cursor_from, tx_events_at, earlier. simpl. rewrite Hte, Hn. simpl.
    unfold tx_events_at. simpl. rewrite Hte. by destruct (TE_Stage te). }
  split.
  - intros [[Hin|Hin]|(p&Hp&->)].
    + apply list_elem_of_fmap in Hin as ([ev' c']&[= -> -> ->]&[n Hn]%list_elem_of_lookup).
      destruct (TxEvents evs !! n) as [te|] eqn:En.
      2: { apply lookup_ge_None in En. apply lookup_lt_Some in Hn. lia. }
      rewrite (Hat _ _ En) in Hn. injection Hn as <- <-. exists (TxEventAt 0 n).
      rewrite (Hz _ _ En). split; [|done]. simpl. by rewrite Hte, En.
    + apply list_elem_of_fmap in Hin as ([ev' c']&[= -> -> ->]&Hin).
      apply op_cursors_at in Hin as (a&b&es&Ea&Eb&->); [|lia|done].
      exists (OpEventAt 0 a b). simpl. rewrite Hoe, Ea. simpl. by rewrite Eb.
    + exists (shift_pos p). rewrite Hsh. split; [by destruct p|done].
  - intros ([[|k] i|[|k] i j]&Hp&->).
    + left. left. destruct (TxEvents evs !! i) as [te|] eqn:En; [|by simpl in Hp; rewrite Hte, En in Hp].
      rewrite (Hz _ _ En). simpl in Hp. rewrite Hte, En in Hp. injection Hp as <- <-.
      apply list_elem_of_fmap_2. eapply list_elem_of_lookup_2, Hat, En.
    + right. exists (TxEventAt k i). split; [done|]. by rewrite <- Hsh.
    + left. right. simpl in Hp. rewrite Hoe in Hp. destruct (OperationEvents evs !! i) as [es|] eqn:Ea; [|done].
      simpl in Hp. destruct (es !! j) as [ev'|] eqn:Eb; [|done]. injection Hp as <- <-.
      apply list_elem_of_fmap_2. apply op_cursors_at; [lia|done|]. by exists i, j, es.
    + right. exists (OpEventAt k i j). split; [done|]. by rewrite <- Hsh.
Qed.

(** With every stage known the cursors are assigned. *)
Lemma ledger_cursors_total seq ix txs :
  Forall stages_known txs -> exists l, ledger_cursors seq ix txs = Ok l.
Proof.
  intros HF. revert ix; induction HF as [|tx txs (evs&Hg&Hk) _ IH]; intros ix; csimpl; [by eexists|].
  rewrite Hg. csimpl.
  assert (forall i ix, exists l ix', stage_cursors seq i ix (TxEvents evs) = (l, Ok ix')) as Hst.
  { intros i. clear -Hk. induction Hk as [|te tes Hte _ IH]; intros ix; csimpl; [by do 2 eexists|].
    unfold cursor. destruct (TE_Stage te) eqn:E; [..|by destruct (Hte n)];
      match goal with |- context [stage_cursors _ _ ?ix1 tes] => destruct (IH ix1) as (l&ix2&->) end;
      by do 2 eexists. }
  destruct (Hst (tx_Index tx) (MkTxEventIndices (beforeAll ix) (afterAll ix) 0)) as (l&ix'&->). csimpl.
  destruct (IH ix') as [rest ->]. by eexists.
Qed.

(** ** Distinct positions have distinct cursors *)

Lemma stage_count_prefix st l te l' :
  TE_Stage te = st -> l ++ [te] `prefix_of` l' -> stage_count st l < stage_count st l'.
Proof.
  intros Hst [k ->]. rewrite !stage_count_app, stage_count_cons, decide_True by done.
  pose proof (stage_count_le st k). pose proof (stage_count_le st []). lia.
Qed.

Lemma take_snoc_prefix {A} (l : list A) i i' x :
  l !! i = Some x -> (i < i')%nat -> take i l ++ [x] `prefix_of` take i' l.
Proof.
  intros Hx Hi. rewrite <- take_S_r by done.
  exists (take (i' - S i) (drop (S i) l)). rewrite take_take_drop. f_equal. lia.
Qed.

Lemma earlier_prefix txs k i te k' i' :
  (k < k' \/ (k = k' /\ i < i'))%nat -> tx_events_at txs k !! i = Some te ->
  earlier txs k i ++ [te] `prefix_of` earlier txs k' i'.
Proof.
  intros Hlt Hte. unfold earlier. rewrite <- app_assoc. destruct Hlt as [Hk|[<- Hi]].
  - destruct (txs !! k) as [tx|] eqn:Etx; unfold tx_events_at in Hte at 1; rewrite Etx in Hte; [|done].
    simpl in Hte. destruct (take_snoc_prefix txs k k' tx Etx Hk) as [rest ->].
    rewrite fmap_app, concat_app, fmap_app, concat_app, <- !app_assoc. apply prefix_app.
    unfold tx_events_at at 1. rewrite Etx. csimpl. rewrite app_nil_r. apply prefix_app_r.
    pose proof (take_snoc_prefix (tx_events tx) i _ te Hte (lookup_lt_Some _ _ _ Hte)) as Hp.
    by rewrite firstn_all in Hp.
  - apply prefix_app. by apply take_snoc_prefix.
Qed.

Lemma stage_count_earlier_inj txs st k i te k' i' te' :
  tx_events_at txs k !! i = Some te -> tx_events_at txs k' !! i' = Some te' ->
  TE_Stage te = st -> TE_Stage te' = st ->
  stage_count st (earlier txs k i) = stage_count st (earlier txs k' i') -> k = k' /\ i = i'.
Proof.
  intros H1 H2 S1 S2 E.
  destruct (decide (k < k' \/ (k = k' /\ i < i'))%nat) as [Hlt|].
  { pose proof (stage_count_prefix _ _ _ _ S1 (earlier_prefix _ _ _ _ _ _ Hlt H1)). lia. }
  destruct (decide (k' < k \/ (k' = k /\ i' < i))%nat) as [Hlt|]; [|lia].
  pose proof (stage_count_prefix _ _ _ _ S2 (earlier_prefix _ _ _ _ _ _ Hlt H2)). lia.
Qed.

Lemma stage_count_take_inj st (evs : list TransactionEvent) i te i' te' :
  evs !! i = Some te -> evs !! i' = Some te' -> TE_Stage te = st -> TE_Stage te' = st ->
  stage_count st (take i evs) = stage_count st (take i' evs) -> i = i'.
Proof.
  intros H1 H2 S1 S2 E.
  destruct (decide (i < i')%nat) as [Hlt|].
  { pose proof (stage_count_prefix _ _ _ _ S1 (take_snoc_prefix _ _ _ _ H1 Hlt)). lia. }
  destruct (decide (i' < i)%nat) as [Hlt|]; [|lia].
  pose proof (stage_count_prefix _ _ _ _ S2 (take_snoc_prefix _ _ _ _ H2 Hlt)). lia.
Qed.

Lemma event_at_tx_inv txs k i e :
  event_at txs (TxEventAt k i) = Some e ->
  (k < length txs)%nat /\ exists te, tx_events_at txs k !! i = Some te /\
    (Forall stages_known txs -> forall n, TE_Stage te <> UnknownStage n).
Proof.
  simpl. unfold tx_events_at. destruct (txs !! k) as [tx|] eqn:Ek; [|done]. simpl.
  destruct (tx_events tx !! i) as [te|] eqn:Ei; [|done]. intros _.
  split; [by eapply lookup_lt_Some|]. exists te. split; [done|].
  intros HF n. eapply Forall_lookup_1 in HF as (evs&Hg&HF); [|done].
  unfold tx_events in Ei. rewrite Hg in Ei. by eapply Forall_lookup_1 in HF.
Qed.

Lemma event_at_op_inv txs k i j e :
  event_at txs (OpEventAt k i j) = Some e -> Forall op_events_fit txs ->
  (k < length txs)%nat /\ Z.of_nat i < OperationMask.
Proof.
  simpl. destruct (txs !! k) as [tx|] eqn:Ek; [|done]. simpl.
  destruct (op_events tx !! i) as [es|] eqn:Ei; [|done]. intros _ HF.
  split; [by eapply lookup_lt_Some|]. eapply Forall_lookup_1 in HF; [|done].
  unfold op_events in Ei. destruct (GetTransactionEvents tx) as [evs| |] eqn:Hg; [|done..].
  destruct (HF _ Hg) as (?&_). apply lookup_lt_Some in Ei. unfold zlen in *. lia.
Qed.

Lemma event_cursor_inj seq txs p q :
  zlen txs < TransactionMask -> Forall op_events_fit txs -> Forall stages_known txs ->
  is_Some (event_at txs p) -> is_Some (event_at txs q) ->
  event_cursor seq txs p = event_cursor seq txs q -> p = q.
Proof.
  intros Hn HF HS [e1 H1] [e2 H2].
  assert (forall te, (forall n, TE_Stage te <> UnknownStage n) ->
    TE_Stage te = BeforeAllTxs \/ TE_Stage te = AfterTx \/ TE_Stage te = AfterAllTxs) as Hk.
  { intros te Hte. destruct (TE_Stage te); [naive_solver..|by destruct (Hte n)]. }
  destruct p as [k i|k i j], q as [k' i'|k' i' j']; unfold event_cursor, zlen in *.
  - apply event_at_tx_inv in H1 as (?&te&A1&B1), H2 as (?&te'&A2&B2). rewrite A1, A2. simpl.
    destruct (Hk te (B1 HS)) as [S1|[S1|S1]], (Hk te' (B2 HS)) as [S2|[S2|S2]]; rewrite S1, S2;
      intros [=]; try lia.
    + destruct (stage_count_earlier_inj txs BeforeAllTxs k i te k' i' te') as [-> ->]; done.
    + assert (k = k') as -> by lia. f_equal. by eapply stage_count_take_inj.
    + destruct (stage_count_earlier_inj txs AfterAllTxs k i te k' i' te') as [-> ->]; done.
  - apply event_at_tx_inv in H1 as (?&te&A1&B1). apply event_at_op_inv in H2 as (?&?); [|done].
    rewrite A1. simpl. destruct (Hk te (B1 HS)) as [S1|[S1|S1]]; rewrite S1; intros [=]; lia.
  - apply event_at_op_inv in H1 as (?&?); [|done]. apply event_at_tx_inv in H2 as (?&te&A1&B1).
    rewrite A1. simpl. destruct (Hk te (B1 HS)) as [S1|[S1|S1]]; rewrite S1; intros [=]; lia.
  - intros [=]. f_equal; lia.
Qed.

End EventPositions.

Section EventTheorems.
Context `{X : Sdk} `{ND : Nondet} `{CL : !SdkCursorLaws} `{RL : !SdkReaderLaws}.

Lemma cursor_string_inj a b :
  cursor_ok a -> cursor_ok b -> Cursor_String a = Cursor_String b -> a = b.
Proof.
  intros Ha Hb E. apply parse_cursor_string in Ha. apply parse_cursor_string in Hb.
  rewrite E in Ha. congruence.
Qed.

Lemma cursor_lt_irrefl a : ~ cursor_lt a a.
Proof. unfold cursor_lt. lia. Qed.

Lemma cursor_lt_total a b : cursor_lt a b \/ a = b \/ cursor_lt b a.
Proof.
  destruct a as [l1 t1 o1 e1], b as [l2 t2 o2 e2]. unfold cursor_lt. simpl.
  destruct (decide (l1 = l2 /\ t1 = t2 /\ o1 = o2 /\ e1 = e2)) as [(->&->&->&->)|]; [naive_solver|lia].
Qed.

Lemma cursor_str_lt a b :
  cursor_ok a -> cursor_ok b -> (str_lt (Cursor_String a) (Cursor_String b) <-> cursor_lt a b).
Proof.
  intros Ha Hb. unfold str_lt. rewrite cursor_string_lt by done. split.
  - intros [H1 H2]. destruct (cursor_lt_total a b) as [?|[->|?]]; done.
  - intros H. split; [unfold cursor_lt in *; lia|].
    intros E%cursor_string_inj; [|done..]. subst. by apply cursor_lt_irrefl in H.
Qed.

(** A table whose keys are event cursors. *)
Definition events_wf (m : gmap string ev_row) : Prop :=
  forall id row, m !! id = Some row -> exists c, cursor_ok c /\ id = Cursor_String c.

(** The sizes a ledger's events must respect for their cursors to be exact. *)
Definition ledger_fits (lcm : LedgerCloseMeta) (txs : list LedgerTransaction) : Prop :=
  0 <= LedgerSequence lcm < 2 ^ 31 /\ zlen txs < TransactionMask /\
  Forall op_events_fit txs /\ tx_event_count txs < 2 ^ 32.

Lemma ledger_cursors_ok lcm txs l :
  ledger_fits lcm txs -> (forall k tx, txs !! k = Some tx -> tx_Index tx = Z.of_nat k + 1) ->
  ledger_cursors (LedgerSequence lcm) (MkTxEventIndices 0 0 0) txs = Ok l ->
  NoDup (snd <$> l).*2 /\
  Forall (fun c => cursor_ok c /\ C_Ledger c = LedgerSequence lcm) (snd <$> l).*2.
Proof.
  intros (H1&H2&H3&H4) Hi Hl. pose proof masks_nonneg as [HT HO].
  apply (ledger_cursors_zone _ 1) in Hl as (ix&Hn&Hz&Hix&Hb&Ha);
    [|lia|lia|intros k tx Hk; rewrite (Hi k tx) by done; lia|done|simpl; lia..].
  split; [done|]. eapply Forall_impl; [exact Hz|]. intros c. unfold cursor_zone, cursor_ok, is_u32.
  simpl. intros (?&Hc). pose proof (zlen_nonneg txs). lia.
Qed.

Lemma ledger_ids_NoDup lcm txs l :
  ledger_fits lcm txs -> (forall k tx, txs !! k = Some tx -> tx_Index tx = Z.of_nat k + 1) ->
  ledger_cursors (LedgerSequence lcm) (MkTxEventIndices 0 0 0) txs = Ok l ->
  NoDup (e_Cursor <$> ledger_events lcm l) /\
  forall id, id ∈ e_Cursor <$> ledger_events lcm l ->
    exists c, cursor_ok c /\ C_Ledger c = LedgerSequence lcm /\ id = Cursor_String c.
Proof.
  intros Hf Hi Hl. destruct (ledger_cursors_ok _ _ _ Hf Hi Hl) as [Hn Hz].
  assert (e_Cursor <$> ledger_events lcm l = Cursor_String <$> (snd <$> l).*2) as ->.
  { unfold ledger_events. rewrite <- !list_fmap_compose. by apply list_fmap_ext. }
  rewrite Forall_forall in Hz. split.
  - apply NoDup_fmap_2_strong; [|done]. intros a b Ha%Hz Hb%Hz. apply cursor_string_inj; naive_solver.
  - intros id (c&->&Hc%Hz)%list_elem_of_fmap. exists c. naive_solver.
Qed.

(** The events of the ledger are not in the table yet. *)
Definition no_events_of (seq : Z) (t : tables) : Prop :=
  forall id row, t_events t !! id = Some row ->
    exists c, cursor_ok c /\ id = Cursor_String c /\ C_Ledger c <> seq.

Lemma InsertEvents_progress lcm txs l rows h s :
  eh_stmtCache h = true -> NewLedgerTransactionReader (eh_passphrase h) lcm = Ok (Ok <$> txs) ->
  ledger_fits lcm txs ->
  ledger_cursors (LedgerSequence lcm) (MkTxEventIndices 0 0 0) txs = Ok l ->
  res_map insertEvents (ledger_events lcm l) = Ok rows ->
  eh_pending h = [] -> s_faults s = [] -> no_events_of (LedgerSequence lcm) (s_tab s) ->
  rows_fresh (s_tab s) rows /\
  exists st1, InsertEvents lcm (h, s) = (Ok tt, st1) /\
    ev_progress (s_tab s) (ledger_events lcm l) rows st1 /\
    (length (eh_pending (fst st1)) < maxEventsPerBatch)%nat.
Proof.
  intros Hc Hrd Hfit Hl Hrows Hp Hf Hwf.
  assert (forall k tx, txs !! k = Some tx -> tx_Index tx = Z.of_nat k + 1) as Hidx.
  { intros k tx Hk. eapply reader_index; [done|]. by rewrite list_lookup_fmap, Hk. }
  destruct (ledger_ids_NoDup _ _ _ Hfit Hidx Hl) as [Hnd Hids].
  pose proof (insertEvents_ids _ _ Hrows) as Hrid. rewrite <- Hrid in Hnd, Hids.
  assert (rows_fresh (s_tab s) rows) as Hfr.
  { split; [done|]. intros id (c&Hok&Hled&->)%Hids.
    destruct (t_events (s_tab s) !! Cursor_String c) as [row|] eqn:E; [|done].
    apply Hwf in E as (c'&Hok'&E&Hne). apply cursor_string_inj in E; [|done..]. congruence. }
  split; [done|].
  assert (ev_progress (s_tab s) [] [] (h, s)) as HP.
  { exists [], []. split; [done|]. exists []. csimpl. rewrite Hp. split_and!; try done.
    - by rewrite (left_id_L ∅ (∪)).
    - apply same_but_events_refl. }
  unfold InsertEvents. unfold mbind at 1, M_bind at 1, get. simpl. rewrite Hc. simpl.
  pose proof (reader_count _ _ _ Hrd) as Hcnt. unfold zlen in Hcnt. rewrite length_fmap in Hcnt.
  case_decide as E0.
  - destruct txs; [|simpl in Hcnt; lia]. simpl in Hl. simplify_eq/=. exists (h, s).
    split_and!; [done..|]. simpl. rewrite Hp. unfold maxEventsPerBatch. simpl. lia.
  - destruct (insert_events_loop_progress (s_tab s) lcm _ txs l [] [] rows (h, s) Hl Hrows)
      as (st1&Hrun&HP1&Hlt); [done..|].
    exists st1. unfold_m. rewrite Hrd. split_and!; [done..|].
    apply Hlt. intros ->. simpl in Hcnt. lia.
Qed.

Lemma insert_events_run lcm txs l rows h s :
  eh_stmtCache h = true -> NewLedgerTransactionReader (eh_passphrase h) lcm = Ok (Ok <$> txs) ->
  ledger_fits lcm txs ->
  ledger_cursors (LedgerSequence lcm) (MkTxEventIndices 0 0 0) txs = Ok l ->
  res_map insertEvents (ledger_events lcm l) = Ok rows ->
  eh_pending h = [] -> s_faults s = [] -> no_events_of (LedgerSequence lcm) (s_tab s) ->
  NoDup rows.*1 /\
  exists h' s', (InsertEvents lcm ;; flushPending_evs) (h, s) = (Ok tt, (h', s')) /\
    eh_pending h' = [] /\ t_events (s_tab s') = list_to_map rows ∪ t_events (s_tab s) /\
    same_but_events (s_tab s) (s_tab s').
Proof.
  intros Hc Hrd Hfit Hl Hrows Hp Hf Hwf.
  destruct (InsertEvents_progress lcm txs l rows h s) as [Hfr (st1&Hrun&HP1&Hmax)]; [done..|].
  split; [by destruct Hfr|].
  destruct (flushPending_progress _ _ _ _ Hmax Hfr HP1) as ([h2 s2]&Hfl&H1&H2&H3&_).
  exists h2, s2. split_and!; [|done..]. unfold_m. by rewrite Hrun.
Qed.

(** The events the writer produces for a whole ledger, by position. *)
Lemma ledger_events_at lcm txs l tx ev c :
  ledger_fits lcm txs -> (forall k tx, txs !! k = Some tx -> tx_Index tx = Z.of_nat k + 1) ->
  ledger_cursors (LedgerSequence lcm) (MkTxEventIndices 0 0 0) txs = Ok l ->
  (tx, (ev, c)) ∈ l <->
  exists p, event_at txs p = Some (tx, ev) /\ c = event_cursor (LedgerSequence lcm) txs p.
Proof.
  intros (Hs&Hn&HF&Hc) Hidx Hl. pose proof (tx_event_count_nonneg txs). pose proof (zlen_nonneg txs).
  setoid_rewrite event_cursor_from. eapply ledger_cursors_at; try done; simpl; try lia.
  intros k tx' Hk. rewrite (Hidx k tx') by done. lia.
Qed.

(** The rows the writer builds are those of the events, by position. *)
Lemma ledger_rows_at lcm txs l rows id row :
  MaxTopicCount = 4%nat -> ledger_fits lcm txs ->
  (forall k tx, txs !! k = Some tx -> tx_Index tx = Z.of_nat k + 1) ->
  ledger_cursors (LedgerSequence lcm) (MkTxEventIndices 0 0 0) txs = Ok l ->
  res_map insertEvents (ledger_events lcm l) = Ok rows ->
  (id, row) ∈ rows <->
  exists p tx ev, event_at txs p = Some (tx, ev) /\
    id = Cursor_String (event_cursor (LedgerSequence lcm) txs p) /\ stored_as lcm tx ev row.
Proof.
  intros H4 Hfit Hidx Hl Hrows.
  pose proof (fun tx ev c => ledger_events_at lcm txs l tx ev c Hfit Hidx Hl) as Hin.
  split.
  - intros (e&He&Hi)%(res_map_elem_of_inv _ _ _ _ Hrows). unfold ledger_events in He.
    apply list_elem_of_fmap in He as ([tx [ev c]]&->&He). simpl in Hi.
    apply insertEvents_stored in Hi as [-> Hst]; [|done]. apply Hin in He as (p&Hp&->). by exists p, tx, ev.
  - intros (p&tx&ev&Hp&->&Hst).
    assert (db_event_of lcm tx (ev, event_cursor (LedgerSequence lcm) txs p) ∈ ledger_events lcm l) as He.
    { unfold ledger_events. apply list_elem_of_fmap. exists (tx, (ev, event_cursor (LedgerSequence lcm) txs p)).
      split; [done|]. apply Hin. by exists p. }
    destruct (res_map_elem_of _ _ _ _ Hrows He) as (r&Hr&Hir).
    assert (insertEvents (db_event_of lcm tx (ev, event_cursor (LedgerSequence lcm) txs p))
      = Ok (Cursor_String (event_cursor (LedgerSequence lcm) txs p), row)) as Hr'
      by (by apply insertEvents_stored).
    congruence.
Qed.

(** With known stages and encodable events the rows exist. *)
Lemma ledger_rows_total lcm txs :
  MaxTopicCount = 4%nat -> ledger_fits lcm txs ->
  (forall k tx, txs !! k = Some tx -> tx_Index tx = Z.of_nat k + 1) ->
  Forall stages_known txs ->
  (forall p tx ev, event_at txs p = Some (tx, ev) -> exists row, stored_as lcm tx ev row) ->
  exists l rows, ledger_cursors (LedgerSequence lcm) (MkTxEventIndices 0 0 0) txs = Ok l /\
    res_map insertEvents (ledger_events lcm l) = Ok rows.
Proof.
  intros H4 Hfit Hidx HS Henc.
  destruct (ledger_cursors_total (LedgerSequence lcm) (MkTxEventIndices 0 0 0) txs HS) as [l Hl].
  exists l. destruct (res_map_total insertEvents (ledger_events lcm l)) as [rows Hrows]; [|by exists rows].
  intros e He. unfold ledger_events in He. apply list_elem_of_fmap in He as ([tx [ev c]]&->&He).
  eapply ledger_events_at in He as (p&Hp&->); [|done..].
  destruct (Henc _ _ _ Hp) as [row Hrow]. eexists. by apply insertEvents_stored.
Qed.

(** C4: Ingesting and flushing the events of a ledger stores every event of
    every transaction, whatever its outcome, in a row of its own: the events
    before all transactions, of each operation, after their transaction and
    after all transactions, at the cursors their positions are due
    ([event_cursor]), no two alike, with contract, type, topics, close time and
    transaction hash ([stored_as]).  No batch conflicts with a stored row or
    binds too many variables, the other rows stay as they were, nothing else is
    stored and no event stays buffered.  (When no statement fails and no event of
    the ledger is stored or buffered yet, for a readable ledger whose events have
    stages the SDK defines, at most four topics and can be serialised, and whose
    numbers of transactions, operations and events fit a cursor.) *)
Theorem InsertEvents_stores_all lcm txs h s :
  eh_stmtCache h = true -> NewLedgerTransactionReader (eh_passphrase h) lcm = Ok (Ok <$> txs) ->
  MaxTopicCount = 4%nat -> ledger_fits lcm txs -> Forall stages_known txs ->
  (forall p tx ev, event_at txs p = Some (tx, ev) -> exists row, stored_as lcm tx ev row) ->
  eh_pending h = [] -> s_faults s = [] -> no_events_of (LedgerSequence lcm) (s_tab s) ->
  let key p := Cursor_String (event_cursor (LedgerSequence lcm) txs p) in
  (forall p q, is_Some (event_at txs p) -> is_Some (event_at txs q) -> key p = key q -> p = q) /\
  exists h' s', (InsertEvents lcm ;; flushPending_evs) (h, s) = (Ok tt, (h', s')) /\
    eh_pending h' = [] /\ same_but_events (s_tab s) (s_tab s') /\
    forall id row, t_events (s_tab s') !! id = Some row <->
      t_events (s_tab s) !! id = Some row \/
      exists p tx ev, event_at txs p = Some (tx, ev) /\ id = key p /\ stored_as lcm tx ev row.
Proof.
  intros Hc Hrd H4 Hfit HS Henc Hp Hf Hwf key.
  assert (forall k tx, txs !! k = Some tx -> tx_Index tx = Z.of_nat k + 1) as Hidx.
  { intros k tx Hk. eapply reader_index; [done|]. by rewrite list_lookup_fmap, Hk. }
  destruct (ledger_rows_total lcm txs H4 Hfit Hidx HS Henc) as (l&rows&Hl&Hrows).
  pose proof (fun id row => ledger_rows_at _ _ _ _ id row H4 Hfit Hidx Hl Hrows) as Hat.
  destruct (ledger_ids_NoDup _ _ _ Hfit Hidx Hl) as [_ Hids]. rewrite <- (insertEvents_ids _ _ Hrows) in Hids.
  assert (forall p, is_Some (event_at txs p) -> cursor_ok (event_cursor (LedgerSequence lcm) txs p)) as Hok.
  { intros p [[tx ev] Ep]. destruct (ledger_cursors_ok _ _ _ Hfit Hidx Hl) as [_ HF].
    rewrite Forall_forall in HF. apply HF. rewrite <- list_fmap_compose. apply list_elem_of_fmap.
    exists (tx, (ev, event_cursor (LedgerSequence lcm) txs p)). split; [done|].
    eapply ledger_events_at; [done..|]. by exists p. }
  destruct (insert_events_run lcm txs l rows h s) as (Hnd&h'&s'&Hrun&H1&H2&H3); [done..|].
  split.
  - intros p q Hip Hiq E. destruct Hfit as (_&Hn&HF&_).
    apply (event_cursor_inj (LedgerSequence lcm) txs); try done.
    apply cursor_string_inj; [by apply Hok..|done].
  - exists h', s'. split_and!; [done..|]. intros id row. unfold key. rewrite <- Hat, H2, lookup_union_Some_raw.
    rewrite elem_of_list_to_map by done. split; [naive_solver|]. intros [Hold|?]; [|by left].
    right. split; [|done]. apply not_elem_of_list_to_map_1. intros (c'&Hok'&Hled&->)%Hids.
    apply Hwf in Hold as (c&Hokc&E&Hne). apply cursor_string_inj in E; [congruence|done..].
Qed.

(** Trimming the events with a retention window of [w] ledgers keeps exactly
    the events of the last [w] ledgers and touches nothing else. *)
Theorem trimEvents_exact latest w h s :
  0 <= latest < 2 ^ 31 - 1 -> 0 < w < 2 ^ 32 -> events_wf (t_events (s_tab s)) -> s_faults s = [] ->
  exists s', trimEvents latest w (h, s) = (Ok tt, (h, s')) /\
    same_but_events (s_tab s) (s_tab s') /\
    forall c row, cursor_ok c ->
      (t_events (s_tab s') !! Cursor_String c = Some row <->
       t_events (s_tab s) !! Cursor_String c = Some row /\ latest - w < C_Ledger c).
Proof.
  intros Hl Hw Hwf Hf. pose proof masks_nonneg as [HT HO].
  unfold trimEvents. rewrite trim_cutoff_spec by lia. case_decide as Hd.
  - exists s. split_and!; [done|apply same_but_events_refl|].
    intros c row Hok. unfold cursor_ok in Hok. split; [|naive_solver]. intros. split; [done|lia].
  - unfold zoom2. rewrite (sql_exec_ok _ _ (set_events (filter (fun p => ~ str_lt (fst p)
        (Cursor_String (MkCursor (latest + 1 - w) 0 0 0))) (t_events (s_tab s))) (s_tab s))) by done.
    eexists. split_and!; [done|by destruct (s_tab s)|]. simpl. intros c row Hok.
    rewrite map_lookup_filter_Some. simpl.
    rewrite cursor_str_lt; [|done|unfold cursor_ok, is_u32; simpl; lia].
    unfold cursor_ok, is_u32 in Hok. unfold cursor_lt. simpl. split; intros [? ?]; (split; [done|lia]).
Qed.

(** What the reader reports of a row: event, cursor, close time, transaction. *)
Definition scanned (id : string) (row : ev_row) (x : DiagnosticEvent * Cursor * Z * string) : Prop :=
  let '(e, c, ct, hash) := x in
  cursor_ok c /\ id = Cursor_String c /\ DiagnosticEvent_UnmarshalBinary (ev_data row) = Ok e /\
  ct = ev_close_time row /\ hash = ev_tx_hash row.

(** The scanner that keeps everything. *)
Definition collect (e : DiagnosticEvent) (c : Cursor) (ct : Z) (hash : string)
    : M (list (DiagnosticEvent * Cursor * Z * string)) bool :=
  modify (fun l => l ++ [(e, c, ct, hash)]) ;; mret true.

(** The meaning of the filters of a query, on a row. *)
Definition row_matches (contractIDs : list string) (topics : TopicFilters) (eventTypes : list Z)
    (row : ev_row) : Prop :=
  (contractIDs = [] \/ exists c, ev_contract_id row = Some c /\ c ∈ contractIDs) /\
  (eventTypes = [] \/ ev_type row ∈ eventTypes) /\
  ((forall f, f ∈ topics -> f = []) \/
   exists f, f ∈ topics /\ f <> [] /\
     forall c, c ∈ f -> ev_topics row !! Z.to_nat (TC_Column c - 1) = Some (Some (TC_Value c))).

Lemma topic_cond_holds_spec row c :
  topic_cond_holds row c = true <->
  ev_topics row !! Z.to_nat (TC_Column c - 1) = Some (Some (TC_Value c)).
Proof.
  unfold topic_cond_holds. split.
  - destruct (ev_topics row !! _) as [[v|]|]; [|done..]. by intros ->%bool_decide_eq_true.
  - intros ->. by apply bool_decide_eq_true.
Qed.

Lemma topic_filters_spec row topics :
  (let ors := filter (fun f : TopicFilter => length f <> 0%nat) topics in
   if decide (0 < length ors)%nat then existsb (forallb (topic_cond_holds row)) ors else true) = true
  <-> ((forall f, f ∈ topics -> f = []) \/
   exists f, f ∈ topics /\ f <> [] /\
     forall c, c ∈ f -> ev_topics row !! Z.to_nat (TC_Column c - 1) = Some (Some (TC_Value c))).
Proof.
  cbv zeta. set (ors := filter _ topics).
  assert (forall f, f ∈ ors <-> f <> [] /\ f ∈ topics) as Hors.
  { intros f. unfold ors. rewrite list_elem_of_filter. destruct f; csimpl; naive_solver. }
  assert ((0 < length ors)%nat <-> ~ forall f, f ∈ topics -> f = []) as Hlen.
  { split.
    - intros Hlt Hall. destruct ors as [|f ors'] eqn:E; [simpl in Hlt; lia|].
      destruct (proj1 (Hors f) ltac:(by left)) as [Hne Hin]. auto.
    - intros Hn. destruct ors as [|f ors'] eqn:E; [|simpl; lia]. exfalso. apply Hn.
      intros f Hf. destruct f as [|c f]; [done|]. exfalso.
      by apply (not_elem_of_nil (c :: f)), Hors. }
  case_decide as Hd.
  - rewrite existsb_exists. split.
    + intros (f&Hf%list_elem_of_In%Hors&Hall). right. exists f. split_and!; try naive_solver.
      intros c Hc. apply topic_cond_holds_spec. rewrite forallb_forall in Hall.
      by apply Hall, list_elem_of_In.
    + intros [Hall|(f&Hf&Hne&Hall)]; [apply Hlen in Hd; tauto|].
      exists f. rewrite <- list_elem_of_In, Hors, forallb_forall. split; [done|].
      intros c Hc%list_elem_of_In. by apply topic_cond_holds_spec, Hall.
  - split; [intros _|done]. left. intros f Hf. destruct f; [done|]. exfalso. apply Hd, Hlen.
    intros Hall. by specialize (Hall _ Hf).
Qed.

Lemma row_selected_spec range contractIDs topics eventTypes c row :
  cursor_ok c -> cursor_ok (CR_Start range) -> cursor_ok (CR_End range) ->
  row_selected range contractIDs topics eventTypes (Cursor_String c, row) = true <->
  ~ cursor_lt c (CR_Start range) /\ cursor_lt c (CR_End range) /\
  row_matches contractIDs topics eventTypes row.
Proof.
  intros Hc Hs He. unfold row_selected, row_matches.
  rewrite !andb_true_iff, !bool_decide_eq_true, topic_filters_spec.
  rewrite cursor_str_lt, cursor_string_lt by done.
  assert ((if decide (0 < length contractIDs)%nat
     then match ev_contract_id row with Some c => bool_decide (c ∈ contractIDs) | None => false end
     else true) = true <->
    (contractIDs = [] \/ exists c, ev_contract_id row = Some c /\ c ∈ contractIDs)) as ->.
  { destruct contractIDs; [naive_solver|]. rewrite decide_True by (simpl; lia).
    destruct (ev_contract_id row); rewrite ?bool_decide_eq_true; naive_solver. }
  assert ((if decide (0 < length eventTypes)%nat then bool_decide (ev_type row ∈ eventTypes)
     else true) = true <-> (eventTypes = [] \/ ev_type row ∈ eventTypes)) as ->.
  { destruct eventTypes; [naive_solver|]. rewrite decide_True by (simpl; lia).
    rewrite bool_decide_eq_true. naive_solver. }
  tauto.
Qed.

Lemma scan_rows_collect rows acc :
  (forall p, p ∈ rows -> exists c e, cursor_ok c /\ fst p = Cursor_String c /\
     DiagnosticEvent_UnmarshalBinary (ev_data (snd p)) = Ok e) ->
  exists out, scan_rows rows collect acc = (Ok tt, acc ++ out) /\
    Forall2 (fun p x => scanned (fst p) (snd p) x) rows out.
Proof.
  revert acc; induction rows as [|[id row] rows IH]; intros acc Hrows.
  { exists []. simpl. by rewrite app_nil_r. }
  destruct (Hrows (id, row)) as (c&e&Hok&Hid&He); [by left|]. simpl in Hid, He. subst id.
  destruct (IH (acc ++ [(e, c, ev_close_time row, ev_tx_hash row)])) as (out&Hrun&HF).
  { intros p Hp. apply Hrows. by right. }
  exists ((e, c, ev_close_time row, ev_tx_hash row) :: out). split.
  - simpl. rewrite parse_cursor_string by done. unfold_m. simpl. rewrite He. rewrite Hrun.
    by rewrite <- app_assoc.
  - constructor; done.
Qed.

Lemma scanned_sorted rows out :
  Forall2 (fun p x => scanned (fst p) (snd p) x) rows out ->
  StronglySorted (key_le String.le) rows -> NoDup rows.*1 ->
  StronglySorted cursor_lt ((fun '(_, c, _, _) => c) <$> out).
Proof.
  induction 1 as [|[id row] [[[e c] ct] hash] rows out Hx HF IH]; [constructor|].
  rewrite fmap_cons. intros [HS HSF]%StronglySorted_inv [Hni HN]%NoDup_cons. csimpl.
  specialize (IH HS HN). constructor; [done|]. apply Forall_forall.
  intros c' ([[[e' c2] ct'] hash']&->&Hin)%list_elem_of_fmap.
  apply list_elem_of_lookup in Hin as [i Hi].
  destruct (Forall2_lookup_r _ _ _ _ _ HF Hi) as ([id' row']&Hr&Hx'). simpl in *.
  destruct Hx as (Hok&->&_), Hx' as (Hok'&->&_).
  apply list_elem_of_lookup_2 in Hr. apply cursor_str_lt; [done..|]. split.
  + rewrite Forall_forall in HSF. by apply HSF in Hr.
  + intros E. apply Hni. rewrite E. by apply (list_elem_of_fmap_2 fst) in Hr.
Qed.

(** C5: A query reports exactly the stored events whose cursor lies in the
    half-open range and whose row matches the contract, type and topic filters,
    each once and in chronological order. *)
Theorem GetEvents_exact range contractIDs topics eventTypes encs s :
  cursor_ok (CR_Start range) -> cursor_ok (CR_End range) ->
  events_wf (t_events (s_tab s)) -> s_faults s = [] ->
  (forall id row, t_events (s_tab s) !! id = Some row ->
     exists e, DiagnosticEvent_UnmarshalBinary (ev_data row) = Ok e) ->
  res_map strkey_EncodeContract contractIDs = Ok encs -> topic_columns_ok topics = true ->
  exists out, fst (GetEvents range contractIDs topics eventTypes collect ([], s)) = Ok tt /\
    fst (snd (GetEvents range contractIDs topics eventTypes collect ([], s))) = out /\
    StronglySorted cursor_lt ((fun '(_, c, _, _) => c) <$> out) /\
    forall x, x ∈ out <-> exists row, let '(_, c, _, _) := x in
      t_events (s_tab s) !! Cursor_String c = Some row /\ scanned (Cursor_String c) row x /\
      ~ cursor_lt c (CR_Start range) /\ cursor_lt c (CR_End range) /\
      row_matches contractIDs topics eventTypes row.
Proof.
  intros Hs He Hwf Hf Hdec Henc Htop.
  set (rows := select_events range contractIDs topics eventTypes (s_tab s)).
  assert (forall p, p ∈ rows <-> t_events (s_tab s) !! fst p = Some (snd p) /\
    row_selected range contractIDs topics eventTypes p = true) as Hrows.
  { intros [id row]. unfold rows, select_events.
    rewrite list_elem_of_filter, elem_of_rows_by_key. simpl. tauto. }
  destruct (scan_rows_collect rows []) as (out&Hrun&HF).
  { intros [id row] [Hp _]%Hrows. simpl in *. destruct (Hwf _ _ Hp) as (c&Hok&->).
    destruct (Hdec _ _ Hp) as [e Hde]. by exists c, e. }
  assert (GetEvents range contractIDs topics eventTypes collect ([], s)
    = (Ok tt, (out, MkSession (s_tab s) []))) as Hget.
  { unfold GetEvents. unfold_m. rewrite Henc. unfold statement. simpl. rewrite Hf. simpl. rewrite Htop.
    fold rows. simpl. by rewrite Hrun. }
  rewrite Hget. exists out. split_and!; [done..| |].
  - assert (StronglySorted (key_le String.le) rows) as HS.
    { unfold rows, select_events. apply sorted_filter, rows_by_key_sorted; apply _. }
    assert (NoDup rows.*1) as HN.
    { unfold rows, select_events. rewrite <- (rows_by_key_filter String.le).
      apply NoDup_rows_by_key. }
    by eapply scanned_sorted.
  - intros [[[e c] ct] hash]. split.
    + intros [i Hi]%list_elem_of_lookup.
      destruct (Forall2_lookup_r _ _ _ _ _ HF Hi) as ([id row]&Hr&Hx). simpl in *.
      pose proof Hx as (Hok&->&_). apply list_elem_of_lookup_2, Hrows in Hr as [Hr Hsel].
      apply row_selected_spec in Hsel; [|done..]. naive_solver.
    + intros (row&Hr&Hx&Hsel). pose proof Hx as (Hok&_&He'&->&->).
      apply row_selected_spec in Hsel; [|done..].
      assert ((Cursor_String c, row) ∈ rows) as Hin by (by apply Hrows).
      apply list_elem_of_lookup in Hin as [i Hi].
      destruct (Forall2_lookup_l _ _ _ _ _ HF Hi) as ([[[e' c'] ct'] hash']&Ho&(Hok'&E&He2&->&->)).
      simpl in *. apply cursor_string_inj in E; [|done..]. rewrite He2 in He'. simplify_eq.
      by apply list_elem_of_lookup_2 in Ho.
Qed.

End EventTheorems.

Section Witnesses.

Definition ex_ev_handler : eventHandler := MkEventHandler true "" [].

Definition ex_ev_row (d : string) : ev_row :=
  MkEvRow (Some "C") 1 d 10 "tx" [Some "transfer"; None; None; None].

(** Two events of ledger 2. *)
Definition ex_old_events : gmap string ev_row :=
  list_to_map [(ex_cursor_string (MkCursor 2 1 0 0), ex_ev_row "op1");
               (ex_cursor_string (MkCursor 2 1 1 0), ex_ev_row "op2")].

Definition ex_ev_session : session := MkSession (set_events ex_old_events empty_tables) [].

Definition ex_cursors : list (LedgerTransaction * (ContractEvent * Cursor)) :=
  match ledger_cursors 3 (MkTxEventIndices 0 0 0) (ex_txs 3) with Ok l => l | _ => [] end.

Definition ex_rows : list (string * ev_row) :=
  match res_map insertEvents (ledger_events (X := ex_sdk) 3 ex_cursors) with Ok l => l | _ => [] end.

#[local] Opaque bits.

Lemma ex_old_events_keys id row :
  t_events (s_tab ex_ev_session) !! id = Some row ->
  row ∈ [ex_ev_row "op1"; ex_ev_row "op2"] /\
  exists c, cursor_ok c /\ id = Cursor_String c /\ C_Ledger c = 2.
Proof.
  intros Hl%elem_of_list_to_map_2.
  apply elem_of_cons in Hl as [[= -> ->]|[[= -> ->]|[]%elem_of_nil]%elem_of_cons].
  - split; [set_solver|]. exists (MkCursor 2 1 0 0). unfold cursor_ok, is_u32. simpl. split_and!; done.
  - split; [set_solver|]. exists (MkCursor 2 1 1 0). unfold cursor_ok, is_u32. simpl. split_and!; done.
Qed.

Lemma ex_events_wf : events_wf (X := ex_sdk) (t_events (s_tab ex_ev_session)).
Proof. intros id row H%ex_old_events_keys. naive_solver. Qed.

Lemma ex_ledger_fits n : 0 <= n < 2 ^ 31 -> ledger_fits (X := ex_sdk) n (ex_txs n).
Proof.
  intros Hn. unfold ledger_fits, ex_txs. split; [done|]. case_decide; simpl.
  - split_and!; [done| |done]. apply Forall_forall. intros tx _ evs. simpl. intros [= <-].
    unfold ex_tx_events. case_decide; simpl; split_and!; try done; repeat constructor; done.
  - split_and!; [done|constructor|done].
Qed.

Lemma ex_stored n tx d :
  stored_as (X := ex_sdk) n tx (ex_event d)
    (MkEvRow (Some "C") 1 d (5 * n) (ex_tx_hash tx) [Some "transfer"; None; None; None]).
Proof.
  unfold stored_as. simpl. unfold ex_event_marshal. simpl. rewrite decide_True by done.
  split_and!; try done. exists ["transfer"], d, ["transfer"]. split_and!; [done| |done].
  by repeat constructor.
Qed.

Lemma ex_event_at n p tx ev :
  event_at (X := ex_sdk) (ex_txs n) p = Some (tx, ev) -> exists d, ev = ex_event d.
Proof.
  intros H.
  assert (forall t, Forall (fun te => exists d, TE_Event te = ex_event d) (tx_events (X := ex_sdk) t) /\
    Forall (Forall (fun e => exists d, e = ex_event d)) (op_events (X := ex_sdk) t)) as HF.
  { intros t. unfold tx_events, op_events. simpl. unfold ex_tx_events.
    case_decide; split; repeat constructor; by eexists. }
  destruct p as [k i|k i j]; simpl in H.
  - destruct (ex_txs n !! k) as [t|]; [|done]. simpl in H. destruct (HF t) as [HT _].
    destruct (tx_events (X := ex_sdk) t !! i) as [te|] eqn:Ei; [|done]. injection H as _ <-.
    by eapply Forall_lookup_1 in HT.
  - destruct (ex_txs n !! k) as [t|]; [|done]. simpl in H. destruct (HF t) as [_ HO].
    destruct (op_events (X := ex_sdk) t !! i) as [es|] eqn:Ei; [|done]. simpl in H.
    destruct (es !! j) as [e|] eqn:Ej; [|done]. injection H as _ <-.
    eapply Forall_lookup_1 in HO; [|done]. by eapply Forall_lookup_1 in HO.
Qed.

Lemma ex_stages_known n : Forall (stages_known (X := ex_sdk)) (ex_txs n).
Proof.
  apply Forall_forall. intros tx _. exists (ex_tx_events tx). split; [done|].
  unfold ex_tx_events. case_decide; simpl; by repeat constructor.
Qed.

Lemma InsertEvents_stores_all_witness :
  let key p := Cursor_String (event_cursor (X := ex_sdk) 3 (ex_txs 3) p) in
  (forall p q, is_Some (event_at (X := ex_sdk) (ex_txs 3) p) -> is_Some (event_at (X := ex_sdk) (ex_txs 3) q) ->
     key p = key q -> p = q) /\
  exists h' s', (InsertEvents (X := ex_sdk) 3 ;; flushPending_evs) (ex_ev_handler, ex_ev_session)
                = (Ok tt, (h', s')) /\
    eh_pending h' = [] /\ same_but_events (s_tab ex_ev_session) (s_tab s') /\
    forall id row, t_events (s_tab s') !! id = Some row <->
      ex_old_events !! id = Some row \/
      exists p tx ev, event_at (X := ex_sdk) (ex_txs 3) p = Some (tx, ev) /\ id = key p /\
        stored_as (X := ex_sdk) 3 tx ev row.
Proof.
  apply (InsertEvents_stores_all (X := ex_sdk) 3 (ex_txs 3) ex_ev_handler ex_ev_session).
  - reflexivity.
  - reflexivity.
  - reflexivity.
  - apply ex_ledger_fits. lia.
  - apply ex_stages_known.
  - intros p tx ev (d&->)%ex_event_at. eexists. apply ex_stored.
  - reflexivity.
  - reflexivity.
  - intros id row (?&c&?&?&?)%ex_old_events_keys. exists c. split_and!; [done..|]. simpl. lia.
Defined.

(** The seven events of that ledger: four operation events and three of its
    transactions, one of them charged before all transactions. *)
Example ex_event_positions :
  (fun p => event_cursor (X := ex_sdk) 3 (ex_txs 3) p) <$>
    [TxEventAt 0 0; TxEventAt 0 1; TxEventAt 1 0; OpEventAt 0 0 1; OpEventAt 0 1 0] =
  [MkCursor 3 0 0 0; MkCursor 3 1 OperationMask 0; MkCursor 3 0 0 1; MkCursor 3 1 0 1; MkCursor 3 1 1 0].
Proof. reflexivity. Qed.

Lemma trimEvents_exact_witness :
  exists s', trimEvents (X := ex_sdk) 5 3 (ex_ev_handler, ex_ev_session) = (Ok tt, (ex_ev_handler, s')) /\
    same_but_events (s_tab ex_ev_session) (s_tab s') /\
    forall c row, cursor_ok c ->
      (t_events (s_tab s') !! Cursor_String c = Some row <->
       t_events (s_tab ex_ev_session) !! Cursor_String c = Some row /\ 5 - 3 < C_Ledger c).
Proof.
  apply (trimEvents_exact (X := ex_sdk) 5 3 ex_ev_handler ex_ev_session);
    [lia|lia|apply ex_events_wf|reflexivity].
Defined.

Lemma GetEvents_exact_witness :
  let range := MkCursorRange (MkCursor 2 0 0 0) (MkCursor 3 0 0 0) in
  let run := GetEvents (X := ex_sdk) range ["C"] [[MkTopicCondition 1 "transfer"]] [1] collect
               ([], ex_ev_session) in
  exists out, fst run = Ok tt /\ fst (snd run) = out /\
    StronglySorted cursor_lt ((fun '(_, c, _, _) => c) <$> out) /\
    forall x, x ∈ out <-> exists row, let '(_, c, _, _) := x in
      ex_old_events !! Cursor_String c = Some row /\ scanned (Cursor_String c) row x /\
      ~ cursor_lt c (CR_Start range) /\ cursor_lt c (CR_End range) /\
      row_matches ["C"] [[MkTopicCondition 1 "transfer"]] [1] row.
Proof.
  apply (GetEvents_exact (X := ex_sdk) (MkCursorRange (MkCursor 2 0 0 0) (MkCursor 3 0 0 0)) ["C"]
    [[MkTopicCondition 1 "transfer"]] [1] ["CC"] ex_ev_session).
  - unfold cursor_ok, is_u32. simpl. lia.
  - unfold cursor_ok, is_u32. simpl. lia.
  - apply ex_events_wf.
  - reflexivity.
  - intros id row (Hr&_)%ex_old_events_keys. by eexists.
  - reflexivity.
  - reflexivity.
Defined.

End Witnesses.
