(* ===== verification/DbLedger.v ===== *)
(** * The ledger table (internal/db/ledger.go)

    Reads and writes of [ledger_close_meta] on a session: single ledgers, raw
    blobs, batches, streams, the stored range and the trim of old ledgers. *)

From S2P Require Import Prelude Sdk SdkExample LedgerBucketWindow Tables.

Section Ledger.
Context `{X : Sdk} `{ND : Nondet}.

Record LedgerMetadataChunk := MkLedgerMetadataChunk {
  Chunk_Header : LedgerHeaderHistoryEntry;
  Chunk_Lcm : string;
}.

(** The rows of the table in ascending order of sequence. *)
Definition ledger_rows (t : tables) : list (Z * string) := rows_by_key Z.le (t_ledgers t).

Definition in_range (start end_ : Z) (p : Z * string) : Prop := start <= fst p <= end_.

#[global] Instance in_range_dec start end_ p : Decision (in_range start end_ p).
Proof. unfold in_range. apply _. Defined.

(** [xdr.Try] around the [Must] accessors of the view: their panic is an error. *)
Definition try_view (r : Res string) : Res string :=
  match r with Panic m => Err (EExt m) | r => r end.

Definition ParseLedgerHeaderFromMeta (r : string) : Res LedgerHeaderHistoryEntry :=
  raw ← try_view (v ← view_MustV r;
                  if decide (v = 0) then view_MustRawHeader 0 r
                  else if decide (v = 1) then view_MustRawHeader 1 r
                  else view_MustRawHeader 2 r);
  header_UnmarshalBinary raw.

(** SELECT meta WHERE start <= sequence <= end, without an ORDER BY. *)
Definition BatchGetLedgers (start end_ : Z) : M session (list LedgerMetadataChunk) :=
  if decide (end_ < start) then fail (EMsg "batch size must be greater than zero")
  else
    results ← sql_select (fun t => (scan_order (filter (in_range start end_) (ledger_rows t))).*2);
    of_res (res_map (fun meta => header ← ParseLedgerHeaderFromMeta meta;
                                 Ok (MkLedgerMetadataChunk header meta)) results).

Definition getLedgerRawFromDB (sequence : Z) : M session (option string) :=
  results ← sql_select (fun t => (filter (fun p => fst p = sequence) (ledger_rows t)).*2);
  match results with
  | [] => mret None
  | [r] => mret (Some r)
  | _ => fail (EMsg ("multiple lcm entries (" +:+ pretty (zlen results) +:+ ") for sequence "
                     +:+ pretty sequence +:+ " in table ledger_close_meta"))
  end.

Definition getLedgerFromDB (sequence : Z) : M session (option LedgerCloseMeta) :=
  raw ← getLedgerRawFromDB sequence;
  match raw with
  | None => mret None
  | Some raw => lcm ← of_res (lcm_Unmarshal raw); mret (Some lcm)
  end.

(** [ledgerReader.GetLedgerRaw] *)
Definition GetLedgerRaw (sequence : Z) : M session (option string) :=
  meta ← getLedgerRawFromDB sequence;
  match meta with
  | None => mret None
  | Some meta => mret (Some meta)
  end.

(** Running [f] over decoded rows until it fails. *)
Fixpoint stream_rows {S} (rows : list string) (f : LedgerCloseMeta -> M S unit) : M S unit :=
  match rows with
  | [] => mret tt
  | meta :: rows =>
      closeMeta ← of_res (lcm_Unmarshal meta);
      f closeMeta ;;
      stream_rows rows f
  end.

Definition StreamAllLedgers {S} (f : LedgerCloseMeta -> M S unit) : M (S * session) unit :=
  q ← zoom2 (sql_select (fun t => (ledger_rows t).*2));
  zoom1 (stream_rows q f).

Definition StreamLedgerRange {S} (startLedger endLedger : Z) (f : LedgerCloseMeta -> M S unit)
    : M (S * session) unit :=
  q ← zoom2 (sql_select (fun t => (filter (in_range startLedger endLedger) (ledger_rows t)).*2));
  zoom1 (stream_rows q f).

Definition info_of (l : LedgerCloseMeta) : LedgerInfo :=
  {| Sequence := LedgerSequence l; CloseTime := LedgerCloseTime l |}.

(** A SELECT of ledgers: decoding happens while scanning. *)
Definition select_ledgers (msg : string) (q : tables -> list string) : M session (list LedgerCloseMeta) :=
  map_err (EWrap msg)
    (rows ← sql_select q;
     of_res (res_map lcm_Unmarshal rows)).

Definition getLedgerRangeWithCache (latestSeq latestTime : Z) : M session LedgerRange :=
  lcm ← select_ledgers "couldn't query ledger range"
          (fun t => match head (ledger_rows t) with Some p => [snd p] | None => [] end);
  match lcm with
  | [] => fail (ESentinel ErrEmptyDB)
  | l :: _ => mret {| FirstLedger := info_of l;
                      LastLedger := {| Sequence := latestSeq; CloseTime := latestTime |} |}
  end.

(** WHERE sequence = MIN(sequence) OR sequence = MAX(sequence) ORDER BY sequence *)
Definition min_max_rows (t : tables) : list string :=
  match head (ledger_rows t), last (ledger_rows t) with
  | Some lo, Some hi => (filter (fun p => fst p = fst lo \/ fst p = fst hi) (ledger_rows t)).*2
  | _, _ => []
  end.

Definition getLedgerRangeWithoutCache : M session LedgerRange :=
  lcms ← select_ledgers "couldn't query ledger range" min_max_rows;
  match head lcms, last lcms with
  | Some lo, Some hi => mret {| FirstLedger := info_of lo; LastLedger := info_of hi |}
  | _, _ => fail (ESentinel ErrEmptyDB)
  end.

(** Scanning a column into a [uint32]: NULL is an error. *)
Definition scan_uint32 (name : string) (v : option Z) : Res Z :=
  match v with
  | Some z => Ok z
  | None => Err (EExt ("sql: Scan error on column " +:+ name
                       +:+ ": converting NULL to uint32 is unsupported"))
  end.

(** SELECT COUNT( * ), MIN(sequence), MAX(sequence): one row, whose MIN and MAX
    are NULL when no ledger is in the range. *)
Definition getLedgerCountInRange (start end_ : Z) : M session (Z * Z * Z) :=
  rows ← sql_select (fun t => (filter (in_range start end_) (ledger_rows t)).*1);
  min_seq ← of_res (scan_uint32 "min_seq" (head rows));
  max_seq ← of_res (scan_uint32 "max_seq" (last rows));
  if decide (zlen rows = 0) then mret (0, 0, 0) else mret (zlen rows, min_seq, max_seq).

(** ** Writing *)

Definition insert_ledger_row (seq : Z) (blob : string) (t : tables) : Res tables :=
  match t_ledgers t !! seq with
  | None => Ok (set_ledgers (<[seq := blob]> (t_ledgers t)) t)
  | Some _ => Err (EExt "UNIQUE constraint failed: ledger_close_meta.sequence")
  end.

Definition InsertLedger (ledger : LedgerCloseMeta) : M session unit :=
  sql_exec (fun t => blob ← lcm_MarshalBinary ledger;
                     insert_ledger_row (LedgerSequence ledger) blob t).

(** DELETE FROM ledger_close_meta WHERE sequence < cutoff *)
Definition delete_ledgers_below (cutoff : Z) (t : tables) : tables :=
  set_ledgers (filter (fun p => ~ fst p < cutoff) (t_ledgers t)) t.

Definition trimLedgers (latestLedgerSeq retentionWindow : Z) : M session unit :=
  match trim_cutoff latestLedgerSeq retentionWindow with
  | None => mret tt
  | Some cutoff => sql_exec (fun t => Ok (delete_ledgers_below cutoff t))
  end.

End Ledger.

Section LedgerLemmas.
Context `{X : Sdk} `{ND : Nondet}.

(** Every stored blob decodes to the ledger its key names. *)
Definition ledgers_wf (t : tables) : Prop :=
  forall k b, t_ledgers t !! k = Some b ->
    0 < k < 2 ^ 31 /\ exists l, lcm_Unmarshal b = Ok l /\ LedgerSequence l = k.

(** The oldest and newest stored ledgers. *)
Definition oldest (t : tables) (i : LedgerInfo) : Prop :=
  exists k b l, head (ledger_rows t) = Some (k, b) /\ lcm_Unmarshal b = Ok l /\ i = info_of l.
Definition newest (t : tables) (i : LedgerInfo) : Prop :=
  exists k b l, last (ledger_rows t) = Some (k, b) /\ lcm_Unmarshal b = Ok l /\ i = info_of l.

Lemma elem_of_ledger_rows t k b : (k, b) ∈ ledger_rows t <-> t_ledgers t !! k = Some b.
Proof. apply elem_of_rows_by_key. Qed.

Lemma ledger_rows_head t k b :
  head (ledger_rows t) = Some (k, b) <->
  t_ledgers t !! k = Some b /\ forall k' b', t_ledgers t !! k' = Some b' -> k <= k'.
Proof. apply rows_by_key_head; apply _. Qed.

Lemma ledger_rows_last t k b :
  last (ledger_rows t) = Some (k, b) <->
  t_ledgers t !! k = Some b /\ forall k' b', t_ledgers t !! k' = Some b' -> k' <= k.
Proof. apply rows_by_key_last; apply _. Qed.

Lemma ledger_rows_nil t : ledger_rows t = [] <-> t_ledgers t = ∅.
Proof. apply rows_by_key_nil; apply _. Qed.

Lemma oldest_ex t : ledgers_wf t -> t_ledgers t <> ∅ -> exists i, oldest t i.
Proof.
  intros Hwf Hne. rewrite <- ledger_rows_nil in Hne.
  destruct (ledger_rows t) as [|[k b] l] eqn:E; [done|].
  destruct (Hwf k b) as (_&lcm&Hl&Hk); [apply elem_of_ledger_rows; rewrite E; by left|].
  exists (info_of lcm). exists k, b, lcm. by rewrite E.
Qed.

Lemma newest_ex t : ledgers_wf t -> t_ledgers t <> ∅ -> exists i, newest t i.
Proof.
  intros Hwf Hne. rewrite <- ledger_rows_nil in Hne.
  destruct (last (ledger_rows t)) as [[k b]|] eqn:E; [|by apply last_None in E].
  destruct (Hwf k b) as (_&lcm&Hl&Hk).
  { apply last_Some in E as [l' El]. apply elem_of_ledger_rows. rewrite El.
    apply elem_of_app. right. by left. }
  exists (info_of lcm). exists k, b, lcm. done.
Qed.

Lemma oldest_unique t i j : oldest t i -> oldest t j -> i = j.
Proof. intros (k&b&l&?&?&->) (k'&b'&l'&?&?&->). congruence. Qed.

Lemma newest_unique t i j : newest t i -> newest t j -> i = j.
Proof. intros (k&b&l&?&?&->) (k'&b'&l'&?&?&->). congruence. Qed.

Lemma oldest_seq t i : ledgers_wf t -> oldest t i ->
  exists b, head (ledger_rows t) = Some (Sequence i, b) /\ 0 < Sequence i < 2 ^ 31.
Proof.
  intros Hwf (k&b&l&Hh&Hl&->). exists b.
  destruct (Hwf k b) as (?&l'&Hl'&<-); [by apply ledger_rows_head in Hh as [? _]|].
  rewrite Hl in Hl'. simplify_eq. done.
Qed.

Lemma newest_seq t i : ledgers_wf t -> newest t i ->
  exists b, last (ledger_rows t) = Some (Sequence i, b) /\ 0 < Sequence i < 2 ^ 31.
Proof.
  intros Hwf (k&b&l&Hh&Hl&->). exists b.
  destruct (Hwf k b) as (?&l'&Hl'&<-); [by apply ledger_rows_last in Hh as [? _]|].
  rewrite Hl in Hl'. simplify_eq. done.
Qed.

(** [min_max_rows] is the first and the last row, which may be the same. *)
Lemma min_max_rows_spec t k1 b1 k2 b2 :
  head (ledger_rows t) = Some (k1, b1) -> last (ledger_rows t) = Some (k2, b2) ->
  min_max_rows t = if decide (k1 = k2) then [b1] else [b1; b2].
Proof.
  intros Hh Hl. unfold min_max_rows. rewrite Hh, Hl. simpl.
  assert (StronglySorted (key_le Z.le) (ledger_rows t)) as HS by (apply rows_by_key_sorted; apply _).
  assert (NoDup (ledger_rows t).*1) as HN by (apply NoDup_rows_by_key).
  destruct (ledger_rows t) as [|p l]; [done|]. simplify_eq/=.
  apply NoDup_cons in HN as [Hni HN]. apply StronglySorted_inv in HS as [HS HF].
  rewrite filter_cons_True by (simpl; lia). simpl.
  destruct l as [|q l] using rev_ind.
  - simpl in Hl. simplify_eq. by rewrite decide_True.
  - clear IHl. rewrite last_cons, last_snoc in Hl. simplify_eq.
    rewrite decide_False.
    2: { intros ->. apply Hni. rewrite fmap_app. apply elem_of_app. right. by left. }
    rewrite fmap_app in HN, Hni. apply NoDup_app in HN as (_&Hd&_).
    rewrite filter_app, filter_none, filter_cons_True; [done|simpl; lia|].
    intros [k b] Hin [E|E]; simpl in E; subst.
    + apply Hni, elem_of_app. left. by apply (list_elem_of_fmap_2 fst) in Hin.
    + apply (Hd k2); [by apply (list_elem_of_fmap_2 fst) in Hin|by left].
Qed.

Lemma ledger_rows_empty_heads t : t_ledgers t = ∅ -> head (ledger_rows t) = None /\ last (ledger_rows t) = None.
Proof. intros H. apply ledger_rows_nil in H. by rewrite H. Qed.

(** The range queries, when no statement fails. *)
Lemma getLedgerRangeWithoutCache_spec s r s' :
  ledgers_wf (s_tab s) -> getLedgerRangeWithoutCache s = (r, s') ->
  s_tab s' = s_tab s /\
  ((t_ledgers (s_tab s) = ∅ /\ r = Err (ESentinel ErrEmptyDB)) \/
   (exists lo hi, oldest (s_tab s) lo /\ newest (s_tab s) hi /\
      r = Ok {| FirstLedger := lo; LastLedger := hi |}) \/
   (exists e, r = Err (EWrap "couldn't query ledger range" e) /\ exists e', head (s_faults s) = Some (Some e'))).
Proof.
  intros Hwf. unfold getLedgerRangeWithoutCache, select_ledgers, sql_select, statement. unfold_m.
  destruct (next_fault (s_faults s)) as [[e|] fs] eqn:Hf.
  { intros [= <- <-]. split; [done|]. right; right. exists e. split; [done|].
    destruct (s_faults s); simplify_eq/=. by exists e. }
  simpl. destruct (decide (t_ledgers (s_tab s) = ∅)) as [He|He].
  { destruct (ledger_rows_empty_heads _ He) as [H1 H2]. unfold min_max_rows. rewrite H1. simpl.
    intros [= <- <-]. split; [done|]. by left. }
  destruct (oldest_ex _ Hwf He) as [lo Hlo], (newest_ex _ Hwf He) as [hi Hhi].
  pose proof Hlo as (k1&b1&l1&Hh1&Hu1&->). pose proof Hhi as (k2&b2&l2&Hh2&Hu2&->).
  rewrite (min_max_rows_spec _ _ _ _ _ Hh1 Hh2).
  assert (k1 = k2 -> l1 = l2) as Heq.
  { intros ->. apply ledger_rows_head in Hh1 as [Hx _]. apply ledger_rows_last in Hh2 as [Hy _]. congruence. }
  case_decide; simpl; unfold mbind, Res_bind; rewrite Hu1; [|rewrite Hu2]; simpl;
    intros [= <- <-]; (split; [done|]); right; left; eauto 10.
  rewrite (Heq H) in *. eauto 10.
Qed.

Lemma getLedgerRangeWithCache_spec seq time s r s' :
  ledgers_wf (s_tab s) -> getLedgerRangeWithCache seq time s = (r, s') ->
  s_tab s' = s_tab s /\
  ((t_ledgers (s_tab s) = ∅ /\ r = Err (ESentinel ErrEmptyDB)) \/
   (exists lo, oldest (s_tab s) lo /\
      r = Ok {| FirstLedger := lo; LastLedger := {| Sequence := seq; CloseTime := time |} |}) \/
   (exists e, r = Err (EWrap "couldn't query ledger range" e) /\ exists e', head (s_faults s) = Some (Some e'))).
Proof.
  intros Hwf. unfold getLedgerRangeWithCache, select_ledgers, sql_select, statement. unfold_m.
  destruct (next_fault (s_faults s)) as [[e|] fs] eqn:Hf.
  { intros [= <- <-]. split; [done|]. right; right. exists e. split; [done|].
    destruct (s_faults s); simplify_eq/=. by exists e. }
  simpl. destruct (decide (t_ledgers (s_tab s) = ∅)) as [He|He].
  { destruct (ledger_rows_empty_heads _ He) as [H1 H2]. rewrite H1. simpl.
    intros [= <- <-]. split; [done|]. by left. }
  destruct (oldest_ex _ Hwf He) as [lo Hlo]. pose proof Hlo as (k1&b1&l1&Hh1&Hu1&->).
  rewrite Hh1. simpl. unfold mbind, Res_bind. rewrite Hu1. simpl.
  intros [= <- <-]. split; [done|]. right; left. eauto.
Qed.

Lemma filter_key_single {K A} `{EqDecision K} (l : list (K * A)) k a :
  NoDup l.*1 -> (k, a) ∈ l -> filter (fun p => fst p = k) l = [(k, a)].
Proof.
  induction l as [|[k' a'] l IH]; intros Hn Hin; [by apply elem_of_nil in Hin|].
  rewrite fmap_cons in Hn. apply NoDup_cons in Hn as [Hni Hn]. rewrite filter_cons. simpl.
  apply elem_of_cons in Hin as [[= <- <-]|Hin].
  - rewrite decide_True by done. rewrite filter_none; [done|]. intros [k2 a2] Hp E. simpl in E. subst.
    apply Hni. by apply (list_elem_of_fmap_2 fst) in Hp.
  - rewrite decide_False; [by apply IH|]. simpl in Hni. intros ->. apply Hni.
    by apply (list_elem_of_fmap_2 fst) in Hin.
Qed.

(** Reading a stored ledger when no statement fails. *)
Lemma getLedgerRawFromDB_ok seq b s :
  s_faults s = [] -> t_ledgers (s_tab s) !! seq = Some b -> getLedgerRawFromDB seq s = (Ok (Some b), s).
Proof.
  intros Hf Hl. unfold getLedgerRawFromDB, sql_select, statement. unfold_m. rewrite Hf. simpl.
  rewrite (filter_key_single _ seq b); [|apply NoDup_rows_by_key|by apply elem_of_ledger_rows].
  simpl. destruct s. simpl in Hf. by subst.
Qed.

Lemma getLedgerFromDB_ok seq b lcm s :
  s_faults s = [] -> t_ledgers (s_tab s) !! seq = Some b -> lcm_Unmarshal b = Ok lcm ->
  getLedgerFromDB seq s = (Ok (Some lcm), s).
Proof.
  intros Hf Hl Hu. unfold getLedgerFromDB. unfold mbind, M_bind. rewrite (getLedgerRawFromDB_ok _ _ _ Hf Hl).
  unfold_m. by rewrite Hu.
Qed.

End LedgerLemmas.
