(* ===== verification/Db.v ===== *)
(** * The database handle (internal/db/db.go and the cached reads of ledger.go)

    The shared cache of the stored range, the read-write transaction with its
    three writers, its commit, and the bulk-load reshaping of the schema. *)

From S2P Require Import Prelude GoStd GoText Sdk SdkExample LedgerBucketWindow Tables DbTransaction DbEvent DbLedger.

Record dbCache := MkDbCache {
  latestLedgerSeq : Z;
  latestLedgerCloseTime : Z;
  firstLedgerSeq : Z;
  firstLedgerCloseTime : Z;
}.

Definition zeroCache : dbCache := MkDbCache 0 0 0 0.

Definition set_latest (seq time : Z) (c : dbCache) : dbCache :=
  MkDbCache seq time (firstLedgerSeq c) (firstLedgerCloseTime c).
Definition set_first (seq time : Z) (c : dbCache) : dbCache :=
  MkDbCache (latestLedgerSeq c) (latestLedgerCloseTime c) seq time.

(** A handle: the session on the committed tables and the shared cache. *)
Record DB := MkDB { d_sess : session; d_cache : dbCache }.

Definition d_tab (d : DB) : tables := s_tab (d_sess d).
Definition set_sess (s : session) (d : DB) : DB := MkDB s (d_cache d).
Definition set_cache (c : dbCache) (d : DB) : DB := MkDB (d_sess d) c.

Definition on_session {A} (m : M session A) : M DB A := zoom d_sess set_sess m.
Definition on_cache (f : dbCache -> dbCache) : M DB unit := modify (fun d => set_cache (f (d_cache d)) d).

Definition ResetCache : M DB unit := on_cache (fun _ => zeroCache).

(** ** The metadata table *)

Definition getMetaValue (key : string) : M session string :=
  results ← sql_select (fun t => option_list (t_meta t !! key));
  match results with
  | [] => fail (ESentinel ErrEmptyDB)
  | [v] => mret v
  | _ => fail (EMsg ("multiple entries (" +:+ pretty (zlen results) +:+ ") for key " +:+ key))
  end.

Definition getMetaBool (key : string) : M session bool :=
  valueStr ← getMetaValue key;
  of_res (ParseBool valueStr).

(** REPLACE INTO metadata *)
Definition replace_meta (key value : string) (t : tables) : tables :=
  set_meta (<[key := value]> (t_meta t)) t.

Definition setMetaBool (key : string) (value : bool) : M session unit :=
  sql_exec (fun t => Ok (replace_meta key (FormatBool value) t)).

(** ** Cached reads *)

Section Reads.
Context `{X : Sdk} `{ND : Nondet}.

Definition cached_range (c : dbCache) : LedgerRange :=
  {| FirstLedger := {| Sequence := firstLedgerSeq c; CloseTime := firstLedgerCloseTime c |};
     LastLedger := {| Sequence := latestLedgerSeq c; CloseTime := latestLedgerCloseTime c |} |}.

(** The critical section of [GetLedgerRange] that memoizes the oldest ledger,
    unless the latest moved since it was read as [latestLedgerSeqCache]. *)
Definition memoize_first (latestLedgerSeqCache : Z) (ledgerRange : LedgerRange) (c : dbCache) : dbCache :=
  if decide (firstLedgerSeq c = 0 /\ latestLedgerSeq c = latestLedgerSeqCache)
  then set_first (Sequence (FirstLedger ledgerRange)) (CloseTime (FirstLedger ledgerRange)) c
  else c.

(** [ledgerReader.GetLedgerRange] *)
Definition GetLedgerRange_db : M DB LedgerRange :=
  c ← gets d_cache;
  if decide (latestLedgerSeq c <> 0 /\ firstLedgerSeq c <> 0) then mret (cached_range c)
  else if decide (latestLedgerSeq c <> 0) then
    ledgerRange ← on_session (getLedgerRangeWithCache (latestLedgerSeq c) (latestLedgerCloseTime c));
    on_cache (memoize_first (latestLedgerSeq c) ledgerRange) ;;
    mret ledgerRange
  else on_session getLedgerRangeWithoutCache.

(** The critical section of [getLatestLedgerSequence]. *)
Definition raise_latest (ledgerRange : LedgerRange) (c : dbCache) : dbCache :=
  if decide (latestLedgerSeq c < Sequence (LastLedger ledgerRange))
  then set_latest (Sequence (LastLedger ledgerRange)) (CloseTime (LastLedger ledgerRange)) c
  else c.

Definition getLatestLedgerSequence : M DB Z :=
  c ← gets d_cache;
  if decide (latestLedgerSeq c <> 0) then mret (latestLedgerSeq c)
  else
    ledgerRange ← GetLedgerRange_db;
    on_cache (raise_latest ledgerRange) ;;
    mret (Sequence (LastLedger ledgerRange)).

(** [ledgerReaderTx]: a session on the snapshot and the cached latest ledger. *)
Record ledgerReaderTx := MkLedgerReaderTx {
  rtx_tx : session;
  rtx_latestLedgerSeq : Z;
  rtx_latestLedgerCloseTime : Z;
}.

(** [ledgerReader.NewTx]; [faults] is the schedule of the new session.  The
    snapshot is the one at BEGIN; SQLite fixes it at the first read of the
    transaction, which can only be later. *)
Definition NewTx_reader (faults : list (option error)) : M DB ledgerReaderTx :=
  t ← map_err (EWrap "failed to begin read transaction") (on_session (sql_select (fun t => t)));
  c ← gets d_cache;
  mret {| rtx_tx := MkSession t faults;
          rtx_latestLedgerSeq := latestLedgerSeq c;
          rtx_latestLedgerCloseTime := latestLedgerCloseTime c |}.

Definition GetLedgerRange_tx (l : ledgerReaderTx) : M session LedgerRange :=
  if decide (rtx_latestLedgerSeq l <> 0)
  then getLedgerRangeWithCache (rtx_latestLedgerSeq l) (rtx_latestLedgerCloseTime l)
  else getLedgerRangeWithoutCache.

(** ** The write transaction *)

Record writeTx := MkWriteTx {
  w_tx : session; (* the working copy of the transaction *)
  w_open : bool; (* neither committed nor rolled back *)
  w_txWriter : transactionHandler;
  w_eventWriter : eventHandler;
  w_historyRetentionWindow : Z;
}.

Definition w_set_tx (s : session) (w : writeTx) : writeTx :=
  MkWriteTx s (w_open w) (w_txWriter w) (w_eventWriter w) (w_historyRetentionWindow w).
Definition w_close (w : writeTx) : writeTx :=
  MkWriteTx (w_tx w) false (w_txWriter w) (w_eventWriter w) (w_historyRetentionWindow w).

(** Running a writer on the transaction's session. *)
Definition with_txWriter {A} : M (transactionHandler * session) A -> M writeTx A :=
  zoom (fun w => (w_txWriter w, w_tx w))
       (fun hs w => MkWriteTx (snd hs) (w_open w) (fst hs) (w_eventWriter w) (w_historyRetentionWindow w)).
Definition with_eventWriter {A} : M (eventHandler * session) A -> M writeTx A :=
  zoom (fun w => (w_eventWriter w, w_tx w))
       (fun hs w => MkWriteTx (snd hs) (w_open w) (w_txWriter w) (fst hs) (w_historyRetentionWindow w)).
Definition with_ledgerWriter {A} : M session A -> M writeTx A := zoom w_tx w_set_tx.

(** [readWriter.NewTx]; [faults] is the schedule of the new session. *)
Definition NewTx (historyRetentionWindow : Z) (passphrase : string) (faults : list (option error))
    : M DB writeTx :=
  t ← on_session (sql_select (fun t => t));
  mret {| w_tx := MkSession t faults; w_open := true;
          w_txWriter := MkTransactionHandler true passphrase [];
          w_eventWriter := MkEventHandler true passphrase [];
          w_historyRetentionWindow := historyRetentionWindow |}.

Definition flushWriters : M writeTx unit :=
  with_txWriter flushPending_txs ;;
  with_eventWriter flushPending_evs.

Definition trimTables (ledgerSeq : Z) : M writeTx unit :=
  w ← get;
  with_ledgerWriter (trimLedgers ledgerSeq (w_historyRetentionWindow w)) ;;
  with_txWriter (trimTransactions ledgerSeq (w_historyRetentionWindow w)) ;;
  with_eventWriter (trimEvents ledgerSeq (w_historyRetentionWindow w)).

(** [w.tx.Commit()]: on success the working copy becomes the committed tables. *)
Definition tx_Commit : M (writeTx * DB) unit :=
  '(w, _) ← get;
  if negb (w_open w) then fail (ESentinel NotInTransaction)
  else
    t ← zoom1 (with_ledgerWriter (sql_select (fun t => t)));
    zoom1 (modify w_close) ;;
    zoom2 (modify (fun d => set_sess (MkSession t (s_faults (d_sess d))) d)).

(** The cache update of [commitAndUpdateCache]. *)
Definition cache_after_commit (ledgerSeq ledgerCloseTime window : Z) (c : dbCache) : dbCache :=
  let c := if decide (latestLedgerSeq c < ledgerSeq) then set_latest ledgerSeq ledgerCloseTime c else c in
  if decide (window <> 0 /\ window < u32 (ledgerSeq + 1)) then
    let cutoff := u32 (ledgerSeq + 1 - window) in
    if decide (firstLedgerSeq c <> 0 /\ firstLedgerSeq c < cutoff) then set_first 0 0 c else c
  else c.

Definition commitAndUpdateCache (ledgerSeq ledgerCloseTime : Z) : M (writeTx * DB) unit :=
  tx_Commit ;;
  '(w, _) ← get;
  zoom2 (on_cache (cache_after_commit ledgerSeq ledgerCloseTime (w_historyRetentionWindow w))).

(** PRAGMA wal_checkpoint(TRUNCATE) *)
Definition postCommit : M DB unit := on_session (sql_exec (fun t => Ok t)).

Definition Commit (ledgerCloseMeta : LedgerCloseMeta) : M (writeTx * DB) unit :=
  zoom1 flushWriters ;;
  zoom1 (trimTables (LedgerSequence ledgerCloseMeta)) ;;
  commitAndUpdateCache (LedgerSequence ledgerCloseMeta) (LedgerCloseTime ledgerCloseMeta) ;;
  zoom2 postCommit.

(** [w.tx.Rollback()] *)
Definition tx_Rollback : M writeTx unit :=
  w ← get;
  if negb (w_open w) then fail (ESentinel NotInTransaction)
  else with_ledgerWriter (sql_select (fun _ => tt)) ;; modify w_close.

Definition Rollback : M writeTx unit :=
  r ← attempt tx_Rollback;
  match r with
  | inl _ => mret tt
  | inr err => if bool_decide (error_message err = "not in transaction") then mret tt else fail err
  end.

End Reads.

(** ** Bulk load *)

Record deferredIndex := MkDeferredIndex { Name : string; DDL : string }.

#[global] Instance deferredIndex_eq_dec : EqDecision deferredIndex.
Proof. solve_decision. Defined.

Definition deferredIndexes : list deferredIndex :=
  [MkDeferredIndex "idx_transactions_hash" "CREATE UNIQUE INDEX idx_transactions_hash ON transactions(hash)";
   MkDeferredIndex "idx_id_contract_id" "CREATE INDEX idx_id_contract_id ON events (contract_id, id)";
   MkDeferredIndex "idx_id_topic1" "CREATE INDEX idx_id_topic1 ON events (topic1, id)"].

Definition pendingIndexesMetaKey : string := "BulkLoadPendingIndexes".

(** encoding/json on a list of deferred indexes. *)
Class IndexJson := {
  index_Marshal : list deferredIndex -> Res string;
  index_Unmarshal : string -> Res (list deferredIndex);
}.
Class IndexJsonLaws `{IndexJson} := {
  index_json_roundtrip : forall l s, index_Marshal l = Ok s -> index_Unmarshal s = Ok l;
}.

(** The DDL statements of the bulk load. *)
Definition drop_index (name : string) (t : tables) : Res tables :=
  Ok (set_indexes (t_indexes t ∖ {[name]}) t).

(** DROP TABLE transactions drops its indexes too. *)
Definition drop_transactions (t : tables) : Res tables :=
  Ok (set_indexes (t_indexes t ∖ {["index_ledger_sequence"; "idx_transactions_hash"]}) (set_txs [] t)).

Definition create_bulk_transactions (t : tables) : Res tables :=
  Ok (MkTables (t_ledgers t) [] (t_events t) (t_meta t) (t_indexes t) false).

Definition create_index (name : string) (unique_hash : bool) (t : tables) : Res tables :=
  if decide (name ∈ t_indexes t) then Err (EExt ("index " +:+ name +:+ " already exists"))
  else if unique_hash && negb (bool_decide (NoDup (row_hash <$> t_txs t)))
  then Err (EExt "UNIQUE constraint failed: transactions.hash")
  else Ok (set_indexes ({[name]} ∪ t_indexes t) t).

(** The meaning of the CREATE INDEX statements of [deferredIndexes]. *)
Definition exec_index_ddl (ddl : string) (t : tables) : Res tables :=
  match list_find (fun i => DDL i = ddl) deferredIndexes with
  | Some (_, i) => create_index (Name i) (bool_decide (Name i = "idx_transactions_hash")) t
  | None => Err (EExt "syntax error")
  end.

Section BulkLoad.
Context `{IJ : IndexJson}.

(** A transaction on a session: its statements run on a copy that replaces the
    tables when they all succeed and the commit does. *)
Definition in_transaction (begin_msg commit_msg : string) (body : M session unit) : M session unit :=
  fun s =>
    match map_err (EWrap begin_msg) (sql_select (fun _ => tt)) s with
    | (Ok _, s1) =>
        match (body ;; map_err (EWrap commit_msg) (sql_select (fun _ => tt))) s1 with
        | (Ok _, s2) => (Ok tt, s2)
        | (r, s2) => (r, MkSession (s_tab s1) (s_faults s2))
        end
    | (r, s1) => (r, s1)
    end.

Definition prepare_step (stmt : string) (f : tables -> Res tables) : M session unit :=
  map_err (EWrap ("bulk-load prepare failed on " +:+ stmt)) (sql_exec f).

Definition PrepareBulkLoad : M session unit :=
  pending ← map_err (EWrap "could not encode deferred index record") (of_res (index_Marshal deferredIndexes));
  in_transaction "could not begin bulk-load prepare" "could not commit bulk-load prepare"
    (for_each deferredIndexes (fun idx => prepare_step ("DROP INDEX IF EXISTS " +:+ Name idx)
                                            (drop_index (Name idx))) ;;
     prepare_step "DROP TABLE IF EXISTS transactions" drop_transactions ;;
     prepare_step "CREATE TABLE transactions" create_bulk_transactions ;;
     prepare_step "CREATE INDEX index_ledger_sequence ON transactions(ledger_sequence)"
       (create_index "index_ledger_sequence" false) ;;
     map_err (EWrap "could not record deferred indexes")
       (sql_exec (fun t => Ok (replace_meta pendingIndexesMetaKey pending t)))).

(** [openIndexBuildSession]: opening the file and setting the pragma. *)
Definition openIndexBuildSession : M session unit :=
  map_err (EWrap "open index build session failed") (sql_select (fun _ => tt)) ;;
  map_err (EWrap "could not enable multithreaded sorter") (sql_exec (fun t => Ok t)).

Definition build_index (idx : deferredIndex) : M session unit :=
  count ← map_err (EWrap ("could not check index " +:+ Name idx))
            (sql_select (fun t => if decide (Name idx ∈ t_indexes t) then 1 else 0));
  if decide (0 < count) then mret tt
  else
    map_err (EWrap ("could not build index " +:+ Name idx)) (sql_exec (exec_index_ddl (DDL idx))) ;;
    map_err (EWrap ("could not checkpoint after building index " +:+ Name idx)) (sql_exec (fun t => Ok t)).

Definition FinalizeBulkLoad : M session unit :=
  r ← attempt (getMetaValue pendingIndexesMetaKey);
  match r with
  | inr err => if errors_Is err ErrEmptyDB then mret tt
               else fail (EWrap "could not read deferred index record" err)
  | inl pendingJSON =>
      pending ← map_err (EWrap ("could not decode deferred index record " +:+ pendingJSON))
                  (of_res (index_Unmarshal pendingJSON));
      openIndexBuildSession ;;
      for_each pending build_index ;;
      map_err (EWrap "could not clear deferred index record")
        (sql_exec (fun t => Ok (set_meta (delete pendingIndexesMetaKey (t_meta t)) t)))
  end.

End BulkLoad.

Section CacheLemmas.
Context `{X : Sdk} `{ND : Nondet}.

(** The cache agrees with the committed tables. *)
Definition cache_ok (d : DB) : Prop :=
  let c := d_cache d in
  ledgers_wf (d_tab d) /\
  (latestLedgerSeq c <> 0 -> newest (d_tab d) {| Sequence := latestLedgerSeq c; CloseTime := latestLedgerCloseTime c |}) /\
  (firstLedgerSeq c <> 0 -> oldest (d_tab d) {| Sequence := firstLedgerSeq c; CloseTime := firstLedgerCloseTime c |}).

(** The stored range, as the tables tell it. *)
Definition stored_range (t : tables) (r : LedgerRange) : Prop :=
  oldest t (FirstLedger r) /\ newest t (LastLedger r).

Lemma newest_nonempty t i : newest t i -> t_ledgers t <> ∅.
Proof. intros (k&b&l&Hh&_) He%ledger_rows_nil. by rewrite He in Hh. Qed.

Lemma on_session_run {A} (m : M session A) d r s' :
  m (d_sess d) = (r, s') -> on_session m d = (r, set_sess s' d).
Proof. intros H. unfold on_session, zoom. by rewrite H. Qed.

(** The cached and the uncached read of the range agree. *)
Lemma GetLedgerRange_db_spec d r d' :
  cache_ok d -> GetLedgerRange_db d = (r, d') ->
  d_tab d' = d_tab d /\ latestLedgerSeq (d_cache d') = latestLedgerSeq (d_cache d) /\ cache_ok d' /\
  ((exists lr, r = Ok lr /\ stored_range (d_tab d) lr) \/
   (t_ledgers (d_tab d) = ∅ /\ r = Err (ESentinel ErrEmptyDB)) \/
   (exists e, r = Err (EWrap "couldn't query ledger range" e) /\
      exists e', head (s_faults (d_sess d)) = Some (Some e'))).
Proof.
  intros Hok. pose proof Hok as (Hwf&Hlast&Hfirst). unfold d_tab in *.
  unfold GetLedgerRange_db, mbind, M_bind, gets. simpl.
  case_decide as Hd1; [|case_decide as Hd2].
  - intros [= <- <-]. split_and!; [done..|]. left. eexists. split; [done|].
    split; [apply Hfirst|apply Hlast]; tauto.
  - destruct (getLedgerRangeWithCache (latestLedgerSeq (d_cache d))
      (latestLedgerCloseTime (d_cache d)) (d_sess d)) as [r1 s1] eqn:E.
    rewrite (on_session_run _ _ _ _ E).
    apply getLedgerRangeWithCache_spec in E as (Ht&Hr); [|done].
    destruct Hr as [[He ->]|[(lo&Hlo&->)|(e&->&He)]].
    + intros [= <- <-]. simpl. rewrite Ht. unfold cache_ok, d_tab. simpl. rewrite Ht. eauto 10.
    + unfold on_cache, modify, mret, M_ret. simpl. intros [= <- <-]. simpl.
      unfold memoize_first. simpl.
      assert (stored_range (s_tab (d_sess d)) {| FirstLedger := lo;
        LastLedger := {| Sequence := latestLedgerSeq (d_cache d); CloseTime := latestLedgerCloseTime (d_cache d) |} |})
        by (split; [done|by apply Hlast]).
      split_and!; [done|by case_decide| |eauto].
      unfold cache_ok, d_tab. simpl. rewrite Ht. case_decide; simpl; [|done].
      split_and!; [done..|]. intros _. by destruct lo.
    + intros [= <- <-]. simpl. unfold cache_ok, d_tab. simpl. rewrite Ht. eauto 10.
  - destruct (getLedgerRangeWithoutCache (d_sess d)) as [r1 s1] eqn:E.
    rewrite (on_session_run _ _ _ _ E).
    apply getLedgerRangeWithoutCache_spec in E as (Ht&Hr); [|done].
    intros [= <- <-]. simpl. unfold cache_ok, d_tab. simpl. rewrite Ht.
    destruct Hr as [[He ->]|[(lo&hi&Hlo&Hhi&->)|(e&->&He)]]; split_and!; try done; eauto 10.
    left. eexists. split; [done|]. by split.
Qed.

Lemma GetLedgerRange_db_faults : keeps (fun d d' => no_new_faults (d_sess d) (d_sess d')) GetLedgerRange_db.
Proof.
  assert (PreOrder (fun d d' => no_new_faults (d_sess d) (d_sess d'))) as HP.
  { split; [intros d; reflexivity|intros a b c; apply transitivity]. }
  assert (forall q, keeps no_new_faults (select_ledgers "couldn't query ledger range" q)) as Hsel.
  { intros q. unfold select_ledgers. apply keeps_map_err, keeps_bind; [apply _|apply keeps_statement_faults|].
    intros. apply keeps_of_res, _. }
  unfold GetLedgerRange_db. apply keeps_bind; [done|by apply keeps_gets|]. intros c.
  repeat case_decide; [by apply keeps_ret| |].
  - apply keeps_bind; [done| |intros lr; apply keeps_bind; [done|by apply keeps_modify|intros; by apply keeps_ret]].
    apply (keeps_zoom _ no_new_faults); [|done]. unfold getLedgerRangeWithCache.
    apply keeps_bind; [apply _|apply Hsel|]. intros lcm. case_match; [apply keeps_fail, _|apply keeps_ret, _].
  - apply (keeps_zoom _ no_new_faults); [|done]. unfold getLedgerRangeWithoutCache.
    apply keeps_bind; [apply _|apply Hsel|]. intros lcm.
    repeat case_match; first [apply keeps_fail, _|apply keeps_ret, _].
Qed.

Lemma raise_latest_ok d lr :
  cache_ok d -> (latestLedgerSeq (d_cache d) = 0 -> newest (d_tab d) (LastLedger lr)) ->
  (latestLedgerSeq (d_cache d) <> 0 ->
     Sequence (LastLedger lr) <= latestLedgerSeq (d_cache d)) ->
  cache_ok (set_cache (raise_latest lr (d_cache d)) d).
Proof.
  intros (Hwf&Hl&Hf) H0 H1. unfold raise_latest, cache_ok, d_tab. simpl.
  case_decide as Hd; [|done]. simpl. split_and!; [done| |done]. intros _.
  destruct (decide (latestLedgerSeq (d_cache d) = 0)) as [E|E]; [|specialize (H1 E); lia].
  specialize (H0 E). by destruct (LastLedger lr).
Qed.

(** The newest sequence, cached or not. *)
Lemma getLatestLedgerSequence_newest d i :
  cache_ok d -> s_faults (d_sess d) = [] -> newest (d_tab d) i ->
  exists d', getLatestLedgerSequence d = (Ok (Sequence i), d') /\ d_tab d' = d_tab d /\
    s_faults (d_sess d') = [] /\ cache_ok d'.
Proof.
  intros Hok Hf Hn. pose proof Hok as (_&Hl&_). unfold getLatestLedgerSequence, mbind, M_bind, gets. simpl.
  case_decide as Hd.
  - exists d. split_and!; [|done..]. by pose proof (newest_unique _ _ _ Hn (Hl Hd)) as ->.
  - destruct (GetLedgerRange_db d) as [r d1] eqn:E.
    pose proof (GetLedgerRange_db_faults _ _ _ E Hf) as Hf1.
    apply GetLedgerRange_db_spec in E as (Ht&Hc&Hok1&Hr); [|done]. rewrite Hf in Hr.
    destruct Hr as [(lr&->&_&Hlr)|[[He _]|(?&_&?&[=])]]; [|by apply newest_nonempty in Hn].
    rewrite (newest_unique _ _ _ Hn Hlr). eexists. split_and!; [reflexivity|done|done|].
    apply raise_latest_ok; [done|by rewrite Ht|]. intros H. by rewrite Hc in H.
Qed.

(** ** The commit *)

Lemma flush_txs_keeps {B} (f : tables -> B) n :
  (forall x t, f (set_txs x t) = f t) -> keeps (fixes (f ∘ s_tab ∘ snd)) (flush_txs n).
Proof.
  intros Hf. unfold flush_txs. apply keeps_bind; [apply _|apply keeps_get, _|]. intros [h s].
  apply keeps_bind; [apply _|case_match; [apply keeps_panic, _|apply keeps_ret, _]|]. intros _.
  apply keeps_bind; [apply _| |intros _].
  - eapply (keeps_zoom2 _ (fixes (f ∘ s_tab))); [apply keeps_sql_exec|done].
    intros t t' ->%insert_tx_rows_inv. apply Hf.
  - eapply (keeps_zoom1 _ (fun _ _ => True)); [by intros ???|done].
Qed.

Lemma flush_evs_keeps {B} (f : tables -> B) n :
  (forall x t, f (set_events x t) = f t) -> keeps (fixes (f ∘ s_tab ∘ snd)) (flush_evs n).
Proof.
  intros Hf. unfold flush_evs. apply keeps_bind; [apply _|apply keeps_get, _|]. intros [h s].
  apply keeps_bind; [apply _|case_match; [apply keeps_panic, _|apply keeps_ret, _]|]. intros _.
  apply keeps_bind; [apply _|apply keeps_of_res, _|intros rows].
  apply keeps_bind; [apply _| |intros _].
  - eapply (keeps_zoom2 _ (fixes (f ∘ s_tab))); [apply keeps_sql_exec|done].
    intros t t' Ht%bind_limited_ok. revert Ht. case_match; naive_solver.
  - eapply (keeps_zoom1 _ (fun _ _ => True)); [by intros ???|done].
Qed.

Lemma flushPending_txs_keeps {B} (f : tables -> B) :
  (forall x t, f (set_txs x t) = f t) -> keeps (fixes (f ∘ s_tab ∘ snd)) flushPending_txs.
Proof.
  intros Hf. unfold flushPending_txs. apply keeps_bind; [apply _|apply keeps_get, _|]. intros [h s].
  case_match; [apply keeps_ret, _|by apply flush_txs_keeps].
Qed.

Lemma flushPending_evs_keeps {B} (f : tables -> B) :
  (forall x t, f (set_events x t) = f t) -> keeps (fixes (f ∘ s_tab ∘ snd)) flushPending_evs.
Proof.
  intros Hf. unfold flushPending_evs. apply keeps_bind; [apply _|apply keeps_get, _|]. intros [h s].
  case_match; [apply keeps_ret, _|by apply flush_evs_keeps].
Qed.

Lemma flushWriters_keeps {B} (f : tables -> B) :
  (forall x t, f (set_txs x t) = f t) -> (forall x t, f (set_events x t) = f t) ->
  keeps (fixes (fun w => f (s_tab (w_tx w)))) flushWriters.
Proof.
  intros H1 H2. unfold flushWriters. apply keeps_bind; [apply _| |intros _].
  - apply (keeps_zoom _ (fixes (f ∘ s_tab ∘ snd))); [by apply flushPending_txs_keeps|by intros w [h s]].
  - apply (keeps_zoom _ (fixes (f ∘ s_tab ∘ snd))); [by apply flushPending_evs_keeps|by intros w [h s]].
Qed.

(** A successful flush has written every buffered transaction row. *)
Lemma flushWriters_txs w w' :
  flushWriters w = (Ok tt, w') ->
  t_txs (s_tab (w_tx w')) = all_tx_rows (w_txWriter w, w_tx w).
Proof.
  unfold flushWriters, mbind, M_bind, with_txWriter, with_eventWriter, zoom.
  destruct (flushPending_txs _) as [[[]|e|p] [h1 s1]] eqn:E1; [|done..].
  destruct (flushPending_evs _) as [r [h2 s2]] eqn:E2. intros [= -> <-]. simpl.
  eapply (flushPending_evs_keeps t_txs) in E2; [|done]. unfold fixes in E2. simpl in E2. rewrite E2.
  revert E1. unfold flushPending_txs. unfold_m. simpl. case_decide as Hl.
  - intros [= <- <-]. unfold all_tx_rows. simpl. apply length_zero_iff_nil in Hl.
    rewrite Hl. simpl. by rewrite app_nil_r.
  - intros E1. apply flush_txs_spec in E1 as (_&Hall&_&->); [|done]. rewrite <- Hall.
    unfold all_tx_rows. simpl. by rewrite drop_all, app_nil_r.
Qed.

(** A successful flush has written every buffered event row, under keys that
    were free, and left nothing buffered. *)
Lemma flushWriters_evs w w' :
  flushWriters w = (Ok tt, w') ->
  th_pending (w_txWriter w') = [] /\ eh_pending (w_eventWriter w') = [] /\
  exists rows, res_map insertEvents (eh_pending (w_eventWriter w)) = Ok rows /\
    forall id row, t_events (s_tab (w_tx w')) !! id = Some row <->
      (id, row) ∈ rows \/ t_events (s_tab (w_tx w)) !! id = Some row.
Proof.
  unfold flushWriters, mbind, M_bind, with_txWriter, with_eventWriter, zoom.
  destruct (flushPending_txs _) as [[[]|e|p] [h1 s1]] eqn:E1; [|done..].
  destruct (flushPending_evs _) as [r [h2 s2]] eqn:E2. intros [= -> <-]. simpl in *.
  pose proof (flushPending_txs_keeps t_events (fun _ _ => eq_refl) _ _ _ E1) as Hev. unfold fixes in Hev.
  simpl in Hev. split.
  { revert E1. unfold flushPending_txs. unfold_m. simpl. case_decide as Hl.
    - intros [= <- <-]. by apply length_zero_iff_nil.
    - intros E1. apply flush_txs_spec in E1 as (_&_&_&->); [|done]. simpl. apply drop_all. }
  revert E2. unfold flushPending_evs. unfold_m. simpl. case_decide as Hl.
  - intros [= <- <-]. apply length_zero_iff_nil in Hl. rewrite Hl, Hev. split; [done|]. exists [].
    split; [done|]. intros id row. set_solver.
  - unfold flush_evs. unfold_m. simpl. rewrite decide_False by lia. simpl. rewrite firstn_all.
    destruct (res_map insertEvents _) as [rows|e|m]; simpl; [|done..].
    destruct (sql_exec _ s1) as [[[]|e|m] s3] eqn:Hx; [|done..]. intros [= <- <-].
    simpl. rewrite drop_all. split; [done|]. exists rows. split; [done|].
    apply sql_exec_inv in Hx as [(t&_&Ht%bind_limited_ok&<-)|[? _]]; [|done]. revert Ht.
    case_match eqn:Hc; [|done]. intros [= <-]. intros id row. simpl. rewrite <- Hev.
    apply andb_true_iff in Hc as [Hnd Hfree]. apply bool_decide_eq_true in Hnd.
    rewrite lookup_union_Some_raw, elem_of_list_to_map by done. split; [naive_solver|].
    intros [?|Hold]; [by left|right]. split; [|done]. apply not_elem_of_list_to_map_1.
    intros ([id' row']&->&Hin)%list_elem_of_fmap.
    rewrite forallb_forall in Hfree. apply list_elem_of_In, Hfree, bool_decide_eq_true in Hin.
    simpl in *. congruence.
Qed.

(** The identity of the open transaction. *)
Definition tx_id (w : writeTx) : bool * Z := (w_open w, w_historyRetentionWindow w).

Lemma zoom_tx_id {T A} proj (upd : T -> writeTx -> writeTx) (m : M T A) :
  (forall t w, tx_id (upd t w) = tx_id w) -> keeps (fixes tx_id) (zoom proj upd m).
Proof. intros H. eapply (keeps_zoom _ (fun _ _ => True)); [by intros ???|]. intros. apply H. Qed.

Lemma flushWriters_tx_id : keeps (fixes tx_id) flushWriters.
Proof. unfold flushWriters. apply keeps_bind; [apply _| |intros _]; by apply zoom_tx_id. Qed.

Lemma flush_trim_tx_id seq : keeps (fixes tx_id) (flushWriters ;; trimTables seq).
Proof.
  unfold flushWriters, trimTables.
  repeat first [apply keeps_bind; [apply _| |intros ?]|apply keeps_get, _|apply zoom_tx_id; done].
Qed.

(** What a successful trim leaves. *)
Definition trimmed (latest window : Z) (t : tables) : tables :=
  match trim_cutoff latest window with
  | None => t
  | Some cutoff =>
      let id := Cursor_String (MkCursor cutoff 0 0 0) in
      MkTables (filter (fun p => ~ fst p < cutoff) (t_ledgers t))
        (filter (fun r => cutoff <= row_ledger r) (t_txs t))
        (filter (fun p => ~ str_lt (fst p) id) (t_events t)) (t_meta t) (t_indexes t) (t_hash_pk t)
  end.

Lemma sql_exec_Ok_inv f s s' : sql_exec f s = (Ok tt, s') -> f (s_tab s) = Ok (s_tab s').
Proof. intros [(t&_&Ht&<-)|[? _]]%sql_exec_inv; done. Qed.

Lemma trimTables_spec seq w w' :
  trimTables seq w = (Ok tt, w') ->
  s_tab (w_tx w') = trimmed seq (w_historyRetentionWindow w) (s_tab (w_tx w)).
Proof.
  unfold trimTables, mbind, M_bind, get, with_ledgerWriter, with_txWriter, with_eventWriter, zoom,
    trimLedgers, trimTransactions, trimEvents, trimmed, zoom2.
  destruct (trim_cutoff seq _) as [cutoff|]; simpl; [|by intros [= <-]].
  destruct (sql_exec _ (w_tx w)) as [[[]|e|p] s1] eqn:E1; [|done..]. simpl.
  destruct (sql_exec _ s1) as [[[]|e|p] s2] eqn:E2; [|done..]. simpl.
  destruct (sql_exec _ s2) as [r s3] eqn:E3. intros [= -> <-]. simpl.
  apply sql_exec_Ok_inv in E1, E2, E3. simplify_eq/=. rewrite <- E3, <- E2, <- E1. done.
Qed.

Lemma trimTables_pending seq w r w' :
  trimTables seq w = (r, w') ->
  th_pending (w_txWriter w') = th_pending (w_txWriter w) /\
  eh_pending (w_eventWriter w') = eh_pending (w_eventWriter w).
Proof.
  unfold trimTables, mbind, M_bind, get, with_ledgerWriter, with_txWriter, with_eventWriter, zoom,
    trimLedgers, trimTransactions, trimEvents, zoom2.
  destruct (trim_cutoff seq _) as [cutoff|]; simpl; [|by intros [= _ <-]].
  destruct (sql_exec _ (w_tx w)) as [[[]|e|p] s1]; simpl; [|by intros [= _ <-]..].
  destruct (sql_exec _ s1) as [[[]|e|p] s2]; simpl; [|by intros [= _ <-]..].
  destruct (sql_exec _ s2) as [r3 s3]; simpl. by intros [= _ <-].
Qed.

Lemma trimmed_ledgers seq w t :
  0 <= seq < 2 ^ 32 - 1 -> 0 < w < 2 ^ 32 -> (forall k b, t_ledgers t !! k = Some b -> 0 < k) ->
  t_ledgers (trimmed seq w t) = filter (fun p => seq - w < fst p) (t_ledgers t).
Proof.
  intros Hs Hw Hpos. unfold trimmed. rewrite trim_cutoff_spec by lia. case_decide; simpl.
  - symmetry. apply map_filter_id. intros k b Hk. apply Hpos in Hk. simpl. lia.
  - apply map_filter_ext. intros k b _. simpl. lia.
Qed.

Lemma trimmed_txs seq w t :
  0 <= seq < 2 ^ 32 - 1 -> 0 < w < 2 ^ 32 -> Forall (fun r => 0 < row_ledger r) (t_txs t) ->
  t_txs (trimmed seq w t) = filter (fun r => seq - w < row_ledger r) (t_txs t).
Proof.
  intros Hs Hw Hpos. unfold trimmed. rewrite trim_cutoff_spec by lia. case_decide; simpl.
  - symmetry. apply filter_all. intros r Hr. rewrite Forall_forall in Hpos. apply Hpos in Hr. lia.
  - apply list_filter_iff. intros r. lia.
Qed.

(** A commit either leaves the handle as it was, or publishes the flushed and
    trimmed working copy together with the cache update; only the checkpoint
    can still fail after that. *)
Lemma Commit_cases lcm w d r w' d' :
  Commit lcm (w, d) = (r, (w', d')) ->
  (r <> Ok tt /\ d' = d) \/
  (exists w1, (flushWriters ;; trimTables (LedgerSequence lcm)) w = (Ok tt, w1) /\
     w_open w = true /\ w_open w' = false /\
     d_tab d' = s_tab (w_tx w1) /\
     d_cache d' = cache_after_commit (LedgerSequence lcm) (LedgerCloseTime lcm)
                    (w_historyRetentionWindow w) (d_cache d) /\
     (r = Ok tt \/ exists e, r = Err e) /\
     w_txWriter w' = w_txWriter w1 /\ w_eventWriter w' = w_eventWriter w1).
Proof.
  pose proof (flush_trim_tx_id (LedgerSequence lcm)) as Hid. revert Hid.
  unfold Commit, mbind, M_bind, zoom1. simpl.
  destruct (flushWriters w) as [[[]|e|p] w0] eqn:E0; simpl; [|intros _ [= <- <- <-]; by left..].
  destruct (trimTables (LedgerSequence lcm) w0) as [[[]|e|p] w1] eqn:E1; simpl;
    [|intros _ [= <- <- <-]; by left..].
  intros Hid. assert (tx_id w1 = tx_id w) as [= Ho1 Hw1].
  { apply (Hid w (Ok tt) w1). simpl. by rewrite E0. }
  unfold commitAndUpdateCache, tx_Commit, mbind, M_bind, get, zoom1, zoom2. simpl.
  destruct (w_open w1) eqn:Ho; simpl; [|intros [= <- <- <-]; by left].
  unfold with_ledgerWriter, zoom.
  destruct (sql_select (fun t => t) (w_tx w1)) as [r2 s2] eqn:E2. simpl.
  apply sql_select_inv in E2 as [Ht [->|[e ->]]]; simpl; [|intros [= <- <- <-]; by left].
  unfold postCommit, on_session, zoom. simpl.
  destruct (sql_exec _ _) as [r3 s3] eqn:E3. intros [= <- <- <-]. right. exists w1.
  unfold d_tab. simpl.
  apply sql_noop_inv in E3 as [Ht3 Hr3]. rewrite Ht3, <- Hw1, <- Ho1. split_and!; done.
Qed.

(** The transaction adds the ledger [lcm] on top of the committed ones. *)
Definition commits_next (t : tables) (w : writeTx) (lcm : LedgerCloseMeta) : Prop :=
  0 < w_historyRetentionWindow w < 2 ^ 32 /\ 0 < LedgerSequence lcm < 2 ^ 31 /\
  (forall k b, t_ledgers t !! k = Some b -> k < LedgerSequence lcm) /\
  exists blob, lcm_Unmarshal blob = Ok lcm /\
    t_ledgers (s_tab (w_tx w)) = <[LedgerSequence lcm := blob]> (t_ledgers t).

(** The ledgers a commit on top of [t] publishes. *)
Definition next_ledgers (t t' : tables) (window : Z) (lcm : LedgerCloseMeta) : Prop :=
  exists blob, lcm_Unmarshal blob = Ok lcm /\
    t_ledgers t' = filter (fun p => LedgerSequence lcm - window < fst p)
                     (<[LedgerSequence lcm := blob]> (t_ledgers t)).

Lemma next_ledgers_wf t t' window lcm :
  ledgers_wf t -> 0 < window -> 0 < LedgerSequence lcm < 2 ^ 31 -> next_ledgers t t' window lcm ->
  ledgers_wf t'.
Proof.
  intros Hwf Hw Hs (blob&Hu&Ht) k b. rewrite Ht, map_lookup_filter_Some.
  intros [[[<- <-]|[_ Hk]]%lookup_insert_Some _]; [eauto|by apply Hwf].
Qed.

Lemma next_ledgers_newest t t' window lcm :
  (forall k b, t_ledgers t !! k = Some b -> k < LedgerSequence lcm) -> 0 < window ->
  next_ledgers t t' window lcm -> newest t' (info_of lcm).
Proof.
  intros Hlt Hw (blob&Hu&Ht). exists (LedgerSequence lcm), blob, lcm. split; [|done].
  apply ledger_rows_last. rewrite Ht. split.
  - apply map_lookup_filter_Some. rewrite lookup_insert_eq. simpl. split; [done|lia].
  - intros k b [[[<- <-]|[_ Hk]]%lookup_insert_Some _]%map_lookup_filter_Some; [lia|].
    apply Hlt in Hk. lia.
Qed.

Lemma next_ledgers_oldest t t' window lcm i :
  ledgers_wf t -> (forall k b, t_ledgers t !! k = Some b -> k < LedgerSequence lcm) ->
  next_ledgers t t' window lcm -> oldest t i -> LedgerSequence lcm - window < Sequence i -> oldest t' i.
Proof.
  intros Hwf Hlt (blob&Hu&Ht) Hold Hc. destruct (oldest_seq _ _ Hwf Hold) as (b&Hh&_).
  destruct Hold as (k&b'&l&Hh'&Hl&->). rewrite Hh in Hh'. simplify_eq.
  exists (LedgerSequence l), b', l. split; [|done].
  apply ledger_rows_head in Hh as [Hb Hmin]. apply ledger_rows_head. rewrite Ht.
  pose proof (Hlt _ _ Hb) as Hltb. simpl in Hltb. split.
  - apply map_lookup_filter_Some. rewrite lookup_insert_ne by lia. split; [done|]. simpl in *. lia.
  - intros k b [[[<- <-]|[_ Hk]]%lookup_insert_Some _]%map_lookup_filter_Some; [lia|].
    by eapply Hmin.
Qed.

(** A commit of the next ledger keeps the cache coherent: either nothing moved
    or the ledger is the newest one, in the tables and in the cache. *)
Lemma Commit_next lcm w d r w' d' :
  cache_ok d -> commits_next (d_tab d) w lcm -> Commit lcm (w, d) = (r, (w', d')) ->
  cache_ok d' /\
  ((r <> Ok tt /\ d' = d) \/
   (latestLedgerSeq (d_cache d') = LedgerSequence lcm /\ newest (d_tab d') (info_of lcm) /\
    next_ledgers (d_tab d) (d_tab d') (w_historyRetentionWindow w) lcm)).
Proof.
  intros (Hwf&Hl&Hf) (Hw&Hs&Hlt&blob&Hu&Hwt) Hrun.
  apply Commit_cases in Hrun as [[? ->]|(w1&Hft&Ho&Ho'&Ht&Hc&_&_)]; [by split_and!; [..|left]|].
  assert (next_ledgers (d_tab d) (d_tab d') (w_historyRetentionWindow w) lcm) as Hnext.
  { exists blob. split; [done|]. revert Hft. unfold mbind, M_bind.
    destruct (flushWriters w) as [[[]|e|p] w0] eqn:E0; [|done..]. intros Htrim.
    assert (tx_id w0 = tx_id w) as [= _ Hw0] by (by eapply flushWriters_tx_id).
    pose proof (flushWriters_keeps t_ledgers (fun _ _ => eq_refl) (fun _ _ => eq_refl) _ _ _ E0) as Hled.
    unfold fixes in Hled. apply trimTables_spec in Htrim. rewrite Hw0 in Htrim.
    rewrite Ht, Htrim, trimmed_ledgers, Hled, Hwt; [done|lia|done|].
    rewrite Hled, Hwt. intros k b [[<- _]|[_ Hk]]%lookup_insert_Some; [lia|].
    by destruct (Hwf _ _ Hk) as [? _]; lia. }
  assert (newest (d_tab d') (info_of lcm)) as Hnew by (eapply next_ledgers_newest; [done|apply Hw|done]).
  assert (latestLedgerSeq (d_cache d) < LedgerSequence lcm) as Hlat.
  { destruct (decide (latestLedgerSeq (d_cache d) = 0)) as [->|Hne]; [lia|].
    destruct (newest_seq _ _ Hwf (Hl Hne)) as (b&Hb&_). apply ledger_rows_last in Hb as [Hb _].
    by apply Hlt in Hb. }
  unfold cache_after_commit in Hc. rewrite (decide_True (P := _ < _)) in Hc by done.
  rewrite (u32_small (_ + 1)) in Hc by (unfold_ints; lia).
  unfold cache_ok. rewrite Hc. clear Hc. split; [|right; split_and!; [by repeat case_decide|done..]].
  split_and!; [eapply next_ledgers_wf; [done| | |done]; lia|by repeat case_decide|].
  case_decide as Hd1; [rewrite u32_small by (unfold_ints; lia); case_decide as Hd2|]; simpl; [by intros []|..];
    intros Hne; (eapply next_ledgers_oldest; [done|done|done|by apply Hf|]); simpl in *.
  - lia.
  - destruct (oldest_seq _ _ Hwf (Hf Hne)) as (b&_&Hp). simpl in Hp. lia.
Qed.

(** The trim keeps exactly the events of the last [w] ledgers. *)
Lemma trimmed_events `{CL : !SdkCursorLaws} seq w t c row :
  0 <= seq < 2 ^ 31 - 1 -> 0 < w < 2 ^ 32 -> cursor_ok c ->
  t_events (trimmed seq w t) !! Cursor_String c = Some row <->
  t_events t !! Cursor_String c = Some row /\ seq - w < C_Ledger c.
Proof.
  intros Hs Hw Hok. pose proof masks_nonneg as [HT HO].
  unfold trimmed. rewrite trim_cutoff_spec by lia. case_decide; simpl.
  - unfold cursor_ok in Hok. split; [|naive_solver]. intros. split; [done|lia].
  - rewrite map_lookup_filter_Some. simpl.
    rewrite cursor_str_lt; [|done|unfold cursor_ok, is_u32; simpl; lia].
    unfold cursor_ok, is_u32 in Hok. unfold cursor_lt. simpl. split; intros [? ?]; (split; [done|lia]).
Qed.

(** C6: A commit is all or nothing, whatever statement fails: either the handle
    is left as it was and the call fails, or the committed tables are the
    working copy with every buffered transaction row and every buffered event
    flushed, of which exactly the ledgers, the transactions and the events of
    the last [window] ledgers are kept; then the buffers are empty, the schema
    and the metadata are those of the working copy, and the transaction is
    closed.  (Ledger sequences are positive and below 2^31 - 1.) *)
Theorem Commit_atomic `{CL : !SdkCursorLaws} lcm w d r w' d' :
  0 <= LedgerSequence lcm < 2 ^ 31 - 1 -> 0 < w_historyRetentionWindow w < 2 ^ 32 ->
  (forall k b, t_ledgers (s_tab (w_tx w)) !! k = Some b -> 0 < k) ->
  Forall (fun row => 0 < row_ledger row) (all_tx_rows (w_txWriter w, w_tx w)) ->
  Commit lcm (w, d) = (r, (w', d')) ->
  let oldest_dropped := LedgerSequence lcm - w_historyRetentionWindow w in
  let t := s_tab (w_tx w) in
  (r <> Ok tt /\ d' = d) \/
  (w_open w = true /\ w_open w' = false /\
   th_pending (w_txWriter w') = [] /\ eh_pending (w_eventWriter w') = [] /\
   t_ledgers (d_tab d') = filter (fun p => oldest_dropped < fst p) (t_ledgers t) /\
   t_txs (d_tab d') = filter (fun row => oldest_dropped < row_ledger row)
                        (all_tx_rows (w_txWriter w, w_tx w)) /\
   (exists rows, res_map insertEvents (eh_pending (w_eventWriter w)) = Ok rows /\
      forall c row, cursor_ok c ->
        t_events (d_tab d') !! Cursor_String c = Some row <->
        ((Cursor_String c, row) ∈ rows \/ t_events t !! Cursor_String c = Some row) /\
        oldest_dropped < C_Ledger c) /\
   t_meta (d_tab d') = t_meta t /\ t_indexes (d_tab d') = t_indexes t /\
   t_hash_pk (d_tab d') = t_hash_pk t).
Proof.
  intros Hs Hw Hpos Hrows Hrun. cbv zeta.
  apply Commit_cases in Hrun as [?|(w1&Hft&Ho&Ho'&Ht&_&_&Hp1&Hp2)]; [by left|right].
  revert Hft. unfold mbind, M_bind.
  destruct (flushWriters w) as [[[]|e|p] w0] eqn:E0; [|done..]. intros Htrim.
  assert (w_historyRetentionWindow w0 = w_historyRetentionWindow w) as Hw0.
  { by assert (tx_id w0 = tx_id w) as [= _ ?] by (by eapply flushWriters_tx_id). }
  pose proof (trimTables_pending _ _ _ _ Htrim) as [Hq1 Hq2].
  apply trimTables_spec in Htrim. rewrite Hw0 in Htrim.
  pose proof (fun B f H1 H2 => flushWriters_keeps (B := B) f H1 H2 _ _ _ E0) as Hk. unfold fixes in Hk.
  apply flushWriters_evs in E0 as Hev. destruct Hev as (Hv1&Hv2&rows&Hr&Hev).
  apply flushWriters_txs in E0. rewrite Ht, Htrim.
  split_and!; [done|done|congruence|congruence|..].
  - rewrite trimmed_ledgers; [by rewrite (Hk _ t_ledgers)|lia|done|by rewrite (Hk _ t_ledgers)].
  - rewrite trimmed_txs; [by rewrite E0|lia|done|by rewrite E0].
  - exists rows. split; [done|]. intros c row Hc. by rewrite trimmed_events, Hev by done.
  - rewrite <- (Hk _ t_meta) by done. unfold trimmed. by case_match.
  - rewrite <- (Hk _ t_indexes) by done. unfold trimmed. by case_match.
  - rewrite <- (Hk _ t_hash_pk) by done. unfold trimmed. by case_match.
Qed.

(** The cached read of the stored range is equivalent to the uncached one:
    on a coherent handle whose statements do not fail, [GetLedgerRange] returns
    exactly what the two-row query returns (the oldest and the newest ledger,
    or [ErrEmptyDB]), and memoizing the oldest ledger keeps the handle
    coherent. *)
Theorem GetLedgerRange_equiv d :
  cache_ok d -> s_faults (d_sess d) = [] ->
  fst (GetLedgerRange_db d) = fst (getLedgerRangeWithoutCache (d_sess d)) /\
  cache_ok (snd (GetLedgerRange_db d)) /\ d_tab (snd (GetLedgerRange_db d)) = d_tab d.
Proof.
  intros Hok Hf. pose proof Hok as (Hwf&_).
  destruct (GetLedgerRange_db d) as [r d'] eqn:E1.
  destruct (getLedgerRangeWithoutCache (d_sess d)) as [r2 s2] eqn:E2. simpl.
  apply GetLedgerRange_db_spec in E1 as (H1&_&H2&H3); [|done]. rewrite Hf in H3.
  apply getLedgerRangeWithoutCache_spec in E2 as (_&H4); [|done]. rewrite Hf in H4.
  split_and!; [|done..]. unfold d_tab in *.
  destruct H4 as [[He ->]|[(lo&hi&Hlo&Hhi&->)|(?&_&?&[=])]],
           H3 as [(lr&->&Hr1&Hr2)|[[He' ->]|(?&_&?&[=])]]; try done.
  - by apply newest_nonempty in Hr2.
  - destruct lr as [lo' hi']. simpl in *.
    by rewrite (oldest_unique _ _ _ Hr1 Hlo), (newest_unique _ _ _ Hr2 Hhi).
  - by apply newest_nonempty in Hhi.
Qed.

(** Committing the next ledger, trim included and whatever fails, keeps the
    cached range equal to the stored one: the oldest ledger is forgotten exactly
    when it may have been trimmed, and after a success the ledger is the newest
    in both. *)
Theorem Commit_cache_coherent lcm w d r w' d' :
  cache_ok d -> commits_next (d_tab d) w lcm -> Commit lcm (w, d) = (r, (w', d')) ->
  cache_ok d' /\
  ((r <> Ok tt /\ d' = d) \/
   (latestLedgerSeq (d_cache d') = LedgerSequence lcm /\ newest (d_tab d') (info_of lcm))).
Proof. intros Hok Hn Hrun. destruct (Commit_next _ _ _ _ _ _ Hok Hn Hrun) as [? [?|(?&?&_)]]; auto. Qed.

End CacheLemmas.

(** ** Readers racing with commits

    [GetLedgerRange] and [getLatestLedgerSequence] take the cache lock twice:
    once to read the cache, once to update it, with the query in between.  The
    system below interleaves any number of such readers with the commits of
    ingestion, which add the next ledger; the backfill's commits of older ledgers
    leave a memoized oldest ledger stale and are no steps of it. *)

Section Race.
Context `{X : Sdk} `{ND : Nondet}.

(** The control point of a reader; [latest] tells whether the range is read for
    [getLatestLedgerSequence]. *)
Inductive reader_pc :=
  | WantRange (latest : bool)
  | Snapshot (latest : bool) (c : dbCache)
  | Queried (latest : bool) (c : dbCache) (lr : LedgerRange)
  | Got (lr : LedgerRange)
  | Done (lr : LedgerRange).

Definition finish (latest : bool) (lr : LedgerRange) : reader_pc := if latest then Got lr else Done lr.

Definition system : Type := DB * gmap nat reader_pc.

Inductive step : system -> system -> Prop :=
  | StepCommit d w lcm r w' d' ps :
      commits_next (d_tab d) w lcm -> Commit lcm (w, d) = (r, (w', d')) ->
      step (d, ps) (d', ps)
  | StepStart d ps i :
      step (d, ps) (d, <[i := WantRange false]> ps)
  | StepStartLatest d ps i :
      latestLedgerSeq (d_cache d) = 0 -> step (d, ps) (d, <[i := WantRange true]> ps)
  | StepSnapshot d ps i b :
      ps !! i = Some (WantRange b) -> step (d, ps) (d, <[i := Snapshot b (d_cache d)]> ps)
  | StepCached d ps i b c :
      ps !! i = Some (Snapshot b c) -> latestLedgerSeq c <> 0 -> firstLedgerSeq c <> 0 ->
      step (d, ps) (d, <[i := finish b (cached_range c)]> ps)
  | StepQueryFirst d ps i b c lr s :
      ps !! i = Some (Snapshot b c) -> latestLedgerSeq c <> 0 -> firstLedgerSeq c = 0 ->
      getLedgerRangeWithCache (latestLedgerSeq c) (latestLedgerCloseTime c) (d_sess d) = (Ok lr, s) ->
      step (d, ps) (set_sess s d, <[i := Queried b c lr]> ps)
  | StepQueryBoth d ps i b c lr s :
      ps !! i = Some (Snapshot b c) -> latestLedgerSeq c = 0 ->
      getLedgerRangeWithoutCache (d_sess d) = (Ok lr, s) ->
      step (d, ps) (set_sess s d, <[i := finish b lr]> ps)
  | StepMemoize d ps i b c lr :
      ps !! i = Some (Queried b c lr) ->
      step (d, ps) (set_cache (memoize_first (latestLedgerSeq c) lr (d_cache d)) d,
                    <[i := finish b lr]> ps)
  | StepRaise d ps i lr :
      ps !! i = Some (Got lr) ->
      step (d, ps) (set_cache (raise_latest lr (d_cache d)) d, <[i := Done lr]> ps).

(** A sequence that is at most the newest stored one. *)
Definition at_most_newest (t : tables) (seq : Z) : Prop := exists i, newest t i /\ seq <= Sequence i.

Definition pc_ok (d : DB) (p : reader_pc) : Prop :=
  match p with
  | WantRange _ | Done _ => True
  | Snapshot _ c =>
      latestLedgerSeq c <> 0 ->
      latestLedgerSeq (d_cache d) <> 0 /\ at_most_newest (d_tab d) (latestLedgerSeq c)
  | Queried _ c lr =>
      latestLedgerSeq c <> 0 /\ latestLedgerSeq (d_cache d) <> 0 /\
      at_most_newest (d_tab d) (latestLedgerSeq c) /\
      Sequence (LastLedger lr) = latestLedgerSeq c /\
      (latestLedgerSeq (d_cache d) = latestLedgerSeq c -> oldest (d_tab d) (FirstLedger lr))
  | Got lr =>
      at_most_newest (d_tab d) (Sequence (LastLedger lr)) /\
      (latestLedgerSeq (d_cache d) = 0 -> newest (d_tab d) (LastLedger lr))
  end.

Definition system_ok (st : system) : Prop :=
  cache_ok (fst st) /\ forall i p, snd st !! i = Some p -> pc_ok (fst st) p.

Lemma system_ok_insert d d' ps i p :
  cache_ok d' -> (forall q, pc_ok d q -> pc_ok d' q) -> pc_ok d' p ->
  system_ok (d, ps) -> system_ok (d', <[i := p]> ps).
Proof.
  intros Hc Hq Hp [_ Hps]. split; [done|]. simpl in *.
  intros j q [[<- <-]|[_ Hj]]%lookup_insert_Some; eauto.
Qed.

Lemma pc_ok_same d d' q :
  d_tab d' = d_tab d -> latestLedgerSeq (d_cache d') = latestLedgerSeq (d_cache d) ->
  pc_ok d q -> pc_ok d' q.
Proof. intros Ht Hl. unfold pc_ok. rewrite Ht, Hl. done. Qed.

Lemma cache_ok_at_most d : cache_ok d -> latestLedgerSeq (d_cache d) <> 0 ->
  at_most_newest (d_tab d) (latestLedgerSeq (d_cache d)).
Proof. intros (_&Hl&_) Hne. eexists. split; [by apply Hl|]. simpl. lia. Qed.

Lemma newest_latest d i : cache_ok d -> latestLedgerSeq (d_cache d) <> 0 -> newest (d_tab d) i ->
  Sequence i = latestLedgerSeq (d_cache d).
Proof. intros (_&Hl&_) Hne Hi. by rewrite (newest_unique _ _ _ Hi (Hl Hne)). Qed.

(** A commit keeps what the readers rely on. *)
Lemma pc_ok_commit d d' lcm q w :
  cache_ok d -> commits_next (d_tab d) w lcm ->
  latestLedgerSeq (d_cache d') = LedgerSequence lcm -> newest (d_tab d') (info_of lcm) ->
  pc_ok d q -> pc_ok d' q.
Proof.
  intros Hok (_&Hs&Hlt&_) Hl Hn.
  assert (forall x, at_most_newest (d_tab d) x -> x < LedgerSequence lcm) as Hx.
  { intros x (i&Hi&Hle). pose proof Hok as (Hwf&_). destruct (newest_seq _ _ Hwf Hi) as (b&Hb&_).
    apply ledger_rows_last in Hb as [Hb _]. apply Hlt in Hb. lia. }
  assert (forall x, at_most_newest (d_tab d) x -> at_most_newest (d_tab d') x) as Hx'.
  { intros x Hxx%Hx. eexists. split; [done|]. simpl. lia. }
  destruct q as [b|b c|b c lr|lr|lr]; simpl; rewrite ?Hl; try done.
  - intros Hq Hne. destruct (Hq Hne). split; [lia|auto].
  - intros (?&?&Ha&?&?). split_and!; [done|lia|auto|done|]. specialize (Hx _ Ha). lia.
  - intros [Ha ?]. split; [auto|lia].
Qed.

Lemma finish_ok d b lr : (pc_ok d (Got lr)) -> pc_ok d (finish b lr).
Proof. by destruct b. Qed.

Lemma memoize_cases d c lr :
  cache_ok d -> pc_ok d (Queried false c lr) ->
  let d' := set_cache (memoize_first (latestLedgerSeq c) lr (d_cache d)) d in
  cache_ok d' /\ latestLedgerSeq (d_cache d') = latestLedgerSeq (d_cache d).
Proof.
  intros (Hwf&Hl&Hf) (H1&H2&H3&H4&H5). unfold memoize_first, cache_ok, d_tab. simpl.
  case_decide as Hd; [|done]. simpl. split_and!; try done. intros _.
  destruct Hd as [_ Hd]. specialize (H5 Hd). by destruct (FirstLedger lr).
Qed.

Lemma step_ok st st' : system_ok st -> step st st' -> system_ok st'.
Proof.
  intros Hok Hst. pose proof Hok as [Hc Hps]. destruct Hst; simpl in *.
  - edestruct Commit_next as [Hc' [[_ ->]|(Hl&Hn&_)]]; [done..|]. split; [done|]. simpl.
    intros i p Hi. by eapply (pc_ok_commit d); [..|eapply Hps].
  - by eapply system_ok_insert.
  - by eapply system_ok_insert.
  - eapply system_ok_insert; [done..| |done]. simpl. intros Hne. split; [done|]. by apply cache_ok_at_most.
  - eapply system_ok_insert; [done..| |done]. apply finish_ok. specialize (Hps _ _ H). simpl in *.
    destruct (Hps H0). split; [done|lia].
  - apply getLedgerRangeWithCache_spec in H2 as [Ht Hr]; [|by destruct Hc].
    destruct Hr as [[_ ?]|[(lo&Hlo&Hlr)|(?&?&_)]]; [done| |done]. simplify_eq.
    eapply system_ok_insert; [| | |done]; unfold cache_ok, d_tab in *; simpl; rewrite ?Ht; [done| |].
    + intros q. apply pc_ok_same; unfold d_tab; simpl; by rewrite ?Ht.
    + specialize (Hps _ _ H H0). unfold d_tab. simpl. rewrite Ht. naive_solver.
  - apply getLedgerRangeWithoutCache_spec in H1 as [Ht Hr]; [|by destruct Hc].
    destruct Hr as [[_ ?]|[(lo&hi&Hlo&Hhi&Hlr)|(?&?&_)]]; [done| |done]. simplify_eq.
    eapply system_ok_insert; [| | |done]; unfold cache_ok, d_tab in *; simpl; rewrite ?Ht; [done| |].
    + intros q. apply pc_ok_same; unfold d_tab; simpl; by rewrite ?Ht.
    + apply finish_ok. simpl. unfold d_tab. simpl. rewrite Ht. split; [|done]. exists hi. split; [done|simpl; lia].
  - specialize (Hps _ _ H). destruct (memoize_cases _ _ _ Hc Hps) as [Hc' Hl].
    eapply system_ok_insert; [done| | |done].
    + intros q. by apply pc_ok_same.
    + apply finish_ok. destruct Hps as (H1&H2&H3&H4&_). simpl in *. rewrite Hl, H4. split; [done|lia].
  - specialize (Hps _ _ H) as [(i0&Hi0&Hle) Hz]. simpl in *.
    assert (cache_ok (set_cache (raise_latest lr (d_cache d)) d)) as Hc'.
    { apply raise_latest_ok; [done|done|]. intros Hne. rewrite <- (newest_latest _ _ Hc Hne Hi0). lia. }
    assert (latestLedgerSeq (d_cache d) <> 0 -> raise_latest lr (d_cache d) = d_cache d) as Hkeep.
    { intros Hne. unfold raise_latest. rewrite decide_False; [done|].
      rewrite <- (newest_latest _ _ Hc Hne Hi0). lia. }
    eapply system_ok_insert; [done| |done|done]. intros q Hq.
    destruct (decide (latestLedgerSeq (d_cache d) = 0)) as [E|E].
    + destruct q as [b|b c|b c lr2|lr2|lr2]; simpl in *; try done; [naive_solver|naive_solver|].
      destruct Hq as [? Hq]. split; [done|]. intros _. by apply Hq.
    + rewrite Hkeep by done. by destruct d.
Qed.

(** C7: In every interleaving of readers with the commits of ingestion, each of
    a ledger newer than every stored one, started from a coherent handle with no
    reader under way, the cache agrees with the committed tables: the test that
    the latest ledger did not move is enough to never memoize an oldest ledger
    that a concurrent trim removed, and no reader overwrites a newer latest
    ledger by an older one.  (The commits of older ledgers that the backfill
    makes before readers start are not among the steps.) *)
Theorem racing_readers_coherent d d' ps :
  cache_ok d -> rtc step (d, ∅) (d', ps) -> cache_ok d'.
Proof.
  intros Hok Hrun.
  assert (system_ok (d, ∅)) as H0 by (split; [done|simpl; by intros ???%lookup_empty_Some]).
  remember (d, ∅) as st. remember (d', ps) as st'. revert Heqst Heqst' H0.
  assert (system_ok st -> system_ok st') as Hinv.
  { intros Hst. clear -Hrun Hst. induction Hrun; [done|]. eauto using step_ok. }
  intros -> -> H0. by destruct (Hinv H0).
Qed.

End Race.

Section BulkLoadLemmas.
Context `{IJ : IndexJson} `{!IndexJsonLaws}.

(** Everything but the indexes and the metadata. *)
Definition content (t : tables) := (t_ledgers t, t_txs t, t_events t, t_hash_pk t).

(** A database waiting for its deferred indexes. *)
Definition bulk_pending (t : tables) : Prop :=
  NoDup (row_hash <$> t_txs t) /\
  exists json, t_meta t !! pendingIndexesMetaKey = Some json /\ index_Unmarshal json = Ok deferredIndexes.

(** What building indexes changes. *)
Definition indexes_grow (s s' : session) : Prop :=
  content (s_tab s') = content (s_tab s) /\ t_meta (s_tab s') = t_meta (s_tab s) /\
  t_indexes (s_tab s) ⊆ t_indexes (s_tab s') /\ (s_faults s = [] -> s_faults s' = []).

#[global] Instance indexes_grow_preorder : PreOrder indexes_grow.
Proof.
  split; [by intros s; split_and!|]. intros s1 s2 s3 (A1&A2&A3&A4) (B1&B2&B3&B4).
  split_and!; [congruence|congruence|set_solver|auto].
Qed.

(** The statements of the two calls, classified by the scheduled fault. *)
Lemma statement_cases {A} (f : tables -> Res (A * tables)) s r s' :
  statement f s = (r, s') ->
  (exists e, r = Err e /\ s_tab s' = s_tab s /\ s_faults s <> []) \/
  (s_faults s' = tail (s_faults s) /\
   ((exists a, r = Ok a /\ f (s_tab s) = Ok (a, s_tab s')) \/
    (s_tab s' = s_tab s /\ ((exists e, r = Err e /\ f (s_tab s) = Err e) \/ (exists m, f (s_tab s) = Panic m))))).
Proof.
  unfold statement. destruct (s_faults s) as [|[e|] fs] eqn:Hf; simpl.
  - destruct (f (s_tab s)) as [[a t]|e|m] eqn:E; intros [= <- <-]; simpl; right; split; eauto 10.
  - intros [= <- <-]. left. eauto.
  - destruct (f (s_tab s)) as [[a t]|e'|m] eqn:E; intros [= <- <-]; simpl; right; split; eauto 10.
Qed.

Lemma deferred_ddl idx t :
  idx ∈ deferredIndexes ->
  exec_index_ddl (DDL idx) t = create_index (Name idx) (bool_decide (Name idx = "idx_transactions_hash")) t.
Proof.
  unfold deferredIndexes. rewrite !elem_of_cons, elem_of_nil. intros [->|[->|[->|[]]]]; reflexivity.
Qed.

Lemma build_index_spec idx s r s' :
  idx ∈ deferredIndexes -> NoDup (row_hash <$> t_txs (s_tab s)) ->
  build_index idx s = (r, s') ->
  indexes_grow s s' /\
  ((r = Ok tt /\ Name idx ∈ t_indexes (s_tab s')) \/ (exists e, r = Err e) /\ s_faults s <> []).
Proof.
  intros Hidx Hnd. unfold build_index, mbind, M_bind, map_err.
  destruct (sql_select _ s) as [r1 s1] eqn:E1. apply statement_cases in E1 as
    [(e&->&Ht1&Hf)|(Hf1&[(a&->&[= <- Ht1])|(_&[(?&_&[=])|(?&[=])])])].
  { intros [= <- <-]. split; [split_and!; rewrite ?Ht1; done|]. right. eauto. }
  assert (indexes_grow s s1) as G1 by (split_and!; rewrite <- ?Ht1; [done..|by intros E; rewrite E in Hf1]).
  simpl. destruct (decide (Name idx ∈ t_indexes (s_tab s))) as [Hin|Hin].
  { rewrite decide_True by lia. intros [= <- <-]. split; [done|]. left. by rewrite <- Ht1. }
  rewrite decide_False by lia.
  destruct (sql_exec (exec_index_ddl (DDL idx)) s1) as [r2 s2] eqn:E2.
  apply statement_cases in E2 as [(e&->&Ht2&Hf2)|(Hf2&Hr2)].
  { intros [= <- <-]. split; [etrans; [exact G1|split_and!; rewrite ?Ht2; done]|].
    right. split; [eauto|]. intros E. apply Hf2. by rewrite Hf1, E. }
  rewrite deferred_ddl in Hr2 by done. unfold create_index in Hr2. rewrite <- Ht1 in Hr2.
  rewrite decide_False in Hr2 by done.
  rewrite (bool_decide_eq_true_2 (NoDup _)), andb_false_r in Hr2 by done. simpl in Hr2.
  destruct Hr2 as [([]&->&[= Ht2])|(_&[(?&_&[=])|(?&[=])])].
  assert (indexes_grow s1 s2) as G2.
  { split_and!; rewrite <- ?Ht2, <- ?Ht1; simpl; [done|done|set_solver|].
    intros E. by rewrite Hf2, E. }
  destruct (sql_exec (fun t => Ok t) s2) as [r3 s3] eqn:E3.
  pose proof (sql_noop_inv _ _ _ E3) as [Ht3 _].
  apply statement_cases in E3 as [(e&->&_&Hf3)|(Hf3&[([]&->&_)|(_&[(?&_&[=])|(?&[=])])])].
  - intros [= <- <-]. split; [etrans; [exact G1|etrans; [exact G2|split_and!; rewrite ?Ht3; done]]|].
    right. split; [eauto|]. intros E. apply Hf3. by rewrite Hf2, Hf1, E.
  - intros [= <- <-]. split.
    + etrans; [exact G1|etrans; [exact G2|split_and!; rewrite ?Ht3; try done]]. intros E. by rewrite Hf3, E.
    + left. split; [done|]. rewrite Ht3, <- Ht2. simpl. set_solver.
Qed.

Lemma build_indexes_spec l s r s' :
  (forall idx, idx ∈ l -> idx ∈ deferredIndexes) -> NoDup (row_hash <$> t_txs (s_tab s)) ->
  for_each l build_index s = (r, s') ->
  indexes_grow s s' /\
  ((r = Ok tt /\ forall idx, idx ∈ l -> Name idx ∈ t_indexes (s_tab s')) \/
   (exists e, r = Err e) /\ s_faults s <> []).
Proof.
  revert s. induction l as [|idx l IH]; intros s Hl Hnd; simpl.
  { intros [= <- <-]. split; [done|]. left. split; [done|]. by intros ? ?%elem_of_nil. }
  unfold mbind, M_bind. destruct (build_index idx s) as [r1 s1] eqn:E1.
  apply build_index_spec in E1 as [G1 Hr1]; [|apply Hl; by left|done].
  destruct Hr1 as [[-> Hin]|[[e ->] Hf]]; [|intros [= <- <-]; eauto].
  pose proof G1 as ([= _ Htx _ _]&_&_&Hf1). intros E2.
  apply IH in E2 as [G2 Hr2]; [|intros; apply Hl; by right|by rewrite Htx].
  split; [by etrans|]. destruct Hr2 as [[-> Hall]|[He Hf]]; [left|right; split; [done|naive_solver]].
  split; [done|]. destruct G2 as (_&_&Hsub&_). set_solver.
Qed.

(** The failures of the schedule are SQLite's, not the empty-result error of
    the reads. *)
Definition sql_faults (fs : list (option error)) : Prop :=
  forall e, Some e ∈ fs -> errors_Is e ErrEmptyDB = false.

Lemma indexes_grow_read s s' :
  s_tab s' = s_tab s -> (s_faults s = [] -> s_faults s' = []) -> indexes_grow s s'.
Proof. intros Ht Hf. unfold indexes_grow. rewrite Ht. by split_and!. Qed.

(** A statement that reads or does nothing. *)
Lemma statement_read {A} (q : tables -> A) s r s' :
  statement (fun t => Ok (q t, t)) s = (r, s') ->
  indexes_grow s s' /\
  (r = Ok (q (s_tab s)) \/ exists e, r = Err e /\ Some e ∈ s_faults s).
Proof.
  unfold statement. destruct (s_faults s) as [|[e|] fs] eqn:Hf; simpl; intros [= <- <-];
    (split; [apply indexes_grow_read; simpl; [done|by rewrite ?Hf]|]); [eauto| |eauto].
  right. exists e. split; [done|]. by left.
Qed.

(** C8: Finalizing a bulk load is resumable: whatever statement fails, an
    interrupted run loses nothing (the stored rows and the record of pending
    indexes are intact and every index already built is kept), a run without a
    failure succeeds, and a successful run has built every deferred index,
    with the uniqueness of the transaction hashes checked, and cleared the
    record. *)
Theorem FinalizeBulkLoad_resumable s r s' :
  bulk_pending (s_tab s) -> sql_faults (s_faults s) -> FinalizeBulkLoad s = (r, s') ->
  content (s_tab s') = content (s_tab s) /\ t_indexes (s_tab s) ⊆ t_indexes (s_tab s') /\
  ((r = Ok tt /\ t_meta (s_tab s') !! pendingIndexesMetaKey = None /\
    forall idx, idx ∈ deferredIndexes -> Name idx ∈ t_indexes (s_tab s')) \/
   ((exists e, r = Err e) /\ bulk_pending (s_tab s') /\ s_faults s <> [])).
Proof.
  intros Hp Hsf. pose proof Hp as (Hnd&json&Hm&Hj).
  assert (forall x, indexes_grow s x -> bulk_pending (s_tab x)) as Hkeep.
  { intros x ([= _ Htx _ _]&Hmx&_). unfold bulk_pending. rewrite Htx, Hmx. eauto. }
  assert (forall e, indexes_grow s s' -> r = Err e -> s_faults s <> [] ->
    content (s_tab s') = content (s_tab s) /\ t_indexes (s_tab s) ⊆ t_indexes (s_tab s') /\
    ((r = Ok tt /\ t_meta (s_tab s') !! pendingIndexesMetaKey = None /\
      forall idx, idx ∈ deferredIndexes -> Name idx ∈ t_indexes (s_tab s')) \/
     ((exists e, r = Err e) /\ bulk_pending (s_tab s') /\ s_faults s <> []))) as Hfail.
  { intros e G -> Hf. pose proof G as (?&?&?&?). split_and!; [done..|].
    right. split_and!; [eauto|by apply Hkeep|done]. }
  assert (forall x e, indexes_grow s x -> Some e ∈ s_faults x -> s_faults s <> []) as Hne.
  { intros x e (_&_&_&Hx) Hin E. rewrite (Hx E) in Hin. by apply elem_of_nil in Hin. }
  unfold FinalizeBulkLoad, getMetaValue, openIndexBuildSession, mbind, M_bind, attempt, map_err, of_res.
  destruct (sql_select _ s) as [r1 s1] eqn:E1.
  apply statement_read in E1 as [G1 [->|(e&->&Hin)]].
  2: { rewrite (Hsf _ Hin). intros [= <- <-]. eapply Hfail; [done..|]. by eapply (Hne s). }
  rewrite Hm. simpl. rewrite Hj.
  destruct (sql_select _ s1) as [r2 s2] eqn:E2. apply statement_read in E2 as [G2 Hr2].
  assert (indexes_grow s s2) as G12 by (by etrans).
  destruct Hr2 as [->|(e&->&Hin)]; [|intros [= <- <-]; eapply Hfail; [done..|by eapply (Hne s1)]].
  destruct (sql_exec _ s2) as [r3 s3] eqn:E3. apply statement_read in E3 as [G3 Hr3].
  assert (indexes_grow s s3) as G13 by (by etrans).
  destruct Hr3 as [->|(e&->&Hin)]; [|intros [= <- <-]; eapply Hfail; [done..|by eapply (Hne s2)]].
  destruct (for_each _ _ s3) as [r4 s4] eqn:E4.
  apply build_indexes_spec in E4 as [G4 Hr4]; [|done|by apply Hkeep in G13 as [? _]].
  assert (indexes_grow s s4) as G14 by (by etrans).
  destruct Hr4 as [[-> Hall]|[[e ->] Hf]]; [|intros [= <- <-]; eapply Hfail; try done].
  2: { intros E. apply Hf. by apply G13. }
  destruct (sql_exec _ s4) as [r5 s5] eqn:E5.
  apply statement_cases in E5 as [(e&->&Ht&Hf)|(_&[([]&->&[= Ht])|(_&[(?&_&[=])|(?&[=])])])];
    intros [= <- <-].
  - eapply Hfail; [|done|intros E; apply Hf; by apply G14]. 
    etrans; [exact G14|]. apply indexes_grow_read; [done|]. by intros.
  - destruct G14 as (H1&H2&H3&_). rewrite <- Ht. simpl. split_and!; [done|done|]. left.
    split_and!; [done|by rewrite lookup_delete_eq|done].
Qed.

(** A step of the preparation that succeeded. *)
Lemma prepare_step_ok stmt f s s' :
  prepare_step stmt f s = (Ok tt, s') -> f (s_tab s) = Ok (s_tab s').
Proof. unfold prepare_step. rewrite map_err_ok. apply sql_exec_Ok_inv. Qed.

(** Preparing a bulk load is all or nothing: on failure the tables are what
    they were; on success the transactions table is empty and has no unique
    key, every deferred index is gone, the ledger-sequence index the trims need
    is there, ledgers and events are intact, and the record that lets
    [FinalizeBulkLoad] rebuild the indexes is stored. *)
Theorem PrepareBulkLoad_atomic s r s' :
  PrepareBulkLoad s = (r, s') ->
  (r <> Ok tt /\ s_tab s' = s_tab s) \/
  (r = Ok tt /\ bulk_pending (s_tab s') /\
   t_txs (s_tab s') = [] /\ hash_unique (s_tab s') = false /\
   t_indexes (s_tab s') = {["index_ledger_sequence"]} ∪
     (t_indexes (s_tab s) ∖ {["idx_transactions_hash"; "idx_id_contract_id"; "idx_id_topic1";
                              "index_ledger_sequence"]}) /\
   t_ledgers (s_tab s') = t_ledgers (s_tab s) /\ t_events (s_tab s') = t_events (s_tab s)).
Proof.
  unfold PrepareBulkLoad. unfold mbind at 1, M_bind at 1. unfold map_err at 1, of_res.
  destruct (index_Marshal deferredIndexes) as [json|e|p] eqn:Hj; [|intros [= <- <-]; by left..].
  apply index_json_roundtrip in Hj. unfold in_transaction.
  destruct (map_err _ _ s) as [r1 s1] eqn:E1.
  assert (s_tab s1 = s_tab s) as Ht1.
  { revert E1. unfold map_err. destruct (sql_select _ s) as [r0 s0] eqn:E0.
    apply sql_select_inv in E0 as [<- _]. destruct r0; by intros [= <- <-]. }
  destruct r1 as [[]|e|p]; [|intros [= <- <-]; by left..].
  match goal with |- context [match ?m s1 with _ => _ end] => destruct (m s1) as [r2 s2] eqn:E2 end.
  destruct r2 as [[]|e|p]; [|intros [= <- <-]; left; simpl; by rewrite Ht1..].
  intros [= <- <-]. right. split; [done|].
  apply bind_ok in E2 as ([]&s7&E2&[Ht7 _]%map_err_ok%sql_select_inv). rewrite Ht7.
  simpl in E2. repeat (apply bind_ok in E2 as ([]&?&?&E2)).
  apply map_err_ok, sql_exec_Ok_inv in E2.
  apply bind_ok in H0 as ([]&y1&P1&Q1). apply bind_ok in Q1 as ([]&y2&P2&Q2).
  apply bind_ok in Q2 as ([]&y3&P3&[= <-]).
  apply prepare_step_ok in P1, P2, P3, H1, H2, H3.
  unfold drop_index, drop_transactions, create_bulk_transactions, create_index in *.
  case_decide as Hix; [done|]. injection E2 as E2. simpl in H3. injection H3 as H3.
  injection H2 as H2. injection H1 as H1. injection P3 as P3. injection P2 as P2. injection P1 as P1.
  rewrite <- E2, <- H3, <- H2, <- H1, <- P3, <- P2, <- P1, Ht1. simpl. split_and!; try done.
  - split; [constructor|]. exists json. simpl. by rewrite lookup_insert_eq.
  - unfold hash_unique. simpl. apply bool_decide_eq_false. set_solver.
  - set_solver.
Qed.

End BulkLoadLemmas.

Section Witnesses.

#[local] Opaque bits.

#[global] Instance ex_index_json : IndexJson := {|
  index_Marshal := fun l => if decide (l = deferredIndexes) then Ok "deferred" else Err (EExt "unsupported");
  index_Unmarshal := fun s => if decide (s = "deferred") then Ok deferredIndexes else Err (EExt "unsupported");
|}.

#[global] Instance ex_index_json_laws : IndexJsonLaws.
Proof. split. intros l s. simpl. case_decide; [|done]. intros [= <-]. by subst. Qed.

(** A handle that holds ledger 3 and a transaction that adds ledger 4. *)
Definition ex_db : DB := MkDB ex_session (MkDbCache 3 15 3 15).

Definition ex_write (window : Z) : writeTx :=
  MkWriteTx (MkSession (set_ledgers (<[4 := bits 32 4]> (t_ledgers (s_tab ex_session))) (s_tab ex_session)) [])
    true ex_tx_handler ex_ev_handler window.

Lemma ex_ledgers_wf : ledgers_wf (X := ex_sdk) (s_tab ex_session).
Proof.
  intros k b. simpl. intros [<- <-]%lookup_singleton_Some. split; [lia|]. exists 3.
  split; [by apply ex_unmarshal|done].
Qed.

Lemma ex_cache_ok : cache_ok (X := ex_sdk) ex_db.
Proof.
  split_and!; [apply ex_ledgers_wf|intros _..]; exists 3, (bits 32 3), 3;
    (split_and!; [|by apply ex_unmarshal|done]).
  - apply ledger_rows_last. simpl. split; [apply lookup_singleton_eq|].
    intros k b [<- _]%lookup_singleton_Some. done.
  - apply ledger_rows_head. simpl. split; [apply lookup_singleton_eq|].
    intros k b [<- _]%lookup_singleton_Some. done.
Qed.

Lemma ex_commits_next : commits_next (X := ex_sdk) (d_tab ex_db) (ex_write 1) 4.
Proof.
  split_and!; [done|done|done|done|..].
  - intros k b. simpl. intros [<- _]%lookup_singleton_Some. simpl. lia.
  - exists (bits 32 4). split; [by apply ex_unmarshal|done].
Qed.

(** The transaction that has ledger 4 in its working copy and a row and an event
    of it in its buffers. *)
Definition ex_pending_write : writeTx :=
  MkWriteTx (MkSession (set_ledgers {[3 := bits 32 3; 4 := bits 32 4]} empty_tables) []) true
    (MkTransactionHandler true "" [MkPendingTx "h" 4 1])
    (MkEventHandler true "" [db_event_of (X := ex_sdk) 4 (4, 1) (ex_event "op1", MkCursor 4 1 0 0)]) 1.

Lemma Commit_atomic_witness :
  let '(r, (w', d')) := Commit (X := ex_sdk) 4 (ex_pending_write, ex_db) in
  let t := s_tab (w_tx ex_pending_write) in
  (r <> Ok tt /\ d' = ex_db) \/
  (true = true /\ w_open w' = false /\
   th_pending (w_txWriter w') = [] /\ eh_pending (w_eventWriter w') = [] /\
   t_ledgers (d_tab d') = filter (fun p => 3 < fst p) (t_ledgers t) /\
   t_txs (d_tab d') = filter (fun row => 3 < row_ledger row) [MkTxRow "h" 4 1] /\
   (exists rows, res_map insertEvents (eh_pending (w_eventWriter ex_pending_write)) = Ok rows /\
      forall c row, cursor_ok c ->
        t_events (d_tab d') !! Cursor_String c = Some row <->
        ((Cursor_String c, row) ∈ rows \/ t_events t !! Cursor_String c = Some row) /\ 3 < C_Ledger c) /\
   t_meta (d_tab d') = t_meta t /\ t_indexes (d_tab d') = t_indexes t /\
   t_hash_pk (d_tab d') = t_hash_pk t).
Proof.
  destruct (Commit (X := ex_sdk) 4 (ex_pending_write, ex_db)) as [r [w' d']] eqn:E.
  apply (Commit_atomic (X := ex_sdk) 4 ex_pending_write ex_db r w' d').
  - simpl. lia.
  - simpl. lia.
  - intros k b. simpl. intros [[<- _]|[_ [<- _]%lookup_singleton_Some]]%lookup_insert_Some; lia.
  - repeat constructor.
  - exact E.
Defined.

Lemma GetLedgerRange_equiv_witness :
  fst (GetLedgerRange_db (X := ex_sdk) ex_db) = fst (getLedgerRangeWithoutCache (X := ex_sdk) (d_sess ex_db)) /\
  cache_ok (X := ex_sdk) (snd (GetLedgerRange_db (X := ex_sdk) ex_db)) /\
  d_tab (snd (GetLedgerRange_db (X := ex_sdk) ex_db)) = d_tab ex_db.
Proof. apply (GetLedgerRange_equiv (X := ex_sdk) ex_db); [apply ex_cache_ok|reflexivity]. Defined.

Lemma Commit_cache_coherent_witness :
  let '(r, (w', d')) := Commit (X := ex_sdk) 4 (ex_write 1, ex_db) in
  cache_ok (X := ex_sdk) d' /\
  ((r <> Ok tt /\ d' = ex_db) \/ (latestLedgerSeq (d_cache d') = 4 /\ newest (X := ex_sdk) (d_tab d') (info_of (X := ex_sdk) 4))).
Proof.
  destruct (Commit (X := ex_sdk) 4 (ex_write 1, ex_db)) as [r [w' d']] eqn:E.
  apply (Commit_cache_coherent (X := ex_sdk) 4 (ex_write 1) ex_db r w' d');
    [apply ex_cache_ok|apply ex_commits_next|exact E].
Defined.

(** A reader starts, the next ledger is committed, and the reader takes its
    snapshot of the cache. *)
Lemma racing_readers_coherent_witness :
  cache_ok (X := ex_sdk) (snd (snd (Commit (X := ex_sdk) 4 (ex_write 1, ex_db)))).
Proof.
  destruct (Commit (X := ex_sdk) 4 (ex_write 1, ex_db)) as [r [w' d']] eqn:E. simpl.
  apply (racing_readers_coherent (X := ex_sdk) ex_db d'
           (<[0%nat := Snapshot false (d_cache d')]> (<[0%nat := WantRange false]> ∅)));
    [apply ex_cache_ok|].
  eapply rtc_l; [apply (StepStart _ _ 0%nat)|].
  eapply rtc_l; [eapply StepCommit; [apply ex_commits_next|exact E]|].
  eapply rtc_l; [eapply (StepSnapshot _ _ 0%nat); apply lookup_insert_eq|apply rtc_refl].
Defined.

(** A prepared database whose first index build fails. *)
Definition ex_bulk_session : session :=
  MkSession (MkTables ∅ [MkTxRow "a" 3 1; MkTxRow "b" 3 2] ∅ {[pendingIndexesMetaKey := "deferred"]}
               {["index_ledger_sequence"]} false)
    [None; None; None; None; Some (EExt "disk full")].

Lemma FinalizeBulkLoad_resumable_witness :
  let '(r, s') := FinalizeBulkLoad ex_bulk_session in
  content (s_tab s') = content (s_tab ex_bulk_session) /\
  t_indexes (s_tab ex_bulk_session) ⊆ t_indexes (s_tab s') /\
  ((r = Ok tt /\ t_meta (s_tab s') !! pendingIndexesMetaKey = None /\
    forall idx, idx ∈ deferredIndexes -> Name idx ∈ t_indexes (s_tab s')) \/
   ((exists e, r = Err e) /\ bulk_pending (s_tab s') /\ s_faults ex_bulk_session <> [])).
Proof.
  destruct (FinalizeBulkLoad ex_bulk_session) as [r s'] eqn:E.
  apply (FinalizeBulkLoad_resumable ex_bulk_session r s').
  - split; [apply (bool_decide_unpack _); vm_compute; exact I|]. exists "deferred". split; reflexivity.
  - intros e. simpl. rewrite !elem_of_cons. intros [[=]|[[=]|[[=]|[[=]|[[= ->]|[]%elem_of_nil]]]]]. reflexivity.
  - exact E.
Defined.

Lemma PrepareBulkLoad_atomic_witness :
  let '(r, s') := PrepareBulkLoad (MkSession empty_tables []) in
  (r <> Ok tt /\ s_tab s' = empty_tables) \/
  (r = Ok tt /\ bulk_pending (s_tab s') /\
   t_txs (s_tab s') = [] /\ hash_unique (s_tab s') = false /\
   t_indexes (s_tab s') = {["index_ledger_sequence"]} ∪
     (t_indexes empty_tables ∖ {["idx_transactions_hash"; "idx_id_contract_id"; "idx_id_topic1";
                              "index_ledger_sequence"]}) /\
   t_ledgers (s_tab s') = t_ledgers empty_tables /\ t_events (s_tab s') = t_events empty_tables).
Proof.
  destruct (PrepareBulkLoad (MkSession empty_tables [])) as [r s'] eqn:E.
  exact (PrepareBulkLoad_atomic (MkSession empty_tables []) r s' E).
Defined.

End Witnesses.
