(* ===== verification/FeeWindow.v ===== *)
(** * Fee statistics (internal/feewindow/feewindow.go)

    A fee window keeps the fees of the last ledgers and their distribution; the
    two windows of a server, classic and Soroban, are fed together, ledger by
    ledger. *)

From S2P Require Import Prelude Sdk SdkExample LedgerBucketWindow Tables.

Record FeeDistribution := MkFeeDistribution {
  Max : Z; Min : Z; Mode : Z;
  P10 : Z; P20 : Z; P30 : Z; P40 : Z; P50 : Z; P60 : Z; P70 : Z; P80 : Z; P90 : Z; P95 : Z; P99 : Z;
  FeeCount : Z;
  LedgerCount : Z;
}.

Definition zeroFeeDistribution : FeeDistribution := MkFeeDistribution 0 0 0 0 0 0 0 0 0 0 0 0 0 0 0 0.

Record FeeWindow := MkFeeWindow {
  feesPerLedger : LedgerBucketWindow (list Z);
  distribution : FeeDistribution;
}.

Definition NewFeeWindow (retentionWindow : Z) : FeeWindow :=
  {| feesPerLedger := NewLedgerBucketWindow retentionWindow; distribution := zeroFeeDistribution |}.

(** ** The distribution *)

Record mode_state := MkModeState {
  mode : Z; lastVal : Z; maxRepetitions : Z; localRepetitions : Z;
}.

(** The loop over [fees[1:]]. *)
Fixpoint mode_loop (st : mode_state) (fees : list Z) : mode_state :=
  match fees with
  | [] => st
  | fee :: fees =>
      if decide (fee = lastVal st) then
        mode_loop (MkModeState (mode st) (lastVal st) (maxRepetitions st) (localRepetitions st + 1)) fees
      else
        let st := if decide (localRepetitions st > maxRepetitions st)
                  then MkModeState (lastVal st) (lastVal st) (localRepetitions st) (localRepetitions st)
                  else st in
        mode_loop (MkModeState (mode st) fee (maxRepetitions st) 0) fees
  end.

(** [percentile]: nearest rank, ceiling(p * count / 100), in uint64. *)
Definition percentile (fees : list Z) (p : Z) : Res Z :=
  let kth := u64 (u64 (p * u64 (zlen fees)) + 100 - 1) / 100 in
  index fees (kth - 1).

Definition computeFeeDistribution (fees : list Z) (ledgerCount : Z) : Res FeeDistribution :=
  if decide (zlen fees = 0) then Ok zeroFeeDistribution
  else
    let fees := merge_sort Z.le fees in
    first ← index fees 0;
    last ← index fees (zlen fees - 1);
    let st := mode_loop (MkModeState first first 0 0) (tail fees) in
    let mode := if decide (localRepetitions st > maxRepetitions st) then last else mode st in
    p10 ← percentile fees 10; p20 ← percentile fees 20; p30 ← percentile fees 30;
    p40 ← percentile fees 40; p50 ← percentile fees 50; p60 ← percentile fees 60;
    p70 ← percentile fees 70; p80 ← percentile fees 80; p90 ← percentile fees 90;
    p95 ← percentile fees 95; p99 ← percentile fees 99;
    Ok {| Max := last; Min := first; Mode := mode;
          P10 := p10; P20 := p20; P30 := p30; P40 := p40; P50 := p50; P60 := p60; P70 := p70;
          P80 := p80; P90 := p90; P95 := p95; P99 := p99;
          FeeCount := u32 (zlen fees); LedgerCount := ledgerCount |}.

(** The fees of the buckets [0 .. n - 1]. *)
Fixpoint all_fees (w : LedgerBucketWindow (list Z)) (i : Z) (n : nat) : Res (list Z) :=
  match n with
  | O => Ok []
  | S n => b ← Get w i; rest ← all_fees w (i + 1) n; Ok (BucketContent b ++ rest)
  end.

Definition AppendLedgerFees (fees : LedgerBucket (list Z)) : M FeeWindow unit :=
  _ ← zoom feesPerLedger (fun w fw => MkFeeWindow w (distribution fw)) (Append fees);
  fw ← get;
  let n := Len (feesPerLedger fw) in
  allFees ← of_res (all_fees (feesPerLedger fw) 0 (Z.to_nat n));
  d ← of_res (computeFeeDistribution allFees n);
  put (MkFeeWindow (feesPerLedger fw) d).

Definition Reset_fw (fw : FeeWindow) : FeeWindow :=
  {| feesPerLedger := Reset (feesPerLedger fw); distribution := zeroFeeDistribution |}.

Definition int64ToUint64 (value : Z) (fieldName : string) : Res Z :=
  if decide (value < 0) then Err (EMsg (fieldName +:+ " cannot be negative")) else Ok value.

(** ** Both windows *)

Record FeeWindows := MkFeeWindows {
  SorobanInclusionFeeWindow : FeeWindow;
  ClassicFeeWindow : FeeWindow;
  networkPassPhrase : string;
}.

Definition NewFeeWindows (classicRetention sorobanRetention : Z) (passphrase : string) : FeeWindows :=
  {| SorobanInclusionFeeWindow := NewFeeWindow sorobanRetention;
     ClassicFeeWindow := NewFeeWindow classicRetention;
     networkPassPhrase := passphrase |}.

Definition on_classic {A} : M FeeWindow A -> M FeeWindows A :=
  zoom ClassicFeeWindow
    (fun w f => MkFeeWindows (SorobanInclusionFeeWindow f) w (networkPassPhrase f)).
Definition on_soroban {A} : M FeeWindow A -> M FeeWindows A :=
  zoom SorobanInclusionFeeWindow
    (fun w f => MkFeeWindows w (ClassicFeeWindow f) (networkPassPhrase f)).

Definition Reset_fws (f : FeeWindows) : FeeWindows :=
  {| SorobanInclusionFeeWindow := Reset_fw (SorobanInclusionFeeWindow f);
     ClassicFeeWindow := Reset_fw (ClassicFeeWindow f);
     networkPassPhrase := networkPassPhrase f |}.

Section Ingest.
Context `{X : Sdk}.

(** The class of a transaction's fee. *)
Inductive fee_class := SorobanFee (fee : Z) | ClassicFee (fee : Z) | NoFee.

Definition is_soroban_op (t : OperationType) : bool :=
  match t with InvokeHostFunction | ExtendFootprintTtl | RestoreFootprint => true | _ => false end.

(** [SorobanMeta == nil || SorobanMeta.Ext.V != 1] and [*SorobanMeta.Ext.V1] *)
Definition soroban_ext (m : option SorobanMeta) : Res (option SorobanFees) :=
  match m with
  | None => Ok None
  | Some m =>
      if decide (SM_ExtV m <> 1) then Ok None
      else match SM_ExtV1 m with
           | Some f => Ok (Some f)
           | None => Panic "invalid memory address or nil pointer dereference"
           end
  end.

(** The body of the loop of [IngestFees]. *)
Definition classify_fee (tx : LedgerTransaction) : Res fee_class :=
  feeCharged ← int64ToUint64 (tx_FeeCharged tx) "fee charged";
  let ops := tx_Operations tx in
  match ops with
  | [] => Ok NoFee
  | [op] =>
      if is_soroban_op op then
        sorobanFees ← (if decide (tx_MetaV tx = 3) then soroban_ext (tx_V3_SorobanMeta tx)
                       else if decide (tx_MetaV tx = 4) then soroban_ext (tx_V4_SorobanMeta tx)
                       else Ok None);
        match sorobanFees with
        | None => Ok NoFee
        | Some f =>
            let resourceFeeCharged := i64 (TotalNonRefundableResourceFeeCharged f
                                           + TotalRefundableResourceFeeCharged f) in
            resource ← int64ToUint64 resourceFeeCharged "resource fee charged";
            Ok (SorobanFee (u64 (feeCharged - resource)))
        end
      else Ok (ClassicFee (feeCharged / u64 (zlen ops)))
  | _ => Ok (ClassicFee (feeCharged / u64 (zlen ops)))
  end.

(** The loop of [IngestFees]: Soroban and classic fees in order. *)
Fixpoint ingest_fees_loop (reader : list (Res LedgerTransaction)) (sorobanInclusionFees classicFees : list Z)
    : Res (list Z * list Z) :=
  match reader with
  | [] => Ok (sorobanInclusionFees, classicFees)
  | Err e :: _ => if errors_Is e EOF then Ok (sorobanInclusionFees, classicFees) else Err e
  | Panic m :: _ => Panic m
  | Ok tx :: reader =>
      c ← classify_fee tx;
      match c with
      | SorobanFee f => ingest_fees_loop reader (sorobanInclusionFees ++ [f]) classicFees
      | ClassicFee f => ingest_fees_loop reader sorobanInclusionFees (classicFees ++ [f])
      | NoFee => ingest_fees_loop reader sorobanInclusionFees classicFees
      end
  end.

(** [errors.Join(err, fw.db.Rollback())] on failure; [db_Rollback] is the
    rollback of the handle the windows hold. *)
Definition with_rollback {S D A} (db_Rollback : M D unit) (m : M S A) : M (S * D) A := fun sd =>
  match m (fst sd) with
  | (Err e, s) =>
      match db_Rollback (snd sd) with
      | (Ok _, d) => (Err e, (s, d))
      | (Err e', d) => (Err (EJoin e e'), (s, d))
      | (Panic p, d) => (Panic p, (s, d))
      end
  | (r, s) => (r, (s, snd sd))
  end.

Definition IngestFees {D} (db_Rollback : M D unit) (meta : LedgerCloseMeta) : M (FeeWindows * D) unit :=
  '(f, _) ← get;
  reader ← with_rollback db_Rollback (of_res (NewLedgerTransactionReader (networkPassPhrase f) meta));
  '(sorobanInclusionFees, classicFees) ← with_rollback db_Rollback (of_res (ingest_fees_loop reader [] []));
  let bucket fees := {| LedgerSeq := LedgerSequence meta; LedgerCloseTimestamp := LedgerCloseTime meta;
                        BucketContent := fees |} in
  with_rollback db_Rollback (on_classic (AppendLedgerFees (bucket classicFees))) ;;
  with_rollback db_Rollback (on_soroban (AppendLedgerFees (bucket sorobanInclusionFees))).

End Ingest.

(** ** The distribution is right *)

Definition count (v : Z) (l : list Z) : Z := zlen (filter (fun x => x = v) l).
Definition count_below (v : Z) (l : list Z) : Z := zlen (filter (fun x => x < v) l).
Definition count_upto (v : Z) (l : list Z) : Z := zlen (filter (fun x => x <= v) l).

Lemma count_app v l k : count v (l ++ k) = count v l + count v k.
Proof. unfold count. by rewrite filter_app, zlen_app. Qed.

Lemma count_single v x : count v [x] = if decide (x = v) then 1 else 0.
Proof. unfold count. rewrite filter_cons. by case_decide. Qed.

Lemma count_nonneg v l : 0 <= count v l.
Proof. apply zlen_nonneg. Qed.

Lemma count_zero v l : v ∉ l -> count v l = 0.
Proof. intros H. unfold count. rewrite filter_none; [done|]. by intros x Hx ->. Qed.

Lemma count_perm v l k : l ≡ₚ k -> count v l = count v k.
Proof. intros H. unfold count, zlen. by rewrite H. Qed.

(** What the loop knows of the prefix [pre] it has read. *)
Definition mode_inv (pre : list Z) (st : mode_state) : Prop :=
  last pre = Some (lastVal st) /\ 0 <= localRepetitions st /\ 0 <= maxRepetitions st /\
  count (lastVal st) pre = localRepetitions st + 1 /\
  (forall v, v ∈ pre -> v <= lastVal st) /\
  (forall v, v < lastVal st -> count v pre <= maxRepetitions st + 1) /\
  mode st <= lastVal st /\
  (mode st < lastVal st -> count (mode st) pre = maxRepetitions st + 1) /\
  (mode st = lastVal st -> maxRepetitions st = 0) /\
  (forall v, v < mode st -> count v pre <= maxRepetitions st).

Lemma mode_inv_same pre st :
  mode_inv pre st ->
  mode_inv (pre ++ [lastVal st])
    (MkModeState (mode st) (lastVal st) (maxRepetitions st) (localRepetitions st + 1)).
Proof.
  intros (H1&H2&H3&H4&H5&H6&H7&H8&H9&H10). unfold mode_inv. simpl.
  assert (forall v, v < lastVal st -> count v (pre ++ [lastVal st]) = count v pre) as Hc.
  { intros v Hv. rewrite count_app, count_single, decide_False by lia. lia. }
  split_and!; try lia.
  - by rewrite last_snoc.
  - rewrite count_app, count_single, decide_True by done. lia.
  - intros v [Hv| ->%list_elem_of_singleton]%elem_of_app; [by apply H5|lia].
  - intros v Hv. rewrite Hc by done. by apply H6.
  - intros Hm. rewrite Hc by done. by apply H8.
  - intros v Hv. rewrite Hc by lia. by apply H10.
Qed.

Lemma mode_inv_next pre st fee :
  mode_inv pre st -> lastVal st < fee ->
  let st' := if decide (localRepetitions st > maxRepetitions st)
             then MkModeState (lastVal st) (lastVal st) (localRepetitions st) (localRepetitions st)
             else st in
  mode_inv (pre ++ [fee]) (MkModeState (mode st') fee (maxRepetitions st') 0).
Proof.
  intros (H1&H2&H3&H4&H5&H6&H7&H8&H9&H10) Hlt.
  assert (forall v, v < fee -> count v (pre ++ [fee]) = count v pre) as Hc.
  { intros v Hv. rewrite count_app, count_single, decide_False by lia. lia. }
  assert (count fee (pre ++ [fee]) = 1) as Hf.
  { rewrite count_app, count_single, decide_True, count_zero by (done || intros ?%H5; lia). lia. }
  assert (forall v, v < fee -> v <= lastVal st \/ count v pre = 0) as Hgap.
  { intros v Hv. destruct (decide (v ∈ pre)) as [Hin|Hin]; [left; by apply H5|right; by apply count_zero]. }
  assert (forall v, v ∈ pre ++ [fee] -> v <= fee) as Hle.
  { intros v [Hv%H5| ->%list_elem_of_singleton]%elem_of_app; lia. }
  pose proof (fun v => count_nonneg v pre) as Hnn.
  unfold mode_inv. case_decide as Hd; simpl; split_and!; try done; try lia; rewrite ?last_snoc; try done.
  - intros v Hv. rewrite Hc by done. destruct (Hgap v Hv) as [Hg| ->]; [|lia].
    destruct (decide (v = lastVal st)) as [->|]; [lia|]. specialize (H6 v). lia.
  - intros _. rewrite Hc by done. lia.
  - intros v Hv. rewrite Hc by lia. specialize (H6 v). lia.
  - intros v Hv. rewrite Hc by done. destruct (Hgap v Hv) as [Hg| ->]; [|lia].
    destruct (decide (v = lastVal st)) as [->|]; [lia|]. apply H6. lia.
  - intros _. rewrite Hc by lia. destruct (decide (mode st = lastVal st)) as [E|E]; [|apply H8; lia].
    rewrite E, H4. rewrite (H9 E) in *. lia.
  - intros v Hv. rewrite Hc by lia. by apply H10.
Qed.

Lemma mode_loop_inv pre st rest :
  mode_inv pre st -> StronglySorted Z.le (pre ++ rest) -> mode_inv (pre ++ rest) (mode_loop st rest).
Proof.
  revert pre st; induction rest as [|fee rest IH]; intros pre st Hinv Hs; simpl.
  { by rewrite app_nil_r. }
  assert (lastVal st <= fee) as Hle.
  { destruct Hinv as (Hl&_). apply last_Some in Hl as [l' ->].
    eapply (StronglySorted_app_1_elem_of Z.le); [exact Hs|apply elem_of_app; right; by left|by left]. }
  assert (pre ++ fee :: rest = (pre ++ [fee]) ++ rest) as E by (by rewrite <- app_assoc).
  rewrite E in *. case_decide as Hd.
  - subst fee. apply IH; [by apply mode_inv_same|done].
  - apply IH; [apply mode_inv_next; [done|lia]|done].
Qed.

(** The mode of a non-empty list: the most frequent value, the smallest one when
    several are. *)
Definition is_mode (m : Z) (l : list Z) : Prop :=
  m ∈ l /\ (forall v, count v l <= count m l) /\ (forall v, v < m -> count v l < count m l).

Lemma count_pos v l : 0 < count v l -> v ∈ l.
Proof. intros H. destruct (decide (v ∈ l)); [done|]. rewrite count_zero in H by done. lia. Qed.

Lemma mode_inv_result l st la :
  mode_inv l st -> last l = Some la ->
  is_mode (if decide (localRepetitions st > maxRepetitions st) then la else mode st) l.
Proof.
  intros (H1&H2&H3&H4&H5&H6&H7&H8&H9&H10) Hla. rewrite H1 in Hla. simplify_eq.
  assert (forall v, lastVal st < v -> count v l = 0) as Hz.
  { intros v Hv. apply count_zero. intros ?%H5. lia. }
  assert (forall m, 0 < count m l -> (forall v, v <= lastVal st -> count v l <= count m l) ->
    forall v, count v l <= count m l) as Hall.
  { intros m Hm Hle v. destruct (decide (v <= lastVal st)); [auto|]. rewrite Hz by lia. lia. }
  case_decide as Hd.
  - split_and!.
    + apply count_pos. lia.
    + apply Hall; [lia|]. intros v Hv. destruct (decide (v = lastVal st)) as [->|]; [lia|].
      specialize (H6 v). lia.
    + intros v Hv. specialize (H6 v Hv). lia.
  - assert (count (mode st) l = maxRepetitions st + 1) as Hm.
    { destruct (decide (mode st = lastVal st)) as [E|E]; [|apply H8; lia].
      specialize (H9 E). rewrite E, H4. lia. }
    split_and!.
    + apply count_pos. lia.
    + apply Hall; [lia|]. intros v Hv. rewrite Hm.
      destruct (decide (v = lastVal st)) as [->|]; [lia|]. apply H6. lia.
    + intros v Hv. rewrite Hm. specialize (H10 v Hv). lia.
Qed.

(** The nearest-rank percentile [p] of [l]: the value at rank ceiling(p n / 100),
    that is, at least that many fees are not above it and less than that many
    are below it. *)
Definition is_percentile (p v : Z) (l : list Z) : Prop :=
  let rank := (p * zlen l + 99) / 100 in
  v ∈ l /\ count_below v l < rank <= count_upto v l.

Lemma sorted_rank (l : list Z) i v :
  StronglySorted Z.le l -> l !! i = Some v ->
  count_below v l <= Z.of_nat i < count_upto v l.
Proof.
  intros Hs Hi. pose proof (lookup_lt_Some _ _ _ Hi) as Hlt.
  pose proof Hs as Hs'. rewrite <- (take_drop_middle _ _ _ Hi) in Hs'.
  assert (forall x, x ∈ take i l -> x <= v) as H1.
  { intros x Hx. eapply (StronglySorted_app_1_elem_of Z.le); [exact Hs'|done|by left]. }
  assert (forall x, x ∈ drop (S i) l -> v <= x) as H2.
  { intros x Hx. apply StronglySorted_app_1_r, StronglySorted_inv in Hs' as [_ HF].
    rewrite Forall_forall in HF. auto. }
  unfold count_below, count_upto, zlen. rewrite <- (take_drop_middle _ _ _ Hi), !filter_app, !length_app.
  rewrite filter_cons_False, filter_cons_True by lia.
  rewrite (filter_none _ (drop (S i) l)) by (intros x Hx%H2; lia).
  rewrite (filter_all (fun x => x <= v) (take i l)) by done.
  pose proof (length_filter (fun x => x < v) (take i l)) as H3. rewrite length_take in *. simpl. lia.
Qed.

Lemma zlen_filter_perm (P : Z -> Prop) `{forall x, Decision (P x)} l k :
  l ≡ₚ k -> zlen (filter P l) = zlen (filter P k).
Proof. intros Hp. unfold zlen. by rewrite Hp. Qed.

Lemma percentile_ok fees l p :
  StronglySorted Z.le l -> l ≡ₚ fees -> 0 < zlen fees < 2 ^ 32 -> 0 < p <= 100 ->
  exists v, percentile l p = Ok v /\ is_percentile p v fees.
Proof.
  intros Hs Hp Hn Hpp. assert (zlen l = zlen fees) as Hlen by (unfold zlen; by rewrite Hp).
  unfold percentile. rewrite Hlen. rewrite (u64_small (zlen fees)) by (unfold_ints; lia).
  rewrite (u64_small (p * zlen fees)) by (unfold_ints; nia).
  rewrite u64_small by (unfold_ints; nia).
  replace (p * zlen fees + 100 - 1) with (p * zlen fees + 99) by lia.
  set (rank := (p * zlen fees + 99) / 100).
  assert (1 <= rank <= zlen fees) as Hr.
  { unfold rank. split; [apply Z.div_le_lower_bound; nia|].
    apply Z.lt_succ_r, Z.div_lt_upper_bound; nia. }
  destruct (index_in_range l (rank - 1)) as (v&Hi&Hv); [lia|].
  exists v. split; [done|]. unfold is_percentile. fold rank.
  apply sorted_rank in Hv as Hc; [|done].
  unfold count_below, count_upto in *. rewrite !(zlen_filter_perm _ l fees Hp) in Hc.
  split; [rewrite <- Hp; by eapply list_elem_of_lookup_2|lia].
Qed.

Ltac next_percentile fees l p :=
  let v := fresh "v" in let H := fresh "H" in
  destruct (percentile_ok fees l p) as (v&H&?); [done..|]; rewrite H; clear H.

(** C9: The published distribution is the one of the fees: the extremes, the most
    frequent fee (the smallest one among equals) and the nearest-rank
    percentiles; computing it never panics. *)
Theorem computeFeeDistribution_spec fees n :
  0 < zlen fees < 2 ^ 32 ->
  exists d, computeFeeDistribution fees n = Ok d /\
    (Min d ∈ fees /\ forall f, f ∈ fees -> Min d <= f) /\
    (Max d ∈ fees /\ forall f, f ∈ fees -> f <= Max d) /\
    is_mode (Mode d) fees /\
    is_percentile 10 (P10 d) fees /\ is_percentile 20 (P20 d) fees /\ is_percentile 30 (P30 d) fees /\
    is_percentile 40 (P40 d) fees /\ is_percentile 50 (P50 d) fees /\ is_percentile 60 (P60 d) fees /\
    is_percentile 70 (P70 d) fees /\ is_percentile 80 (P80 d) fees /\ is_percentile 90 (P90 d) fees /\
    is_percentile 95 (P95 d) fees /\ is_percentile 99 (P99 d) fees /\
    FeeCount d = zlen fees /\ LedgerCount d = n.
Proof.
  intros Hn. unfold computeFeeDistribution. rewrite decide_False by lia. cbv zeta.
  set (l := merge_sort Z.le fees).
  assert (l ≡ₚ fees) as Hp by apply merge_sort_Permutation.
  assert (StronglySorted Z.le l) as Hs by (apply StronglySorted_merge_sort; apply _).
  assert (zlen l = zlen fees) as Hlen by (unfold zlen; by rewrite Hp).
  destruct l as [|x l'] eqn:El; [rewrite zlen_nil in Hlen; lia|].
  destruct (index_in_range (x :: l') (zlen (x :: l') - 1)) as (la&Hla&Hla'); [lia|].
  assert (last (x :: l') = Some la) as Hlast.
  { rewrite last_lookup, <- Hla'. f_equal. unfold zlen. simpl. lia. }
  change (index (x :: l') 0) with (Ok x). rewrite Hla. simpl (tail _).
  next_percentile fees (x :: l') 10.
  next_percentile fees (x :: l') 20.
  next_percentile fees (x :: l') 30.
  next_percentile fees (x :: l') 40.
  next_percentile fees (x :: l') 50.
  next_percentile fees (x :: l') 60.
  next_percentile fees (x :: l') 70.
  next_percentile fees (x :: l') 80.
  next_percentile fees (x :: l') 90.
  next_percentile fees (x :: l') 95.
  next_percentile fees (x :: l') 99.
  eexists. split; [reflexivity|]. cbn [Max Min Mode P10 P20 P30 P40 P50 P60 P70 P80 P90 P95 P99 FeeCount LedgerCount].
  rewrite Hlen, u32_small by (unfold_ints; lia).
  assert (mode_inv (x :: l') (mode_loop (MkModeState x x 0 0) l')) as Hm.
  { apply (mode_loop_inv [x]); [|done]. unfold mode_inv. simpl. rewrite count_single, decide_True by done.
    split_and!; try done; intros f; rewrite ?list_elem_of_singleton; try lia; intros Hv;
      rewrite count_single, decide_False by lia; lia. }
  pose proof (mode_inv_result _ _ _ Hm Hlast) as Hmode.
  split_and!; try done.
  - rewrite <- Hp. by left.
  - intros f. rewrite <- Hp. apply StronglySorted_inv in Hs as [_ HF]. rewrite Forall_forall in HF.
    intros [->|Hf]%elem_of_cons; [lia|auto].
  - rewrite <- Hp. apply last_Some in Hlast as [k ->]. set_solver.
  - intros f. rewrite <- Hp. intros Hf. apply last_Some in Hlast as [k Ek]. rewrite Ek in Hs, Hf.
    apply elem_of_app in Hf as [Hf|Hf].
    + eapply (StronglySorted_app_1_elem_of Z.le); [exact Hs|done|by left].
    + apply list_elem_of_singleton in Hf. lia.
  - destruct Hmode as (Hin&Hmx&Hmn). unfold is_mode. rewrite <- Hp at 1. split; [done|].
    split; intros f; rewrite <- !(count_perm _ _ _ Hp); auto.
Qed.

(** ** The windows *)

Lemma all_fees_view w i n :
  window_inv w -> (i + n <= length (view w))%nat ->
  all_fees w (Z.of_nat i) n = Ok (concat (BucketContent <$> take n (drop i (view w)))).
Proof.
  intros Hw. revert i. induction n as [|n IH]; intros i Hn; simpl; [done|].
  destruct (Get_view w (Z.of_nat i)) as (b&->&Hb); [done|rewrite <- zlen_view; llia|].
  rewrite Nat2Z.id in Hb. rewrite (drop_S _ _ _ Hb). csimpl.
  replace (Z.of_nat i + 1) with (Z.of_nat (S i)) by lia.
  rewrite IH by lia. done.
Qed.

(** The fees of the ledgers of a window. *)
Definition window_fees (fw : FeeWindow) : list Z := concat (BucketContent <$> view (feesPerLedger fw)).

(** The published distribution is the one of the ledgers in the window. *)
Definition fee_inv (fw : FeeWindow) : Prop :=
  window_inv (feesPerLedger fw) /\
  computeFeeDistribution (window_fees fw) (zlen (view (feesPerLedger fw))) = Ok (distribution fw).

Lemma NewFeeWindow_inv n : 0 < n <= 2 ^ 31 -> fee_inv (NewFeeWindow n).
Proof. intros Hn. split; [by apply New_inv|done]. Qed.

Lemma Reset_fw_inv fw : fee_inv fw -> fee_inv (Reset_fw fw).
Proof.
  intros [Hw _]. destruct (Reset_inv _ Hw) as [Hr Hv]. split; [done|].
  unfold window_fees. simpl. by rewrite Hv.
Qed.

Lemma computeFeeDistribution_total fees n :
  zlen fees < 2 ^ 32 -> exists d, computeFeeDistribution fees n = Ok d.
Proof.
  intros Hn. destruct (decide (zlen fees = 0)) as [E|E].
  - unfold computeFeeDistribution. rewrite decide_True by done. by eexists.
  - pose proof (zlen_nonneg fees). unfold computeFeeDistribution. rewrite decide_False by done. cbv zeta.
    set (l := merge_sort Z.le fees).
    assert (l ≡ₚ fees) as Hp by apply merge_sort_Permutation.
    assert (StronglySorted Z.le l) as Hs by (apply StronglySorted_merge_sort; apply _).
    assert (zlen l = zlen fees) as Hlen by (unfold zlen; by rewrite Hp).
    destruct (index_in_range l 0) as (x&->&_); [lia|].
    destruct (index_in_range l (zlen l - 1)) as (la&->&_); [lia|].
    assert (0 < zlen fees < 2 ^ 32) as Hr by lia.
    next_percentile fees l 10. next_percentile fees l 20. next_percentile fees l 30.
    next_percentile fees l 40. next_percentile fees l 50. next_percentile fees l 60.
    next_percentile fees l 70. next_percentile fees l 80. next_percentile fees l 90.
    next_percentile fees l 95. next_percentile fees l 99. by eexists.
Qed.

Lemma AppendLedgerFees_accepts fw b :
  fee_inv fw -> is_u32 (LedgerSeq b) -> queue_accepts (view (feesPerLedger fw)) b ->
  zlen (window_fees fw) + zlen (BucketContent b) < 2 ^ 32 ->
  exists fw', AppendLedgerFees b fw = (Ok tt, fw') /\ fee_inv fw' /\
    view (feesPerLedger fw') = snd (queue_append (bcap (feesPerLedger fw)) (view (feesPerLedger fw)) b) /\
    bcap (feesPerLedger fw') = bcap (feesPerLedger fw).
Proof.
  intros [Hw Hd] Hb Ha Hn.
  destruct (Append_accepts _ _ Hw Hb Ha) as (w'&Hap&Hv&Hw'&Hcap).
  set (fw1 := MkFeeWindow w' (distribution fw)).
  assert (zlen (window_fees fw1) < 2 ^ 32) as Hlt.
  { unfold window_fees, fw1. simpl. rewrite Hv. unfold queue_append.
    unfold window_fees in Hn. revert Hn. generalize (view (feesPerLedger fw)) as q. intros q Hn.
    case_decide; simpl; rewrite fmap_app, concat_app, zlen_app; csimpl; rewrite app_nil_r; [lia|].
    destruct q as [|h q]; csimpl in *; [lia|]. rewrite zlen_app in Hn.
    pose proof (zlen_nonneg (BucketContent h)). lia. }
  destruct (computeFeeDistribution_total (window_fees fw1) (zlen (view w')) Hlt) as [d Hd'].
  exists (MkFeeWindow w' d). split_and!; [|by split|done|done].
  unfold AppendLedgerFees. unfold_m. simpl. rewrite Hap. simpl.
  rewrite Len_inv, <- zlen_view by done. unfold zlen at 1. rewrite Nat2Z.id.
  pose proof (all_fees_view w' 0 (length (view w')) Hw') as Hall.
  change (Z.of_nat 0) with 0 in Hall.
  rewrite drop_0, firstn_all in Hall. rewrite Hall by lia. unfold window_fees in Hd'. simpl in Hd'.
  by rewrite Hd'.
Qed.

Lemma AppendLedgerFees_rejects fw b :
  fee_inv fw -> is_u32 (LedgerSeq b) -> ~ queue_accepts (view (feesPerLedger fw)) b ->
  exists e, AppendLedgerFees b fw = (Err e, fw).
Proof.
  intros [Hw _] Hb Ha. destruct (Append_rejects _ _ Hw Ha) as [e He]. exists e.
  unfold AppendLedgerFees. unfold_m. simpl. rewrite He. by destruct fw.
Qed.

(** Feeding a window keeps its published distribution equal to the one of
    the ledgers it retains: the next ledger is accepted, evicting the oldest
    when the window is full, and any other ledger is refused with the window
    and the distribution untouched. *)
Theorem AppendLedgerFees_distribution fw b :
  fee_inv fw -> is_u32 (LedgerSeq b) -> zlen (window_fees fw) + zlen (BucketContent b) < 2 ^ 32 ->
  (queue_accepts (view (feesPerLedger fw)) b ->
     exists fw', AppendLedgerFees b fw = (Ok tt, fw') /\ fee_inv fw' /\
       view (feesPerLedger fw') = snd (queue_append (bcap (feesPerLedger fw)) (view (feesPerLedger fw)) b)) /\
  (~ queue_accepts (view (feesPerLedger fw)) b -> exists e, AppendLedgerFees b fw = (Err e, fw)).
Proof.
  intros Hinv Hb Hn. split; [|by apply AppendLedgerFees_rejects].
  intros Ha. destruct (AppendLedgerFees_accepts fw b) as (fw'&?&?&?&_); eauto.
Qed.

(** A ledger is never accepted right after itself. *)
Lemma queue_refuses_again {T} cap (q : list (LedgerBucket T)) b b' :
  contiguous (snd (queue_append cap q b)) -> is_u32 (LedgerSeq b) -> LedgerSeq b' = LedgerSeq b ->
  zlen q < 2 ^ 32 - 1 ->
  ~ queue_accepts (snd (queue_append cap q b)) b'.
Proof.
  intros Hc Hb Heq Hlen. 
  assert (exists q', snd (queue_append cap q b) = q' ++ [b] /\ zlen q' <= zlen q) as (q'&Hq&Hl).
  { unfold queue_append. case_decide; simpl; [by eexists|]. exists (tail q). split; [done|].
    destruct q; [done|]. simpl. rewrite zlen_cons. lia. }
  rewrite Hq in *. pose proof (zlen_nonneg q').
  destruct (q' ++ [b]) as [|h rest] eqn:E; [by destruct q'|]. simpl. intros Hacc.
  assert ((h :: rest) !! length q' = Some b) as Hlb.
  { rewrite <- E. rewrite lookup_app_r, Nat.sub_diag by lia. done. }
  pose proof (Hc h (length q') b eq_refl Hlb) as Hbs.
  assert (zlen (h :: rest) = zlen q' + 1) as Hz by (rewrite <- E, zlen_app; done).
  rewrite Hz, Heq, Hbs in Hacc. unfold zlen in *. unfold_ints.
  Z.to_euclidean_division_equations. lia.
Qed.

Section IngestTheorems.
Context `{X : Sdk} {D : Type} (db_Rollback : M D unit).

Definition fee_bucket (meta : LedgerCloseMeta) (fees : list Z) : LedgerBucket (list Z) :=
  {| LedgerSeq := LedgerSequence meta; LedgerCloseTimestamp := LedgerCloseTime meta; BucketContent := fees |}.

(** The window takes the ledger [meta] next. *)
Definition takes (fw : FeeWindow) (meta : LedgerCloseMeta) (fees : list Z) : Prop :=
  fee_inv fw /\ queue_accepts (view (feesPerLedger fw)) (fee_bucket meta fees) /\
  zlen (window_fees fw) + zlen fees < 2 ^ 32.

(** The window after it took the ledger. *)
Definition took (fw fw' : FeeWindow) (meta : LedgerCloseMeta) (fees : list Z) : Prop :=
  fee_inv fw' /\
  view (feesPerLedger fw') =
    snd (queue_append (bcap (feesPerLedger fw)) (view (feesPerLedger fw)) (fee_bucket meta fees)) /\
  bcap (feesPerLedger fw') = bcap (feesPerLedger fw).

Lemma IngestFees_ok meta f d rd sf cf :
  is_u32 (LedgerSequence meta) -> NewLedgerTransactionReader (networkPassPhrase f) meta = Ok rd ->
  ingest_fees_loop rd [] [] = Ok (sf, cf) ->
  takes (SorobanInclusionFeeWindow f) meta sf -> takes (ClassicFeeWindow f) meta cf ->
  exists f', IngestFees db_Rollback meta (f, d) = (Ok tt, (f', d)) /\
    networkPassPhrase f' = networkPassPhrase f /\
    took (SorobanInclusionFeeWindow f) (SorobanInclusionFeeWindow f') meta sf /\
    took (ClassicFeeWindow f) (ClassicFeeWindow f') meta cf.
Proof.
  intros Hs Hrd Hloop (Hi1&Ha1&Hn1) (Hi2&Ha2&Hn2).
  destruct (AppendLedgerFees_accepts _ (fee_bucket meta cf) Hi2 Hs Ha2 Hn2) as (c'&Hc&Hci&Hcv&Hcb).
  destruct (AppendLedgerFees_accepts _ (fee_bucket meta sf) Hi1 Hs Ha1 Hn1) as (s'&Hs'&Hsi&Hsv&Hsb).
  exists (MkFeeWindows s' c' (networkPassPhrase f)). split_and!; [|done|by split|by split].
  unfold IngestFees, with_rollback, on_classic, on_soroban. unfold_m. simpl. rewrite Hrd. simpl.
  rewrite Hloop. simpl. unfold fee_bucket in Hc, Hs'. rewrite Hc. simpl. rewrite Hs'. done.
Qed.

Lemma IngestFees_refused meta f d rd sf cf :
  is_u32 (LedgerSequence meta) -> NewLedgerTransactionReader (networkPassPhrase f) meta = Ok rd ->
  ingest_fees_loop rd [] [] = Ok (sf, cf) -> fee_inv (ClassicFeeWindow f) ->
  ~ queue_accepts (view (feesPerLedger (ClassicFeeWindow f))) (fee_bucket meta cf) ->
  (forall p, fst (db_Rollback d) <> Panic p) ->
  exists e, IngestFees db_Rollback meta (f, d) = (Err e, (f, snd (db_Rollback d))).
Proof.
  intros Hs Hrd Hloop Hinv Hno Hnp.
  destruct (AppendLedgerFees_rejects _ (fee_bucket meta cf) Hinv Hs Hno) as [e He].
  unfold IngestFees, with_rollback, on_classic, on_soroban. unfold_m. simpl. rewrite Hrd. simpl.
  rewrite Hloop. simpl. unfold fee_bucket in He. rewrite He. simpl.
  destruct (db_Rollback d) as [[[]|e'|p] d'] eqn:E; simpl in *; [|..|by destruct (Hnp p)];
    destruct f; eexists; reflexivity.
Qed.

(** Ingesting the fees of the next ledger advances both windows to it; doing
    it again for the same ledger always fails, with both windows unchanged and
    the handle rolled back: the fee windows cannot be fed a ledger twice. *)
Theorem IngestFees_not_repeatable meta f d rd sf cf :
  is_u32 (LedgerSequence meta) -> NewLedgerTransactionReader (networkPassPhrase f) meta = Ok rd ->
  ingest_fees_loop rd [] [] = Ok (sf, cf) ->
  takes (SorobanInclusionFeeWindow f) meta sf -> takes (ClassicFeeWindow f) meta cf ->
  zlen (view (feesPerLedger (ClassicFeeWindow f))) < 2 ^ 32 - 1 ->
  (forall d p, fst (db_Rollback d) <> Panic p) ->
  exists f', IngestFees db_Rollback meta (f, d) = (Ok tt, (f', d)) /\
    took (SorobanInclusionFeeWindow f) (SorobanInclusionFeeWindow f') meta sf /\
    took (ClassicFeeWindow f) (ClassicFeeWindow f') meta cf /\
    forall d', exists e, IngestFees db_Rollback meta (f', d') = (Err e, (f', snd (db_Rollback d'))).
Proof.
  intros Hs Hrd Hloop Ht1 Ht2 Hlen Hnp.
  destruct (IngestFees_ok meta f d rd sf cf) as (f'&Hrun&Hp&Hk1&Hk2); [done..|].
  exists f'. split_and!; [done..|]. intros d'. destruct Hk2 as (Hinv&Hv&_).
  apply (IngestFees_refused meta f' d' rd sf cf); try done; [by rewrite Hp|].
  rewrite Hv. apply queue_refuses_again; try done.
  rewrite <- Hv. destruct Hinv as [(_&_&_&_&_&_&_&Hc) _]. done.
Qed.

End IngestTheorems.

Section Witnesses.

Definition ex_windows : FeeWindows := NewFeeWindows 3 2 "".

Lemma ex_fee_inv n : 0 < n <= 2 ^ 31 -> fee_inv (NewFeeWindow n).
Proof. apply NewFeeWindow_inv. Qed.

Lemma computeFeeDistribution_spec_witness :
  exists d, computeFeeDistribution [300; 100; 100; 200; 200] 2 = Ok d /\ Mode d = 100 /\ P50 d = 200 /\
    is_mode (Mode d) [300; 100; 100; 200; 200] /\ is_percentile 50 (P50 d) [300; 100; 100; 200; 200].
Proof.
  destruct (computeFeeDistribution_spec [300; 100; 100; 200; 200] 2) as (d&Hd&H).
  - vm_compute. split; reflexivity.
  - exists d. pose proof Hd as Hd'. vm_compute in Hd'. injection Hd' as E.
    split; [exact Hd|]. split; [rewrite <- E; reflexivity|]. split; [rewrite <- E; reflexivity|].
    destruct H as (_&_&Hm&_&_&_&_&Hp&_). split; [exact Hm|exact Hp].
Defined.

Lemma AppendLedgerFees_distribution_witness :
  exists fw', AppendLedgerFees (MkLedgerBucket 5 25 [100; 200]) (NewFeeWindow 3) = (Ok tt, fw') /\ fee_inv fw' /\
    view (feesPerLedger fw') = [MkLedgerBucket 5 25 [100; 200]].
Proof.
  destruct (AppendLedgerFees_distribution (NewFeeWindow 3) (MkLedgerBucket 5 25 [100; 200])) as [H _].
  - apply ex_fee_inv. lia.
  - vm_compute. split; [discriminate|reflexivity].
  - vm_compute. reflexivity.
  - apply H. exact I.
Defined.

Lemma IngestFees_not_repeatable_witness :
  exists f', IngestFees (X := ex_sdk) (mret tt : M unit unit) 3 (ex_windows, tt) = (Ok tt, (f', tt)) /\
    forall d', exists e, IngestFees (X := ex_sdk) (mret tt : M unit unit) 3 (f', d') = (Err e, (f', d')).
Proof.
  destruct (IngestFees_not_repeatable (X := ex_sdk) (mret tt : M unit unit) 3 ex_windows tt
              (Ok <$> ex_txs 3) [50] [200]) as (f'&H1&_&_&H2).
  - vm_compute. split; [discriminate|reflexivity].
  - reflexivity.
  - vm_compute. reflexivity.
  - split; [apply ex_fee_inv; lia|split; [exact I|vm_compute; reflexivity]].
  - split; [apply ex_fee_inv; lia|split; [exact I|vm_compute; reflexivity]].
  - vm_compute. reflexivity.
  - intros d p. discriminate.
  - exists f'. split; [exact H1|exact H2].
Defined.

End Witnesses.
