(* ===== verification/Migration.v ===== *)
(** * Data migrations (internal/db/migration.go and the migrations of
    transaction.go, event.go and feewindow.go)

    Migrations re-read stored ledgers to fill tables and fee windows.  Those on
    tables are guarded by a boolean of the metadata table and run in one
    transaction of the shared handle. *)

From S2P Require Import Prelude Sdk SdkExample LedgerBucketWindow Tables DbTransaction DbEvent DbLedger Db FeeWindow.

(** ** Ledger ranges *)

Record LedgerSeqRange := MkLedgerSeqRange { First : Z; Last : Z }.

#[global] Instance LedgerSeqRange_eq_dec : EqDecision LedgerSeqRange.
Proof. solve_decision. Defined.

Definition IsLedgerIncluded (mlr : LedgerSeqRange) (ledgerSeq : Z) : bool :=
  bool_decide (First mlr <= ledgerSeq) && bool_decide (ledgerSeq <= Last mlr).

Definition Empty (mlr : LedgerSeqRange) : bool :=
  bool_decide (First mlr = 0) && bool_decide (Last mlr = 0).

Definition Merge (mlr other : LedgerSeqRange) : LedgerSeqRange :=
  if Empty mlr then other
  else if Empty other then mlr
  else {| First := Z.min (First mlr) (First other); Last := Z.max (Last mlr) (Last other) |}.

(** ** The handle of the migrations

    The session of the shared handle: inside a transaction its statements run on
    a working copy, outside one they run on the committed tables.  Statements
    prepared on a transaction fail once it is over. *)
Record mdb := MkMdb {
  m_committed : tables;
  m_tx : option tables; (* the working copy of the open transaction *)
  m_faults : list (option error);
}.

Definition m_view (d : mdb) : tables := default (m_committed d) (m_tx d).

(** A statement of the session. *)
Definition on_mdb {A} (m : M session A) : M mdb A := fun d =>
  let '(r, s) := m (MkSession (m_view d) (m_faults d)) in
  (r, match m_tx d with
      | Some _ => MkMdb (m_committed d) (Some (s_tab s)) (s_faults s)
      | None => MkMdb (s_tab s) None (s_faults s)
      end).

(** An operation whose statements are prepared on the transaction: once it is
    over the first of them fails, which ends the operation. *)
Definition on_mtx {H A} (m : M (H * session) A) : M (H * mdb) A := fun hd =>
  let '(h, d) := hd in
  match m_tx d with
  | Some t =>
      let '(r, (h', s)) := m (h, MkSession t (m_faults d)) in
      (r, (h', MkMdb (m_committed d) (Some (s_tab s)) (s_faults s)))
  | None =>
      let over := EExt "sql: transaction has already been committed or rolled back" in
      let '(r, (h', _)) := m (h, MkSession (m_committed d) [Some over]) in
      (r, (h', d))
  end.

Definition db_Begin : M mdb unit :=
  on_mdb (sql_select (fun _ => tt)) ;;
  modify (fun d => MkMdb (m_committed d) (Some (m_committed d)) (m_faults d)).

Definition db_Rollback : M mdb unit :=
  d ← get;
  match m_tx d with
  | None => fail (ESentinel NotInTransaction)
  | Some _ =>
      on_mdb (sql_select (fun _ => tt)) ;;
      modify (fun d => MkMdb (m_committed d) None (m_faults d))
  end.

Definition db_Commit : M mdb unit :=
  d ← get;
  match m_tx d with
  | None => fail (ESentinel NotInTransaction)
  | Some _ =>
      on_mdb (sql_select (fun _ => tt)) ;;
      modify (fun d => MkMdb (m_view d) None (m_faults d))
  end.

Section Migrations.
Context `{X : Sdk} `{ND : Nondet}.

(** ** Migrations *)

(** The outcome of a call, as a value. *)
Definition observe {S A} (m : M S A) : M S (Res A) := fun s => let '(r, s') := m s in (Ok r, s').

(** The [MigrationApplier]s: [transactionTableMigration], [eventTableMigration]
    and [feeWindowMigration]. *)
Inductive applier :=
  | transactionTableMigration (firstLedger lastLedger : Z) (writer : transactionHandler)
  | eventTableMigration (firstLedger lastLedger : Z) (writer : eventHandler)
  | feeWindowMigration (firstLedger lastLedger : Z) (windows : FeeWindows).

Definition applier_ApplicableRange (a : applier) : LedgerSeqRange :=
  match a with
  | transactionTableMigration f l _ | eventTableMigration f l _ | feeWindowMigration f l _ =>
      {| First := f; Last := l |}
  end.

(** Running a writer the applier owns. *)
Definition applier_run (a : applier)
    (tx : M (transactionHandler * mdb) unit) (ev : M (eventHandler * mdb) unit)
    (fee : M (FeeWindows * mdb) unit) : M mdb (Res unit * applier) := fun d =>
  match a with
  | transactionTableMigration f l w =>
      let '(r, (w', d')) := tx (w, d) in (Ok (r, transactionTableMigration f l w'), d')
  | eventTableMigration f l w =>
      let '(r, (w', d')) := ev (w, d) in (Ok (r, eventTableMigration f l w'), d')
  | feeWindowMigration f l w =>
      let '(r, (w', d')) := fee (w, d) in (Ok (r, feeWindowMigration f l w'), d')
  end.

Definition applier_Apply (a : applier) (meta : LedgerCloseMeta) : M mdb (Res unit * applier) :=
  applier_run a (on_mtx (InsertTransactions meta)) (on_mtx (InsertEvents meta))
    (IngestFees db_Rollback meta).

(** [flushPending], for the appliers that have one. *)
Definition applier_flushPending (a : applier) : M mdb (Res unit * applier) :=
  applier_run a (on_mtx flushPending_txs) (on_mtx flushPending_evs) (mret tt).

(** A [Migration]: guarded by a metadata key, or the fee windows' own. *)
Record guardedMigration := MkGuardedMigration {
  guardMetaKey : option string; (* None: not guarded *)
  migration : applier;
  alreadyMigrated : bool;
}.

Definition set_migration (a : applier) (g : guardedMigration) : guardedMigration :=
  MkGuardedMigration (guardMetaKey g) a (alreadyMigrated g).

Definition ApplicableRange_g (g : guardedMigration) : LedgerSeqRange :=
  if alreadyMigrated g then {| First := 0; Last := 0 |} else applier_ApplicableRange (migration g).

Definition Apply_g (g : guardedMigration) (meta : LedgerCloseMeta) : M mdb (Res unit * guardedMigration) :=
  if alreadyMigrated g then mret (Ok tt, g)
  else
    '(r, a) ← applier_Apply (migration g) meta;
    mret (r, set_migration a g).

Definition Commit_g (g : guardedMigration) : M mdb (Res unit * guardedMigration) :=
  if alreadyMigrated g then mret (Ok tt, g)
  else
    match guardMetaKey g with
    | None => mret (Ok tt, g)
    | Some key =>
        '(r, a) ← applier_flushPending (migration g);
        let g := set_migration a g in
        match r with
        | Ok _ => r ← observe (on_mdb (setMetaBool key true)); mret (r, g)
        | r => mret (r, g)
        end
    end.

(** [getMetaBool] of the guard, [ErrEmptyDB] meaning "not migrated". *)
Definition newGuardedDataMigration (uniqueMigrationName : string) (factory : M mdb applier)
    : M mdb (option guardedMigration) :=
  let metaKey := "Migration" +:+ uniqueMigrationName +:+ "Done" in
  r ← attempt (on_mdb (getMetaBool metaKey));
  previouslyMigrated ← (match r with
                        | inl b => mret b
                        | inr err => if errors_Is err ErrEmptyDB then mret false else fail err
                        end);
  if (previouslyMigrated : bool) then mret None
  else
    applier ← factory;
    mret (Some {| guardMetaKey := Some metaKey; migration := applier; alreadyMigrated := previouslyMigrated |}).

Definition newTransactionTableMigration (passphrase : string) (r : LedgerSeqRange) : M mdb applier :=
  map_err (EWrap "couldn't delete table transactions")
    (on_mdb (sql_exec (fun t => Ok (set_txs [] t)))) ;;
  mret (transactionTableMigration (First r) (Last r) (MkTransactionHandler true passphrase [])).

Definition newEventTableMigration (passphrase : string) (r : LedgerSeqRange) : M mdb applier :=
  mret (eventTableMigration (First r) (Last r) (MkEventHandler true passphrase [])).

Definition AsMigration (fw : FeeWindows) (r : LedgerSeqRange) : guardedMigration :=
  {| guardMetaKey := None; migration := feeWindowMigration (First r) (Last r) fw; alreadyMigrated := false |}.

(** ** Several migrations at once *)

Definition MultiMigration : Type := list guardedMigration.

Definition Append_mm (mm : MultiMigration) (m : guardedMigration) : MultiMigration :=
  if Empty (ApplicableRange_g m) then mm else mm ++ [m].

Definition ApplicableRange_mm (mm : MultiMigration) : LedgerSeqRange :=
  foldl (fun result m => Merge (ApplicableRange_g m) result) {| First := 0; Last := 0 |} mm.

(** [errors.Join(err, localErr, mm.db.Rollback())] *)
Definition join_rollback (err : option error) (localErr : error) : M mdb (option error) :=
  r ← attempt db_Rollback;
  mret (errors_Join2 (errors_Join2 err (Some localErr)) (match r with inl _ => None | inr e => Some e end)).

(** A loop over the migrations that gathers the errors. *)
Fixpoint mm_loop (op : guardedMigration -> M mdb (Res unit * guardedMigration)) (err : option error)
    (mm : MultiMigration) : M mdb (option error * MultiMigration) :=
  match mm with
  | [] => mret (err, [])
  | m :: mm =>
      '(r, m') ← op m;
      err ← (match r with
             | Ok _ => mret err
             | Err localErr => join_rollback err localErr
             | Panic p => panic p
             end);
      '(err, mm') ← mm_loop op err mm;
      mret (err, m' :: mm')
  end.

Definition Apply_mm (mm : MultiMigration) (meta : LedgerCloseMeta) : M mdb (option error * MultiMigration) :=
  mm_loop (fun m => if IsLedgerIncluded (ApplicableRange_g m) (LedgerSequence meta)
                    then Apply_g m meta else mret (Ok tt, m)) None mm.

Definition Commit_mm (mm : MultiMigration) : M mdb (option error * MultiMigration) :=
  '(err, mm) ← mm_loop Commit_g None mm;
  match err with
  | Some e => mret (Some e, mm)
  | None =>
      r ← attempt db_Commit;
      mret (match r with inl _ => None | inr e => Some e end, mm)
  end.

(** The registered migrations, in the iteration order of a Go map. *)
Definition currentMigrations : list (string * (string -> LedgerSeqRange -> M mdb applier)) :=
  [("TransactionsTable", newTransactionTableMigration); ("EventsTable", newEventTableMigration)].

Fixpoint build_loop (networkPassphrase : string) (ledgerSeqRange : LedgerSeqRange)
    (todo : list (string * (string -> LedgerSeqRange -> M mdb applier))) (migrations : MultiMigration)
    : M mdb MultiMigration :=
  match todo with
  | [] => mret migrations
  | (migrationName, migrationFunc) :: todo =>
      r ← attempt (newGuardedDataMigration migrationName (migrationFunc networkPassphrase ledgerSeqRange));
      match r with
      | inr err =>
          rb ← attempt db_Rollback;
          let e := EJoin err (EMsg ("could not create guarded migration for " +:+ migrationName)) in
          fail (match rb with inl _ => e | inr e' => EJoin e e' end)
      | inl None => build_loop networkPassphrase ledgerSeqRange todo migrations
      | inl (Some guardedM) => build_loop networkPassphrase ledgerSeqRange todo (migrations ++ [guardedM])
      end
  end.

Definition BuildMigrations (networkPassphrase : string) (ledgerSeqRange : LedgerSeqRange)
    : M mdb MultiMigration :=
  r ← attempt db_Begin;
  match r with
  | inr err =>
      rb ← attempt db_Rollback;
      fail (match rb with inl _ => err | inr e' => EJoin err e' end)
  | inl _ => build_loop networkPassphrase ledgerSeqRange (range_map currentMigrations) []
  end.

(** [GetMigrationLedgerRange] *)
Definition GetMigrationLedgerRange (retentionWindow : Z) : M DB LedgerSeqRange :=
  r ← attempt getLatestLedgerSequence;
  latestLedger ← (match r with
                  | inl l => mret l
                  | inr err => if errors_Is err ErrEmptyDB then mret 0
                               else fail (EWrap "failed to get latest ledger sequence" err)
                  end);
  mret {| First := if decide (retentionWindow < latestLedger) then u32 (latestLedger - retentionWindow)
                   else firstLedger;
          Last := latestLedger |}.

End Migrations.

Section MigrationLemmas.
Context `{X : Sdk} `{ND : Nondet}.

(** A range that stands for the ledgers it contains. *)
Definition range_wf (r : LedgerSeqRange) : Prop := Empty r = true \/ (0 < First r <= Last r).

Lemma Empty_spec r : Empty r = true <-> r = {| First := 0; Last := 0 |}.
Proof.
  unfold Empty. rewrite andb_true_iff, !bool_decide_eq_true. destruct r as [f l]. simpl.
  split; [by intros [-> ->]|by intros [= -> ->]].
Qed.

Lemma included_spec r s : IsLedgerIncluded r s = true <-> First r <= s <= Last r.
Proof. unfold IsLedgerIncluded. by rewrite andb_true_iff, !bool_decide_eq_true. Qed.

Lemma Merge_included r1 r2 s :
  0 < s -> IsLedgerIncluded r1 s = true \/ IsLedgerIncluded r2 s = true ->
  IsLedgerIncluded (Merge r1 r2) s = true.
Proof.
  intros Hs. rewrite !included_spec. unfold Merge.
  destruct (Empty r1) eqn:E1; [apply Empty_spec in E1; subst; simpl; lia|].
  destruct (Empty r2) eqn:E2; [apply Empty_spec in E2; subst; simpl; lia|]. simpl. lia.
Qed.

Lemma Merge_tight r1 r2 s :
  range_wf r1 -> range_wf r2 -> IsLedgerIncluded (Merge r1 r2) s = true ->
  exists a b, (a = First r1 \/ a = First r2) /\ (b = Last r1 \/ b = Last r2) /\ a <= s <= b.
Proof.
  intros H1 H2. rewrite included_spec. unfold Merge.
  destruct (Empty r1); [eauto 10|]. destruct (Empty r2); [eauto 10|]. simpl.
  intros Hs. destruct (Z.min_spec (First r1) (First r2)) as [[_ E]|[_ E]],
    (Z.max_spec (Last r1) (Last r2)) as [[_ E']|[_ E']]; rewrite E, E' in Hs; eauto 10.
Qed.

Lemma ApplicableRange_mm_acc mm acc s :
  0 < s ->
  (IsLedgerIncluded acc s = true \/ exists m, m ∈ mm /\ IsLedgerIncluded (ApplicableRange_g m) s = true) ->
  IsLedgerIncluded (foldl (fun result m => Merge (ApplicableRange_g m) result) acc mm) s = true.
Proof.
  intros Hs. revert acc. induction mm as [|m mm IH]; intros acc; simpl.
  { intros [?|(m&Hm%elem_of_nil&_)]; done. }
  intros H. apply IH. destruct H as [H|(m'&[->|Hm]%elem_of_cons&H)].
  - left. apply Merge_included; auto.
  - left. apply Merge_included; auto.
  - right. eauto.
Qed.

(** The range of a set of migrations covers the range of each of them, so a
    driver that walks it offers every migration all its ledgers; a ledger is
    applied by exactly the migrations whose own range has it. *)
Theorem ApplicableRange_mm_covers (mm : MultiMigration) m s :
  m ∈ mm -> 0 < s -> IsLedgerIncluded (ApplicableRange_g m) s = true ->
  IsLedgerIncluded (ApplicableRange_mm mm) s = true.
Proof. intros Hm Hs Hi. apply ApplicableRange_mm_acc; eauto. Qed.

(** The migration's guard is set. *)
Definition guard_set (t : tables) (m : guardedMigration) : Prop :=
  alreadyMigrated m = true \/ guardMetaKey m = None \/
  exists key, guardMetaKey m = Some key /\ t_meta t !! key = Some "true".

(** Everything the transaction has set so far stays set. *)
Definition meta_grows (d d' : mdb) : Prop :=
  m_committed d' = m_committed d /\
  forall t, m_tx d = Some t -> exists t', m_tx d' = Some t' /\
    forall k, t_meta t !! k = Some "true" -> t_meta t' !! k = Some "true".

#[global] Instance meta_grows_preorder : PreOrder meta_grows.
Proof.
  split; [intros d; split; [done|]; intros t Ht; eauto|].
  intros d1 d2 d3 [A1 A2] [B1 B2]. split; [congruence|]. intros t Ht.
  destruct (A2 t Ht) as (t'&Ht'&H1). destruct (B2 t' Ht') as (t''&Ht''&H2). eauto.
Qed.

Lemma on_mtx_flush {H} (m : M (H * session) unit) h d r h' d' :
  (keeps (fixes (t_meta ∘ s_tab ∘ snd)) m) ->
  on_mtx m (h, d) = (r, (h', d')) -> meta_grows d d'.
Proof.
  intros Hk. unfold on_mtx. destruct (m_tx d) as [t|] eqn:Ht.
  - destruct (m _) as [r1 [h1 s1]] eqn:E. intros [= <- <- <-]. split; [done|].
    intros t0 Ht0. rewrite Ht in Ht0. simplify_eq. exists (s_tab s1). split; [done|]. apply Hk in E. unfold fixes in E. simpl in E.
    by rewrite E.
  - destruct (m _) as [r1 [h1 s1]] eqn:E. intros [= <- <- <-]. reflexivity.
Qed.

Lemma Commit_g_ok m d m' d' :
  m_tx d <> None -> Commit_g m d = (Ok (Ok tt, m'), d') ->
  meta_grows d d' /\ m_tx d' <> None /\ forall t', m_tx d' = Some t' -> guard_set t' m.
Proof.
  intros Ho. unfold Commit_g.
  destruct (alreadyMigrated m) eqn:Ha; [intros [= <- <-]; split_and!; [done..|]; by left|].
  destruct (guardMetaKey m) as [key|] eqn:Hk; [|intros [= <- <-]; split_and!; [done..|]; right; by left].
  unfold mbind, M_bind.
  destruct (applier_flushPending (migration m) d) as [[[r a]|e|p] d1] eqn:Hf; [|done..].
  assert (meta_grows d d1) as G1.
  { revert Hf. unfold applier_flushPending, applier_run. destruct (migration m) as [f l w|f l w|f l w].
    - destruct (on_mtx flushPending_txs (w, d)) as [r1 [w1 d2]] eqn:E. intros [= _ _ <-].
      eapply on_mtx_flush; [|done]. by apply (flushPending_txs_keeps t_meta).
    - destruct (on_mtx flushPending_evs (w, d)) as [r1 [w1 d2]] eqn:E. intros [= _ _ <-].
      eapply on_mtx_flush; [|done]. by apply (flushPending_evs_keeps t_meta).
    - intros [= _ _ <-]. reflexivity. }
  destruct r as [[]|e|p]; [|done..]. unfold observe.
  destruct (on_mdb (setMetaBool key true) d1) as [r2 d2] eqn:E2. intros [= -> _ <-].
  destruct (m_tx d) as [t|] eqn:Ht; [|done]. destruct (proj2 G1 t Ht) as (t1&Ht1&Hg1).
  revert E2. unfold on_mdb, m_view. rewrite Ht1. simpl.
  destruct (setMetaBool key true _) as [r3 s3] eqn:E3. intros [= -> <-].
  unfold setMetaBool in E3. apply sql_exec_Ok_inv in E3. simpl in E3. injection E3 as E3.
  split_and!; [|done|].
  - split; [simpl; by destruct G1|]. intros t0 Ht0. simplify_eq. exists (s_tab s3). split; [done|].
    intros k Hkk%Hg1. rewrite <- E3. simpl. destruct (decide (k = key)) as [->|].
    + by rewrite lookup_insert_eq.
    + by rewrite lookup_insert_ne.
  - intros t' [= <-]. right; right. exists key. split; [done|]. rewrite <- E3. simpl. by rewrite lookup_insert_eq.
Qed.

Lemma guard_set_grows d d' t t' m :
  meta_grows d d' -> m_tx d = Some t -> m_tx d' = Some t' -> guard_set t m -> guard_set t' m.
Proof.
  intros [_ H] Ht Ht' [?|[?|(k&Hk&Hv)]]; [by left|right; by left|right; right].
  destruct (H t Ht) as (t''&E&Hg). simplify_eq. eauto.
Qed.

Lemma mm_loop_some op e mm d err mm' d' :
  mm_loop op (Some e) mm d = (Ok (err, mm'), d') -> err <> None.
Proof.
  revert e d err mm' d'. induction mm as [|m mm IH]; intros e d err mm' d'; simpl; [by intros [= <- <- <-]|].
  unfold mbind, M_bind. destruct (op m d) as [[[r m1]|?|?] d1]; [|done..].
  destruct r as [[]|le|p]; [| |done].
  - simpl. destruct (mm_loop op (Some e) mm d1) as [[[err1 mm1]|?|?] d2] eqn:E; [|done..].
    intros [= <- _ _]. by eapply IH.
  - unfold join_rollback, mbind, M_bind.
    destruct (attempt db_Rollback d1) as [[[]|?|?] d2]; [| |done..]; simpl;
      destruct (mm_loop op _ mm d2) as [[[err1 mm1]|?|?] d3] eqn:E; try done;
      intros [= <- _ _]; by eapply IH.
Qed.

(** The commit loop without an error. *)
Lemma commit_loop_ok mm d mm' d' :
  m_tx d <> None -> mm_loop Commit_g None mm d = (Ok (None, mm'), d') ->
  meta_grows d d' /\ m_tx d' <> None /\
  forall t' m, m_tx d' = Some t' -> m ∈ mm -> guard_set t' m.
Proof.
  revert d mm' d'. induction mm as [|m mm IH]; intros d mm' d' Ho; simpl.
  { intros [= <- <-]. split_and!; [done..|]. by intros ?? _ ?%elem_of_nil. }
  unfold mbind, M_bind. destruct (Commit_g m d) as [[[r m1]|e|p] d1] eqn:E1; [|done..].
  destruct r as [[]|e|p]; [| |done].
  2: { unfold join_rollback, mbind, M_bind.
       destruct (attempt db_Rollback d1) as [[[]|?|?] d2]; [| |done..]; simpl;
         destruct (mm_loop Commit_g _ mm d2) as [[[err1 mm1]|?|?] d3] eqn:E; try done;
         intros [= -> _ _]; by apply mm_loop_some in E. }
  apply Commit_g_ok in E1 as (G1&Ho1&Hg1); [|done]. simpl.
  destruct (mm_loop Commit_g None mm d1) as [[[err mm1]|e|p] d2] eqn:E2; [|done..].
  intros [= -> <- <-]. apply IH in E2 as (G2&Ho2&Hg2); [|done].
  split_and!; [by etrans|done|]. intros t' m0 Ht' [->|Hin]%elem_of_cons; [|eauto].
  destruct (m_tx d1) as [t1|] eqn:Ht1; [|done]. eapply guard_set_grows; eauto.
Qed.

(** Inside a transaction a statement of the session leaves the committed tables. *)
Lemma on_mdb_open {A} (m : M session A) d r d' :
  m_tx d <> None -> on_mdb m d = (r, d') -> m_committed d' = m_committed d /\ m_tx d' <> None.
Proof.
  intros Ho. unfold on_mdb. destruct (m _) as [r1 s1]. destruct (m_tx d); [|done]. by intros [= <- <-].
Qed.

Lemma Commit_g_open m d r d' :
  m_tx d <> None -> Commit_g m d = (r, d') -> m_committed d' = m_committed d /\ m_tx d' <> None.
Proof.
  intros Ho. unfold Commit_g, mbind, M_bind.
  destruct (alreadyMigrated m); [by intros [= <- <-]|].
  destruct (guardMetaKey m) as [key|]; [|by intros [= <- <-]].
  destruct (applier_flushPending (migration m) d) as [r1 d1] eqn:Hf.
  assert (m_committed d1 = m_committed d /\ m_tx d1 <> None) as [H1 H2].
  { revert Hf. unfold applier_flushPending, applier_run, on_mtx. destruct (m_tx d) as [t|] eqn:Ht; [|done].
    destruct (migration m) as [f l w|f l w|f l w].
    - destruct (flushPending_txs _) as [r2 [w2 s2]]. by intros [= _ <-].
    - destruct (flushPending_evs _) as [r2 [w2 s2]]. by intros [= _ <-].
    - intros [= _ <-]. by rewrite Ht. }
  destruct r1 as [[[[]|e|p] a]|e|p]; [|by intros [= <- <-]..]. unfold observe.
  destruct (on_mdb (setMetaBool key true) d1) as [r2 d2] eqn:E2. intros [= <- <-].
  apply on_mdb_open in E2 as [-> ?]; done.
Qed.

Lemma db_Rollback_committed r d d' :
  m_tx d <> None -> attempt db_Rollback d = (r, d') -> m_committed d' = m_committed d.
Proof.
  intros Ho. unfold attempt, db_Rollback, mbind, M_bind, get. destruct (m_tx d) as [t|] eqn:Ht; [|done].
  destruct (on_mdb _ d) as [r1 d1] eqn:E. apply on_mdb_open in E as [E _]; [|by rewrite Ht].
  destruct r1; by intros [= <- <-].
Qed.

(** When committing a set of migrations succeeds, all of them are recorded
    as done together with their data: the transaction is over and every guard
    is set in the tables that became the committed ones in one step.  When a
    single migration fails to commit, the committed tables are left alone. *)
Theorem Commit_mm_publishes mm d err mm' d' :
  m_tx d <> None -> Commit_mm mm d = (Ok (err, mm'), d') ->
  (err = None -> m_tx d' = None /\ forall m, m ∈ mm -> guard_set (m_committed d') m) /\
  (forall e m, err = Some e -> mm = [m] -> m_committed d' = m_committed d).
Proof.
  intros Ho. unfold Commit_mm, mbind at 1, M_bind at 1.
  destruct (mm_loop Commit_g None mm d) as [[[err1 mm1]|e|p] d1] eqn:E1; [|done..].
  destruct err1 as [e1|].
  - intros [= <- <- <-]. split; [done|]. intros e m _ ->. revert E1. simpl. unfold mbind, M_bind.
    destruct (Commit_g m d) as [[[r m1]|?|?] d2] eqn:E2; [|done..].
    apply Commit_g_open in E2 as [E2 Ho2]; [|done].
    destruct r as [[]|e2|p]; [done| |done]. unfold join_rollback, mbind, M_bind.
    destruct (attempt db_Rollback d2) as [[r3|?|?] d3] eqn:E3; [|done..].
    apply db_Rollback_committed in E3; [|done]. intros [= _ _ <-]. congruence.
  - apply commit_loop_ok in E1 as (G1&Ho1&Hg1); [|done].
    unfold mbind, M_bind, attempt, db_Commit, mbind, M_bind, get.
    destruct (m_tx d1) as [t1|] eqn:Ht1; [|done].
    destruct (on_mdb _ d1) as [r2 d2] eqn:E2.
    assert (m_tx d2 = Some t1 /\ m_committed d2 = m_committed d1) as [Ht2 Hc2].
    { revert E2. unfold on_mdb, m_view. rewrite Ht1. simpl.
      destruct (sql_select _ _) as [r0 s0] eqn:E0. apply sql_select_inv in E0 as [E0 _].
      intros [= <- <-]. simpl in *. by rewrite E0. }
    destruct r2 as [[]|e|p]; [| |done]; simpl; intros [= <- <- <-].
    + split; [|done]. intros _. split; [done|]. unfold m_view. rewrite Ht2. simpl. eauto.
    + split; [done|]. intros _ m _ _. destruct G1. congruence.
Qed.

End MigrationLemmas.

Section Witnesses.

Definition ex_tx_migration (pending : list pendingTx) : guardedMigration :=
  {| guardMetaKey := Some "MigrationTransactionsTableDone";
     migration := transactionTableMigration 2 10 (MkTransactionHandler true "" pending);
     alreadyMigrated := false |}.

Definition ex_ev_migration : guardedMigration :=
  {| guardMetaKey := Some "MigrationEventsTableDone";
     migration := eventTableMigration 5 20 (MkEventHandler (ST := ex_types) true "" []);
     alreadyMigrated := false |}.

Lemma ApplicableRange_mm_covers_witness :
  IsLedgerIncluded (ApplicableRange_mm [ex_tx_migration []; ex_ev_migration]) 15 = true.
Proof.
  apply (ApplicableRange_mm_covers (ST := ex_types) [ex_tx_migration []; ex_ev_migration] ex_ev_migration 15).
  - right. left.
  - lia.
  - reflexivity.
Defined.

(** A migration transaction that has written an event row. *)
Definition ex_mdb (faults : list (option error)) : mdb :=
  MkMdb empty_tables (Some (set_events {["event" := ex_ev_row "op1"]} empty_tables)) faults.

Lemma Commit_mm_publishes_witness :
  exists mm' d', Commit_mm (X := ex_sdk) [ex_tx_migration [MkPendingTx "h" 3 1]; ex_ev_migration] (ex_mdb [])
                 = (Ok (None, mm'), d') /\
    m_tx d' = None /\
    forall m, m ∈ [ex_tx_migration [MkPendingTx "h" 3 1]; ex_ev_migration] -> guard_set (m_committed d') m.
Proof.
  destruct (Commit_mm (X := ex_sdk) [ex_tx_migration [MkPendingTx "h" 3 1]; ex_ev_migration] (ex_mdb []))
    as [r d'] eqn:E.
  pose proof E as E'. vm_compute in E'. injection E' as Er _. subst r.
  eexists _, d'. split; [reflexivity|].
  eapply (Commit_mm_publishes (X := ex_sdk) [ex_tx_migration [MkPendingTx "h" 3 1]; ex_ev_migration] (ex_mdb []));
    [discriminate|exact E|reflexivity].
Defined.

(** The rollback that follows a failed migration ends the transaction, but the
    loop goes on: when the next migration has no row left to flush, its guard is
    written outside any transaction.  Here the flush of the transactions fails,
    the events of the transaction are lost, and yet the event migration is
    recorded as done. *)
Theorem Commit_mm_leaks_guard :
  exists e mm' d',
    Commit_mm (X := ex_sdk) [ex_tx_migration [MkPendingTx "h" 3 1]; ex_ev_migration]
      (ex_mdb [Some (EExt "disk full")]) = (Ok (Some e, mm'), d') /\
    t_events (m_committed d') = ∅ /\
    t_meta (m_committed d') !! "MigrationEventsTableDone" = Some "true".
Proof. eexists _, _, _. split; [vm_compute; reflexivity|]. split; vm_compute; reflexivity. Qed.

End Witnesses.
