(* ===== verification/Ingest.v ===== *)
(** * Ingestion (internal/ingest/service.go)

    The service takes ledgers from a backend in order and, for each of them,
    writes the ledger, its transactions and its events in one transaction and
    feeds the fee windows. *)

From S2P Require Import Prelude Sdk SdkExample LedgerBucketWindow Tables DbTransaction DbEvent DbLedger Db FeeWindow.

Definition maxRetries : nat := 5.

(** The state of the service, with the fault schedules of the transactions to
    come. *)
Record Service := MkService {
  sv_db : DB;
  sv_feeWindows : FeeWindows;
  latestIngestedSeq : Z;
  sv_tx_faults : list (list (option error));
}.

Definition set_sv_db (d : DB) (s : Service) : Service :=
  MkService d (sv_feeWindows s) (latestIngestedSeq s) (sv_tx_faults s).
Definition set_sv_fees (f : FeeWindows) (s : Service) : Service :=
  MkService (sv_db s) f (latestIngestedSeq s) (sv_tx_faults s).
Definition set_latestIngestedSeq (n : Z) (s : Service) : Service :=
  MkService (sv_db s) (sv_feeWindows s) n (sv_tx_faults s).

(** The ledger backend and the history archive. *)
Class LedgerSource `{Sdk} := {
  backend_GetLedger : Z -> Res LedgerCloseMeta;
  backend_PrepareRange : Z -> Res unit;
  archive_GetRootHAS : Res Z; (* its CurrentLedger *)
}.

Section Service.
Context `{X : Sdk} `{ND : Nondet} {LS : LedgerSource}.
Context (historyRetentionWindow : Z) (networkPassphrase : string).

Definition ingestLedgerCloseMeta (ledgerCloseMeta : LedgerCloseMeta) : M writeTx unit :=
  with_ledgerWriter (InsertLedger ledgerCloseMeta) ;;
  with_txWriter (InsertTransactions ledgerCloseMeta) ;;
  with_eventWriter (InsertEvents ledgerCloseMeta).

(** [tx, err := s.db.NewTx(ctx)] and the deferred [tx.Rollback()], whose error is
    only logged. *)
Definition with_new_tx (body : M (writeTx * Service) unit) : M Service unit := fun s =>
  let '(faults, rest) := match sv_tx_faults s with [] => ([], []) | f :: r => (f, r) end in
  let s := MkService (sv_db s) (sv_feeWindows s) (latestIngestedSeq s) rest in
  match NewTx historyRetentionWindow networkPassphrase faults (sv_db s) with
  | (Ok tx, d) =>
      let '(r, (tx, s)) := body (tx, set_sv_db d s) in
      let '(_, _) := Rollback tx in
      (r, s)
  | (Err e, d) => (Err e, set_sv_db d s)
  | (Panic p, d) => (Panic p, set_sv_db d s)
  end.

(** [tx.Commit] on the service's handle. *)
Definition commit_tx (ledgerCloseMeta : LedgerCloseMeta) : M (writeTx * Service) unit :=
  zoom (fun ts => (fst ts, sv_db (snd ts))) (fun td ts => (fst td, set_sv_db (snd td) (snd ts)))
    (Commit ledgerCloseMeta).

(** The rollback of the handle the fee windows hold, which has no transaction
    of its own while the service runs. *)
Definition handle_Rollback : M DB unit := fail (ESentinel NotInTransaction).

Definition ingest_fees (ledgerCloseMeta : LedgerCloseMeta) : M (writeTx * Service) unit :=
  zoom (fun ts => (sv_feeWindows (snd ts), sv_db (snd ts)))
       (fun fd ts => (fst ts, set_sv_fees (fst fd) (set_sv_db (snd fd) (snd ts))))
    (IngestFees handle_Rollback ledgerCloseMeta).

Definition raise_latestIngestedSeq (sequence : Z) : M Service unit :=
  modify (fun s => if decide (latestIngestedSeq s < sequence) then set_latestIngestedSeq sequence s else s).

Definition ingest (sequence : Z) : M Service unit :=
  ledgerCloseMeta ← of_res (backend_GetLedger sequence);
  with_new_tx
    (zoom1 (ingestLedgerCloseMeta ledgerCloseMeta) ;;
     ingest_fees ledgerCloseMeta ;;
     commit_tx ledgerCloseMeta) ;;
  raise_latestIngestedSeq sequence.

(** The consumer of the fetched ledgers: the last one read, for the commit.
    [fetches] is what the fetching goroutine sends. *)
Fixpoint ingest_fetched (fetches : list (Res LedgerCloseMeta)) (last : option LedgerCloseMeta)
    : M (writeTx * Service) (option LedgerCloseMeta) :=
  match fetches with
  | [] => mret last
  | Ok lcm :: fetches =>
      zoom1 (ingestLedgerCloseMeta lcm) ;;
      ingest_fetched fetches (Some lcm)
  | Err e :: _ => fail e
  | Panic p :: _ => panic p
  end.

(** What the goroutine sends for [from .. from + n - 1]: it stops at an error. *)
Fixpoint fetch_range (GetLedger : Z -> Res LedgerCloseMeta) (from : Z) (n : nat)
    : list (Res LedgerCloseMeta) :=
  match n with
  | O => []
  | S n =>
      match GetLedger from with
      | Ok lcm => Ok lcm :: fetch_range GetLedger (from + 1) n
      | r => [r]
      end
  end.

(** [ingestRange]; a range without a ledger commits the zero ledger, which has
    no counterpart here. *)
Definition ingestRange (GetLedger : Z -> Res LedgerCloseMeta) (from to : Z) : M Service unit :=
  with_new_tx
    (last ← ingest_fetched (fetch_range GetLedger from (Z.to_nat (to - from + 1))) None;
     match last with
     | Some ledgerCloseMeta => commit_tx ledgerCloseMeta
     | None => panic "LedgerSequence of an empty LedgerCloseMeta"
     end) ;;
  raise_latestIngestedSeq to.

Definition getNextLedgerSequence : M Service Z :=
  r ← attempt (zoom sv_db set_sv_db getLatestLedgerSequence);
  nextLedgerSeq ←
    (match r with
     | inl curLedgerSeq => mret (u32 (curLedgerSeq + 1))
     | inr err =>
         if errors_Is err ErrEmptyDB then
           root ← of_res archive_GetRootHAS;
           if decide (root = 0) then fail (ESentinel ErrEmptyArchives) else mret root
         else fail err
     end);
  of_res (backend_PrepareRange nextLedgerSeq) ;;
  mret nextLedgerSeq.

(** The loop of [run], which only ends with an error: [fuel] ledgers of it. *)
Fixpoint run_loop (fuel : nat) (nextLedgerSeq : Z) : M Service unit :=
  match fuel with
  | O => mret tt
  | S fuel => ingest nextLedgerSeq ;; run_loop fuel (u32 (nextLedgerSeq + 1))
  end.

Definition run (fuel : nat) : M Service unit :=
  nextLedgerSeq ← getNextLedgerSequence;
  run_loop fuel nextLedgerSeq.

(** The retries of [Start]: [attempts] runs [run] again until it ends without
    error (it never does by itself), the load test is done, or the retries are
    used up; empty archives restore them.  [n] bounds the number of calls. *)
Fixpoint retry_loop (n : nat) (retries : nat) (call : M Service unit) : M Service (option error) :=
  match n with
  | O => mret None
  | S n =>
      r ← attempt call;
      match r with
      | inl _ => mret None
      | inr err =>
          let retries := if errors_Is err ErrEmptyArchives then maxRetries else retries in
          if errors_Is err ErrLoadTestDone then mret (Some err)
          else match retries with
               | O => mret (Some err)
               | S retries => retry_loop n retries call
               end
      end
  end.

(** [Start]: the fatal error the service stops with, if any. *)
Definition Start (n fuel : nat) : M Service (option error) :=
  err ← retry_loop n maxRetries (run fuel);
  mret (match err with
        | Some e => if errors_Is e ContextCanceled || errors_Is e ErrLoadTestDone then None else Some e
        | None => None
        end).

End Service.

Section IngestLemmas.
Context `{X : Sdk} `{ND : Nondet} `{CL : !SdkCursorLaws} `{RL : !SdkReaderLaws}.

(** A ledger the writers can store: its blob, transactions, events and rows. *)
Record good_ledger (pass : string) (lcm : LedgerCloseMeta) (txs : list LedgerTransaction)
    (l : list (LedgerTransaction * (ContractEvent * Cursor))) (rows : list (string * ev_row))
    (blob : string) : Prop := {
  gl_blob : lcm_MarshalBinary lcm = Ok blob;
  gl_reader : NewLedgerTransactionReader pass lcm = Ok (Ok <$> txs);
  gl_fits : ledger_fits lcm txs;
  gl_cursors : ledger_cursors (LedgerSequence lcm) (MkTxEventIndices 0 0 0) txs = Ok l;
  gl_rows : res_map insertEvents (ledger_events lcm l) = Ok rows;
}.

(** The tables do not hold anything of the ledger yet. *)
Record fresh_ledger (t : tables) (lcm : LedgerCloseMeta) (txs : list LedgerTransaction) : Prop := {
  fl_ledger : t_ledgers t !! LedgerSequence lcm = None;
  fl_txs : NoDup (row_hash <$> (t_txs t ++ ledger_tx_rows lcm txs));
  fl_events : no_events_of (LedgerSequence lcm) t;
}.

Definition fresh_tx (window : Z) (pass : string) (t : tables) : writeTx :=
  {| w_tx := MkSession t []; w_open := true; w_txWriter := MkTransactionHandler true pass [];
     w_eventWriter := MkEventHandler true pass []; w_historyRetentionWindow := window |}.

(** [t2] is [t] with the ledger added. *)
Definition ledger_added (t t2 : tables) (lcm : LedgerCloseMeta) (txs : list LedgerTransaction)
    (rows : list (string * ev_row)) (blob : string) : Prop :=
  t_ledgers t2 = <[LedgerSequence lcm := blob]> (t_ledgers t) /\
  t_txs t2 ≡ₚ t_txs t ++ ledger_tx_rows lcm txs /\
  t_events t2 = list_to_map rows ∪ t_events t /\
  (t_meta t2, t_indexes t2, t_hash_pk t2) = (t_meta t, t_indexes t, t_hash_pk t).

Lemma ev_progress_txs t0 evs rows h s s' :
  ev_progress t0 evs rows (h, s) -> same_but_txs (s_tab s) (s_tab s') -> s_faults s' = [] ->
  ev_progress (set_txs (t_txs (s_tab s')) t0) evs rows (h, s').
Proof.
  intros (dr&rest&->&de&->&Hr&Ht&Hs&Hf) Hsame Hf'. exists dr, rest. split; [done|].
  exists de. simpl in *. rewrite Hsame. simpl. split_and!; try done.
  unfold same_but_events in *. rewrite Hs. done.
Qed.

Lemma ingestLedgerCloseMeta_ok window pass t lcm txs l rows blob :
  good_ledger pass lcm txs l rows blob -> fresh_ledger t lcm txs ->
  exists w1 t1, ingestLedgerCloseMeta lcm (fresh_tx window pass t) = (Ok tt, w1) /\
    tx_id w1 = (true, window) /\
    t_ledgers t1 = <[LedgerSequence lcm := blob]> (t_ledgers t) /\ t_events t1 = t_events t /\
    (t_meta t1, t_indexes t1, t_hash_pk t1) = (t_meta t, t_indexes t, t_hash_pk t) /\
    all_tx_rows (w_txWriter w1, w_tx w1) ≡ₚ t_txs t ++ ledger_tx_rows lcm txs /\
    t_ledgers (s_tab (w_tx w1)) = t_ledgers t1 /\
    rows_fresh t1 rows /\ ev_progress t1 (ledger_events lcm l) rows (w_eventWriter w1, w_tx w1) /\
    (length (th_pending (w_txWriter w1)) < maxTxRowsPerBatch)%nat /\
    (length (eh_pending (w_eventWriter w1)) < maxEventsPerBatch)%nat.
Proof.
  intros [Hb Hrd Hfit Hcur Hrows] [Hfl Hft Hfe].
  unfold ingestLedgerCloseMeta, with_ledgerWriter, with_txWriter, with_eventWriter, mbind, M_bind, zoom. simpl.
  set (t0 := set_ledgers (<[LedgerSequence lcm := blob]> (t_ledgers t)) t).
  unfold InsertLedger. rewrite (sql_exec_ok _ _ t0); [|done|].
  2: { simpl. rewrite Hb. simpl. unfold insert_ledger_row. by rewrite Hfl. }
  simpl.
  destruct (InsertTransactions lcm (MkTransactionHandler true pass [], MkSession t0 [])) as [r [h1 s1]] eqn:Hrun.
  assert (all_tx_rows (MkTransactionHandler true pass [], MkSession t0 []) = t_txs t) as Hat
    by (unfold all_tx_rows; simpl; by rewrite app_nil_r).
  apply (InsertTransactions_spec lcm txs) in Hrun as (H1&H2&_&H4&_&H5); try done.
  2: { rewrite <- (ledger_tx_rows_hashes lcm). rewrite fmap_app in Hft. by apply NoDup_app in Hft as (_&_&?). }
  2: { simpl. unfold maxTxRowsPerBatch. lia. }
  rewrite Hat in *. simpl in H1. destruct H5 as [-> Hf1]; [done..|]. simpl.
  assert (t_events (s_tab s1) = t_events t) as Hev by (by rewrite H1).
  destruct (InsertEvents_progress lcm txs l rows (MkEventHandler true pass []) s1)
    as [Hfr ([h2 s2]&Hrun2&Hpr&Hmax)]; try done.
  { unfold no_events_of. rewrite Hev. apply Hfe. }
  rewrite Hrun2. simpl. eexists _, (s_tab s1). split; [reflexivity|]. simpl.
  pose proof Hpr as (_&_&_&_&_&_&_&Hsame&_). simpl in Hsame.
  split_and!; try done; [by rewrite H1..| |by rewrite Hsame|by apply H4].
  unfold all_tx_rows in H2 |- *. simpl in *. rewrite Hsame. done.
Qed.

Lemma trimTables_ok seq w :
  s_faults (w_tx w) = [] ->
  exists w', trimTables seq w = (Ok tt, w') /\ s_faults (w_tx w') = [] /\ tx_id w' = tx_id w /\
    s_tab (w_tx w') = trimmed seq (w_historyRetentionWindow w) (s_tab (w_tx w)).
Proof.
  intros Hf. unfold trimTables, mbind, M_bind, get, with_ledgerWriter, with_txWriter, with_eventWriter, zoom,
    trimLedgers, trimTransactions, trimEvents, trimmed, zoom2.
  destruct (trim_cutoff seq _) as [cutoff|]; simpl; [|by eexists].
  rewrite (sql_exec_ok _ _ (delete_ledgers_below cutoff (s_tab (w_tx w)))) by done. simpl.
  by eexists.
Qed.

(** Writing and committing a ledger, when no statement fails. *)
Lemma write_ledger_ok window pass d lcm txs l rows blob :
  good_ledger pass lcm txs l rows blob -> fresh_ledger (d_tab d) lcm txs -> s_faults (d_sess d) = [] ->
  exists w1 w' d' t2,
    ingestLedgerCloseMeta lcm (fresh_tx window pass (d_tab d)) = (Ok tt, w1) /\
    Commit lcm (w1, d) = (Ok tt, (w', d')) /\ w_historyRetentionWindow w1 = window /\
    t_ledgers (s_tab (w_tx w1)) = <[LedgerSequence lcm := blob]> (t_ledgers (d_tab d)) /\
    d_tab d' = trimmed (LedgerSequence lcm) window t2 /\
    ledger_added (d_tab d) t2 lcm txs rows blob /\ s_faults (d_sess d') = [].
Proof.
  intros Hg Hfresh Hf.
  destruct (ingestLedgerCloseMeta_ok window pass (d_tab d) lcm txs l rows blob Hg Hfresh)
    as (w1&t1&Hrun&Hid&Hl&He&Hm&Ht&Hlw&Hfr&Hpr&Hmt&Hme).
  pose proof Hpr as (_&_&_&_&_&_&_&Hsame&Hf1). simpl in Hsame, Hf1.
  destruct (flushPending_txs_ok (w_txWriter w1) (w_tx w1)) as (s2&Hfl&Hf2&Hs2&Ht2).
  { done. } { done. } { rewrite Ht. apply Hfresh. }
  pose proof (ev_progress_txs _ _ _ _ _ _ Hpr Hs2 Hf2) as Hpr2.
  destruct (flushPending_progress (set_txs (t_txs (s_tab s2)) t1) _ _ (_, _) Hme Hfr Hpr2) as ([h3 s3]&Hfl2&Hp3&He3&Hs3&Hf3). simpl in *.
  set (w2 := MkWriteTx s3 (w_open w1) (set_th_pending [] (w_txWriter w1)) h3 (w_historyRetentionWindow w1)).
  assert (flushWriters w1 = (Ok tt, w2)) as Hflush.
  { unfold flushWriters, mbind, M_bind, with_txWriter, with_eventWriter, zoom. simpl. rewrite Hfl. simpl.
    rewrite Hfl2. done. }
  destruct (trimTables_ok (LedgerSequence lcm) w2 Hf3) as (w3&Htrim&Hf4&Hid3&Htab3).
  injection Hid as Ho Hw. injection Hid3 as Ho3 Hw3.
  exists w1, (w_close (w_set_tx (MkSession (s_tab (w_tx w3)) []) w3)), (MkDB (MkSession (s_tab (w_tx w3)) []) (cache_after_commit (LedgerSequence lcm)
    (LedgerCloseTime lcm) window (d_cache d))), (s_tab s3).
  split_and!; [done| |done|by rewrite Hlw, Hl| |..|done].
  - unfold Commit, mbind, M_bind, zoom1. simpl. rewrite Hflush. simpl. rewrite Htrim. simpl.
    unfold commitAndUpdateCache, tx_Commit, mbind, M_bind, get, zoom1, zoom2. simpl.
    rewrite Ho3. simpl. rewrite Ho. simpl.
    unfold with_ledgerWriter, zoom, sql_select, statement. rewrite Hf4. simpl.
    unfold postCommit, on_session, zoom, sql_exec, statement. simpl. rewrite Hf. simpl. rewrite Hw3. simpl. by rewrite Hw.
  - unfold d_tab. simpl. rewrite Htab3. simpl. by rewrite Hw.
  - unfold ledger_added. rewrite Hs3, He3. simpl. rewrite Hl, He, Ht2, Ht. by split_and!.
Qed.

End IngestLemmas.

Section IngestTheorems.
Context `{X : Sdk} `{ND : Nondet} `{CL : !SdkCursorLaws} `{RL : !SdkReaderLaws} `{XL : !SdkXdrLaws} {LS : LedgerSource}.
Context (window : Z) (pass : string).

(** The fee windows take the ledger next; [sf] and [cf] are its fees. *)
Definition windows_take (f : FeeWindows) (lcm : LedgerCloseMeta) (sf cf : list Z) : Prop :=
  networkPassPhrase f = pass /\
  (exists rd, NewLedgerTransactionReader pass lcm = Ok rd /\ ingest_fees_loop rd [] [] = Ok (sf, cf)) /\
  takes (SorobanInclusionFeeWindow f) lcm sf /\ takes (ClassicFeeWindow f) lcm cf.

(** A ledger the service can store: it has a blob, its transactions can be read,
    its sizes fit the cursors, and its events have known stages and a row each. *)
Record storable (lcm : LedgerCloseMeta) (txs : list LedgerTransaction) (blob : string) : Prop := {
  so_blob : lcm_MarshalBinary lcm = Ok blob;
  so_reader : NewLedgerTransactionReader pass lcm = Ok (Ok <$> txs);
  so_fits : ledger_fits lcm txs;
  so_stages : Forall stages_known txs;
  so_rows : forall p tx ev, event_at txs p = Some (tx, ev) -> exists row, stored_as lcm tx ev row;
}.

Lemma storable_good lcm txs blob :
  MaxTopicCount = 4%nat -> storable lcm txs blob ->
  exists l rows, good_ledger pass lcm txs l rows blob /\ NoDup rows.*1 /\
    forall id row, (id, row) ∈ rows <->
      exists p tx ev, event_at txs p = Some (tx, ev) /\
        id = Cursor_String (event_cursor (LedgerSequence lcm) txs p) /\ stored_as lcm tx ev row.
Proof.
  intros H4 [Hb Hrd Hfit Hst Henc].
  assert (forall k tx, txs !! k = Some tx -> tx_Index tx = Z.of_nat k + 1) as Hidx.
  { intros k tx Hk. eapply reader_index; [done|]. by rewrite list_lookup_fmap, Hk. }
  destruct (ledger_rows_total lcm txs H4 Hfit Hidx Hst Henc) as (l&rows&Hl&Hrows).
  exists l, rows. split_and!; [by split| |intros id row; by eapply ledger_rows_at].
  rewrite (insertEvents_ids _ _ Hrows). by eapply ledger_ids_NoDup.
Qed.

(** C10: Ingesting the next ledger, when no statement fails, succeeds and
    publishes in one commit the ledger, one row per hash of its transactions and
    one per event of it under its own cursor, on top of what was stored, of which
    exactly the last [window] ledgers are kept; the cache agrees with the tables
    and has the ledger as the latest, and both fee windows have taken it.  (The
    ledger is newer than the stored ones, nothing of it is stored, and it is
    [storable]: readable, its events serialisable and within a cursor.) *)
Theorem ingest_exact sequence lcm txs blob sf cf s :
  0 < window < 2 ^ 32 -> 0 < sequence < 2 ^ 31 - 1 -> MaxTopicCount = 4%nat ->
  backend_GetLedger sequence = Ok lcm -> LedgerSequence lcm = sequence ->
  storable lcm txs blob -> fresh_ledger (d_tab (sv_db s)) lcm txs ->
  cache_ok (sv_db s) -> (forall k b, t_ledgers (d_tab (sv_db s)) !! k = Some b -> k < sequence) ->
  Forall (fun row => 0 < row_ledger row) (t_txs (d_tab (sv_db s))) ->
  windows_take (sv_feeWindows s) lcm sf cf ->
  s_faults (d_sess (sv_db s)) = [] -> sv_tx_faults s = [] ->
  let t := d_tab (sv_db s) in
  exists s', ingest window pass sequence s = (Ok tt, s') /\
    let t' := d_tab (sv_db s') in
    t_ledgers t' = filter (fun p => sequence - window < fst p) (<[sequence := blob]> (t_ledgers t)) /\
    t_txs t' ≡ₚ filter (fun row => sequence - window < row_ledger row) (t_txs t ++ ledger_tx_rows lcm txs) /\
    (forall c row, cursor_ok c ->
       t_events t' !! Cursor_String c = Some row <->
       sequence - window < C_Ledger c /\
       (t_events t !! Cursor_String c = Some row \/
        exists p tx ev, event_at txs p = Some (tx, ev) /\
          Cursor_String c = Cursor_String (event_cursor sequence txs p) /\ stored_as lcm tx ev row)) /\
    (t_meta t', t_indexes t', t_hash_pk t') = (t_meta t, t_indexes t, t_hash_pk t) /\
    cache_ok (sv_db s') /\ latestLedgerSeq (d_cache (sv_db s')) = sequence /\
    newest t' (info_of lcm) /\
    took (SorobanInclusionFeeWindow (sv_feeWindows s)) (SorobanInclusionFeeWindow (sv_feeWindows s')) lcm sf /\
    took (ClassicFeeWindow (sv_feeWindows s)) (ClassicFeeWindow (sv_feeWindows s')) lcm cf /\
    latestIngestedSeq s' = Z.max (latestIngestedSeq s) sequence.
Proof.
  intros Hw Hsq H4 Hget Hseq Hst Hfresh Hcok Hnext Hpos (Hp&(rd&Hrd&Hloop)&Ht1&Ht2) Hf Hxf t.
  assert (is_u32 (LedgerSequence lcm)) as Hu by (unfold_ints; lia).
  destruct (storable_good lcm txs blob H4 Hst) as (l&rows&Hg&Hnd&Hrows).
  rewrite <- Hp in Hrd.
  destruct s as [d f lat xf]. simpl in *. subst xf t. unfold ingest, with_new_tx. unfold_m. rewrite Hget. simpl.
  unfold NewTx, on_session, zoom, sql_select, statement. unfold_m. rewrite Hf. simpl.
  set (d0 := set_sess (MkSession (s_tab (d_sess d)) []) d).
  assert (d_tab d0 = d_tab d) as Hd0 by done.
  destruct (write_ledger_ok window pass d0 lcm txs l rows blob)
    as (w1&w'&d'&t2&Hrun&Hcom&Hww&Hwl&Htab&(Ha1&Ha2&Ha3&Ha4)&Hf'); try done.
  change (MkWriteTx (MkSession (s_tab (d_sess d)) []) true (MkTransactionHandler true pass [])
    (MkEventHandler true pass []) window) with (fresh_tx window pass (d_tab d0)). rewrite Hrun.
  unfold ingest_fees, commit_tx, zoom. simpl.
  destruct (IngestFees_ok handle_Rollback lcm f d0 rd sf cf) as (f'&Hfees&_&Hk1&Hk2); try done.
  rewrite Hfees. simpl. rewrite Hcom. simpl. destruct (Rollback w') as [rr ww].
  set (s1 := MkService d' f' lat []).
  exists (if decide (lat < sequence) then set_latestIngestedSeq sequence s1 else s1). split; [done|].
  assert (forall B (g : Service -> B), g (set_latestIngestedSeq sequence s1) = g s1 ->
    g (if decide (lat < sequence) then set_latestIngestedSeq sequence s1 else s1) = g s1) as Hif
    by (intros B g E; by case_decide).
  rewrite (Hif _ sv_db), (Hif _ sv_feeWindows) by done. simpl.
  assert (cache_ok d0) as Hc0 by exact Hcok.
  assert (commits_next (d_tab d0) w1 lcm) as Hcn.
  { split_and!; try (rewrite Hww; lia); try lia; [by rewrite Hseq|].
    exists blob. split; [eapply lcm_roundtrip, Hst|]. by rewrite Hwl. }
  destruct (Commit_next lcm w1 d0 _ _ _ Hc0 Hcn Hcom) as [Hc' [[? _]|(Hl'&Hn'&_)]]; [done|].
  subst sequence. rewrite Htab. split_and!; try done.
  - rewrite trimmed_ledgers, Ha1; [done|lia|done|].
    rewrite Ha1. intros k b [[<- _]|[_ Hk]]%lookup_insert_Some; [lia|].
    destruct Hcok as (Hwf&_). apply Hwf in Hk as [? _]. lia.
  - rewrite trimmed_txs; [by rewrite Ha2|lia|done|]. rewrite Ha2. apply Forall_app. split; [done|].
    apply Forall_fmap, Forall_forall. intros [h tx] _. simpl. lia.
  - intros c row Hc. rewrite trimmed_events by (done || lia).
    rewrite Ha3, lookup_union_Some_raw, <- elem_of_list_to_map, Hrows by done.
    split; [tauto|]. intros [Hlt [Hold|Hp']]; [|by split; [left|]]. split; [right; split; [|done]|done].
    apply not_elem_of_list_to_map_1. intros ([id r]&E&Hin)%list_elem_of_fmap. simpl in E. subst id.
    destruct Hfresh as [_ _ Hfe]. apply Hfe in Hold as (c1&Hok1&E1&Hne).
    apply cursor_string_inj in E1 as <-; [|done..].
    destruct Hg as [_ Hrd' Hfit Hcur Hrws].
    assert (Cursor_String c ∈ e_Cursor <$> ledger_events lcm l) as Hin'.
    { rewrite <- (insertEvents_ids _ _ Hrws). apply list_elem_of_fmap. by exists (Cursor_String c, r). }
    eapply ledger_ids_NoDup in Hin' as (c2&Hok2&Hled&E2); [|done| |done].
    + apply cursor_string_inj in E2 as <-; done.
    + intros k tx Hk. eapply reader_index; [done|]. by rewrite list_lookup_fmap, Hk.
  - change (d_tab d) with (d_tab d0). rewrite <- Ha4. unfold trimmed. by destruct (trim_cutoff _ _).
  - by rewrite <- Htab.
  - case_decide; simpl; lia.
Qed.

(** Ingesting a ledger whose fees the windows refuse. *)
Lemma ingest_refused sequence lcm rd sf cf s r s' :
  backend_GetLedger sequence = Ok lcm -> is_u32 (LedgerSequence lcm) ->
  NewLedgerTransactionReader (networkPassPhrase (sv_feeWindows s)) lcm = Ok rd ->
  ingest_fees_loop rd [] [] = Ok (sf, cf) -> fee_inv (ClassicFeeWindow (sv_feeWindows s)) ->
  ~ queue_accepts (view (feesPerLedger (ClassicFeeWindow (sv_feeWindows s)))) (fee_bucket lcm cf) ->
  ingest window pass sequence s = (r, s') ->
  r <> Ok tt /\ sv_feeWindows s' = sv_feeWindows s /\ d_tab (sv_db s') = d_tab (sv_db s) /\
  d_cache (sv_db s') = d_cache (sv_db s).
Proof.
  intros Hget Hu Hrd Hloop Hinv Hno. unfold ingest, with_new_tx. unfold_m. rewrite Hget.
  destruct s as [d f lat xf]. simpl in *. destruct (match xf with [] => _ | _ => _ end) as [fs rest]. simpl.
  unfold NewTx, on_session, zoom. unfold_m.
  destruct (sql_select (fun t => t) (d_sess d)) as [r1 s1] eqn:E1.
  apply sql_select_inv in E1 as [Ht1 [->|[e ->]]]; simpl.
  2: { intros [= <- <-]. unfold d_tab. simpl. by rewrite Ht1. }
  set (w := MkWriteTx _ _ _ _ _).
  destruct (ingestLedgerCloseMeta lcm w) as [[[]|e|p] w1]; simpl.
  2,3: destruct (Rollback w1); intros [= <- <-]; unfold d_tab; simpl; by rewrite Ht1.
  destruct (IngestFees_refused handle_Rollback lcm f (set_sess s1 d) rd sf cf) as [e He]; try done.
  unfold ingest_fees, zoom. simpl. rewrite He. simpl. destruct (Rollback w1).
  intros [= <- <-]. unfold d_tab. simpl. by rewrite Ht1.
Qed.

(** The schedule of the next transaction. *)
Definition next_tx_faults (s : Service) : list (option error) := from_option id [] (head (sv_tx_faults s)).

(** C11: A failed commit wedges the ingestion: when the rows of a ledger are
    written but the commit of its transaction fails, the call fails with that
    error, nothing is stored (unless only the checkpoint after the commit
    failed), and yet both fee windows have taken the ledger; every later attempt
    to ingest it, under any faults, is refused by them and stores nothing. *)
Theorem failed_commit_wedges sequence lcm sf cf s tx d w1 r2 w2 d2 r s1 :
  backend_GetLedger sequence = Ok lcm -> LedgerSequence lcm = sequence -> is_u32 sequence ->
  windows_take (sv_feeWindows s) lcm sf cf ->
  zlen (view (feesPerLedger (ClassicFeeWindow (sv_feeWindows s)))) < 2 ^ 32 - 1 ->
  NewTx window pass (next_tx_faults s) (sv_db s) = (Ok tx, d) ->
  ingestLedgerCloseMeta lcm tx = (Ok tt, w1) ->
  Commit lcm (w1, d) = (r2, (w2, d2)) -> r2 <> Ok tt ->
  ingest window pass sequence s = (r, s1) ->
  r = r2 /\
  (w_open w2 = true -> d_tab (sv_db s1) = d_tab (sv_db s) /\ d_cache (sv_db s1) = d_cache (sv_db s)) /\
  took (SorobanInclusionFeeWindow (sv_feeWindows s)) (SorobanInclusionFeeWindow (sv_feeWindows s1)) lcm sf /\
  took (ClassicFeeWindow (sv_feeWindows s)) (ClassicFeeWindow (sv_feeWindows s1)) lcm cf /\
  forall s2 r3 s3, sv_feeWindows s2 = sv_feeWindows s1 -> ingest window pass sequence s2 = (r3, s3) ->
    r3 <> Ok tt /\ sv_feeWindows s3 = sv_feeWindows s2 /\ d_tab (sv_db s3) = d_tab (sv_db s2).
Proof.
  intros Hget Hseq Hu (Hp&(rd&Hrd&Hloop)&Ht1&Ht2) Hlen Hnew Hwrite Hcom Hr2 Hrun.
  rewrite <- Hseq in Hu. rewrite <- Hp in Hrd.
  destruct (IngestFees_ok handle_Rollback lcm (sv_feeWindows s) d rd sf cf)
    as (f'&Hfees&Hpp&Hk1&Hk2); [done..|].
  assert (r = r2 /\ sv_feeWindows s1 = f' /\ sv_db s1 = d2) as (->&Hf'&Hd').
  { revert Hrun. unfold ingest, with_new_tx. unfold_m. rewrite Hget. unfold next_tx_faults in Hnew.
    destruct s as [d0 f lat xf]. simpl in *.
    assert (exists rest, match xf with [] => ([], []) | f :: r => (f, r) end = (from_option id [] (head xf), rest))
      as [rest ->] by (destruct xf; by eexists).
    rewrite Hnew. simpl. rewrite Hwrite. unfold ingest_fees, commit_tx, zoom. simpl. rewrite Hfees. simpl.
    rewrite Hcom. simpl. destruct (Rollback w2). destruct r2 as [[]|e|p]; [done|by intros [= <- <-]..]. }
  rewrite Hf', Hd'. split_and!; [done| |done|done|].
  - intros Ho. apply Commit_cases in Hcom as [[_ ->]|(?&_&_&Hc&_)]; [|congruence].
    revert Hnew. unfold NewTx, on_session, zoom. unfold_m.
    destruct (sql_select _ _) as [[t0|e|p] s0] eqn:E; intros [= _ <-].
    apply sql_select_inv in E as [Ht _]. unfold d_tab. simpl. by rewrite Ht.
  - intros s2 r3 s3 Hs2 Hrun2. pose proof Hk2 as (Hinv&Hv&_).
    destruct (ingest_refused sequence lcm rd sf cf s2 r3 s3) as (H1&H2&H3&_); try done; try (by rewrite Hs2).
    + rewrite Hs2, Hpp. done.
    + rewrite Hs2, Hv. apply queue_refuses_again; try done.
      rewrite <- Hv. destruct Hinv as [(_&_&_&_&_&_&_&Hc) _]. done.
Qed.

End IngestTheorems.

Section Witnesses.

#[global] Instance ex_source : LedgerSource (H := ex_sdk) := {|
  backend_GetLedger := fun n => Ok n;
  backend_PrepareRange := fun _ => Ok tt;
  archive_GetRootHAS := Ok 3;
|}.

Definition ex_service (tx_faults : list (list (option error))) : Service :=
  MkService (MkDB (MkSession empty_tables []) zeroCache) ex_windows 0 tx_faults.

Lemma ex_storable : storable (X := ex_sdk) "" 3 (ex_txs 3) (bits 32 3).
Proof.
  split; [reflexivity|reflexivity|apply ex_ledger_fits; lia|apply ex_stages_known|].
  intros p tx ev (d&->)%ex_event_at. eexists. apply ex_stored.
Qed.

Lemma ex_fresh_ledger : fresh_ledger (X := ex_sdk) empty_tables 3 (ex_txs 3).
Proof.
  split; [reflexivity|apply (bool_decide_unpack _); vm_compute; exact I|].
  intros id row Hid. simpl in Hid. by rewrite lookup_empty in Hid.
Qed.

Lemma ex_windows_take : windows_take (X := ex_sdk) "" ex_windows 3 [50] [200].
Proof.
  split_and!; [reflexivity|by eexists|split; [apply ex_fee_inv; lia|split; [exact I|vm_compute; reflexivity]]..].
Qed.

Lemma ingest_exact_witness :
  exists s', ingest (LS := ex_source) 10 "" 3 (ex_service []) = (Ok tt, s') /\
    let t' := d_tab (sv_db s') in
    t_ledgers t' = filter (fun p => 3 - 10 < fst p) {[3 := bits 32 3]} /\
    (forall c row, cursor_ok c ->
       t_events t' !! Cursor_String c = Some row <->
       3 - 10 < C_Ledger c /\
       (t_events empty_tables !! Cursor_String c = Some row \/
        exists p tx ev, event_at (X := ex_sdk) (ex_txs 3) p = Some (tx, ev) /\
          Cursor_String c = Cursor_String (event_cursor (X := ex_sdk) 3 (ex_txs 3) p) /\
          stored_as (X := ex_sdk) 3 tx ev row)) /\
    cache_ok (X := ex_sdk) (sv_db s') /\ latestLedgerSeq (d_cache (sv_db s')) = 3 /\ latestIngestedSeq s' = 3.
Proof.
  destruct (ingest_exact (LS := ex_source) 10 "" 3 3 (ex_txs 3) (bits 32 3) [50] [200]
    (ex_service [])) as (s'&H1&H2&_&H3&_&H4&H5&_&_&_&H6).
  - lia.
  - lia.
  - reflexivity.
  - reflexivity.
  - reflexivity.
  - apply ex_storable.
  - apply ex_fresh_ledger.
  - split_and!; [intros k b Hk; simpl in Hk; by rewrite lookup_empty in Hk|by intros []|by intros []].
  - intros k b Hk. simpl in Hk. by rewrite lookup_empty in Hk.
  - constructor.
  - apply ex_windows_take.
  - reflexivity.
  - reflexivity.
  - exists s'. split; [exact H1|]. cbv zeta. split_and!; [exact H2|exact H3|exact H4|exact H5|exact H6].
Defined.

(** The COMMIT of the first attempt fails; the second one has no fault at all. *)
Definition ex_full_disk : Service := ex_service [[None; None; None; Some (EExt "disk full")]].

(** The write and the commit of the first attempt, and whether its transaction
    stays open. *)
Definition ex_first_attempt : option (Res unit * Res unit * bool) :=
  match NewTx 10 "" (next_tx_faults ex_full_disk) (sv_db ex_full_disk) with
  | (Ok tx, d) =>
      let '(r0, w1) := ingestLedgerCloseMeta (X := ex_sdk) 3 tx in
      let '(r2, (w2, _)) := Commit (X := ex_sdk) 3 (w1, d) in Some (r0, r2, w_open w2)
  | _ => None
  end.

Lemma failed_commit_wedges_witness :
  let s1 := snd (ingest (LS := ex_source) 10 "" 3 ex_full_disk) in
  fst (ingest (LS := ex_source) 10 "" 3 ex_full_disk) = Err (EExt "disk full") /\
  d_tab (sv_db s1) = empty_tables /\
  fst (ingest (LS := ex_source) 10 "" 3 s1) <> Ok tt /\
  d_tab (sv_db (snd (ingest (LS := ex_source) 10 "" 3 s1))) = empty_tables.
Proof.
  destruct (NewTx 10 "" (next_tx_faults ex_full_disk) (sv_db ex_full_disk))
    as [[tx|e|m] d] eqn:E1; [|discriminate E1..].
  destruct (ingestLedgerCloseMeta (X := ex_sdk) 3 tx) as [r0 w1] eqn:E2.
  destruct (Commit (X := ex_sdk) 3 (w1, d)) as [r2 [w2 d2]] eqn:E3.
  destruct (ingest (LS := ex_source) 10 "" 3 ex_full_disk) as [r s1] eqn:E4.
  cbv zeta. simpl snd. simpl fst. destruct (ingest (LS := ex_source) 10 "" 3 s1) as [r3 s3] eqn:E5.
  assert (ex_first_attempt = Some (Ok tt, Err (EExt "disk full"), true)) as Hrun by (vm_compute; reflexivity).
  unfold ex_first_attempt in Hrun. rewrite E1, E2, E3 in Hrun. injection Hrun as -> -> Ho.
  destruct (failed_commit_wedges (LS := ex_source) 10 "" 3 3 [50] [200] ex_full_disk tx d w1
    (Err (EExt "disk full")) w2 d2 r s1) as (->&H2&_&_&H3);
    [reflexivity|reflexivity|split; [lia|reflexivity]|apply ex_windows_take|vm_compute; reflexivity
    |exact E1|exact E2|exact E3|discriminate|exact E4|].
  destruct (H2 Ho) as [Ht _]. destruct (H3 s1 r3 s3 eq_refl E5) as (H4&_&H5).
  split_and!; [reflexivity|exact Ht|exact H4|exact (eq_trans H5 Ht)].
Defined.

End Witnesses.
