(* ===== verification/Backfill.v ===== *)
(** * Backfill (internal/ingest/backfill.go)

    On request the local database is filled from a datastore: backwards from its
    oldest ledger to the edge of the retention window, then forwards to the tip
    of the datastore, in chunks of [ChunkSize] ledgers per commit. *)

From S2P Require Import Prelude Sdk SdkExample LedgerBucketWindow Tables DbTransaction DbEvent DbLedger Db FeeWindow Migration Ingest.

Definition OneDayOfLedgers : Z := 17280.
Definition ChunkSize : Z := OneDayOfLedgers / 18.
Definition ledgerThreshold : Z := 384.

Record fillBounds := MkFillBounds {
  backfill : LedgerSeqRange;
  frontfill : LedgerSeqRange;
  nBackfill : Z;
  checkpointFrequency : Z;
}.

Definition needBackfillPhase (bounds : fillBounds) : bool := negb (Empty (backfill bounds)).

(** [datastoreInfo] and [databaseInfo]: what the backfill knows of both sides. *)
Record BackfillMeta := MkBackfillMeta {
  ds_First : Z;
  ds_ledgersPerFile : Z;
  db_sequences : LedgerSeqRange;
  isNewDb : bool;
}.

Definition set_db_sequences (r : LedgerSeqRange) (b : BackfillMeta) : BackfillMeta :=
  MkBackfillMeta (ds_First b) (ds_ledgersPerFile b) r (isNewDb b).

(** [BufferedStorageBackendConfig] as [makeBackend] computes it. *)
Record BackendConfig := MkBackendConfig { BufferSize : Z; NumWorkers : Z }.

Definition backend_config (ledgersPerFile : Z) : BackendConfig :=
  let bufferSize := Z.min (Z.max (1024 / ledgersPerFile) 10) 256 in
  {| BufferSize := bufferSize; NumWorkers := Z.max (bufferSize / 10) 5 |}.

(** ** The chunk loops

    They are generic in the state and in the calls they make: creating a
    backend, preparing and ingesting a range, asking the datastore its tip. *)
Section Chunks.
Context {S : Type}.
Context (makeBackend : M S unit) (PrepareRange : Z -> Z -> M S unit)
        (ingestRange : Z -> Z -> M S unit) (FindLatestLedgerSequence : M S Z).

Definition left_chunk_bound (lBound rChunkBound : Z) : Z :=
  if decide (u32 (lBound + ChunkSize - 1) <= rChunkBound)
  then Z.max lBound (u32 (rChunkBound - ChunkSize + 1)) else lBound.

(** [i] counts the chunks; the result is the final [lBound]. *)
Fixpoint backfill_loop (fuel : nat) (ds_First nBackfill : Z) (i lBound rChunkBound : Z) : M S Z :=
  if decide (lBound <= rChunkBound) then
    match fuel with
    | O => panic "out of fuel"
    | Datatypes.S fuel =>
        map_err (EWrap "couldn't create backend") makeBackend ;;
        let lChunkBound := left_chunk_bound lBound rChunkBound in
        PrepareRange lChunkBound rChunkBound ;;
        map_err (EWrap ("couldn't fill chunk [" +:+ pretty lChunkBound +:+ ", "
                        +:+ pretty rChunkBound +:+ "]"))
          (ingestRange lChunkBound rChunkBound) ;;
        if decide (lChunkBound <= lBound) then mret lBound
        else
          let rChunkBound := u32 (lChunkBound - 1) in
          lBound ← (if decide (0 < i /\ i mod 10 = 0) then
                      currentTipLedger ← FindLatestLedgerSequence;
                      mret (Z.max (u32 (currentTipLedger - nBackfill + 1)) ds_First)
                    else mret lBound);
          backfill_loop fuel ds_First nBackfill (i + 1) lBound rChunkBound
    end
  else mret lBound.

(** The right bound decreases with every chunk. *)
Definition backfillChunks (ds_First : Z) (bounds : fillBounds) : M S fillBounds :=
  let '(lBound, rBound) := (First (backfill bounds), Last (backfill bounds)) in
  lBound ← backfill_loop (Datatypes.S (Z.to_nat rBound)) ds_First (nBackfill bounds) 0 lBound rBound;
  mret {| backfill := {| First := lBound; Last := Last (backfill bounds) |};
          frontfill := frontfill bounds; nBackfill := nBackfill bounds;
          checkpointFrequency := checkpointFrequency bounds |}.

Fixpoint frontfill_loop (fuel : nat) (lChunkBound rBound : Z) : M S unit :=
  if decide (lChunkBound <= rBound) then
    match fuel with
    | O => panic "out of fuel"
    | Datatypes.S fuel =>
        let rChunkBound := Z.min rBound (u32 (lChunkBound + ChunkSize - 1)) in
        map_err (EWrap ("couldn't fill chunk [" +:+ pretty lChunkBound +:+ ", "
                        +:+ pretty rChunkBound +:+ "]"))
          (ingestRange lChunkBound rChunkBound) ;;
        frontfill_loop fuel (u32 (lChunkBound + ChunkSize)) rBound
    end
  else mret tt.

Definition frontfillChunks (bounds : fillBounds) : M S unit :=
  let '(lBound, rBound) := (First (frontfill bounds), Last (frontfill bounds)) in
  if decide (rBound < lBound) then mret tt
  else
    map_err (EWrap "could not create ledger backend") makeBackend ;;
    PrepareRange lBound rBound ;;
    frontfill_loop (Datatypes.S (Z.to_nat ((rBound - lBound) / ChunkSize))) lBound rBound.

(** ** The phases *)

Context (PrevCheckpoint : Z -> Z -> Z).

Definition setBounds (b : BackfillMeta) (retentionWindow checkpointFrequency : Z) : M S fillBounds :=
  currentTipLedger ← map_err (EWrap "could not get latest ledger number from cloud datastore")
                       FindLatestLedgerSequence;
  let nBackfill := Z.min retentionWindow currentTipLedger in
  let fillStartMin :=
    if decide (u32 (nBackfill + 1) <= currentTipLedger)
    then Z.max (u32 (currentTipLedger - nBackfill + 1)) (ds_First b)
    else ds_First b in
  let '(minDbSeq, maxDbSeq) := (First (db_sequences b), Last (db_sequences b)) in
  let none := {| First := 0; Last := 0 |} in
  let mk bf ff := {| backfill := bf; frontfill := ff; nBackfill := nBackfill;
                     checkpointFrequency := checkpointFrequency |} in
  if isNewDb b then mret (mk none {| First := fillStartMin; Last := 0 |})
  else if decide (minDbSeq <= fillStartMin) then
    mret (mk none {| First := u32 (maxDbSeq + 1); Last := 0 |})
  else if decide (currentTipLedger < First (db_sequences b)) then
    fail (EMsg "current datastore tip is older than local DB minimum ledger")
  else
    mret (mk {| First := fillStartMin; Last := u32 (minDbSeq - 1) |}
             {| First := u32 (maxDbSeq + 1); Last := 0 |}).

Definition runBackfill (b : BackfillMeta) (bounds : fillBounds) : M S (BackfillMeta * fillBounds) :=
  if needBackfillPhase bounds then
    bounds ← map_err (EWrap "backfill failed") (backfillChunks (ds_First b) bounds);
    mret (set_db_sequences {| First := First (backfill bounds); Last := Last (db_sequences b) |} b, bounds)
  else mret (b, bounds).

(** One iteration of the forward fill. *)
Definition frontfill_once (bounds : fillBounds) : M S fillBounds :=
  currentTipLedger ← map_err (EWrap "could not get latest ledger number from cloud datastore")
                       FindLatestLedgerSequence;
  let last := PrevCheckpoint (checkpointFrequency bounds) currentTipLedger in
  let bounds := {| backfill := backfill bounds;
                   frontfill := {| First := First (frontfill bounds); Last := last |};
                   nBackfill := nBackfill bounds; checkpointFrequency := checkpointFrequency bounds |} in
  (if decide (First (frontfill bounds) < last)
   then map_err (EWrap "frontfill failed") (frontfillChunks bounds) else mret tt) ;;
  mret {| backfill := backfill bounds;
          frontfill := {| First := Z.max (First (frontfill bounds)) (u32 (last + 1)); Last := last |};
          nBackfill := nBackfill bounds; checkpointFrequency := checkpointFrequency bounds |}.

Definition runFrontfill (b : BackfillMeta) (bounds : fillBounds) : M S (BackfillMeta * fillBounds) :=
  bounds ← frontfill_once bounds;
  bounds ← (if needBackfillPhase bounds then mret bounds else frontfill_once bounds);
  mret (set_db_sequences {| First := First (db_sequences b);
                            Last := Z.max (u32 (First (frontfill bounds) - 1)) (Last (db_sequences b)) |} b,
        bounds).

End Chunks.

(** ** The local database *)

Section Local.
Context `{X : Sdk} `{ND : Nondet}.

Definition verifyDbGapless : M DB (Z * Z) :=
  r ← attempt GetLedgerRange_db;
  match r with
  | inr err => if errors_Is err ErrEmptyDB then mret (0, 0)
               else fail (EWrap "db verify: could not get ledger range" err)
  | inl ledgerRange =>
      let '(minDbSeq, maxDbSeq) := (Sequence (FirstLedger ledgerRange), Sequence (LastLedger ledgerRange)) in
      let expectedCount := u32 (maxDbSeq - minDbSeq + 1) in
      '(count, sequencesMin, sequencesMax) ←
        map_err (EWrap "db verify: could not get ledger sequences in local DB")
          (on_session (getLedgerCountInRange minDbSeq maxDbSeq));
      if decide (count <> expectedCount)
      then fail (EMsg ("db verify: gap detected in local DB: expected " +:+ pretty expectedCount
                       +:+ " ledgers, got " +:+ pretty count +:+ " ledgers"))
      else mret (sequencesMin, sequencesMax)
  end.

(** [verifyBounds] warns, it never fails: the result tells whether it warned. *)
Definition verifyBounds (nBackfill minSeq maxSeq : Z) : bool :=
  bool_decide (u32 (u32 (maxSeq - minSeq + 1) + ledgerThreshold) < nBackfill).

(** [NewBackfillMeta]; [oldest] is [datastore.FindOldestLedgerSequence]. *)
Definition NewBackfillMeta (oldest : Res Z) (ledgersPerFile : Z) : M DB BackfillMeta :=
  r ← attempt GetLedgerRange_db;
  '(ledgerRange, dbIsEmpty) ←
    (match r with
     | inl lr => mret (lr, false)
     | inr err => if errors_Is err ErrEmptyDB then mret (zeroLedgerRange, true)
                  else fail (EWrap "could not get ledger range from local DB" err)
     end);
  minWrittenDSLedger ← map_err (EWrap "could not get oldest ledger sequence from datastore") (of_res oldest);
  mret {| ds_First := minWrittenDSLedger; ds_ledgersPerFile := ledgersPerFile;
          db_sequences := {| First := Sequence (FirstLedger ledgerRange);
                             Last := Sequence (LastLedger ledgerRange) |};
          isNewDb := dbIsEmpty |}.

(** The datastore: its backends, its ledgers, and its successive tips. *)
Class DataStore := {
  ds_makeBackend : BackendConfig -> Res unit;
  ds_PrepareRange : Z -> Z -> Res unit;
  ds_GetLedger : Z -> Res LedgerCloseMeta;
  ds_PrevCheckpoint : Z -> Z -> Z;
}.
Context {DS : DataStore}.

(** The service and the answers [FindLatestLedgerSequence] will give. *)
Definition bf_state : Type := Service * list (Res Z).

Definition next_tip : M bf_state Z := fun st =>
  match snd st with
  | [] => (Err (EExt "datastore is empty"), st)
  | r :: rest => (r, (fst st, rest))
  end.

Definition RunBackfill (HistoryRetentionWindow CheckpointFrequency : Z) (passphrase : string)
    (b : BackfillMeta) : M bf_state bool :=
  let makeBackend := of_res (ds_makeBackend (backend_config (ds_ledgersPerFile b))) in
  let prepare l r := of_res (ds_PrepareRange l r) in
  let fill l r := zoom1 (ingestRange HistoryRetentionWindow passphrase ds_GetLedger l r) in
  let verify := zoom1 (zoom sv_db set_sv_db verifyDbGapless) in
  _ ← verify;
  bounds ← map_err (EWrap "could not set backfill bounds")
             (setBounds next_tip b HistoryRetentionWindow CheckpointFrequency);
  '(b, bounds) ← runBackfill makeBackend prepare fill next_tip b bounds;
  '(b, bounds) ← runFrontfill makeBackend prepare fill next_tip ds_PrevCheckpoint b bounds;
  '(minSeq, maxSeq) ← verify;
  mret (verifyBounds (nBackfill bounds) minSeq maxSeq).

End Local.

(** ** The chunks cover the ranges *)

Section ChunkLemmas.

(** The state of the chunk loops seen as the chunks they ingested. *)
Definition log_chunk (l r : Z) : M (list (Z * Z)) unit := modify (fun log => log ++ [(l, r)]).

(** Chunks that go down from [r] without a gap to [l]. *)
Inductive descends : Z -> Z -> list (Z * Z) -> Prop :=
  | descends_nil r : descends (r + 1) r []
  | descends_cons l m r chunks :
      m <= r -> r - m + 1 <= ChunkSize -> descends l (m - 1) chunks -> descends l r ((m, r) :: chunks).

(** Chunks that go up from [l] without a gap to [r]. *)
Inductive ascends : Z -> Z -> list (Z * Z) -> Prop :=
  | ascends_nil l : ascends l (l - 1) []
  | ascends_cons l m r chunks :
      l <= m -> m - l + 1 <= ChunkSize -> ascends (m + 1) r chunks -> ascends l r ((l, m) :: chunks).

Lemma ChunkSize_val : ChunkSize = 960.
Proof. reflexivity. Qed.

Lemma left_chunk_bound_spec l r :
  0 <= l <= r -> r < 2 ^ 31 ->
  left_chunk_bound l r = Z.max l (r - 959).
Proof.
  intros Hl Hr. unfold left_chunk_bound. rewrite ChunkSize_val.
  rewrite u32_small by (unfold_ints; lia). case_decide; [|lia].
  rewrite u32_small by (unfold_ints; lia). lia.
Qed.

(** A call that ingests nothing; it may fail. *)
Definition quiet {A} (m : M (list (Z * Z)) A) : Prop :=
  forall log r log', m log = (r, log') -> log' = log /\ forall p, r <> Panic p.

(** Ingesting a chunk logs it, or fails and leaves no trace: [ingestRange] writes
    a chunk in one transaction. *)
Definition logs_chunks (ingest : Z -> Z -> M (list (Z * Z)) unit) : Prop :=
  forall l r log res log', ingest l r log = (res, log') ->
    (res = Ok tt /\ log' = log ++ [(l, r)]) \/ ((exists e, res = Err e) /\ log' = log).

Lemma logs_log_chunk : logs_chunks log_chunk.
Proof. intros l r log res log' [= <- <-]. by left. Qed.

(** The left bound the fill may end with: the one it started with, or the edge
    of the retention window below a tip the datastore answered. *)
Definition left_bound_of (answers : Z -> Prop) (ds n l lb : Z) : Prop :=
  lb = l \/ exists t, answers t /\ lb = Z.max (t - n + 1) ds.

Section BackLoop.
Context (mk : M (list (Z * Z)) unit) (prep ingest : Z -> Z -> M (list (Z * Z)) unit) (tip : M (list (Z * Z)) Z).
Context (Hmk : quiet mk) (Hprep : forall l r, quiet (prep l r)) (Hing : logs_chunks ingest) (Htip : quiet tip).
Context (answers : Z -> Prop) (Hans : forall log t log', tip log = (Ok t, log') -> answers t).

(** Whatever the datastore answers, the backward loop ends, having ingested
    chunks that descend without a gap from the right bound, on success at least
    to the final left bound. *)
Lemma backfill_loop_spec fuel ds n i l r log res log' :
  0 <= l -> 0 <= ds -> 0 <= r < 2 ^ 31 -> (Z.to_nat r < fuel)%nat ->
  0 <= n -> (forall t, answers t -> n <= t < 2 ^ 31) ->
  backfill_loop mk prep ingest tip fuel ds n i l r log = (res, log') ->
  exists chunks low, log' = log ++ chunks /\ descends low r chunks /\
    (forall p, res <> Panic p) /\ (forall lb, res = Ok lb -> low <= lb /\ left_bound_of answers ds n l lb).
Proof.
  unfold left_bound_of.
  revert i l r log. induction fuel as [|fuel IH]; intros i l r log Hl Hds Hr Hfuel Hn Htips; [lia|].
  assert (exists chunks low, log = log ++ chunks /\ descends low r chunks) as (c0&low0&Hc0&Hd0).
  { exists [], (r + 1). rewrite app_nil_r. split; [done|constructor]. }
  simpl. case_decide as Hlr.
  2: { intros [= <- <-]. exists [], (r + 1). rewrite app_nil_r. split_and!; [done|constructor|done|].
       intros lb [= <-]. split; [lia|by left]. }
  unfold mbind, M_bind, map_err.
  destruct (mk log) as [rm logm] eqn:Em. apply Hmk in Em as [-> Hnm].
  destruct rm as [[]|e|p]; [|intros [= <- <-]; by exists c0, low0|by destruct (Hnm p)].
  rewrite left_chunk_bound_spec by lia. set (lc := Z.max l (r - 959)).
  destruct (prep lc r log) as [rp logp] eqn:Ep. apply Hprep in Ep as [-> Hnp].
  destruct rp as [[]|e|p]; [|intros [= <- <-]; by exists c0, low0|by destruct (Hnp p)].
  destruct (ingest lc r log) as [ri logi] eqn:Ei. apply Hing in Ei as [[-> ->]|[[e ->] ->]].
  2: { intros [= <- <-]. by exists c0, low0. }
  simpl. assert (lc <= r /\ r - lc + 1 <= ChunkSize) as [Hlc1 Hlc2] by (rewrite ChunkSize_val; lia).
  assert (descends lc r [(lc, r)]) as Hone.
  { replace lc with (lc - 1 + 1) at 1 by lia. constructor; [done|done|constructor]. }
  case_decide as Hend.
  { intros [= <- <-]. exists [(lc, r)], lc. split_and!; [done..|]. intros lb [= <-].
    split; [lia|by left]. }
  rewrite (u32_small (lc - 1)) by (unfold_ints; lia).
  assert (forall lb, 0 <= lb -> left_bound_of answers ds n l lb ->
    backfill_loop mk prep ingest tip fuel ds n (i + 1) lb (lc - 1) (log ++ [(lc, r)]) = (res, log') ->
    exists chunks low, log' = log ++ chunks /\ descends low r chunks /\ (forall p, res <> Panic p) /\
      (forall lb, res = Ok lb -> low <= lb /\ (lb = l \/ exists t, answers t /\ lb = Z.max (t - n + 1) ds)))
    as Hrec.
  { intros lb Hlb Hleft Hrun. apply IH in Hrun as (chunks&low&->&Hd&Hnp'&Hok); [|done || lia..].
    exists ((lc, r) :: chunks), low. rewrite <- app_assoc. split_and!; [done|by constructor|done|].
    intros lb' Hlb'. destruct (Hok lb' Hlb') as [? [->|?]]; [by split|]. split; [done|by right]. }
  destruct (decide (0 < i /\ i mod 10 = 0)); simpl; [|apply Hrec; [done|by left]].
  destruct (tip (log ++ [(lc, r)])) as [rt logt] eqn:Et. pose proof Et as Et'. apply Htip in Et' as [-> Hnt].
  destruct rt as [t|e|p]; [| |by destruct (Hnt p)].
  - apply Hans in Et. specialize (Htips _ Et). rewrite u32_small by (unfold_ints; lia).
    apply Hrec; [lia|]. right. eauto.
  - intros [= <- <-]. by exists [(lc, r)], lc.
Qed.

(** C12: The backward fill always ends and never leaves a gap: whatever the
    datastore answers and wherever a call fails, the chunks committed go down
    from the ledger below the local database without a gap or an overlap, each of
    at most [ChunkSize] ledgers.  On success they reach the edge of the window:
    the left bound it set out for or, when a refresh moved it, the oldest of the
    [nBackfill] ledgers up to a tip the datastore answered (its own oldest one if
    that is younger), which is the bound it reports.  (The tips answered are
    below 2^31 and not below [nBackfill], which is at most the first of them.) *)
Theorem backfillChunks_gapless ds bounds log r log' :
  0 <= First (backfill bounds) -> 0 <= ds -> 0 <= Last (backfill bounds) < 2 ^ 31 ->
  0 <= nBackfill bounds -> (forall t, answers t -> nBackfill bounds <= t < 2 ^ 31) ->
  backfillChunks mk prep ingest tip ds bounds log = (r, log') ->
  exists chunks low, log' = log ++ chunks /\ descends low (Last (backfill bounds)) chunks /\
    (forall p, r <> Panic p) /\
    (forall bounds', r = Ok bounds' ->
       low <= First (backfill bounds') /\
       (First (backfill bounds') = First (backfill bounds) \/
        exists t, answers t /\ First (backfill bounds') = Z.max (t - nBackfill bounds + 1) ds) /\
       Last (backfill bounds') = Last (backfill bounds) /\
       frontfill bounds' = frontfill bounds /\ nBackfill bounds' = nBackfill bounds).
Proof.
  intros Hl Hds Hr Hn Ht. unfold backfillChunks, mbind, M_bind.
  destruct (backfill_loop _ _ _ _ _ _ _ _ _ _ log) as [res lg] eqn:E.
  apply backfill_loop_spec in E as (chunks&low&->&Hd&Hnp&Hok); [|done || lia..].
  destruct res as [lb|e|p]; intros [= <- <-]; exists chunks, low; split_and!; try done.
  - intros bounds' [= <-]. simpl. destruct (Hok lb eq_refl). by split_and!.
  - by destruct (Hnp p).
Qed.

End BackLoop.

Lemma frontfill_loop_spec fuel l r log :
  0 <= l <= r + 1 -> r < 2 ^ 31 -> (Z.to_nat ((r - l + ChunkSize) / ChunkSize) <= fuel)%nat ->
  exists chunks, frontfill_loop log_chunk fuel l r log = (Ok tt, log ++ chunks) /\ ascends l r chunks.
Proof.
  revert l log. induction fuel as [|fuel IH]; intros l log Hl Hr Hfuel; rewrite ChunkSize_val in *.
  - assert (r - l + 960 < 960) as Hlt.
    { destruct (decide (r - l + 960 < 960)); [done|].
      assert (1 <= (r - l + 960) / 960) by (apply Z.div_le_lower_bound; lia). lia. }
    simpl. rewrite decide_False by lia. exists []. rewrite app_nil_r. split; [done|].
    replace r with (l - 1) by lia. constructor.
  - simpl. case_decide as Hlr.
    2: { exists []. rewrite app_nil_r. split; [done|]. replace r with (l - 1) by lia. constructor. }
    unfold mbind, M_bind, map_err. simpl. rewrite ChunkSize_val, !u32_small by (unfold_ints; lia).
    set (m := Z.min r (l + 960 - 1)).
    destruct (decide (l + 960 <= r + 1)) as [Hin|Hin].
    + destruct (IH (l + 960) (log ++ [(l, m)])) as (chunks&Hrun&Ha); [lia|lia| |].
      { replace (r - l + 960) with ((r - (l + 960) + 960) + 1 * 960) in Hfuel by lia.
        rewrite Z.div_add in Hfuel by lia.
        assert (0 <= (r - (l + 960) + 960) / 960) by (apply Z.div_pos; lia). lia. }
      exists ((l, m) :: chunks). rewrite Hrun, <- app_assoc. split; [done|].
      constructor; [lia|rewrite ChunkSize_val; lia|].
      replace (m + 1) with (l + 960) by lia. done.
    + assert (m = r) as Hm by lia. rewrite Hm.
      exists [(l, r)]. split.
      * destruct fuel; simpl; rewrite decide_False by lia; done.
      * constructor; [lia|rewrite ChunkSize_val; lia|]. replace r with (r + 1 - 1) at 2 by lia. constructor.
Qed.

(** The forward fill partitions its range: when nothing fails it ingests
    chunks that go up from the first to the last ledger without a gap or an
    overlap, each of at most [ChunkSize] ledgers, within the fuel of the loop. *)
Theorem frontfillChunks_partition bounds log :
  0 <= First (frontfill bounds) <= Last (frontfill bounds) -> Last (frontfill bounds) < 2 ^ 31 ->
  exists chunks,
    frontfillChunks (mret tt) (fun _ _ => mret tt) log_chunk bounds log = (Ok tt, log ++ chunks) /\
    ascends (First (frontfill bounds)) (Last (frontfill bounds)) chunks.
Proof.
  intros Hl Hr. unfold frontfillChunks. rewrite decide_False by lia. unfold mbind, M_bind, map_err.
  unfold mret, M_ret. cbv beta iota.
  apply frontfill_loop_spec; [lia|lia|]. rewrite ChunkSize_val.
  replace (Last (frontfill bounds) - First (frontfill bounds) + 960)
    with (Last (frontfill bounds) - First (frontfill bounds) + 1 * 960) by lia.
  rewrite Z.div_add by lia.
  assert (0 <= (Last (frontfill bounds) - First (frontfill bounds)) / 960) by (apply Z.div_pos; lia). lia.
Qed.

End ChunkLemmas.

Section GaplessLemmas.
Context `{X : Sdk} `{ND : Nondet}.

(** Distinct integers of an interval that are as many as it has fill it. *)
Lemma fills_interval (l : list Z) lo n :
  NoDup l -> (forall x, x ∈ l -> lo <= x < lo + n) -> 0 <= n ->
  (zlen l = n <-> forall x, lo <= x < lo + n -> x ∈ l).
Proof.
  intros Hnd Hin Hn.
  assert (l ⊆+ seqZ lo n) as Hsub.
  { apply NoDup_submseteq; [done|]. intros x Hx. apply elem_of_seqZ. by apply Hin. }
  split.
  - intros Hlen x Hx.
    assert (l ≡ₚ seqZ lo n) as ->; [|by apply elem_of_seqZ].
    apply submseteq_length_Permutation; [done|]. rewrite length_seqZ. unfold zlen in Hlen. lia.
  - intros Hall.
    assert (seqZ lo n ⊆+ l) as Hsub2.
    { apply NoDup_submseteq; [apply NoDup_seqZ|]. intros x Hx%elem_of_seqZ. auto. }
    apply submseteq_length in Hsub, Hsub2. rewrite length_seqZ in *. unfold zlen. lia.
Qed.

Definition gapless (t : tables) (lo hi : Z) : Prop :=
  forall k, lo <= k <= hi -> is_Some (t_ledgers t !! k).

Lemma getLedgerCountInRange_all t lo hi :
  ledgers_wf t -> oldest t lo -> newest t hi ->
  exists count, fst (getLedgerCountInRange (Sequence lo) (Sequence hi) (MkSession t []))
    = Ok (count, Sequence lo, Sequence hi) /\
    (count = u32 (Sequence hi - Sequence lo + 1) <-> gapless t (Sequence lo) (Sequence hi)).
Proof.
  intros Hwf Hlo Hhi.
  destruct (oldest_seq _ _ Hwf Hlo) as (b1&Hh&Hr1). destruct (newest_seq _ _ Hwf Hhi) as (b2&Hl&Hr2).
  pose proof (proj1 (ledger_rows_head _ _ _) Hh) as [Hk1 Hmin].
  pose proof (proj1 (ledger_rows_last _ _ _) Hl) as [Hk2 Hmax].
  assert (filter (in_range (Sequence lo) (Sequence hi)) (ledger_rows t) = ledger_rows t) as Hall.
  { apply filter_all. intros [k b] Hkb%elem_of_ledger_rows. unfold in_range. simpl. split; eauto. }
  unfold getLedgerCountInRange, sql_select, statement, mbind, M_bind, of_res. simpl. rewrite Hall.
  assert (head (ledger_rows t).*1 = Some (Sequence lo)) as ->.
  { destruct (ledger_rows t); simplify_eq/=. done. }
  rewrite fmap_last, Hl. simpl.
  assert (Sequence lo <= Sequence hi) as Hle by (by eapply Hmin).
  rewrite decide_False.
  2: { destruct (ledger_rows t) as [|p rows]; [done|]. csimpl. rewrite zlen_cons.
       pose proof (zlen_nonneg rows.*1). lia. }
  eexists. split; [reflexivity|].
  rewrite u32_small by (unfold_ints; lia).
  rewrite (fills_interval _ (Sequence lo)); [|apply NoDup_rows_by_key| |lia].
  - unfold gapless. split.
    + intros H k Hk. assert (k ∈ (ledger_rows t).*1) as Hin by (apply H; lia).
      apply list_elem_of_fmap in Hin as ([k' b]&->&Hin).
      apply elem_of_ledger_rows in Hin. by exists b.
    + intros H k Hk. destruct (H k) as [b Hb]; [lia|].
      apply elem_of_ledger_rows in Hb. by apply (list_elem_of_fmap_2 fst) in Hb.
  - intros k ([k' b]&->&Hin)%list_elem_of_fmap. apply elem_of_ledger_rows in Hin. simpl.
    pose proof (Hmin _ _ Hin). pose proof (Hmax _ _ Hin). lia.
Qed.

(** The verification that precedes and ends a backfill is exact on a coherent
    handle: it accepts an empty database, reports the oldest and newest
    sequences exactly when every ledger in between is stored, and fails on any
    gap. *)
Theorem verifyDbGapless_exact d :
  cache_ok d -> s_faults (d_sess d) = [] ->
  (t_ledgers (d_tab d) = ∅ -> fst (verifyDbGapless d) = Ok (0, 0)) /\
  (forall lo hi, oldest (d_tab d) lo -> newest (d_tab d) hi ->
     (gapless (d_tab d) (Sequence lo) (Sequence hi) ->
        fst (verifyDbGapless d) = Ok (Sequence lo, Sequence hi)) /\
     (~ gapless (d_tab d) (Sequence lo) (Sequence hi) -> exists m, fst (verifyDbGapless d) = Err (EMsg m))).
Proof.
  intros Hok Hf. pose proof Hok as (Hwf&_). unfold verifyDbGapless, mbind, M_bind, attempt.
  destruct (GetLedgerRange_db d) as [r d'] eqn:E.
  assert (s_faults (d_sess d') = []) as Hf'.
  { by apply GetLedgerRange_db_faults in E; apply E. }
  apply GetLedgerRange_db_spec in E as (Ht&_&Hok'&Hr); [|done]. rewrite Hf in Hr.
  destruct Hr as [(lr&->&Hlo&Hhi)|[[He ->]|(?&_&?&[=])]].
  - split; [intros He; by apply newest_nonempty in Hhi|].
    intros lo hi Hlo' Hhi'. rewrite <- (oldest_unique _ _ _ Hlo Hlo'), <- (newest_unique _ _ _ Hhi Hhi').
    destruct (getLedgerCountInRange_all (d_tab d') (FirstLedger lr) (LastLedger lr)) as (count&Hc&Hg);
      [by rewrite Ht..|].
    unfold map_err, on_session, zoom.
    assert (d_sess d' = MkSession (d_tab d') []) as Hs by (unfold d_tab; rewrite <- Hf'; by destruct (d_sess d')).
    rewrite Hs. destruct (getLedgerCountInRange _ _ _) as [r2 s2]. simpl in Hc. rewrite Hc. simpl.
    rewrite <- Ht, <- Hg. case_decide as Hd; simpl; split; try done; intros ?; try done; by eexists.
  - split; [done|]. intros lo hi _ Hhi. by apply newest_nonempty in Hhi.
Qed.

End GaplessLemmas.

Section Witnesses.

#[local] Opaque bits.

Definition ex_bounds : fillBounds :=
  {| backfill := {| First := 100; Last := 2500 |}; frontfill := {| First := 3000; Last := 4000 |};
     nBackfill := 3000; checkpointFrequency := 64 |}.

Lemma quiet_ret {A} (a : A) : quiet (mret a).
Proof. intros log r log' [= <- <-]. split; [reflexivity|discriminate]. Qed.

(** Fourteen chunks with a refresh after the eleventh, by which the tip has moved
    from 16000 to 16500: the fill stops at 501 instead of 1. *)
Definition ex_back_bounds : fillBounds :=
  {| backfill := {| First := 1; Last := 13000 |}; frontfill := {| First := 14000; Last := 16000 |};
     nBackfill := 16000; checkpointFrequency := 64 |}.

Lemma backfillChunks_gapless_witness :
  let run := backfillChunks (mret tt) (fun _ _ => mret tt) log_chunk (mret 16500) 2 ex_back_bounds [] in
  (exists low, descends low 13000 (snd run) /\ low <= 501) /\
  (First ∘ backfill <$> match fst run with Ok b => Some b | _ => None end) = Some 501.
Proof.
  destruct (backfillChunks (mret tt) (fun _ _ => mret tt) log_chunk (mret 16500) 2 ex_back_bounds [])
    as [r log'] eqn:E.
  assert (r = Ok {| backfill := {| First := 501; Last := 13000 |}; frontfill := {| First := 14000; Last := 16000 |};
     nBackfill := 16000; checkpointFrequency := 64 |}) as Hr by (vm_compute in E; congruence).
  destruct (backfillChunks_gapless (mret tt) (fun _ _ => mret tt) log_chunk (mret 16500) (quiet_ret tt)
    (fun _ _ => quiet_ret tt) logs_log_chunk (quiet_ret 16500) (eq 16500) ltac:(by intros ??? [= <-])
    2 ex_back_bounds [] r log') as (chunks&low&H1&H2&_&H3).
  - simpl. lia.
  - lia.
  - simpl. lia.
  - simpl. lia.
  - intros t <-. simpl. lia.
  - exact E.
  - destruct (H3 _ Hr) as (H4&_). simpl. split; [exists low; split|].
    + rewrite H1. exact H2.
    + exact H4.
    + by rewrite Hr.
Defined.

Lemma frontfillChunks_partition_witness :
  exists chunks,
    frontfillChunks (mret tt) (fun _ _ => mret tt) log_chunk ex_bounds [] = (Ok tt, chunks) /\
    ascends 3000 4000 chunks.
Proof. apply (frontfillChunks_partition ex_bounds []); simpl; lia. Defined.

Lemma verifyDbGapless_exact_witness :
  fst (verifyDbGapless (X := ex_sdk) ex_db) = Ok (3, 3).
Proof.
  destruct (verifyDbGapless_exact (X := ex_sdk) ex_db ex_cache_ok eq_refl) as [_ H].
  destruct ex_cache_ok as (_&Hn&Ho).
  refine (proj1 (H {| Sequence := 3; CloseTime := 15 |} {| Sequence := 3; CloseTime := 15 |} _ _) _).
  - apply Ho. discriminate.
  - apply Hn. discriminate.
  - intros k Hk. simpl in Hk. assert (k = 3) as -> by lia. eexists. reflexivity.
Defined.

(** A handle whose cache knows the oldest ledger, as the first verification of
    a backfill leaves it, and a transaction that adds an older ledger. *)
Definition stale_db : DB := MkDB (MkSession (set_ledgers {[5 := bits 32 5]} empty_tables) []) (MkDbCache 5 25 5 25).

Definition stale_tx : writeTx :=
  MkWriteTx (MkSession (set_ledgers (<[3 := bits 32 3]> {[5 := bits 32 5]}) empty_tables) []) true
    ex_tx_handler ex_ev_handler 1000.

(** Committing a ledger older than the cached oldest one does not update the
    cache: the stored range keeps reporting the old bound, and the verification
    that ends the backfill, which relies on it, accepts the gap at ledger 4. *)
Theorem backfilled_ledger_ignored :
  exists w' d', Commit (X := ex_sdk) 3 (stale_tx, stale_db) = (Ok tt, (w', d')) /\
    is_Some (t_ledgers (d_tab d') !! 3) /\ t_ledgers (d_tab d') !! 4 = None /\
    fst (GetLedgerRange_db (X := ex_sdk) d')
      = Ok {| FirstLedger := {| Sequence := 5; CloseTime := 25 |}; LastLedger := {| Sequence := 5; CloseTime := 25 |} |} /\
    fst (verifyDbGapless (X := ex_sdk) d') = Ok (5, 5).
Proof.
  eexists _, _. split; [vm_compute; reflexivity|]. split; [vm_compute; eexists; reflexivity|].
  split; [vm_compute; reflexivity|]. split; vm_compute; reflexivity.
Qed.

End Witnesses.
