(* ===== verification/Protocol.v ===== *)
(** * The JSON-RPC protocol package

    The request and response structs of the SDK's protocols/rpc package that
    the handlers read and build, and the methods of those structs that the
    handlers call (validation, event matching).  The package is outside the
    repository: its functions are the class [RpcProtocol] and what the handlers
    rely on is the class [RpcProtocolLaws]. *)

From S2P Require Import Prelude GoStd Sdk LedgerBucketWindow.

(** [&jrpc2.Error{Code: c, Message: err.Error()}] *)
Definition jrpc_of (c : jrpc_code) (e : error) : error := EJrpc c (error_message e).

Section Structs.
Context {ST : SdkTypes}.

(** ** getEvents *)

(** [protocol.SegmentFilter]: a wildcard or a value *)
Record SegmentFilter := MkSegmentFilter { Wildcard : option string; SF_ScVal : option ScVal }.

(** [protocol.EventFilter]; [EventType] is a set of names, as the list of its keys *)
Record EventFilter := MkEventFilter {
  EventType : list string;
  ContractIDs : list string;
  Topics : list (list SegmentFilter);
}.

Record EventsPagination := MkEventsPagination { EP_Cursor : option Cursor; EP_Limit : Z }.

Record GetEventsRequest := MkGetEventsRequest {
  ER_StartLedger : Z;
  ER_EndLedger : Z;
  Filters : list EventFilter;
  ER_Pagination : option EventsPagination;
  ER_Format : string;
}.

Record EventInfo := MkEventInfo {
  EI_EventType : string;
  EI_Ledger : Z;
  EI_LedgerClosedAt : string;
  EI_ID : string;
  EI_InSuccessfulContractCall : bool;
  EI_TransactionHash : string;
  EI_OpIndex : Z;
  EI_TxIndex : Z;
  EI_ContractID : string;
  EI_TopicXDR : list string;
  EI_ValueXDR : string;
  EI_TopicJSON : list string;
  EI_ValueJSON : string;
}.

Record GetEventsResponse := MkGetEventsResponse {
  ERsp_Events : list EventInfo;
  ERsp_Cursor : string;
  ERsp_LatestLedger : Z;
  ERsp_OldestLedger : Z;
  ERsp_LatestLedgerCloseTime : Z;
  ERsp_OldestLedgerCloseTime : Z;
}.

(** ** getLedgers and getTransactions *)

(** [protocol.LedgerPaginationOptions]; a cursor is a decimal string *)
Record LedgerPaginationOptions := MkLedgerPaginationOptions { LP_Cursor : string; LP_Limit : Z }.

Record LedgersRequest := MkLedgersRequest {
  LR_StartLedger : Z;
  LR_Pagination : option LedgerPaginationOptions;
  LR_Format : string;
}.

Record ProtoLedgerInfo := MkProtoLedgerInfo {
  LI_Hash : string;
  LI_Sequence : Z;
  LI_LedgerCloseTime : Z;
  LI_LedgerHeader : string;
  LI_LedgerHeaderJSON : string;
  LI_LedgerMetadata : string;
  LI_LedgerMetadataJSON : string;
}.

Record GetLedgersResponse := MkGetLedgersResponse {
  LRsp_Ledgers : list ProtoLedgerInfo;
  LRsp_LatestLedger : Z;
  LRsp_LatestLedgerCloseTime : Z;
  LRsp_OldestLedger : Z;
  LRsp_OldestLedgerCloseTime : Z;
  LRsp_Cursor : string;
}.

(** [protocol.Events] of a transaction *)
Record ProtoEvents := MkProtoEvents {
  PE_TransactionEventsXDR : list string;
  PE_ContractEventsXDR : list (list string);
  PE_TransactionEventsJSON : list string;
  PE_ContractEventsJSON : list (list string);
}.

Definition no_proto_events : ProtoEvents := MkProtoEvents [] [] [] [].

(** [protocol.TransactionDetails] *)
Record TransactionDetails := MkTransactionDetails {
  TD_Status : string;
  TD_TransactionHash : string;
  TD_ApplicationOrder : Z;
  TD_FeeBump : bool;
  TD_EnvelopeXDR : string;
  TD_EnvelopeJSON : string;
  TD_ResultXDR : string;
  TD_ResultJSON : string;
  TD_ResultMetaXDR : string;
  TD_ResultMetaJSON : string;
  TD_DiagnosticEventsXDR : list string;
  TD_DiagnosticEventsJSON : list string;
  TD_Events : ProtoEvents;
  TD_Ledger : Z;
}.

(** [protocol.TransactionInfo] *)
Record TransactionInfo := MkTransactionInfo {
  TI_Details : TransactionDetails;
  TI_LedgerCloseTime : Z;
}.

Record GetTransactionsResponse := MkGetTransactionsResponse {
  TRsp_Transactions : list TransactionInfo;
  TRsp_LatestLedger : Z;
  TRsp_LatestLedgerCloseTime : Z;
  TRsp_OldestLedger : Z;
  TRsp_OldestLedgerCloseTime : Z;
  TRsp_Cursor : string;
}.

(** ** getTransaction *)

Record GetTransactionRequest := MkGetTransactionRequest { GT_Hash : string; GT_Format : string }.

Record GetTransactionResponse := MkGetTransactionResponse {
  GT_LatestLedger : Z;
  GT_LatestLedgerCloseTime : Z;
  GT_OldestLedger : Z;
  GT_OldestLedgerCloseTime : Z;
  GT_Details : TransactionDetails;
  GT_LedgerCloseTime : Z;
}.

(** The conditions a filter puts on an event: one of the types, one of the
    contracts, one of the topic patterns, each when it lists any. *)
Definition topic_admits (t : list SegmentFilter) (topics : list ScVal) : Prop :=
  forall i seg v, t !! i = Some seg -> Wildcard seg = None -> SF_ScVal seg = Some v ->
    topics !! i = Some v.

End Structs.

(** The functions of the package. *)
Class RpcProtocol `{Sdk} := {
  FormatJSON : string;
  EventTypeXDRFromEventType : string -> option Z;
  EventTypeFromEventTypeXDR : Z -> option string;
  GetEventsRequest_Valid : GetEventsRequest -> Z -> option error;
  GetEventsRequest_Matches : GetEventsRequest -> DiagnosticEvent -> bool;
  GetLedgersRequest_Validate : LedgersRequest -> Z -> LedgerSeqRangeP -> option error;
  GetTransactionsRequest_IsValid : LedgersRequest -> Z -> LedgerSeqRangeP -> option error;
  IsLedgerWithinRange : Z -> LedgerSeqRangeP -> bool;
  IsValidFormat : string -> option error;
  TransactionStatusSuccess : string;
  TransactionStatusFailed : string;
  TransactionStatusNotFound : string;
}.

Definition filter_admits `{RpcProtocol} (f : EventFilter) (e : DiagnosticEvent) : Prop :=
  (EventType f = [] \/
   exists n, EventTypeFromEventTypeXDR (CE_Type (DE_Event e)) = Some n /\ n ∈ EventType f) /\
  (ContractIDs f = [] \/
   exists c s, CE_ContractId (DE_Event e) = Some c /\ strkey_EncodeContract c = Ok s /\ s ∈ ContractIDs f) /\
  (Topics f = [] \/
   exists topics data t, CE_V0 (DE_Event e) = Some (topics, data) /\ t ∈ Topics f /\ topic_admits t topics).

(** What the handlers rely on: a request matches an event only through one of
    its filters, which alone decide it, the two event type tables are inverse, strkey decodes what it
    encodes, and a valid request names no topic beyond the stored columns. *)
Class RpcProtocolLaws `{RpcProtocol} := {
  matches_admits : forall r e, GetEventsRequest_Matches r e = true ->
    Filters r = [] \/ exists f, f ∈ Filters r /\ filter_admits f e;
  matches_filters : forall r r' e, Filters r = Filters r' ->
    GetEventsRequest_Matches r e = GetEventsRequest_Matches r' e;
  event_types_inverse : forall t n, EventTypeFromEventTypeXDR t = Some n ->
    EventTypeXDRFromEventType n = Some t;
  strkey_roundtrip : forall c s, strkey_EncodeContract c = Ok s -> strkey_DecodeContract s = Ok c;
  strkey_reencode : forall c s, strkey_DecodeContract s = Ok c -> exists s', strkey_EncodeContract c = Ok s';
  max_topic_count : MaxTopicCount = 4%nat;
  valid_topics : forall r maxLimit f t i seg v, GetEventsRequest_Valid r maxLimit = None ->
    f ∈ Filters r -> t ∈ Topics f -> t !! i = Some seg -> Wildcard seg = None ->
    SF_ScVal seg = Some v -> (i < MaxTopicCount)%nat;
  within_range : forall n r, IsLedgerWithinRange n r = true <-> FirstLedgerP r <= n <= LastLedgerP r;
}.

(** Packed transaction identifiers: the decimal rendering of an ID in range is
    read back as that ID. *)
Class SdkToidLaws `{Sdk} := {
  toid_roundtrip : forall id, 0 <= LedgerSequence32 id < 2 ^ 31 -> 0 <= TransactionOrder id <= TransactionMask ->
    0 <= OperationOrder id <= OperationMask ->
    TOID_String id <> "" /\ exists z, ParseInt (TOID_String id) 64 = Ok z /\ TOID_Parse z = id;
}.

(** Seeking past the last transaction reports [io.EOF] or leaves nothing to read. *)
Class SdkSeekLaws `{Sdk} := {
  seek_beyond : forall rd i, zlen rd <= i ->
    reader_Seek rd i = Err (ESentinel EOF) \/ reader_Seek rd i = Ok [];
}.
