(* ===== verification/ProtocolExample.v ===== *)
(** * A small protocol package

    A concrete instance of the classes of Protocol.v over the example SDK, on
    which the theorems of the handlers are applied. *)

From S2P Require Import Prelude GoStd Sdk SdkExample LedgerBucketWindow Protocol.


Definition ex_type_xdr (n : string) : option Z :=
  if decide (n = "system") then Some 0 else if decide (n = "contract") then Some 1
  else if decide (n = "diagnostic") then Some 2 else None.

Definition ex_name_of (t : Z) : option string :=
  if decide (t = 0) then Some "system" else if decide (t = 1) then Some "contract"
  else if decide (t = 2) then Some "diagnostic" else None.

(** Each value segment equals the topic at its position. *)
Fixpoint ex_topic_matches (t : list SegmentFilter) (topics : list string) : bool :=
  match t with
  | [] => true
  | seg :: t =>
      match Wildcard seg, SF_ScVal seg with
      | None, Some v => match topics with
                        | v' :: _ => bool_decide (v = v') && ex_topic_matches t (tail topics)
                        | [] => false
                        end
      | _, _ => ex_topic_matches t (tail topics)
      end
  end.

Definition ex_filter_matches (e : DiagnosticEvent) (f : EventFilter) : bool :=
  (bool_decide (EventType f = []) ||
   match ex_name_of (CE_Type (DE_Event e)) with Some n => bool_decide (n ∈ EventType f) | None => false end) &&
  (bool_decide (ContractIDs f = []) ||
   match CE_ContractId (DE_Event e) with Some c => bool_decide (("C" +:+ c) ∈ ContractIDs f) | None => false end) &&
  (bool_decide (length (Topics f) = 0%nat) ||
   match CE_V0 (DE_Event e) with
   | Some (topics, _) => existsb (fun t => ex_topic_matches t topics) (Topics f)
   | None => false
   end).

Definition ex_matches (r : GetEventsRequest) (e : DiagnosticEvent) : bool :=
  bool_decide (length (Filters r) = 0%nat) || existsb (ex_filter_matches e) (Filters r).

Definition ex_valid (r : GetEventsRequest) (maxLimit : Z) : option error :=
  if forallb (fun f => forallb (fun t => bool_decide (length t <= 4)%nat) (Topics f)) (Filters r)
  then None else Some (EExt "topic cannot have more than 4 segments").

Definition ex_in_range (n : Z) (r : LedgerSeqRangeP) : bool :=
  bool_decide (FirstLedgerP r <= n <= LastLedgerP r).

(** The pagination rules: a cursor or a start ledger within the range. *)
Definition ex_valid_ledgers (r : LedgersRequest) (maxLimit : Z) (range : LedgerSeqRangeP) : option error :=
  match LR_Pagination r with
  | Some p =>
      if decide (maxLimit < LP_Limit p) then Some (EExt "limit must not exceed the maximum")
      else if decide (LP_Cursor p <> "") then None
      else if ex_in_range (LR_StartLedger r) range then None else Some (EExt "start ledger out of range")
  | None => if ex_in_range (LR_StartLedger r) range then None else Some (EExt "start ledger out of range")
  end.

#[global] Instance ex_protocol : RpcProtocol (H := ex_sdk) := {|
  FormatJSON := "json";
  EventTypeXDRFromEventType := ex_type_xdr;
  EventTypeFromEventTypeXDR := ex_name_of;
  GetEventsRequest_Valid := ex_valid;
  GetEventsRequest_Matches := ex_matches;
  GetLedgersRequest_Validate := ex_valid_ledgers;
  GetTransactionsRequest_IsValid := ex_valid_ledgers;
  IsLedgerWithinRange := ex_in_range;
  IsValidFormat := fun f => if decide (f = "" \/ f = "json" \/ f = "base64") then None
                            else Some (EExt "expected xdr format to be json or base64");
  TransactionStatusSuccess := "SUCCESS";
  TransactionStatusFailed := "FAILED";
  TransactionStatusNotFound := "NOT_FOUND";
|}.

Lemma ex_topic_matches_spec t topics : ex_topic_matches t topics = true -> topic_admits (ST := ex_types) t topics.
Proof.
  revert topics; induction t as [|seg t IH]; intros topics Hm i seg' v Hi Hw Hv; [done|]. simpl in Hm.
  destruct i as [|i]; simpl in Hi.
  - simplify_eq. rewrite Hw, Hv in Hm. destruct topics; [done|].
    apply andb_true_iff in Hm as [->%bool_decide_eq_true _]. done.
  - assert (ex_topic_matches t (tail topics) = true) as Ht.
    { destruct (Wildcard seg), (SF_ScVal seg); try done. destruct topics; [done|].
      by apply andb_true_iff in Hm as [_ ?]. }
    specialize (IH _ Ht i seg' v Hi Hw Hv). by destruct topics.
Qed.

#[global] Instance ex_protocol_laws : RpcProtocolLaws.
Proof.
  split.
  - intros r e Hm. simpl in Hm. apply orb_true_iff in Hm as [Hm|Hm].
    { left. apply bool_decide_eq_true in Hm. by destruct (Filters r). }
    right. apply existsb_exists in Hm as (f&Hf%list_elem_of_In&Hm). exists f. split; [done|].
    unfold ex_filter_matches in Hm. rewrite !andb_true_iff, !orb_true_iff, !bool_decide_eq_true in Hm.
    destruct Hm as [[H1 H2] H3]. split_and!.
    + destruct H1 as [?|H1]; [by left|right]. simpl. destruct (ex_name_of _) as [n|]; [|done].
      exists n. by apply bool_decide_eq_true in H1.
    + destruct H2 as [?|H2]; [by left|right]. destruct (CE_ContractId _) as [c|]; [|done].
      exists c, ("C" +:+ c). by apply bool_decide_eq_true in H2.
    + destruct H3 as [?|H3]; [left; by destruct (Topics f)|right].
      destruct (CE_V0 _) as [[topics data]|]; [|done]. apply existsb_exists in H3 as (t&Ht%list_elem_of_In&H3).
      exists topics, data, t. split_and!; [done..|]. by apply ex_topic_matches_spec.
  - intros r r' e E. simpl. unfold ex_matches. by rewrite E.
  - intros t n. simpl. unfold ex_name_of, ex_type_xdr. repeat case_decide; intros; simplify_eq; done.
  - intros c s. simpl. intros [= <-]. done.
  - intros c s _. simpl. eauto.
  - done.
  - intros r m f t i seg v Hv Hf Ht Hi _ _. simpl in *. unfold ex_valid in Hv.
    destruct (forallb _ _) eqn:E; [|done]. rewrite forallb_forall in E.
    apply list_elem_of_In in Hf. specialize (E _ Hf). rewrite forallb_forall in E.
    apply list_elem_of_In in Ht. specialize (E _ Ht). apply bool_decide_eq_true in E.
    apply lookup_lt_Some in Hi. lia.
  - intros n r. simpl. unfold ex_in_range. by rewrite bool_decide_eq_true.
Qed.

#[global] Instance ex_toid_laws : SdkToidLaws.
Proof.
  split. intros [l t o] Hl Ht Ho. cbn in *.
  assert (0 <= l * 2 ^ 32 + t * 2 ^ 12 + o < 2 ^ 63) as Hb by lia. split.
  - intros E. pose proof (pretty_starts_with_digit _ (proj1 Hb)) as H. by rewrite E in H.
  - exists (l * 2 ^ 32 + t * 2 ^ 12 + o). split; [apply ParseInt_FormatUint; lia|].
    f_equal; Z.to_euclidean_division_equations; lia.
Qed.

#[global] Instance ex_seek_laws : SdkSeekLaws.
Proof. split. intros rd i Hi. right. simpl. f_equal. apply drop_ge.
  unfold zlen in Hi. apply Nat2Z.inj_le. etrans; [exact Hi|]. apply Z.le_trans with (Z.max 0 i); lia. Qed.
