(* ===== verification/MethodJson.v ===== *)
(** * Rendering XDR for responses (internal/xdr2json and methods/json.go)

    The JSON conversions behind the "json" format of the handlers and the
    base64 renderings behind the default one. *)

From S2P Require Import Prelude GoStd Sdk LedgerBucketWindow Tables DbTransaction DbLedger Db Protocol.

Section Json.
Context `{X : Sdk} `{P : !RpcProtocol}.

(** [convertAnyBytes]: the Rust converter returns a document and an error text. *)
Definition convertAnyBytes (xdrTypeName field : string) : Res string :=
  let '(jsonStr, errStr) := xdr_to_json xdrTypeName field in
  if decide (errStr <> "") then Err (EMsg errStr) else Ok jsonStr.

(** [ConvertBytes]; the Go type of the first argument is given by its name. *)
Definition ConvertBytes (xdrTypeName field : string) : Res string :=
  if decide (String.length field = 0%nat) then Ok "" else convertAnyBytes xdrTypeName field.

Definition ConvertInterface (xdrTypeName : string) (marshalled : Res string) : Res string :=
  match marshalled with
  | Err e => Err (EWrap ("failed to serialize XDR type '" +:+ xdrTypeName +:+ "'") e)
  | Panic m => Panic m
  | Ok data => convertAnyBytes xdrTypeName data
  end.

(** [transactionToJSON]: result, envelope and meta, converted in this order. *)
Definition transactionToJSON (tx : Transaction) : Res (string * string * string) :=
  result ← ConvertBytes "TransactionResult" (T_Result tx);
  envelope ← ConvertBytes "TransactionEnvelope" (T_Envelope tx);
  resultMeta ← ConvertBytes "TransactionMeta" (T_Meta tx);
  Ok (result, envelope, resultMeta).

Definition ledgerToJSON (chunk : LedgerMetadataChunk) : Res (string * string) :=
  closeMetaJSON ← ConvertBytes "LedgerCloseMeta" (Chunk_Lcm chunk);
  headerJSON ← ConvertInterface "LedgerHeaderHistoryEntry" (header_MarshalBinary (Chunk_Header chunk));
  Ok (closeMetaJSON, headerJSON).

Definition jsonifySlice (xdrTypeName : string) (values : list string) : Res (list string) :=
  res_map (ConvertBytes xdrTypeName) values.

Definition jsonifySliceOfSlices (xdrTypeName : string) (values : list (list string))
    : Res (list (list string)) :=
  res_map (jsonifySlice xdrTypeName) values.

(** [base64EncodeSlice] and [base64EncodeSliceOfSlices] *)
Definition base64EncodeSlice (l : list string) : list string := base64_EncodeToString <$> l.
Definition base64EncodeSliceOfSlices (l : list (list string)) : list (list string) :=
  base64EncodeSlice <$> l.

Definition BuildEventsXDRFromTransaction (tx : Transaction) : ProtoEvents :=
  {| PE_TransactionEventsXDR := base64EncodeSlice (T_TransactionEvents tx);
     PE_ContractEventsXDR := base64EncodeSliceOfSlices (T_ContractEvents tx);
     PE_TransactionEventsJSON := []; PE_ContractEventsJSON := [] |}.

Definition BuildEventsJSONFromTransaction (tx : Transaction) : Res ProtoEvents :=
  contractEvents ← jsonifySliceOfSlices "ContractEvent" (T_ContractEvents tx);
  transactionEvents ← jsonifySlice "TransactionEvent" (T_TransactionEvents tx);
  Ok {| PE_TransactionEventsXDR := []; PE_ContractEventsXDR := [];
        PE_TransactionEventsJSON := transactionEvents;
        PE_ContractEventsJSON := contractEvents |}.

(** The format switch that getTransaction and getTransactions share. *)
Definition transaction_details (format : string) (hash : string) (tx : Transaction)
    : Res TransactionDetails :=
  let status := if T_Successful tx then TransactionStatusSuccess else TransactionStatusFailed in
  if decide (format = FormatJSON) then
    '(result, envelope, meta) ← transactionToJSON tx;
    diagEvents ← jsonifySlice "DiagnosticEvent" (T_Events tx);
    events ← BuildEventsJSONFromTransaction tx;
    Ok {| TD_Status := status; TD_TransactionHash := hash;
          TD_ApplicationOrder := T_ApplicationOrder tx; TD_FeeBump := T_FeeBump tx;
          TD_EnvelopeXDR := ""; TD_EnvelopeJSON := envelope;
          TD_ResultXDR := ""; TD_ResultJSON := result;
          TD_ResultMetaXDR := ""; TD_ResultMetaJSON := meta;
          TD_DiagnosticEventsXDR := []; TD_DiagnosticEventsJSON := diagEvents;
          TD_Events := events; TD_Ledger := Sequence (T_Ledger tx) |}
  else
    Ok {| TD_Status := status; TD_TransactionHash := hash;
          TD_ApplicationOrder := T_ApplicationOrder tx; TD_FeeBump := T_FeeBump tx;
          TD_EnvelopeXDR := base64_EncodeToString (T_Envelope tx); TD_EnvelopeJSON := "";
          TD_ResultXDR := base64_EncodeToString (T_Result tx); TD_ResultJSON := "";
          TD_ResultMetaXDR := base64_EncodeToString (T_Meta tx); TD_ResultMetaJSON := "";
          TD_DiagnosticEventsXDR := base64EncodeSlice (T_Events tx); TD_DiagnosticEventsJSON := [];
          TD_Events := BuildEventsXDRFromTransaction tx; TD_Ledger := Sequence (T_Ledger tx) |}.

End Json.

Section ReadTransaction.
Context `{X : Sdk} `{ND : Nondet}.

(** A read transaction that opens and reports the stored range. *)
Definition read_ok (d : DB) (range : LedgerRange) : Prop :=
  exists rt d1, NewTx_reader [] d = (Ok rt, d1) /\ GetLedgerRange_tx rt (rtx_tx rt) = (Ok range, rtx_tx rt) /\
    s_tab (rtx_tx rt) = d_tab d /\ s_faults (rtx_tx rt) = [].

End ReadTransaction.
