(* ===== verification/GetEventsMethod.v ===== *)
(** * The getEvents handler (internal/methods/get_events.go)

    The filters of the request are combined into restrictions that SQLite can
    apply, the rows of the window are scanned until the page is full, and the
    events that really match are rendered. *)

From S2P Require Import Prelude GoStd Sdk SdkExample LedgerBucketWindow Tables DbTransaction DbEvent DbLedger Db Protocol ProtocolExample MethodJson.

Definition LedgerScanLimit : Z := 10000.
Definition maxEventTypes : nat := 3.

Section Handler.
Context `{X : Sdk} `{P : !RpcProtocol} `{ND : Nondet}.

Record eventsRPCHandler := MkEventsRPCHandler { eh_maxLimit : Z; eh_defaultLimit : Z }.

(** ** Combining the filters *)

(** The contract IDs of one filter, those seen before left out. *)
Fixpoint add_contract_ids (ids : list string) (seen : list string) (out : list string)
    : Res (list string * list string) :=
  match ids with
  | [] => Ok (seen, out)
  | contractID :: ids =>
      if decide (contractID ∈ seen) then add_contract_ids ids seen out
      else match strkey_DecodeContract contractID with
           | Ok id => add_contract_ids ids (contractID :: seen) (out ++ [id])
           | Err _ => Err (EMsg ("invalid contract ID: " +:+ contractID))
           | Panic m => Panic m
           end
  end.

Fixpoint combine_contract_ids_loop (filters : list EventFilter) (seen out : list string)
    : Res (list string) :=
  match filters with
  | [] => Ok out
  | filter :: filters =>
      if decide (length (ContractIDs filter) = 0%nat) then Ok []
      else '(seen, out) ← add_contract_ids (ContractIDs filter) seen out;
           combine_contract_ids_loop filters seen out
  end.

Definition combineContractIDs (filters : list EventFilter) : Res (list string) :=
  combine_contract_ids_loop filters [] [].

(** The map lookup yields the zero value for an unknown name. *)
Definition eventTypeXDR (name : string) : Z := default 0 (EventTypeXDRFromEventType name).

Definition add_event_type (t : Z) (types : list Z) : list Z :=
  if decide (t ∈ types) then types else types ++ [t].

Fixpoint combine_event_types_loop (filters : list EventFilter) (types : list Z) : option (list Z) :=
  match filters with
  | [] => Some types
  | filter :: filters =>
      if decide (length (EventType filter) = 0%nat) then None
      else combine_event_types_loop filters
             (foldl (fun types name => add_event_type (eventTypeXDR name) types) types (EventType filter))
  end.

(** The set of types is listed in the order of a Go map. *)
Definition combineEventTypes (filters : list EventFilter) : list Z :=
  match combine_event_types_loop filters [] with
  | None => []
  | Some types => (range_map ((fun t => (t, tt)) <$> types)).*1
  end.

(** The conditions of one topic filter; wildcards keep their position. *)
Fixpoint topic_conditions (i : nat) (segments : list SegmentFilter) : Res TopicFilter :=
  match segments with
  | [] => Ok []
  | segmentFilter :: segments =>
      match Wildcard segmentFilter, SF_ScVal segmentFilter with
      | None, Some v =>
          match ScVal_MarshalBinary v with
          | Ok encodedTopic =>
              rest ← topic_conditions (S i) segments;
              Ok (MkTopicCondition (Z.of_nat i + 1) encodedTopic :: rest)
          | Err e => Err (EWrap "failed to marshal segment" e)
          | Panic m => Panic m
          end
      | _, _ => topic_conditions (S i) segments
      end
  end.

(** The topic filters of one filter; [None] when one is all wildcards. *)
Fixpoint filter_conditions (topics : list (list SegmentFilter)) (out : TopicFilters)
    : Res (option TopicFilters) :=
  match topics with
  | [] => Ok (Some out)
  | topicFilter :: topics =>
      conditions ← topic_conditions 0 topicFilter;
      if decide (length conditions = 0%nat) then Ok None
      else filter_conditions topics (out ++ [conditions])
  end.

Fixpoint combine_topics_loop (filters : list EventFilter) (out : TopicFilters) : Res TopicFilters :=
  match filters with
  | [] => Ok out
  | filter :: filters =>
      if decide (length (Topics filter) = 0%nat) then Ok []
      else
        r ← filter_conditions (Topics filter) out;
        match r with
        | None => Ok []
        | Some out => combine_topics_loop filters out
        end
  end.

Definition combineTopics (filters : list EventFilter) : Res TopicFilters :=
  combine_topics_loop filters [].

(** ** Rendering an event *)

Record entry := MkEntry {
  en_cursor : Cursor;
  en_ledgerCloseTimestamp : Z;
  en_event : DiagnosticEvent;
  en_txHash : string;
}.

Definition eventInfoForEvent (event : DiagnosticEvent) (cursor : Cursor)
    (ledgerClosedAt txHash format : string) : Res EventInfo :=
  match CE_V0 (DE_Event event) with
  | None => Err (EMsg "unknown event version")
  | Some (v0_Topics, v0_Data) =>
  match EventTypeFromEventTypeXDR (CE_Type (DE_Event event)) with
  | None => Err (EMsg ("unknown XDR ContractEventType type: " +:+ pretty (CE_Type (DE_Event event))))
  | Some eventType =>
  match ParseInt (FormatUint (C_Ledger cursor)) 32 with
  | Ok ledger =>
      '(topicXDR, valueXDR, topicJSON, valueJSON) ←
        (if decide (format = FormatJSON) then
           topics ← res_map (fun t => ConvertInterface "ScVal" (ScVal_MarshalBinary t)) v0_Topics;
           value ← ConvertInterface "ScVal" (ScVal_MarshalBinary v0_Data);
           Ok ([], "", topics, value)
         else
           topic ← res_map ScVal_MarshalBase64 v0_Topics;
           data ← ScVal_MarshalBase64 v0_Data;
           Ok (topic, data, [], ""));
      contractID ← match CE_ContractId (DE_Event event) with
                   | None => Ok ""
                   | Some c => match strkey_EncodeContract c with
                               | Ok s => Ok s
                               | Err e => Panic (error_message e) (* MustEncode *)
                               | Panic m => Panic m
                               end
                   end;
      Ok {| EI_EventType := eventType; EI_Ledger := i32 ledger; EI_LedgerClosedAt := ledgerClosedAt;
            EI_ID := Cursor_String cursor;
            EI_InSuccessfulContractCall := InSuccessfulContractCall event;
            EI_TransactionHash := txHash; EI_OpIndex := C_Op cursor; EI_TxIndex := C_Tx cursor;
            EI_ContractID := contractID;
            EI_TopicXDR := topicXDR; EI_ValueXDR := valueXDR;
            EI_TopicJSON := topicJSON; EI_ValueJSON := valueJSON |}
  | _ => Err (EMsg ("ledger sequence " +:+ pretty (C_Ledger cursor) +:+ " exceeds supported range"))
  end end end.

Definition event_info (format : string) (en : entry) : Res EventInfo :=
  eventInfoForEvent (en_event en) (en_cursor en) (FormatRFC3339 (en_ledgerCloseTimestamp en))
    (HexString (en_txHash en)) format.

(** ** The handler *)

(** [eventScanFunction]: its state is the slice [found]. *)
Definition event_scan (request : GetEventsRequest) (limit : Z) (event : DiagnosticEvent)
    (cursor : Cursor) (ledgerCloseTimestamp : Z) (txHash : string) : M (list entry) bool :=
  (if GetEventsRequest_Matches request event
   then modify (fun found => found ++ [MkEntry cursor ledgerCloseTimestamp event txHash])
   else mret tt) ;;
  gets (fun found => bool_decide (zlen found < limit)).

(** The start cursor and the limit of the page. *)
Definition page_start (request : GetEventsRequest) : Cursor :=
  match ER_Pagination request with
  | Some {| EP_Cursor := Some c |} =>
      MkCursor (C_Ledger c) (C_Tx c) (C_Op c) (u32 (C_Event c + 1))
  | _ => MkCursor (ER_StartLedger request) 0 0 0
  end.

Definition page_limit (h : eventsRPCHandler) (request : GetEventsRequest) : Z :=
  match ER_Pagination request with
  | Some p => if decide (0 < EP_Limit p) then EP_Limit p else eh_defaultLimit h
  | None => eh_defaultLimit h
  end.

(** The exclusive end of the window. *)
Definition end_ledger (request : GetEventsRequest) (ledgerRange : LedgerRange) (start : Cursor) : Z :=
  let endLedger := u32 (C_Ledger start + LedgerScanLimit) in
  let endLedger := Z.min (u32 (Sequence (LastLedger ledgerRange) + 1)) endLedger in
  if decide (ER_EndLedger request <> 0) then Z.min (ER_EndLedger request) endLedger else endLedger.

(** The cursor of the response: the last event of a full page, the end of the
    window otherwise. *)
Definition page_cursor (limit endLedger : Z) (results : list EventInfo) : Res string :=
  if decide (zlen results = limit) then
    lastEvent ← index results (zlen results - 1);
    Ok (EI_ID lastEvent)
  else
    Ok (Cursor_String (MkCursor (u32 (endLedger - 1)) (C_Tx MaxCursor) (C_Op MaxCursor) (C_Event MaxCursor))).

Definition getEvents (h : eventsRPCHandler) (request : GetEventsRequest) : M DB GetEventsResponse :=
  match GetEventsRequest_Valid request (eh_maxLimit h) with
  | Some e => fail (jrpc_of InvalidParams e)
  | None =>
      ledgerRange ← map_err (jrpc_of InternalError) GetLedgerRange_db;
      let start := page_start request in
      let limit := page_limit h request in
      let endLedger := end_ledger request ledgerRange start in
      let cursorRange := MkCursorRange start (MkCursor endLedger 0 0 0) in
      let first := Sequence (FirstLedger ledgerRange) in
      let last := Sequence (LastLedger ledgerRange) in
      if decide (C_Ledger start < first \/ last < C_Ledger start) then
        fail (EJrpc InvalidRequest ("startLedger must be within the ledger range: " +:+ pretty first
                                    +:+ " - " +:+ pretty last))
      else
        contractIDs ← map_err (jrpc_of InvalidParams) (of_res (combineContractIDs (Filters request)));
        topics ← map_err (jrpc_of InvalidParams) (of_res (combineTopics (Filters request)));
        let eventTypes := combineEventTypes (Filters request) in
        found ← map_err (jrpc_of InvalidRequest) (on_session (fun s =>
                  match GetEvents cursorRange contractIDs topics eventTypes (event_scan request limit) ([], s) with
                  | (Ok _, (found, s')) => (Ok found, s')
                  | (Err e, (_, s')) => (Err e, s')
                  | (Panic m, (_, s')) => (Panic m, s')
                  end));
        results ← map_err (EWrap "could not parse event")
                    (of_res (res_map (event_info (ER_Format request)) found));
        cursor ← of_res (page_cursor limit endLedger results);
        mret {| ERsp_Events := results; ERsp_Cursor := cursor;
                ERsp_LatestLedger := last; ERsp_OldestLedger := first;
                ERsp_LatestLedgerCloseTime := CloseTime (LastLedger ledgerRange);
                ERsp_OldestLedgerCloseTime := CloseTime (FirstLedger ledgerRange) |}
  end.

End Handler.

(** ** The combined filters are weaker than the request *)

Section Combine.
Context `{X : Sdk} `{P : !RpcProtocol} `{ND : Nondet} `{PL : !RpcProtocolLaws}.

Lemma add_contract_ids_spec ids seen out seen' out' :
  (forall c, c ∈ seen -> exists id, strkey_DecodeContract c = Ok id /\ id ∈ out) ->
  add_contract_ids ids seen out = Ok (seen', out') ->
  out ⊆ out' /\
  (forall c, c ∈ seen' -> exists id, strkey_DecodeContract c = Ok id /\ id ∈ out') /\
  (forall c, c ∈ ids -> exists id, strkey_DecodeContract c = Ok id /\ id ∈ out').
Proof.
  revert seen out; induction ids as [|c ids IH]; intros seen out Hs; csimpl.
  { intros [= <- <-]. split_and!; [done..|set_solver]. }
  case_decide as Hin.
  - intros E. destruct (IH _ _ Hs E) as (H1&H2&H3). split_and!; [done..|].
    intros c' [->|?]%elem_of_cons; [|auto]. destruct (Hs _ Hin) as (id&?&?). set_solver.
  - destruct (strkey_DecodeContract c) as [id|e|m] eqn:Hd; [|done..]. intros E.
    destruct (IH (c :: seen) (out ++ [id])) as (H1&H2&H3); [|done|].
    { intros c' [->|Hc]%elem_of_cons; [set_solver|]. destruct (Hs _ Hc) as (x&?&?). set_solver. }
    split_and!; [set_solver|done|]. intros c' [->|?]%elem_of_cons; [set_solver|auto].
Qed.

Lemma combine_contract_ids_loop_spec filters seen out ids :
  (forall c, c ∈ seen -> exists id, strkey_DecodeContract c = Ok id /\ id ∈ out) ->
  combine_contract_ids_loop filters seen out = Ok ids ->
  ids = [] \/ (out ⊆ ids /\ forall f, f ∈ filters -> ContractIDs f <> [] /\
    forall c, c ∈ ContractIDs f -> exists id, strkey_DecodeContract c = Ok id /\ id ∈ ids).
Proof.
  revert seen out; induction filters as [|f filters IH]; intros seen out Hs; csimpl.
  { intros [= <-]. right. split; [done|set_solver]. }
  case_decide as Hl; [intros [= <-]; by left|].
  destruct (add_contract_ids (ContractIDs f) seen out) as [[seen' out']|e|m] eqn:E; [|done..].
  csimpl. intros E2. destruct (add_contract_ids_spec _ _ _ _ _ Hs E) as (H1&H2&H3).
  destruct (IH _ _ H2 E2) as [->|[H4 H5]]; [by left|]. right. split; [set_solver|].
  intros f' [->|?]%elem_of_cons; [|auto]. split; [by destruct (ContractIDs f)|].
  intros c Hc. destruct (H3 c Hc) as (id&?&?). set_solver.
Qed.

Lemma foldl_event_types names types :
  types ⊆ foldl (fun types name => add_event_type (eventTypeXDR name) types) types names /\
  forall n, n ∈ names -> eventTypeXDR n ∈ foldl (fun types name => add_event_type (eventTypeXDR name) types) types names.
Proof.
  revert types; induction names as [|n names IH]; intros types; csimpl; [set_solver|].
  destruct (IH (add_event_type (eventTypeXDR n) types)) as [H1 H2].
  assert (types ⊆ add_event_type (eventTypeXDR n) types /\ eventTypeXDR n ∈ add_event_type (eventTypeXDR n) types)
    as [? ?] by (unfold add_event_type; case_decide; set_solver).
  split; [set_solver|]. intros n' [->|?]%elem_of_cons; [set_solver|auto].
Qed.

Lemma combine_event_types_loop_spec filters types out :
  combine_event_types_loop filters types = Some out ->
  types ⊆ out /\ forall f, f ∈ filters -> EventType f <> [] /\
    forall n, n ∈ EventType f -> eventTypeXDR n ∈ out.
Proof.
  revert types; induction filters as [|f filters IH]; intros types; csimpl.
  { intros [= <-]. set_solver. }
  case_decide as Hl; [done|]. intros [H1 H2]%IH.
  destruct (foldl_event_types (EventType f) types) as [H3 H4].
  split; [set_solver|]. intros f' [->|?]%elem_of_cons; [|auto].
  split; [by destruct (EventType f)|]. set_solver.
Qed.

Lemma combineEventTypes_spec filters :
  combineEventTypes filters = [] \/ forall f, f ∈ filters -> EventType f <> [] /\
    forall n, n ∈ EventType f -> eventTypeXDR n ∈ combineEventTypes filters.
Proof.
  unfold combineEventTypes. destruct (combine_event_types_loop filters []) as [out|] eqn:E; [|by left].
  right. apply combine_event_types_loop_spec in E as [_ H]. intros f Hf. destruct (H f Hf) as [? Hn].
  split; [done|]. intros n Hin. rewrite range_map_perm, <- list_fmap_compose.
  apply list_elem_of_fmap. exists (eventTypeXDR n). auto.
Qed.

(** Each condition of a topic filter comes from a value segment. *)
Lemma topic_conditions_spec i segs conds c :
  topic_conditions i segs = Ok conds -> c ∈ conds ->
  exists j seg v, segs !! j = Some seg /\ Wildcard seg = None /\ SF_ScVal seg = Some v /\
    ScVal_MarshalBinary v = Ok (TC_Value c) /\ TC_Column c = Z.of_nat (i + j) + 1.
Proof.
  revert i conds; induction segs as [|s segs IH]; intros i conds; csimpl; [intros [= <-]; set_solver|].
  assert (topic_conditions (S i) segs = Ok conds -> c ∈ conds -> exists j seg v,
      (s :: segs) !! j = Some seg /\ Wildcard seg = None /\ SF_ScVal seg = Some v /\
      ScVal_MarshalBinary v = Ok (TC_Value c) /\ TC_Column c = Z.of_nat (i + j) + 1) as Htail.
  { intros E Hc. destruct (IH _ _ E Hc) as (j&seg&v&?&?&?&?&?).
    exists (S j), seg, v. split_and!; [done..|lia]. }
  destruct (Wildcard s) eqn:Hw; [done|]. destruct (SF_ScVal s) as [v|] eqn:Hv; [|done].
  destruct (ScVal_MarshalBinary v) as [b|e|m] eqn:Hm; [|done..].
  unfold mbind, Res_bind. destruct (topic_conditions (S i) segs) as [rest|e|m] eqn:E; [|done..].
  intros [= <-] [->|Hc]%elem_of_cons.
  - exists 0%nat, s, v. split_and!; [done..|]. simpl. lia.
  - destruct (IH _ _ E Hc) as (j&seg&v'&?&?&?&?&?). exists (S j), seg, v'. split_and!; [done..|lia].
Qed.

Lemma filter_conditions_spec topics out out' :
  filter_conditions topics out = Ok (Some out') ->
  out ⊆ out' /\ forall t, t ∈ topics -> exists conds,
    topic_conditions 0 t = Ok conds /\ conds <> [] /\ conds ∈ out'.
Proof.
  revert out; induction topics as [|t topics IH]; intros out; csimpl; [intros [= <-]; set_solver|].
  unfold mbind, Res_bind. destruct (topic_conditions 0 t) as [conds|e|m] eqn:E; [|done..].
  case_decide as Hl; [done|]. intros [H1 H2]%IH. split; [set_solver|].
  intros t' [->|?]%elem_of_cons; [|auto]. exists conds. split_and!; [done|by destruct conds|set_solver].
Qed.

Lemma combine_topics_loop_spec filters out ts :
  combine_topics_loop filters out = Ok ts ->
  ts = [] \/ (out ⊆ ts /\ forall f, f ∈ filters -> Topics f <> [] /\
    forall t, t ∈ Topics f -> exists conds, topic_conditions 0 t = Ok conds /\ conds <> [] /\ conds ∈ ts).
Proof.
  revert out; induction filters as [|f filters IH]; intros out; csimpl.
  { intros [= <-]. right. set_solver. }
  case_decide as Hl; [intros [= <-]; by left|].
  unfold mbind, Res_bind. destruct (filter_conditions (Topics f) out) as [[out'|]|e|m] eqn:E; [|intros [= <-]; by left|done..].
  intros E2. destruct (filter_conditions_spec _ _ _ E) as [H1 H2].
  destruct (IH _ E2) as [->|[H3 H4]]; [by left|]. right. split; [set_solver|].
  intros f' [->|?]%elem_of_cons; [|auto]. split; [by destruct (Topics f)|].
  intros t Ht. destruct (H2 t Ht) as (conds&?&?&?). set_solver.
Qed.

End Combine.

(** ** Stored rows *)

Section Rows.
Context `{X : Sdk} `{P : !RpcProtocol} `{ND : Nondet} `{PL : !RpcProtocolLaws}
  `{XL : !SdkXdrLaws} `{CL : !SdkCursorLaws}.

(** Every row of the table was written by [insertEvents] under a cursor. *)
Definition events_stored (t : tables) : Prop :=
  forall id row, t_events t !! id = Some row -> exists de c,
    insertEvents de = Ok (id, row) /\ cursor_ok c /\ id = Cursor_String c.

Lemma marshal_topics_lookup topics segs i v :
  marshal_topics topics = Ok segs -> topics !! i = Some v ->
  exists b, ScVal_MarshalBinary v = Ok b /\ segs !! i = Some (Some b).
Proof.
  revert segs i; induction topics as [|t topics IH]; intros segs i; csimpl; [done|].
  unfold mbind, Res_bind. destruct (ScVal_MarshalBinary t) as [b|e|m] eqn:Hb; [|done..].
  destruct (marshal_topics topics) as [bs|e|m] eqn:E; [|done..]. intros [= <-].
  destruct i as [|i]; csimpl; [intros [= <-]; eauto|]. by apply IH.
Qed.

Lemma insertEvents_row de id row :
  insertEvents de = Ok (id, row) ->
  DiagnosticEvent_MarshalBinary (e_Event de) = Ok (ev_data row) /\
  ev_contract_id row = CE_ContractId (DE_Event (e_Event de)) /\
  ev_type row = CE_Type (DE_Event (e_Event de)) /\
  exists topics data, CE_V0 (DE_Event (e_Event de)) = Some (topics, data) /\
    forall i v, (i < 4)%nat -> topics !! i = Some v ->
      exists b, ScVal_MarshalBinary v = Ok b /\ ev_topics row !! i = Some (Some b).
Proof.
  unfold insertEvents, mbind, Res_bind.
  destruct (DiagnosticEvent_MarshalBinary (e_Event de)) as [blob|e|m]; [|done..].
  destruct (CE_V0 (DE_Event (e_Event de))) as [[topics data]|]; [|done].
  rewrite max_topic_count.
  destruct (marshal_topics (take 4 topics)) as [segs|e|m] eqn:Es; [|done..].
  generalize (eq_refl (segs ++ replicate (4 - length segs) None)).
  generalize (segs ++ replicate (4 - length segs) None) at 2 3 4 5 6. intros tl Htl.
  repeat match goal with
  | |- context [match index ?l ?i with _ => _ end] => destruct (index l i) eqn:?; [|done..]
  end.
  intros [= <- <-]. simpl. split_and!; [done..|]. exists topics, data. split; [done|].
  intros i v Hi Hv.
  destruct (marshal_topics_lookup _ _ i v Es) as (b&Hb&Hl); [by rewrite lookup_take_lt by lia|].
  exists b. split; [done|].
  assert (tl !! i = Some (Some b)) as Ht by (rewrite <- Htl; by apply lookup_app_l_Some).
  repeat match goal with H : index _ _ = Ok _ |- _ => apply index_Ok in H as [_ H] end.
  change (Z.to_nat 0) with 0%nat in *. change (Z.to_nat 1) with 1%nat in *.
  change (Z.to_nat 2) with 2%nat in *. change (Z.to_nat 3) with 3%nat in *.
  destruct i as [|[|[|[|i]]]]; simpl; [congruence..|lia].
Qed.

(** A row written for an event that the request matches passes every combined
    filter. *)
Lemma row_admitted r maxLimit de id row ids ts :
  GetEventsRequest_Valid r maxLimit = None ->
  combineContractIDs (Filters r) = Ok ids -> combineTopics (Filters r) = Ok ts ->
  insertEvents de = Ok (id, row) -> GetEventsRequest_Matches r (e_Event de) = true ->
  row_matches ids ts (combineEventTypes (Filters r)) row.
Proof.
  intros Hv Hids Hts Hrow Hm. destruct (insertEvents_row _ _ _ Hrow) as (_&Hc&Hty&topics&data&Hv0&Htop).
  pose proof Hids as Hids0. pose proof Hts as Hts0.
  apply combine_contract_ids_loop_spec in Hids; [|set_solver].
  apply combine_topics_loop_spec in Hts.
  pose proof (combineEventTypes_spec (Filters r)) as Het.
  destruct (matches_admits _ _ Hm) as [Hnil|(f&Hf&Ht&Hcid&Htp)].
  { rewrite Hnil in Hids0, Hts0. cbv in Hids0, Hts0. simplify_eq. unfold row_matches.
    split_and!; left; [done| |set_solver].
    rewrite Hnil. unfold combineEventTypes. simpl. apply Permutation_nil_r.
    by rewrite range_map_perm. }
  unfold row_matches. split_and!.
  - destruct Hids as [->|[_ Hall]]; [by left|]. destruct (Hall f Hf) as [Hne Hd].
    destruct Hcid as [?|(c&s&Hcs&Henc&Hin)]; [done|]. right. exists c. split; [congruence|].
    destruct (Hd s Hin) as (id'&Hdec&Hid'). apply strkey_roundtrip in Henc. congruence.
  - destruct Het as [->|Hall]; [by left|]. destruct (Hall f Hf) as [Hne Hn].
    destruct Ht as [?|(n&Hty'&Hin)]; [done|]. right. rewrite Hty. specialize (Hn n Hin).
    unfold eventTypeXDR in Hn. by rewrite (event_types_inverse _ _ Hty') in Hn.
  - destruct Hts as [->|[_ Hall]]; [left; set_solver|]. destruct (Hall f Hf) as [Hne Htf].
    destruct Htp as [?|(tps&dt&t&Hv0'&Hin&Hadm)]; [done|]. right. simplify_eq.
    destruct (Htf t Hin) as (conds&Hconds&Hcne&Hcin). exists conds. split_and!; [done..|].
    intros c Hcc. destruct (topic_conditions_spec _ _ _ _ Hconds Hcc) as (j&seg&v&Hj&Hw&Hsv&Hmar&Hcol).
    pose proof (valid_topics _ _ _ _ _ _ _ Hv Hf Hin Hj Hw Hsv) as Hlt. rewrite max_topic_count in Hlt.
    destruct (Htop j v Hlt (Hadm _ _ _ Hj Hw Hsv)) as (b&Hb&Hr).
    replace (Z.to_nat (TC_Column c - 1)) with j by lia. congruence.
Qed.

Lemma combine_topics_columns r maxLimit ts :
  GetEventsRequest_Valid r maxLimit = None -> combineTopics (Filters r) = Ok ts -> topic_columns_ok ts = true.
Proof.
  intros Hv. unfold combineTopics.
  assert (forall conds t f, f ∈ Filters r -> t ∈ Topics f -> topic_conditions 0 t = Ok conds ->
    forallb (fun c => bool_decide (1 <= TC_Column c <= 4)) conds = true) as Hone.
  { intros conds t f Hf Ht E. apply forallb_forall. intros c Hc%list_elem_of_In. apply bool_decide_eq_true.
    destruct (topic_conditions_spec _ _ _ _ E Hc) as (j&seg&v&Hj&Hw&Hs&_&Hcol).
    pose proof (valid_topics _ _ _ _ _ _ _ Hv Hf Ht Hj Hw Hs) as Hlt. rewrite max_topic_count in Hlt. lia. }
  assert (forall topics out out' f, topics ⊆ Topics f -> f ∈ Filters r ->
    filter_conditions topics out = Ok (Some out') -> topic_columns_ok out = true -> topic_columns_ok out' = true)
    as Hfil.
  { intros topics. induction topics as [|t topics IH]; intros out out' f Hsub Hf; csimpl; [by intros [= <-]|].
    unfold mbind, Res_bind. destruct (topic_conditions 0 t) as [conds|e|m] eqn:E; [|done..].
    case_decide; [done|]. intros E2 Hout. apply (IH (out ++ [conds]) out' f); [set_solver|done..|].
    unfold topic_columns_ok in *. rewrite forallb_app, Hout. simpl. rewrite andb_true_r.
    eapply (Hone conds t f); [done| |done]. set_solver. }
  assert (forall filters out, filters ⊆ Filters r -> topic_columns_ok out = true ->
    combine_topics_loop filters out = Ok ts -> topic_columns_ok ts = true) as Hloop.
  { intros filters. induction filters as [|f filters IH]; intros out Hsub Hout; csimpl; [by intros [= <-]|].
    case_decide; [by intros [= <-]|]. unfold mbind, Res_bind.
    destruct (filter_conditions (Topics f) out) as [[out'|]|e|m] eqn:E; [|by intros [= <-]|done..].
    apply IH; [set_solver|]. eapply (Hfil _ out out' f); [done|set_solver|done..]. }
  by apply Hloop.
Qed.

(** ** The reference: the stored events that match, in chronological order *)

Definition entry_of (p : string * ev_row) : option entry :=
  match ParseCursor (fst p), DiagnosticEvent_UnmarshalBinary (ev_data (snd p)) with
  | Ok c, Ok e => Some (MkEntry c (ev_close_time (snd p)) e (ev_tx_hash (snd p)))
  | _, _ => None
  end.

Definition stored_entries (t : tables) : list entry :=
  omap entry_of (rows_by_key String.le (t_events t)).

Definition matching (r : GetEventsRequest) (start end_ : Cursor) (t : tables) : list entry :=
  filter (fun en => ~ cursor_lt (en_cursor en) start /\ cursor_lt (en_cursor en) end_ /\
                    GetEventsRequest_Matches r (en_event en) = true) (stored_entries t).

Lemma entry_of_stored t id row :
  events_stored t -> t_events t !! id = Some row ->
  exists de c, insertEvents de = Ok (id, row) /\ cursor_ok c /\ id = Cursor_String c /\
    entry_of (id, row) = Some (MkEntry c (ev_close_time row) (e_Event de) (ev_tx_hash row)).
Proof.
  intros Hst Hl. destruct (Hst _ _ Hl) as (de&c&Hi&Hok&->). exists de, c. split_and!; [done..|].
  unfold entry_of. simpl. rewrite parse_cursor_string by done.
  destruct (insertEvents_row _ _ _ Hi) as (Hm&_). by rewrite (event_roundtrip _ _ Hm).
Qed.

(** Filtering in SQL first loses no matching event. *)
Lemma prefilter_sound r maxLimit range ids ts t :
  GetEventsRequest_Valid r maxLimit = None -> events_stored t ->
  combineContractIDs (Filters r) = Ok ids -> combineTopics (Filters r) = Ok ts ->
  cursor_ok (CR_Start range) -> cursor_ok (CR_End range) ->
  filter (fun en => GetEventsRequest_Matches r (en_event en) = true)
    (omap entry_of (select_events range ids ts (combineEventTypes (Filters r)) t)) =
  matching r (CR_Start range) (CR_End range) t.
Proof.
  intros Hv Hst Hids Hts Hs He. unfold matching, stored_entries, select_events.
  assert (forall p, p ∈ rows_by_key String.le (t_events t) -> t_events t !! fst p = Some (snd p)) as Hrows.
  { intros [id row]. by rewrite elem_of_rows_by_key. }
  induction (rows_by_key String.le (t_events t)) as [|[id row] l IH]; [done|].
  specialize (IH (fun p Hp => Hrows p ltac:(by right))).
  destruct (entry_of_stored t id row Hst (Hrows (id, row) ltac:(by left))) as (de&c&Hi&Hok&->&Hen).
  rewrite filter_cons. simpl. rewrite Hen. rewrite filter_cons. simpl.
  pose proof (row_selected_spec range ids ts (combineEventTypes (Filters r)) c row Hok Hs He) as Hsel.
  case_decide as Hd1.
  - simpl. rewrite Hen, filter_cons. simpl. apply Hsel in Hd1 as (H1&H2&_).
    case_decide as Hd2; [rewrite decide_True by done|rewrite decide_False by tauto];
      [exact (f_equal _ IH)|exact IH].
  - rewrite decide_False; [exact IH|]. intros (H1&H2&Hm). apply Hd1, Hsel. split_and!; [done..|].
    by eapply row_admitted.
Qed.

(** Scanning stops once the page is full. *)
Lemma scan_rows_page r limit rows found :
  (forall p, p ∈ rows -> is_Some (entry_of p)) -> zlen found < limit ->
  scan_rows rows (event_scan r limit) found =
    (Ok tt, found ++ take (Z.to_nat (limit - zlen found))
       (filter (fun en => GetEventsRequest_Matches r (en_event en) = true) (omap entry_of rows))).
Proof.
  revert found; induction rows as [|[id row] rows IH]; intros found Hrows Hlt.
  { cbn [omap list_omap scan_rows filter list_filter]. by rewrite take_nil, app_nil_r. }
  destruct (Hrows (id, row) ltac:(by left)) as [en Hen].
  assert (forall p, p ∈ rows -> is_Some (entry_of p)) as Hrows' by (intros; apply Hrows; by right).
  pose proof Hen as Hen'. unfold entry_of in Hen'. simpl in Hen'.
  destruct (ParseCursor id) as [c|e|m] eqn:Hc; [|done..].
  destruct (DiagnosticEvent_UnmarshalBinary (ev_data row)) as [ev|e|m] eqn:Hd; [|done..]. simplify_eq.
  cbn [omap list_omap scan_rows]. rewrite Hen. unfold_m. rewrite Hc, Hd. unfold event_scan at 1. unfold_m.
  rewrite filter_cons. cbn [en_event]. destruct (GetEventsRequest_Matches r ev) eqn:Hm.
  - rewrite decide_True by done. rewrite bool_decide_decide. case_decide as Hl.
    + rewrite IH by done. autorewrite with go in *. f_equal. rewrite <- app_assoc. f_equal.
      by replace (Z.to_nat (limit - zlen found)) with (S (Z.to_nat (limit - (zlen found + (0 + 1))))) by lia.
    + autorewrite with go in *. do 2 f_equal.
      replace (Z.to_nat (limit - zlen found)) with 1%nat by lia. done.
  - rewrite decide_False by done. rewrite bool_decide_true by done. by apply IH.
Qed.

(** The decoded contract IDs can be encoded again. *)
Lemma add_contract_ids_decoded ids seen out seen' out' :
  add_contract_ids ids seen out = Ok (seen', out') ->
  (forall id, id ∈ out -> exists c, strkey_DecodeContract c = Ok id) ->
  forall id, id ∈ out' -> exists c, strkey_DecodeContract c = Ok id.
Proof.
  revert seen out; induction ids as [|c ids IH]; intros seen out; csimpl; [by intros [= <- <-]|].
  case_decide; [apply IH|]. destruct (strkey_DecodeContract c) as [id|e|m] eqn:E; [|done..].
  intros E2 Hout. eapply (IH _ _ E2). set_solver.
Qed.

Lemma combineContractIDs_encodable filters ids :
  combineContractIDs filters = Ok ids -> exists encs, res_map strkey_EncodeContract ids = Ok encs.
Proof.
  assert (forall fs seen out, combine_contract_ids_loop fs seen out = Ok ids ->
    (forall id, id ∈ out -> exists c, strkey_DecodeContract c = Ok id) ->
    forall id, id ∈ ids -> exists c, strkey_DecodeContract c = Ok id) as Hloop.
  { intros fs. induction fs as [|f fs IH]; intros seen out; csimpl; [by intros [= <-]|].
    case_decide; [intros [= <-]; set_solver|]. unfold mbind, Res_bind.
    destruct (add_contract_ids (ContractIDs f) seen out) as [[seen' out']|e|m] eqn:E; [|done..].
    intros E2 Hout. eapply (IH _ _ E2), add_contract_ids_decoded; done. }
  intros E. pose proof (Hloop _ _ _ E ltac:(set_solver)) as Hd. clear E Hloop.
  induction ids as [|id ids IH]; [by exists []|]. destruct IH as [encs Hencs]; [set_solver|].
  destruct (Hd id ltac:(set_solver)) as [c Hc]. destruct (strkey_reencode _ _ Hc) as [s' Hs].
  exists (s' :: encs). simpl. by rewrite Hs, Hencs.
Qed.

Lemma event_info_id fmt en i : event_info fmt en = Ok i -> EI_ID i = Cursor_String (en_cursor en).
Proof.
  unfold event_info, eventInfoForEvent. destruct (CE_V0 _) as [[ts dt]|]; [|done].
  destruct (EventTypeFromEventTypeXDR _); [|done].
  destruct (ParseInt _ _) as [l|e|m]; [|done..]. unfold mbind, Res_bind.
  match goal with |- context [match ?x with Ok _ => _ | Err _ => _ | Panic _ => _ end] =>
    destruct x as [[[[a b] c] d]|e|m]; [|done..] end.
  destruct (CE_ContractId (DE_Event (en_event en))) as [c'|]; [destruct (strkey_EncodeContract c')|];
    try done; by intros [= <-].
Qed.

(** ** One page *)

(** What a page needs: a valid request, a start within the stored range, filters
    that decode, no failing statement, events that can be rendered. *)
Record page_ok (h : eventsRPCHandler) (r : GetEventsRequest) (d : DB) (range : LedgerRange)
    (infos : list EventInfo) : Prop := {
  po_valid : GetEventsRequest_Valid r (eh_maxLimit h) = None;
  po_limit : 0 < page_limit h r;
  po_range : exists d1, GetLedgerRange_db d = (Ok range, d1) /\ d_tab d1 = d_tab d /\ s_faults (d_sess d1) = [];
  po_bounds : Sequence (FirstLedger range) <= C_Ledger (page_start r) <= Sequence (LastLedger range) /\
              Sequence (LastLedger range) < 2 ^ 31 - 1;
  po_start : cursor_ok (page_start r);
  po_end : 0 <= ER_EndLedger r;
  po_stored : events_stored (d_tab d);
  po_ids : exists ids, combineContractIDs (Filters r) = Ok ids;
  po_topics : exists ts, combineTopics (Filters r) = Ok ts;
  po_infos : res_map (event_info (ER_Format r))
    (take (Z.to_nat (page_limit h r))
       (matching r (page_start r) (MkCursor (end_ledger r range (page_start r)) 0 0 0) (d_tab d))) = Ok infos;
}.

Lemma end_ledger_ok h r d range infos :
  page_ok h r d range infos ->
  let e := end_ledger r range (page_start r) in
  0 <= e <= Sequence (LastLedger range) + 1 /\ cursor_ok (MkCursor e 0 0 0) /\
  e = Z.min (Sequence (LastLedger range) + 1) (Z.min (C_Ledger (page_start r) + LedgerScanLimit)
        (if decide (ER_EndLedger r = 0) then Sequence (LastLedger range) + 1 else ER_EndLedger r)).
Proof.
  intros H. destruct (po_bounds _ _ _ _ _ H) as [Hb1 Hb2]. pose proof (po_end _ _ _ _ _ H).
  destruct (po_start _ _ _ _ _ H) as (Hs&_). pose proof masks_nonneg as [? ?].
  unfold end_ledger, LedgerScanLimit. cbv zeta.
  rewrite !u32_small by (unfold_ints; lia). unfold cursor_ok, is_u32. simpl.
  repeat case_decide; try lia; split_and!; lia.
Qed.

Lemma getEvents_run h r d range infos :
  page_ok h r d range infos ->
  let e := end_ledger r range (page_start r) in
  exists cur d', page_cursor (page_limit h r) e infos = Ok cur /\ d_tab d' = d_tab d /\
    getEvents h r d = (Ok {| ERsp_Events := infos; ERsp_Cursor := cur;
      ERsp_LatestLedger := Sequence (LastLedger range); ERsp_OldestLedger := Sequence (FirstLedger range);
      ERsp_LatestLedgerCloseTime := CloseTime (LastLedger range);
      ERsp_OldestLedgerCloseTime := CloseTime (FirstLedger range) |}, d').
Proof.
  intros H. cbv zeta. destruct (end_ledger_ok _ _ _ _ _ H) as (_&Heok&_).
  destruct H as [Hv Hlim (d1&Hr&Ht1&Hf1) Hb Hs He Hst (ids&Hids) (ts&Hts) Hinf].
  set (e := end_ledger r range (page_start r)) in *.
  assert (exists cur, page_cursor (page_limit h r) e infos = Ok cur) as [cur Hcur].
  { unfold page_cursor. case_decide as Hl; [|eauto].
    destruct (index_in_range infos (zlen infos - 1)) as (x&Hx&_); [lia|]. rewrite Hx. simpl. eauto. }
  exists cur. destruct (combineContractIDs_encodable _ _ Hids) as [encs Hencs].
  set (rng := MkCursorRange (page_start r) (MkCursor e 0 0 0)).
  set (rows := select_events rng ids ts (combineEventTypes (Filters r)) (d_tab d)).
  assert (forall p, p ∈ rows -> is_Some (entry_of p)) as Hrows.
  { intros [id row]. unfold rows, select_events. rewrite list_elem_of_filter, elem_of_rows_by_key.
    intros [_ Hl]. destruct (entry_of_stored _ _ _ Hst Hl) as (?&?&_&_&_&->). done. }
  pose proof (scan_rows_page r (page_limit h r) rows [] Hrows Hlim) as Hscan.
  pose proof (prefilter_sound r _ rng ids ts (d_tab d) Hv Hst Hids Hts Hs Heok) as Hpre.
  fold rows in Hpre. rewrite Hpre in Hscan.
  rewrite zlen_nil, Z.sub_0_r in Hscan. simpl in Hscan.
  exists (set_sess (MkSession (d_tab d) []) d1). split; [done|]. split; [done|].
  unfold getEvents. rewrite Hv. unfold_m. rewrite Hr. cbv zeta.
  fold e. rewrite decide_False by lia. rewrite Hids, Hts. unfold on_session. unfold_m.
  unfold GetEvents, statement. unfold_m. rewrite Hencs. simpl. rewrite Hf1. simpl.
  rewrite (combine_topics_columns _ _ _ Hv Hts). fold rng.
  change (s_tab (d_sess d1)) with (d_tab d1). rewrite Ht1. fold rows. simpl.
  rewrite Hscan. simpl. by rewrite Hinf, Hcur.
Qed.

(** ** Consecutive pages *)

Lemma cursor_lt_trans a b c : cursor_lt a b -> cursor_lt b c -> cursor_lt a c.
Proof. unfold cursor_lt. lia. Qed.

(** Nothing lies between a cursor and the one with the next event index. *)
Lemma cursor_next a c :
  is_u32 (C_Event c + 1) ->
  ~ cursor_lt a (MkCursor (C_Ledger c) (C_Tx c) (C_Op c) (u32 (C_Event c + 1))) <-> cursor_lt c a.
Proof. intros Hu. rewrite u32_small by done. unfold cursor_lt. simpl. lia. Qed.

Lemma stored_entries_ok t en :
  events_stored t -> en ∈ stored_entries t -> cursor_ok (en_cursor en).
Proof.
  intros Hst (p&Hp&Hen)%list_elem_of_omap. destruct p as [id row]. apply elem_of_rows_by_key in Hp.
  destruct (entry_of_stored _ _ _ Hst Hp) as (de&c&_&Hok&_&E). rewrite E in Hen. by simplify_eq.
Qed.

(** Chronological order of entries. *)
Definition entry_lt (a b : entry) : Prop := cursor_lt (en_cursor a) (en_cursor b).

#[global] Instance entry_lt_dec : RelDecision entry_lt.
Proof. intros a b. unfold entry_lt. apply _. Defined.

Lemma stored_entries_sorted t :
  events_stored t -> StronglySorted entry_lt (stored_entries t).
Proof.
  intros Hst. unfold stored_entries.
  assert (forall p, p ∈ rows_by_key String.le (t_events t) -> t_events t !! fst p = Some (snd p)) as Hrows.
  { intros [id row]. by rewrite elem_of_rows_by_key. }
  pose proof (rows_by_key_sorted String.le (t_events t)) as HS.
  pose proof (NoDup_rows_by_key String.le (t_events t)) as HN.
  induction (rows_by_key String.le (t_events t)) as [|[id row] l IH]; [constructor|].
  apply StronglySorted_inv in HS as [HS HF]. rewrite fmap_cons in HN. apply NoDup_cons in HN as [Hni HN].
  destruct (entry_of_stored t id row Hst (Hrows (id, row) ltac:(by left))) as (de&c&_&Hok&->&Hen).
  cbn [omap list_omap]. rewrite Hen. constructor; [apply IH; [|done..]; intros; apply Hrows; by right|].
  apply Forall_forall. intros en (p&Hp&Hep)%list_elem_of_omap. destruct p as [id' row'].
  destruct (entry_of_stored t id' row' Hst (Hrows (id', row') ltac:(by right))) as (de'&c'&_&Hok'&->&Hen').
  rewrite Hen' in Hep. simplify_eq/=. unfold entry_lt. simpl. apply cursor_str_lt; [done..|].
  rewrite Forall_forall in HF. split; [by apply (HF _ Hp)|].
  intros E. apply Hni. simpl in E. rewrite E. by apply (list_elem_of_fmap_2 fst) in Hp.
Qed.

Lemma matching_sorted r a b t : events_stored t ->
  StronglySorted entry_lt (matching r a b t).
Proof. intros Hst. apply sorted_filter, stored_entries_sorted, Hst. Qed.

(** A full page up to [e1] followed by what comes after its last event is the
    whole of what matches up to a later [e2]. *)
Lemma matching_continue r s e1 e2 t n en :
  events_stored t -> is_u32 (C_Event (en_cursor en) + 1) -> ~ cursor_lt e2 e1 ->
  let c := en_cursor en in
  matching r s e1 t !! n = Some en ->
  matching r s e2 t = take (S n) (matching r s e1 t) ++
    matching r (MkCursor (C_Ledger c) (C_Tx c) (C_Op c) (u32 (C_Event c + 1))) e2 t.
Proof.
  intros Hst Hu Hle c Hn.
  set (l := matching r s e2 t). assert (StronglySorted entry_lt l) as HS by (by apply matching_sorted).
  assert (matching r s e1 t = filter (fun en => cursor_lt (en_cursor en) e1) l) as E1.
  { unfold l, matching. rewrite list_filter_filter. apply list_filter_iff. intros x.
    split; [|tauto]. intros (?&Hx&?). split_and!; try done.
    unfold cursor_lt in *. lia. }
  assert (matching r s e1 t = take (length (matching r s e1 t)) l) as E2.
  { rewrite E1 at 1. rewrite E1. apply (sorted_filter_prefix entry_lt); [done|].
    intros a b. unfold entry_lt. apply cursor_lt_trans. }
  assert (l !! n = Some en) as Hln.
  { pose proof (lookup_lt_Some _ _ _ Hn). rewrite E2 in Hn. by rewrite lookup_take_lt in Hn by lia. }
  rewrite <- (take_drop (S n) l) at 1. f_equal.
  - rewrite E2. pose proof (lookup_lt_Some _ _ _ Hn). rewrite take_take. f_equal. lia.
  - rewrite <- (sorted_filter_after entry_lt l n en HS Hln).
    + unfold l, matching. rewrite list_filter_filter. apply list_filter_iff. intros x. unfold entry_lt.
      rewrite cursor_next by done. split; [tauto|]. intros (H1&H2&H3). split_and!; try done.
      assert (~ cursor_lt (en_cursor en) s) as H4.
      { apply list_elem_of_lookup_2, list_elem_of_filter in Hn. tauto. }
      unfold cursor_lt in *. fold c in H1, H4. lia.
    + intros a b. unfold entry_lt, cursor_lt. lia.
Qed.

(** The cursor of a full page is that of its last event. *)
Lemma full_page_cursor h r d range infos :
  page_ok h r d range infos -> zlen infos = page_limit h r ->
  let e := end_ledger r range (page_start r) in
  exists en, matching r (page_start r) (MkCursor e 0 0 0) (d_tab d) !! Z.to_nat (page_limit h r - 1) = Some en /\
    page_cursor (page_limit h r) e infos = Ok (Cursor_String (en_cursor en)) /\ cursor_ok (en_cursor en).
Proof.
  intros H Hfull e. pose proof (po_infos _ _ _ _ _ H) as Hinf. fold e in Hinf.
  pose proof (po_limit _ _ _ _ _ H) as Hpos.
  set (all := matching r (page_start r) (MkCursor e 0 0 0) (d_tab d)) in *.
  pose proof (res_map_length _ _ _ Hinf) as Hlen. rewrite length_take in Hlen.
  destruct (lookup_lt_is_Some_2 all (Z.to_nat (page_limit h r - 1))) as [en Hen]; [llia|].
  exists en. split; [done|]. split.
  - unfold page_cursor. rewrite decide_True by done.
    destruct (index_in_range infos (zlen infos - 1)) as (i&Hi&Hl); [lia|]. rewrite Hi. simpl. f_equal.
    apply (event_info_id (ER_Format r)).
    assert (take (Z.to_nat (page_limit h r)) all !! Z.to_nat (zlen infos - 1) = Some en) as Hx.
    { rewrite lookup_take_lt by llia. rewrite <- Hen. f_equal. llia. }
    by apply (res_map_lookup _ _ _ _ _ _ Hinf Hx Hl).
  - apply list_elem_of_lookup_2, list_elem_of_filter in Hen as [_ Hen].
    eapply stored_entries_ok; [|done]. by apply (po_stored _ _ _ _ _ H).
Qed.

(** C16: A page of getEvents holds exactly the first [limit] stored events, in
    chronological order, that lie in the window and that the request matches:
    filtering in SQL by the combined contract IDs, types and topics first loses
    none of them.  The response reports the stored range; its cursor is the last
    event of a full page, and the end of the window otherwise, where the page
    holds all that matches. *)
Theorem getEvents_page h r d range infos :
  page_ok h r d range infos ->
  let e := end_ledger r range (page_start r) in
  let all := matching r (page_start r) (MkCursor e 0 0 0) (d_tab d) in
  exists resp d', getEvents h r d = (Ok resp, d') /\ d_tab d' = d_tab d /\
    res_map (event_info (ER_Format r)) (take (Z.to_nat (page_limit h r)) all) = Ok (ERsp_Events resp) /\
    ERsp_LatestLedger resp = Sequence (LastLedger range) /\
    ERsp_OldestLedger resp = Sequence (FirstLedger range) /\
    StronglySorted entry_lt all /\
    (if decide (zlen all < page_limit h r)
     then ERsp_Cursor resp = Cursor_String (MkCursor (u32 (e - 1)) (C_Tx MaxCursor) (C_Op MaxCursor) (C_Event MaxCursor))
     else exists en, all !! Z.to_nat (page_limit h r - 1) = Some en /\
            ERsp_Cursor resp = Cursor_String (en_cursor en)).
Proof.
  intros H e all. destruct (getEvents_run _ _ _ _ _ H) as (cur&d'&Hcur&Ht&Hrun).
  pose proof (po_infos _ _ _ _ _ H) as Hinf. fold e in Hinf. fold all in Hinf.
  eexists _, d'. split; [exact Hrun|]. simpl.
  split_and!; [done..|by apply matching_sorted, (po_stored _ _ _ _ _ H)|].
  pose proof (res_map_length _ _ _ Hinf) as Hlen. rewrite length_take in Hlen.
  pose proof (po_limit _ _ _ _ _ H). case_decide as Hd.
  - fold e in Hcur. unfold page_cursor in Hcur. rewrite decide_False in Hcur by llia. by simplify_eq.
  - destruct (full_page_cursor _ _ _ _ _ H) as (en&Hen&Hc&_); [llia|]. exists en. split; [done|]. congruence.
Qed.

(** The same request for the next page. *)
Definition next_page (r : GetEventsRequest) (c : Cursor) : GetEventsRequest :=
  {| ER_StartLedger := 0; ER_EndLedger := ER_EndLedger r; Filters := Filters r;
     ER_Pagination := Some {| EP_Cursor := Some c;
                              EP_Limit := match ER_Pagination r with Some p => EP_Limit p | None => 0 end |};
     ER_Format := ER_Format r |}.

Lemma matching_next_page r c a b t : matching (next_page r c) a b t = matching r a b t.
Proof.
  unfold matching. apply list_filter_iff. intros en. by rewrite (matches_filters (next_page r c) r).
Qed.

Lemma next_page_end h r d range infos en d2 range2 infos2 :
  page_ok h r d range infos -> page_ok h (next_page r (en_cursor en)) d2 range2 infos2 ->
  Sequence (LastLedger range) <= Sequence (LastLedger range2) ->
  let e1 := end_ledger r range (page_start r) in
  matching r (page_start r) (MkCursor e1 0 0 0) (d_tab d) !! Z.to_nat (page_limit h r - 1) = Some en ->
  ~ cursor_lt (MkCursor (end_ledger (next_page r (en_cursor en)) range2 (page_start (next_page r (en_cursor en)))) 0 0 0)
      (MkCursor e1 0 0 0).
Proof.
  intros H H2 Hlast e1 Hen. destruct (end_ledger_ok _ _ _ _ _ H) as (He&_&Hee).
  destruct (end_ledger_ok _ _ _ _ _ H2) as (_&_&Hee2).
  apply list_elem_of_lookup_2, list_elem_of_filter in Hen as [(Hs&_&_) _].
  unfold cursor_lt in *. cbn [C_Ledger C_Tx C_Op C_Event] in *.
  unfold e1. rewrite Hee, Hee2. simpl. clear Hee Hee2. destruct (decide (ER_EndLedger r = 0)); lia.
Qed.

(** Following the cursor of a full page skips and repeats nothing: the two
    pages together are the first events, as many as the two pages hold room for,
    of what the request matches from the first page's start to the second
    page's end. *)
Theorem getEvents_next_page h r d range infos c d2 range2 infos2 :
  page_ok h r d range infos -> zlen infos = page_limit h r ->
  (exists resp d', getEvents h r d = (Ok resp, d') /\ ParseCursor (ERsp_Cursor resp) = Ok c) ->
  is_u32 (C_Event c + 1) ->
  d_tab d2 = d_tab d -> Sequence (LastLedger range) <= Sequence (LastLedger range2) ->
  page_ok h (next_page r c) d2 range2 infos2 ->
  exists resp2 d2', getEvents h (next_page r c) d2 = (Ok resp2, d2') /\
    let e2 := MkCursor (end_ledger (next_page r c) range2 (page_start (next_page r c))) 0 0 0 in
    res_map (event_info (ER_Format r))
      (take (Z.to_nat (2 * page_limit h r)) (matching r (page_start r) e2 (d_tab d)))
    = Ok (infos ++ ERsp_Events resp2).
Proof.
  intros H Hfull (resp&d'&Hg&Hpc) Hu Ht Hlast H2.
  destruct (full_page_cursor _ _ _ _ _ H Hfull) as (en&Hen&Hcur&Hok).
  destruct (getEvents_run _ _ _ _ _ H) as (cur&d1&Hcur'&_&Hrun). rewrite Hg in Hrun. simplify_eq. simpl in Hpc.
  rewrite Hcur' in Hcur. simplify_eq. rewrite parse_cursor_string in Hpc by done. simplify_eq.
  destruct (getEvents_run _ _ _ _ _ H2) as (cur2&d2'&_&_&Hrun2).
  eexists _, d2'. split; [exact Hrun2|]. cbv zeta. simpl ERsp_Events.
  assert (page_limit h (next_page r (en_cursor en)) = page_limit h r) as El.
  { unfold page_limit, next_page. simpl. by destruct (ER_Pagination r). }
  pose proof (po_limit _ _ _ _ _ H) as Hpos.
  pose proof (po_infos _ _ _ _ _ H) as Hinf. pose proof (po_infos _ _ _ _ _ H2) as Hinf2.
  rewrite El, matching_next_page, Ht in Hinf2.
  pose proof (res_map_length _ _ _ Hinf) as Hlen. rewrite length_take in Hlen.
  rewrite (matching_continue r _ _ _ _ _ _ (po_stored _ _ _ _ _ H) Hu (next_page_end _ _ _ _ _ _ _ _ _ H H2 Hlast Hen) Hen).
  replace (S (Z.to_nat (page_limit h r - 1))) with (Z.to_nat (page_limit h r)) by lia.
  rewrite take_app_ge by (rewrite length_take; llia).
  apply res_map_app. eexists infos, infos2. split_and!; [done| |done].
  rewrite <- Hinf2. do 2 f_equal. rewrite length_take. llia.
Qed.

End Rows.

Section Witnesses.

(** Two events of ledger 2, and a request for transfers of one contract. *)
Definition ex_events_db : DB := MkDB (MkSession (set_events ex_old_events empty_tables) []) (MkDbCache 2 10 2 10).

Definition ex_events_handler : eventsRPCHandler := MkEventsRPCHandler 100 1.

Definition ex_request : GetEventsRequest :=
  {| ER_StartLedger := 2; ER_EndLedger := 0;
     Filters := [MkEventFilter ["contract"] ["CC"] [[MkSegmentFilter None (Some "transfer")]]];
     ER_Pagination := None; ER_Format := "" |}.

Definition ex_range : LedgerRange := cached_range (MkDbCache 2 10 2 10).

Definition ex_page (r : GetEventsRequest) : list EventInfo :=
  match getEvents (P := ex_protocol) ex_events_handler r ex_events_db with
  | (Ok resp, _) => ERsp_Events resp
  | _ => []
  end.

Definition ex_first_cursor : Cursor := MkCursor 2 1 0 0.

#[local] Opaque bits.

Lemma ex_events_stored : events_stored (X := ex_sdk) (d_tab ex_events_db).
Proof.
  intros id row Hl%elem_of_list_to_map_2.
  apply elem_of_cons in Hl as [[= -> ->]|[[= -> ->]|[]%elem_of_nil]%elem_of_cons].
  - exists (MkDbEvent "tx" (MkDiagnosticEvent true (ex_event "op1")) (ex_cursor_string (MkCursor 2 1 0 0)) 10), (MkCursor 2 1 0 0).
    split_and!; [reflexivity|unfold cursor_ok, is_u32; simpl; lia|reflexivity].
  - exists (MkDbEvent "tx" (MkDiagnosticEvent true (ex_event "op2")) (ex_cursor_string (MkCursor 2 1 1 0)) 10), (MkCursor 2 1 1 0).
    split_and!; [reflexivity|unfold cursor_ok, is_u32; simpl; lia|reflexivity].
Qed.

Lemma ex_page_ok r :
  ER_EndLedger r = 0 -> Filters r = Filters ex_request -> page_limit ex_events_handler r = 1 ->
  C_Ledger (page_start r) = 2 -> cursor_ok (H := ex_sdk) (page_start r) ->
  GetEventsRequest_Valid r 100 = None ->
  res_map (event_info (P := ex_protocol) (ER_Format r))
    (take 1 (matching r (page_start r) (MkCursor 3 0 0 0) (d_tab ex_events_db))) = Ok (ex_page r) ->
  page_ok (P := ex_protocol) ex_events_handler r ex_events_db ex_range (ex_page r).
Proof.
  intros He Hf Hl Hs Hok Hv Hinf. constructor.
  - exact Hv.
  - rewrite Hl. lia.
  - exists ex_events_db. split_and!; reflexivity.
  - rewrite Hs. simpl. lia.
  - exact Hok.
  - rewrite He. lia.
  - apply ex_events_stored.
  - rewrite Hf. eexists. reflexivity.
  - rewrite Hf. eexists. reflexivity.
  - rewrite Hl. replace (end_ledger r ex_range (page_start r)) with 3; [exact Hinf|].
    unfold end_ledger. rewrite Hs, He. reflexivity.
Qed.

Lemma ex_first_page_ok : page_ok (P := ex_protocol) ex_events_handler ex_request ex_events_db ex_range (ex_page ex_request).
Proof.
  apply ex_page_ok; [reflexivity..|unfold cursor_ok, is_u32; simpl; lia|reflexivity|].
  vm_compute. reflexivity.
Qed.

Lemma ex_second_page_ok :
  let r2 := next_page ex_request ex_first_cursor in
  page_ok (P := ex_protocol) ex_events_handler r2 ex_events_db ex_range (ex_page r2).
Proof.
  apply ex_page_ok; [reflexivity..|vm_compute; intuition congruence|reflexivity|].
  vm_compute. reflexivity.
Qed.

Lemma ex_first_run :
  zlen (ex_page ex_request) = 1 /\
  exists resp d', getEvents (P := ex_protocol) ex_events_handler ex_request ex_events_db = (Ok resp, d') /\
    ParseCursor (ERsp_Cursor resp) = Ok ex_first_cursor.
Proof.
  split; [vm_compute; reflexivity|].
  assert (match getEvents (P := ex_protocol) ex_events_handler ex_request ex_events_db with
          | (Ok resp, _) => ParseCursor (ERsp_Cursor resp) = Ok ex_first_cursor
          | _ => False
          end) as Hrun by (vm_compute; reflexivity).
  destruct (getEvents _ _ _) as [[resp|e|m] d']; [|done..]. by exists resp, d'.
Qed.

Lemma getEvents_page_witness :
  let e := end_ledger ex_request ex_range (page_start ex_request) in
  let all := matching (P := ex_protocol) ex_request (page_start ex_request) (MkCursor e 0 0 0) (d_tab ex_events_db) in
  exists resp d', getEvents (P := ex_protocol) ex_events_handler ex_request ex_events_db = (Ok resp, d') /\
    d_tab d' = d_tab ex_events_db /\
    res_map (event_info "") (take 1 all) = Ok (ERsp_Events resp) /\
    ERsp_LatestLedger resp = 2 /\ ERsp_OldestLedger resp = 2 /\ StronglySorted entry_lt all /\
    (if decide (zlen all < 1)
     then ERsp_Cursor resp = Cursor_String (MkCursor (u32 (e - 1)) (C_Tx MaxCursor) (C_Op MaxCursor) (C_Event MaxCursor))
     else exists en, all !! 0%nat = Some en /\ ERsp_Cursor resp = Cursor_String (en_cursor en)).
Proof.
  exact (getEvents_page (P := ex_protocol) ex_events_handler ex_request ex_events_db ex_range (ex_page ex_request) ex_first_page_ok).
Defined.

Lemma getEvents_next_page_witness :
  let r2 := next_page ex_request ex_first_cursor in
  exists resp2 d2', getEvents (P := ex_protocol) ex_events_handler r2 ex_events_db = (Ok resp2, d2') /\
    let e2 := MkCursor (end_ledger r2 ex_range (page_start r2)) 0 0 0 in
    res_map (event_info "") (take 2 (matching ex_request (page_start ex_request) e2 (d_tab ex_events_db)))
    = Ok (ex_page ex_request ++ ERsp_Events resp2).
Proof.
  apply (getEvents_next_page (P := ex_protocol) ex_events_handler ex_request ex_events_db ex_range (ex_page ex_request)
    ex_first_cursor ex_events_db ex_range (ex_page (next_page ex_request ex_first_cursor))).
  - apply ex_first_page_ok.
  - apply ex_first_run.
  - apply ex_first_run.
  - unfold is_u32. simpl. lia.
  - reflexivity.
  - simpl. lia.
  - apply ex_second_page_ok.
Defined.

End Witnesses.
