(* ===== verification/GetTransactionsMethod.v ===== *)
(** * The getTransactions and getTransaction handlers
    (internal/methods/get_transactions.go, get_transaction.go)

    getTransactions walks the stored ledgers from a start position and pages
    through their transactions; getTransaction looks one transaction up by its
    hash. *)

From S2P Require Import Prelude GoStd Sdk SdkExample LedgerBucketWindow Tables DbTransaction DbLedger Db Protocol ProtocolExample MethodJson.

Section Handler.
Context `{X : Sdk} `{P : !RpcProtocol} `{ND : Nondet}.

Record transactionsRPCHandler := MkTransactionsRPCHandler {
  th_maxLimit : Z;
  th_defaultLimit : Z;
  th_networkPassphrase : string;
}.

Definition uint32ToInt32 (value : Z) (fieldName : string) : Res Z :=
  match ParseInt (FormatUint value) 32 with
  | Ok parsed => Ok (i32 parsed)
  | _ => Err (EMsg (fieldName +:+ " exceeds supported range"))
  end.

Definition res_map_err {A} (g : error -> error) (r : Res A) : Res A :=
  match r with Err e => Err (g e) | r => r end.

(** [toid.New] *)
Definition toid_New (ledger tx op : Z) : TOID := MkTOID ledger tx op.

Definition initializePagination_txs (h : transactionsRPCHandler) (request : LedgersRequest)
    : Res (TOID * Z) :=
  startLedger ← res_map_err (jrpc_of InvalidParams) (uint32ToInt32 (LR_StartLedger request) "startLedger");
  let start := toid_New startLedger 1 1 in
  match LR_Pagination request with
  | None => Ok (start, th_defaultLimit h)
  | Some p =>
      start ← (if decide (LP_Cursor p <> "") then
                 cursorInt ← res_map_err (jrpc_of InvalidParams) (ParseInt (LP_Cursor p) 64);
                 let start := TOID_Parse cursorInt in
                 Ok (MkTOID (LedgerSequence32 start) (i32 (TransactionOrder start + 1)) (OperationOrder start))
               else Ok start);
      Ok (start, if decide (0 < LP_Limit p) then LP_Limit p else th_defaultLimit h)
  end.

Definition fetchLedgerData (ledgerSeq : Z) : M session LedgerCloseMeta :=
  found ← map_err (jrpc_of InternalError) (getLedgerFromDB ledgerSeq);
  match found with
  | None => fail (EJrpc InvalidParams ("database does not contain metadata for ledger: " +:+ pretty ledgerSeq))
  | Some ledger => mret ledger
  end.

(** The [TransactionInfo] of one transaction. *)
Definition transaction_info (format : string) (ledger : LedgerCloseMeta) (ingestTx : LedgerTransaction)
    : Res TransactionInfo :=
  tx ← res_map_err (jrpc_of InternalError) (ParseTransaction ledger ingestTx);
  details ← res_map_err (jrpc_of InternalError) (transaction_details format (TransactionHash tx) tx);
  Ok {| TI_Details := details; TI_LedgerCloseTime := CloseTime (T_Ledger tx) |}.

(** The loop [for i := startTxIdx; i <= txCount; i++]; [n] iterations are left. *)
Fixpoint tx_loop (format : string) (ledger : LedgerCloseMeta) (limitInt : Z) (n : nat) (i : Z)
    (reader : list (Res LedgerTransaction)) (cursor : TOID) (txns : list TransactionInfo)
    : Res (TOID * bool * list TransactionInfo) :=
  match n with
  | O => Ok (cursor, false, txns)
  | S n =>
      let cursor := MkTOID (LedgerSequence32 cursor) (i32 i) (OperationOrder cursor) in
      match reader with
      | [] => Ok (cursor, false, txns) (* io.EOF: break *)
      | Err e :: _ => if errors_Is e EOF then Ok (cursor, false, txns) else Err (jrpc_of InvalidParams e)
      | Panic m :: _ => Panic m
      | Ok ingestTx :: reader =>
          txInfo ← transaction_info format ledger ingestTx;
          let txns := txns ++ [txInfo] in
          if decide (limitInt <= zlen txns) then Ok (cursor, true, txns)
          else tx_loop format ledger limitInt n (i + 1) reader cursor txns
      end
  end.

Definition processTransactionsInLedger (h : transactionsRPCHandler) (ledger : LedgerCloseMeta)
    (start : TOID) (txns : list TransactionInfo) (limit : Z) (format : string)
    : Res (TOID * bool * list TransactionInfo) :=
  limitInt ← res_map_err (jrpc_of InvalidParams) (ParseInt (FormatUint limit) 64);
  reader ← res_map_err (jrpc_of InternalError)
             (NewLedgerTransactionReader (th_networkPassphrase h) ledger);
  ledgerSeqInt32 ← res_map_err (jrpc_of InternalError)
                     (uint32ToInt32 (LedgerSequence ledger) "ledger sequence");
  '(startTxIdx, reader) ←
    (if decide (ledgerSeqInt32 = LedgerSequence32 start) then
       let startTxIdx := TransactionOrder start in
       match reader_Seek reader (startTxIdx - 1) with
       | Ok reader => Ok (startTxIdx, reader)
       | Err ierr => if errors_Is ierr EOF then Ok (startTxIdx, reader) else Err (jrpc_of InternalError ierr)
       | Panic m => Panic m
       end
     else Ok (1, reader));
  let txCount := CountTransactions ledger in
  tx_loop format ledger limitInt (Z.to_nat (txCount - startTxIdx + 1)) startTxIdx reader
    (toid_New ledgerSeqInt32 0 1) txns.

(** The loop over the ledgers; the fuel covers every [ledgerSeq] up to the last
    ledger, after which only a wrap-around of the counter could go on. *)
Fixpoint ledgers_loop (h : transactionsRPCHandler) (start : TOID) (last limit : Z) (format : string)
    (fuel : nat) (ledgerSeq : Z) (cursor : TOID) (txns : list TransactionInfo)
    : M session (TOID * list TransactionInfo) :=
  match fuel with
  | O => panic "ledgerSeq wrapped around"
  | S fuel =>
      if decide (ledgerSeq <= i32 last) then
        if decide (ledgerSeq < 0) then
          fail (EJrpc InvalidParams "cursor ledger sequence cannot be negative")
        else
          ledger ← fetchLedgerData (u32 ledgerSeq);
          '(cursor, done, txns) ← of_res (processTransactionsInLedger h ledger start txns limit format);
          if (done : bool) then mret (cursor, txns)
          else ledgers_loop h start last limit format fuel (i32 (ledgerSeq + 1)) cursor txns
      else mret (cursor, txns)
  end.

(** The handler inside its read transaction. *)
Definition get_transactions (h : transactionsRPCHandler) (request : LedgersRequest) (readTx : ledgerReaderTx)
    : M session GetTransactionsResponse :=
  ledgerRange ← map_err (jrpc_of InternalError) (GetLedgerRange_tx readTx);
  let last := Sequence (LastLedger ledgerRange) in
  match GetTransactionsRequest_IsValid request (th_maxLimit h) (ToLedgerSeqRange ledgerRange) with
  | Some e => fail (jrpc_of InvalidRequest e)
  | None =>
      '(start, limit) ← of_res (initializePagination_txs h request);
      '(cursor, txns) ← ledgers_loop h start last limit (LR_Format request)
                          (S (Z.to_nat (i32 last - LedgerSequence32 start + 1))) (LedgerSequence32 start)
                          (toid_New 0 0 0) [];
      mret {| TRsp_Transactions := txns;
              TRsp_LatestLedger := last; TRsp_LatestLedgerCloseTime := CloseTime (LastLedger ledgerRange);
              TRsp_OldestLedger := Sequence (FirstLedger ledgerRange);
              TRsp_OldestLedgerCloseTime := CloseTime (FirstLedger ledgerRange);
              TRsp_Cursor := TOID_String cursor |}
  end.

Definition getTransactionsByLedgerSequence (h : transactionsRPCHandler) (tx_faults : list (option error))
    (request : LedgersRequest) : M DB GetTransactionsResponse :=
  readTx ← map_err (jrpc_of InternalError) (NewTx_reader tx_faults);
  of_res (fst (get_transactions h request readTx (rtx_tx readTx))).

(** ** getTransaction *)

(** The handler: [reader.GetTransaction] first, then the stored range. *)
Definition GetTransaction (passphrase : string) (request : GetTransactionRequest)
    : M DB GetTransactionResponse :=
  match IsValidFormat (GT_Format request) with
  | Some e => fail (jrpc_of InvalidParams e)
  | None =>
  if decide (Z.of_nat (String.length (GT_Hash request)) / 2 <> 32) then
    fail (EJrpc InvalidParams ("unexpected hash length ("
                               +:+ pretty (Z.of_nat (String.length (GT_Hash request))) +:+ ")"))
  else
    txHash ← map_err (fun e => EJrpc InvalidParams ("incorrect hash: " +:+ error_message e))
               (of_res (hex_Decode (GT_Hash request)));
    tx ← attempt (on_session (GetTransaction_db passphrase txHash));
    storeRange ← map_err (fun e => EJrpc InternalError ("unable to get ledger range: " +:+ error_message e))
                   GetLedgerRange_db;
    let response details closeTime :=
      {| GT_LatestLedger := Sequence (LastLedger storeRange);
         GT_LatestLedgerCloseTime := CloseTime (LastLedger storeRange);
         GT_OldestLedger := Sequence (FirstLedger storeRange);
         GT_OldestLedgerCloseTime := CloseTime (FirstLedger storeRange);
         GT_Details := details; GT_LedgerCloseTime := closeTime |} in
    match tx with
    | inr getTxErr =>
        if errors_Is getTxErr ErrNoTransaction then
          mret (response
            {| TD_Status := TransactionStatusNotFound; TD_TransactionHash := GT_Hash request;
               TD_ApplicationOrder := 0; TD_FeeBump := false;
               TD_EnvelopeXDR := ""; TD_EnvelopeJSON := ""; TD_ResultXDR := ""; TD_ResultJSON := "";
               TD_ResultMetaXDR := ""; TD_ResultMetaJSON := "";
               TD_DiagnosticEventsXDR := []; TD_DiagnosticEventsJSON := [];
               TD_Events := no_proto_events; TD_Ledger := 0 |} 0)
        else fail (jrpc_of InternalError getTxErr)
    | inl tx =>
        details ← map_err (jrpc_of InternalError)
                    (of_res (transaction_details (GT_Format request) (GT_Hash request) tx));
        mret (response details (CloseTime (T_Ledger tx)))
    end
  end.

End Handler.

(** ** The stream of stored transactions *)

(** The transactions of a ledger with their positions, from position [i] on. *)
Fixpoint number {A} (seq i : Z) (p : list A) : list (Z * Z * A) :=
  match p with
  | [] => []
  | a :: p => (seq, i, a) :: number seq (i + 1) p
  end.

Fixpoint stream {A} (seq : Z) (pages : list (list A)) : list (Z * Z * A) :=
  match pages with
  | [] => []
  | p :: pages => number seq 1 p ++ stream (seq + 1) pages
  end.

(** The stream of the ledgers from [seq] on, in the first one from position
    [order] on. *)
Definition stream_from {A} (seq order : Z) (pages : list (list A)) : list (Z * Z * A) :=
  match pages with
  | [] => []
  | p :: pages => number seq order (drop (Z.to_nat (order - 1)) p) ++ stream (seq + 1) pages
  end.

Section Stream.
Context {A : Type}.

Lemma length_number seq i (p : list A) : length (number seq i p) = length p.
Proof. revert i; induction p; intros i; simpl; [done|by rewrite IHp]. Qed.

Lemma number_values seq i (p : list A) : (number seq i p).*2 = p.
Proof. revert i; induction p; intros i; csimpl; [done|by rewrite IHp]. Qed.

Lemma drop_number seq i n (p : list A) : drop n (number seq i p) = number seq (i + Z.of_nat n) (drop n p).
Proof.
  revert i n; induction p as [|a p IH]; intros i n; [by destruct n|].
  destruct n as [|n]; [by rewrite Z.add_0_r|]. simpl. rewrite IH. f_equal. lia.
Qed.

Lemma number_lookup seq i (p : list A) k x :
  number seq i p !! k = Some x <-> exists a, p !! k = Some a /\ x = (seq, i + Z.of_nat k, a).
Proof.
  revert i k; induction p as [|a p IH]; intros i k; [naive_solver|].
  destruct k as [|k]; simpl.
  - rewrite Z.add_0_r. naive_solver.
  - rewrite IH. split; intros (b&Hb&->); exists b; (split; [done|]); do 2 f_equal; lia.
Qed.

(** What follows an element of the stream is the stream from the next position. *)
Lemma stream_from_next seq order (pages : list (list A)) n l i a :
  1 <= order -> stream_from seq order pages !! n = Some (l, i, a) ->
  seq <= l < seq + zlen pages /\ 1 <= i /\
  drop (S n) (stream_from seq order pages) = stream_from l (i + 1) (drop (Z.to_nat (l - seq)) pages).
Proof.
  revert seq order n. induction pages as [|p pages IH]; intros seq order n Ho; [done|].
  unfold stream_from at 1. intros Hn. apply lookup_app_Some in Hn as [Hn|[Hge Hn]].
  - apply number_lookup in Hn as (b&Hb&E). simplify_eq. pose proof (lookup_lt_Some _ _ _ Hb) as Hlt.
    rewrite length_drop in Hlt.
    split; [rewrite zlen_cons; pose proof (zlen_nonneg pages); lia|]. split; [lia|].
    replace (Z.to_nat (seq - seq)) with 0%nat by lia. simpl.
    rewrite drop_app_le by (rewrite length_number, length_drop; lia). f_equal.
    rewrite drop_number, drop_drop. f_equal; [lia|]. f_equal. lia.
  - rewrite length_number in *.
    assert (stream_from (seq + 1) 1 pages = stream (seq + 1) pages) as Es by (by destruct pages).
    rewrite <- Es in Hn. apply IH in Hn as (H1&H2&H3); [|lia].
    rewrite zlen_cons. split; [lia|]. split; [done|]. simpl.
    rewrite drop_app_ge by (rewrite length_number; lia). rewrite length_number, <- Es.
    replace (S n - length (drop (Z.to_nat (order - 1)) p))%nat with (S (n - length (drop (Z.to_nat (order - 1)) p))) by lia.
    rewrite H3. replace (Z.to_nat (l - seq)) with (S (Z.to_nat (l - (seq + 1)))) by lia. done.
Qed.

(** An element of the stream is a transaction of one of the ledgers. *)
Lemma stream_from_position seq order (pages : list (list A)) n l i a :
  1 <= order -> stream_from seq order pages !! n = Some (l, i, a) -> exists p, p ∈ pages /\ i <= zlen p.
Proof.
  revert seq order n. induction pages as [|p pages IH]; intros seq order n Ho; [done|].
  unfold stream_from at 1. intros Hn. apply lookup_app_Some in Hn as [Hn|[Hge Hn]].
  - apply number_lookup in Hn as (b&Hb&E). simplify_eq. pose proof (lookup_lt_Some _ _ _ Hb) as Hlt.
    rewrite length_drop in Hlt. exists p. split; [by left|]. llia.
  - assert (stream_from (seq + 1) 1 pages = stream (seq + 1) pages) as Es by (by destruct pages).
    rewrite <- Es in Hn. apply IH in Hn as (q&Hq&Hi); [|lia]. exists q. split; [by right|done].
Qed.

End Stream.

Section Pages.
Context `{X : Sdk} `{P : !RpcProtocol} `{ND : Nondet} `{RL : !SdkReaderLaws} `{SL : !SdkSeekLaws}.

(** The stored ledger [seq] holds the transactions rendered as [infos]. *)
Definition ledger_page (pass fmt : string) (t : tables) (seq : Z) (infos : list TransactionInfo) : Prop :=
  exists b lcm txs, t_ledgers t !! seq = Some b /\ lcm_Unmarshal b = Ok lcm /\ LedgerSequence lcm = seq /\
    NewLedgerTransactionReader pass lcm = Ok (Ok <$> txs) /\
    res_map (transaction_info fmt lcm) txs = Ok infos.

Lemma tx_loop_spec fmt lcm limit i txs infos cursor txns :
  res_map (transaction_info fmt lcm) txs = Ok infos ->
  zlen txns < limit -> 0 <= i -> i + zlen txs < 2 ^ 31 ->
  let room := limit - zlen txns in
  tx_loop fmt lcm limit (length txs) i (Ok <$> txs) cursor txns =
    if decide (room <= zlen infos)
    then Ok (MkTOID (LedgerSequence32 cursor) (i + room - 1) (OperationOrder cursor), true,
             txns ++ take (Z.to_nat room) infos)
    else Ok (if decide (zlen infos = 0) then cursor
             else MkTOID (LedgerSequence32 cursor) (i + zlen infos - 1) (OperationOrder cursor), false,
             txns ++ infos).
Proof.
  revert i infos cursor txns; induction txs as [|tx txs IH]; intros i infos cursor txns; csimpl.
  { intros [= <-] ??? . rewrite zlen_nil. rewrite decide_False, decide_True by lia. by rewrite app_nil_r. }
  unfold mbind, Res_bind. destruct (transaction_info fmt lcm tx) as [info|e|m]; [|done..].
  destruct (res_map (transaction_info fmt lcm) txs) as [infos'|e|m] eqn:E; [|done..].
  intros [= <-] Hl Hi Hb. rewrite zlen_cons in Hb. pose proof (zlen_nonneg txs).
  pose proof (zlen_nonneg infos'). autorewrite with go.
  rewrite i32_small by (unfold_ints; lia).
  case_decide as Hd.
  - rewrite decide_True by lia. replace (limit - zlen txns) with 1 by lia. simpl.
    by replace (i + 1 - 1) with i by lia.
  - rewrite (IH (i + 1) infos') by (autorewrite with go; done || lia). autorewrite with go. simpl.
    replace (limit - (zlen txns + (0 + 1))) with (limit - zlen txns - 1) by lia.
    destruct (decide (limit - zlen txns - 1 <= zlen infos')).
    + rewrite decide_True by lia. replace (Z.to_nat (limit - zlen txns)) with (S (Z.to_nat (limit - zlen txns - 1))) by lia.
      simpl. rewrite <- app_assoc. simpl.
      by replace (i + 1 + (limit - zlen txns - 1) - 1) with (i + (limit - zlen txns) - 1) by lia.
    + rewrite (decide_False (P := limit - zlen txns <= zlen infos' + 1)) by lia.
      rewrite (decide_False (P := zlen infos' + 1 = 0)) by lia.
      rewrite <- app_assoc. simpl. replace (i + 1 + zlen infos' - 1) with (i + (zlen infos' + 1) - 1) by lia.
      case_decide as E0; [|done]. by replace (i + (zlen infos' + 1) - 1) with i by lia.
Qed.

Lemma uint32ToInt32_ok v n : 0 <= v < 2 ^ 31 -> uint32ToInt32 v n = Ok v.
Proof.
  intros Hv. unfold uint32ToInt32. rewrite ParseInt_FormatUint by (simpl; lia).
  rewrite i32_small; [done|]. unfold_ints. lia.
Qed.

(** The position in a ledger where reading starts. *)
Definition first_order (start : TOID) (seq : Z) : Z :=
  if decide (seq = LedgerSequence32 start) then TransactionOrder start else 1.

Lemma processTransactionsInLedger_spec h fmt t seq infos start txns limit b lcm txs :
  t_ledgers t !! seq = Some b -> LedgerSequence lcm = seq ->
  NewLedgerTransactionReader (th_networkPassphrase h) lcm = Ok (Ok <$> txs) ->
  res_map (transaction_info fmt lcm) txs = Ok infos ->
  0 <= seq < 2 ^ 31 -> 1 <= first_order start seq -> first_order start seq + zlen infos < 2 ^ 31 ->
  zlen txns < limit < 2 ^ 63 ->
  let o := first_order start seq in
  let avail := drop (Z.to_nat (o - 1)) infos in
  let room := limit - zlen txns in
  processTransactionsInLedger h lcm start txns limit fmt =
    if decide (room <= zlen avail)
    then Ok (MkTOID seq (o + room - 1) 1, true, txns ++ take (Z.to_nat room) avail)
    else Ok (MkTOID seq (if decide (zlen avail = 0) then 0 else o + zlen avail - 1) 1, false, txns ++ avail).
Proof.
  intros Hb Hseq Hrd Hinf Hs Ho Hbig Hlim o avail room. unfold processTransactionsInLedger.
  pose proof (zlen_nonneg txns). pose proof (res_map_length _ _ _ Hinf) as Hlen.
  rewrite ParseInt_FormatUint by (simpl; lia). simpl. rewrite Hrd. simpl.
  rewrite Hseq, uint32ToInt32_ok by done. simpl.
  pose proof (reader_count _ _ _ Hrd) as Hcnt. unfold zlen in Hcnt. rewrite length_fmap in Hcnt.
  assert (res_map (transaction_info fmt lcm) (drop (Z.to_nat (o - 1)) txs) = Ok avail) as Hav.
  { rewrite <- (take_drop (Z.to_nat (o - 1)) txs) in Hinf. apply res_map_app in Hinf as (r1&r2&H1&H2&->).
    unfold avail. pose proof (res_map_length _ _ _ H1) as Hl1. rewrite length_take in Hl1.
    destruct (decide (Z.to_nat (o - 1) <= length txs)%nat).
    - by rewrite drop_app_length' by lia.
    - rewrite drop_ge in H2 by lia. simpl in H2. simplify_eq. rewrite app_nil_r.
      rewrite drop_ge, drop_ge by (rewrite ?app_nil_r in *; lia). done. }
  assert (exists rd, (if decide (seq = LedgerSequence32 start) then
       match reader_Seek (Ok <$> txs) (TransactionOrder start - 1) with
       | Ok reader => Ok (TransactionOrder start, reader)
       | Err ierr => if errors_Is ierr EOF then Ok (TransactionOrder start, Ok <$> txs) else Err (jrpc_of InternalError ierr)
       | Panic m => Panic m
       end else Ok (1, Ok <$> txs)) = Ok (o, rd) /\
    (Z.to_nat (CountTransactions lcm - o + 1) = 0%nat \/ rd = Ok <$> drop (Z.to_nat (o - 1)) txs)) as (rd&->&Hrd').
  { unfold o, first_order in *. case_decide as Hd; [|exists (Ok <$> txs); split; [done|by right]].
    destruct (decide (TransactionOrder start - 1 < zlen txs)) as [Hin|Hout].
    - rewrite seek_in_range by (unfold zlen in *; rewrite length_fmap; lia). rewrite <- fmap_drop. eauto.
    - destruct (seek_beyond (Ok <$> txs) (TransactionOrder start - 1)) as [->| ->];
        [unfold zlen in *; rewrite length_fmap; lia| |]; (eexists; split; [done|]); left; unfold zlen in *; lia. }
  simpl. assert (Z.to_nat (CountTransactions lcm - o + 1) = length (drop (Z.to_nat (o - 1)) txs)) as En.
  { rewrite length_drop, Hcnt. lia. }
  pose proof (res_map_length _ _ _ Hav) as Hlav.
  assert (tx_loop fmt lcm limit (Z.to_nat (CountTransactions lcm - o + 1)) o rd (toid_New seq 0 1) txns =
          tx_loop fmt lcm limit (length (drop (Z.to_nat (o - 1)) txs)) o (Ok <$> drop (Z.to_nat (o - 1)) txs) (toid_New seq 0 1) txns) as ->.
  { destruct Hrd' as [E0| ->]; [|by rewrite En]. rewrite E0. rewrite E0 in En. by rewrite <- En. }
  rewrite (tx_loop_spec _ _ _ _ _ avail) by (done || lia ||
    (rewrite length_drop in *; unfold zlen in *; rewrite length_drop; lia)).
  fold room. simpl. case_decide; [done|]. by case_decide.
Qed.

(** ** The walk over the ledgers *)

Definition pages_ok (pass fmt : string) (t : tables) (seq : Z) (pages : list (list TransactionInfo)) : Prop :=
  forall k p, pages !! k = Some p -> ledger_page pass fmt t (seq + Z.of_nat k) p.

(** The cursor left by ledgers that were read to their end. *)
Fixpoint end_cursor (start : TOID) (seq : Z) (cursor : TOID) (pages : list (list TransactionInfo)) : TOID :=
  match pages with
  | [] => cursor
  | p :: pages =>
      let o := first_order start seq in
      let n := zlen (drop (Z.to_nat (o - 1)) p) in
      end_cursor start (seq + 1) (MkTOID seq (if decide (n = 0) then 0 else o + n - 1) 1) pages
  end.

(** The cursor after at most [room] transactions of the stream. *)
Definition page_toid (room : Z) (s : list (Z * Z * TransactionInfo)) (otherwise : TOID) : TOID :=
  match s !! Z.to_nat (room - 1) with
  | Some (l, i, _) => MkTOID l i 1
  | None => otherwise
  end.

Lemma fetchLedgerData_ok seq b lcm s :
  0 <= seq < 2 ^ 31 -> s_faults s = [] -> t_ledgers (s_tab s) !! seq = Some b -> lcm_Unmarshal b = Ok lcm ->
  fetchLedgerData (u32 seq) s = (Ok lcm, s).
Proof.
  intros Hs Hf Hl Hu. rewrite u32_small by (unfold_ints; lia). unfold fetchLedgerData, map_err, mbind, M_bind.
  by rewrite (getLedgerFromDB_ok _ _ _ _ Hf Hl Hu).
Qed.

Lemma ledgers_loop_spec h start last limit fmt s seq cursor txns pages :
  s_faults s = [] -> pages_ok (th_networkPassphrase h) fmt (s_tab s) seq pages ->
  0 <= LedgerSequence32 start <= seq -> 1 <= TransactionOrder start ->
  Forall (fun p => TransactionOrder start + zlen p < 2 ^ 31) pages ->
  zlen pages = last - seq + 1 -> 0 <= last < 2 ^ 31 - 1 ->
  zlen txns < limit < 2 ^ 63 ->
  let st := stream_from seq (first_order start seq) pages in
  let room := limit - zlen txns in
  ledgers_loop h start last limit fmt (S (length pages)) seq cursor txns s =
    (Ok (page_toid room st (end_cursor start seq cursor pages), txns ++ (take (Z.to_nat room) st).*2), s).
Proof.
  intros Hf. revert seq cursor txns.
  induction pages as [|p pages IH]; intros seq cursor txns Hp Hst Ho Hsz Hn Hlast Hlim; cbv zeta.
  { rewrite zlen_nil in Hn. cbn [ledgers_loop length]. rewrite i32_small by (unfold_ints; lia).
    rewrite decide_False by lia. unfold page_toid, stream_from. rewrite lookup_nil, take_nil. simpl.
    by rewrite app_nil_r. }
  rewrite zlen_cons in Hn. pose proof (zlen_nonneg pages). apply Forall_cons in Hsz as [Hsz1 Hsz].
  destruct (Hp 0%nat p eq_refl) as (b&lcm&txs&Hb&Hu&Hseq&Hrd&Hinf). rewrite Z.add_0_r in Hb, Hseq.
  assert (1 <= first_order start seq <= TransactionOrder start) as Hfo by (unfold first_order; case_decide; lia).
  change (length (p :: pages)) with (S (length pages)).
  remember (S (length pages)) as fuel eqn:Efuel. cbn [ledgers_loop].
  rewrite i32_small by (unfold_ints; lia). rewrite decide_True by lia.
  rewrite decide_False by lia. unfold mbind, M_bind.
  rewrite (fetchLedgerData_ok seq b lcm s) by (done || lia). unfold of_res.
  rewrite (processTransactionsInLedger_spec h fmt (s_tab s) seq p start txns limit b lcm txs) by (done || lia).
  set (o := first_order start seq) in *. set (avail := drop (Z.to_nat (o - 1)) p).
  unfold stream_from. fold o. fold avail.
  pose proof (zlen_nonneg avail). pose proof (zlen_nonneg txns).
  assert (length (number seq o avail) = length avail) as Hnum by apply length_number.
  case_decide as Hd.
  - unfold mret, M_ret. do 3 f_equal.
    + unfold page_toid. rewrite lookup_app_l by llia.
      destruct (lookup_lt_is_Some_2 avail (Z.to_nat (limit - zlen txns - 1))) as [a Ha]; [llia|].
      rewrite (proj2 (number_lookup seq o avail _ (seq, o + Z.of_nat (Z.to_nat (limit - zlen txns - 1)), a))) by eauto.
      f_equal. lia.
    + f_equal. rewrite take_app_le by llia. rewrite fmap_take, number_values. done.
  - assert (stream_from (seq + 1) (first_order start (seq + 1)) pages = stream (seq + 1) pages) as Es.
    { unfold first_order. rewrite decide_False by lia. by destruct pages. }
    rewrite i32_small by (unfold_ints; lia). subst fuel. cbn beta iota.
    rewrite IH; [|by intros k q Hk; specialize (Hp (S k) q Hk); replace (seq + 1 + Z.of_nat k) with (seq + Z.of_nat (S k)) by lia
      |lia|done|done|lia|done|autorewrite with go; lia].
    rewrite Es. autorewrite with go. do 3 f_equal.
    + unfold page_toid. rewrite lookup_app_r by llia. rewrite Hnum.
      replace (Z.to_nat (limit - (zlen txns + zlen avail) - 1)) with (Z.to_nat (limit - zlen txns - 1) - length avail)%nat by llia.
      done.
    + rewrite <- app_assoc. f_equal. rewrite take_app_ge by llia. rewrite fmap_app, number_values, Hnum.
      do 3 f_equal. llia.
Qed.

(** What a page needs: the stored ledgers from the start of the page to the
    latest one, of sizes that fit the position fields. *)
Record walk_ok (h : transactionsRPCHandler) (d : DB) (range : LedgerRange) (fmt : string) (start : TOID)
    (pages : list (list TransactionInfo)) : Prop := {
  wo_read : read_ok d range;
  wo_pages : pages_ok (th_networkPassphrase h) fmt (d_tab d) (LedgerSequence32 start) pages;
  wo_start : 0 <= LedgerSequence32 start /\ 1 <= TransactionOrder start;
  wo_length : zlen pages = Sequence (LastLedger range) - LedgerSequence32 start + 1;
  wo_sizes : Forall (fun p => zlen p <= TransactionMask /\ TransactionOrder start + zlen p < 2 ^ 31) pages;
  wo_last : 0 <= Sequence (LastLedger range) < 2 ^ 31 - 1;
}.

Lemma getTransactions_run h d range r start limit pages :
  walk_ok h d range (LR_Format r) start pages ->
  GetTransactionsRequest_IsValid r (th_maxLimit h) (ToLedgerSeqRange range) = None ->
  initializePagination_txs h r = Ok (start, limit) -> 0 < limit < 2 ^ 63 ->
  let st := stream_from (LedgerSequence32 start) (TransactionOrder start) pages in
  exists d', getTransactionsByLedgerSequence h [] r d = (Ok {|
      TRsp_Transactions := (take (Z.to_nat limit) st).*2;
      TRsp_LatestLedger := Sequence (LastLedger range);
      TRsp_LatestLedgerCloseTime := CloseTime (LastLedger range);
      TRsp_OldestLedger := Sequence (FirstLedger range);
      TRsp_OldestLedgerCloseTime := CloseTime (FirstLedger range);
      TRsp_Cursor := TOID_String (page_toid limit st
        (end_cursor start (LedgerSequence32 start) (toid_New 0 0 0) pages)) |}, d').
Proof.
  intros [(rt&d1&Hnew&Hr&Ht&Hf) Hp [Hs Ho] Hlen Hsz Hlast] Hv Hi Hlim st. exists d1.
  unfold getTransactionsByLedgerSequence, map_err, mbind, M_bind. rewrite Hnew. unfold of_res.
  unfold get_transactions, map_err, mbind, M_bind. rewrite Hr, Hv. unfold of_res. rewrite Hi.
  cbn beta iota. rewrite i32_small by (unfold_ints; lia). rewrite <- Hlen.
  replace (Z.to_nat (zlen pages)) with (length pages) by llia.
  rewrite <- Ht in Hp.
  rewrite (ledgers_loop_spec _ _ _ _ _ _ _ _ _ pages Hf Hp); [|lia|done| |lia|lia|rewrite zlen_nil; lia].
  2: { eapply Forall_impl; [exact Hsz|]. simpl. tauto. }
  unfold first_order. rewrite decide_True by done. rewrite zlen_nil, Z.sub_0_r. done.
Qed.

(** The request for the page after a cursor. *)
Definition page_after (cursor fmt : string) (limit : Z) : LedgersRequest :=
  {| LR_StartLedger := 0; LR_Pagination := Some {| LP_Cursor := cursor; LP_Limit := limit |}; LR_Format := fmt |}.

Context `{TL : !SdkToidLaws}.

Lemma initializePagination_after h fmt limit l i :
  0 <= l < 2 ^ 31 -> 0 <= i <= TransactionMask -> i < 2 ^ 31 - 1 -> 1 <= OperationMask -> 0 < limit ->
  initializePagination_txs h (page_after (TOID_String (MkTOID l i 1)) fmt limit) = Ok (MkTOID l (i + 1) 1, limit).
Proof.
  intros Hl Hi Hi' Hop Hlim. unfold initializePagination_txs, page_after.
  cbn [LR_StartLedger LR_Pagination LP_Cursor LP_Limit]. rewrite uint32ToInt32_ok by lia. simpl.
  destruct (toid_roundtrip (MkTOID l i 1)) as (Hne&z&Hz&Hp); [done|done|simpl; lia|].
  rewrite decide_True by done. rewrite Hz. simpl. rewrite Hp. simpl.
  rewrite i32_small by (unfold_ints; lia). by rewrite decide_True by done.
Qed.

(** C17: A page of getTransactions holds exactly the next [limit] stored
    transactions from the start position, in ledger and application order, read
    from the transaction metas of the stored ledgers.  After a full page its
    cursor names the last transaction returned, and the request that passes it
    back starts at the first transaction that was not. *)
Theorem getTransactions_page h d range r start limit pages :
  walk_ok h d range (LR_Format r) start pages ->
  GetTransactionsRequest_IsValid r (th_maxLimit h) (ToLedgerSeqRange range) = None ->
  initializePagination_txs h r = Ok (start, limit) -> 0 < limit < 2 ^ 63 -> 1 <= OperationMask ->
  let st := stream_from (LedgerSequence32 start) (TransactionOrder start) pages in
  exists resp d', getTransactionsByLedgerSequence h [] r d = (Ok resp, d') /\
    TRsp_Transactions resp = (take (Z.to_nat limit) st).*2 /\
    TRsp_LatestLedger resp = Sequence (LastLedger range) /\
    TRsp_OldestLedger resp = Sequence (FirstLedger range) /\
    (limit <= zlen st -> exists l i a, st !! Z.to_nat (limit - 1) = Some (l, i, a) /\
       TRsp_Cursor resp = TOID_String (MkTOID l i 1) /\
       initializePagination_txs h (page_after (TRsp_Cursor resp) (LR_Format r) limit)
         = Ok (MkTOID l (i + 1) 1, limit) /\
       stream_from l (i + 1) (drop (Z.to_nat (l - LedgerSequence32 start)) pages) = drop (Z.to_nat limit) st).
Proof.
  intros H Hv Hi Hlim Hop st. destruct (getTransactions_run _ _ _ _ _ _ _ H Hv Hi Hlim) as (d'&Hrun).
  fold st in Hrun. eexists _, d'. split; [exact Hrun|]. simpl. split_and!; [done..|]. intros Hfull.
  destruct (lookup_lt_is_Some_2 st (Z.to_nat (limit - 1))) as [[[l i] a] Hst]; [llia|].
  exists l, i, a. split; [done|].
  destruct H as [_ _ [Hs Ho] Hlen Hsz Hlast]. rewrite Forall_forall in Hsz.
  destruct (stream_from_next _ _ _ _ _ _ _ Ho Hst) as (Hl&Hi1&Hrest).
  destruct (stream_from_position _ _ _ _ _ _ _ Ho Hst) as (p&Hp&Hip). specialize (Hsz p Hp).
  assert (page_toid limit st (end_cursor start (LedgerSequence32 start) (toid_New 0 0 0) pages) = MkTOID l i 1) as ->.
  { unfold page_toid. by rewrite Hst. }
  split; [done|]. split; [apply initializePagination_after; lia|]. rewrite <- Hrest. f_equal. lia.
Qed.

(** Polling past the newest transaction repeats transactions.  When a client
    has read every transaction of the latest ledger and asks for more, the page
    is empty, but its cursor points before the first transaction of that ledger:
    passing this cursor back returns the ledger's transactions a second time. *)
Theorem getTransactions_empty_page_rewinds h d range fmt limit p :
  let last := Sequence (LastLedger range) in
  read_ok d range -> 0 <= last < 2 ^ 31 - 1 ->
  ledger_page (th_networkPassphrase h) fmt (d_tab d) last p ->
  p <> [] -> zlen p <= TransactionMask -> 2 * zlen p + 1 < 2 ^ 31 -> 1 <= OperationMask -> 0 < limit < 2 ^ 63 ->
  (forall c, c <> "" ->
     GetTransactionsRequest_IsValid (page_after c fmt limit) (th_maxLimit h) (ToLedgerSeqRange range) = None) ->
  let caught_up := TOID_String (MkTOID last (zlen p) 1) in
  exists resp d', getTransactionsByLedgerSequence h [] (page_after caught_up fmt limit) d = (Ok resp, d') /\
    TRsp_Transactions resp = [] /\ TRsp_Cursor resp = TOID_String (MkTOID last 0 1) /\
    exists resp2 d2, getTransactionsByLedgerSequence h [] (page_after (TRsp_Cursor resp) fmt limit) d = (Ok resp2, d2) /\
      TRsp_Transactions resp2 = take (Z.to_nat limit) p.
Proof.
  intros last Hr Hlast Hp Hne Hmask Hsz Hop Hlim Hv caught_up. pose proof (zlen_nonneg p).
  assert (forall i, 0 <= i <= zlen p -> exists d',
    getTransactionsByLedgerSequence h [] (page_after (TOID_String (MkTOID last i 1)) fmt limit) d = (Ok {|
      TRsp_Transactions := (take (Z.to_nat limit) (stream_from last (i + 1) [p])).*2;
      TRsp_LatestLedger := last; TRsp_LatestLedgerCloseTime := CloseTime (LastLedger range);
      TRsp_OldestLedger := Sequence (FirstLedger range);
      TRsp_OldestLedgerCloseTime := CloseTime (FirstLedger range);
      TRsp_Cursor := TOID_String (page_toid limit (stream_from last (i + 1) [p])
        (end_cursor (MkTOID last (i + 1) 1) last (toid_New 0 0 0) [p])) |}, d')) as Hrun.
  { intros i Hi.
    apply (getTransactions_run h d range (page_after (TOID_String (MkTOID last i 1)) fmt limit) (MkTOID last (i + 1) 1));
      [|apply Hv, toid_roundtrip; simpl; lia|apply initializePagination_after; lia|lia].
    split; simpl; [done| |lia|fold last; rewrite zlen_cons, zlen_nil; lia|repeat constructor; lia|done].
    intros [|k] q Hq; [|done]. simpl in Hq. simplify_eq. by rewrite Z.add_0_r. }
  destruct (Hrun (zlen p)) as [d1 H1]; [lia|]. destruct (Hrun 0) as [d2 H2]; [lia|].
  assert (stream_from last (zlen p + 1) [p] = []) as E1.
  { unfold stream_from. replace (Z.to_nat (zlen p + 1 - 1)) with (length p) by llia. by rewrite drop_all. }
  rewrite E1 in H1. eexists _, d1. split; [exact H1|]. simpl. rewrite take_nil. split; [done|].
  assert (page_toid limit [] (end_cursor (MkTOID last (zlen p + 1) 1) last (toid_New 0 0 0) [p]) = MkTOID last 0 1) as E2.
  { unfold page_toid. simpl. unfold first_order. simpl. rewrite (decide_True (P := last = last)) by done.
    replace (Z.to_nat (zlen p + 1 - 1)) with (length p) by llia. rewrite drop_all. by rewrite decide_True. }
  simpl in E2. rewrite E2. split; [done|]. eexists _, d2. split; [exact H2|]. simpl.
  rewrite app_nil_r, fmap_take, number_values. done.
Qed.

(** ** Looking one transaction up *)

Lemma ParseTransaction_successful lcm tx t : ParseTransaction lcm tx = Ok t -> T_Successful t = tx_Successful tx.
Proof.
  unfold ParseTransaction, mbind, Res_bind. destruct (parse_int32 _); [|done].
  repeat match goal with |- context [match ?x with Ok _ => _ | Err _ => _ | Panic _ => _ end] =>
    destruct x as [?|?|?]; [|done..] end.
  repeat case_match; try done; by intros [= <-].
Qed.

Lemma transaction_details_status fmt hash t details :
  transaction_details fmt hash t = Ok details ->
  TD_Status details = (if T_Successful t then TransactionStatusSuccess else TransactionStatusFailed) /\
  TD_TransactionHash details = hash.
Proof.
  unfold transaction_details. case_decide; [|by intros [= <-]].
  unfold mbind, Res_bind. repeat case_match; try done; by intros [= <-].
Qed.

Lemma GetTransaction_db_missing pass hash s :
  s_faults s = [] -> hash ∉ row_hash <$> t_txs (s_tab s) ->
  fst (GetTransaction_db pass hash s) = Err (ESentinel ErrNoTransaction).
Proof.
  intros Hf Hn. unfold GetTransaction_db, getTransactionByHash, sql_select, statement. unfold_m.
  rewrite Hf. simpl. unfold join_rows. rewrite filter_none.
  - assert (scan_order (A := tx_row) [] = []) as -> by (apply Permutation_nil_r, scan_order_perm). done.
  - intros r Hr E. apply Hn. rewrite <- E. by apply list_elem_of_fmap_2.
Qed.

(** The handler on a well-formed hash, given the outcome of the lookup. *)
Lemma GetTransaction_handler pass fmt hash cache t :
  IsValidFormat fmt = None -> String.length hash = 32%nat ->
  latestLedgerSeq cache <> 0 -> firstLedgerSeq cache <> 0 ->
  let d := MkDB (MkSession t []) cache in
  match fst (GetTransaction_db pass hash (MkSession t [])) with
  | Ok tx => forall details, transaction_details fmt (hex_EncodeToString hash) tx = Ok details ->
      exists resp d', GetTransaction pass (MkGetTransactionRequest (hex_EncodeToString hash) fmt) d = (Ok resp, d') /\
        GT_Details resp = details /\ GT_LatestLedger resp = latestLedgerSeq cache /\
        GT_OldestLedger resp = firstLedgerSeq cache
  | Err e => errors_Is e ErrNoTransaction = true ->
      exists resp d', GetTransaction pass (MkGetTransactionRequest (hex_EncodeToString hash) fmt) d = (Ok resp, d') /\
        TD_Status (GT_Details resp) = TransactionStatusNotFound /\ GT_LatestLedger resp = latestLedgerSeq cache /\
        GT_OldestLedger resp = firstLedgerSeq cache
  | Panic _ => True
  end.
Proof.
  intros Hfmt Hlen Hl Hfi d.
  destruct (GetTransaction_db pass hash (MkSession t [])) as [r s'] eqn:E. simpl.
  assert (Z.of_nat (String.length (hex_EncodeToString hash)) / 2 = 32) as H32.
  { rewrite hex_EncodeToString_length, Hlen. reflexivity. }
  destruct r as [tx|e|m]; [|destruct (errors_Is e ErrNoTransaction) eqn:He; [intros _|done]|done].
  - intros details Hdet. eexists _, _. unfold GetTransaction. simpl. rewrite Hfmt.
    rewrite (decide_False (P := _ <> 32)) by tauto. unfold_m. rewrite hex_Decode_Encode.
    unfold on_session, attempt. unfold_m. simpl. rewrite E. unfold GetLedgerRange_db. unfold_m. simpl.
    rewrite (decide_True (P := _ /\ _)) by done. simpl. rewrite Hdet. split; [reflexivity|done].
  - eexists _, _. unfold GetTransaction. simpl. rewrite Hfmt.
    rewrite (decide_False (P := _ <> 32)) by tauto. unfold_m. rewrite hex_Decode_Encode.
    unfold on_session, attempt. unfold_m. simpl. rewrite E. unfold GetLedgerRange_db. unfold_m. simpl.
    rewrite (decide_True (P := _ /\ _)) by done. simpl. rewrite He. split; [reflexivity|done].
Qed.

(** C18: getTransaction answers for what was ingested.  Once a ledger's
    transactions are written, asking for any hash of any of them (either hash of
    a fee bump) returns that transaction, reported as successful or failed as it
    was applied, and asking for a hash that was never written returns
    NOT_FOUND; both report the stored range. *)
Theorem GetTransaction_answers lcm txs h s blob cache fmt :
  th_stmtCache h = true ->
  NewLedgerTransactionReader (th_passphrase h) lcm = Ok (Ok <$> txs) ->
  NoDup (row_hash <$> (all_tx_rows (h, s) ++ ledger_tx_rows lcm txs)) ->
  (length (th_pending h) < maxTxRowsPerBatch)%nat -> s_faults s = [] ->
  t_ledgers (s_tab s) !! LedgerSequence lcm = Some blob -> lcm_Unmarshal blob = Ok lcm ->
  IsValidFormat fmt = None -> latestLedgerSeq cache <> 0 -> firstLedgerSeq cache <> 0 ->
  exists h' s', (InsertTransactions lcm ;; flushPending_txs) (h, s) = (Ok tt, (h', s')) /\
    let ask hash := GetTransaction (th_passphrase h) (MkGetTransactionRequest (hex_EncodeToString hash) fmt)
                      (MkDB (MkSession (s_tab s') []) cache) in
    (forall tx hash t details, tx ∈ txs -> hash ∈ (lookup_entries tx).*1 -> String.length hash = 32%nat ->
       ParseTransaction lcm tx = Ok t -> transaction_details fmt (hex_EncodeToString hash) t = Ok details ->
       exists resp d', ask hash = (Ok resp, d') /\ GT_Details resp = details /\
         TD_Status details = (if tx_Successful tx then TransactionStatusSuccess else TransactionStatusFailed) /\
         GT_LatestLedger resp = latestLedgerSeq cache /\ GT_OldestLedger resp = firstLedgerSeq cache) /\
    (forall hash, hash ∉ row_hash <$> t_txs (s_tab s') -> String.length hash = 32%nat ->
       exists resp d', ask hash = (Ok resp, d') /\ TD_Status (GT_Details resp) = TransactionStatusNotFound /\
         GT_LatestLedger resp = latestLedgerSeq cache /\ GT_OldestLedger resp = firstLedgerSeq cache).
Proof.
  intros Hc Hrd Hnd Hlen Hf Hblob Hun Hfmt Hl Hfi.
  destruct (GetTransaction_found lcm txs h s blob) as (h'&s'&Hrun&Hfound); [done..|].
  exists h', s'. split; [done|]. intros ask. split.
  - intros tx hash t details Htx Hh H32 Hp Hdet.
    pose proof (GetTransaction_handler (th_passphrase h) fmt hash cache (s_tab s') Hfmt H32 Hl Hfi) as Hh2.
    cbv zeta in Hh2. rewrite (Hfound _ _ Htx Hh), Hp in Hh2. destruct (Hh2 _ Hdet) as (resp&d'&H1&H2&H3&H4).
    exists resp, d'. split_and!; try done. destruct (transaction_details_status _ _ _ _ Hdet) as [-> _].
    by rewrite (ParseTransaction_successful _ _ _ Hp).
  - intros hash Hn H32.
    pose proof (GetTransaction_handler (th_passphrase h) fmt hash cache (s_tab s') Hfmt H32 Hl Hfi) as Hh2.
    cbv zeta in Hh2. rewrite GetTransaction_db_missing in Hh2 by done. by apply Hh2.
Qed.

End Pages.

Section Witnesses.

(** Ledgers 3 and 4, of two transactions each. *)
Definition ex_two_ledgers : DB :=
  MkDB (MkSession (set_ledgers {[3 := bits 32 3; 4 := bits 32 4]} empty_tables) []) (MkDbCache 4 20 3 15).

Definition ex_txs_handler : transactionsRPCHandler := MkTransactionsRPCHandler 100 10 "".

Definition ex_infos (l : Z) : list TransactionInfo :=
  match res_map (transaction_info (P := ex_protocol) "" l) (ex_txs l) with Ok infos => infos | _ => [] end.

Definition ex_txs_request : LedgersRequest :=
  {| LR_StartLedger := 3; LR_Pagination := Some {| LP_Cursor := ""; LP_Limit := 3 |}; LR_Format := "" |}.

Definition ex_two_range : LedgerRange := cached_range (MkDbCache 4 20 3 15).

#[local] Opaque bits.

Lemma ex_ledger_page l : l = 3 \/ l = 4 ->
  ledger_page (P := ex_protocol) "" "" (d_tab ex_two_ledgers) l (ex_infos l).
Proof.
  intros Hl. exists (bits 32 l), l, (ex_txs l). destruct Hl as [-> | ->].
  - split_and!; [reflexivity|apply ex_unmarshal; lia|reflexivity..|vm_compute; reflexivity].
  - split_and!; [reflexivity|apply ex_unmarshal; lia|reflexivity..|vm_compute; reflexivity].
Qed.

Lemma ex_read_ok : read_ok (X := ex_sdk) ex_two_ledgers ex_two_range.
Proof.
  eexists _, _. split; [reflexivity|]. split; [|split; reflexivity].
  vm_compute. reflexivity.
Qed.

Lemma getTransactions_page_witness :
  let st := stream_from 3 1 [ex_infos 3; ex_infos 4] in
  exists resp d', getTransactionsByLedgerSequence (P := ex_protocol) ex_txs_handler [] ex_txs_request ex_two_ledgers
                  = (Ok resp, d') /\
    TRsp_Transactions resp = (take 3 st).*2 /\
    TRsp_LatestLedger resp = 4 /\ TRsp_OldestLedger resp = 3 /\
    (3 <= zlen st -> exists l i a, st !! 2%nat = Some (l, i, a) /\
       TRsp_Cursor resp = TOID_String (MkTOID l i 1) /\
       initializePagination_txs ex_txs_handler (page_after (TRsp_Cursor resp) "" 3) = Ok (MkTOID l (i + 1) 1, 3) /\
       stream_from l (i + 1) (drop (Z.to_nat (l - 3)) [ex_infos 3; ex_infos 4]) = drop 3 st).
Proof.
  apply (getTransactions_page (P := ex_protocol) ex_txs_handler ex_two_ledgers ex_two_range ex_txs_request
    (MkTOID 3 1 1) 3 [ex_infos 3; ex_infos 4]).
  - constructor.
    + apply ex_read_ok.
    + intros [|[|k]] p Hp; simpl in Hp; [| |done]; simplify_eq.
      * apply (ex_ledger_page 3). by left.
      * apply (ex_ledger_page 4). by right.
    + simpl. lia.
    + reflexivity.
    + repeat constructor; vm_compute; congruence.
    + simpl. lia.
  - reflexivity.
  - reflexivity.
  - lia.
  - simpl. lia.
Defined.

Lemma getTransactions_empty_page_rewinds_witness :
  exists resp d', getTransactionsByLedgerSequence (P := ex_protocol) ex_txs_handler []
      (page_after (TOID_String (MkTOID 4 (zlen (ex_infos 4)) 1)) "" 5) ex_two_ledgers = (Ok resp, d') /\
    TRsp_Transactions resp = [] /\ TRsp_Cursor resp = TOID_String (MkTOID 4 0 1) /\
    exists resp2 d2, getTransactionsByLedgerSequence ex_txs_handler [] (page_after (TRsp_Cursor resp) "" 5) ex_two_ledgers
                     = (Ok resp2, d2) /\
      TRsp_Transactions resp2 = take 5 (ex_infos 4).
Proof.
  apply (getTransactions_empty_page_rewinds (P := ex_protocol) ex_txs_handler ex_two_ledgers ex_two_range "" 5 (ex_infos 4)).
  - apply ex_read_ok.
  - simpl. lia.
  - apply (ex_ledger_page 4). by right.
  - vm_compute. congruence.
  - vm_compute. congruence.
  - vm_compute. congruence.
  - simpl. lia.
  - lia.
  - intros c Hc. simpl. unfold ex_valid_ledgers. simpl. by rewrite decide_True by done.
Defined.

Lemma GetTransaction_answers_witness :
  exists h' s', (InsertTransactions (X := ex_sdk) 3 ;; flushPending_txs) (ex_tx_handler, ex_session)
                = (Ok tt, (h', s')) /\
    let ask hash := GetTransaction (P := ex_protocol) "" (MkGetTransactionRequest (hex_EncodeToString hash) "")
                      (MkDB (MkSession (s_tab s') []) (MkDbCache 3 15 3 15)) in
    (forall tx hash t details, tx ∈ ex_txs 3 -> hash ∈ (lookup_entries (X := ex_sdk) tx).*1 ->
       String.length hash = 32%nat -> ParseTransaction (X := ex_sdk) 3 tx = Ok t ->
       transaction_details "" (hex_EncodeToString hash) t = Ok details ->
       exists resp d', ask hash = (Ok resp, d') /\ GT_Details resp = details /\
         TD_Status details = (if tx_Successful tx then TransactionStatusSuccess else TransactionStatusFailed) /\
         GT_LatestLedger resp = 3 /\ GT_OldestLedger resp = 3) /\
    (forall hash, hash ∉ row_hash <$> t_txs (s_tab s') -> String.length hash = 32%nat ->
       exists resp d', ask hash = (Ok resp, d') /\ TD_Status (GT_Details resp) = TransactionStatusNotFound /\
         GT_LatestLedger resp = 3 /\ GT_OldestLedger resp = 3).
Proof.
  apply (GetTransaction_answers (P := ex_protocol) 3 (ex_txs 3) ex_tx_handler ex_session (bits 32 3) (MkDbCache 3 15 3 15) "");
    [reflexivity|reflexivity|apply (bool_decide_unpack _); vm_compute; exact I
    |cbn; unfold maxTxRowsPerBatch; lia|reflexivity|reflexivity|reflexivity|reflexivity|simpl; lia|simpl; lia].
Defined.

End Witnesses.
