(* ===== verification/GetLedgersMethod.v ===== *)
(** * The getLedgers handler (internal/methods/get_ledgers.go)

    Pages through ledgers, from the local database where it has them and from
    the remote datastore below it. *)

From S2P Require Import Prelude GoStd Sdk SdkExample LedgerBucketWindow Tables DbTransaction DbLedger Db Protocol ProtocolExample MethodJson GetTransactionsMethod.

(** [rpcdatastore.LedgerReader], as getLedgers uses it: the ledgers of an
    inclusive range and the range on offer. *)
Class DatastoreReader `{Sdk} := {
  ds_GetAvailableLedgerRange : Res LedgerSeqRangeP;
  ds_GetLedgers : Z -> Z -> Res (list LedgerCloseMeta);
}.

Section Handler.
Context `{X : Sdk} `{P : !RpcProtocol} `{ND : Nondet}.

Record ledgersHandler := MkLedgersHandler {
  lh_maxLimit : Z;
  lh_defaultLimit : Z;
  lh_datastoreLedgerReader : option DatastoreReader;
}.

Definition parseCursor_ledgers (cursor : string) (ledgerRange : LedgerSeqRangeP) : Res Z :=
  cursorInt ← ParseUint cursor 32;
  let start := u32 (u32 cursorInt + 1) in
  if negb (IsLedgerWithinRange start ledgerRange) then
    Err (EMsg ("cursor ('" +:+ cursor +:+ "') must be between the oldest ledger: "
               +:+ pretty (FirstLedgerP ledgerRange) +:+ " and the latest ledger: "
               +:+ pretty (LastLedgerP ledgerRange) +:+ " for this rpc instance"))
  else Ok start.

Definition initializePagination_ledgers (h : ledgersHandler) (request : LedgersRequest)
    (ledgerRange : LedgerSeqRangeP) : Res (Z * Z) :=
  match LR_Pagination request with
  | None => Ok (LR_StartLedger request, lh_defaultLimit h)
  | Some p =>
      start ← (if decide (LP_Cursor p <> "") then parseCursor_ledgers (LP_Cursor p) ledgerRange
               else Ok (LR_StartLedger request));
      Ok (start, if decide (LP_Limit p <= 0) then lh_defaultLimit h else LP_Limit p)
  end.

(** The close time of the header, converted from uint64 to int64. *)
Definition parseLedgerInfo (ledger : LedgerMetadataChunk) (format : string) : Res ProtoLedgerInfo :=
  let header := Chunk_Header ledger in
  let info header_xdr header_json meta_xdr meta_json :=
    {| LI_Hash := HexString (header_Hash header); LI_Sequence := header_LedgerSeq header;
       LI_LedgerCloseTime := i64 (header_CloseTime header);
       LI_LedgerHeader := header_xdr; LI_LedgerHeaderJSON := header_json;
       LI_LedgerMetadata := meta_xdr; LI_LedgerMetadataJSON := meta_json |} in
  if decide (format = FormatJSON) then
    '(metaJSON, headerJSON) ← ledgerToJSON ledger;
    Ok (info "" headerJSON "" metaJSON)
  else
    match header_MarshalBinary header with
    | Err e => Err (EWrap "error marshaling ledger header" e)
    | Panic m => Panic m
    | Ok headerB => Ok (info (base64_EncodeToString headerB) "" (base64_EncodeToString (Chunk_Lcm ledger)) "")
    end.

(** [metaToChunk] *)
Definition metaToChunk (meta : list LedgerCloseMeta) : Res (list LedgerMetadataChunk) :=
  res_map (fun lcm => raw ← lcm_MarshalBinary lcm;
                      Ok {| Chunk_Lcm := raw; Chunk_Header := lcm_LedgerHeaderHistoryEntry lcm |}) meta.

(** [addToResult]: its state is the slice [result]; it stops at [limit]. *)
Fixpoint addToResult (limit : Z) (format : string) (ledgers : list LedgerMetadataChunk)
    (result : list ProtoLedgerInfo) : Res unit * list ProtoLedgerInfo :=
  match ledgers with
  | [] => (Ok tt, result)
  | chunk :: ledgers =>
      if decide (limit <= zlen result) then (Ok tt, result)
      else match parseLedgerInfo chunk format with
           | Err e => (Err (EJrpc InternalError ("error processing ledger "
                            +:+ pretty (header_LedgerSeq (Chunk_Header chunk)) +:+ ": " +:+ error_message e)), result)
           | Panic m => (Panic m, result)
           | Ok info => addToResult limit format ledgers (result ++ [info])
           end
  end.

Definition fetchFromLocalDB (limit : Z) (format : string) (start end_ : Z)
    : M (list ProtoLedgerInfo * session) unit :=
  ledgers ← map_err (fun e => EJrpc InternalError ("error fetching ledgers from db: " +:+ error_message e))
              (zoom2 (BatchGetLedgers start end_));
  zoom1 (addToResult limit format ledgers).

Definition fetchFromDatastore (h : ledgersHandler) (limit : Z) (format : string) (start end_ : Z)
    : M (list ProtoLedgerInfo * session) unit :=
  match lh_datastoreLedgerReader h with
  | None => fail (EJrpc InvalidParams "datastore ledger reader not configured")
  | Some ds =>
      ledgers ← map_err (fun e => EJrpc InternalError ("error fetching ledgers from datastore: " +:+ error_message e))
                  (of_res (ds_GetLedgers start end_));
      chunks ← map_err (fun e => EJrpc InternalError ("error serializing ledgers: " +:+ error_message e))
                 (of_res (metaToChunk ledgers));
      zoom1 (addToResult limit format chunks)
  end.

(** [errors.Join(f(), g())]: both are called, whatever the first returns. *)
Definition join_calls {S} (f g : M S unit) : M S unit :=
  r1 ← attempt f;
  r2 ← attempt g;
  match r1, r2 with
  | inl _, inl _ => mret tt
  | inr e, inl _ | inl _, inr e => fail e
  | inr e1, inr e2 => fail (EJoin e1 e2)
  end.

Definition fetchLedgers (h : ledgersHandler) (start end_ : Z) (format : string) (local : LedgerSeqRangeP)
    : M session (list ProtoLedgerInfo) := fun s =>
  let limit := u32 (u32 (end_ - start) + 1) in
  let first := FirstLedgerP local in
  let fetch :=
    if decide (first <= start) then fetchFromLocalDB limit format start end_
    else if decide (end_ < first) then fetchFromDatastore h limit format start end_
    else join_calls (fetchFromDatastore h limit format start (u32 (first - 1)))
                    (fetchFromLocalDB limit format first end_) in
  match fetch ([], s) with
  | (Ok _, (result, s)) => (Ok result, s)
  | (Err e, (_, s)) => (Err e, s)
  | (Panic m, (_, s)) => (Panic m, s)
  end.

(** The cursor of the response. *)
Definition ledgers_cursor (request : LedgersRequest) (start : Z) (ledgers : list ProtoLedgerInfo) : string :=
  match last ledgers with
  | Some l => FormatUint (LI_Sequence l)
  | None =>
      match LR_Pagination request with
      | Some p => if decide (LP_Cursor p <> "") then LP_Cursor p else FormatUint (u32 (start - 1))
      | None => FormatUint (u32 (start - 1))
      end
  end.

(** The stored range, its start lowered to what the datastore has. *)
Definition available_range (h : ledgersHandler) (local : LedgerSeqRangeP) : LedgerSeqRangeP :=
  match lh_datastoreLedgerReader h with
  | None => local
  | Some ds => match ds_GetAvailableLedgerRange with
               | Ok dsRange => {| FirstLedgerP := Z.min (FirstLedgerP dsRange) (FirstLedgerP local);
                                  LastLedgerP := LastLedgerP local |}
               | _ => local
               end
  end.

(** The handler inside its read transaction. *)
Definition get_ledgers (h : ledgersHandler) (request : LedgersRequest) (readTx : ledgerReaderTx)
    : M session GetLedgersResponse :=
  ledgerRange ← map_err (jrpc_of InternalError) (GetLedgerRange_tx readTx);
  let availableLedgerRange := available_range h (ToLedgerSeqRange ledgerRange) in
  match GetLedgersRequest_Validate request (lh_maxLimit h) availableLedgerRange with
  | Some e => fail (jrpc_of InvalidRequest e)
  | None =>
      '(start, limit) ← map_err (jrpc_of InvalidParams)
                          (of_res (initializePagination_ledgers h request availableLedgerRange));
      let end_ := u32 (u32 (start + u32 limit) - 1) in
      ledgers ← fetchLedgers h start end_ (LR_Format request) (ToLedgerSeqRange ledgerRange);
      mret {| LRsp_Ledgers := ledgers;
              LRsp_LatestLedger := Sequence (LastLedger ledgerRange);
              LRsp_LatestLedgerCloseTime := CloseTime (LastLedger ledgerRange);
              LRsp_OldestLedger := Sequence (FirstLedger ledgerRange);
              LRsp_OldestLedgerCloseTime := CloseTime (FirstLedger ledgerRange);
              LRsp_Cursor := ledgers_cursor request start ledgers |}
  end.

Definition getLedgers (h : ledgersHandler) (tx_faults : list (option error)) (request : LedgersRequest)
    : M DB GetLedgersResponse :=
  readTx ← map_err (jrpc_of InternalError) (NewTx_reader tx_faults);
  of_res (fst (get_ledgers h request readTx (rtx_tx readTx))).

End Handler.

Section Page.
Context `{X : Sdk} `{P : !RpcProtocol} `{ND : Nondet} `{PL : !RpcProtocolLaws}.

Lemma seqZ_sorted a n : StronglySorted Z.lt (seqZ a n).
Proof.
  destruct (decide (0 <= n)) as [Hn|Hn]; [|rewrite seqZ_nil by lia; constructor].
  revert a. apply (natlike_ind (fun n => forall a, StronglySorted Z.lt (seqZ a n))); [|intros m Hm IH a|done].
  - intros a. constructor.
  - rewrite seqZ_cons by lia. constructor; [replace (Z.pred (Z.succ m)) with m by lia; apply IH|].
    apply Forall_forall. intros b [? ?]%elem_of_seqZ. lia.
Qed.

Lemma sorted_fmap_seqZ (f : Z -> string) a n : StronglySorted (key_le Z.le) ((fun k => (k, f k)) <$> seqZ a n).
Proof.
  induction (seqZ_sorted a n) as [|x l HS IH HF]; [constructor|]. csimpl. constructor; [done|].
  apply Forall_forall. intros p (k&->&Hk)%list_elem_of_fmap. rewrite Forall_forall in HF. specialize (HF _ Hk).
  unfold key_le. simpl. lia.
Qed.

(** The stored ledgers are those of the local range, with their renderings. *)
Record local_ok (t : tables) (fmt : string) (f l : Z) (info : Z -> ProtoLedgerInfo) : Prop := {
  lo_bounds : 0 < f <= l /\ l < 2 ^ 31;
  lo_stored : forall k b, t_ledgers t !! k = Some b -> f <= k <= l;
  lo_info : forall k, f <= k <= l -> exists b hd, t_ledgers t !! k = Some b /\
    ParseLedgerHeaderFromMeta b = Ok hd /\
    parseLedgerInfo {| Chunk_Header := hd; Chunk_Lcm := b |} fmt = Ok (info k);
}.

(** The rows of a range of stored ledgers, in order. *)
Lemma rows_in_range t fmt f l info a b :
  local_ok t fmt f l info -> f <= a ->
  filter (in_range a b) (ledger_rows t) =
    (fun k => (k, default "" (t_ledgers t !! k))) <$> seqZ a (Z.min b l - a + 1).
Proof.
  intros H Ha. apply (rows_by_key_unique Z.le).
  - apply sorted_filter, rows_by_key_sorted; apply _.
  - apply (sorted_fmap_seqZ (fun k => default "" (t_ledgers t !! k))).
  - apply (sublist_NoDup _ (ledger_rows t).*1); [apply NoDup_rows_by_key|].
    apply fmap_sublist, sublist_filter.
  - apply NoDup_Permutation.
    + apply NoDup_filter, (NoDup_fmap_1 fst), NoDup_rows_by_key.
    + apply (NoDup_fmap_1 fst). rewrite <- list_fmap_compose. simpl. rewrite list_fmap_id. apply NoDup_seqZ.
    + intros [k v]. rewrite list_elem_of_filter, list_elem_of_fmap, elem_of_ledger_rows. unfold in_range. simpl.
      split.
      * intros [Hk Hv]. pose proof (lo_stored _ _ _ _ _ H _ _ Hv). exists k. rewrite Hv. split; [done|].
        apply elem_of_seqZ. lia.
      * intros (k'&E&Hk'%elem_of_seqZ). simplify_eq. split; [lia|].
        destruct (lo_info _ _ _ _ _ H k') as (b'&hd&Hb&_); [lia|]. by rewrite Hb.
Qed.

(** Chunks whose rendering is the given list. *)
Lemma addToResult_spec limit fmt chunks infos result :
  res_map (fun c => parseLedgerInfo c fmt) chunks = Ok infos -> zlen result + zlen infos <= limit ->
  addToResult limit fmt chunks result = (Ok tt, result ++ infos).
Proof.
  revert infos result; induction chunks as [|c chunks IH]; intros infos result; csimpl.
  { intros [= <-] _. by rewrite app_nil_r. }
  unfold mbind, Res_bind. destruct (parseLedgerInfo c fmt) as [i|e|m] eqn:E; [|done..].
  destruct (res_map _ chunks) as [js|e|m] eqn:E2; [|done..]. intros [= <-] Hl.
  rewrite zlen_cons in Hl. pose proof (zlen_nonneg js). rewrite decide_False by lia.
  rewrite (IH js) by (done || (autorewrite with go; lia)). by rewrite <- app_assoc.
Qed.

Lemma local_chunks t fmt f l info ks :
  local_ok t fmt f l info -> Forall (fun k => f <= k <= l) ks ->
  exists chunks,
    res_map (fun meta => header ← ParseLedgerHeaderFromMeta meta; Ok (MkLedgerMetadataChunk header meta))
      ((fun k => default "" (t_ledgers t !! k)) <$> ks) = Ok chunks /\
    res_map (fun c => parseLedgerInfo c fmt) chunks = Ok (info <$> ks).
Proof.
  intros H HF.
  induction HF as [|k ks Hk HF (chunks&IH1&IH2)]; [by exists []|].
  destruct (lo_info _ _ _ _ _ H k Hk) as (b&hd&Hb&Hp&Hi). csimpl. rewrite Hb. simpl. rewrite Hp. simpl.
  rewrite IH1. simpl. eexists. split; [done|]. simpl. rewrite Hi, IH2. done.
Qed.

(** SQLite happens to scan a key range in the order of the key, which the query
    does not ask for. *)
Definition scans_in_order : Prop := forall (A : Type) (rows : list A), scan_order rows = rows.

(** The ledgers [ks] are those of [a .. a + n - 1] in the order of the scan. *)
Definition scan_of (a n : Z) (ks : list Z) : Prop :=
  ks ≡ₚ seqZ a n /\ (scans_in_order -> ks = seqZ a n).

Lemma scan_of_refl a n : scan_of a n (seqZ a n).
Proof. done. Qed.

Lemma scan_of_app a m n ks : 0 <= m -> 0 <= n -> scan_of (a + m) n ks -> scan_of a (m + n) (seqZ a m ++ ks).
Proof.
  intros Hm Hn [Hp Hs]. split; rewrite (seqZ_app a m) by lia; [by rewrite Hp|]. intros H. by rewrite (Hs H).
Qed.

Lemma scan_of_length a n ks : scan_of a n ks -> zlen ks = Z.max 0 n.
Proof. intros [Hp _]. unfold zlen. rewrite Hp, length_seqZ. lia. Qed.

Lemma scan_of_range a n ks k : scan_of a n ks -> k ∈ ks <-> a <= k < a + n.
Proof. intros [Hp _]. rewrite Hp. apply elem_of_seqZ. Qed.

Lemma fetchFromLocalDB_spec fmt f l info limit a b result s :
  local_ok (s_tab s) fmt f l info -> s_faults s = [] -> f <= a <= b ->
  zlen result + Z.max 0 (Z.min b l - a + 1) <= limit ->
  exists ks, scan_of a (Z.min b l - a + 1) ks /\
    fetchFromLocalDB limit fmt a b (result, s) = (Ok tt, (result ++ (info <$> ks), s)).
Proof.
  intros H Hf Ha Hl. unfold fetchFromLocalDB, BatchGetLedgers, sql_select, statement. unfold_m. simpl.
  rewrite decide_False by lia. rewrite Hf. simpl. rewrite (rows_in_range _ _ _ _ _ _ _ H) by lia.
  set (row := fun k => (k, default "" (t_ledgers (s_tab s) !! k))).
  set (n := Z.min b l - a + 1) in *.
  pose proof (scan_order_perm (row <$> seqZ a n)) as Hp.
  destruct (Permutation_map_inv _ _ Hp) as (ks&Hks&Hp2).
  change (map row ks) with (row <$> ks) in Hks.
  assert (scan_of a n ks) as Hscan.
  { split; [done|]. intros Hs. rewrite (Hs _) in Hks. apply (f_equal (fmap fst)) in Hks.
    rewrite <- !list_fmap_compose in Hks. simpl in Hks. by rewrite !list_fmap_id in Hks. }
  exists ks. split; [done|]. rewrite Hks, <- list_fmap_compose.
  destruct (local_chunks _ _ _ _ _ ks H) as (chunks&H1&H2).
  { apply Forall_forall. intros k Hk. apply (scan_of_range _ _ _ _ Hscan) in Hk. lia. }
  unfold compose. simpl. unfold mbind in H1. rewrite H1. simpl. rewrite (addToResult_spec _ _ _ _ _ H2).
  - destruct s. simpl in Hf. by subst.
  - rewrite (zlen_fmap info), (scan_of_length _ _ _ Hscan). done.
Qed.

(** The datastore holds the ledgers below the local range. *)
Definition datastore_ok (h : ledgersHandler) (fmt : string) (start f : Z) (info : Z -> ProtoLedgerInfo) : Prop :=
  exists ds, lh_datastoreLedgerReader h = Some ds /\
    forall b, start <= b < f -> exists lcms chunks, ds_GetLedgers start b = Ok lcms /\
      metaToChunk lcms = Ok chunks /\
      res_map (fun c => parseLedgerInfo c fmt) chunks = Ok (info <$> seqZ start (b - start + 1)).

Lemma fetchFromDatastore_spec h fmt start f info limit b s :
  datastore_ok h fmt start f info -> start <= b < f -> b - start + 1 <= limit ->
  fetchFromDatastore h limit fmt start b ([], s) = (Ok tt, (info <$> seqZ start (b - start + 1), s)).
Proof.
  intros (ds&Hds&H) Hb Hl. destruct (H b Hb) as (lcms&chunks&H1&H2&H3).
  unfold fetchFromDatastore. rewrite Hds. unfold_m. rewrite H1, H2. simpl.
  rewrite (addToResult_spec _ _ _ _ _ H3); [done|].
  rewrite zlen_nil. unfold zlen. rewrite length_fmap, length_seqZ. lia.
Qed.

Lemma fetchLedgers_spec h fmt f l info start limit s :
  local_ok (s_tab s) fmt f l info -> s_faults s = [] ->
  (start < f -> datastore_ok h fmt start f info) ->
  0 < start <= l -> 0 < limit -> start + limit <= 2 ^ 32 ->
  exists ks, scan_of start (Z.min limit (l - start + 1)) ks /\
    fetchLedgers h start (start + limit - 1) fmt {| FirstLedgerP := f; LastLedgerP := l |} s =
      (Ok (info <$> ks), s).
Proof.
  intros H Hf Hds Hs Hl Hb. destruct (lo_bounds _ _ _ _ _ H) as [Hfl Hl31]. unfold fetchLedgers.
  replace (start + limit - 1 - start) with (limit - 1) by lia.
  rewrite (u32_small (limit - 1)) by (unfold_ints; lia). rewrite u32_small by (unfold_ints; lia).
  replace (limit - 1 + 1) with limit by lia. simpl.
  repeat case_decide.
  - destruct (fetchFromLocalDB_spec fmt f l info limit start (start + limit - 1) [] s) as (ks&Hks&->);
      try (done || rewrite ?zlen_nil; lia).
    exists ks. split; [|done]. by replace (Z.min limit (l - start + 1)) with (Z.min (start + limit - 1) l - start + 1) by lia.
  - rewrite (fetchFromDatastore_spec _ _ _ f info) by (try lia; apply Hds; lia).
    exists (seqZ start (Z.min limit (l - start + 1))). split; [apply scan_of_refl|]. do 4 f_equal. lia.
  - unfold join_calls. unfold_m. rewrite u32_small by (unfold_ints; lia).
    rewrite (fetchFromDatastore_spec _ _ _ f info) by (try lia; apply Hds; lia).
    replace (f - 1 - start + 1) with (f - start) by lia.
    destruct (fetchFromLocalDB_spec fmt f l info limit f (start + limit - 1) (info <$> seqZ start (f - start)) s)
      as (ks&Hks&->); [done..|lia|unfold zlen; rewrite length_fmap, length_seqZ; lia|].
    exists (seqZ start (f - start) ++ ks). rewrite fmap_app. split; [|done].
    replace (Z.min limit (l - start + 1)) with ((f - start) + (Z.min (start + limit - 1) l - f + 1)) by lia.
    apply scan_of_app; [lia|lia|]. by replace (start + (f - start)) with f by lia.
Qed.

(** C19: A page of getLedgers holds exactly the [limit] ledgers from the start
    of the page, or all up to the latest one if there are fewer, each once, taken
    from the datastore below the local range and from the local database within
    it, and its cursor is the last ledger it lists.  The query of the local
    ledgers asks for no order: when the database scans them in the order of
    their key the page is in order too, and passing the cursor back starts the
    next page at the ledger after it.  (For a valid request whose ledgers can be
    read and decoded, where they are.) *)
Theorem getLedgers_page h d range r start limit info :
  let f := Sequence (FirstLedger range) in
  let l := Sequence (LastLedger range) in
  let avail := available_range h (ToLedgerSeqRange range) in
  read_ok d range -> local_ok (d_tab d) (LR_Format r) f l info ->
  (start < f -> datastore_ok h (LR_Format r) start f info) ->
  (forall k, LI_Sequence (info k) = k) ->
  GetLedgersRequest_Validate r (lh_maxLimit h) avail = None ->
  initializePagination_ledgers h r avail = Ok (start, limit) ->
  0 < start <= l -> 0 < limit -> start + limit < 2 ^ 32 -> FirstLedgerP avail <= start ->
  exists resp d' ks, getLedgers h [] r d = (Ok resp, d') /\
    LRsp_Ledgers resp = info <$> ks /\ ks ≡ₚ seqZ start (Z.min limit (l - start + 1)) /\
    (exists k, last ks = Some k /\ LRsp_Cursor resp = FormatUint k) /\
    LRsp_OldestLedger resp = f /\ LRsp_LatestLedger resp = l /\
    (scans_in_order -> ks = seqZ start (Z.min limit (l - start + 1)) /\
       LRsp_Cursor resp = FormatUint (Z.min (start + limit - 1) l) /\
       (start + limit <= l -> parseCursor_ledgers (LRsp_Cursor resp) avail = Ok (start + limit))).
Proof.
  intros f l avail (rt&d1&Hnew&Hr&Ht&Hf) Hloc Hds Hseq Hv Hi Hs Hl Hb Hav.
  pose proof (lo_bounds _ _ _ _ _ Hloc) as [Hfl Hl31]. rewrite <- Ht in Hloc.
  destruct (fetchLedgers_spec h _ f l info start limit _ Hloc Hf Hds Hs Hl ltac:(lia)) as (ks&Hks&Hfetch).
  pose proof (scan_of_length _ _ _ Hks) as Hlen.
  assert (exists k, last ks = Some k /\ ledgers_cursor r start (info <$> ks) = FormatUint k) as (k&Hk&Hcur).
  { destruct (last ks) as [k|] eqn:E.
    - exists k. split; [done|]. unfold ledgers_cursor. rewrite fmap_last, E. simpl. by rewrite Hseq.
    - apply last_None in E. subst ks. rewrite zlen_nil in Hlen. lia. }
  eexists _, d1, ks. split.
  { unfold getLedgers, map_err, mbind, M_bind. rewrite Hnew. unfold of_res.
    unfold get_ledgers, map_err, mbind, M_bind. rewrite Hr. fold avail. rewrite Hv. unfold of_res. rewrite Hi.
    cbn beta iota. rewrite (u32_small limit), (u32_small (start + limit)), u32_small by (unfold_ints; lia).
    unfold ToLedgerSeqRange. fold f l. rewrite Hfetch. reflexivity. }
  simpl. split_and!; [done|by destruct Hks|by exists k|done|done|]. intros Hscan.
  destruct Hks as [_ Hks]. specialize (Hks Hscan). split; [done|]. rewrite Hcur.
  assert (k = Z.min (start + limit - 1) l) as ->.
  { rewrite Hks in Hk. replace (Z.min limit (l - start + 1)) with (Z.min limit (l - start + 1) - 1 + 1) in Hk by lia.
    assert (forall x, seqZ x 1 = [x]) as E1 by done.
    rewrite seqZ_app, E1, last_snoc in Hk by lia. injection Hk as <-. lia. }
  split; [done|]. intros Hnext. unfold parseCursor_ledgers.
  rewrite ParseUint_FormatUint by lia. unfold mbind, Res_bind.
  rewrite (u32_small (Z.min (start + limit - 1) l)) by (unfold_ints; lia).
  rewrite u32_small by (unfold_ints; lia). replace (Z.min (start + limit - 1) l + 1) with (start + limit) by lia.
  assert (IsLedgerWithinRange (start + limit) avail = true) as ->; [|done].
  apply within_range. split; [lia|]. unfold avail, available_range. repeat case_match; simpl; fold l; lia.
Qed.

End Page.

Section Witnesses.

(** Ledgers 3 and 4 are local, ledger 2 is only in the datastore. *)
#[local] Instance ex_datastore : DatastoreReader (H := ex_sdk) := {|
  ds_GetAvailableLedgerRange := Ok {| FirstLedgerP := 2; LastLedgerP := 4 |};
  ds_GetLedgers := fun a b => Ok (seqZ a (b - a + 1));
|}.

Definition ex_ledgers_handler : ledgersHandler := MkLedgersHandler 100 10 (Some ex_datastore).

Definition ex_ledger_info (k : Z) : ProtoLedgerInfo :=
  {| LI_Hash := "hash" +:+ pretty k; LI_Sequence := k; LI_LedgerCloseTime := i64 (5 * k);
     LI_LedgerHeader := base64_EncodeToString (bits 32 k); LI_LedgerHeaderJSON := "";
     LI_LedgerMetadata := base64_EncodeToString (bits 32 k); LI_LedgerMetadataJSON := "" |}.

Definition ex_ledgers_request : LedgersRequest :=
  {| LR_StartLedger := 2; LR_Pagination := Some {| LP_Cursor := ""; LP_Limit := 2 |}; LR_Format := "" |}.

#[local] Opaque bits.

Lemma ex_parse_info k : 0 <= k < 2 ^ 32 ->
  parseLedgerInfo (P := ex_protocol) {| Chunk_Header := k; Chunk_Lcm := bits 32 k |} "" = Ok (ex_ledger_info k).
Proof. intros Hk. unfold parseLedgerInfo. simpl. unfold ex_lcm_marshal. by rewrite decide_True by done. Qed.

Lemma ex_local_ok : local_ok (P := ex_protocol) (d_tab ex_two_ledgers) "" 3 4 ex_ledger_info.
Proof.
  split; [lia| |].
  - intros k b. simpl. rewrite lookup_insert_Some, lookup_singleton_Some. lia.
  - intros k Hk. exists (bits 32 k), k. split_and!; [|apply (ex_unmarshal k); lia|apply ex_parse_info; lia].
    assert (k = 3 \/ k = 4) as [-> | ->] by lia; reflexivity.
Qed.

Lemma ex_datastore_ok : datastore_ok (P := ex_protocol) ex_ledgers_handler "" 2 3 ex_ledger_info.
Proof.
  exists ex_datastore. split; [done|]. intros b Hb. replace b with 2 by lia.
  exists [2], [{| Chunk_Header := (2 : @LedgerHeaderHistoryEntry ex_types); Chunk_Lcm := bits 32 2 |}].
  split_and!; reflexivity.
Qed.

Lemma getLedgers_page_witness :
  let avail := available_range ex_ledgers_handler (ToLedgerSeqRange ex_two_range) in
  exists resp d' ks, getLedgers (P := ex_protocol) ex_ledgers_handler [] ex_ledgers_request ex_two_ledgers = (Ok resp, d') /\
    LRsp_Ledgers resp = ex_ledger_info <$> ks /\ ks ≡ₚ seqZ 2 (Z.min 2 (4 - 2 + 1)) /\
    (exists k, last ks = Some k /\ LRsp_Cursor resp = FormatUint k) /\
    LRsp_OldestLedger resp = 3 /\ LRsp_LatestLedger resp = 4 /\
    (scans_in_order -> ks = seqZ 2 (Z.min 2 (4 - 2 + 1)) /\
       LRsp_Cursor resp = FormatUint (Z.min (2 + 2 - 1) 4) /\
       (2 + 2 <= 4 -> parseCursor_ledgers (LRsp_Cursor resp) avail = Ok (2 + 2))).
Proof.
  apply (getLedgers_page (P := ex_protocol) ex_ledgers_handler ex_two_ledgers ex_two_range ex_ledgers_request 2 2 ex_ledger_info).
  - apply ex_read_ok.
  - apply ex_local_ok.
  - intros _. apply ex_datastore_ok.
  - intros k. reflexivity.
  - reflexivity.
  - reflexivity.
  - simpl. lia.
  - lia.
  - lia.
  - simpl. lia.
Defined.

End Witnesses.
