(* ===== verification/DatastoreReader.v ===== *)
(** * The datastore reader (rpcdatastore/ledger_reader.go)

    Ledgers below the local range are read from a remote object store through a
    buffered backend of the SDK, made for each call and closed when the call ends.
    The reader is an implementation of the interface [DatastoreReader] that
    getLedgers uses. *)

From S2P Require Import Prelude GoStd Sdk SdkExample LedgerBucketWindow Tables DbLedger Db Protocol ProtocolExample MethodJson GetTransactionsMethod GetLedgersMethod.

(** The SDK's ledger backends: their ranges, and what the reader calls on one; the
    calls share the state [BackendWorld] of the object store and of the backends. *)
Class LedgerBackends `{SdkTypes} := {
  BackendWorld : Type;
  LedgerBackend : Type;
  Range : Type;
  BoundedRange : Z -> Z -> Range;
  Range_From : Range -> Z;
  Range_To : Range -> Z;
  be_PrepareRange : LedgerBackend -> Range -> M BackendWorld unit;
  be_GetLedger : LedgerBackend -> Z -> M BackendWorld LedgerCloseMeta;
  be_Close : LedgerBackend -> M BackendWorld unit;
  BufferedConfig : Type;
  Store : Type;
  Schema : Type;
  NewBufferedStorageBackend : BufferedConfig -> Store -> Schema -> M BackendWorld LedgerBackend;
}.

Section Reader.
Context `{X : Sdk} `{LB : !LedgerBackends}.

(** [LedgerBackendFactory] *)
Definition LedgerBackendFactory : Type := BufferedConfig -> Store -> Schema -> M BackendWorld LedgerBackend.

Definition bufferedBackendFactory : LedgerBackendFactory := NewBufferedStorageBackend.

Record ledgerReader := MkLedgerReader {
  storageBackendConfig : BufferedConfig;
  dataStore : Store;
  schema : Schema;
  ledgerBackendFactory : LedgerBackendFactory;
}.

Definition NewLedgerReader (config : BufferedConfig) (store : Store) (sch : Schema) : ledgerReader :=
  MkLedgerReader config store sch bufferedBackendFactory.

(** The loop over [sequence], an [uint32]: [None] when [fuel] rounds were not
    enough. *)
Fixpoint fetch_ledgers (fuel : nat) (backend : LedgerBackend) (to sequence : Z) (ledgers : list LedgerCloseMeta)
    : M BackendWorld (option (list LedgerCloseMeta)) :=
  match fuel with
  | O => mret None
  | S fuel =>
      if decide (to < sequence) then mret (Some ledgers)
      else
        ledger ← be_GetLedger backend sequence;
        fetch_ledgers fuel backend to (u32 (sequence + 1)) (ledgers ++ [ledger])
  end.

Definition GetLedgers (fuel : nat) (r : ledgerReader) (start end_ : Z)
    : M BackendWorld (option (list LedgerCloseMeta)) :=
  bufferedBackend ← map_err (EWrap "failed to create buffered storage backend")
    (ledgerBackendFactory r (storageBackendConfig r) (dataStore r) (schema r));
  deferred (be_Close bufferedBackend)
    (let ledgerRange := BoundedRange start end_ in
     be_PrepareRange bufferedBackend ledgerRange ;;
     fetch_ledgers fuel bufferedBackend (Range_To ledgerRange) (Range_From ledgerRange) []).

Definition GetAvailableLedgerRange (r : ledgerReader) : Res LedgerSeqRangeP :=
  Ok {| FirstLedgerP := 2; LastLedgerP := 0 |}.

(** ** What a call does *)

(** The reference: the backend is asked for each ledger of the range in turn, and
    closed whatever it answers. *)
Definition read_range (r : ledgerReader) (start end_ : Z) : M BackendWorld (option (list LedgerCloseMeta)) :=
  backend ← map_err (EWrap "failed to create buffered storage backend")
    (ledgerBackendFactory r (storageBackendConfig r) (dataStore r) (schema r));
  deferred (be_Close backend)
    (be_PrepareRange backend (BoundedRange start end_) ;;
     ledgers ← mapM (be_GetLedger backend) (seqZ start (end_ - start + 1));
     mret (Some ledgers)).

(** The SDK's ranges *)
Class RangeLaws : Prop := {
  Range_From_Bounded a b : Range_From (BoundedRange a b) = a;
  Range_To_Bounded a b : Range_To (BoundedRange a b) = b;
}.

Lemma fetch_ledgers_mapM fuel backend to sequence ledgers w :
  0 <= sequence -> to < 2 ^ 32 - 1 -> Z.max 0 (to - sequence + 1) < Z.of_nat fuel ->
  fetch_ledgers fuel backend to sequence ledgers w =
    (rest ← mapM (be_GetLedger backend) (seqZ sequence (to - sequence + 1)); mret (Some (ledgers ++ rest))) w.
Proof.
  revert sequence ledgers w. induction fuel as [|fuel IH]; intros sequence ledgers w Hs Ht Hf; [lia|]. cbn [fetch_ledgers].
  destruct (decide (to < sequence)) as [Hlt|Hle].
  - rewrite seqZ_nil by lia. cbn [mapM]. unfold mbind, M_bind, mret, M_ret. by rewrite app_nil_r.
  - rewrite seqZ_cons by lia. cbn [mapM]. unfold mbind, M_bind, mret, M_ret.
    destruct (be_GetLedger backend sequence w) as [[l|e|m] w1]; [|done..].
    rewrite (u32_small (sequence + 1)) by (unfold is_u32; lia). rewrite IH by lia.
    replace (Z.pred (to - sequence + 1)) with (to - (sequence + 1) + 1) by lia. unfold mbind, M_bind, mret, M_ret.
    replace (Z.succ sequence) with (sequence + 1) by lia.
    destruct (mapM (be_GetLedger backend) (seqZ (sequence + 1) _) w1) as [[ls|e|m] w2]; [|done..].
    by rewrite <- app_assoc.
Qed.

(** The last ledger of an [uint32] is never passed. *)
Lemma fetch_ledgers_max fuel backend sequence ledgers w :
  0 <= sequence < 2 ^ 32 -> forall ls, (fetch_ledgers fuel backend (2 ^ 32 - 1) sequence ledgers w).1 ≠ Ok (Some ls).
Proof.
  revert sequence ledgers w. induction fuel as [|fuel IH]; intros sequence ledgers w Hs ls; [done|]. cbn [fetch_ledgers].
  rewrite decide_False by lia. unfold mbind, M_bind. destruct (be_GetLedger backend sequence w) as [[l|e|m] w1]; [|done..].
  apply IH. apply u32_range.
Qed.

Lemma bind_ext {S A B} (m : M S A) (k k' : A -> M S B) w : (forall a w, k a w = k' a w) -> (m ≫= k) w = (m ≫= k') w.
Proof. intros Hk. unfold mbind, M_bind. by destruct (m w) as [[] ?]. Qed.

(** Whatever is deferred, equal bodies make equal calls. *)
Lemma deferred_ext {S A} (cleanup : M S unit) (m m' : M S A) w : m w = m' w -> deferred cleanup m w = deferred cleanup m' w.
Proof. unfold deferred. by intros ->. Qed.

Lemma deferred_result {S A} (cleanup : M S unit) (m : M S A) w a : (deferred cleanup m w).1 = Ok a -> (m w).1 = Ok a.
Proof. unfold deferred. destruct (m w) as [r w1]. by destruct (cleanup w1) as [[] w2]. Qed.

(** C20: For every range that ends before the largest sequence, [GetLedgers]
    terminates: rounds for the length of the range and one more are enough, and
    the call is then, in its result and in what it does to the store, one query
    for each ledger of the range in order up to the first that fails, between the
    preparation of exactly that range and the closing of the backend.  For a range
    that ends at the largest sequence no number of rounds makes it succeed: its
    counter wraps around. *)
Theorem GetLedgers_terminates `{RL : !RangeLaws} r start end_ w :
  0 <= start < 2 ^ 32 -> 0 <= end_ < 2 ^ 32 ->
  (end_ < 2 ^ 32 - 1 -> forall fuel, Z.max 0 (end_ - start + 1) < Z.of_nat fuel ->
     GetLedgers fuel r start end_ w = read_range r start end_ w /\
     (GetLedgers fuel r start end_ w).1 ≠ Ok None) /\
  (end_ = 2 ^ 32 - 1 -> forall fuel ls, (GetLedgers fuel r start end_ w).1 ≠ Ok (Some ls)).
Proof.
  intros Hs He. split.
  - intros Hmax fuel Hf. assert (GetLedgers fuel r start end_ w = read_range r start end_ w) as ->.
    { apply bind_ext. intros b w1. apply deferred_ext, bind_ext. intros [] w2.
      rewrite Range_From_Bounded, Range_To_Bounded. apply fetch_ledgers_mapM; lia. }
    split; [done|]. unfold read_range. unfold mbind at 1, M_bind at 1. destruct (map_err _ _ w) as [[b|e|m] w1]; [|done..].
    intros H%deferred_result. revert H. unfold mbind, M_bind, mret, M_ret.
    destruct (be_PrepareRange b _ w1) as [[[]|e|m] w2]; [|done..]. by repeat case_match.
  - intros -> fuel ls. unfold GetLedgers. unfold mbind at 1, M_bind at 1. destruct (map_err _ _ w) as [[b|e|m] w1]; [|done..].
    intros H%deferred_result. revert H. unfold mbind, M_bind. destruct (be_PrepareRange b _ w1) as [[[]|e|m] w2]; [|done..].
    rewrite Range_From_Bounded, Range_To_Bounded. by apply fetch_ledgers_max.
Qed.

(** ** The interface of getLedgers, implemented *)

(** The reader as the handler sees it, for a call made on the store [w] *)
Definition reader_at (r : ledgerReader) (w : BackendWorld) : DatastoreReader := {|
  ds_GetAvailableLedgerRange := GetAvailableLedgerRange r;
  ds_GetLedgers := fun start end_ =>
    match (GetLedgers (S (Z.to_nat (end_ - start + 1))) r start end_ w).1 with
    | Ok (Some ledgers) => Ok ledgers
    | Ok None => Panic "out of fuel"
    | Err e => Err e
    | Panic m => Panic m
    end;
|}.

(** An object store that holds the ledgers [lcm k] of a range: backends can be
    made, and while they are [ready] they answer. *)
Record serves (r : ledgerReader) (w : BackendWorld) (first last : Z) (lcm : Z -> LedgerCloseMeta)
    (ready : LedgerBackend -> BackendWorld -> Prop) : Prop := {
  sv_new : exists b w', ledgerBackendFactory r (storageBackendConfig r) (dataStore r) (schema r) w = (Ok b, w') /\ ready b w';
  sv_prepare b w a c : ready b w -> first <= a -> c <= last ->
    exists w', be_PrepareRange b (BoundedRange a c) w = (Ok tt, w') /\ ready b w';
  sv_get b w k : ready b w -> first <= k <= last -> exists w', be_GetLedger b k w = (Ok (lcm k), w') /\ ready b w';
  sv_close b w : ready b w -> forall m, (be_Close b w).1 ≠ Panic m;
}.

Lemma mapM_serves r w first last lcm ready b w1 ks :
  serves r w first last lcm ready -> ready b w1 -> Forall (fun k => first <= k <= last) ks ->
  exists w2, mapM (be_GetLedger b) ks w1 = (Ok (lcm <$> ks), w2) /\ ready b w2.
Proof.
  intros Hs Hw Hk. revert w1 Hw. induction Hk as [|k ks Hk _ IH]; intros w1 Hw; [by exists w1|].
  destruct (sv_get _ _ _ _ _ _ Hs b w1 k Hw Hk) as (w2&E2&H2). destruct (IH w2 H2) as (w3&E3&H3).
  exists w3. split; [|done]. cbn [mapM]. unfold mbind at 1, M_bind at 1. rewrite E2.
  unfold mbind at 1, M_bind at 1. by rewrite E3.
Qed.

Lemma reader_at_serves `{RL : !RangeLaws} r w first last lcm ready a c :
  serves r w first last lcm ready -> 0 <= first <= a -> c <= last -> last < 2 ^ 32 - 1 ->
  ds_GetLedgers (DatastoreReader := reader_at r w) a c = Ok (lcm <$> seqZ a (c - a + 1)).
Proof.
  intros Hs Ha Hc Hl. simpl. enough (exists w', GetLedgers (S (Z.to_nat (c - a + 1))) r a c w =
    (Ok (Some (lcm <$> seqZ a (c - a + 1))), w')) as [w' E] by by rewrite E.
  destruct (sv_new _ _ _ _ _ _ Hs) as (b&w1&E1&H1). destruct (sv_prepare _ _ _ _ _ _ Hs b w1 a c H1) as (w2&E2&H2); [lia..|].
  destruct (mapM_serves _ _ _ _ _ _ b w2 (seqZ a (c - a + 1)) Hs H2) as (w3&E3&H3).
  { apply Forall_forall. intros k Hk%elem_of_seqZ. lia. }
  pose proof (sv_close _ _ _ _ _ _ Hs b w3 H3) as Hclose.
  unfold GetLedgers, map_err, mbind at 1, M_bind at 1. rewrite E1. cbn beta iota zeta. unfold deferred, mbind at 1, M_bind at 1.
  rewrite E2, Range_From_Bounded, Range_To_Bounded, fetch_ledgers_mapM by lia.
  unfold mbind at 1, M_bind at 1. rewrite E3. unfold mret, M_ret. destruct (be_Close b w3) as [[[]|e|m] w4]; [by eexists..|].
  by destruct (Hclose m).
Qed.

End Reader.

Section Serving.
Context `{X : Sdk} `{P : !RpcProtocol} `{LB : !LedgerBackends} `{RL : !RangeLaws}.

Lemma render_ledgers fmt (lcm : Z -> LedgerCloseMeta) (info : Z -> ProtoLedgerInfo) ks :
  Forall (fun k => exists raw, lcm_MarshalBinary (lcm k) = Ok raw /\
    parseLedgerInfo {| Chunk_Lcm := raw; Chunk_Header := lcm_LedgerHeaderHistoryEntry (lcm k) |} fmt = Ok (info k)) ks ->
  exists chunks, metaToChunk (lcm <$> ks) = Ok chunks /\ res_map (fun c => parseLedgerInfo c fmt) chunks = Ok (info <$> ks).
Proof.
  induction 1 as [|k ks (raw&Hraw&Hinfo) _ (chunks&IH1&IH2)]; [by exists []|].
  unfold metaToChunk in *. csimpl. rewrite Hraw. simpl. rewrite IH1. simpl. eexists. split; [done|].
  simpl. by rewrite Hinfo, IH2.
Qed.

(** The store's reader keeps the contract under which getLedgers is proved
    ([getLedgers_page]): below the local range it delivers the ledgers the store
    holds. *)
Lemma reader_datastore_ok (h : ledgersHandler) r w fmt start f lcm ready info :
  lh_datastoreLedgerReader h = Some (reader_at r w) -> 0 <= start -> f < 2 ^ 32 ->
  serves r w start (f - 1) lcm ready ->
  (forall k, start <= k < f -> exists raw, lcm_MarshalBinary (lcm k) = Ok raw /\
    parseLedgerInfo {| Chunk_Lcm := raw; Chunk_Header := lcm_LedgerHeaderHistoryEntry (lcm k) |} fmt = Ok (info k)) ->
  datastore_ok h fmt start f info.
Proof.
  intros Hh Hs Hf Hserves Hinfo. exists (reader_at r w). split; [done|]. intros b Hb.
  destruct (render_ledgers fmt lcm info (seqZ start (b - start + 1))) as (chunks&H1&H2).
  { apply Forall_forall. intros k Hk%elem_of_seqZ. apply Hinfo. lia. }
  exists (lcm <$> seqZ start (b - start + 1)), chunks. split_and!; [|done|done].
  by apply (reader_at_serves r w start (f - 1) lcm ready); [|lia..].
Qed.

End Serving.

(** ** A store that holds the ledgers 2 to 9, and a trace of the calls *)

Section Witnesses.

Inductive call := Made | Prepared (a b : Z) | Fetched (k : Z) | Closed.

#[local] Instance ex_backends : LedgerBackends (H := ex_types) := {
  BackendWorld := list call;
  LedgerBackend := unit;
  Range := Z * Z;
  BoundedRange a b := (a, b);
  Range_From := fst;
  Range_To := snd;
  be_PrepareRange _ range w := (Ok tt, w ++ [Prepared range.1 range.2]);
  be_GetLedger _ k w :=
    if decide (2 <= k <= 9) then (Ok k, w ++ [Fetched k]) else (Err (EExt "ledger is missing from the store"), w);
  be_Close _ w := (Ok tt, w ++ [Closed]);
  BufferedConfig := unit;
  Store := unit;
  Schema := unit;
  NewBufferedStorageBackend _ _ _ w := (Ok tt, w ++ [Made]);
}.

#[local] Instance ex_range_laws : RangeLaws (ST := ex_types).
Proof. by split. Qed.

Definition ex_reader : ledgerReader := NewLedgerReader tt tt tt.

(** The fourth ledger after 8 is missing: its error ends the call, and the backend
    is closed all the same. *)
Lemma GetLedgers_terminates_witness :
  GetLedgers 4 ex_reader 3 5 [] =
    (Ok (Some [3; 4; 5]), [Made; Prepared 3 5; Fetched 3; Fetched 4; Fetched 5; Closed]) /\
  GetLedgers 5 ex_reader 8 11 [] =
    (Err (EExt "ledger is missing from the store"), [Made; Prepared 8 11; Fetched 8; Fetched 9; Closed]) /\
  forall fuel ls, (GetLedgers fuel ex_reader 8 (2 ^ 32 - 1) []).1 ≠ Ok (Some ls).
Proof.
  destruct (GetLedgers_terminates ex_reader 3 5 []) as [H1 _]; [lia|lia|].
  destruct (GetLedgers_terminates ex_reader 8 11 []) as [H2 _]; [lia|lia|].
  destruct (GetLedgers_terminates ex_reader 8 (2 ^ 32 - 1) []) as [_ H3]; [lia|lia|].
  split_and!.
  - destruct (H1 ltac:(lia) 4%nat ltac:(lia)) as [E _]. etransitivity; [exact E|vm_compute; reflexivity].
  - destruct (H2 ltac:(lia) 5%nat ltac:(lia)) as [E _]. etransitivity; [exact E|vm_compute; reflexivity].
  - apply H3. reflexivity.
Defined.

End Witnesses.
