(* ===== verification/Network.v ===== *)
(** * Request limiting (internal/network)

    The backlog queue limiters admit a bounded number of concurrent requests
    with atomic counters: their requests are processes of a step relation, one
    step per atomic operation.  The duration limiters race a request against
    two timers and buffer what an HTTP handler writes. *)

From S2P Require Import Prelude.

(** ** The backlog queue limiters (backlogQ.go) *)

Definition RequestBacklogQueueNoLimit : Z := 2 ^ 64 - 1.

(** The fields of [backlogQLimiter] that requests share; [q_gauge] is [None]
    when no gauge is configured. *)
Record backlogQLimiter := MkBacklogQLimiter {
  q_limit : Z;
  q_pending : Z;
  q_gauge : option Z;
  q_limitReached : Z;
}.

(** [MakeHTTPBacklogQueueLimiter], [MakeJrpcBacklogQueueLimiter] *)
Definition MakeBacklogQueueLimiter (gauge : option Z) (limit : Z) : backlogQLimiter :=
  MkBacklogQLimiter limit 0 gauge 0.

(** [atomic.AddUint64(&q.pending, 1)] and [atomic.AddUint64(&q.pending, ^uint64(0))] *)
Definition add_pending (delta : Z) (q : backlogQLimiter) : backlogQLimiter :=
  MkBacklogQLimiter (q_limit q) (u64 (q_pending q + delta)) (q_gauge q) (q_limitReached q).

(** [q.gauge.Inc()] and [q.gauge.Dec()], when there is a gauge *)
Definition add_gauge (delta : Z) (q : backlogQLimiter) : backlogQLimiter :=
  MkBacklogQLimiter (q_limit q) (q_pending q) ((fun g => g + delta) <$> q_gauge q) (q_limitReached q).

Definition set_limitReached (v : Z) (q : backlogQLimiter) : backlogQLimiter :=
  MkBacklogQLimiter (q_limit q) (q_pending q) (q_gauge q) v.

(** How a call ends: with what the downstream handler did, or refused. *)
Inductive outcome (A : Type) :=
  | Served (a : A)
  | Refused (e : error)
  | RefusedStatus (code : Z).
Arguments Served {A} a.
Arguments Refused {A} e.
Arguments RefusedStatus {A} code.

(** Where a request is between two atomic operations. *)
Inductive request_pc (A : Type) :=
  | Arrived
  | PassThrough
  | Counted (newPending : Z) (* added itself, has not compared with the limit *)
  | Undo (* over the limit, has not taken itself off *)
  | Report (* taken off, has not set limitReached *)
  | Within (* within the limit, gauge not increased *)
  | Running (* in the downstream handler *)
  | Leaving (a : A) (* deferred: pending not decreased *)
  | Leaving2 (a : A) (* deferred: gauge not decreased *)
  | Leaving3 (a : A) (* deferred: limitReached not cleared *)
  | Finished (o : outcome A).
Arguments Arrived {A}. Arguments PassThrough {A}. Arguments Counted {A} newPending.
Arguments Undo {A}. Arguments Report {A}. Arguments Within {A}. Arguments Running {A}.
Arguments Leaving {A} a. Arguments Leaving2 {A} a. Arguments Leaving3 {A} a. Arguments Finished {A} o.

Section Backlog.
Context {A : Type}.

(** One atomic step of a request; [a] is what the downstream handler returns or
    its panic, [refusal] how the limiter turns a request away. *)
Inductive limiter_step (refusal : outcome A) : request_pc A -> backlogQLimiter -> request_pc A -> backlogQLimiter -> Prop :=
  | step_pass q : q_limit q = RequestBacklogQueueNoLimit ->
      limiter_step refusal Arrived q PassThrough q
  | step_passed q a : limiter_step refusal PassThrough q (Finished (Served a)) q
  | step_count q : q_limit q <> RequestBacklogQueueNoLimit ->
      limiter_step refusal Arrived q (Counted (q_pending (add_pending 1 q))) (add_pending 1 q)
  | step_over q n : q_limit q < n -> limiter_step refusal (Counted n) q Undo q
  | step_within q n : n <= q_limit q -> limiter_step refusal (Counted n) q Within q
  | step_undo q : limiter_step refusal Undo q Report (add_pending (-1) q)
  | step_report q : (* CompareAndSwap(&q.limitReached, 0, 1) *)
      limiter_step refusal Report q (Finished refusal)
        (if decide (q_limitReached q = 0) then set_limitReached 1 q else q)
  | step_admit q : limiter_step refusal Within q Running (add_gauge 1 q)
  | step_run q a : limiter_step refusal Running q (Leaving a) q
  | step_leave q a : limiter_step refusal (Leaving a) q (Leaving2 a) (add_pending (-1) q)
  | step_leave2 q a : limiter_step refusal (Leaving2 a) q (Leaving3 a) (add_gauge (-1) q)
  | step_leave3 q a : limiter_step refusal (Leaving3 a) q (Finished (Served a)) (set_limitReached 0 q).

(** [BacklogHTTPQLimiter.ServeHTTP] answers 503, [BacklogJrpcQLimiter.Handle]
    returns an error. *)
Definition ServeHTTP_step := limiter_step (RefusedStatus 503).
Definition Handle_step (method : string) (limit : Z) :=
  limiter_step (Refused (EMsg ("rpc queue for " +:+ method +:+ " surpassed queue limit of "
                               +:+ pretty limit +:+ " requests"))).

(** Concurrent requests on one limiter: any of them takes the next step.  Each
    carries its own refusal. *)
Definition system : Type := list (outcome A * request_pc A) * backlogQLimiter.

Inductive system_step : system -> system -> Prop :=
  | sys_step reqs q i refusal pc pc' q' : reqs !! i = Some (refusal, pc) -> limiter_step refusal pc q pc' q' ->
      system_step (reqs, q) (<[i := (refusal, pc')]> reqs, q').

(** ** What the counters count *)

Definition holds_slot (r : outcome A * request_pc A) : Prop :=
  match r.2 with Counted _ | Undo | Within | Running | Leaving _ => True | _ => False end.

(** Past the comparison, or about to pass it. *)
Definition is_admitted (limit : Z) (r : outcome A * request_pc A) : Prop :=
  match r.2 with Counted n => n <= limit | Within | Running | Leaving _ => True | _ => False end.

Definition on_gauge (r : outcome A * request_pc A) : Prop :=
  match r.2 with Running | Leaving _ | Leaving2 _ => True | _ => False end.

Definition in_handler (r : outcome A * request_pc A) : Prop :=
  match r.2 with Running => True | _ => False end.

#[global] Instance holds_slot_dec r : Decision (holds_slot r).
Proof. destruct r as [? pc]; destruct pc; unfold holds_slot, is_admitted, on_gauge, in_handler; simpl; apply _. Defined.
#[global] Instance is_admitted_dec limit r : Decision (is_admitted limit r).
Proof. destruct r as [? pc]; destruct pc; unfold holds_slot, is_admitted, on_gauge, in_handler; simpl; apply _. Defined.
#[global] Instance on_gauge_dec r : Decision (on_gauge r).
Proof. destruct r as [? pc]; destruct pc; unfold holds_slot, is_admitted, on_gauge, in_handler; simpl; apply _. Defined.
#[global] Instance in_handler_dec r : Decision (in_handler r).
Proof. destruct r as [? pc]; destruct pc; unfold holds_slot, is_admitted, on_gauge, in_handler; simpl; apply _. Defined.

Record limiter_inv (n limit g0 : Z) (s : system) : Prop := {
  li_count : zlen s.1 = n;
  li_limit : q_limit s.2 = limit;
  li_pending : q_pending s.2 = tally holds_slot s.1;
  li_gauge : forall g, q_gauge s.2 = Some g -> g = g0 + tally on_gauge s.1;
  li_admitted : tally (is_admitted limit) s.1 <= limit;
}.

Lemma limiter_inv_step n limit g0 s s' :
  n < 2 ^ 64 -> limit <> RequestBacklogQueueNoLimit ->
  limiter_inv n limit g0 s -> system_step s s' -> limiter_inv n limit g0 s'.
Proof.
  intros Hn Hnl [Hc Hl Hp Hg Ha] Hst. destruct Hst as [reqs q i refusal pc pc' q' Hi Hstep]. simpl in *.
  pose proof (tally_bounds holds_slot reqs) as Hb.
  pose proof (tally_insert holds_slot reqs i (refusal, pc) (refusal, pc') Hi) as T1.
  pose proof (tally_insert on_gauge reqs i (refusal, pc) (refusal, pc') Hi) as T2.
  pose proof (tally_insert (is_admitted limit) reqs i (refusal, pc) (refusal, pc') Hi) as T3.
  pose proof (tally_le (is_admitted limit) holds_slot (<[i := (refusal, pc')]> reqs)
    ltac:(intros [? []]; unfold is_admitted, holds_slot; simpl; tauto)) as T4.
  pose proof (tally_bounds holds_slot (<[i := (refusal, pc')]> reqs)) as Hb'.
  assert (zlen (<[i := (refusal, pc')]> reqs) = n) as Hc' by (unfold zlen in *; by rewrite length_insert).
  set (h := tally holds_slot reqs) in *. set (h' := tally holds_slot (<[i := (refusal, pc')]> reqs)) in *.
  set (g := tally on_gauge reqs) in *. set (g' := tally on_gauge (<[i := (refusal, pc')]> reqs)) in *.
  set (a := tally (is_admitted limit) reqs) in *.
  set (a' := tally (is_admitted limit) (<[i := (refusal, pc')]> reqs)) in *.
  cut (q_limit q' = limit /\ q_pending q' = h' /\ (forall x, q_gauge q' = Some x -> x = g0 + g') /\ a' <= limit).
  { intros (?&?&?&?). by split. }
  clearbody h h' g g' a a'. unfold bit, holds_slot, is_admitted, on_gauge in T1, T2, T3.
  pose proof (u64_small (q_pending q + 1)) as U1. pose proof (u64_small (q_pending q + -1)) as U2.
  unfold is_u64 in U1, U2.
  destruct Hstep; simpl in *; repeat case_decide; try done; simpl;
    (split_and!; [done|lia| |lia]); intros x; first
      [ intros Hgg; specialize (Hg _ Hgg); lia
      | destruct (q_gauge q) as [y|]; simpl; [|done]; intros [= <-]; specialize (Hg _ eq_refl); lia ].
Qed.

(** No request has arrived; [refusals] lists how each would be refused. *)
Definition initial_system (gauge : option Z) (limit : Z) (refusals : list (outcome A)) : system :=
  ((fun o => (o, Arrived)) <$> refusals, MakeBacklogQueueLimiter gauge limit).

Definition is_finished (r : outcome A * request_pc A) : Prop := exists o, r.2 = Finished o.

Lemma limiter_inv_initial gauge limit refusals :
  0 <= limit ->
  limiter_inv (zlen refusals) limit (default 0 gauge) (initial_system gauge limit refusals).
Proof.
  intros Hl.
  assert (forall (P : outcome A * request_pc A -> Prop) `{forall r, Decision (P r)}, (forall o, ~ P (o, Arrived)) ->
    tally P ((fun o => (o, Arrived)) <$> refusals) = 0) as H0.
  { intros P HP Hn. apply tally_none. intros r (o&->&_)%list_elem_of_fmap. apply Hn. }
  split; simpl.
  - unfold zlen. by rewrite length_fmap.
  - done.
  - symmetry. apply H0. intros o [].
  - intros g ->. rewrite H0 by (intros o []). simpl. lia.
  - rewrite H0 by (intros o []). done.
Qed.

Lemma limiter_inv_reachable gauge limit refusals s :
  0 <= limit -> limit <> RequestBacklogQueueNoLimit -> zlen refusals < 2 ^ 64 ->
  rtc system_step (initial_system gauge limit refusals) s ->
  limiter_inv (zlen refusals) limit (default 0 gauge) s.
Proof.
  intros Hl Hnl Hn Hr. pose proof (limiter_inv_initial gauge limit refusals Hl) as Hi.
  induction Hr as [|s1 s2 s3 Hst Hr IH]; [done|]. by eapply IH, limiter_inv_step.
Qed.

Lemma gauge_kept s s' : rtc system_step s s' -> is_Some (q_gauge s.2) <-> is_Some (q_gauge s'.2).
Proof.
  induction 1 as [s|s1 s2 s3 Hst Hr IH]; [done|]. rewrite <- IH. clear IH Hr.
  destruct Hst as [reqs q i refusal pc pc' q' Hi Hstep]. simpl. destruct Hstep; simpl; try done.
  - by case_decide.
  - by rewrite fmap_is_Some.
  - by rewrite fmap_is_Some.
Qed.

Lemma unfinished_steps refusal pc q :
  (forall o, pc <> Finished o) -> inhabited A -> exists pc' q', limiter_step refusal pc q pc' q'.
Proof.
  intros Hf [a]. destruct pc as [| |n| | | | |b|b|b|o].
  - destruct (decide (q_limit q = RequestBacklogQueueNoLimit)).
    + eexists _, _. by apply step_pass.
    + eexists _, _. by apply step_count.
  - eexists _, _. apply (step_passed _ _ a).
  - destruct (decide (n <= q_limit q)).
    + eexists _, _. by apply step_within.
    + eexists _, _. apply step_over. lia.
  - eexists _, _. apply step_undo.
  - eexists _, _. apply step_report.
  - eexists _, _. apply step_admit.
  - eexists _, _. apply (step_run _ _ a).
  - eexists _, _. apply step_leave.
  - eexists _, _. apply step_leave2.
  - eexists _, _. apply step_leave3.
  - by destruct (Hf o).
Qed.

(** A request that counts itself over the limit finds the slots taken. *)
Lemma counting_over (reqs : list (outcome A * request_pc A)) j r q limit :
  reqs !! j = Some r -> ~ holds_slot r -> zlen reqs < 2 ^ 64 -> q_pending q = tally holds_slot reqs ->
  limit < q_pending (add_pending 1 q) -> limit <= tally holds_slot reqs.
Proof.
  intros Hj Hns Hn Hp. simpl. rewrite Hp.
  pose proof (tally_insert holds_slot reqs j r (r.1, Undo) Hj) as Ht.
  pose proof (tally_bounds holds_slot (<[j := (r.1, Undo)]> reqs)) as Hb.
  unfold zlen in Hb. rewrite length_insert in Hb. unfold bit in Ht.
  rewrite decide_False, decide_True in Ht by (done || exact I). pose proof (tally_bounds holds_slot reqs).
  rewrite u64_small; unfold_ints; unfold zlen in *; lia.
Qed.

(** A request that was turned away, or counted itself over the limit. *)
Definition turned_away (limit : Z) (r : outcome A * request_pc A) : Prop :=
  match r.2 with
  | Counted n => limit < n
  | Undo | Report | Finished (Refused _) | Finished (RefusedStatus _) => True
  | _ => False
  end.

(** When the [i]-th request of a run counted itself, [limit] others had a slot. *)
Definition found_full (s0 : system) (limit : Z) (i : nat) (s : system) : Prop :=
  exists s1 s2 o, rtc system_step s0 s1 /\ system_step s1 s2 /\ rtc system_step s2 s /\
    s1.1 !! i = Some (o, Arrived) /\ (forall o', s2.1 !! i <> Some (o', Arrived)) /\
    limit <= tally holds_slot s1.1.

Lemma found_full_step s0 limit i s s' : found_full s0 limit i s -> system_step s s' -> found_full s0 limit i s'.
Proof.
  intros (s1&s2&o&H1&H2&H3&H4&H5) Hst. exists s1, s2, o. split_and!; try done; [|apply H5..].
  by eapply rtc_r.
Qed.

(** Only a request that found the slots taken is turned away. *)
Lemma turned_away_found_full gauge limit refusals s :
  0 <= limit -> limit <> RequestBacklogQueueNoLimit -> zlen refusals < 2 ^ 64 ->
  rtc system_step (initial_system gauge limit refusals) s ->
  forall i r, s.1 !! i = Some r -> turned_away limit r -> found_full (initial_system gauge limit refusals) limit i s.
Proof.
  intros Hl Hnl Hn Hr. set (s0 := initial_system gauge limit refusals) in *.
  refine (rtc_ind_r (fun s => forall i r, s.1 !! i = Some r -> turned_away limit r -> found_full s0 limit i s)
    s0 _ _ s Hr).
  { intros i r Hi Ht. unfold s0, initial_system in Hi. simpl in Hi. rewrite list_lookup_fmap in Hi.
    destruct (refusals !! i); by simplify_eq/=. }
  intros s1 s2 H01 Hst IH i r Hi Ht.
  destruct (limiter_inv_reachable _ _ _ _ Hl Hnl Hn H01) as [Hc Hlim Hp _ _].
  pose proof Hst as Hst'. destruct Hst' as [reqs q j refusal pc pc' q' Hj Hstep]. simpl in *.
  destruct (decide (i = j)) as [->|Hne].
  2: { rewrite list_lookup_insert_ne in Hi by done. eapply found_full_step; [|done]. by apply (IH i r). }
  rewrite list_lookup_insert_eq in Hi by (by eapply lookup_lt_Some). injection Hi as <-.
  assert (turned_away limit (refusal, pc) -> found_full s0 limit j (<[j:=(refusal, pc')]> reqs, q')) as Hold.
  { intros Hpc. eapply found_full_step; [|done]. by apply (IH j (refusal, pc)). }
  unfold turned_away in *. simpl in *.
  destruct Hstep; simpl in *; try done; try (by apply Hold).
  - exists (reqs, q), (<[j:=(refusal, Counted (u64 (q_pending q + 1)))]> reqs, add_pending 1 q), refusal.
    simpl. split_and!; [done|by eapply sys_step; [|by apply step_count]|apply rtc_refl|done| |].
    + intros o'. rewrite list_lookup_insert_eq by (by eapply lookup_lt_Some). done.
    + eapply (counting_over reqs j _ q _ Hj); [intros []|lia|done|done].
  - apply Hold. lia.
Qed.

(** C21: In every interleaving of the atomic steps of any number of concurrent
    requests, at most [limit] of them are in the downstream handler at once.  A
    request is turned away only if [limit] others were holding a slot at the
    moment it counted itself; no request is ever stuck; and when all have ended,
    served, refused or panicked, the backlog is empty and the gauge is back at
    its first value. *)
Theorem backlog_bounded gauge limit refusals reqs q :
  0 <= limit -> limit <> RequestBacklogQueueNoLimit -> zlen refusals < 2 ^ 64 -> inhabited A ->
  rtc system_step (initial_system gauge limit refusals) (reqs, q) ->
  tally in_handler reqs <= limit /\
  (forall i r, reqs !! i = Some r -> turned_away limit r ->
     found_full (initial_system gauge limit refusals) limit i (reqs, q)) /\
  (forall i o pc, reqs !! i = Some (o, pc) -> (forall e, pc <> Finished e) ->
     exists s', system_step (reqs, q) s') /\
  ((forall r, r ∈ reqs -> is_finished r) -> q_pending q = 0 /\ q_gauge q = gauge).
Proof.
  intros Hl Hnl Hn Hinh Hr. pose proof (limiter_inv_reachable _ _ _ _ Hl Hnl Hn Hr) as Hi.
  pose proof Hi as [Hc Hlim Hp Hg Ha]. simpl in *. split_and!.
  - etrans; [|exact Ha]. apply tally_le. intros [? []]; unfold in_handler, is_admitted; simpl; tauto.
  - by apply (turned_away_found_full gauge limit refusals (reqs, q)).
  - intros i o pc Hio Hf. destruct (unfinished_steps o pc q Hf Hinh) as (pc'&q'&Hst).
    eexists. by econstructor.
  - intros Hf.
    assert (forall (P : outcome A * request_pc A -> Prop) `{forall r, Decision (P r)}, (forall o e, ~ P (o, Finished e)) -> tally P reqs = 0) as H0.
    { intros P HP Hnp. apply tally_none. intros [o pc] Hin. destruct (Hf _ Hin) as [e He]. simpl in He. subst. apply Hnp. }
    rewrite Hp, H0 by (intros o e []). split; [done|].
    pose proof (gauge_kept _ _ Hr) as Hk. simpl in Hk.
    destruct (q_gauge q) as [g|] eqn:Eg.
    + specialize (Hg g eq_refl). rewrite H0 in Hg by (intros o e []). destruct gauge; [|by destruct Hk; exfalso; naive_solver].
      simpl in Hg. f_equal. lia.
    + destruct gauge; [exfalso; naive_solver|done].
Qed.

End Backlog.

(** ** The duration limiters (requestdurationlimiter.go) *)

Definition maxDuration : Z := 2 ^ 63 - 1.
Definition RequestDurationLimiterNoLimit : Z := maxDuration.

(** Counters are [None] when not configured. *)
Record requestDurationLimiter := MkRequestDurationLimiter {
  warningThreshold : Z;
  limitThreshold : Z;
  warningCounter : option Z;
  limitCounter : option Z;
}.

(** [MakeHTTPRequestDurationLimiter], [MakeJrpcRequestDurationLimiter] *)
Definition MakeRequestDurationLimiter (warning limit : Z) (warnings limits : option Z) : requestDurationLimiter :=
  MkRequestDurationLimiter (if decide (limit < warning) then limit else warning) limit warnings limits.

Definition inc_warning (q : requestDurationLimiter) : requestDurationLimiter :=
  MkRequestDurationLimiter (warningThreshold q) (limitThreshold q) ((fun c => c + 1) <$> warningCounter q) (limitCounter q).
Definition inc_limit (q : requestDurationLimiter) : requestDurationLimiter :=
  MkRequestDurationLimiter (warningThreshold q) (limitThreshold q) (warningCounter q) ((fun c => c + 1) <$> limitCounter q).

(** What the select of the handler receives: a timer, or the end of the
    downstream handler with its result. *)
Inductive sel_event (R : Type) :=
  | WarningFired
  | LimitFired
  | Completed (r : R).
Arguments WarningFired {R}. Arguments LimitFired {R}. Arguments Completed {R} r.

(** The timers that are set. *)
Definition warning_armed (q : requestDurationLimiter) : Prop :=
  warningThreshold q <> 0 /\ warningThreshold q < limitThreshold q.
Definition limit_armed (q : requestDurationLimiter) : Prop := limitThreshold q <> 0.

(** The select loop on the events in the order it receives them: how it ended
    and whether a warning was pending; [None] while it waits. *)
Inductive sel_outcome (R : Type) :=
  | TimedOut
  | Ended (warn : bool) (r : R).
Arguments TimedOut {R}. Arguments Ended {R} warn r.

Fixpoint select_loop {R} (warn : bool) (events : list (sel_event R)) : option (sel_outcome R) :=
  match events with
  | [] => None
  | WarningFired :: events => select_loop true events
  | LimitFired :: _ => Some TimedOut
  | Completed r :: _ => Some (Ended warn r)
  end.

(** *** The JSON-RPC limiter *)

Definition ErrRequestExceededProcessingLimitThreshold : error :=
  EJrpc (OtherCode (-32001)) "request exceeded processing limit threshold".
Definition ErrFailToProcessDueToInternalIssue : error :=
  EJrpc (OtherCode (-32003)) "request failed to process due to internal issue".

(** [RPCRequestDurationLimiter.Handle]; [ctxErr] is the error of the caller's
    context when the limit fires; a completion without a value is a panic. *)
Definition Handle_limited {D} (ctxErr : option error) (direct : Res D) (events : list (sel_event (option (Res D))))
    (q : requestDurationLimiter) : option (Res D * requestDurationLimiter) :=
  if decide (limitThreshold q = RequestDurationLimiterNoLimit) then Some (direct, q)
  else
    match select_loop false events with
    | None => None
    | Some TimedOut =>
        Some (Err (match ctxErr with None => ErrRequestExceededProcessingLimitThreshold | Some e => e end), inc_limit q)
    | Some (Ended warn r) =>
        let q := if (warn : bool) then inc_warning q else q in
        Some (match r with
              | Some res => res
              | None => Err ErrFailToProcessDueToInternalIssue
              end, q)
    end.

(** *** The HTTP limiter *)

Abbreviation header := (gmap string (list string)).

(** [bufferedResponseWriter]; a status code of 0 means none was written. *)
Record bufferedResponseWriter := MkBufferedResponseWriter {
  bw_header : header;
  bw_buffer : string;
  bw_statusCode : Z;
}.

(** The server's [http.ResponseWriter]: the live header map, what was sent (the
    status with the headers of that moment) and the body. *)
Record response := MkResponse {
  rw_header : header;
  rw_sent : option (Z * header);
  rw_body : string;
}.

(** What a handler does with its writer. *)
Inductive write_op :=
  | SetHeader (k : string) (v : list string)
  | WriteHeaderOp (statusCode : Z)
  | WriteOp (buf : string).

(** The semantics of net/http: the first status is sent with the headers of that
    moment, a write without one sends 200. *)
Definition rw_WriteHeader (statusCode : Z) (w : response) : response :=
  match rw_sent w with
  | Some _ => w (* superfluous *)
  | None => MkResponse (rw_header w) (Some (statusCode, rw_header w)) (rw_body w)
  end.

Definition rw_op (w : response) (o : write_op) : response :=
  match o with
  | SetHeader k v => MkResponse (<[k := v]> (rw_header w)) (rw_sent w) (rw_body w)
  | WriteHeaderOp c => rw_WriteHeader c w
  | WriteOp b => let w := rw_WriteHeader 200 w in MkResponse (rw_header w) (rw_sent w) (rw_body w +:+ b)
  end.

(** When the handler returns, a response without a status is a 200. *)
Definition rw_finish (w : response) : response := rw_WriteHeader 200 w.

Definition makeBufferedResponseWriter (rw : response) : bufferedResponseWriter :=
  MkBufferedResponseWriter (rw_header rw) "" 0.

(** [Header], [WriteHeader] and [Write] of the buffer *)
Definition bw_op (w : bufferedResponseWriter) (o : write_op) : bufferedResponseWriter :=
  match o with
  | SetHeader k v => MkBufferedResponseWriter (<[k := v]> (bw_header w)) (bw_buffer w) (bw_statusCode w)
  | WriteHeaderOp c => MkBufferedResponseWriter (bw_header w) (bw_buffer w) c
  | WriteOp b => MkBufferedResponseWriter (bw_header w) (bw_buffer w +:+ b) (bw_statusCode w)
  end.

Definition WriteOut (ctxErr : option error) (w : bufferedResponseWriter) (rw : response) : response :=
  let rw := MkResponse (bw_header w) (rw_sent rw) (rw_body rw) in
  if decide (String.length (bw_buffer w) = 0%nat) then
    if decide (bw_statusCode w <> 0) then rw_WriteHeader (bw_statusCode w) rw else rw
  else
    let rw := if decide (bw_statusCode w <> 0) then rw_WriteHeader (bw_statusCode w) rw else rw in
    match ctxErr with
    | None => rw_op rw (WriteOp (bw_buffer w))
    | Some _ => rw
    end.

(** What happens during a call, in order: the downstream handler, on its own
    goroutine, uses its writer or ends, with its call stack if it panicked, and
    the timers fire; [ctxErr] is the error of the request's context when the
    select receives the event. *)
Inductive http_event :=
  | HandlerWrites (o : write_op)
  | HandlerEnds (errStrings : list string) (ctxErr : option error)
  | WarningTimer
  | LimitTimer (ctxErr : option error).

(** The locals of [ServeHTTP]; the handler still runs, and writes, after the
    call has returned. *)
Record http_call := MkHttpCall {
  hc_res : response;
  hc_responseBuffer : bufferedResponseWriter;
  hc_limiter : requestDurationLimiter;
  hc_warn : bool;
  hc_returned : bool;
}.

Definition http_step (c : http_call) (e : http_event) : http_call :=
  let '(MkHttpCall res responseBuffer q warn returned) := c in
  match e with
  | HandlerWrites o => MkHttpCall res (bw_op responseBuffer o) q warn returned
  | WarningTimer => if returned then c else MkHttpCall res responseBuffer q true false
  | LimitTimer ctxErr =>
      if returned then c
      else MkHttpCall (match ctxErr with None => rw_WriteHeader 504 res | Some _ => res end)
             responseBuffer (inc_limit q) warn true
  | HandlerEnds errStrings ctxErr =>
      if returned then c
      else MkHttpCall (if decide (length errStrings = 0%nat) then WriteOut ctxErr responseBuffer res
                       else rw_WriteHeader 500 res)
             responseBuffer (if warn then inc_warning q else q) warn true
  end.

Definition handler_writes (events : list http_event) : list write_op :=
  omap (fun e => match e with HandlerWrites o => Some o | _ => None end) events.

Definition ends_call (e : http_event) : bool :=
  match e with HandlerEnds _ _ | LimitTimer _ => true | _ => false end.

(** [httpRequestDurationLimiter.ServeHTTP]; without a limit it is the handler. *)
Definition ServeHTTP_limited (events : list http_event) (res : response) (q : requestDurationLimiter) : http_call :=
  if decide (limitThreshold q = RequestDurationLimiterNoLimit)
  then MkHttpCall (foldl rw_op res (handler_writes events)) (makeBufferedResponseWriter res) q false
         (existsb (fun e => match e with HandlerEnds _ _ => true | _ => false end) events)
  else foldl http_step (MkHttpCall res (makeBufferedResponseWriter res) q false false) events.

(** *** What the limiters promise *)

(** Events that do not end the loop. *)
Definition only_warnings {R} (events : list (sel_event R)) : Prop := forall e, e ∈ events -> e = WarningFired.

Lemma select_loop_warnings {R} warn (pre post : list (sel_event R)) :
  only_warnings pre ->
  select_loop warn (pre ++ post) = select_loop (warn || negb (bool_decide (pre = []))) post.
Proof.
  revert warn; induction pre as [|e pre IH]; intros warn Hp; simpl; [by rewrite orb_false_r|].
  rewrite (Hp e) by (by left). rewrite IH by (intros e' He'; apply Hp; by right).
  by rewrite orb_true_r.
Qed.

(** Until a call ends the response is untouched and the writes are buffered. *)
Lemma http_steps_running res bw q warn pre :
  existsb ends_call pre = false ->
  exists warn', foldl http_step (MkHttpCall res bw q warn false) pre =
      MkHttpCall res (foldl bw_op bw (handler_writes pre)) q warn' false /\
    (warn' = true <-> warn = true \/ WarningTimer ∈ pre).
Proof.
  revert bw warn; induction pre as [|e pre IH]; intros bw warn Hp; simpl.
  { exists warn. split; [done|]. rewrite elem_of_nil. tauto. }
  apply orb_false_iff in Hp as [He Hp]. destruct e as [o|errs c| |c]; simpl in He; try done; simpl.
  - destruct (IH (bw_op bw o) warn Hp) as (warn'&->&Hw). exists warn'. split; [done|].
    rewrite elem_of_cons, Hw. naive_solver.
  - destruct (IH bw true Hp) as (warn'&->&Hw). exists warn'. split; [done|].
    rewrite elem_of_cons, Hw. naive_solver.
Qed.

(** After the call has returned nothing reaches the client or the counters. *)
Lemma http_steps_returned res bw q warn post :
  exists bw', foldl http_step (MkHttpCall res bw q warn true) post = MkHttpCall res bw' q warn true.
Proof.
  revert bw; induction post as [|e post IH]; intros bw; simpl; [by eexists|]. destruct e; simpl; apply IH.
Qed.

(** A handler that sets its headers, then its status if any, then writes. *)
Definition in_order (ops : list write_op) : Prop :=
  exists hs st bs, ops = ((fun '(k, v) => SetHeader k v) <$> hs) ++ (WriteHeaderOp <$> option_list st) ++ (WriteOp <$> bs) /\
    (forall c, st = Some c -> c <> 0).

Definition set_headers (hs : list (string * list string)) (h : header) : header :=
  foldl (fun h '(k, v) => <[k := v]> h) h hs.

Lemma foldl_rw_headers hs w :
  foldl rw_op w ((fun '(k, v) => SetHeader k v) <$> hs) = MkResponse (set_headers hs (rw_header w)) (rw_sent w) (rw_body w).
Proof. revert w; induction hs as [|[k v] hs IH]; intros w; simpl; [by destruct w|]. by rewrite IH. Qed.

Lemma foldl_bw_headers hs w :
  foldl bw_op w ((fun '(k, v) => SetHeader k v) <$> hs) =
  MkBufferedResponseWriter (set_headers hs (bw_header w)) (bw_buffer w) (bw_statusCode w).
Proof. revert w; induction hs as [|[k v] hs IH]; intros w; simpl; [by destruct w|]. by rewrite IH. Qed.

Lemma string_app_assoc (a b c : string) : (a +:+ b) +:+ c = a +:+ (b +:+ c).
Proof. induction a as [|x a IH]; simpl; [done|]. unfold String.app in *. simpl. by rewrite IH. Qed.

Lemma string_app_nil_r (a : string) : a +:+ "" = a.
Proof. induction a as [|x a IH]; simpl; [done|]. unfold String.app in *. simpl. by rewrite IH. Qed.

(** The bytes of consecutive writes. *)
Definition written (bs : list string) : string := foldr String.app "" bs.

Lemma foldl_rw_sent bs w c h :
  rw_sent w = Some (c, h) ->
  foldl rw_op w (WriteOp <$> bs) = MkResponse (rw_header w) (Some (c, h)) (rw_body w +:+ written bs).
Proof.
  revert w; induction bs as [|b bs IH]; intros w Hs; simpl.
  { rewrite string_app_nil_r. destruct w. simpl in *. by subst. }
  unfold rw_WriteHeader. rewrite Hs, IH by done. simpl. by rewrite string_app_assoc.
Qed.

Lemma foldl_bw_writes bs w :
  foldl bw_op w (WriteOp <$> bs) = MkBufferedResponseWriter (bw_header w) (bw_buffer w +:+ written bs) (bw_statusCode w).
Proof.
  revert w; induction bs as [|b bs IH]; intros w; simpl.
  { rewrite string_app_nil_r. by destruct w. }
  rewrite IH. simpl. by rewrite string_app_assoc.
Qed.

Lemma string_length_0 (s : string) : String.length s = 0%nat -> s = "".
Proof. by destruct s. Qed.

(** A handler's operations, written directly. *)
Lemma direct_response res hs st bs :
  rw_sent res = None -> rw_body res = "" ->
  rw_finish (foldl rw_op res (((fun '(k, v) => SetHeader k v) <$> hs) ++ (WriteHeaderOp <$> option_list st) ++ (WriteOp <$> bs))) =
  MkResponse (set_headers hs (rw_header res)) (Some (default 200 st, set_headers hs (rw_header res))) (written bs).
Proof.
  intros Hs Hb. rewrite !foldl_app, foldl_rw_headers, Hs, Hb. set (h := set_headers hs (rw_header res)).
  unfold rw_finish. destruct st as [c|]; simpl.
  - unfold rw_WriteHeader at 2. simpl. by erewrite foldl_rw_sent.
  - destruct bs as [|b bs]; simpl; [done|]. by erewrite foldl_rw_sent.
Qed.

(** The same operations, buffered and written out. *)
Lemma buffered_response res hs st bs :
  rw_sent res = None -> rw_body res = "" -> (forall c, st = Some c -> c <> 0) ->
  rw_finish (WriteOut None (foldl bw_op (makeBufferedResponseWriter res)
    (((fun '(k, v) => SetHeader k v) <$> hs) ++ (WriteHeaderOp <$> option_list st) ++ (WriteOp <$> bs))) res) =
  MkResponse (set_headers hs (rw_header res)) (Some (default 200 st, set_headers hs (rw_header res))) (written bs).
Proof.
  intros Hs Hb Hst. rewrite !foldl_app, foldl_bw_headers. simpl. set (h := set_headers hs (rw_header res)).
  assert (foldl bw_op (foldl bw_op (MkBufferedResponseWriter h "" 0) (WriteHeaderOp <$> option_list st)) (WriteOp <$> bs)
          = MkBufferedResponseWriter h (written bs) (default 0 st)) as ->.
  { rewrite foldl_bw_writes. by destruct st. }
  unfold WriteOut, rw_finish, rw_WriteHeader. simpl. rewrite Hs, Hb.
  case_decide as Hl.
  - apply string_length_0 in Hl as ->. destruct st as [c|]; simpl; [|done].
    rewrite decide_True by (by apply Hst). done.
  - destruct st as [c|]; simpl; [rewrite decide_True by (by apply Hst)|]; done.
Qed.

Lemma select_loop_total {R} warn (events : list (sel_event R)) e :
  e ∈ events -> e <> WarningFired -> is_Some (select_loop warn events).
Proof.
  intros He Hw. revert warn. induction events as [|e' events IH]; intros warn; [by apply elem_of_nil in He|].
  apply elem_of_cons in He as [<-|He]; [by destruct e|]. destruct e'; simpl; [by apply IH|done..].
Qed.

(** The buffer written out to a client that has gone: no body. *)
Lemma buffered_response_cancelled res e hs st bs :
  rw_sent res = None -> rw_body res = "" -> (forall c, st = Some c -> c <> 0) ->
  rw_finish (WriteOut (Some e) (foldl bw_op (makeBufferedResponseWriter res)
    (((fun '(k, v) => SetHeader k v) <$> hs) ++ (WriteHeaderOp <$> option_list st) ++ (WriteOp <$> bs))) res) =
  MkResponse (set_headers hs (rw_header res)) (Some (default 200 st, set_headers hs (rw_header res))) "".
Proof.
  intros Hs Hb Hst. rewrite !foldl_app, foldl_bw_headers. simpl. set (h := set_headers hs (rw_header res)).
  assert (foldl bw_op (foldl bw_op (MkBufferedResponseWriter h "" 0) (WriteHeaderOp <$> option_list st)) (WriteOp <$> bs)
          = MkBufferedResponseWriter h (written bs) (default 0 st)) as ->.
  { rewrite foldl_bw_writes. by destruct st. }
  unfold WriteOut, rw_finish, rw_WriteHeader. simpl. rewrite Hs, Hb.
  case_decide; destruct st as [c|]; simpl; rewrite ?decide_True by (by apply Hst); done.
Qed.

(** C22: The HTTP duration limiter never mixes a handler's output with its own.
    If the handler ends before the limit fires, and set its headers, then its
    status if any, then wrote its body, the client receives the status, headers
    and body it would have received without the limiter, the limit counter is
    untouched and the warning counter raised if the warning had fired; a client
    whose context has ended receives no body.  If the limit fires first the
    client receives a bare 504, or nothing if its context has ended, whatever
    the handler has written and still writes afterwards; if the handler panics it
    receives a bare 500.  The call returns exactly when one of the two happens. *)
Theorem ServeHTTP_limited_transparent res q :
  limitThreshold q <> RequestDurationLimiterNoLimit -> rw_sent res = None -> rw_body res = "" ->
  (forall pre post ctxErr, existsb ends_call pre = false -> in_order (handler_writes pre) ->
     let c := ServeHTTP_limited (pre ++ HandlerEnds [] ctxErr :: post) res q in
     let direct := rw_finish (foldl rw_op res (handler_writes pre)) in
     rw_finish (hc_res c) =
       match ctxErr with None => direct | Some _ => MkResponse (rw_header direct) (rw_sent direct) "" end /\
     (WarningTimer ∈ pre -> hc_limiter c = inc_warning q) /\
     (WarningTimer ∉ pre -> hc_limiter c = q)) /\
  (forall pre post ctxErr, existsb ends_call pre = false ->
     let c := ServeHTTP_limited (pre ++ LimitTimer ctxErr :: post) res q in
     hc_res c = match ctxErr with
                | None => MkResponse (rw_header res) (Some (504, rw_header res)) ""
                | Some _ => res
                end /\
     hc_limiter c = inc_limit q) /\
  (forall pre post ctxErr frame frames, existsb ends_call pre = false ->
     hc_res (ServeHTTP_limited (pre ++ HandlerEnds (frame :: frames) ctxErr :: post) res q) =
       MkResponse (rw_header res) (Some (500, rw_header res)) "") /\
  (forall events, hc_returned (ServeHTTP_limited events res q) = existsb ends_call events).
Proof.
  intros Hq Hs Hb.
  assert (forall events, ServeHTTP_limited events res q =
    foldl http_step (MkHttpCall res (makeBufferedResponseWriter res) q false false) events) as Hrun.
  { intros events. unfold ServeHTTP_limited. by rewrite decide_False. }
  split; [|split; [|split]].
  - intros pre post ctxErr Hp (hs&st&bs&Hops&Hst). cbv zeta. rewrite Hrun, foldl_app. simpl.
    destruct (http_steps_running res (makeBufferedResponseWriter res) q false pre Hp) as (warn&->&Hw). simpl.
    destruct (http_steps_returned (WriteOut ctxErr (foldl bw_op (makeBufferedResponseWriter res) (handler_writes pre)) res)
      (foldl bw_op (makeBufferedResponseWriter res) (handler_writes pre)) (if warn then inc_warning q else q) warn post)
      as (bw'&->). simpl. rewrite Hops, direct_response by done. split_and!.
    + destruct ctxErr; [by rewrite buffered_response_cancelled by done|by rewrite buffered_response by done].
    + intros Hin. by rewrite (proj2 Hw) by (by right).
    + intros Hni. destruct warn; [|done]. by destruct (proj1 Hw eq_refl).
  - intros pre post ctxErr Hp. cbv zeta. rewrite Hrun, foldl_app. simpl.
    destruct (http_steps_running res (makeBufferedResponseWriter res) q false pre Hp) as (warn&->&_). simpl.
    match goal with |- context [foldl http_step (MkHttpCall ?a ?b ?c ?d true) post] =>
      destruct (http_steps_returned a b c d post) as (bw'&->) end. simpl.
    unfold rw_WriteHeader. rewrite Hs, Hb. split; [by destruct ctxErr|done].
  - intros pre post ctxErr frame frames Hp. rewrite Hrun, foldl_app. simpl.
    destruct (http_steps_running res (makeBufferedResponseWriter res) q false pre Hp) as (warn&->&_). simpl.
    match goal with |- context [foldl http_step (MkHttpCall ?a ?b ?c ?d true) post] =>
      destruct (http_steps_returned a b c d post) as (bw'&->) end. simpl.
    unfold rw_WriteHeader. by rewrite Hs, Hb.
  - intros events. rewrite Hrun. destruct (existsb ends_call events) eqn:E.
    + apply existsb_exists in E as (e&Hin&He).
      assert (exists pre e post, events = pre ++ e :: post /\ existsb ends_call pre = false /\ ends_call e = true)
        as (pre&e'&post&->&Hp&He').
      { clear -Hin He. induction events as [|x events IH]; [done|].
        destruct (ends_call x) eqn:Ex; [by exists [], x, events|].
        destruct Hin as [->|Hin]; [congruence|]. destruct (IH Hin) as (pre&e'&post&->&Hp&He').
        exists (x :: pre), e', post. simpl. by rewrite Ex. }
      rewrite foldl_app. simpl.
      destruct (http_steps_running res (makeBufferedResponseWriter res) q false pre Hp) as (warn&->&_).
      destruct e'; try done; simpl;
        match goal with |- context [foldl http_step (MkHttpCall ?a ?b ?c ?d true) post] =>
          by destruct (http_steps_returned a b c d post) as (bw'&->) end.
    + destruct (http_steps_running res (makeBufferedResponseWriter res) q false events E) as (warn&->&_). done.
Qed.

(** The JSON-RPC duration limiter returns exactly the downstream result when
    the handler ends first, an internal error when it panicked, and the
    timeout error, or the error of the caller's context, when the limit fires
    first; each call raises at most one of the two counters, the limit counter
    only on a timeout. *)
Theorem Handle_limited_race {D} ctxErr (direct : Res D) pre post r q :
  limitThreshold q <> RequestDurationLimiterNoLimit -> only_warnings pre ->
  let counted := if decide (pre = []) then q else inc_warning q in
  Handle_limited ctxErr direct (pre ++ Completed (Some r) :: post) q = Some (r, counted) /\
  Handle_limited ctxErr direct (pre ++ Completed None :: post) q = Some (Err ErrFailToProcessDueToInternalIssue, counted) /\
  Handle_limited ctxErr direct (pre ++ LimitFired :: post) q =
    Some (Err (default ErrRequestExceededProcessingLimitThreshold ctxErr), inc_limit q) /\
  (forall events e, e ∈ events -> e <> WarningFired -> is_Some (Handle_limited ctxErr direct events q)) /\
  limitCounter counted = limitCounter q /\ warningCounter (inc_limit q) = warningCounter q.
Proof.
  intros Hq Hp. cbv zeta. unfold Handle_limited. rewrite !(decide_False (P := limitThreshold q = _)) by done.
  split_and!.
  - rewrite select_loop_warnings by done. simpl. rewrite bool_decide_decide. by case_decide.
  - rewrite select_loop_warnings by done. simpl. rewrite bool_decide_decide. by case_decide.
  - rewrite select_loop_warnings by done. simpl. by destruct ctxErr.
  - intros events e He Hw. destruct (select_loop_total false events e He Hw) as [o ->].
    rewrite (decide_False (P := limitThreshold q = _)) by done. destruct o; eexists; reflexivity.
  - by case_decide.
  - done.
Qed.

Section Witnesses.

(** Two requests on a limiter of one: the first is in the handler, the second
    has counted itself. *)
Definition ex_refusal : outcome unit := RefusedStatus 503.
Definition ex_busy : list (outcome unit * request_pc unit) := [(ex_refusal, Running); (ex_refusal, Counted 2)].
Definition ex_busy_q : backlogQLimiter := MkBacklogQLimiter 1 2 (Some 1) 0.

Lemma ex_busy_reachable : rtc system_step (initial_system (Some 0) 1 [ex_refusal; ex_refusal]) (ex_busy, ex_busy_q).
Proof.
  unfold initial_system. simpl.
  eapply rtc_l; [eapply (sys_step _ _ 0); [reflexivity|by apply step_count]|].
  eapply rtc_l; [eapply (sys_step _ _ 0); [reflexivity|by apply step_within]|].
  eapply rtc_l; [eapply (sys_step _ _ 0); [reflexivity|by apply step_admit]|].
  eapply rtc_l; [eapply (sys_step _ _ 1); [reflexivity|by apply step_count]|].
  match goal with |- rtc _ ?x ?y => replace x with y by reflexivity end. apply rtc_refl.
Qed.

Lemma backlog_bounded_witness :
  tally in_handler ex_busy <= 1 /\
  (forall i r, ex_busy !! i = Some r -> turned_away 1 r ->
     found_full (initial_system (Some 0) 1 [ex_refusal; ex_refusal]) 1 i (ex_busy, ex_busy_q)) /\
  (forall i o pc, ex_busy !! i = Some (o, pc) -> (forall e, pc <> Finished e) ->
     exists s', system_step (ex_busy, ex_busy_q) s') /\
  ((forall r, r ∈ ex_busy -> is_finished r) -> q_pending ex_busy_q = 0 /\ q_gauge ex_busy_q = Some 0).
Proof.
  apply (backlog_bounded (A := unit) (Some 0) 1 [ex_refusal; ex_refusal] ex_busy ex_busy_q);
    [lia|unfold RequestBacklogQueueNoLimit; lia|vm_compute; reflexivity|constructor; exact tt|apply ex_busy_reachable].
Defined.

Definition ex_limiter : requestDurationLimiter := MakeRequestDurationLimiter 5 10 (Some 0) (Some 0).
Definition ex_ops : list write_op := [SetHeader "Content-Type" ["application/json"]; WriteHeaderOp 202; WriteOp "{"; WriteOp "}"].
Definition ex_response : response := MkResponse ∅ None "".

Lemma ex_warned {R} : only_warnings [@WarningFired R].
Proof. intros e [->|[]%elem_of_nil]%elem_of_cons. done. Qed.

(** A handler past its warning, one that ends in time and one that writes on
    after the limit. *)
Lemma ServeHTTP_limited_transparent_witness :
  let in_time := ServeHTTP_limited ((HandlerWrites <$> ex_ops) ++ WarningTimer :: [HandlerEnds [] None]) ex_response ex_limiter in
  let late := ServeHTTP_limited ([HandlerWrites (WriteOp "partial")] ++ LimitTimer None ::
    [HandlerWrites (WriteOp "late"); HandlerEnds [] None]) ex_response ex_limiter in
  rw_finish (hc_res in_time) = rw_finish (foldl rw_op ex_response ex_ops) /\ hc_limiter in_time = inc_warning ex_limiter /\
  hc_res late = MkResponse ∅ (Some (504, ∅)) "" /\ hc_limiter late = inc_limit ex_limiter /\ hc_returned late = true.
Proof.
  destruct (ServeHTTP_limited_transparent ex_response ex_limiter) as (H1&H2&_&H4).
  - vm_compute. congruence.
  - reflexivity.
  - reflexivity.
  - destruct (H1 ((HandlerWrites <$> ex_ops) ++ [WarningTimer]) [] None) as (E1&E2&_); [reflexivity| |].
    { exists [("Content-Type", ["application/json"])], (Some 202), ["{"; "}"]. split; [reflexivity|]. intros c [= <-]. lia. }
    rewrite <- app_assoc in E1, E2.
    destruct (H2 [HandlerWrites (WriteOp "partial")] [HandlerWrites (WriteOp "late"); HandlerEnds [] None] None) as (E3&E4);
      [reflexivity|].
    split_and!; [exact E1|apply E2; apply elem_of_app; right; by left|exact E3|exact E4|apply H4].
Defined.

Lemma Handle_limited_race_witness :
  Handle_limited None (Ok 1) ([WarningFired] ++ Completed (Some (Ok 7)) :: []) ex_limiter = Some (Ok 7, inc_warning ex_limiter) /\
  Handle_limited None (Ok 1) ([WarningFired] ++ Completed None :: []) ex_limiter =
    Some (Err ErrFailToProcessDueToInternalIssue, inc_warning ex_limiter) /\
  Handle_limited None (Ok 1) ([WarningFired] ++ LimitFired :: []) ex_limiter =
    Some (Err (default ErrRequestExceededProcessingLimitThreshold None), inc_limit ex_limiter) /\
  (forall events e, e ∈ events -> e <> WarningFired -> is_Some (Handle_limited None (Ok 1) events ex_limiter)) /\
  limitCounter (inc_warning ex_limiter) = limitCounter ex_limiter /\
  warningCounter (inc_limit ex_limiter) = warningCounter ex_limiter.
Proof.
  apply (Handle_limited_race None (Ok 1) [WarningFired] [] (Ok 7) ex_limiter); [vm_compute; congruence|apply ex_warned].
Defined.

End Witnesses.
