(* ===== verification/Handlers.v ===== *)
(** * The small handlers (internal/methods)

    getHealth, getLatestLedger, getNetwork, getVersionInfo, getFeeStats and
    sendTransaction. *)

From S2P Require Import Prelude GoStd Sdk SdkExample LedgerBucketWindow Tables DbTransaction DbLedger Db FeeWindow Protocol ProtocolExample MethodJson GetTransactionsMethod.

(** ** The core client and the parts of the SDK that sendTransaction uses *)

(** [stellarcore.TXResponse] *)
Record CoreResponse := MkCoreResponse {
  CR_Exception : string;
  CR_Error : string;
  CR_Status : string;
  CR_DiagnosticEvents : string;
}.

Class CoreProtocol `{Sdk} := {
  TransactionEnvelope : Type;
  XdrTransactionResult : Type;
  SafeUnmarshalBase64_envelope : string -> Res TransactionEnvelope;
  SafeUnmarshalBase64_result : string -> Res XdrTransactionResult;
  SafeUnmarshalBase64_events : string -> Res (list DiagnosticEvent);
  XdrTransactionResult_MarshalBinary : XdrTransactionResult -> Res string;
  HashTransactionInEnvelope : TransactionEnvelope -> string -> Res string;
  IsException : CoreResponse -> bool;
  DiagnosticEventsToSlice : string -> Res (list string);
  TXStatusError : string;
  TXStatusPending : string;
  TXStatusDuplicate : string;
  TXStatusTryAgainLater : string;
}.

(** stellar-core's answer to a submission *)
Class CoreClient := { core_SubmitTransaction : string -> Res CoreResponse }.

Section Handlers.
Context `{X : Sdk} `{P : !RpcProtocol} `{ND : Nondet}.

(** ** getHealth *)

Record GetHealthResponse := MkGetHealthResponse {
  GH_Status : string;
  GH_LatestLedger : Z;
  GH_LatestLedgerCloseTime : Z;
  GH_OldestLedger : Z;
  GH_OldestLedgerCloseTime : Z;
  GH_LedgerRetentionWindow : Z;
}.

(** [time.Since(time.Unix(t, 0))] at the instant [now] (in nanoseconds since the
    epoch): the difference saturates at the bounds of a Duration. *)
Definition time_Since (now t : Z) : Z := Z.max (- 2 ^ 63) (Z.min (2 ^ 63 - 1) (now - t * 1000000000)).

Definition NewHealthCheck (retentionWindow maxHealthyLedgerLatency now : Z) : M DB GetHealthResponse :=
  r ← attempt GetLedgerRange_db;
  match r with
  | inr err => fail (EJrpc InternalError ("data stores are not initialized" +:+ ": " +:+ error_message err))
  | inl ledgerRange =>
      if decide (Sequence (LastLedger ledgerRange) < 1) then
        fail (EJrpc InternalError "data stores are not initialized")
      else
        let latency := time_Since now (CloseTime (LastLedger ledgerRange)) in
        if decide (maxHealthyLedgerLatency < latency) then
          fail (EJrpc InternalError ("latency (" +:+ Duration_String (Round_Second latency)
                  +:+ ") since last known ledger closed is too high (>"
                  +:+ Duration_String maxHealthyLedgerLatency +:+ ")"))
        else
          mret {| GH_Status := "healthy";
                  GH_LatestLedger := Sequence (LastLedger ledgerRange);
                  GH_LatestLedgerCloseTime := CloseTime (LastLedger ledgerRange);
                  GH_OldestLedger := Sequence (FirstLedger ledgerRange);
                  GH_OldestLedgerCloseTime := CloseTime (FirstLedger ledgerRange);
                  GH_LedgerRetentionWindow := retentionWindow |}
  end.

(** ** getLatestLedger *)

Record GetLatestLedgerResponse := MkGetLatestLedgerResponse {
  GL_Hash : string;
  GL_ProtocolVersion : Z;
  GL_Sequence : Z;
  GL_LedgerCloseTime : Z;
  GL_LedgerHeader : string;
  GL_LedgerMetadata : string;
}.

Definition NewGetLatestLedgerHandler : M DB GetLatestLedgerResponse :=
  latestSequence ← map_err (fun _ => EJrpc InternalError "could not get latest ledger sequence") getLatestLedgerSequence;
  found ← map_err (fun _ => EJrpc InternalError "could not get latest ledger") (on_session (GetLedgerRaw latestSequence));
  match found with
  | None => fail (EJrpc InternalError "could not get latest ledger")
  | Some latestLedgerRaw =>
      hd ← map_err (fun _ => EJrpc InternalError "could not parse latest ledger header")
             (of_res (ParseLedgerHeaderFromMeta latestLedgerRaw));
      headerB64 ← map_err (fun e => EJrpc InternalError ("could not marshal latest ledger header: " +:+ error_message e))
                    (of_res (header_Header_MarshalBase64 hd));
      mret {| GL_Hash := HexString (header_Hash hd);
              GL_ProtocolVersion := u32 (header_LedgerVersion hd);
              GL_Sequence := latestSequence;
              GL_LedgerCloseTime := i64 (header_CloseTime hd);
              GL_LedgerHeader := headerB64;
              GL_LedgerMetadata := base64_EncodeToString latestLedgerRaw |}
  end.

(** ** getNetwork and getVersionInfo *)

(** [getProtocolVersion]; reading a missing arm of the union panics. *)
Definition getProtocolVersion : M DB Z :=
  latestLedger ← getLatestLedgerSequence;
  found ← on_session (getLedgerFromDB latestLedger);
  match found with
  | None => fail (EMsg ("missing meta for latest ledger (" +:+ pretty latestLedger +:+ ")"))
  | Some closeMeta =>
      let version arm := match arm with
                         | Some a => mret (u32 (Arm_LedgerVersion a))
                         | None => panic "nil pointer dereference"
                         end in
      if decide (lcm_V closeMeta = 1) then version (lcm_V1 closeMeta)
      else if decide (lcm_V closeMeta = 2) then version (lcm_V2 closeMeta)
      else fail (EMsg ("latest ledger (" +:+ pretty latestLedger +:+ ") meta has unexpected version ("
                       +:+ pretty (lcm_V closeMeta) +:+ ")"))
  end.

Record GetNetworkResponse := MkGetNetworkResponse {
  GN_FriendbotURL : string;
  GN_Passphrase : string;
  GN_ProtocolVersion : Z;
}.

Definition NewGetNetworkHandler (networkPassphrase friendbotURL : string) : M DB GetNetworkResponse :=
  protocolVersion ← map_err (jrpc_of InternalError) getProtocolVersion;
  mret (MkGetNetworkResponse friendbotURL networkPassphrase protocolVersion).

Record GetVersionInfoResponse := MkGetVersionInfoResponse {
  GV_Version : string;
  GV_CommitHash : string;
  GV_BuildTimestamp : string;
  GV_CaptiveCoreVersion : string;
  GV_ProtocolVersion : Z;
}.

(** The protocol version is best effort: zero when it cannot be read. *)
Definition NewGetVersionInfoHandler (Version CommitHash BuildTimestamp captiveCoreVersion : string)
    : M DB GetVersionInfoResponse :=
  protocolVersion ← attempt getProtocolVersion;
  mret {| GV_Version := Version; GV_CommitHash := CommitHash; GV_BuildTimestamp := BuildTimestamp;
          GV_CaptiveCoreVersion := captiveCoreVersion;
          GV_ProtocolVersion := match protocolVersion with inl v => v | inr _ => 0 end |}.

(** ** getFeeStats *)

(** [protocol.FeeDistribution] *)
Record ProtoFeeDistribution := MkProtoFeeDistribution {
  PF_Max : Z; PF_Min : Z; PF_Mode : Z; PF_P10 : Z; PF_P20 : Z; PF_P30 : Z; PF_P40 : Z; PF_P50 : Z;
  PF_P60 : Z; PF_P70 : Z; PF_P80 : Z; PF_P90 : Z; PF_P95 : Z; PF_P99 : Z;
  PF_TransactionCount : Z; PF_LedgerCount : Z;
}.

Definition convertFeeDistribution (d : FeeDistribution) : ProtoFeeDistribution :=
  {| PF_Max := Max d; PF_Min := Min d; PF_Mode := Mode d; PF_P10 := P10 d; PF_P20 := P20 d; PF_P30 := P30 d;
     PF_P40 := P40 d; PF_P50 := P50 d; PF_P60 := P60 d; PF_P70 := P70 d; PF_P80 := P80 d; PF_P90 := P90 d;
     PF_P95 := P95 d; PF_P99 := P99 d; PF_TransactionCount := FeeCount d; PF_LedgerCount := LedgerCount d |}.

Record GetFeeStatsResponse := MkGetFeeStatsResponse {
  GF_SorobanInclusionFee : ProtoFeeDistribution;
  GF_InclusionFee : ProtoFeeDistribution;
  GF_LatestLedger : Z;
}.

(** A range that cannot be read is not fatal: its zero value is reported. *)
Definition NewGetFeeStatsHandler (windows : FeeWindows) : M DB GetFeeStatsResponse :=
  r ← attempt GetLedgerRange_db;
  let ledgerRange := match r with inl lr => lr | inr _ => zeroLedgerRange end in
  mret {| GF_SorobanInclusionFee := convertFeeDistribution (distribution (SorobanInclusionFeeWindow windows));
          GF_InclusionFee := convertFeeDistribution (distribution (ClassicFeeWindow windows));
          GF_LatestLedger := Sequence (LastLedger ledgerRange) |}.

(** ** sendTransaction *)

Record SendTransactionRequest := MkSendTransactionRequest { ST_Transaction : string; ST_Format : string }.

Record SendTransactionResponse := MkSendTransactionResponse {
  ST_Status : string;
  ST_Hash : string;
  ST_LatestLedger : Z;
  ST_LatestLedgerCloseTime : Z;
  ST_ErrorResultXDR : string;
  ST_ErrorResultJSON : string;
  ST_DiagnosticEventsXDR : list string;
  ST_DiagnosticEventsJSON : list string;
}.

Context `{CP : !CoreProtocol} `{CC : CoreClient}.

(** The diagnostic events in JSON, the position in the error message. *)
Fixpoint convert_events (i : nat) (events : list DiagnosticEvent) : Res (list string) :=
  match events with
  | [] => Ok []
  | event :: events =>
      j ← match ConvertInterface "DiagnosticEvent" (DiagnosticEvent_MarshalBinary event) with
          | Err e => Err (EJrpc InternalError ("couldn't decode event #" +:+ pretty (Z.of_nat i + 1) +:+ ": " +:+ error_message e))
          | r => r
          end;
      js ← convert_events (S i) events;
      Ok (j :: js)
  end.

(** The rendering of a rejected transaction. *)
Definition error_response (format : string) (resp : CoreResponse) (base : SendTransactionResponse)
    : Res SendTransactionResponse :=
  let wrapped (msg : string) (e : error) := EJrpc InternalError (msg +:+ ": " +:+ error_message e) in
  if decide (format = FormatJSON) then
    errResult ← res_map_err (wrapped "couldn't decode error") (SafeUnmarshalBase64_result (CR_Error resp));
    errJSON ← res_map_err (wrapped "couldn't serialize error")
                (ConvertInterface "TransactionResult" (XdrTransactionResult_MarshalBinary errResult));
    diagEvents ← res_map_err (wrapped "couldn't decode events") (SafeUnmarshalBase64_events (CR_DiagnosticEvents resp));
    diagJSON ← convert_events 0 diagEvents;
    Ok (MkSendTransactionResponse (ST_Status base) (ST_Hash base) (ST_LatestLedger base)
          (ST_LatestLedgerCloseTime base) "" errJSON [] diagJSON)
  else
    events ← res_map_err (fun _ => EJrpc InternalError "could not decode diagnostic events")
               (DiagnosticEventsToSlice (CR_DiagnosticEvents resp));
    Ok (MkSendTransactionResponse (ST_Status base) (ST_Hash base) (ST_LatestLedger base)
          (ST_LatestLedgerCloseTime base) (CR_Error resp) "" events []).

(** The answer of the core, interpreted. *)
Definition interpret_response (request : SendTransactionRequest) (txHash : string) (latestLedgerInfo : LedgerInfo)
    (resp : CoreResponse) : Res SendTransactionResponse :=
  if IsException resp then Err (EJrpc InternalError "received exception from stellar-core")
  else
    let base := MkSendTransactionResponse (CR_Status resp) txHash (Sequence latestLedgerInfo)
                  (CloseTime latestLedgerInfo) "" "" [] [] in
    if decide (CR_Status resp = TXStatusError) then error_response (ST_Format request) resp base
    else if decide (CR_Status resp ∈ [TXStatusPending; TXStatusDuplicate; TXStatusTryAgainLater]) then Ok base
    else Err (EJrpc InternalError "invalid status from stellar-core").

(** A bare client of the core, whose state is the log of what was sent. *)
Definition SubmitTransaction (tx : string) : M (list string) CoreResponse := fun log =>
  (core_SubmitTransaction tx, log ++ [tx]).

(** [submitter] is the client the daemon gives to the handler, with its own state. *)
Definition NewSendTransactionHandler {S : Type} (submitter : string -> M S CoreResponse)
    (passphrase : string) (request : SendTransactionRequest) : M (DB * S) SendTransactionResponse :=
  match IsValidFormat (ST_Format request) with
  | Some e => fail (jrpc_of InvalidParams e)
  | None =>
      envelope ← map_err (fun _ => EJrpc InvalidParams "invalid_xdr")
                   (of_res (SafeUnmarshalBase64_envelope (ST_Transaction request)));
      hash ← map_err (fun _ => EJrpc InvalidParams "invalid_hash")
               (of_res (HashTransactionInEnvelope envelope passphrase));
      let txHash := hex_EncodeToString hash in
      r ← attempt (zoom1 GetLedgerRange_db);
      let ledgerInfo := match r with inl lr => lr | inr _ => zeroLedgerRange end in
      let latestLedgerInfo := LastLedger ledgerInfo in
      resp ← map_err (fun _ => EJrpc InternalError "could not submit transaction to stellar-core")
               (zoom2 (submitter (ST_Transaction request)));
      of_res (interpret_response request txHash latestLedgerInfo resp)
  end.

End Handlers.

(** ** sendTransaction: what is submitted and what is answered *)

Definition no_panic {A} (r : Res A) : Prop := forall m, r <> Panic m.

(** The decoding functions of the SDK and the client return their failures, and
    the four statuses of stellar-core are different strings. *)
Class CoreLaws `{X : Sdk} `{CP : !CoreProtocol} `{CC : CoreClient} := {
  core_envelope_no_panic : forall tx, no_panic (SafeUnmarshalBase64_envelope tx);
  core_hash_no_panic : forall env passphrase, no_panic (HashTransactionInEnvelope env passphrase);
  core_submit_no_panic : forall tx, no_panic (core_SubmitTransaction tx);
  core_statuses : NoDup [TXStatusError; TXStatusPending; TXStatusDuplicate; TXStatusTryAgainLater];
}.

Section SendLemmas.
Context `{X : Sdk} `{P : !RpcProtocol} `{ND : Nondet} `{CP : !CoreProtocol} `{CC : CoreClient} `{CL : !CoreLaws}.

(** What the handler knows of the stored range: nothing when it cannot be read. *)
Definition known_range (d : DB) (lr : LedgerRange) : Prop :=
  stored_range (d_tab d) lr \/
  (lr = zeroLedgerRange /\ (t_ledgers (d_tab d) = ∅ \/ exists e, head (s_faults (d_sess d)) = Some (Some e))).

Lemma known_range_read d r d' : cache_ok d -> attempt GetLedgerRange_db d = (r, d') ->
  exists x, r = Ok x /\ known_range d (match x with inl lr => lr | inr _ => zeroLedgerRange end) /\ d_tab d' = d_tab d.
Proof.
  intros Hok. unfold attempt. destruct (GetLedgerRange_db d) as [r1 d1] eqn:E.
  apply GetLedgerRange_db_spec in E as (Ht&_&_&Hr); [|done].
  destruct Hr as [(lr&->&?)|[[? ->]|(e&->&?)]]; intros [= <- <-]; eexists; (split; [done|]); split; try done.
  - by left.
  - right. auto.
  - right. auto.
Qed.

Lemma convert_events_ok i events js :
  convert_events i events = Ok js <->
  res_map (fun e => ConvertInterface "DiagnosticEvent" (DiagnosticEvent_MarshalBinary e)) events = Ok js.
Proof.
  revert i js; induction events as [|e events IH]; intros i js; csimpl; [done|].
  unfold mbind, Res_bind. destruct (ConvertInterface _ _) as [j| |]; [|done..]. specialize (IH (S i)).
  destruct (convert_events (S i) events) as [js'| |], (res_map _ events) as [js2| |]; try done.
  - by pose proof (proj1 (IH js') eq_refl); simplify_eq.
  - by pose proof (proj1 (IH js') eq_refl).
  - by pose proof (proj1 (IH js') eq_refl).
  - by pose proof (proj2 (IH js2) eq_refl).
  - by pose proof (proj2 (IH js2) eq_refl).
Qed.

(** The answer that carries a core status and nothing else. *)
Definition status_answer (status hash : string) (lr : LedgerRange) : SendTransactionResponse :=
  MkSendTransactionResponse status hash (Sequence (LastLedger lr)) (CloseTime (LastLedger lr)) "" "" [] [].

(** An answer to a rejected transaction keeps the fields of [base] and carries the
    error and the events of the core, in the requested format only. *)
Definition rejection_of (format : string) (resp : CoreResponse) (base a : SendTransactionResponse) : Prop :=
  ST_Status a = ST_Status base /\ ST_Hash a = ST_Hash base /\ ST_LatestLedger a = ST_LatestLedger base /\
  ST_LatestLedgerCloseTime a = ST_LatestLedgerCloseTime base /\
  if decide (format = FormatJSON) then
    ST_ErrorResultXDR a = "" /\ ST_DiagnosticEventsXDR a = [] /\
    exists res events, SafeUnmarshalBase64_result (CR_Error resp) = Ok res /\
      ConvertInterface "TransactionResult" (XdrTransactionResult_MarshalBinary res) = Ok (ST_ErrorResultJSON a) /\
      SafeUnmarshalBase64_events (CR_DiagnosticEvents resp) = Ok events /\
      res_map (fun e => ConvertInterface "DiagnosticEvent" (DiagnosticEvent_MarshalBinary e)) events
        = Ok (ST_DiagnosticEventsJSON a)
  else
    ST_ErrorResultXDR a = CR_Error resp /\ ST_ErrorResultJSON a = "" /\ ST_DiagnosticEventsJSON a = [] /\
    DiagnosticEventsToSlice (CR_DiagnosticEvents resp) = Ok (ST_DiagnosticEventsXDR a).

Lemma error_response_ok format resp base a :
  error_response format resp base = Ok a <-> rejection_of format resp base a.
Proof.
  unfold error_response, rejection_of, res_map_err, mbind, Res_bind. case_decide.
  - destruct (SafeUnmarshalBase64_result _) as [res| |] eqn:E1;
      [|split; [done|]; intros (_&_&_&_&_&_&?&?&?&_); congruence..].
    destruct (ConvertInterface _ _) as [j| |] eqn:E2;
      [|split; [done|]; intros (_&_&_&_&_&_&?&?&?&?&_); congruence..].
    destruct (SafeUnmarshalBase64_events _) as [evs| |] eqn:E3;
      [|split; [done|]; intros (_&_&_&_&_&_&?&?&?&?&?&_); congruence..].
    destruct (convert_events 0 evs) as [js| |] eqn:E4.
    + apply convert_events_ok in E4. destruct a. simpl. split.
      * intros [=]. subst. eauto 15.
      * intros (?&?&?&?&?&?&?&?&?&?&?&?). congruence.
    + split; [done|]. intros (_&_&_&_&_&_&?&?&?&_&?&Hm). simplify_eq. apply (convert_events_ok 0) in Hm. congruence.
    + split; [done|]. intros (_&_&_&_&_&_&?&?&?&_&?&Hm). simplify_eq. apply (convert_events_ok 0) in Hm. congruence.
  - destruct (DiagnosticEventsToSlice _) as [evs| |] eqn:E;
      [|split; [done|]; intros (_&_&_&_&_&_&_&?); congruence..].
    destruct a. simpl. split; [intros [=]; subst; eauto 10|intros (?&?&?&?&?&?&?&?); congruence].
Qed.

(** The checks that precede the submission. *)
Definition accepted_as (passphrase : string) (request : SendTransactionRequest) (hash : string) : Prop :=
  IsValidFormat (ST_Format request) = None /\
  exists env, SafeUnmarshalBase64_envelope (ST_Transaction request) = Ok env /\
    HashTransactionInEnvelope env passphrase = Ok hash.

(** The answer to a transaction the core was sent. *)
Definition answer_to (request : SendTransactionRequest) (hash : string) (lr : LedgerRange)
    (core : Res CoreResponse) (r : Res SendTransactionResponse) : Prop :=
  match core with
  | Ok resp =>
      if IsException resp then exists m, r = Err (EJrpc InternalError m)
      else if decide (CR_Status resp ∈ [TXStatusPending; TXStatusDuplicate; TXStatusTryAgainLater]) then
        r = Ok (status_answer (CR_Status resp) (hex_EncodeToString hash) lr)
      else if decide (CR_Status resp = TXStatusError) then
        forall a, r = Ok a <->
          rejection_of (ST_Format request) resp (status_answer (CR_Status resp) (hex_EncodeToString hash) lr) a
      else exists m, r = Err (EJrpc InternalError m)
  | _ => exists m, r = Err (EJrpc InternalError m)
  end.

Lemma submitted_answer request hash lr core :
  no_panic core ->
  answer_to request hash lr core
    (match core with
     | Ok resp => interpret_response request (hex_EncodeToString hash) (LastLedger lr) resp
     | _ => Err (EJrpc InternalError "could not submit transaction to stellar-core")
     end).
Proof.
  intros Hc. unfold answer_to, interpret_response. destruct core as [resp| |m]; [|by eexists|by destruct (Hc m)].
  destruct (IsException resp); [by eexists|].
  pose proof core_statuses as [Hne _]%NoDup_cons.
  destruct (decide (CR_Status resp = TXStatusError)) as [E|E].
  - rewrite decide_False by (by rewrite E). intros a. apply error_response_ok.
  - case_decide; [done|by eexists].
Qed.

(** C23: sendTransaction submits a transaction to stellar-core exactly once, and
    only when the format is valid, the envelope decodes and its hash can be
    computed; otherwise it answers InvalidParams and submits nothing.  After a
    submission, a failure, an exception or an unknown status of the core is an
    InternalError; PENDING, DUPLICATE and TRY_AGAIN_LATER are answered as they
    are, with the hash of the envelope and the latest ledger known; ERROR is
    answered, in the requested format only, with the result and the events of
    the core, exactly when they can be rendered.  Failing to read the ledger
    range is not fatal. *)
Theorem sendTransaction_answers passphrase request d log r d' log' :
  cache_ok d -> NewSendTransactionHandler SubmitTransaction passphrase request (d, log) = (r, (d', log')) ->
  d_tab d' = d_tab d /\
  ((log' = log /\ (exists m, r = Err (EJrpc InvalidParams m)) /\ forall hash, ~ accepted_as passphrase request hash) \/
   (log' = log ++ [ST_Transaction request] /\
    exists hash lr, accepted_as passphrase request hash /\ known_range d lr /\
      answer_to request hash lr (core_SubmitTransaction (ST_Transaction request)) r)).
Proof.
  intros Hok. unfold NewSendTransactionHandler, accepted_as.
  destruct (IsValidFormat _) as [e|] eqn:Ef.
  { intros [= <- <- <-]. split; [done|left]. split_and!; [done|by eexists|]. intros ? (?&?&?&?); congruence. }
  unfold mbind, M_bind, map_err at 1, of_res at 1.
  destruct (SafeUnmarshalBase64_envelope _) as [env|e|m] eqn:Eu; [| |by destruct (core_envelope_no_panic _ _ Eu)].
  2: { intros [= <- <- <-]. split; [done|left]. split_and!; [done|by eexists|]. intros ? (?&?&?&?); congruence. }
  unfold map_err at 1, of_res at 1.
  destruct (HashTransactionInEnvelope env passphrase) as [hash|e|m] eqn:Eh; [| |by destruct (core_hash_no_panic _ _ _ Eh)].
  2: { intros [= <- <- <-]. split; [done|left]. split_and!; [done|by eexists|]. intros ? (?&?&?&?); congruence. }
  pose proof (submitted_answer request hash) as Ha.
  destruct (attempt GetLedgerRange_db d) as [r1 d1] eqn:Er. pose proof Er as Er'.
  apply known_range_read in Er' as (x&->&Hx&Ht); [|done].
  assert (attempt (zoom1 GetLedgerRange_db) (d, log) = (Ok x, (d1, log))) as ->.
  { unfold attempt, zoom1 in *. simpl. destruct (GetLedgerRange_db d) as [[| |] ?]; simplify_eq; done. }
  set (lr := match x with inl lr => lr | inr _ => zeroLedgerRange end) in *.
  specialize (Ha lr _ (core_submit_no_panic (ST_Transaction request))).
  pose proof (core_submit_no_panic (ST_Transaction request)) as Hp.
  unfold map_err, zoom2, SubmitTransaction, of_res. simpl. intros H. split_and!; [|right].
  all: destruct (core_SubmitTransaction _) as [resp| |m]; [| |by destruct (Hp m)]; simplify_eq; try done.
  all: split; [done|]; exists hash, lr; split_and!; [done|by exists env|done..].
Qed.

End SendLemmas.

(** ** The handlers that read the newest ledger *)

Section ReadLemmas.
Context `{X : Sdk} `{P : !RpcProtocol} `{ND : Nondet}.

Lemma newest_row t i : ledgers_wf t -> newest t i -> exists b, t_ledgers t !! Sequence i = Some b.
Proof. intros Hwf (b&H&_)%newest_seq; [|done]. apply ledger_rows_last in H as [H _]. by exists b. Qed.

(** getHealth is an error when no ledger is stored; otherwise it answers with
    the stored range and the retention window exactly when the newest ledger
    closed at most [maxHealthyLedgerLatency] ago, and with an InternalError when
    it closed earlier. *)
Theorem getHealth_answers retentionWindow maxLatency now d :
  cache_ok d -> s_faults (d_sess d) = [] -> - 2 ^ 63 <= maxLatency < 2 ^ 63 - 1 ->
  let r := fst (NewHealthCheck retentionWindow maxLatency now d) in
  (t_ledgers (d_tab d) = ∅ /\ r = Err (EJrpc InternalError "data stores are not initialized: DB is empty")) \/
  exists lo hi, oldest (d_tab d) lo /\ newest (d_tab d) hi /\
    if decide (now - CloseTime hi * 1000000000 <= maxLatency) then
      r = Ok {| GH_Status := "healthy"; GH_LatestLedger := Sequence hi; GH_LatestLedgerCloseTime := CloseTime hi;
                GH_OldestLedger := Sequence lo; GH_OldestLedgerCloseTime := CloseTime lo;
                GH_LedgerRetentionWindow := retentionWindow |}
    else exists m, r = Err (EJrpc InternalError m).
Proof.
  intros Hok Hf Hm. pose proof Hok as (Hwf&_). unfold NewHealthCheck, mbind, M_bind, attempt.
  destruct (GetLedgerRange_db d) as [r d'] eqn:E.
  apply GetLedgerRange_db_spec in E as (_&_&_&Hr); [|done]. rewrite Hf in Hr.
  destruct Hr as [([lo hi]&->&Hlo&Hhi)|[[He ->]|(?&_&?&[=])]]; [right|by left]. simpl in *.
  exists lo, hi. split_and!; [done..|].
  destruct (newest_seq _ _ Hwf Hhi) as (_&_&Hs). rewrite (decide_False (P := Sequence hi < 1)) by lia.
  unfold time_Since. destruct (decide (now - CloseTime hi * 1000000000 <= maxLatency)) as [Hle|Hgt].
  - by rewrite decide_False by lia.
  - rewrite decide_True by lia. by eexists.
Qed.

(** On a non-empty store getLatestLedger answers with the newest stored
    ledger: its sequence and, when its header parses and can be serialized, the
    header's hash, version, close time and serialization, and the stored bytes
    of the ledger themselves. *)
Theorem getLatestLedger_newest d hi b hd xdr :
  cache_ok d -> s_faults (d_sess d) = [] -> newest (d_tab d) hi ->
  t_ledgers (d_tab d) !! Sequence hi = Some b ->
  ParseLedgerHeaderFromMeta b = Ok hd -> header_Header_MarshalBase64 hd = Ok xdr ->
  fst (NewGetLatestLedgerHandler d) =
  Ok {| GL_Hash := HexString (header_Hash hd); GL_ProtocolVersion := u32 (header_LedgerVersion hd);
        GL_Sequence := Sequence hi; GL_LedgerCloseTime := i64 (header_CloseTime hd);
        GL_LedgerHeader := xdr; GL_LedgerMetadata := base64_EncodeToString b |}.
Proof.
  intros Hok Hf Hn Hb Hp Hx. destruct (getLatestLedgerSequence_newest d hi) as (d'&Hs&Ht&Hf'&_); [done..|].
  unfold NewGetLatestLedgerHandler, mbind, M_bind. unfold map_err at 1. rewrite Hs.
  assert (on_session (GetLedgerRaw (Sequence hi)) d' = (Ok (Some b), set_sess (d_sess d') d')) as E.
  { apply on_session_run. unfold GetLedgerRaw, mbind, M_bind.
    rewrite (getLedgerRawFromDB_ok _ b); [done|done|]. by rewrite <- Hb, <- Ht. }
  unfold map_err at 1. rewrite E. unfold map_err, of_res. by rewrite Hp, Hx.
Qed.

End ReadLemmas.

Section Witnesses.

#[local] Opaque bits.

(** A core that accepts every envelope but one. *)
#[local] Instance ex_core : CoreProtocol (H := ex_sdk) := {|
  TransactionEnvelope := string;
  XdrTransactionResult := string;
  SafeUnmarshalBase64_envelope := fun s => if decide (s = "") then Err (EExt "EOF") else Ok s;
  SafeUnmarshalBase64_result := fun s => Ok s;
  SafeUnmarshalBase64_events := fun _ => Ok [];
  XdrTransactionResult_MarshalBinary := fun r => Ok r;
  HashTransactionInEnvelope := fun env passphrase => Ok (env +:+ passphrase);
  IsException := fun resp => bool_decide (CR_Exception resp <> "");
  DiagnosticEventsToSlice := fun s => Ok [s];
  TXStatusError := "ERROR";
  TXStatusPending := "PENDING";
  TXStatusDuplicate := "DUPLICATE";
  TXStatusTryAgainLater := "TRY_AGAIN_LATER";
|}.

#[local] Instance ex_client : CoreClient := {|
  core_SubmitTransaction := fun tx =>
    if decide (tx = "bad") then Ok (MkCoreResponse "" "AAA" "ERROR" "events")
    else Ok (MkCoreResponse "" "" "PENDING" "");
|}.

#[local] Instance ex_core_laws : CoreLaws (X := ex_sdk) (CP := ex_core) (CC := ex_client).
Proof.
  split.
  - intros tx m. simpl. by case_decide.
  - done.
  - intros tx m. simpl. by case_decide.
  - simpl. apply (bool_decide_unpack _). by vm_compute.
Qed.

Definition ex_send (tx : string) := NewSendTransactionHandler (P := ex_protocol) (CP := ex_core)
  (SubmitTransaction (CC := ex_client)) "net" (MkSendTransactionRequest tx "").

(** The three kinds of answer. *)
Example send_rejects_envelope : ex_send "" (ex_db, []) = (Err (EJrpc InvalidParams "invalid_xdr"), (ex_db, [])).
Proof. reflexivity. Qed.

Example send_pending : ex_send "tx" (ex_db, []) =
  (Ok (MkSendTransactionResponse "PENDING" "74786e6574" 3 15 "" "" [] []), (ex_db, ["tx"])).
Proof. vm_compute. reflexivity. Qed.

Example send_error : ex_send "bad" (ex_db, ["tx"]) =
  (Ok (MkSendTransactionResponse "ERROR" "6261646e6574" 3 15 "AAA" "" ["events"] []), (ex_db, ["tx"; "bad"])).
Proof. vm_compute. reflexivity. Qed.

Lemma sendTransaction_answers_witness :
  let request := MkSendTransactionRequest "tx" "" in
  let '(r, (d', log')) := NewSendTransactionHandler (P := ex_protocol) (CP := ex_core)
                            (SubmitTransaction (CC := ex_client)) "net" request (ex_db, []) in
  d_tab d' = d_tab ex_db /\
  ((log' = [] /\ (exists m, r = Err (EJrpc InvalidParams m)) /\
      forall hash, ~ accepted_as (P := ex_protocol) (CP := ex_core) "net" request hash) \/
   (log' = ["tx"] /\
    exists hash lr, accepted_as (P := ex_protocol) (CP := ex_core) "net" request hash /\ known_range ex_db lr /\
      answer_to (P := ex_protocol) (CP := ex_core) request hash lr (core_SubmitTransaction (CoreClient := ex_client) "tx") r)).
Proof.
  intros request.
  destruct (NewSendTransactionHandler (P := ex_protocol) (CP := ex_core) (SubmitTransaction (CC := ex_client))
    "net" request (ex_db, [])) as [r [d' log']] eqn:E.
  exact (sendTransaction_answers (P := ex_protocol) (CP := ex_core) (CC := ex_client) "net"
    (MkSendTransactionRequest "tx" "") ex_db [] r d' log' ex_cache_ok E).
Defined.

Lemma getHealth_answers_witness :
  let r := fst (NewHealthCheck (X := ex_sdk) 10 30000000000 40000000000 ex_db) in
  (t_ledgers (d_tab ex_db) = ∅ /\ r = Err (EJrpc InternalError "data stores are not initialized: DB is empty")) \/
  exists lo hi, oldest (X := ex_sdk) (d_tab ex_db) lo /\ newest (X := ex_sdk) (d_tab ex_db) hi /\
    if decide (40000000000 - CloseTime hi * 1000000000 <= 30000000000) then
      r = Ok {| GH_Status := "healthy"; GH_LatestLedger := Sequence hi; GH_LatestLedgerCloseTime := CloseTime hi;
                GH_OldestLedger := Sequence lo; GH_OldestLedgerCloseTime := CloseTime lo; GH_LedgerRetentionWindow := 10 |}
    else exists m, r = Err (EJrpc InternalError m).
Proof.
  apply (getHealth_answers (X := ex_sdk) 10 30000000000 40000000000 ex_db); [apply ex_cache_ok|reflexivity|lia].
Defined.

Lemma getLatestLedger_newest_witness :
  fst (NewGetLatestLedgerHandler (X := ex_sdk) ex_db) =
  Ok {| GL_Hash := "hash3"; GL_ProtocolVersion := 23; GL_Sequence := 3; GL_LedgerCloseTime := 15;
        GL_LedgerHeader := bits 32 3; GL_LedgerMetadata := base64_EncodeToString (bits 32 3) |}.
Proof.
  refine (getLatestLedger_newest (X := ex_sdk) ex_db (MkLedgerInfo 3 15) (bits 32 3) 3 (bits 32 3) _ _ _ _ _ _).
  - apply ex_cache_ok.
  - reflexivity.
  - apply ex_cache_ok. done.
  - reflexivity.
  - vm_compute. reflexivity.
  - reflexivity.
Defined.

End Witnesses.
