(* ===== verification/PreflightPool.v ===== *)
(** * The preflight worker pool (internal/preflight/pool.go)

    The pool is a buffered channel of requests between the goroutines that ask
    for a preflight and a fixed number of workers.  The goroutines, the workers
    and the callers of [Close] are the processes of a step relation, with one
    step per channel, atomic or metric operation.  What a preflight computes is
    a relation, given to the pool as a parameter. *)

From S2P Require Import Prelude.

(** ** The metrics wrapper of the ledger entry getter *)

Record metricsLedgerEntryGetterWrapper := MkMetricsWrapper {
  totalDurationMs : Z;
  ledgerEntriesFetched : Z;
}.

(** [GetLedgerEntries] of the wrapper: what a call that took [ms] milliseconds
    for [keys] keys adds. *)
Definition wrapper_GetLedgerEntries (m : metricsLedgerEntryGetterWrapper) (call : Z * Z) : metricsLedgerEntryGetterWrapper :=
  {| totalDurationMs := u64 (totalDurationMs m + u64 call.1);
     ledgerEntriesFetched := u32 (ledgerEntriesFetched m + u32 call.2) |}.

Definition wrapper_after (calls : list (Z * Z)) : metricsLedgerEntryGetterWrapper :=
  foldl wrapper_GetLedgerEntries (MkMetricsWrapper 0 0) calls.

(** An observation of the duration metric; the time a worker measures is left
    out. *)
Inductive observation :=
  | ObserveAll (status : string)
  | ObserveDb (status : string) (ms : Z).

Definition status_of (err : option error) : string :=
  match err with None => "ok" | Some _ => "error" end.

Section Pool.
Context {P R : Type}.

Definition workerResult : Type := R * option error.

(** A request carries its parameters and the result channel of its client, which
    is named by the client's position. *)
Record workerRequest := MkWorkerRequest { rq_client : nat; rq_params : P }.

(** [preflight_runs p calls result]: a preflight with the parameters [p] may ask
    for ledger entries as in [calls] and end in [result]. *)
Context (preflight_runs : P -> list (Z * Z) -> workerResult -> Prop).

(** ** The pool *)

Record WorkerPool := MkWorkerPool {
  isClosed : bool;
  chanClosed : bool;
  requestChan : list workerRequest;
  capacity : Z;
  concurrentRequests : Z;
  queueFullErrors : Z;
  durations : list observation;
  entriesFetched : list Z;
  wg : Z;
}.

Definition NewPreflightWorkerPool (WorkerCount : nat) (JobQueueCapacity : Z) : WorkerPool :=
  MkWorkerPool false false [] JobQueueCapacity 0 0 [] [] (Z.of_nat WorkerCount).

Definition mark_closed (p : WorkerPool) : WorkerPool :=
  MkWorkerPool true (chanClosed p) (requestChan p) (capacity p) (concurrentRequests p) (queueFullErrors p) (durations p) (entriesFetched p) (wg p).
Definition close_chan (p : WorkerPool) : WorkerPool :=
  MkWorkerPool (isClosed p) true (requestChan p) (capacity p) (concurrentRequests p) (queueFullErrors p) (durations p) (entriesFetched p) (wg p).
Definition set_chan (q : list workerRequest) (p : WorkerPool) : WorkerPool :=
  MkWorkerPool (isClosed p) (chanClosed p) q (capacity p) (concurrentRequests p) (queueFullErrors p) (durations p) (entriesFetched p) (wg p).
Definition add_concurrent (d : Z) (p : WorkerPool) : WorkerPool :=
  MkWorkerPool (isClosed p) (chanClosed p) (requestChan p) (capacity p) (concurrentRequests p + d) (queueFullErrors p) (durations p) (entriesFetched p) (wg p).
Definition inc_full (p : WorkerPool) : WorkerPool :=
  MkWorkerPool (isClosed p) (chanClosed p) (requestChan p) (capacity p) (concurrentRequests p) (queueFullErrors p + 1) (durations p) (entriesFetched p) (wg p).
Definition observe_duration (o : observation) (p : WorkerPool) : WorkerPool :=
  MkWorkerPool (isClosed p) (chanClosed p) (requestChan p) (capacity p) (concurrentRequests p) (queueFullErrors p) (durations p ++ [o]) (entriesFetched p) (wg p).
Definition observe_fetched (n : Z) (p : WorkerPool) : WorkerPool :=
  MkWorkerPool (isClosed p) (chanClosed p) (requestChan p) (capacity p) (concurrentRequests p) (queueFullErrors p) (durations p) (entriesFetched p ++ [n]) (wg p).
Definition wg_done (p : WorkerPool) : WorkerPool :=
  MkWorkerPool (isClosed p) (chanClosed p) (requestChan p) (capacity p) (concurrentRequests p) (queueFullErrors p) (durations p) (entriesFetched p) (wg p - 1).

(** ** The processes *)

(** A worker: at the head of its loop, blocked in the receive, between the
    operations of the loop's body, or returned. *)
Inductive worker_pc :=
  | W_loop
  | W_parked
  | W_got (rq : workerRequest)
  | W_running (rq : workerRequest)
  | W_computed (rq : workerRequest) (calls : list (Z * Z)) (result : workerResult)
  | W_observed (rq : workerRequest) (calls : list (Z * Z)) (result : workerResult)
  | W_have (rq : workerRequest) (calls : list (Z * Z)) (result : workerResult)
  | W_returned.

(** A call of [WorkerPool.GetPreflight]. *)
Inductive client_pc :=
  | C_start
  | C_open (* found the pool open, has not selected *)
  | C_waiting (* sent the request, blocked on its result channel *)
  | C_result (calls : list (Z * Z)) (result : workerResult)
  | C_returned (o : Res workerResult).

Record client := MkClient { c_params : P; c_ctx : option error; c_pc : client_pc }.

Definition set_pc (pc : client_pc) (c : client) : client := MkClient (c_params c) (c_ctx c) pc.

(** A call of [Close]; [X_returned] tells whether it closed the pool itself. *)
Inductive closer_pc := X_start | X_closing | X_waiting | X_returned (closed : bool).

Record system := MkSystem {
  sy_pool : WorkerPool;
  sy_workers : list worker_pc;
  sy_clients : list client;
  sy_closers : list closer_pc;
}.

Definition is_parked (w : worker_pc) : Prop := w = W_parked.

(** *** [work] *)

Inductive worker_step : system -> system -> Prop :=
  | work_receive p ws cs xs j rq q : ws !! j = Some W_loop -> requestChan p = rq :: q ->
      worker_step (MkSystem p ws cs xs) (MkSystem (set_chan q p) (<[j := W_got rq]> ws) cs xs)
  | work_park p ws cs xs j : ws !! j = Some W_loop -> requestChan p = [] -> chanClosed p = false ->
      worker_step (MkSystem p ws cs xs) (MkSystem p (<[j := W_parked]> ws) cs xs)
  | work_exit p ws cs xs j : ws !! j = Some W_loop -> requestChan p = [] -> chanClosed p = true ->
      worker_step (MkSystem p ws cs xs) (MkSystem (wg_done p) (<[j := W_returned]> ws) cs xs)
  | work_wake p ws cs xs j : ws !! j = Some W_parked -> chanClosed p = true ->
      worker_step (MkSystem p ws cs xs) (MkSystem (wg_done p) (<[j := W_returned]> ws) cs xs)
  | work_start p ws cs xs j rq : ws !! j = Some (W_got rq) ->
      worker_step (MkSystem p ws cs xs) (MkSystem (add_concurrent 1 p) (<[j := W_running rq]> ws) cs xs)
  | work_preflight p ws cs xs j rq calls result : ws !! j = Some (W_running rq) ->
      preflight_runs (rq_params rq) calls result ->
      worker_step (MkSystem p ws cs xs) (MkSystem p (<[j := W_computed rq calls result]> ws) cs xs)
  | work_observe p ws cs xs j rq calls result : ws !! j = Some (W_computed rq calls result) ->
      worker_step (MkSystem p ws cs xs)
        (MkSystem (observe_duration (ObserveAll (status_of result.2)) p) (<[j := W_observed rq calls result]> ws) cs xs)
  | work_finish p ws cs xs j rq calls result : ws !! j = Some (W_observed rq calls result) ->
      worker_step (MkSystem p ws cs xs) (MkSystem (add_concurrent (-1) p) (<[j := W_have rq calls result]> ws) cs xs)
  | work_deliver p ws cs xs j rq calls result c : ws !! j = Some (W_have rq calls result) ->
      cs !! rq_client rq = Some c -> c_pc c = C_waiting ->
      worker_step (MkSystem p ws cs xs)
        (MkSystem p (<[j := W_loop]> ws) (<[rq_client rq := set_pc (C_result calls result) c]> cs) xs).

(** *** [GetPreflight] of the pool

    The select sends if a worker is parked or the buffer has room, and panics if
    the channel was closed; it may take a context that is done whatever the
    channel allows, and takes the default only when nothing else is ready. *)

(** The observations of a call that got its result. *)
Definition observe_result (calls : list (Z * Z)) (result : workerResult) (p : WorkerPool) : WorkerPool :=
  let m := wrapper_after calls in
  observe_fetched (ledgerEntriesFetched m)
    (if decide (0 < ledgerEntriesFetched m)
     then observe_duration (ObserveDb (status_of result.2) (totalDurationMs m)) p else p).

Inductive client_step : system -> system -> Prop :=
  | get_closed p ws cs xs i c : cs !! i = Some c -> c_pc c = C_start -> isClosed p = true ->
      client_step (MkSystem p ws cs xs)
        (MkSystem p ws (<[i := set_pc (C_returned (Err (EMsg "preflight worker pool is closed"))) c]> cs) xs)
  | get_open p ws cs xs i c : cs !! i = Some c -> c_pc c = C_start -> isClosed p = false ->
      client_step (MkSystem p ws cs xs) (MkSystem p ws (<[i := set_pc C_open c]> cs) xs)
  | get_send_closed p ws cs xs i c : cs !! i = Some c -> c_pc c = C_open -> chanClosed p = true ->
      client_step (MkSystem p ws cs xs)
        (MkSystem p ws (<[i := set_pc (C_returned (Panic "send on closed channel")) c]> cs) xs)
  | get_handoff p ws cs xs i c j : cs !! i = Some c -> c_pc c = C_open -> chanClosed p = false ->
      ws !! j = Some W_parked ->
      client_step (MkSystem p ws cs xs)
        (MkSystem p (<[j := W_got (MkWorkerRequest i (c_params c))]> ws) (<[i := set_pc C_waiting c]> cs) xs)
  | get_enqueue p ws cs xs i c : cs !! i = Some c -> c_pc c = C_open -> chanClosed p = false ->
      W_parked ∉ ws -> zlen (requestChan p) < capacity p ->
      client_step (MkSystem p ws cs xs)
        (MkSystem (set_chan (requestChan p ++ [MkWorkerRequest i (c_params c)]) p) ws (<[i := set_pc C_waiting c]> cs) xs)
  | get_ctx_done p ws cs xs i c e : cs !! i = Some c -> c_pc c = C_open -> c_ctx c = Some e ->
      client_step (MkSystem p ws cs xs) (MkSystem p ws (<[i := set_pc (C_returned (Err e)) c]> cs) xs)
  | get_full p ws cs xs i c : cs !! i = Some c -> c_pc c = C_open -> c_ctx c = None -> chanClosed p = false ->
      W_parked ∉ ws -> capacity p <= zlen (requestChan p) ->
      client_step (MkSystem p ws cs xs)
        (MkSystem (inc_full p) ws (<[i := set_pc (C_returned (Err (ESentinel ErrPreflightQueueFull))) c]> cs) xs)
  | get_result p ws cs xs i c calls result : cs !! i = Some c -> c_pc c = C_result calls result ->
      client_step (MkSystem p ws cs xs)
        (MkSystem (observe_result calls result p) ws (<[i := set_pc (C_returned (Ok result)) c]> cs) xs)
  | get_cancel p ws cs xs i c e : cs !! i = Some c -> c_ctx c = None ->
      client_step (MkSystem p ws cs xs) (MkSystem p ws (<[i := MkClient (c_params c) (Some e) (c_pc c)]> cs) xs).

(** *** [Close]; closing a closed channel panics *)

Inductive closer_step : system -> system -> Prop :=
  | close_lost p ws cs xs k : xs !! k = Some X_start -> isClosed p = true ->
      closer_step (MkSystem p ws cs xs) (MkSystem p ws cs (<[k := X_returned false]> xs))
  | close_won p ws cs xs k : xs !! k = Some X_start -> isClosed p = false ->
      closer_step (MkSystem p ws cs xs) (MkSystem (mark_closed p) ws cs (<[k := X_closing]> xs))
  | close_channel p ws cs xs k : xs !! k = Some X_closing -> chanClosed p = false ->
      closer_step (MkSystem p ws cs xs) (MkSystem (close_chan p) ws cs (<[k := X_waiting]> xs))
  | close_waited p ws cs xs k : xs !! k = Some X_waiting -> wg p = 0 ->
      closer_step (MkSystem p ws cs xs) (MkSystem p ws cs (<[k := X_returned true]> xs)).

Definition step (s s' : system) : Prop := worker_step s s' \/ client_step s s' \/ closer_step s s'.

(** A new pool, its workers started, with calls that have not begun. *)
Definition initial (WorkerCount : nat) (JobQueueCapacity : Z) (calls : list (P * option error)) (closes : nat) : system :=
  MkSystem (NewPreflightWorkerPool WorkerCount JobQueueCapacity) (replicate WorkerCount W_loop)
    ((fun '(p, ctx) => MkClient p ctx C_start) <$> calls) (replicate closes X_start).

(** ** What the workers hold and what the counters count *)

Definition held (w : worker_pc) : option workerRequest :=
  match w with
  | W_got rq | W_running rq | W_computed rq _ _ | W_observed rq _ _ | W_have rq _ _ => Some rq
  | _ => None
  end.

Definition holds (i : nat) (w : worker_pc) : Prop := rq_client <$> held w = Some i.
Definition queued (i : nat) (rq : workerRequest) : Prop := rq_client rq = i.

(** Between [concurrentRequestsMetric.Inc] and [Dec]. *)
Definition computing (w : worker_pc) : Prop :=
  match w with W_running _ | W_computed _ _ _ | W_observed _ _ _ => True | _ => False end.
Definition alive (w : worker_pc) : Prop := match w with W_returned => False | _ => True end.
Definition is_waiting (c : client) : Prop := match c_pc c with C_waiting => True | _ => False end.
Definition waits (cs : list client) (i : nat) : Prop := match cs !! i with Some c => is_waiting c | None => False end.
Definition winner (x : closer_pc) : Prop := match x with X_start | X_returned false => False | _ => True end.
Definition closed_by (x : closer_pc) : Prop := match x with X_waiting | X_returned true => True | _ => False end.

#[global] Instance holds_dec i w : Decision (holds i w).
Proof. unfold holds. apply _. Defined.
#[global] Instance queued_dec i rq : Decision (queued i rq).
Proof. unfold queued. apply _. Defined.
#[global] Instance computing_dec w : Decision (computing w).
Proof. destruct w; simpl; apply _. Defined.
#[global] Instance alive_dec w : Decision (alive w).
Proof. destruct w; simpl; apply _. Defined.
#[global] Instance is_waiting_dec c : Decision (is_waiting c).
Proof. unfold is_waiting. destruct (c_pc c); apply _. Defined.
#[global] Instance waits_dec cs i : Decision (waits cs i).
Proof. unfold waits. destruct (cs !! i); apply _. Defined.
#[global] Instance winner_dec x : Decision (winner x).
Proof. destruct x as [| | |[]]; simpl; apply _. Defined.
#[global] Instance closed_by_dec x : Decision (closed_by x).
Proof. destruct x as [| | |[]]; simpl; apply _. Defined.

(** ** The invariant *)

(** The request is that of its client. *)
Definition params_ok (cs : list client) (rq : workerRequest) : Prop :=
  exists c, cs !! rq_client rq = Some c /\ c_params c = rq_params rq.

Definition worker_ok (p : WorkerPool) (cs : list client) (w : worker_pc) : Prop :=
  match w with
  | W_loop => True
  | W_parked => requestChan p = []
  | W_got rq | W_running rq => params_ok cs rq
  | W_computed rq calls result | W_observed rq calls result | W_have rq calls result =>
      params_ok cs rq /\ preflight_runs (rq_params rq) calls result
  | W_returned => chanClosed p = true /\ requestChan p = []
  end.

Definition client_ok (c : client) : Prop :=
  match c_pc c with
  | C_result calls result => preflight_runs (c_params c) calls result
  | C_returned (Ok result) => exists calls, preflight_runs (c_params c) calls result
  | _ => True
  end.

(** [d i] is by how much the requests of the client [i] that are in the pool
    exceed what its state says: zero, but in the middle of a hand-over. *)
Record pool_inv_upto (d : nat -> Z) (W : nat) (cap : Z) (ps : list P) (s : system) : Prop := {
  pi_capacity : capacity (sy_pool s) = cap;
  pi_queue : zlen (requestChan (sy_pool s)) <= cap;
  pi_workers : length (sy_workers s) = W;
  pi_params : c_params <$> sy_clients s = ps;
  pi_concurrent : concurrentRequests (sy_pool s) = tally computing (sy_workers s);
  pi_wg : wg (sy_pool s) = tally alive (sy_workers s);
  pi_hold : forall i, tally (queued i) (requestChan (sy_pool s)) + tally (holds i) (sy_workers s)
                      = bit (waits (sy_clients s) i) + d i;
  pi_requests : Forall (params_ok (sy_clients s)) (requestChan (sy_pool s));
  pi_worker_ok : Forall (worker_ok (sy_pool s) (sy_clients s)) (sy_workers s);
  pi_client_ok : Forall client_ok (sy_clients s);
  pi_winner : tally winner (sy_closers s) = bit (isClosed (sy_pool s) = true);
  pi_closed : tally closed_by (sy_closers s) = bit (chanClosed (sy_pool s) = true);
  pi_close : chanClosed (sy_pool s) = true -> isClosed (sy_pool s) = true;
  pi_waited : X_returned true ∈ sy_closers s -> wg (sy_pool s) = 0;
}.

Definition pool_inv := pool_inv_upto (fun _ => 0).

Lemma waits_insert cs i0 c c' i :
  cs !! i0 = Some c -> bit (waits (<[i0 := c']> cs) i) =
    if decide (i = i0) then bit (is_waiting c') else bit (waits cs i).
Proof.
  intros Hi. case_decide as He; apply bit_iff; unfold waits.
  - subst. rewrite list_lookup_insert_eq by (by eapply lookup_lt_Some). reflexivity.
  - rewrite list_lookup_insert_ne by done. reflexivity.
Qed.

Lemma waits_lookup cs i c : cs !! i = Some c -> bit (waits cs i) = bit (is_waiting c).
Proof. intros Hi. apply bit_iff. unfold waits. rewrite Hi. reflexivity. Qed.

Lemma params_ok_insert cs i c c' rq :
  cs !! i = Some c -> c_params c' = c_params c -> params_ok cs rq -> params_ok (<[i := c']> cs) rq.
Proof.
  intros Hi Hp (c0&H0&Hp0). unfold params_ok. destruct (decide (i = rq_client rq)) as [E|Hne].
  - subst i. exists c'. rewrite list_lookup_insert_eq by (by eapply lookup_lt_Some). split; [done|]. congruence.
  - exists c0. by rewrite list_lookup_insert_ne.
Qed.

Lemma c_params_insert (cs : list client) i c c' :
  cs !! i = Some c -> c_params c' = c_params c -> c_params <$> <[i := c']> cs = c_params <$> cs.
Proof.
  intros Hi Hp. rewrite list_fmap_insert, Hp. apply list_insert_id. by rewrite list_lookup_fmap, Hi.
Qed.

(** What a worker relies on survives the others' steps. *)
Lemma worker_ok_weaken p cs p' cs' w :
  (w = W_parked \/ w = W_returned -> requestChan p = [] -> requestChan p' = []) ->
  (chanClosed p = true -> chanClosed p' = true) ->
  (forall rq, params_ok cs rq -> params_ok cs' rq) -> worker_ok p cs w -> worker_ok p' cs' w.
Proof. intros Hq Hc Hp. destruct w; simpl; naive_solver. Qed.

Lemma workers_ok_weaken p cs p' cs' ws :
  ((exists w, w ∈ ws /\ (w = W_parked \/ w = W_returned)) -> requestChan p = [] -> requestChan p' = []) ->
  (chanClosed p = true -> chanClosed p' = true) ->
  (forall rq, params_ok cs rq -> params_ok cs' rq) ->
  Forall (worker_ok p cs) ws -> Forall (worker_ok p' cs') ws.
Proof.
  intros Hq Hc Hp. rewrite !Forall_forall. intros Hw w Hin.
  eapply worker_ok_weaken; [|exact Hc|exact Hp|by apply Hw]. intros Hx. apply Hq. by exists w.
Qed.

(** A worker goes from [w] to [w']. *)
Lemma worker_moves d d' W cap ps p p' ws cs xs j w w' :
  pool_inv_upto d W cap ps (MkSystem p ws cs xs) -> ws !! j = Some w -> alive w ->
  capacity p' = capacity p -> isClosed p' = isClosed p -> chanClosed p' = chanClosed p ->
  zlen (requestChan p') <= cap -> Forall (params_ok cs) (requestChan p') ->
  concurrentRequests p' = concurrentRequests p - bit (computing w) + bit (computing w') ->
  wg p' = wg p - 1 + bit (alive w') ->
  (forall i, d' i = d i + tally (queued i) (requestChan p') - tally (queued i) (requestChan p)
                    + bit (holds i w') - bit (holds i w)) ->
  ((exists w, w ∈ ws /\ (w = W_parked \/ w = W_returned)) -> requestChan p = [] -> requestChan p' = []) ->
  worker_ok p' cs w' ->
  pool_inv_upto d' W cap ps (MkSystem p' (<[j := w']> ws) cs xs).
Proof.
  intros [H1 H2 H3 H4 H5 H6 H7 H8 H9 H10 H11 H12 H13 H14] Hj Hal Ec Ei Ech Hz Hq Econ Ewg Hd Hpk Hok. simpl in *.
  split; simpl.
  - congruence.
  - done.
  - by rewrite length_insert.
  - done.
  - rewrite (tally_insert _ _ _ _ w' Hj). lia.
  - rewrite (tally_insert _ _ _ _ w' Hj), (bit_true (alive w)) by done. lia.
  - intros i. rewrite (tally_insert _ _ _ _ w' Hj). specialize (H7 i). specialize (Hd i). lia.
  - done.
  - apply Forall_insert; [|done]. apply (workers_ok_weaken p cs); [done|congruence|done..].
  - done.
  - rewrite H11. apply bit_iff. by rewrite Ei.
  - rewrite H12. apply bit_iff. by rewrite Ech.
  - by rewrite Ech, Ei.
  - intros Hx. pose proof (tally_lookup_pos alive ws j w Hj Hal). specialize (H14 Hx). lia.
Qed.

(** A client goes from [c] to [c']; the pool may have got its request. *)
Lemma client_moves d d' W cap ps p p' ws cs xs i c c' :
  pool_inv_upto d W cap ps (MkSystem p ws cs xs) -> cs !! i = Some c -> c_params c' = c_params c -> client_ok c' ->
  capacity p' = capacity p -> isClosed p' = isClosed p -> chanClosed p' = chanClosed p ->
  concurrentRequests p' = concurrentRequests p -> wg p' = wg p ->
  zlen (requestChan p') <= cap -> Forall (params_ok cs) (requestChan p') ->
  (forall k, d' k = d k + tally (queued k) (requestChan p') - tally (queued k) (requestChan p)
                    - (if decide (k = i) then bit (is_waiting c') - bit (is_waiting c) else 0)) ->
  ((exists w, w ∈ ws /\ (w = W_parked \/ w = W_returned)) -> requestChan p = [] -> requestChan p' = []) ->
  pool_inv_upto d' W cap ps (MkSystem p' ws (<[i := c']> cs) xs).
Proof.
  intros [H1 H2 H3 H4 H5 H6 H7 H8 H9 H10 H11 H12 H13 H14] Hi Hpc Hcok Ec Ei Ech Econ Ewg Hz Hq Hd Hpk. simpl in *.
  assert (forall rq, params_ok cs rq -> params_ok (<[i := c']> cs) rq) as Hpar.
  { intros rq. by apply (params_ok_insert _ _ c). }
  split; simpl; try congruence.
  - by rewrite (c_params_insert _ _ c).
  - intros k. rewrite (waits_insert _ _ c) by done. specialize (H7 k). specialize (Hd k).
    case_decide; [|lia]. subst k. rewrite (waits_lookup _ _ c) in H7 by done. lia.
  - by eapply Forall_impl.
  - by apply (workers_ok_weaken p cs); [|congruence|..].
  - by apply Forall_insert.
  - rewrite H11. apply bit_iff. by rewrite Ei.
  - rewrite H12. apply bit_iff. by rewrite Ech.
  - rewrite Ech, Ei. done.
  - rewrite Ewg. done.
Qed.

Lemma holds_some i w rq : held w = Some rq -> bit (holds i w) = bit (queued i rq).
Proof. intros Hw. apply bit_iff. unfold holds, queued. rewrite Hw. simpl. split; congruence. Qed.

Lemma holds_none i w : held w = None -> bit (holds i w) = 0.
Proof. intros Hw. apply bit_false. unfold holds. by rewrite Hw. Qed.

(** Arithmetic over the tallies, the states of the processes being known. *)
Ltac bits :=
  repeat match goal with
  | |- context [bit (holds ?i ?w)] => first [rewrite (holds_none i w) by done | rewrite (holds_some i w _ eq_refl)]
  end;
  repeat first [rewrite bit_true by first [done|exact I|exact eq_refl] | rewrite bit_false by first [by intros []|unfold queued; simpl; congruence]];
  simpl; lia.

Lemma not_parked (p : WorkerPool) ws : W_parked ∉ ws -> chanClosed p = false -> forall cs,
  Forall (worker_ok p cs) ws -> ~ exists w, w ∈ ws /\ (w = W_parked \/ w = W_returned).
Proof.
  intros Hnp Hc cs Hw (w&Hin&[->|Ew]); [done|]. subst. rewrite Forall_forall in Hw.
  destruct (Hw _ Hin). congruence.
Qed.

Lemma pool_inv_worker_step W cap ps s s' : pool_inv W cap ps s -> worker_step s s' -> pool_inv W cap ps s'.
Proof.
  intros Hinv Hst. pose proof Hinv as [H1 H2 H3 H4 H5 H6 H7 H8 H9 H10 H11 H12 H13 H14].
  destruct Hst; simpl in *; pose proof (Forall_lookup_1 _ _ _ _ H9 H) as Hwj; simpl in Hwj.
  9: { (* deliver: between the moves the pool holds one request too few *)
    destruct Hwj as [(c0&Hc0&Hp0) Hr]. simplify_eq.
    eapply (client_moves (fun k => - bit (queued k rq)) _ _ _ _ p); [|done|done|..]; eauto.
    - eapply worker_moves; eauto; simpl; try done; try bits. intros k. bits.
    - unfold client_ok. simpl. by rewrite Hp0.
    - assert (is_waiting c) by (unfold is_waiting; by rewrite H15).
      intros k. destruct (decide (k = rq_client rq)) as [->|Hk]; bits. }
  all: eapply worker_moves; eauto; simpl; try done; try (by bits); try (intros k; by bits).
  all: rewrite H0 in *; (* only receiving changes the queue *)
    try (by apply Forall_cons in H8 as [??]).
  - autorewrite with go in H2. lia.
  - intros k. rewrite tally_cons. bits.
Qed.

Lemma pool_inv_client_step W cap ps s s' : pool_inv W cap ps s -> client_step s s' -> pool_inv W cap ps s'.
Proof.
  intros Hinv Hst. pose proof Hinv as [H1 H2 H3 H4 H5 H6 H7 H8 H9 H10 H11 H12 H13 H14].
  destruct Hst; simpl in *; pose proof (Forall_lookup_1 _ _ _ _ H10 H) as Hci; unfold client_ok in Hci;
    try rewrite H0 in Hci; simpl in Hci.
  4: { (* handoff: between the moves the pool holds one request too many *)
    assert (~ is_waiting c) by (unfold is_waiting; rewrite H0; by intros []).
    eapply (client_moves (fun k => bit (queued k (MkWorkerRequest i (c_params c)))) _ _ _ _ p); [|done|done|..]; eauto; try done.
    - eapply worker_moves; eauto; simpl; try done; try bits; try (intros k; bits). by exists c.
    - intros k. destruct (decide (k = i)) as [->|Hk]; bits. }
  4: { (* enqueue *)
    assert (~ is_waiting c) by (unfold is_waiting; rewrite H0; by intros []).
    eapply client_moves; eauto; simpl; try done.
    - autorewrite with go. lia.
    - apply Forall_app. split; [done|]. constructor; [by exists c|done].
    - intros k. rewrite tally_app, tally_cons. change (tally (queued k) []) with 0. destruct (decide (k = i)) as [->|Hk]; bits.
    - intros Hpk. by destruct (not_parked p ws H16 H15 cs). }
  7: { (* cancel: the state of the call does not change *)
    eapply client_moves; eauto; simpl; try done. intros k. destruct (decide (k = i)); [|lia].
    rewrite (bit_iff _ (is_waiting c)) by reflexivity. lia. }
  all: assert (~ is_waiting c) by (unfold is_waiting; rewrite H0; by intros []).
  6: unfold observe_result; destruct (decide (0 < _)).
  all: eapply client_moves; eauto; simpl; try done.
  all: try (intros k; destruct (decide (k = i)) as [->|Hk]; bits).
  all: by exists calls.
Qed.

Lemma elem_of_insert_other {A} (l : list A) k x y : x ∈ <[k := y]> l -> x <> y -> x ∈ l.
Proof.
  intros [n Hn]%list_elem_of_lookup_1 Hne. apply list_lookup_insert_Some in Hn as [(_&?&_)|[_ Hn]]; [by subst|].
  by eapply list_elem_of_lookup_2.
Qed.

Lemma pool_inv_closer_step W cap ps s s' : pool_inv W cap ps s -> closer_step s s' -> pool_inv W cap ps s'.
Proof.
  intros [H1 H2 H3 H4 H5 H6 H7 H8 H9 H10 H11 H12 H13 H14] Hst. destruct Hst; simpl in *.
  all: split; simpl; try done.
  all: try (rewrite (tally_insert _ _ _ _ _ H)).
  all: try (intros Hx%elem_of_insert_other; [by auto|done]).
  all: rewrite ?H11, ?H12, ?H0.
  all: try (bits).
  - by apply (workers_ok_weaken p cs).
  - intros _. destruct (isClosed p) eqn:E; [done|]. exfalso.
    pose proof (tally_lookup_pos winner xs k _ H I) as Hpos. rewrite H11 in Hpos. rewrite bit_false in Hpos by done. lia.
Qed.

Lemma pool_inv_step W cap ps s s' : pool_inv W cap ps s -> step s s' -> pool_inv W cap ps s'.
Proof.
  intros Hi [Hs|[Hs|Hs]]; [by eapply pool_inv_worker_step|by eapply pool_inv_client_step|by eapply pool_inv_closer_step].
Qed.

Lemma pool_inv_initial W cap calls closes :
  0 <= cap -> pool_inv W cap calls.*1 (initial W cap calls closes).
Proof.
  intros Hc. split; simpl; try done.
  - by rewrite length_replicate.
  - rewrite <- list_fmap_compose. apply list_fmap_ext. by intros ? [].
  - rewrite tally_none; [done|]. intros w [-> _]%elem_of_replicate [].
  - unfold tally. rewrite filter_all; [unfold zlen; by rewrite length_replicate|].
    by intros w [-> _]%elem_of_replicate.
  - intros i. change (tally (queued i) []) with 0. rewrite tally_none, bit_false; [lia| |].
    + unfold waits. rewrite list_lookup_fmap. destruct (calls !! i) as [[]|]; intros [].
    + intros w [-> _]%elem_of_replicate. unfold holds. done.
  - by apply Forall_replicate.
  - apply Forall_forall. by intros c ([]&->&_)%list_elem_of_fmap.
  - rewrite tally_none; [by rewrite bit_false|]. intros w [-> _]%elem_of_replicate [].
  - rewrite tally_none; [by rewrite bit_false|]. intros w [-> _]%elem_of_replicate [].
  - by intros [? _]%elem_of_replicate.
Qed.

Lemma pool_inv_reachable W cap calls closes s :
  0 <= cap -> rtc step (initial W cap calls closes) s -> pool_inv W cap calls.*1 s.
Proof.
  intros Hc Hr. pose proof (pool_inv_initial W cap calls closes Hc) as Hi.
  induction Hr as [|s1 s2 s3 Hst Hr IH]; [done|]. by eapply IH, pool_inv_step.
Qed.

(** ** What a reachable pool guarantees *)

Lemma tally_zero (Q : worker_pc -> Prop) `{forall w, Decision (Q w)} ws w : tally Q ws = 0 -> w ∈ ws -> ~ Q w.
Proof. intros H0 Hin HQ. assert (0 < tally Q ws) by (apply tally_pos; by exists w). lia. Qed.

(** C24: In every interleaving of callers, workers and closers: the queue never
    exceeds its capacity; the gauge of concurrent requests is the number of
    workers between its two updates, hence at most the number of workers; the
    calls keep their parameters, and a call that returns a preflight returns a
    result of a preflight of its own parameters; the channel is closed at most
    once; and when a [Close] that closed the pool returns, every worker has
    returned, the queue is empty and no call is left waiting for a result. *)
Theorem pool_safe W cap calls closes s :
  (0 < W)%nat -> 0 <= cap -> rtc step (initial W cap calls closes) s ->
  zlen (requestChan (sy_pool s)) <= cap /\
  (concurrentRequests (sy_pool s) = tally computing (sy_workers s) /\
   0 <= concurrentRequests (sy_pool s) <= Z.of_nat W) /\
  c_params <$> sy_clients s = calls.*1 /\
  (forall i c result, sy_clients s !! i = Some c -> c_pc c = C_returned (Ok result) ->
     exists entries, preflight_runs (c_params c) entries result) /\
  (X_closing ∈ sy_closers s -> chanClosed (sy_pool s) = false) /\
  (X_returned true ∈ sy_closers s ->
     (forall w, w ∈ sy_workers s -> w = W_returned) /\ requestChan (sy_pool s) = [] /\
     (forall i c, sy_clients s !! i = Some c -> c_pc c <> C_waiting)).
Proof.
  intros HW Hc Hr. pose proof (pool_inv_reachable _ _ _ _ _ Hc Hr) as
    [H1 H2 H3 H4 H5 H6 H7 H8 H9 H10 H11 H12 H13 H14].
  split_and!; [done|done|..|done| | |].
  - rewrite H5. apply tally_bounds.
  - rewrite H5. etrans; [apply tally_bounds|]. unfold zlen. lia.
  - intros i c result Hi Hpc. pose proof (Forall_lookup_1 _ _ _ _ H10 Hi) as Hok.
    unfold client_ok in Hok. by rewrite Hpc in Hok.
  - intros Hx. destruct (chanClosed (sy_pool s)) eqn:E; [|done]. exfalso.
    specialize (H13 eq_refl). rewrite H13, bit_true in H11 by done. rewrite bit_true in H12 by done.
    apply list_elem_of_lookup_1 in Hx as [k Hk].
    pose proof (tally_insert winner _ _ _ X_start Hk) as T1. pose proof (tally_insert closed_by _ _ _ X_start Hk) as T2.
    pose proof (tally_le closed_by winner (<[k := X_start]> (sy_closers s))
      ltac:(intros [| | |[]]; simpl; tauto)) as T3.
    rewrite (bit_true (winner X_closing)), (bit_false (winner X_start)) in T1 by (done || by intros []).
    rewrite (bit_false (closed_by X_closing)), (bit_false (closed_by X_start)) in T2 by (by intros []). lia.
  - intros Hx. specialize (H14 Hx). rewrite H6 in H14.
    assert (forall w, w ∈ sy_workers s -> w = W_returned) as Hall.
    { intros w Hin. pose proof (tally_zero alive _ _ H14 Hin) as Hn. destruct w; simpl in Hn; tauto. }
    assert (requestChan (sy_pool s) = []) as Hq.
    { destruct (sy_workers s) as [|w ws] eqn:E; [simpl in H3; lia|]. rewrite <- E in *.
      assert (w ∈ sy_workers s) as Hin by (rewrite E; by left).
      rewrite Forall_forall in H9. specialize (H9 _ Hin). rewrite (Hall _ Hin) in H9. apply H9. }
    split_and!; [done|done|]. intros i c Hi Hw. specialize (H7 i). rewrite Hq in H7.
    rewrite (waits_lookup _ _ _ Hi), bit_true in H7 by (unfold is_waiting; by rewrite Hw).
    rewrite tally_none in H7 by (by intros ? ?%elem_of_nil). rewrite tally_none in H7; [lia|].
    intros w Hin. rewrite (Hall w Hin). by unfold holds.
Qed.

(** ** The workers answer every call that waits *)

(** How many steps a worker can take before it needs another request. *)
Definition steps_left (w : worker_pc) : Z :=
  match w with
  | W_got _ => 7 | W_running _ => 6 | W_computed _ _ _ => 5 | W_observed _ _ _ => 4 | W_have _ _ _ => 3
  | W_loop => 2 | W_parked => 1 | W_returned => 0
  end.

Fixpoint total_left (ws : list worker_pc) : Z :=
  match ws with [] => 0 | w :: ws => steps_left w + total_left ws end.

(** A bound on the steps of the workers. *)
Definition work_bound (s : system) : Z := 6 * zlen (requestChan (sy_pool s)) + total_left (sy_workers s).

Lemma total_left_insert ws j w w' :
  ws !! j = Some w -> total_left (<[j := w']> ws) = total_left ws - steps_left w + steps_left w'.
Proof.
  revert j; induction ws as [|x ws IH]; intros [|j] Hj; simplify_eq/=; [lia|]. rewrite (IH _ Hj). lia.
Qed.

Lemma total_left_bounds ws : 0 <= total_left ws <= 7 * zlen ws.
Proof.
  induction ws as [|w ws IH]; [done|]. rewrite zlen_cons. simpl. assert (0 <= steps_left w <= 7) by (by destruct w).
  lia.
Qed.

Lemma worker_step_decreases s s' : worker_step s s' -> work_bound s' < work_bound s.
Proof.
  intros Hst. unfold work_bound. destruct Hst; simpl; rewrite (total_left_insert _ _ _ _ H); simpl;
    try rewrite H0, zlen_cons; lia.
Qed.

Lemma work_bound_nonneg s : 0 <= work_bound s.
Proof. unfold work_bound. pose proof (total_left_bounds (sy_workers s)). pose proof (zlen_nonneg (requestChan (sy_pool s))). lia. Qed.

Lemma nsteps_worker_bound n s s' : nsteps worker_step n s s' -> Z.of_nat n <= work_bound s.
Proof.
  induction 1 as [s|n s1 s2 s3 Hst Hn IH]; [pose proof (work_bound_nonneg s); lia|].
  apply worker_step_decreases in Hst. lia.
Qed.

(** A worker with a request, or at the head of its loop before a non-empty
    queue, can take a step. *)
Lemma busy_worker_step W cap ps s j w rq :
  (forall p, exists calls result, preflight_runs p calls result) ->
  pool_inv W cap ps s -> sy_workers s !! j = Some w -> held w = Some rq -> exists s', worker_step s s'.
Proof.
  intros Htot [H1 H2 H3 H4 H5 H6 H7 H8 H9 H10 H11 H12 H13 H14] Hj Hh. destruct s as [p ws cs xs]. simpl in *.
  destruct w as [| |rq'|rq'|rq' calls result|rq' calls result|rq' calls result|]; simplify_eq/=.
  - eexists. by eapply work_start.
  - destruct (Htot (rq_params rq)) as (calls&result&Hrun). eexists. by eapply work_preflight.
  - eexists. by eapply work_observe.
  - eexists. by eapply work_finish.
  - specialize (H7 (rq_client rq)).
    pose proof (tally_lookup_pos (holds (rq_client rq)) ws j _ Hj eq_refl) as Hpos.
    pose proof (tally_bounds (queued (rq_client rq)) (requestChan p)) as Hb.
    destruct (cs !! rq_client rq) as [c|] eqn:Ec.
    + rewrite (waits_lookup _ _ _ Ec) in H7. unfold bit in H7. case_decide as Hw; [|lia].
      unfold is_waiting in Hw. destruct (c_pc c) eqn:Epc; try done. eexists. by eapply work_deliver.
    + rewrite bit_false in H7; [lia|]. unfold waits. rewrite Ec. by intros [].
Qed.

Lemma waiting_progress W cap ps s i c :
  (0 < W)%nat -> (forall p, exists calls result, preflight_runs p calls result) ->
  pool_inv W cap ps s -> sy_clients s !! i = Some c -> c_pc c = C_waiting -> exists s', worker_step s s'.
Proof.
  intros HW Htot Hinv Hi Hw. pose proof Hinv as [H1 H2 H3 H4 H5 H6 H7 H8 H9 H10 H11 H12 H13 H14].
  specialize (H7 i). rewrite (waits_lookup _ _ _ Hi), bit_true in H7 by (unfold is_waiting; by rewrite Hw).
  destruct (decide (0 < tally (holds i) (sy_workers s))) as [Hp|Hp].
  - apply tally_pos in Hp as (w&[j Hj]%list_elem_of_lookup_1&Hh).
    unfold holds in Hh. destruct (held w) as [rq|] eqn:E; [|done]. by eapply busy_worker_step.
  - assert (0 < tally (queued i) (requestChan (sy_pool s))) as (rq&Hrq&_)%tally_pos by lia.
    destruct (sy_workers s) as [|w ws] eqn:E; [simpl in H3; lia|].
    assert (sy_workers s !! 0%nat = Some w) as Hj by (by rewrite E).
    destruct (held w) as [rq'|] eqn:Eh; [by eapply busy_worker_step|].
    rewrite Forall_forall in H9. assert (worker_ok (sy_pool s) (sy_clients s) w) as Hok by (apply H9; by left).
    destruct s as [p ws' cs xs]. simpl in *. destruct (requestChan p) as [|rq0 q] eqn:Eq; [by apply elem_of_nil in Hrq|].
    destruct w; simpl in *; try done.
    + eexists. by eapply work_receive.
    + congruence.
    + destruct Hok. congruence.
Qed.

(** Running the workers until nobody waits. *)
Lemma workers_finish W cap ps s :
  (0 < W)%nat -> (forall p, exists calls result, preflight_runs p calls result) -> pool_inv W cap ps s ->
  exists s', rtc worker_step s s' /\ forall i c, sy_clients s' !! i = Some c -> c_pc c <> C_waiting.
Proof.
  intros HW Htot. remember (Z.to_nat (work_bound s)) as n eqn:En. revert s En.
  induction n as [n IH] using lt_wf_ind. intros s -> Hinv.
  destruct (decide (Exists is_waiting (sy_clients s))) as [Hw|Hw].
  - apply Exists_exists in Hw as (c&[i Hi]%list_elem_of_lookup_1&Hcw). unfold is_waiting in Hcw.
    destruct (c_pc c) eqn:Epc; try done.
    destruct (waiting_progress _ _ _ _ _ _ HW Htot Hinv Hi Epc) as [s1 Hst].
    pose proof (worker_step_decreases _ _ Hst). pose proof (work_bound_nonneg s1).
    destruct (IH (Z.to_nat (work_bound s1)) ltac:(lia) s1 eq_refl) as (s'&Hr&Hdone); [by eapply pool_inv_worker_step|].
    exists s'. split; [by eapply rtc_l|done].
  - exists s. split; [apply rtc_refl|]. intros i c Hi Hpc. apply Hw, Exists_exists. exists c.
    split; [by eapply list_elem_of_lookup_2|]. unfold is_waiting. by rewrite Hpc.
Qed.

(** C25: No call waits for ever: as long as a preflight ends, the workers alone,
    in a number of steps bounded by what they hold and what is queued, bring
    any reachable state, the pool closed or not, to one in which every call that
    was waiting has its result; and whatever steps they choose, they cannot
    take more than that many. *)
Theorem pool_answers W cap calls closes s :
  (0 < W)%nat -> 0 <= cap -> (forall p, exists entries result, preflight_runs p entries result) ->
  rtc step (initial W cap calls closes) s ->
  (exists s', rtc worker_step s s' /\ forall i c, sy_clients s' !! i = Some c -> c_pc c <> C_waiting) /\
  (forall n s', nsteps worker_step n s s' ->
     Z.of_nat n <= 6 * zlen (requestChan (sy_pool s)) + 7 * Z.of_nat W).
Proof.
  intros HW Hc Htot Hr. pose proof (pool_inv_reachable _ _ _ _ _ Hc Hr) as Hinv. clear Hr. split.
  - by eapply workers_finish.
  - intros n s' Hn%nsteps_worker_bound. unfold work_bound in Hn.
    pose proof (total_left_bounds (sy_workers s)) as Hb. unfold zlen in Hb.
    rewrite (pi_workers _ _ _ _ _ Hinv) in Hb. lia.
Qed.

End Pool.

Arguments MkClient {P R} c_params c_ctx c_pc.
Arguments MkSystem {P R} sy_pool sy_workers sy_clients sy_closers.
Arguments initial {P R} WorkerCount JobQueueCapacity calls closes.

Section Witnesses.

(** Preflights that answer with twice their parameter, reading one entry. *)
Definition ex_runs (p : Z) (calls : list (Z * Z)) (result : Z * option error) : Prop :=
  calls = [(5, 1)] /\ result = (2 * p, None).

Ltac run_worker c := eapply rtc_l; [left; c|simpl].
Ltac run_client c := eapply rtc_l; [right; left; c|simpl].
Ltac run_closer c := eapply rtc_l; [right; right; c|simpl].

(** One worker, a queue of one: a call is answered, then the pool is closed. *)
Definition ex_closed : @system Z Z :=
  MkSystem (MkWorkerPool true true [] 1 0 0 [ObserveAll "ok"; ObserveDb "ok" 5] [1] 0) [W_returned]
    [MkClient 21 None (C_returned (Ok (42, None)))] [X_returned true].

Definition ex_waiting : @system Z Z :=
  MkSystem (MkWorkerPool false false [MkWorkerRequest 0 21] 1 0 0 [] [] 1) [W_loop]
    [MkClient 21 None C_waiting] [X_start].

Lemma ex_waiting_reachable : rtc (step ex_runs) (initial 1 1 [(21, None)] 1) ex_waiting.
Proof.
  unfold initial. simpl.
  run_client ltac:(by apply (get_open _ _ _ _ 0%nat)).
  run_client ltac:(by apply (get_enqueue _ _ _ _ 0%nat); [..|set_solver|]).
  apply rtc_refl.
Qed.

Lemma ex_closed_reachable : rtc (step ex_runs) (initial 1 1 [(21, None)] 1) ex_closed.
Proof.
  etrans; [exact ex_waiting_reachable|]. unfold ex_waiting.
  run_worker ltac:(by eapply (work_receive _ _ _ _ _ 0%nat)).
  run_worker ltac:(by eapply (work_start _ _ _ _ _ 0%nat)).
  run_worker ltac:(by eapply (work_preflight _ _ _ _ _ 0%nat _ [(5, 1)] (42, None))).
  run_worker ltac:(by eapply (work_observe _ _ _ _ _ 0%nat)).
  run_worker ltac:(by eapply (work_finish _ _ _ _ _ 0%nat)).
  run_worker ltac:(by eapply (work_deliver _ _ _ _ _ 0%nat)).
  run_client ltac:(by apply (get_result _ _ _ _ 0%nat)).
  run_closer ltac:(by apply (close_won _ _ _ _ 0%nat)).
  run_closer ltac:(by apply (close_channel _ _ _ _ 0%nat)).
  run_worker ltac:(by eapply (work_exit _ _ _ _ _ 0%nat)).
  run_closer ltac:(by apply (close_waited _ _ _ _ 0%nat)).
  vm_compute. apply rtc_refl.
Qed.

(** A call that found the pool open and selects after another goroutine closed
    it sends on a closed channel, which panics. *)
Example send_on_closed_channel :
  exists s, rtc (step ex_runs) (initial 1 1 [(21, None)] 1) s /\
    c_pc <$> sy_clients s = [C_returned (Panic "send on closed channel")].
Proof.
  eexists. split.
  - unfold initial. simpl.
    run_client ltac:(by apply (get_open _ _ _ _ 0%nat)).
    run_closer ltac:(by apply (close_won _ _ _ _ 0%nat)).
    run_closer ltac:(by apply (close_channel _ _ _ _ 0%nat)).
    run_client ltac:(by apply (get_send_closed _ _ _ _ 0%nat)).
    apply rtc_refl.
  - reflexivity.
Qed.

Lemma pool_safe_witness :
  zlen (requestChan (sy_pool ex_closed)) <= 1 /\
  (concurrentRequests (sy_pool ex_closed) = tally computing (sy_workers ex_closed) /\
   0 <= concurrentRequests (sy_pool ex_closed) <= 1) /\
  c_params <$> sy_clients ex_closed = [21] /\
  (forall i c result, sy_clients ex_closed !! i = Some c -> c_pc c = C_returned (Ok result) ->
     exists entries, ex_runs (c_params c) entries result) /\
  (X_closing ∈ sy_closers ex_closed -> chanClosed (sy_pool ex_closed) = false) /\
  (X_returned true ∈ sy_closers ex_closed ->
     (forall w, w ∈ sy_workers ex_closed -> w = W_returned) /\ requestChan (sy_pool ex_closed) = [] /\
     (forall i c, sy_clients ex_closed !! i = Some c -> c_pc c <> C_waiting)).
Proof.
  apply (pool_safe ex_runs 1 1 [(21, None)] 1 ex_closed); [lia|lia|apply ex_closed_reachable].
Defined.

Lemma pool_answers_witness :
  (exists s', rtc (worker_step ex_runs) ex_waiting s' /\ forall i c, sy_clients s' !! i = Some c -> c_pc c <> C_waiting) /\
  (forall n s', nsteps (worker_step ex_runs) n ex_waiting s' -> Z.of_nat n <= 6 * 1 + 7 * 1).
Proof.
  apply (pool_answers ex_runs 1 1 [(21, None)] 1 ex_waiting); [lia|lia| |apply ex_waiting_reachable].
  intros p. exists [(5, 1)], (2 * p, None). done.
Defined.

End Witnesses.
