(* ===== verification/LedgerEntries.v ===== *)
(** * Ledger entries (internal/ledgerentries and methods/get_ledger_entries.go)

    The getter asks stellar-core for ledger entries at a fixed or at the latest
    stored ledger; getLedgerEntries validates the keys of a request, asks for
    them and answers in the order of the request. *)

From S2P Require Import Prelude GoStd Sdk SdkExample LedgerBucketWindow Tables DbTransaction DbLedger Db Protocol ProtocolExample MethodJson GetTransactionsMethod Handlers.

(** ** The parts of the SDK and of the core client *)

(** [stellarcore.LedgerEntryResponse] *)
Record CoreEntry := MkCoreEntry { CoreE_State : string; CoreE_Entry : string; CoreE_LiveUntil : Z }.

Class EntrySdk := {
  LedgerKey : Type;
  LedgerEntry : Type;
  key_Type_Ttl : LedgerKey -> bool; (* Type == LedgerEntryTypeTtl *)
  SafeUnmarshalBase64_key : string -> Res LedgerKey;
  key_MarshalBase64 : LedgerKey -> Res string;
  key_MarshalBinary : LedgerKey -> Res string;
  SafeUnmarshalBase64_entry : string -> Res LedgerEntry;
  entry_Data_MarshalBase64 : LedgerEntry -> Res string;
  entry_Data_MarshalBinary : LedgerEntry -> Res string;
  entry_Ext_MarshalBase64 : LedgerEntry -> Res string;
  entry_Ext_MarshalBinary : LedgerEntry -> Res string;
  entry_LastModifiedLedgerSeq : LedgerEntry -> Z;
  print_key : LedgerKey -> string; (* the %v verb *)
  print_entry : LedgerEntry -> string;
  print_ext : LedgerEntry -> string;
  LedgerEntryStateNotFound : string;
  LedgerEntryStateArchived : string;
}.

(** The fast core client: a ledger sequence and keys. *)
Class FastCoreClient `{EntrySdk} := { core_GetLedgerEntries : Z -> list LedgerKey -> Res (list CoreEntry) }.

(** [sort.Sort], given the keys it compares: the elements in an order of which
    only the keys are promised to be sorted. *)
Class GoSort := { sort_Sort : forall {A : Type}, list (Z * A) -> list (Z * A) }.

Class GoSortLaws `{GoSort} := {
  sort_perm : forall A (l : list (Z * A)), sort_Sort l ≡ₚ l;
  sort_sorted : forall A (l : list (Z * A)), Sorted Z.le (sort_Sort l).*1;
}.

Section Entries.
Context `{X : Sdk} `{P : !RpcProtocol} `{ND : Nondet} `{ES : EntrySdk} `{FC : !FastCoreClient} `{GS : GoSort}.

(** ** [coreLedgerEntryGetter] *)

Record LedgerKeyAndEntry := MkLedgerKeyAndEntry {
  LKE_Key : LedgerKey;
  LKE_Entry : LedgerEntry;
  LKE_LiveUntilLedgerSeq : option Z;
}.

(** The entries of the response, from position [i]; the keys are those of the
    request. *)
Fixpoint collect_entries (keys : list LedgerKey) (i : Z) (entries : list CoreEntry) : Res (list LedgerKeyAndEntry) :=
  match entries with
  | [] => Ok []
  | entry :: entries =>
      if decide (CoreE_State entry = LedgerEntryStateNotFound) then collect_entries keys (i + 1) entries
      else
        xdrEntry ← res_map_err (EWrap "could not decode ledger entry") (SafeUnmarshalBase64_entry (CoreE_Entry entry));
        key ← index keys i;
        let ttl := if decide (CoreE_LiveUntil entry <> 0 \/ CoreE_State entry = LedgerEntryStateArchived)
                   then Some (CoreE_LiveUntil entry) else None in
        rest ← collect_entries keys (i + 1) entries;
        Ok (MkLedgerKeyAndEntry key xdrEntry ttl :: rest)
  end.

(** A getter made by [NewLedgerEntryAtGetter] has a ledger, one made by
    [NewLedgerEntryGetter] has ledger zero and reads the latest. *)
Record coreLedgerEntryGetter := MkCoreLedgerEntryGetter { atLedger : Z }.

Definition NewLedgerEntryGetter : coreLedgerEntryGetter := MkCoreLedgerEntryGetter 0.
Definition NewLedgerEntryAtGetter (atLedger : Z) : coreLedgerEntryGetter := MkCoreLedgerEntryGetter atLedger.

Definition GetLedgerEntries (c : coreLedgerEntryGetter) (keys : list LedgerKey) : M DB (list LedgerKeyAndEntry * Z) :=
  at_ledger ← (if decide (atLedger c = 0)
               then map_err (EWrap "could not get latest ledger") getLatestLedgerSequence
               else mret (atLedger c));
  resp ← map_err (EWrap "could not query captive core") (of_res (core_GetLedgerEntries at_ledger keys));
  result ← of_res (collect_entries keys 0 resp);
  mret (result, at_ledger).

(** ** getLedgerEntries *)

Record GetLedgerEntriesRequest := MkGetLedgerEntriesRequest { LE_Keys : list string; LE_Format : string }.

Record LedgerEntryResult := MkLedgerEntryResult {
  LER_KeyXDR : string;
  LER_KeyJSON : string;
  LER_DataXDR : string;
  LER_DataJSON : string;
  LER_ExtensionXDR : string;
  LER_ExtensionJSON : string;
  LER_LastModifiedLedger : Z;
  LER_LiveUntilLedgerSeq : option Z;
}.

Record GetLedgerEntriesResponse := MkGetLedgerEntriesResponse {
  LErsp_Entries : list LedgerEntryResult;
  LErsp_LatestLedger : Z;
}.

Definition ErrLedgerTTLEntriesCannotBeQueriedDirectly : string := "ledger ttl entries cannot be queried directly".
Definition getLedgerEntriesMaxKeys : Z := 200.

(** The keys of the request, from position [i]. *)
Fixpoint decode_keys (i : Z) (requestKeys : list string) : Res (list LedgerKey) :=
  match requestKeys with
  | [] => Ok []
  | requestKey :: requestKeys =>
      match SafeUnmarshalBase64_key requestKey with
      | Panic m => Panic m
      | Err _ => Err (EJrpc InvalidParams ("cannot unmarshal key value " +:+ requestKey +:+ " at index " +:+ pretty i))
      | Ok ledgerKey =>
          if key_Type_Ttl ledgerKey then Err (EJrpc InvalidParams ErrLedgerTTLEntriesCannotBeQueriedDirectly)
          else ledgerKeys ← decode_keys (i + 1) requestKeys; Ok (ledgerKey :: ledgerKeys)
      end
  end.

(** [requestKeyToOrder]: the last position of each key, from position [i] on. *)
Fixpoint request_order (i : Z) (b64RequestKeys : list string) (m : gmap string Z) : gmap string Z :=
  match b64RequestKeys with
  | [] => m
  | key :: b64RequestKeys => request_order (i + 1) b64RequestKeys (<[key := i]> m)
  end.

(** The position of an entry in the request. *)
Definition entry_order (requestKeyToOrder : gmap string Z) (keyEntry : LedgerKeyAndEntry) : Res (Z * LedgerKeyAndEntry) :=
  b64Key ← key_MarshalBase64 (LKE_Key keyEntry);
  match requestKeyToOrder !! b64Key with
  | None => Err (EMsg ("mismatching key in result: " +:+ b64Key))
  | Some order => Ok (order, keyEntry)
  end.

Definition sortKeysAndEntriesAccordingToRequest (b64RequestKeys : list string) (keyEntries : list LedgerKeyAndEntry)
    : Res (list LedgerKeyAndEntry) :=
  ordered ← res_map (entry_order (request_order 0 b64RequestKeys ∅)) keyEntries;
  Ok (sort_Sort ordered).*2.

Definition ledgerKeyEntryToResult (format : string) (keyEntry : LedgerKeyAndEntry) : Res LedgerEntryResult :=
  let key := LKE_Key keyEntry in
  let entry := LKE_Entry keyEntry in
  let lastModified := u32 (entry_LastModifiedLedgerSeq entry) in
  if decide (format = FormatJSON) then
    keyJs ← ConvertInterface "LedgerKey" (key_MarshalBinary key);
    entryJs ← ConvertInterface "LedgerEntryData" (entry_Data_MarshalBinary entry);
    extJs ← ConvertInterface "LedgerEntryExt" (entry_Ext_MarshalBinary entry);
    Ok (MkLedgerEntryResult "" keyJs "" entryJs "" extJs lastModified (LKE_LiveUntilLedgerSeq keyEntry))
  else
    keyXDR ← res_map_err (EWrap ("could not serialize ledger key " +:+ print_key key)) (key_MarshalBase64 key);
    entryXDR ← res_map_err (EWrap ("could not serialize ledger entry " +:+ print_entry entry)) (entry_Data_MarshalBase64 entry);
    extXDR ← res_map_err (EWrap ("could not serialize ledger entry extension " +:+ print_ext entry)) (entry_Ext_MarshalBase64 entry);
    Ok (MkLedgerEntryResult keyXDR "" entryXDR "" extXDR "" lastModified (LKE_LiveUntilLedgerSeq keyEntry)).

Definition newGetLedgerEntriesHandlerFromGetter (getter : list LedgerKey -> M DB (list LedgerKeyAndEntry * Z))
    (request : GetLedgerEntriesRequest) : M DB GetLedgerEntriesResponse :=
  match IsValidFormat (LE_Format request) with
  | Some e => fail (jrpc_of InvalidParams e)
  | None =>
      if decide (getLedgerEntriesMaxKeys < zlen (LE_Keys request)) then
        fail (EJrpc InvalidParams ("key count (" +:+ pretty (zlen (LE_Keys request)) +:+ ") exceeds maximum supported ("
                                   +:+ pretty getLedgerEntriesMaxKeys +:+ ")"))
      else
        ledgerKeys ← of_res (decode_keys 0 (LE_Keys request));
        '(keyEntries, latestLedger) ← map_err (jrpc_of InternalError) (getter ledgerKeys);
        sorted ← map_err (jrpc_of InternalError)
                   (of_res (sortKeysAndEntriesAccordingToRequest (LE_Keys request) keyEntries));
        results ← map_err (jrpc_of InternalError) (of_res (res_map (ledgerKeyEntryToResult (LE_Format request)) sorted));
        mret (MkGetLedgerEntriesResponse results latestLedger)
  end.

Definition NewGetLedgerEntriesHandler : GetLedgerEntriesRequest -> M DB GetLedgerEntriesResponse :=
  newGetLedgerEntriesHandlerFromGetter (GetLedgerEntries NewLedgerEntryGetter).

End Entries.

Section EntryLemmas.
Context `{X : Sdk} `{P : !RpcProtocol} `{ND : Nondet} `{ES : EntrySdk} `{FC : !FastCoreClient} `{GS : GoSort} `{GL : !GoSortLaws}.

Lemma nodup_fst_eq {A B} (l : list (A * B)) p q : NoDup l.*1 -> p ∈ l -> q ∈ l -> p.1 = q.1 -> p = q.
Proof.
  intros Hn [i Hi]%list_elem_of_lookup_1 [j Hj]%list_elem_of_lookup_1 E.
  assert (i = j) as ->; [|congruence].
  apply (NoDup_lookup _ i j p.1 Hn); rewrite list_lookup_fmap; [by rewrite Hi|by rewrite Hj, E].
Qed.

Lemma strict_sorted_NoDup (l : list Z) : StronglySorted Z.lt l -> NoDup l.
Proof.
  induction 1 as [|a k Hk IH HF]; constructor; [|done].
  rewrite Forall_forall in HF. intros Hin. specialize (HF _ Hin). lia.
Qed.

Lemma sorted_by_fst {A} (l : list (Z * A)) : Sorted Z.le l.*1 <-> Sorted (fun a b => a.1 <= b.1) l.
Proof.
  induction l as [|a l IH]; [done|]. csimpl. split; intros [Hs Hh]%Sorted_inv; constructor; try tauto.
  - destruct l; [done|]. constructor. by apply HdRel_inv in Hh.
  - destruct l; [done|]. csimpl. constructor. by apply HdRel_inv in Hh.
Qed.

Lemma strict_sorted_le (l : list Z) : StronglySorted Z.lt l -> Sorted Z.le l.
Proof. intros Hs%StronglySorted_Sorted. induction Hs as [|a l Hs IH Hh]; constructor; [done|]. destruct Hh; constructor; lia. Qed.

(** A list that is sorted without ties is left as it is. *)
Lemma sort_Sort_sorted {A} (l : list (Z * A)) : StronglySorted Z.lt l.*1 -> sort_Sort l = l.
Proof.
  intros Hs. apply (Sorted_unique_strong (fun a b => a.1 <= b.1)); [..|apply sort_perm].
  - intros x y Hx Hy H1 H2. rewrite (sort_perm A l) in Hx.
    apply (nodup_fst_eq l); [by apply strict_sorted_NoDup|done|done|lia].
  - apply sorted_by_fst, sort_sorted.
  - by apply sorted_by_fst, strict_sorted_le.
Qed.

(** *** What the core answered, as the getter reads it *)

Definition found_entry (p : LedgerKey * CoreEntry) : option (Res LedgerKeyAndEntry) :=
  if decide (CoreE_State p.2 = LedgerEntryStateNotFound) then None
  else Some (
    entry ← res_map_err (EWrap "could not decode ledger entry") (SafeUnmarshalBase64_entry (CoreE_Entry p.2));
    Ok (MkLedgerKeyAndEntry p.1 entry
          (if decide (CoreE_LiveUntil p.2 <> 0 \/ CoreE_State p.2 = LedgerEntryStateArchived)
           then Some (CoreE_LiveUntil p.2) else None))).

Lemma collect_entries_zip keys i entries l :
  zlen entries <= zlen keys - Z.of_nat i ->
  res_map id (omap found_entry (zip (drop i keys) entries)) = Ok l ->
  collect_entries keys (Z.of_nat i) entries = Ok l.
Proof.
  revert i l; induction entries as [|entry entries IH]; intros i l Hlen.
  { rewrite zip_with_nil_r. done. }
  rewrite zlen_cons in Hlen. pose proof (zlen_nonneg entries).
  destruct (keys !! i) as [key|] eqn:Ek.
  2: { apply lookup_ge_None in Ek. unfold zlen in *. lia. }
  rewrite (drop_S _ key) by done. simpl. unfold found_entry at 1. simpl.
  replace (Z.of_nat i + 1) with (Z.of_nat (S i)) by lia.
  case_decide; [apply IH; lia|]. csimpl. unfold mbind, Res_bind, res_map_err.
  destruct (SafeUnmarshalBase64_entry _) as [x| |]; simpl; [|done..].
  rewrite (index_lookup _ _ _ Ek).
  destruct (res_map id _) as [l'| |] eqn:E; [|done..]. intros [= <-]. by rewrite (IH (S i) l') by (done || lia).
Qed.

(** The order of the keys of a request without duplicates is their position. *)
Lemma request_order_lookup ks i m s :
  NoDup ks -> request_order i ks m !! s =
    match list_find (eq s) ks with Some (k, _) => Some (i + Z.of_nat k) | None => m !! s end.
Proof.
  revert i m; induction ks as [|k ks IH]; intros i m Hn; [done|]. apply NoDup_cons in Hn as [Hni Hn].
  simpl. rewrite IH by done. case_decide as E.
  - subst. destruct (list_find (eq k) ks) as [[j x]|] eqn:E.
    + apply list_find_Some in E as (Hj&->&_). exfalso. apply Hni. by eapply list_elem_of_lookup_2.
    + rewrite lookup_insert_eq. f_equal. lia.
  - destruct (list_find (eq s) ks) as [[j x]|] eqn:E'; simpl; [f_equal; lia|]. by rewrite lookup_insert_ne.
Qed.

(** A key of a request, decoded: its encoding is the one the SDK produces. *)
Definition canonical_key (s : string) (key : LedgerKey) : Prop :=
  SafeUnmarshalBase64_key s = Ok key /\ key_MarshalBase64 key = Ok s /\ key_Type_Ttl key = false.

Lemma decode_keys_ok i ks keys : Forall2 canonical_key ks keys -> decode_keys i ks = Ok keys.
Proof.
  intros Hk. revert i. induction Hk as [|s key ks keys (Hu&_&Ht) Hk IH]; intros i; [done|].
  simpl. rewrite Hu, Ht. by rewrite IH.
Qed.

Lemma canonical_position ks keys i key :
  NoDup ks -> Forall2 canonical_key ks keys -> keys !! i = Some key ->
  forall entry ttl, entry_order (request_order 0 ks ∅) (MkLedgerKeyAndEntry key entry ttl)
    = Ok (Z.of_nat i, MkLedgerKeyAndEntry key entry ttl).
Proof.
  intros Hn Hk Hi entry ttl. destruct (Forall2_lookup_r _ _ _ _ _ Hk Hi) as (s&Hs&_&Hm&_).
  unfold entry_order, mbind, Res_bind. simpl. rewrite Hm, request_order_lookup by done.
  assert (list_find (eq s) ks = Some (i, s)) as ->; [|done].
  apply list_find_Some. split_and!; [done..|]. intros j y Hj Hlt <-.
  assert (i = j) by (by eapply NoDup_lookup). lia.
Qed.

(** The entries found keep the order of the keys. *)
Lemma found_in_order ks keys i entries found :
  NoDup ks -> Forall2 canonical_key ks keys ->
  res_map id (omap found_entry (zip (drop i keys) entries)) = Ok found ->
  exists ordered, res_map (entry_order (request_order 0 ks ∅)) found = Ok ordered /\ ordered.*2 = found /\
    StronglySorted Z.lt ordered.*1 /\ (forall n, n ∈ ordered.*1 -> Z.of_nat i <= n) /\
    (LKE_Key <$> found) `sublist_of` drop i keys.
Proof.
  intros Hn Hk. revert i found. induction entries as [|entry entries IH]; intros i found.
  { rewrite zip_with_nil_r. intros [= <-]. exists []. split_and!; [done|done|constructor| |apply sublist_nil_l].
    intros n Hin. by apply elem_of_nil in Hin. }
  destruct (keys !! i) as [key|] eqn:Ek.
  2: { apply lookup_ge_None in Ek. rewrite drop_ge by done. intros [= <-]. exists [].
       split_and!; [done|done|constructor| |done]. intros n Hin. by apply elem_of_nil in Hin. }
  rewrite (drop_S _ key) by done. simpl. unfold found_entry at 1. simpl. case_decide.
  { intros Hf. destruct (IH (S i) found Hf) as (o&?&?&?&Hle&?). exists o. split_and!; try done.
    - intros n Hin. specialize (Hle _ Hin). lia.
    - by apply sublist_cons. }
  csimpl. unfold mbind at 1, Res_bind at 1, res_map_err, mbind at 1, Res_bind at 1. unfold mbind at 1, Res_bind at 1.
  destruct (SafeUnmarshalBase64_entry _) as [x| |]; simpl; [|done..].
  destruct (res_map id _) as [l| |] eqn:E; [|done..]. intros [= <-].
  destruct (IH (S i) l E) as (o&Ho&Ho2&Hs&Hle&Hsub). csimpl.
  set (ttl := if decide _ then _ else _).
  rewrite (canonical_position ks keys i key Hn Hk Ek). simpl. unfold mbind, Res_bind. rewrite Ho.
  eexists. split; [reflexivity|]. csimpl. split_and!.
  - by rewrite Ho2.
  - constructor; [done|]. apply Forall_forall. intros n Hin. specialize (Hle _ Hin). lia.
  - intros n [->|Hin]%elem_of_cons; [lia|]. specialize (Hle _ Hin). lia.
  - by apply sublist_skip.
Qed.

Lemma result_key_xdr format entry result :
  format <> FormatJSON -> ledgerKeyEntryToResult format entry = Ok result ->
  key_MarshalBase64 (LKE_Key entry) = Ok (LER_KeyXDR result).
Proof.
  intros Hf. unfold ledgerKeyEntryToResult. rewrite decide_False by done. unfold mbind, Res_bind, res_map_err.
  repeat case_match; intros; simplify_eq; done.
Qed.

Lemma GetLedgerEntries_at c keys seq entries found d d' :
  (atLedger c = 0 -> getLatestLedgerSequence d = (Ok seq, d')) -> (atLedger c <> 0 -> seq = atLedger c /\ d' = d) ->
  core_GetLedgerEntries seq keys = Ok entries -> zlen entries <= zlen keys ->
  res_map id (omap found_entry (zip keys entries)) = Ok found ->
  GetLedgerEntries c keys d = (Ok (found, seq), d').
Proof.
  intros H0 H1 Hcore Hlen Hfound.
  assert (collect_entries keys 0 entries = Ok found) as Hc.
  { apply (collect_entries_zip keys 0); [lia|done]. }
  unfold GetLedgerEntries, mbind, M_bind. case_decide as Ha.
  - unfold map_err at 1. rewrite (H0 Ha). unfold map_err, of_res. by rewrite Hcore, Hc.
  - destruct (H1 Ha) as [-> ->]. unfold mret at 1, M_ret at 1, map_err, of_res. by rewrite Hcore, Hc.
Qed.

(** The entries rendered in the default format carry their keys. *)
Lemma rendered_keys ks keys format found results :
  format <> FormatJSON -> Forall2 canonical_key ks keys -> (LKE_Key <$> found) `sublist_of` keys ->
  res_map (ledgerKeyEntryToResult format) found = Ok results -> (LER_KeyXDR <$> results) `sublist_of` ks.
Proof.
  intros Hf Hk. revert found results. induction Hk as [|s key ks keys (_&Hm&_) Hk IH]; intros found results Hsub Hr.
  { apply sublist_nil_r in Hsub. destruct found; [|done]. by injection Hr as <-. }
  apply sublist_cons_r in Hsub as [Hsub|(l&El&Hsub)]; [by apply sublist_cons; eapply IH|].
  destruct found as [|entry found]; [done|]. injection El as Ek El. csimpl in Hr.
  unfold mbind, Res_bind in Hr. destruct (ledgerKeyEntryToResult format entry) as [r| |] eqn:E; [|done..].
  destruct (res_map _ found) as [rs| |] eqn:Er; [|done..]. injection Hr as <-. csimpl.
  apply result_key_xdr in E; [|done]. rewrite Ek, Hm in E. injection E as <-.
  apply sublist_skip. eapply IH; [|done]. by subst l.
Qed.

(** C26: getLedgerEntries answers, in the order of the request whatever order
    the sort leaves equal elements in, with exactly the entries that stellar-core
    found for its keys at the latest stored ledger: the keys that were not found
    are left out, an entry is rendered with its own key and a live-until ledger
    when the core gave one or archived it, and the ledger asked about is the one
    reported.  In the default format the keys of the answer are, in order, keys
    of the request. *)
Theorem getLedgerEntries_answers request d hi keys entries found :
  cache_ok d -> s_faults (d_sess d) = [] -> newest (d_tab d) hi ->
  IsValidFormat (LE_Format request) = None -> zlen (LE_Keys request) <= getLedgerEntriesMaxKeys ->
  NoDup (LE_Keys request) -> Forall2 canonical_key (LE_Keys request) keys ->
  core_GetLedgerEntries (Sequence hi) keys = Ok entries -> zlen entries <= zlen keys ->
  res_map id (omap found_entry (zip keys entries)) = Ok found ->
  fst (NewGetLedgerEntriesHandler request d) =
    match res_map (ledgerKeyEntryToResult (LE_Format request)) found with
    | Ok results => Ok (MkGetLedgerEntriesResponse results (Sequence hi))
    | Err e => Err (jrpc_of InternalError e)
    | Panic m => Panic m
    end /\
  (LKE_Key <$> found) `sublist_of` keys /\
  (forall results, LE_Format request <> FormatJSON ->
     res_map (ledgerKeyEntryToResult (LE_Format request)) found = Ok results ->
     (LER_KeyXDR <$> results) `sublist_of` LE_Keys request).
Proof.
  intros Hok Hf Hn Hfmt Hmax Hnd Hk Hcore Hlen Hfound.
  destruct (getLatestLedgerSequence_newest d hi Hok Hf Hn) as (d'&Hseq&_).
  destruct (found_in_order (LE_Keys request) keys 0 entries found) as (o&Ho&Ho2&Hs&_&Hsub); [done|done|done|].
  split_and!; [| done |].
  - unfold NewGetLedgerEntriesHandler, newGetLedgerEntriesHandlerFromGetter. rewrite Hfmt, decide_False by lia.
    unfold mbind, M_bind. unfold of_res at 1. rewrite (decode_keys_ok _ _ keys Hk). unfold map_err at 1.
    rewrite (GetLedgerEntries_at _ _ (Sequence hi) entries found d d') by first [done|by intros []].
    assert (sortKeysAndEntriesAccordingToRequest (LE_Keys request) found = Ok found) as Hsort.
    { unfold sortKeysAndEntriesAccordingToRequest, mbind, Res_bind. rewrite Ho. f_equal.
      rewrite sort_Sort_sorted by done. exact Ho2. }
    unfold map_err, of_res. rewrite Hsort.
    by destruct (res_map (ledgerKeyEntryToResult (LE_Format request)) found).
  - intros results Hnj. by eapply rendered_keys.
Qed.

End EntryLemmas.

Section Witnesses.

#[local] Opaque bits.

(** Keys and entries are strings that encode themselves. *)
#[global] Instance ex_entry_sdk : EntrySdk := {|
  LedgerKey := string;
  LedgerEntry := string;
  key_Type_Ttl := fun k => bool_decide (k = "ttl");
  SafeUnmarshalBase64_key := fun s => if decide (s = "") then Err (EExt "EOF") else Ok s;
  key_MarshalBase64 := fun k => Ok k;
  key_MarshalBinary := fun k => Ok k;
  SafeUnmarshalBase64_entry := fun s => Ok s;
  entry_Data_MarshalBase64 := fun e => Ok e;
  entry_Data_MarshalBinary := fun e => Ok e;
  entry_Ext_MarshalBase64 := fun _ => Ok "AAAAAA==";
  entry_Ext_MarshalBinary := fun _ => Ok "";
  entry_LastModifiedLedgerSeq := fun _ => 2;
  print_key := fun k => k;
  print_entry := fun e => e;
  print_ext := fun _ => "";
  LedgerEntryStateNotFound := "not-found";
  LedgerEntryStateArchived := "archived";
|}.

(** A core that knows two keys, one of them archived. *)
#[global] Instance ex_fast_client : FastCoreClient := {|
  core_GetLedgerEntries := fun _ keys => Ok ((fun k =>
    if decide (k = "a") then MkCoreEntry "live" "entry a" 9
    else if decide (k = "c") then MkCoreEntry "archived" "entry c" 0
    else MkCoreEntry "not-found" "" 0) <$> keys);
|}.

Definition le_key {A} (a b : Z * A) : Prop := a.1 <= b.1.
#[global] Instance le_key_dec {A} (a b : Z * A) : Decision (le_key a b).
Proof. unfold le_key. apply _. Defined.
#[global] Instance le_key_total {A} : Total (@le_key A).
Proof. intros a b. unfold le_key. lia. Qed.

#[global] Instance ex_sort : GoSort := {| sort_Sort := fun A l => merge_sort le_key l |}.

#[global] Instance ex_sort_laws : GoSortLaws.
Proof.
  split.
  - intros A l. apply merge_sort_Permutation.
  - intros A l. apply sorted_by_fst. apply (Sorted_merge_sort le_key).
Qed.

Lemma getLedgerEntries_answers_witness :
  let request := MkGetLedgerEntriesRequest ["c"; "b"; "a"] "" in
  let found := [MkLedgerKeyAndEntry "c" "entry c" (Some 0); MkLedgerKeyAndEntry "a" "entry a" (Some 9)] in
  fst (NewGetLedgerEntriesHandler (P := ex_protocol) request ex_db) =
    match res_map (ledgerKeyEntryToResult (P := ex_protocol) "") found with
    | Ok results => Ok (MkGetLedgerEntriesResponse results 3)
    | Err e => Err (jrpc_of InternalError e)
    | Panic m => Panic m
    end /\
  (LKE_Key <$> found) `sublist_of` ["c"; "b"; "a"] /\
  (forall results, "" <> FormatJSON (RpcProtocol := ex_protocol) ->
     res_map (ledgerKeyEntryToResult (P := ex_protocol) "") found = Ok results ->
     (LER_KeyXDR <$> results) `sublist_of` ["c"; "b"; "a"]).
Proof.
  refine (getLedgerEntries_answers (P := ex_protocol) (MkGetLedgerEntriesRequest ["c"; "b"; "a"] "") ex_db
    (MkLedgerInfo 3 15) ["c"; "b"; "a"]
    [MkCoreEntry "archived" "entry c" 0; MkCoreEntry "not-found" "" 0; MkCoreEntry "live" "entry a" 9]
    [MkLedgerKeyAndEntry "c" "entry c" (Some 0); MkLedgerKeyAndEntry "a" "entry a" (Some 9)] _ _ _ _ _ _ _ _ _ _).
  - apply ex_cache_ok.
  - reflexivity.
  - apply ex_cache_ok. done.
  - reflexivity.
  - vm_compute. done.
  - apply (bool_decide_unpack _). by vm_compute.
  - repeat constructor.
  - reflexivity.
  - vm_compute. done.
  - reflexivity.
Defined.

(** The answer, evaluated. *)
Example getLedgerEntries_found :
  fst (NewGetLedgerEntriesHandler (P := ex_protocol) (MkGetLedgerEntriesRequest ["c"; "b"; "a"] "") ex_db) =
  Ok (MkGetLedgerEntriesResponse
        [MkLedgerEntryResult "c" "" "entry c" "" "AAAAAA==" "" 2 (Some 0);
         MkLedgerEntryResult "a" "" "entry a" "" "AAAAAA==" "" 2 (Some 9)] 3).
Proof. vm_compute. reflexivity. Qed.

Example getLedgerEntries_ttl :
  fst (NewGetLedgerEntriesHandler (P := ex_protocol) (MkGetLedgerEntriesRequest ["a"; "ttl"] "") ex_db) =
  Err (EJrpc InvalidParams ErrLedgerTTLEntriesCannotBeQueriedDirectly).
Proof. reflexivity. Qed.

End Witnesses.
