(* ===== verification/SimulateTransactionMethod.v ===== *)
(** * The simulateTransaction handler (internal/methods/simulate_transaction.go)

    It decodes a transaction of one Soroban operation, settles the
    authorization mode, takes every ledger parameter from the newest stored
    ledger, asks for a preflight and renders its result.  The preflight itself
    (PreflightPool.v and the Rust host behind it) is the parameter
    [getter]. *)

From S2P Require Import Prelude GoStd Sdk SdkExample LedgerBucketWindow Tables DbTransaction DbLedger Db Protocol ProtocolExample MethodJson GetTransactionsMethod Handlers LedgerEntries.

(** ** The parts of the SDK *)

(** [xdr.EnvelopeType] *)
Inductive EnvelopeType := EnvelopeTypeTx | EnvelopeTypeTxFeeBump | OtherEnvelope (n : Z).

Class SimulateSdk `{X : Sdk} `{CP : !CoreProtocol} `{ES : EntrySdk} := {
  XTransaction : Type; (* xdr.Transaction *)
  Operation : Type;
  OperationBody : Type;
  AccountId : Type;
  SorobanTransactionData : Type;
  LedgerFootprint : Type;
  ResourceConfig : Type;
  emptyFootprint : LedgerFootprint; (* xdr.LedgerFootprint{} *)
  soroban_Footprint : SorobanTransactionData -> LedgerFootprint;
  env_Type : TransactionEnvelope -> EnvelopeType;
  env_V1 : TransactionEnvelope -> option XTransaction;
  env_FeeBump : TransactionEnvelope -> option (EnvelopeType * option XTransaction);
  env_Operations : TransactionEnvelope -> list Operation;
  env_Memo_None : TransactionEnvelope -> bool;
  env_SourceAccount : TransactionEnvelope -> AccountId; (* SourceAccount().ToAccountId() *)
  tx_Ext_V : XTransaction -> Z;
  tx_Ext_SorobanData : XTransaction -> option SorobanTransactionData;
  op_SourceAccount : Operation -> option AccountId;
  op_Body : Operation -> OperationBody;
  body_Type : OperationBody -> OperationType;
  body_Auth : OperationBody -> Res Z; (* len(MustInvokeHostFunctionOp().Auth) *)
  OperationType_String : OperationType -> string;
  entry_SafeUnmarshal : string -> Res LedgerEntry;
  entry_LedgerKey : LedgerEntry -> Res LedgerKey;
  DefaultResourceConfig : ResourceConfig;
  AuthModeEnforce : string;
  AuthModeRecord : string;
  AuthModeRecordAllowNonroot : string;
}.

(** [preflight.XDRDiff] and [preflight.Preflight] *)
Record XDRDiff := MkXDRDiff { Before : string; After : string }.

Record Preflight := MkPreflight {
  PF_Error : string;
  PF_Events : list string;
  PF_TransactionData : string;
  PF_MinFee : Z;
  PF_Result : string;
  PF_Auth : list string;
  PF_CPUInstructions : Z;
  PF_MemoryBytes : Z;
  PF_PreRestoreTransactionData : string;
  PF_PreRestoreMinFee : Z;
  PF_LedgerEntryDiff : list XDRDiff;
}.

Section Simulate.
Context `{X : Sdk} `{P : !RpcProtocol} `{ND : Nondet} `{CP : !CoreProtocol} `{ES : EntrySdk} `{FC : !FastCoreClient}.
Context `{SS : !SimulateSdk}.

(** ** Ledger entry changes *)

Inductive LedgerEntryChangeType := Created | Updated | Deleted.

Record LedgerEntryChange := MkLedgerEntryChange {
  LEC_Type : LedgerEntryChangeType;
  LEC_KeyXDR : string;
  LEC_KeyJSON : string;
  LEC_BeforeXDR : option string;
  LEC_BeforeJSON : string;
  LEC_AfterXDR : option string;
  LEC_AfterJSON : string;
}.

Definition present (b : string) : Prop := (0 < String.length b)%nat.
#[global] Instance present_dec b : Decision (present b).
Proof. unfold present. apply _. Defined.

(** [AddLedgerEntryChangeJSON]: the key and the two sides, in JSON. *)
Definition AddLedgerEntryChangeJSON (diff : XDRDiff) (key : LedgerKey) : Res (string * string * string) :=
  keyJSON ← ConvertInterface "LedgerKey" (key_MarshalBinary key);
  before ← (if decide (present (Before diff)) then ConvertBytes "LedgerEntry" (Before diff) else Ok "");
  after ← (if decide (present (After diff)) then ConvertBytes "LedgerEntry" (After diff) else Ok "");
  Ok (keyJSON, before, after).

Definition LedgerEntryChangeFromXDRDiff (diff : XDRDiff) (format : string) : Res LedgerEntryChange :=
  match IsValidFormat format with
  | Some e => Err e
  | None =>
      '(entryXDR, changeType) ←
        (if decide (present (Before diff)) then
           Ok (Before diff, if decide (present (After diff)) then Updated else Deleted)
         else if decide (present (After diff)) then Ok (After diff, Created)
         else Err (ESentinel ErrMissingDiff));
      entry ← entry_SafeUnmarshal entryXDR;
      key ← entry_LedgerKey entry;
      if decide (format = FormatJSON) then
        '(keyJSON, before, after) ← AddLedgerEntryChangeJSON diff key;
        Ok (MkLedgerEntryChange changeType "" keyJSON None before None after)
      else
        keyB64 ← key_MarshalBase64 key;
        let b64 (b : string) := if decide (present b) then Some (base64_EncodeToString b) else None in
        Ok (MkLedgerEntryChange changeType keyB64 "" (b64 (Before diff)) "" (b64 (After diff)) "")
  end.

(** The state changes: a diff without sides is skipped. *)
Fixpoint state_changes (format : string) (diffs : list XDRDiff) : Res (list LedgerEntryChange) :=
  match diffs with
  | [] => Ok []
  | entryDiff :: diffs =>
      match LedgerEntryChangeFromXDRDiff entryDiff format with
      | Ok change => changes ← state_changes format diffs; Ok (change :: changes)
      | Err err => if errors_Is err ErrMissingDiff then state_changes format diffs else Err err
      | Panic m => Panic m
      end
  end.

(** ** The response *)

Record RestorePreamble := MkRestorePreamble {
  RP_TransactionDataXDR : string;
  RP_TransactionDataJSON : string;
  RP_MinResourceFee : Z;
}.

Record SimulateHostFunctionResult := MkSimulateHostFunctionResult {
  SR_ReturnValueXDR : option string;
  SR_ReturnValueJSON : string;
  SR_AuthXDR : option (list string);
  SR_AuthJSON : list string;
}.

Record SimulateTransactionResponse := MkSimulateTransactionResponse {
  SM_Error : string;
  SM_TransactionDataXDR : string;
  SM_TransactionDataJSON : string;
  SM_EventsXDR : list string;
  SM_EventsJSON : list string;
  SM_MinResourceFee : Z;
  SM_Results : list SimulateHostFunctionResult;
  SM_RestorePreamble : option RestorePreamble;
  SM_StateChanges : list LedgerEntryChange;
  SM_LatestLedger : Z;
}.

(** A response that only has an error, and a ledger when it is known. *)
Definition error_only (msg : string) (latestLedger : Z) : SimulateTransactionResponse :=
  MkSimulateTransactionResponse msg "" "" [] [] 0 [] None [] latestLedger.

Definition getRestorePreamble (preflight : Preflight) (format : string) : Res (option RestorePreamble) :=
  if decide (String.length (PF_PreRestoreTransactionData preflight) = 0%nat) then Ok None
  else if decide (format = FormatJSON) then
    txDataJs ← ConvertBytes "SorobanTransactionData" (PF_PreRestoreTransactionData preflight);
    Ok (Some (MkRestorePreamble "" txDataJs (PF_PreRestoreMinFee preflight)))
  else
    Ok (Some (MkRestorePreamble (base64_EncodeToString (PF_PreRestoreTransactionData preflight)) ""
                (PF_PreRestoreMinFee preflight))).

Definition getSimulationResults (preflight : Preflight) (format : string) : Res (list SimulateHostFunctionResult) :=
  if decide (String.length (PF_Result preflight) = 0%nat) then Ok []
  else if decide (format = FormatJSON) then
    rvJs ← ConvertBytes "ScVal" (PF_Result preflight);
    auths ← jsonifySlice "SorobanAuthorizationEntry" (PF_Auth preflight);
    Ok [MkSimulateHostFunctionResult None rvJs None auths]
  else
    Ok [MkSimulateHostFunctionResult (Some (base64_EncodeToString (PF_Result preflight))) ""
          (Some (base64EncodeSlice (PF_Auth preflight))) []].

Definition formatResponse (preflight : Preflight) (format : string) (latestLedger : Z) : Res SimulateTransactionResponse :=
  results ← getSimulationResults preflight format;
  restorePreamble ← getRestorePreamble preflight format;
  stateChanges ← state_changes format (PF_LedgerEntryDiff preflight);
  let response txXDR txJSON evXDR evJSON :=
    MkSimulateTransactionResponse (PF_Error preflight) txXDR txJSON evXDR evJSON (PF_MinFee preflight)
      results restorePreamble stateChanges latestLedger in
  if decide (format = FormatJSON) then
    txJSON ← ConvertBytes "SorobanTransactionData" (PF_TransactionData preflight);
    evJSON ← jsonifySlice "DiagnosticEvent" (PF_Events preflight);
    Ok (response "" txJSON [] evJSON)
  else
    Ok (response (base64_EncodeToString (PF_TransactionData preflight)) "" (base64EncodeSlice (PF_Events preflight)) []).

(** ** The request *)

Record SimulateTransactionRequest := MkSimulateTransactionRequest {
  SQ_Transaction : string;
  SQ_ResourceConfig : option ResourceConfig;
  SQ_AuthMode : string;
  SQ_UseUpgradedAuth : bool;
  SQ_Format : string;
}.

Definition sorobanDataFromTx (tx : XTransaction) : option SorobanTransactionData :=
  if decide (tx_Ext_V tx <> 1) then None else tx_Ext_SorobanData tx.

Definition sorobanDataFromEnvelope (txEnvelope : TransactionEnvelope) : option SorobanTransactionData :=
  match env_Type txEnvelope with
  | EnvelopeTypeTx => match env_V1 txEnvelope with None => None | Some tx => sorobanDataFromTx tx end
  | EnvelopeTypeTxFeeBump =>
      match env_FeeBump txEnvelope with
      | Some (EnvelopeTypeTx, Some tx) => sorobanDataFromTx tx
      | _ => None
      end
  | OtherEnvelope _ => None
  end.

(** [validateAuthMode]: the mode to use, which the Go code writes through its
    reference. *)
Definition validateAuthMode (opBody : OperationBody) (authMode : string) : Res string :=
  if decide (authMode ∉ [""; AuthModeEnforce; AuthModeRecord; AuthModeRecordAllowNonroot]) then
    Err (EMsg ("optional 'authMode' must be one of "
               +:+ AuthModeEnforce +:+ "," +:+ AuthModeRecord +:+ "," +:+ AuthModeRecordAllowNonroot +:+ " when included"))
  else
    match body_Type opBody with
    | InvokeHostFunction =>
        auth ← body_Auth opBody;
        if decide (authMode = "") then
          Ok (if decide (0 < auth) then AuthModeEnforce else AuthModeRecord)
        else if decide (0 < auth /\ authMode ∈ [AuthModeRecord; AuthModeRecordAllowNonroot]) then
          Err (EMsg ("cannot set authMode to '" +:+ authMode +:+ "' with an auth footprint"))
        else Ok authMode
    | ExtendFootprintTtl | RestoreFootprint =>
        if decide (authMode <> "") then Err (EMsg "cannot set authMode with non-InvokeHostFunction operations")
        else Ok authMode
    | OtherOperation _ =>
        Err (EMsg ("transaction contains unsupported operation type: " +:+ OperationType_String (body_Type opBody)))
    end.

(** ** The ledger parameters *)

Record latestLedgerPreflightInfo := MkLatestLedgerPreflightInfo {
  bucketListSize : Z;
  protocolVersion : Z;
  closeTime : Z;
}.

Definition arm_info (arm : option LedgerCloseMetaArm) : Res latestLedgerPreflightInfo :=
  match arm with
  | None => Panic "nil pointer dereference"
  | Some a => Ok (MkLatestLedgerPreflightInfo (u64 (Arm_TotalByteSizeOfLiveSorobanState a))
                    (u32 (Arm_LedgerVersion a)) (u64 (Arm_CloseTime a)))
  end.

Definition getLatestLedgerPreflightInfo (latestLedger : Z) : M DB latestLedgerPreflightInfo :=
  found ← on_session (getLedgerFromDB latestLedger);
  match found with
  | None => fail (EMsg ("missing meta for latest ledger (" +:+ pretty latestLedger +:+ ")"))
  | Some closeMeta =>
      if decide (lcm_V closeMeta = 1) then of_res (arm_info (lcm_V1 closeMeta))
      else if decide (lcm_V closeMeta = 2) then of_res (arm_info (lcm_V2 closeMeta))
      else fail (EMsg ("latest ledger (" +:+ pretty latestLedger +:+ ") meta has unexpected version ("
                       +:+ pretty (lcm_V closeMeta) +:+ ")"))
  end.

(** [preflight.GetterParameters] *)
Record GetterParameters := MkGetterParameters {
  GP_BucketListSize : Z;
  GP_SourceAccount : AccountId;
  GP_OperationBody : OperationBody;
  GP_Footprint : LedgerFootprint;
  GP_ResourceConfig : ResourceConfig;
  GP_AuthMode : string;
  GP_UseUpgradedAuth : bool;
  GP_ProtocolVersion : Z;
  GP_LedgerEntryGetter : coreLedgerEntryGetter;
  GP_LedgerSeq : Z;
  GP_LedgerTime : Z;
}.

(** [PreflightGetter], the interface to the preflight pool, with a state of its own *)
Context {S : Type} (getter : GetterParameters -> M S Preflight).

(** ** The handler *)

(** The footprint of the request; only the operations on footprints have one. *)
Definition request_footprint (txEnvelope : TransactionEnvelope) (type : OperationType) : Res LedgerFootprint :=
  match type with
  | InvokeHostFunction => Ok emptyFootprint
  | ExtendFootprintTtl | RestoreFootprint =>
      match sorobanDataFromEnvelope txEnvelope with
      | None => Err (EMsg ("To perform a SimulateTransaction for ExtendFootprintTtl or RestoreFootprint operations,"
                           +:+ " SorobanTransactionData must be provided"))
      | Some sorobanData => Ok (soroban_Footprint sorobanData)
      end
  | OtherOperation _ => Err (EMsg ("Transaction contains unsupported operation type: " +:+ OperationType_String type))
  end.

(** What the handler takes from the request before it reads the store: the
    operation, its source, its footprint and its authorization mode, or the
    error to answer. *)
Definition parse_request (request : SimulateTransactionRequest) : Res (Operation * AccountId * LedgerFootprint * string) :=
  match IsValidFormat (SQ_Format request) with
  | Some e => Err e
  | None =>
      txEnvelope ← res_map_err (fun _ => EMsg "Could not unmarshal transaction")
                     (SafeUnmarshalBase64_envelope (SQ_Transaction request));
      match env_Operations txEnvelope with
      | [op] =>
          if env_Memo_None txEnvelope then
            authMode ← validateAuthMode (op_Body op) (SQ_AuthMode request);
            let sourceAccount := match op_SourceAccount op with Some a => a | None => env_SourceAccount txEnvelope end in
            footprint ← request_footprint txEnvelope (body_Type (op_Body op));
            Ok (op, sourceAccount, footprint, authMode)
          else Err (EMsg "Transaction contains a memo. Soroban transactions do not support memos.")
      | _ => Err (EMsg "Transaction contains more than one operation")
      end
  end.

Definition preflight_params (request : SimulateTransactionRequest) (op : Operation) (sourceAccount : AccountId)
    (footprint : LedgerFootprint) (authMode : string) (latestLedger : Z) (ledgerInfo : latestLedgerPreflightInfo)
    : GetterParameters :=
  {| GP_BucketListSize := bucketListSize ledgerInfo;
     GP_SourceAccount := sourceAccount;
     GP_OperationBody := op_Body op;
     GP_Footprint := footprint;
     GP_ResourceConfig := default DefaultResourceConfig (SQ_ResourceConfig request);
     GP_AuthMode := authMode;
     GP_UseUpgradedAuth := SQ_UseUpgradedAuth request;
     GP_ProtocolVersion := protocolVersion ledgerInfo;
     GP_LedgerEntryGetter := NewLedgerEntryAtGetter latestLedger;
     GP_LedgerSeq := latestLedger;
     GP_LedgerTime := closeTime ledgerInfo |}.

(** Errors are answers: the handler itself does not return any. *)
Definition NewSimulateTransactionHandler (request : SimulateTransactionRequest)
    : M (DB * S) SimulateTransactionResponse :=
  parsed ← attempt (of_res (parse_request request));
  match parsed with
  | inr err => mret (error_only (error_message err) 0)
  | inl (op, sourceAccount, footprint, authMode) =>
      r ← attempt (zoom1 getLatestLedgerSequence);
      match r with
      | inr err => mret (error_only (error_message err) 0)
      | inl latestLedger =>
          r ← attempt (ledgerInfo ← zoom1 (getLatestLedgerPreflightInfo latestLedger);
                       result ← zoom2 (getter (preflight_params request op sourceAccount footprint authMode latestLedger ledgerInfo));
                       of_res (formatResponse result (SQ_Format request) latestLedger));
          match r with
          | inr err => mret (error_only (error_message err) latestLedger)
          | inl simResp => mret simResp
          end
      end
  end.

End Simulate.

(** The decoders return their failures, which are not the sentinel of this
    package; a decoded union has the arm its type names, and the authorization
    modes are different strings. *)
Class SimulateLaws `{SS : SimulateSdk} := {
  sim_envelope_no_panic : forall tx, no_panic (SafeUnmarshalBase64_envelope tx);
  sim_auth : forall body, body_Type body = InvokeHostFunction -> exists n, body_Auth body = Ok n;
  sim_unmarshal_foreign : forall b e, entry_SafeUnmarshal b = Err e -> errors_Is e ErrMissingDiff = false;
  sim_key_foreign : forall entry e, entry_LedgerKey entry = Err e -> errors_Is e ErrMissingDiff = false;
  sim_base64_foreign : forall key e, key_MarshalBase64 key = Err e -> errors_Is e ErrMissingDiff = false;
  sim_binary_foreign : forall key e, key_MarshalBinary key = Err e -> errors_Is e ErrMissingDiff = false;
  auth_modes : NoDup [""; AuthModeEnforce; AuthModeRecord; AuthModeRecordAllowNonroot];
}.

Section SimulateLemmas.
Context `{X : Sdk} `{P : !RpcProtocol} `{ND : Nondet} `{CP : !CoreProtocol} `{ES : EntrySdk} `{FC : !FastCoreClient}.
Context `{SS : !SimulateSdk} `{SL : !SimulateLaws}.

(** ** The specification of the request *)

(** The authorization mode to use when [asked] is requested: enforcement if the
    operation carries authorizations and recording otherwise, unless a mode is
    named, which can only be enforcement when there are authorizations. *)
Definition auth_mode_for (body : OperationBody) (asked mode : string) : Prop :=
  match body_Type body with
  | InvokeHostFunction =>
      exists n, body_Auth body = Ok n /\
        ((asked = "" /\ mode = if decide (0 < n) then AuthModeEnforce else AuthModeRecord) \/
         (asked ∈ [AuthModeEnforce; AuthModeRecord; AuthModeRecordAllowNonroot] /\ mode = asked /\
          (0 < n -> asked = AuthModeEnforce)))
  | ExtendFootprintTtl | RestoreFootprint => asked = "" /\ mode = ""
  | OtherOperation _ => False
  end.

Lemma validateAuthMode_spec body asked mode :
  validateAuthMode body asked = Ok mode <-> auth_mode_for body asked mode.
Proof.
  pose proof auth_modes as Hn. rewrite !NoDup_cons, !not_elem_of_cons in Hn.
  unfold validateAuthMode, auth_mode_for.
  destruct (decide (asked ∉ _)) as [Hni|Hin].
  - split; [done|]. rewrite !not_elem_of_cons in Hni. destruct (body_Type body); try tauto.
    intros (n&_&[[-> _]|[Hin _]]); [tauto|]. rewrite !elem_of_cons in Hin. tauto.
  - apply dec_stable in Hin. destruct (body_Type body) eqn:Eb; [| | |done].
    2, 3: destruct (decide (asked <> "")) as [Hne|He%dec_stable];
      [split; [done|by intros [? _]]|split; [by intros [= <-]|by intros [-> ->]]].
    destruct (sim_auth body Eb) as [n Ha]. rewrite Ha. unfold mbind, Res_bind. simpl.
    destruct (decide (asked = "")) as [->|Hne].
    + split; [intros [= <-]; eauto|]. intros (n'&[= <-]&[[_ ->]|[Hin' _]]); [done|].
      rewrite !elem_of_cons in Hin'. intuition congruence.
    + destruct (decide (0 < n /\ _)) as [[Hp Hr]|Hr].
      * split; [done|]. intros (n'&[= <-]&[[-> _]|(_&_&He)]); [done|]. specialize (He Hp). subst asked.
        rewrite !elem_of_cons in Hr. intuition congruence.
      * split.
        -- intros [= <-]. exists n. split; [done|]. right. rewrite !elem_of_cons in *. 
           split_and!; [intuition congruence|done|]. intros Hp.
           destruct Hin as [?|[?|[->|[->|?%elem_of_nil]]]]; try done; destruct Hr; (split; [done|]); set_solver.
        -- intros (n'&[= <-]&[[-> _]|(_&->&_)]); done.
Qed.

(** The footprint a preflight starts from. *)
Definition footprint_for (txEnvelope : TransactionEnvelope) (body : OperationBody) (fp : LedgerFootprint) : Prop :=
  match body_Type body with
  | InvokeHostFunction => fp = emptyFootprint
  | ExtendFootprintTtl | RestoreFootprint =>
      exists data, sorobanDataFromEnvelope txEnvelope = Some data /\ fp = soroban_Footprint data
  | OtherOperation _ => False
  end.

Lemma request_footprint_spec env body fp :
  request_footprint env (body_Type body) = Ok fp <-> footprint_for env body fp.
Proof.
  unfold request_footprint, footprint_for. destruct (body_Type body); [|destruct (sorobanDataFromEnvelope env)..|]; naive_solver.
Qed.

(** A request that can be simulated, and what is taken from it. *)
Definition simulatable (request : SimulateTransactionRequest) (op : Operation) (src : AccountId) (fp : LedgerFootprint)
    (mode : string) : Prop :=
  IsValidFormat (SQ_Format request) = None /\
  exists txEnvelope, SafeUnmarshalBase64_envelope (SQ_Transaction request) = Ok txEnvelope /\
    env_Operations txEnvelope = [op] /\ env_Memo_None txEnvelope = true /\
    auth_mode_for (op_Body op) (SQ_AuthMode request) mode /\ footprint_for txEnvelope (op_Body op) fp /\
    src = default (env_SourceAccount txEnvelope) (op_SourceAccount op).

Lemma parse_request_ok request op src fp mode :
  parse_request request = Ok (op, src, fp, mode) <-> simulatable request op src fp mode.
Proof.
  unfold parse_request, simulatable, res_map_err, mbind, Res_bind.
  destruct (IsValidFormat _); [split; [done|by intros [? _]]|].
  destruct (SafeUnmarshalBase64_envelope _) as [env| |] eqn:Eu;
    [|split; [done|by intros (_&?&?&_)]..].
  destruct (env_Operations env) as [|op' [|]] eqn:Eo;
    [split; [done|by intros (_&?&[= <-]&?&_); congruence]| |split; [done|intros (_&?&[= <-]&?&_); congruence]].
  destruct (env_Memo_None env) eqn:Em; [|split; [done|intros (_&?&[= <-]&_&?&_); congruence]].
  destruct (validateAuthMode _ _) as [m| |] eqn:Ea.
  2, 3: split; [done|]; intros (_&?&[= <-]&?&_&Hm%validateAuthMode_spec&_); congruence.
  destruct (request_footprint _ _) as [fp'| |] eqn:Ef.
  2, 3: split; [done|]; intros (_&?&[= <-]&?&_&_&Hf%request_footprint_spec&_); congruence.
  apply validateAuthMode_spec in Ea. apply request_footprint_spec in Ef. split.
  - intros [= <- <- <- <-]. split; [done|]. exists env. by split_and!.
  - intros (_&?&[= <-]&Ho&_&Hm%validateAuthMode_spec&Hf%request_footprint_spec&->).
    apply validateAuthMode_spec in Ea. apply request_footprint_spec in Ef. rewrite Eo in Ho. simplify_eq.
    rewrite Ea in Hm. rewrite Ef in Hf. simplify_eq. by destruct (op_SourceAccount op).
Qed.

Lemma parse_request_fails request : (forall op src fp mode, ~ simulatable request op src fp mode) ->
  exists e, parse_request request = Err e.
Proof.
  intros Hn. destruct (parse_request request) as [[[[op src] fp] mode]|e|m] eqn:E; [|by exists e|].
  - exfalso. by apply parse_request_ok, Hn in E.
  - exfalso. revert E. unfold parse_request, res_map_err, mbind, Res_bind. clear Hn.
    destruct (IsValidFormat _); [done|].
    destruct (SafeUnmarshalBase64_envelope _) as [env| |m'] eqn:Eu; [|done|by destruct (sim_envelope_no_panic _ _ Eu)].
    destruct (env_Operations env) as [|op' [|]]; try done. destruct (env_Memo_None env); [|done].
    unfold validateAuthMode, request_footprint, mbind, Res_bind. case_decide; [done|].
    destruct (body_Type (op_Body op')) eqn:Eb; [destruct (sim_auth _ Eb) as [n ->]|..|done];
      repeat case_match; done.
Qed.

(** ** The specification of the response *)

Definition has_side (diff : XDRDiff) : Prop := present (Before diff) \/ present (After diff).
#[global] Instance has_side_dec diff : Decision (has_side diff).
Proof. unfold has_side. apply _. Defined.

(** A value in the answer: converted in the JSON format, otherwise in base64. *)
Definition shown (format name bytes xdr json : string) : Prop :=
  if decide (format = FormatJSON) then xdr = "" /\ ConvertBytes name bytes = Ok json
  else xdr = base64_EncodeToString bytes /\ json = "".

Definition all_shown (format name : string) (values xdrs jsons : list string) : Prop :=
  if decide (format = FormatJSON)
  then xdrs = [] /\ Forall2 (fun bytes json => ConvertBytes name bytes = Ok json) values jsons
  else xdrs = base64_EncodeToString <$> values /\ jsons = [].

Definition side_shown (format bytes : string) (xdr : option string) (json : string) : Prop :=
  if decide (present bytes) then
    if decide (format = FormatJSON) then xdr = None /\ ConvertBytes "LedgerEntry" bytes = Ok json
    else xdr = Some (base64_EncodeToString bytes) /\ json = ""
  else xdr = None /\ json = "".

(** The change a diff stands for: its kind by the sides that are present, the key
    of the entry, and the sides. *)
Definition change_for (format : string) (diff : XDRDiff) (change : LedgerEntryChange) : Prop :=
  exists entry key,
    entry_SafeUnmarshal (if decide (present (Before diff)) then Before diff else After diff) = Ok entry /\
    entry_LedgerKey entry = Ok key /\
    LEC_Type change =
      (if decide (present (Before diff)) then if decide (present (After diff)) then Updated else Deleted else Created) /\
    (if decide (format = FormatJSON)
     then LEC_KeyXDR change = "" /\ ConvertInterface "LedgerKey" (key_MarshalBinary key) = Ok (LEC_KeyJSON change)
     else key_MarshalBase64 key = Ok (LEC_KeyXDR change) /\ LEC_KeyJSON change = "") /\
    side_shown format (Before diff) (LEC_BeforeXDR change) (LEC_BeforeJSON change) /\
    side_shown format (After diff) (LEC_AfterXDR change) (LEC_AfterJSON change).

(** The result of the operation and its authorizations, if it has one *)
Definition results_shown (format : string) (pf : Preflight) (results : list SimulateHostFunctionResult) : Prop :=
  if decide (present (PF_Result pf)) then
    exists r, results = [r] /\
      if decide (format = FormatJSON) then
        SR_ReturnValueXDR r = None /\ ConvertBytes "ScVal" (PF_Result pf) = Ok (SR_ReturnValueJSON r) /\
        SR_AuthXDR r = None /\
        Forall2 (fun bytes json => ConvertBytes "SorobanAuthorizationEntry" bytes = Ok json) (PF_Auth pf) (SR_AuthJSON r)
      else
        SR_ReturnValueXDR r = Some (base64_EncodeToString (PF_Result pf)) /\ SR_ReturnValueJSON r = "" /\
        SR_AuthXDR r = Some (base64_EncodeToString <$> PF_Auth pf) /\ SR_AuthJSON r = []
  else results = [].

(** What must be restored first, and its fee *)
Definition preamble_shown (format : string) (pf : Preflight) (preamble : option RestorePreamble) : Prop :=
  if decide (present (PF_PreRestoreTransactionData pf)) then
    exists p, preamble = Some p /\ RP_MinResourceFee p = PF_PreRestoreMinFee pf /\
      shown format "SorobanTransactionData" (PF_PreRestoreTransactionData pf)
        (RP_TransactionDataXDR p) (RP_TransactionDataJSON p)
  else preamble = None.

(** The answer a preflight is rendered as *)
Definition rendered (format : string) (pf : Preflight) (latestLedger : Z) (a : SimulateTransactionResponse) : Prop :=
  SM_Error a = PF_Error pf /\ SM_MinResourceFee a = PF_MinFee pf /\ SM_LatestLedger a = latestLedger /\
  shown format "SorobanTransactionData" (PF_TransactionData pf) (SM_TransactionDataXDR a) (SM_TransactionDataJSON a) /\
  all_shown format "DiagnosticEvent" (PF_Events pf) (SM_EventsXDR a) (SM_EventsJSON a) /\
  results_shown format pf (SM_Results a) /\ preamble_shown format pf (SM_RestorePreamble a) /\
  Forall2 (change_for format) (filter has_side (PF_LedgerEntryDiff pf)) (SM_StateChanges a).

(** A part that has no value: there is no change either. *)
Ltac other_value key :=
  split; [done|]; intros (en&ky&[= <-]&Hk&?&?&?&?);
  assert (ky = key) as -> by congruence; destruct_and?; congruence.

Lemma change_spec format diff change :
  IsValidFormat format = None -> has_side diff ->
  LedgerEntryChangeFromXDRDiff diff format = Ok change <-> change_for format diff change.
Proof.
  intros Hv Hs. unfold LedgerEntryChangeFromXDRDiff, change_for, side_shown, AddLedgerEntryChangeJSON, mbind, Res_bind.
  rewrite Hv. destruct change as [ty kx kj bx bj ax aj]. unfold has_side in Hs. simpl.
  destruct (decide (present (Before diff))) as [Hb|Hb], (decide (present (After diff))) as [Ha|Ha]; [..|tauto];
    (destruct (entry_SafeUnmarshal _) as [entry| |] eqn:Eu; [|split; [done|intros (?&?&?&?&_); congruence]..]);
    (destruct (entry_LedgerKey entry) as [key| |] eqn:Ek; [|split; [done|intros (?&?&?&?&_); congruence]..]);
    destruct (decide (format = FormatJSON)).
  all: try (destruct (ConvertInterface _ _) eqn:Ec; [|other_value key..]).
  all: try (destruct (key_MarshalBase64 key) eqn:Em; [|other_value key..]).
  all: try (destruct (ConvertBytes _ (Before diff)) eqn:E1; [|other_value key..]).
  all: try (destruct (ConvertBytes _ (After diff)) eqn:E2; [|other_value key..]).
  all: (split; [intros [=]; subst; exists entry, key; by split_and!|]); intros (en&ky&[= <-]&Hk&?&?&?&?);
    assert (ky = key) as -> by congruence; destruct_and?; simplify_eq; congruence.
Qed.

Lemma convertAnyBytes_foreign name bytes e : convertAnyBytes name bytes = Err e -> errors_Is e ErrMissingDiff = false.
Proof. unfold convertAnyBytes. destruct (xdr_to_json _ _). case_decide; [by intros [= <-]|done]. Qed.

Lemma ConvertBytes_foreign name bytes e : ConvertBytes name bytes = Err e -> errors_Is e ErrMissingDiff = false.
Proof. unfold ConvertBytes. case_decide; [done|]. apply convertAnyBytes_foreign. Qed.

(** The only diffs that are skipped have no side. *)
Lemma change_missing format diff e :
  IsValidFormat format = None -> has_side diff ->
  LedgerEntryChangeFromXDRDiff diff format = Err e -> errors_Is e ErrMissingDiff = false.
Proof.
  intros Hv Hs. unfold LedgerEntryChangeFromXDRDiff, AddLedgerEntryChangeJSON, mbind, Res_bind. rewrite Hv.
  unfold has_side in Hs.
  assert (forall k, ConvertInterface "LedgerKey" (key_MarshalBinary k) = Err e -> errors_Is e ErrMissingDiff = false) as Hi.
  { intros k. unfold ConvertInterface. destruct (key_MarshalBinary k) as [?|e'|?] eqn:E; [apply convertAnyBytes_foreign| |done].
    intros [= <-]. simpl. by eapply sim_binary_foreign. }
  pose proof (ConvertBytes_foreign "LedgerEntry") as Hb. pose proof sim_unmarshal_foreign as H1.
  pose proof sim_key_foreign as H2. pose proof sim_base64_foreign as H3.
  destruct (decide (present (Before diff))), (decide (present (After diff))); [..|tauto];
    repeat case_match; intros Herr; simplify_eq; eauto.
Qed.

Lemma state_changes_spec format diffs changes :
  IsValidFormat format = None ->
  state_changes format diffs = Ok changes <-> Forall2 (change_for format) (filter has_side diffs) changes.
Proof.
  intros Hv. revert changes; induction diffs as [|diff diffs IH]; intros changes.
  { simpl. rewrite filter_nil. split; [intros [= <-]; constructor|by intros ->%Forall2_nil_inv_l]. }
  rewrite filter_cons. simpl. case_decide as Hs.
  - destruct (LedgerEntryChangeFromXDRDiff diff format) as [change|e|m] eqn:E.
    + unfold mbind, Res_bind. split.
      * destruct (state_changes format diffs) eqn:Es; try done. intros [= <-].
        constructor; [by apply change_spec|by apply IH].
      * intros (c&cs&Hc&Hcs%IH&->)%Forall2_cons_inv_l. apply change_spec in Hc; [|done..]. rewrite Hcs. congruence.
    + rewrite (change_missing _ _ _ Hv Hs E). split; [done|].
      intros (c&cs&Hc&_)%Forall2_cons_inv_l. apply change_spec in Hc; [congruence|done..].
    + split; [done|]. intros (c&cs&Hc&_)%Forall2_cons_inv_l. apply change_spec in Hc; [congruence|done..].
  - assert (LedgerEntryChangeFromXDRDiff diff format = Err (ESentinel ErrMissingDiff)) as ->; [|apply IH].
    unfold LedgerEntryChangeFromXDRDiff. rewrite Hv. unfold has_side in Hs.
    rewrite !decide_False by tauto. done.
Qed.

Lemma length_present (b : string) : String.length b = 0%nat <-> ~ present b.
Proof. unfold present. lia. Qed.

Lemma results_spec format pf results :
  getSimulationResults pf format = Ok results <-> results_shown format pf results.
Proof.
  unfold getSimulationResults, results_shown, mbind, Res_bind.
  destruct (decide (present (PF_Result pf))) as [Hp|Hp].
  - rewrite decide_False by (rewrite length_present; tauto). case_decide.
    + destruct (ConvertBytes _ _) as [rv| |] eqn:Ec; [|split; [done|intros (?&_&_&?&_); congruence]..].
      unfold jsonifySlice. destruct (res_map _ _) as [auths| |] eqn:Em.
      * apply res_map_Forall2 in Em as Em'. split; [intros [= <-]; by eexists|].
        intros ([]&->&?&?&?&Hf%res_map_Forall2). simpl in *. simplify_eq. congruence.
      * split; [done|]. intros ([]&->&?&?&?&Hf%res_map_Forall2). simpl in *. congruence.
      * split; [done|]. intros ([]&->&?&?&?&Hf%res_map_Forall2). simpl in *. congruence.
    + split; [intros [= <-]; by eexists|]. intros ([]&->&?&?&?&?). simpl in *. by subst.
  - rewrite decide_True by (by apply length_present). naive_solver.
Qed.

Lemma preamble_spec format pf preamble :
  getRestorePreamble pf format = Ok preamble <-> preamble_shown format pf preamble.
Proof.
  unfold getRestorePreamble, preamble_shown, shown, mbind, Res_bind.
  destruct (decide (present (PF_PreRestoreTransactionData pf))) as [Hp|Hp].
  - rewrite decide_False by (rewrite length_present; tauto). case_decide.
    + destruct (ConvertBytes _ _) as [j| |] eqn:Ec; [|split; [done|intros (?&_&_&_&?); congruence]..].
      split; [intros [= <-]; by eexists|]. intros ([]&->&?&?&?). simpl in *. by simplify_eq.
    + split; [intros [= <-]; by eexists|]. intros ([]&->&?&?&?). simpl in *. by simplify_eq.
  - rewrite decide_True by (by apply length_present). naive_solver.
Qed.

Lemma formatResponse_spec pf format latestLedger a :
  IsValidFormat format = None ->
  formatResponse pf format latestLedger = Ok a <-> rendered format pf latestLedger a.
Proof.
  intros Hv. unfold formatResponse, rendered. rewrite <- results_spec, <- preamble_spec, <- state_changes_spec by done.
  unfold shown, all_shown, mbind, Res_bind. destruct a as [er tx tj ex ej fee rs pre ch ll]. simpl.
  destruct (getSimulationResults _ _) as [rs'| |]; [|split; [done|naive_solver]..].
  destruct (getRestorePreamble _ _) as [pre'| |]; [|split; [done|naive_solver]..].
  destruct (state_changes _ _) as [ch'| |]; [|split; [done|naive_solver]..].
  case_decide; [|split; [intros [=]; by subst|naive_solver]].
  destruct (ConvertBytes _ _) as [tj'| |]; [|split; [done|naive_solver]..].
  rewrite <- res_map_Forall2. unfold jsonifySlice.
  destruct (res_map _ _) as [ej'| |]; [|split; [done|naive_solver]..].
  split; [intros [=]; by subst|naive_solver].
Qed.

Lemma preflight_info_ok latestLedger b lcm arm d :
  s_faults (d_sess d) = [] -> t_ledgers (d_tab d) !! latestLedger = Some b -> lcm_Unmarshal b = Ok lcm ->
  (lcm_V lcm = 1 /\ lcm_V1 lcm = Some arm) \/ (lcm_V lcm = 2 /\ lcm_V2 lcm = Some arm) ->
  exists d', getLatestLedgerPreflightInfo latestLedger d =
    (Ok (MkLatestLedgerPreflightInfo (u64 (Arm_TotalByteSizeOfLiveSorobanState arm)) (u32 (Arm_LedgerVersion arm))
           (u64 (Arm_CloseTime arm))), d').
Proof.
  intros Hf Hb Hu Hv. exists (set_sess (d_sess d) d). unfold getLatestLedgerPreflightInfo, mbind, M_bind.
  rewrite (on_session_run _ _ _ _ (getLedgerFromDB_ok _ _ _ _ Hf Hb Hu)).
  destruct Hv as [[-> ->]|[-> ->]]; done.
Qed.

Lemma getLatestLedgerSequence_empty d :
  cache_ok d -> s_faults (d_sess d) = [] -> t_ledgers (d_tab d) = ∅ ->
  exists d', getLatestLedgerSequence d = (Err (ESentinel ErrEmptyDB), d').
Proof.
  intros Hok Hf He. pose proof Hok as (_&Hl&_). unfold getLatestLedgerSequence, mbind, M_bind, gets. simpl.
  case_decide as Hd.
  - by pose proof (newest_nonempty _ _ (Hl Hd)).
  - destruct (GetLedgerRange_db d) as [r d1] eqn:E.
    apply GetLedgerRange_db_spec in E as (_&_&_&Hr); [|done]. rewrite Hf in Hr.
    destruct Hr as [(lr&->&_&Hlr)|[[_ ->]|(?&_&?&[=])]]; [by apply newest_nonempty in Hlr|by eexists].
Qed.

(** C27: For a request that can be simulated on a store with a ledger,
    simulateTransaction runs exactly one preflight, whatever the preflight does
    to its own state: its ledger parameters (sequence, close time, protocol
    version and state size) all come from the newest stored ledger, with the
    operation, source, footprint and authorization mode of the request.  It
    answers with the preflight's error, or with its rendering in the requested
    format, JSON or base64, in which the state changes are the diffs with a
    side, in order and typed by the sides they have, or with an error if there is
    no such rendering.  A request that cannot be simulated, or an empty store,
    gets an error and no preflight; no failure becomes an RPC error. *)
Theorem simulateTransaction_answers {S} (getter : GetterParameters -> M S Preflight) request d s :
  cache_ok d -> s_faults (d_sess d) = [] ->
  let run := NewSimulateTransactionHandler getter request (d, s) in
  (forall op src fp mode hi b lcm arm,
     simulatable request op src fp mode -> newest (d_tab d) hi ->
     t_ledgers (d_tab d) !! Sequence hi = Some b -> lcm_Unmarshal b = Ok lcm ->
     (lcm_V lcm = 1 /\ lcm_V1 lcm = Some arm) \/ (lcm_V lcm = 2 /\ lcm_V2 lcm = Some arm) ->
     let '(answer, s') := getter
       {| GP_BucketListSize := u64 (Arm_TotalByteSizeOfLiveSorobanState arm); GP_SourceAccount := src;
          GP_OperationBody := op_Body op; GP_Footprint := fp;
          GP_ResourceConfig := default DefaultResourceConfig (SQ_ResourceConfig request);
          GP_AuthMode := mode; GP_UseUpgradedAuth := SQ_UseUpgradedAuth request;
          GP_ProtocolVersion := u32 (Arm_LedgerVersion arm);
          GP_LedgerEntryGetter := NewLedgerEntryAtGetter (Sequence hi);
          GP_LedgerSeq := Sequence hi; GP_LedgerTime := u64 (Arm_CloseTime arm) |} s in
     run.2.2 = s' /\
     match answer with
     | Err e => run.1 = Ok (error_only (error_message e) (Sequence hi))
     | Ok pf =>
         (forall a, rendered (SQ_Format request) pf (Sequence hi) a -> run.1 = Ok a) /\
         ((forall a, ~ rendered (SQ_Format request) pf (Sequence hi) a) ->
            (exists msg, run.1 = Ok (error_only msg (Sequence hi))) \/ exists msg, run.1 = Panic msg)
     | Panic msg => run.1 = Panic msg
     end) /\
  ((forall op src fp mode, ~ simulatable request op src fp mode) \/ t_ledgers (d_tab d) = ∅ ->
     run.2.2 = s /\ exists msg, run.1 = Ok (error_only msg 0)) /\
  (forall e, run.1 <> Err e).
Proof.
  intros Hok Hf run. split_and!.
  - intros op src fp mode hi b lcm arm Hsim Hn Hb Hu Hv. pose proof Hsim as (Hfmt&_).
    destruct (getLatestLedgerSequence_newest d hi Hok Hf Hn) as (d'&Hseq&Ht&Hf'&_).
    destruct (preflight_info_ok (Sequence hi) b lcm arm d') as [d2 Hinfo]; [done|by rewrite Ht|done..|].
    apply parse_request_ok in Hsim.
    destruct (getter _ s) as [answer s'] eqn:Eg. subst run.
    unfold NewSimulateTransactionHandler, mbind, M_bind, attempt, of_res, zoom1, zoom2. rewrite Hsim.
    cbn [fst snd]. rewrite Hseq. cbn [fst snd]. rewrite Hinfo. cbn [fst snd].
    unfold preflight_params. cbn [bucketListSize protocolVersion closeTime]. rewrite Eg. cbn [fst snd].
    destruct answer as [pf|e|m]; [|done..].
    pose proof (formatResponse_spec pf (SQ_Format request) (Sequence hi)) as Hr.
    destruct (formatResponse pf (SQ_Format request) (Sequence hi)) as [a|e|m] eqn:Ef; simpl.
    + split_and!; [done| |].
      * intros a' Ha. apply Hr in Ha; [congruence|done].
      * intros Hno. by destruct (Hno a); apply Hr.
    + split_and!; [done| |left; by eexists]. intros a Ha. by apply Hr in Ha.
    + split_and!; [done| |right; by eexists]. intros a Ha. by apply Hr in Ha.
  - subst run. unfold NewSimulateTransactionHandler, mbind, M_bind, attempt, of_res. intros Hno.
    destruct (parse_request request) as [[[[op src] fp] mode]|e|m] eqn:Ep; [|by eauto|].
    + destruct Hno as [Hno|He]; [by apply parse_request_ok, Hno in Ep|].
      pose proof (getLatestLedgerSequence_empty d Hok Hf He) as [d' E]. unfold zoom1. cbn [fst snd]. rewrite E. simpl. eauto.
    + exfalso. destruct (parse_request_fails request) as [e He]; [|congruence].
      intros op src fp mode H%parse_request_ok. congruence.
  - subst run. unfold NewSimulateTransactionHandler, mbind, M_bind, attempt. intros e.
    repeat case_match; simplify_eq; done.
Qed.

End SimulateLemmas.

Section Witnesses.

#[local] Opaque bits.
#[local] Existing Instance ex_core.

(** An envelope is the name of its one operation, a memo or two operations. *)
#[local] Instance ex_simulate_sdk : SimulateSdk (CP := ex_core) := {|
  XTransaction := string;
  Operation := string;
  OperationBody := string;
  AccountId := string;
  SorobanTransactionData := string;
  LedgerFootprint := string;
  ResourceConfig := Z;
  emptyFootprint := "";
  soroban_Footprint := fun data => "footprint of " +:+ data;
  env_Type := fun _ => EnvelopeTypeTx;
  env_V1 := fun env => Some env;
  env_FeeBump := fun _ => None;
  env_Operations := fun env => if decide (env = "two") then ["invoke"; "extend"] else [env];
  env_Memo_None := fun env => bool_decide (env <> "memo");
  env_SourceAccount := fun _ => "source";
  tx_Ext_V := fun _ => 1;
  tx_Ext_SorobanData := fun tx => Some tx;
  op_SourceAccount := fun _ => None;
  op_Body := fun op => op;
  body_Type := fun body => if decide (body = "extend") then ExtendFootprintTtl else InvokeHostFunction;
  body_Auth := fun body => Ok (if decide (body = "invoke with auth") then 1 else 0);
  OperationType_String := fun _ => "";
  entry_SafeUnmarshal := fun s => Ok s;
  entry_LedgerKey := fun e => Ok ("key of " +:+ e);
  DefaultResourceConfig := 3000000;
  AuthModeEnforce := "enforce";
  AuthModeRecord := "record";
  AuthModeRecordAllowNonroot := "record_allow_nonroot";
|}.

#[local] Instance ex_simulate_laws : SimulateLaws (SS := ex_simulate_sdk).
Proof.
  split.
  - intros tx m. simpl. by case_decide.
  - intros body _. simpl. eauto.
  - done.
  - done.
  - done.
  - done.
  - apply (bool_decide_unpack _). by vm_compute.
Qed.

(** A preflight that creates an entry, leaves an empty diff and returns its
    ledger; the getter counts its calls. *)
Definition ex_preflight : Preflight :=
  MkPreflight "" ["event"] "data" 100 "result" ["auth"] 5 6 "" 0 [MkXDRDiff "" "entry"; MkXDRDiff "" ""; MkXDRDiff "old" "new"].

Definition ex_getter (p : GetterParameters (SS := ex_simulate_sdk)) : M nat Preflight := fun calls =>
  (if decide (GP_LedgerSeq p = 3) then Ok ex_preflight else Err (EExt "no ledger"), S calls).

Definition ex_simulate (tx mode : string) : SimulateTransactionRequest (SS := ex_simulate_sdk) :=
  MkSimulateTransactionRequest tx None mode false "".

Definition ex_changes : list LedgerEntryChange :=
  [MkLedgerEntryChange Created "key of entry" "" None "" (Some (base64_EncodeToString "entry")) "";
   MkLedgerEntryChange Updated "key of old" "" (Some (base64_EncodeToString "old")) ""
     (Some (base64_EncodeToString "new")) ""].

Definition ex_rendered : SimulateTransactionResponse :=
  {| SM_Error := ""; SM_TransactionDataXDR := base64_EncodeToString "data"; SM_TransactionDataJSON := "";
     SM_EventsXDR := [base64_EncodeToString "event"]; SM_EventsJSON := []; SM_MinResourceFee := 100;
     SM_Results := [MkSimulateHostFunctionResult (Some (base64_EncodeToString "result")) ""
                      (Some [base64_EncodeToString "auth"]) []];
     SM_RestorePreamble := None; SM_StateChanges := ex_changes; SM_LatestLedger := 3 |}.

Definition ex_simulation (tx mode : string) :=
  NewSimulateTransactionHandler (P := ex_protocol) (SS := ex_simulate_sdk) ex_getter (ex_simulate tx mode) (ex_db, 0%nat).

Lemma ex_simulatable : simulatable (P := ex_protocol) (SS := ex_simulate_sdk) (ex_simulate "invoke with auth" "")
  "invoke with auth" "source" "" "enforce".
Proof.
  split; [reflexivity|]. exists "invoke with auth". split_and!; try reflexivity.
  exists 1. split; [reflexivity|]. by left.
Qed.

Lemma simulateTransaction_answers_witness :
  (ex_simulation "invoke with auth" "").2.2 = 1%nat /\
  (ex_simulation "invoke with auth" "").1 = Ok ex_rendered /\
  (ex_simulation "memo" "").2.2 = 0%nat /\ exists msg, (ex_simulation "memo" "").1 = Ok (error_only msg 0).
Proof.
  destruct (simulateTransaction_answers (P := ex_protocol) (SS := ex_simulate_sdk) ex_getter
    (ex_simulate "invoke with auth" "") ex_db 0%nat) as (H&_); [apply ex_cache_ok|reflexivity|].
  destruct (simulateTransaction_answers (P := ex_protocol) (SS := ex_simulate_sdk) ex_getter
    (ex_simulate "memo" "") ex_db 0%nat) as (_&Hm&_); [apply ex_cache_ok|reflexivity|].
  specialize (H "invoke with auth" "source" "" "enforce" (MkLedgerInfo 3 15) (bits 32 3) 3 (MkLedgerCloseMetaArm 23 15 1000)).
  destruct H as [Hs [Hr _]].
  - exact ex_simulatable.
  - apply ex_cache_ok. done.
  - reflexivity.
  - vm_compute. reflexivity.
  - left. by split.
  - split; [exact Hs|]. split; [|apply Hm].
    + apply Hr, formatResponse_spec; [reflexivity|]. vm_compute. reflexivity.
    + left. intros op src fp mode (_&env&[= <-]&_&Hm'&_). discriminate Hm'.
Defined.

(** The answer, evaluated; a request with a memo is refused. *)
Example simulate_rendered :
  (ex_simulation "invoke with auth" "").1 = Ok ex_rendered.
Proof. vm_compute. reflexivity. Qed.

Example simulate_memo :
  (ex_simulation "memo" "").1 =
  Ok (error_only "Transaction contains a memo. Soroban transactions do not support memos." 0).
Proof. vm_compute. reflexivity. Qed.

Example simulate_record_with_auth :
  (ex_simulation "invoke with auth" "record").1 =
  Ok (error_only "cannot set authMode to 'record' with an auth footprint" 0).
Proof. vm_compute. reflexivity. Qed.

End Witnesses.
