(* ===== verification/Cgo.v ===== *)
(** * Memory across the C boundary (lib/*.h, lib/ffi/ and the cgo runtime)

    The Go code that calls the Rust libraries allocates C memory, passes
    pointers and handles, and frees them in deferred calls.  The heap maps the
    address of a live block to what it holds and to the allocator it came from,
    and never gives an address twice: a use after free, a double free, a free by
    the wrong allocator and an overrun are panics of the model, that is, crashes
    of the process. *)

From stdpp Require Import fin_maps.
From Stdlib Require Import Ascii.
From S2P Require Import Prelude.

(** ** The structs of shared.h, preflight.h and xdr2json.h *)

Record xdr_t := MkXdr { xdr_ptr : Z; xdr_len : Z }.

Record xdr_diff_t := MkXdrDiff { xd_before : xdr_t; xd_after : xdr_t }.

(** [xdr_vector_t], [xdr_diff_vector_t]: a pointer to an array and its length. *)
Record vector_t := MkVector { vec_array : Z; vec_len : Z }.

(** [ledger_info_t], with its string. *)
Record ledger_info_t (Str : Type) := MkLedgerInfoC {
  li_protocol_version : Z;
  li_sequence_number : Z;
  li_timestamp : Z;
  li_network_passphrase : Str;
  li_base_reserve : Z;
  li_bucket_list_size : Z;
}.
Arguments MkLedgerInfoC {Str}.
Arguments li_protocol_version {Str}.
Arguments li_sequence_number {Str}.
Arguments li_timestamp {Str}.
Arguments li_network_passphrase {Str}.
Arguments li_base_reserve {Str}.
Arguments li_bucket_list_size {Str}.

Record preflight_result_t := MkPreflightResult {
  pr_error : Z;
  pr_auth : vector_t;
  pr_result : xdr_t;
  pr_transaction_data : xdr_t;
  pr_min_fee : Z;
  pr_events : vector_t;
  pr_cpu_instructions : Z;
  pr_memory_bytes : Z;
  pr_pre_restore_transaction_data : xdr_t;
  pr_pre_restore_min_fee : Z;
  pr_ledger_entry_diff : vector_t;
}.

Record ledger_entry_and_ttl_t := MkLedgerEntryAndTTL { le_entry : xdr_t; le_ttl : Z }.

Record conversion_result_t := MkConversionResult { cr_json : Z; cr_error : Z }.

Definition null_xdr : xdr_t := MkXdr 0 0.

(** ** The heap *)

Inductive allocator := C_malloc | Rust_alloc.

Inductive block :=
  | Bytes (by_ : allocator) (b : string)
  | XdrArray (l : list xdr_t)
  | DiffArray (l : list xdr_diff_t)
  | ResultBox (r : preflight_result_t)
  | ConversionBox (r : conversion_result_t).

#[global] Instance allocator_eq_dec : EqDecision allocator.
Proof. solve_decision. Defined.

(** The allocator of a block; arrays and boxes are Rust's. *)
Definition owner (b : block) : allocator :=
  match b with Bytes a _ => a | _ => Rust_alloc end.

(** [H]: the values behind cgo handles.  [S]: the state behind Go callbacks. *)
Record cworld (H S : Type) := MkCworld {
  c_heap : gmap Z block;
  c_next : Z;
  c_handles : gmap Z H;
  c_nextHandle : Z;
  c_store : S;
}.
Arguments MkCworld {H S}.
Arguments c_heap {H S}.
Arguments c_next {H S}.
Arguments c_handles {H S}.
Arguments c_nextHandle {H S}.
Arguments c_store {H S}.

(** ** Strings as bytes *)

Definition NUL : ascii := Ascii.zero.

(** The C string at the start of the bytes: up to the first NUL. *)
Fixpoint c_str (b : string) : option string :=
  match b with
  | EmptyString => None
  | String c b => if decide (c = NUL) then Some "" else String c <$> c_str b
  end.

(** What a C function reads of a Go string. *)
Fixpoint until_nul (s : string) : string :=
  match s with
  | EmptyString => ""
  | String c s => if decide (c = NUL) then "" else String c (until_nul s)
  end.

(** [bytes.retain(|&b| b != 0)] *)
Fixpoint strip_nul (s : string) : string :=
  match s with
  | EmptyString => ""
  | String c s => if decide (c = NUL) then strip_nul s else String c (strip_nul s)
  end.

Definition with_nul (s : string) : string := s +:+ String NUL "".

(** [len(b)] *)
Definition slen (b : string) : Z := Z.of_nat (String.length b).

Definition sprefix (n : Z) (b : string) : string := String.substring 0 (Z.to_nat n) b.

Section cgo.
Context {H S : Type}.
Abbreviation world := (cworld H S).

Definition set_heap (heap : gmap Z block) (w : world) : world :=
  MkCworld heap (c_next w) (c_handles w) (c_nextHandle w) (c_store w).

(** A new block. *)
Definition c_alloc (b : block) : M world Z := fun w =>
  (Ok (c_next w), MkCworld (<[c_next w := b]> (c_heap w)) (c_next w + 1) (c_handles w) (c_nextHandle w) (c_store w)).

(** The end of a block, for the allocator it has to come from. *)
Definition c_dealloc (a : allocator) (p : Z) : M world unit := fun w =>
  match c_heap w !! p with
  | Some b => if decide (owner b = a) then (Ok tt, set_heap (delete p (c_heap w)) w)
              else (Panic "invalid free", w)
  | None => (Panic "double free or corruption", w)
  end.

(** The block behind a pointer. *)
Definition c_read (p : Z) : M world block := fun w =>
  match c_heap w !! p with
  | Some b => (Ok b, w)
  | None => (Panic "use after free", w)
  end.

(** *** cgo *)

(** [C.CBytes], [C.CString] *)
Definition C_CBytes (b : string) : M world Z := c_alloc (Bytes C_malloc b).
Definition C_CString (s : string) : M world Z := c_alloc (Bytes C_malloc (with_nul s)).

(** [C.free]: nothing to do for a null pointer. *)
Definition C_free (p : Z) : M world unit := if decide (p = 0) then mret tt else c_dealloc C_malloc p.

(** The first [n] bytes of a block. *)
Definition read_bytes (p n : Z) : M world string :=
  b ← c_read p;
  match b with
  | Bytes _ b => if decide (n <= slen b) then mret (sprefix n b) else panic "heap overrun"
  | _ => panic "not bytes"
  end.

(** [C.GoBytes(p, n)], with [n] a C int *)
Definition C_GoBytes (p n : Z) : M world string :=
  if decide (n < 0) then panic "runtime error: makeslice: len out of range"
  else if decide (n = 0) then mret ""
  else read_bytes p n.

(** The C string behind a pointer. *)
Definition read_c_str (p : Z) : M world string :=
  b ← c_read p;
  match b with
  | Bytes _ b => match c_str b with Some s => mret s | None => panic "heap overrun" end
  | _ => panic "not bytes"
  end.

(** [C.GoString]: empty for a null pointer *)
Definition C_GoString (p : Z) : M world string := if decide (p = 0) then mret "" else read_c_str p.

(** [cgo.NewHandle], [Handle.Value], [Handle.Delete] *)
Definition NewHandle (v : H) : M world Z := fun w =>
  (Ok (c_nextHandle w),
   MkCworld (c_heap w) (c_next w) (<[c_nextHandle w := v]> (c_handles w)) (c_nextHandle w + 1) (c_store w)).

Definition Handle_Value (h : Z) : M world H := fun w =>
  match c_handles w !! h with
  | Some v => (Ok v, w)
  | None => (Panic "runtime/cgo: misuse of an invalid Handle", w)
  end.

Definition Handle_Delete (h : Z) : M world unit := fun w =>
  match c_handles w !! h with
  | Some _ => (Ok tt, MkCworld (c_heap w) (c_next w) (delete h (c_handles w)) (c_nextHandle w) (c_store w))
  | None => (Panic "runtime/cgo: misuse of an invalid Handle", w)
  end.

(** [CXDR], [FreeGoXDR], [GoXDR] of preflight.go; xdr2json has copies of the
    first two. *)
Definition CXDR (xdr : string) : M world xdr_t := p ← C_CBytes xdr; mret (MkXdr p (slen xdr)).

Definition FreeGoXDR (xdr : xdr_t) : M world unit := C_free (xdr_ptr xdr).

Definition GoXDR (xdr : xdr_t) : M world string := C_GoBytes (xdr_ptr xdr) (i32 (xdr_len xdr)).

(** *** lib/ffi/src/lib.rs *)

(** [string_to_c]: [safe_cstring] removes interior NULs. *)
Definition string_to_c (str : string) : M world Z := c_alloc (Bytes Rust_alloc (with_nul (strip_nul str))).

(** [free_c_string]: [CString::from_raw] looks for the NUL. *)
Definition free_c_string (str : Z) : M world unit :=
  if decide (str = 0) then mret tt else read_c_str str;; c_dealloc Rust_alloc str.

(** [from_c_xdr]: a slice is never null. *)
Definition from_c_xdr (xdr : xdr_t) : M world string :=
  if decide (xdr_ptr xdr = 0) then panic "slice from a null pointer"
  else if decide (xdr_len xdr = 0) then mret ""
  else read_bytes (xdr_ptr xdr) (xdr_len xdr).

(** A call on the store *)
Definition on_store {A} (m : M S A) : M world A :=
  zoom c_store (fun s w => MkCworld (c_heap w) (c_next w) (c_handles w) (c_nextHandle w) s) m.

End cgo.
