(* ===== verification/CgoLogic.v ===== *)
(** * Reasoning about memory across the C boundary

    [refines] relates a computation on the memory of Cgo.v to one that has none:
    the same answers, the same effects on the store behind it, and the memory
    [kept].  Brackets are blocks and handles for the time of a call; [builds],
    [reads] and [frees] follow the blocks that a structure owns. *)

From Stdlib Require Import Ascii.
From S2P Require Import Prelude Cgo.

(** ** Computations that keep the memory *)

Section kept.
Context {H S : Type}.
Abbreviation world := (cworld H S).

(** Addresses are given in order; the smallest ones are the dangling pointers of
    empty vectors. *)
Definition fresh_world (w : world) : Prop :=
  16 <= c_next w /\ (forall p, is_Some (c_heap w !! p) -> p < c_next w) /\
  (forall h, is_Some (c_handles w !! h) -> h < c_nextHandle w).

(** No live block is gone, none was added if [clean], and the same handles. *)
Definition kept (clean : Prop) (w w' : world) : Prop :=
  c_heap w ⊆ c_heap w' /\ (clean -> c_heap w' = c_heap w) /\ c_handles w' = c_handles w /\
  c_next w <= c_next w' /\ c_nextHandle w <= c_nextHandle w'.

#[global] Instance kept_preorder clean : PreOrder (kept clean).
Proof.
  split; [by intros w; split_and!|]. intros w1 w2 w3 (?&E1&?&?&?) (?&E2&?&?&?).
  split_and!; [by etrans|intros Hc; rewrite E2, E1 by done; done|congruence|lia|lia].
Qed.

(** A world whose live blocks and handles include the given ones. *)
Record holds (L : gmap Z block) (hs : gmap Z H) (w : world) (s : S) : Prop := {
  holds_fresh : fresh_world w;
  holds_blocks : L ⊆ c_heap w;
  holds_handles : hs ⊆ c_handles w;
  holds_store : c_store w = s;
}.

End kept.

Section refines.
Context {W T : Type} (R : W -> T -> Prop) (K : relation W).

(** The computation does what [spec] does: a value related by [post], or the same
    error with the memory kept.  Nothing is said once [spec] crashes. *)
Definition answers {A B} (post : A -> B -> W -> W -> Prop) (w : W) (r : Res A * W) (rs : Res B * T) : Prop :=
  match rs with
  | (Ok b, t') => exists a w', r = (Ok a, w') /\ R w' t' /\ post a b w w'
  | (Err e, t') => exists w', r = (Err e, w') /\ R w' t' /\ K w w'
  | (Panic _, _) => True
  end.

Definition refines {A B} (post : A -> B -> W -> W -> Prop) (m : M W A) (spec : M T B) : Prop :=
  forall w t, R w t -> answers post w (m w) (spec t).

(** The same value, of which [P] holds, the memory kept. *)
Definition same_with {A} (P : A -> Prop) (a b : A) (w w' : W) : Prop := a = b /\ P b /\ K w w'.

Definition same {A} (a b : A) (w w' : W) : Prop := a = b /\ K w w'.

Class Absorbs {A B} (post : A -> B -> W -> W -> Prop) : Prop :=
  absorb a b w w1 w2 : K w w1 -> post a b w1 w2 -> post a b w w2.

Context `{!PreOrder K}.

#[global] Instance same_absorbs {A} : Absorbs (@same A).
Proof. intros a b w w1 w2 ? [-> ?]. split; [done|by etrans]. Qed.

#[global] Instance same_with_absorbs {A} (P : A -> Prop) : Absorbs (same_with P).
Proof. intros a b w w1 w2 ? (->&?&?). split_and!; [done..|by etrans]. Qed.

(** What is answered after memory was kept. *)
Lemma answers_absorb {A B} (post : A -> B -> W -> W -> Prop) `{!Absorbs post} w w1 r (rs : Res B * T) :
  K w w1 -> answers post w1 r rs -> answers post w r rs.
Proof.
  intros HK. destruct rs as [[b|e|p] t]; simpl; [| |done].
  - intros (a&w2&->&?&?). exists a, w2. split_and!; [done..|by eapply absorb].
  - intros (w2&->&?&?). exists w2. split_and!; [done..|by etrans].
Qed.

Lemma refines_ret {A} (a : A) : refines same (mret a) (mret a).
Proof. intros w t Hw. exists a, w. by split_and!. Qed.

Lemma refines_of_res {A} (r : Res A) : refines same (of_res r) (of_res r).
Proof. intros w t Hw. unfold of_res. destruct r; [|by exists w|done]. eexists _, w. by split_and!. Qed.

Lemma refines_fail {A B} (post : A -> B -> _) e : refines post (fail e) (fail e).
Proof. intros w t Hw. by exists w. Qed.

Lemma refines_panic {A B} (post : A -> B -> _) m p : refines post m (panic p).
Proof. done. Qed.

Lemma refines_ext {A B} (post : A -> B -> W -> W -> Prop) m m' spec :
  (forall w, m w = m' w) -> refines post m' spec -> refines post m spec.
Proof. intros Hm Hr w t Hw. rewrite Hm. by apply Hr. Qed.

Lemma refines_ext_spec {A B} (post : A -> B -> W -> W -> Prop) m spec spec' :
  (forall t, spec t = spec' t) -> refines post m spec' -> refines post m spec.
Proof. intros Hs Hr w t Hw. rewrite Hs. by apply Hr. Qed.

Lemma refines_map_err {A B} (post : A -> B -> _) g m spec :
  refines post m spec -> refines post (map_err g m) (map_err g spec).
Proof.
  intros Hm w t Hw. specialize (Hm w t Hw). unfold map_err.
  destruct (spec t) as [[b|e|p] t']; [| |done].
  - destruct Hm as (a&w'&->&?&?). by exists a, w'.
  - destruct Hm as (w'&->&?&?). by exists w'.
Qed.

Lemma refines_attempt {A} (m : M W A) spec : refines same m spec -> refines same (attempt m) (attempt spec).
Proof.
  intros Hm w t Hw. specialize (Hm w t Hw). unfold attempt.
  destruct (spec t) as [[b|e|p] t']; [| |done].
  - destruct Hm as (a&w'&->&?&->&?). by eexists _, w'.
  - destruct Hm as (w'&->&?&?). by eexists _, w'.
Qed.

Lemma refines_bind_with {A A' B} (P : B -> Prop) (post : A -> A' -> W -> W -> Prop) `{!Absorbs post}
    (m : M W B) spec (k : B -> M W A) (kspec : B -> M T A') :
  refines (same_with P) m spec -> (forall b, P b -> refines post (k b) (kspec b)) ->
  refines post (b ← m; k b) (b ← spec; kspec b).
Proof.
  intros Hm Hk w t Hw. specialize (Hm w t Hw). unfold mbind, M_bind.
  destruct (spec t) as [[b|e|p] t1]; [| |done].
  - destruct Hm as (b'&w1&->&Hw1&->&HP&HK). specialize (Hk b HP w1 t1 Hw1).
    destruct (kspec b t1) as [[a|e|p] t2]; [| |done].
    + destruct Hk as (a'&w2&->&?&?). exists a', w2. split_and!; [done..|by eapply absorb].
    + destruct Hk as (w2&->&?&?). exists w2. split_and!; [done..|by etrans].
  - destruct Hm as (w1&->&?&?). by exists w1.
Qed.

(** [post] on the left of a sum, equality with the memory kept on the right. *)
Definition sum_post {A B E} (post : A -> B -> W -> W -> Prop) (a : A + E) (b : B + E) (w w' : W) : Prop :=
  match a, b with
  | inl a, inl b => post a b w w'
  | inr e, inr e' => e = e' /\ K w w'
  | _, _ => False
  end.

#[global] Instance sum_post_absorbs {A B E} (post : A -> B -> W -> W -> Prop) `{!Absorbs post} : Absorbs (@sum_post A B E post).
Proof. intros [a|e] [b|e'] w w1 w2 HK; simpl; [by apply absorb|done|done|intros [-> ?]; split; [done|by etrans]]. Qed.

Lemma refines_attempt_post {A B} (post : A -> B -> W -> W -> Prop) (m : M W A) (spec : M T B) :
  refines post m spec -> refines (sum_post (E := error) post) (attempt m) (attempt spec).
Proof.
  intros Hm w t Hw. specialize (Hm w t Hw). unfold attempt.
  destruct (spec t) as [[b|e|p] t']; [| |done].
  - destruct Hm as (a&w'&->&?&?). by eexists _, w'.
  - destruct Hm as (w'&->&?&?). by eexists (inr e), w'.
Qed.

Lemma refines_true {A} (m : M W A) spec : refines same m spec -> refines (same_with (fun _ => True)) m spec.
Proof.
  intros Hm w t Hw. specialize (Hm w t Hw). destruct (spec t) as [[b|e|p] t1]; [|done..].
  destruct Hm as (a&w'&?&?&?&?). by exists a, w'.
Qed.

Lemma refines_bind {A A' B} (post : A -> A' -> W -> W -> Prop) `{!Absorbs post}
    (m : M W B) spec (k : B -> M W A) (kspec : B -> M T A') :
  refines same m spec -> (forall b, refines post (k b) (kspec b)) ->
  refines post (b ← m; k b) (b ← spec; kspec b).
Proof. intros Hm%refines_true Hk. apply (refines_bind_with _ _ _ _ _ _ Hm). auto. Qed.

(** A step of the implementation alone, which keeps the memory. *)
Lemma refines_step {A A' B} (post : A -> A' -> W -> W -> Prop) `{!Absorbs post} (m : M W B) b (k : B -> M W A) spec :
  (forall w t, R w t -> exists w', m w = (Ok b, w') /\ R w' t /\ K w w') ->
  refines post (k b) spec -> refines post (b ← m; k b) spec.
Proof.
  intros Hm Hk w t Hw. destruct (Hm w t Hw) as (w1&E&Hw1&HK). specialize (Hk w1 t Hw1).
  unfold mbind, M_bind. rewrite E. destruct (spec t) as [[a|e|p] t2]; [| |done].
  - destruct Hk as (a'&w2&->&?&?). exists a', w2. split_and!; [done..|by eapply absorb].
  - destruct Hk as (w2&->&?&?). exists w2. split_and!; [done..|by etrans].
Qed.

End refines.

(** One step on both sides: a result, a panic, a call and what follows it. *)
Ltac refines_ret := first [by apply refines_ret; apply _ | by apply refines_panic].
Ltac refines_call := apply refines_bind; [apply _|apply _| |].

Arguments same {W} K {A}.
Arguments same_with {W} K {A}.
Arguments sum_post {W} K {A B E}.

(** ** Brackets: a block or a handle for the time of a call *)

Section brackets.
Context {H S : Type} (clean : Prop).
Abbreviation world := (cworld H S).
Abbreviation K := (@kept H S clean).
Implicit Types (L : gmap Z block) (hs : gmap Z H) (w : world).

Lemma holds_on_store {A} L hs (m : M S A) : refines (holds L hs) K (same K) (on_store m) m.
Proof.
  intros w t [Hf HL Hh <-]. unfold on_store, zoom. destruct (m (c_store w)) as [[a|e|p] s']; [| |done].
  - eexists a, _. do 2 (split; [by try split|]). split; [done|by split_and!].
  - eexists _. do 2 (split; [by try split|]). by split_and!.
Qed.

Lemma heap_next_fresh w : fresh_world w -> c_heap w !! c_next w = None.
Proof. intros (_&Hf&_). apply eq_None_not_Some. intros Hs%Hf. lia. Qed.

Lemma handle_next_fresh w : fresh_world w -> c_handles w !! c_nextHandle w = None.
Proof. intros (_&_&Hf). apply eq_None_not_Some. intros Hs%Hf. lia. Qed.

Lemma fresh_alloc w b : fresh_world w -> fresh_world (snd (c_alloc b w)).
Proof.
  intros (Hn&Hf&Hg). split_and!; simpl; [lia| |done].
  intros p [x [[<- _]|[_ Hx]]%lookup_insert_Some]; [lia|]. specialize (Hf p (mk_is_Some _ _ Hx)). lia.
Qed.

(** A world that was kept and lost a block allocated since is kept. *)
Lemma kept_dealloc w w2 b p :
  fresh_world w -> p = c_next w -> kept clean (snd (c_alloc b w)) w2 ->
  kept clean w (set_heap (delete p (c_heap w2)) w2).
Proof.
  intros Hf -> (Hs&Hc&Hh&Hn&Hm). pose proof (heap_next_fresh w Hf) as Hx. simpl in *. split_and!; simpl; [| |done|lia|done].
  - transitivity (delete (c_next w) (<[c_next w:=b]> (c_heap w))); [by rewrite delete_insert_id|by apply delete_mono].
  - intros HC. rewrite Hc by done. by rewrite delete_insert_id.
Qed.

Lemma kept_delete_handle w w2 v h :
  fresh_world w -> h = c_nextHandle w -> kept clean (snd (NewHandle v w)) w2 ->
  kept clean w (MkCworld (c_heap w2) (c_next w2) (delete h (c_handles w2)) (c_nextHandle w2) (c_store w2)).
Proof.
  intros Hf -> (Hs&Hc&Hh&Hn&Hm). simpl in *. split_and!; simpl; [done|done| |done|lia].
  rewrite Hh, delete_insert_id; [done|by apply handle_next_fresh].
Qed.


Lemma fresh_delete w p : fresh_world w -> fresh_world (set_heap (delete p (c_heap w)) w).
Proof. intros (?&Hf&?). split_and!; simpl; [done| |done]. intros q [x [_ Hq]%lookup_delete_Some]. apply Hf. by exists x. Qed.

(** A block for the time of [rest], given back by [cleanup]. *)
Lemma refines_with_block {A} L hs b (cleanup : Z -> M world unit) (rest : Z -> M world A) spec :
  (forall p w, 16 <= p -> c_heap w !! p = Some b -> cleanup p w = c_dealloc (owner b) p w) ->
  (forall p, 16 <= p -> L !! p = None -> refines (holds (<[p := b]> L) hs) K (same K) (rest p) spec) ->
  refines (holds L hs) K (same K) (p ← c_alloc b; deferred (cleanup p) (rest p)) spec.
Proof.
  intros Hclean Hr w s [Hf HL Hh Hs]. pose proof (heap_next_fresh w Hf) as Hx. set (w1 := snd (c_alloc b w)).
  assert (holds (<[c_next w := b]> L) hs w1 s) as Hw1.
  { split; [by apply fresh_alloc|by apply insert_mono|done|done]. }
  specialize (Hr (c_next w) (proj1 Hf) (lookup_weaken_None _ _ _ Hx HL) w1 s Hw1). unfold mbind, M_bind. change (c_alloc b w) with (Ok (c_next w), w1).
  unfold deferred.
  assert (forall w2 t, holds (<[c_next w := b]> L) hs w2 t -> K w1 w2 ->
    cleanup (c_next w) w2 = (Ok tt, set_heap (delete (c_next w) (c_heap w2)) w2) /\
    holds L hs (set_heap (delete (c_next w) (c_heap w2)) w2) t /\ K w (set_heap (delete (c_next w) (c_heap w2)) w2)) as Hend.
  { intros w2 t [Hf2 HL2 Hh2 Hs2] HK. assert (K w (set_heap (delete (c_next w) (c_heap w2)) w2)) as HK2 by (by eapply kept_dealloc).
    split_and!; [|split; [by apply fresh_delete| |done|done]|done].
    - pose proof (lookup_weaken _ _ (c_next w) b (lookup_insert_eq _ _ _) HL2) as Hp.
      rewrite Hclean by (done || apply Hf). unfold c_dealloc. by rewrite Hp, decide_True.
    - by etrans; [apply HL|apply HK2]. }
  destruct (spec s) as [[a|e|p] s']; [| |done].
  - destruct Hr as (a'&w2&->&Hw2&->&HK). destruct (Hend w2 s' Hw2 HK) as (->&?&?). eexists _, _. by split_and!.
  - destruct Hr as (w2&->&Hw2&HK). destruct (Hend w2 s' Hw2 HK) as (->&?&?). eexists _. by split_and!.
Qed.

Lemma refines_with_handle {A} L hs v (rest : Z -> M world A) spec :
  (forall h, refines (holds L (<[h := v]> hs)) K (same K) (rest h) spec) ->
  refines (holds L hs) K (same K) (h ← NewHandle v; deferred (Handle_Delete h) (rest h)) spec.
Proof.
  intros Hr w s [Hf HL Hh Hs]. pose proof (handle_next_fresh w Hf) as Hx. set (w1 := snd (NewHandle v w)).
  assert (holds L (<[c_nextHandle w := v]> hs) w1 s) as Hw1.
  { split; [|done|by apply insert_mono|done]. destruct Hf as (?&?&Hg). split_and!; [done..|]. simpl.
    intros h [x [[<- _]|[_ Hy]]%lookup_insert_Some]; [lia|]. specialize (Hg h (mk_is_Some _ _ Hy)). lia. }
  specialize (Hr (c_nextHandle w) w1 s Hw1). unfold mbind, M_bind.
  change (NewHandle v w) with (Ok (c_nextHandle w), w1). unfold deferred.
  set (gone w2 := MkCworld (c_heap w2) (c_next w2) (delete (c_nextHandle w) (c_handles w2)) (c_nextHandle w2) (c_store w2)).
  assert (forall w2 t, holds L (<[c_nextHandle w := v]> hs) w2 t -> K w1 w2 ->
    Handle_Delete (c_nextHandle w) w2 = (Ok tt, gone w2) /\ holds L hs (gone w2) t /\ K w (gone w2)) as Hend.
  { intros w2 t [Hf2 HL2 Hh2 Hs2] HK. assert (K w (gone w2)) as HK2 by (by eapply kept_delete_handle).
    split_and!; [| |done].
    - unfold Handle_Delete. by rewrite (lookup_weaken _ _ (c_nextHandle w) v (lookup_insert_eq _ _ _) Hh2).
    - split; [|done| |done].
      + destruct Hf2 as (?&?&Hg). split_and!; [done..|]. simpl. intros h [x [_ Hq]%lookup_delete_Some]. apply Hg. by exists x.
      + etrans; [apply Hh|]. by rewrite (proj1 (proj2 (proj2 HK2))). }
  destruct (spec s) as [[a|e|p] s']; [| |done].
  - destruct Hr as (a'&w2&->&Hw2&->&HK). destruct (Hend w2 s' Hw2 HK) as (->&?&?). eexists _, _. by split_and!.
  - destruct Hr as (w2&->&Hw2&HK). destruct (Hend w2 s' Hw2 HK) as (->&?&?). eexists _. by split_and!.
Qed.

Lemma holds_lookup L hs w s p b : holds L hs w s -> L !! p = Some b -> c_heap w !! p = Some b.
Proof. intros Hw Hp. eapply lookup_weaken; [done|apply Hw]. Qed.

Lemma C_free_dealloc p w b : 16 <= p -> owner b = C_malloc -> C_free p w = c_dealloc (owner b) p w.
Proof. intros Hp ->. unfold C_free. by rewrite decide_False by lia. Qed.

Lemma refines_with_CXDR {A} L hs b (rest : xdr_t -> M world A) spec :
  (forall p, 16 <= p -> L !! p = None ->
     refines (holds (<[p := Bytes C_malloc b]> L) hs) K (same K) (rest (MkXdr p (slen b))) spec) ->
  refines (holds L hs) K (same K) (x ← CXDR b; deferred (FreeGoXDR x) (rest x)) spec.
Proof.
  intros Hr. apply (refines_ext _ _ _ _ (p ← c_alloc (Bytes C_malloc b); deferred (C_free p) (rest (MkXdr p (slen b))))); [done|].
  apply refines_with_block; [|done]. intros p w Hp _. by apply C_free_dealloc.
Qed.


End brackets.

(** ** Owned blocks

    A function that builds a structure hands its blocks to its caller, who reads
    them and gives them back.  [grows w bs w'] is the step between. *)

Section owned.
Context {H S : Type}.
Abbreviation world := (cworld H S).
Implicit Types (bs : list (Z * block)) (w : world).

Definition blocks bs : gmap Z block := list_to_map bs.

Record grows w bs w' : Prop := {
  grows_heap : c_heap w' = blocks bs ∪ c_heap w;
  grows_nodup : NoDup bs.*1;
  grows_range : Forall (fun p => c_next w <= p < c_next w') bs.*1;
  grows_next : c_next w <= c_next w';
  grows_rest : c_handles w' = c_handles w /\ c_nextHandle w' = c_nextHandle w /\ c_store w' = c_store w;
}.

(** Blocks were left behind by an unwinding panic. *)
Record leaks w w' : Prop := {
  leaks_heap : c_heap w ⊆ c_heap w';
  leaks_fresh : fresh_world w';
  leaks_next : c_next w <= c_next w';
  leaks_rest : c_handles w' = c_handles w /\ c_nextHandle w' = c_nextHandle w /\ c_store w' = c_store w;
}.

(** What [m] builds represents what [spec] computes. *)
Definition builds {A B} (rep : A -> B -> list (Z * block) -> Prop) (m : M world A) (spec : Res B) : Prop := forall w,
  fresh_world w ->
  match spec with
  | Ok b => exists a w' bs, m w = (Ok a, w') /\ grows w bs w' /\ rep a b bs
  | Err e => exists w', m w = (Err e, w') /\ leaks w w'
  | Panic _ => True
  end.

(** [m] can be run on any heap with the blocks and changes nothing. *)
Definition reads {A} bs (m : M world A) (a : A) : Prop := forall w,
  (forall p b, (p, b) ∈ bs -> c_heap w !! p = Some b) -> m w = (Ok a, w).

(** [m] takes the blocks off the heap. *)
Definition frees bs (m : M world unit) : Prop := forall w h,
  c_heap w = blocks bs ∪ h -> NoDup bs.*1 -> (forall p, p ∈ bs.*1 -> h !! p = None) ->
  m w = (Ok tt, set_heap h w).

Lemma grows_refl w : grows w [] w.
Proof. split; [by unfold blocks; simpl; rewrite (left_id_L ∅ (∪))|constructor|constructor|done|done]. Qed.

Lemma grows_trans w bs1 w1 bs2 w2 : grows w bs1 w1 -> grows w1 bs2 w2 -> grows w (bs2 ++ bs1) w2.
Proof.
  intros [Hh1 Hn1 Hr1 Hx1 (?&?&?)] [Hh2 Hn2 Hr2 Hx2 (?&?&?)]. rewrite Forall_forall in Hr1, Hr2.
  split; [| | |lia|split_and!; congruence].
  - unfold blocks. rewrite list_to_map_app, <- (assoc_L (∪)). by rewrite Hh2, Hh1.
  - rewrite fmap_app. apply NoDup_app. split_and!; [done| |done].
    intros p Hp1 Hp2. specialize (Hr1 _ Hp2). specialize (Hr2 _ Hp1). simpl in *. lia.
  - rewrite fmap_app. apply Forall_app; split; apply Forall_forall; intros p Hp.
    + specialize (Hr2 _ Hp). simpl in *. lia.
    + specialize (Hr1 _ Hp). simpl in *. lia.
Qed.

Lemma grows_fresh w bs w' : fresh_world w -> grows w bs w' -> fresh_world w'.
Proof.
  intros (Hn&Hf&Hg) [Hh Hd Hr Hx (Eh&En&_)]. rewrite Forall_forall in Hr. split_and!; [lia| |by rewrite Eh, En].
  intros p [b Hp]. rewrite Hh in Hp. apply lookup_union_Some_raw in Hp as [Hp|[_ Hp]].
  - apply elem_of_list_to_map_2, (list_elem_of_fmap_2 fst) in Hp. specialize (Hr _ Hp). simpl in *. lia.
  - specialize (Hf p (mk_is_Some _ _ Hp)). lia.
Qed.

Lemma grows_disjoint w bs w' p : fresh_world w -> grows w bs w' -> p ∈ bs.*1 -> c_heap w !! p = None.
Proof.
  intros (_&Hf&_) [_ _ Hr _ _] Hp. rewrite Forall_forall in Hr. specialize (Hr _ Hp). simpl in Hr.
  apply eq_None_not_Some. intros Hs%Hf. lia.
Qed.

Lemma grows_leaks w bs w' : fresh_world w -> grows w bs w' -> leaks w w'.
Proof.
  intros Hf Hg. split; [|by eapply grows_fresh|by apply Hg|apply Hg]. rewrite (grows_heap _ _ _ Hg).
  apply map_union_subseteq_r, map_disjoint_spec. intros p x y Hx Hy.
  apply elem_of_list_to_map_2, (list_elem_of_fmap_2 fst) in Hx. by rewrite (grows_disjoint w bs w') in Hy.
Qed.

Lemma leaks_trans w w1 w2 : leaks w w1 -> leaks w1 w2 -> leaks w w2.
Proof. intros [? ? ? (?&?&?)] [? ? ? (?&?&?)]. split; [by etrans|done|lia|split_and!; congruence]. Qed.

Lemma builds_ret {A B} (rep : A -> B -> _ -> Prop) a b : rep a b [] -> builds rep (mret a) (Ok b).
Proof. intros Hr w Hf. exists a, w, []. split; [done|]. split; [apply grows_refl|done]. Qed.

Lemma builds_fail {A B} (rep : A -> B -> _ -> Prop) e : builds rep (fail e) (Err e).
Proof. intros w Hf. exists w. by repeat split; try apply Hf. Qed.

Lemma builds_alloc b (rep : Z -> unit -> _ -> Prop) :
  (forall p, 16 <= p -> rep p tt [(p, b)]) -> builds rep (c_alloc b) (Ok tt).
Proof.
  intros Hr w Hf. eexists _, _, [(c_next w, b)]. split; [done|]. split; [|by apply Hr, Hf].
  split; simpl; [|by apply NoDup_singleton|apply Forall_singleton; lia|lia|done].
  unfold blocks. simpl. by rewrite <- insert_union_l, (left_id_L ∅ (∪)).
Qed.

Lemma builds_bind {A A' B B'} (rep1 : A -> B -> _ -> Prop) (rep : A' -> B' -> _ -> Prop) m s k ks :
  builds rep1 m s ->
  (forall a b bs1, rep1 a b bs1 -> builds (fun a' b' bs => rep a' b' (bs ++ bs1)) (k a) (ks b)) ->
  builds rep (a ← m; k a) (b ← s; ks b).
Proof.
  intros Hm Hk w Hf. specialize (Hm w Hf). unfold mbind, M_bind, Res_bind. destruct s as [b|e|]; [| |done].
  - destruct Hm as (a&w1&bs1&->&Hg1&Hr). specialize (Hk a b bs1 Hr w1 (grows_fresh _ _ _ Hf Hg1)).
    destruct (ks b) as [b'|e|]; [| |done].
    + destruct Hk as (a'&w2&bs2&->&Hg2&?). eexists _, _, _. split; [done|]. split; [by eapply grows_trans|done].
    + destruct Hk as (w2&->&Hl). eexists _. split; [done|]. eapply leaks_trans; [by eapply grows_leaks|done].
  - destruct Hm as (w1&->&Hl). by exists w1.
Qed.

Lemma builds_mono {A B} (rep rep' : A -> B -> _ -> Prop) m s :
  (forall a b bs, rep a b bs -> rep' a b bs) -> builds rep m s -> builds rep' m s.
Proof.
  intros Hi Hm w Hf. specialize (Hm w Hf). destruct s; [|done..]. destruct Hm as (a'&w'&bs&?&?&?). exists a', w', bs. auto.
Qed.

(** *** Reading *)

Lemma reads_mono {A} bs bs' (m : M world A) a : (forall x, x ∈ bs -> x ∈ bs') -> reads bs m a -> reads bs' m a.
Proof. intros Hs Hm w Hw. apply Hm. intros p b Hp. by apply Hw, Hs. Qed.

Lemma reads_ret {A} bs (a : A) : reads bs (mret a) a.
Proof. by intros w _. Qed.

Lemma reads_bind {A B} bs (m : M world A) a (k : A -> M world B) b :
  reads bs m a -> reads bs (k a) b -> reads bs (x ← m; k x) b.
Proof. intros Hm Hk w Hw. unfold mbind, M_bind. rewrite Hm by done. by apply Hk. Qed.

Lemma reads_block bs p b : (p, b) ∈ bs -> reads bs (c_read p) b.
Proof. intros Hp w Hw. unfold c_read. by rewrite (Hw p b Hp). Qed.

Lemma owned_lookup bs w h p b : c_heap w = blocks bs ∪ h -> NoDup bs.*1 -> (p, b) ∈ bs -> c_heap w !! p = Some b.
Proof. intros -> Hn Hp. apply lookup_union_Some_l. by apply elem_of_list_to_map_1. Qed.

(** *** Freeing *)

#[global] Instance frees_perm : Proper ((≡ₚ) ==> (=) ==> iff) frees.
Proof.
  intros bs bs' Hp m _ <-. unfold frees, blocks.
  assert (forall b b' : list (Z * block), b ≡ₚ b' -> (forall w h, c_heap w = list_to_map b ∪ h -> NoDup b.*1 ->
    (forall p, p ∈ b.*1 -> h !! p = None) -> m w = (Ok tt, set_heap h w)) -> forall w h, c_heap w = list_to_map b' ∪ h ->
    NoDup b'.*1 -> (forall p, p ∈ b'.*1 -> h !! p = None) -> m w = (Ok tt, set_heap h w)) as Hd; [|by split; apply Hd].
  intros b b' Hb Hm w h Hw Hn Hd. apply Hm; [|by rewrite Hb|].
  - rewrite Hw. f_equal. symmetry. apply list_to_map_proper; [|done]. by rewrite Hb.
  - intros p. rewrite Hb. apply Hd.
Qed.

Lemma set_heap_heap h h' w : set_heap h (set_heap h' w) = set_heap h w. Proof. done. Qed.

Lemma frees_ret : frees [] (mret tt).
Proof.
  intros w h Hw _ _. unfold mret, M_ret. f_equal. destruct w; simpl in *. unfold set_heap. simpl.
  unfold blocks in Hw. simpl in Hw. by rewrite Hw, (left_id_L ∅ (∪)).
Qed.

Lemma frees_then bs1 bs2 (m1 m2 : M world unit) : frees bs1 m1 -> frees bs2 m2 -> frees (bs1 ++ bs2) (m1;; m2).
Proof.
  intros H1 H2 w h Hw Hn Hd. rewrite fmap_app in Hn, Hd. apply NoDup_app in Hn as (Hn1&Hx&Hn2).
  unfold blocks in Hw. rewrite list_to_map_app, <- (assoc_L (∪)) in Hw. unfold mbind, M_bind.
  erewrite H1; [|exact Hw|done|].
  - rewrite (H2 _ h); [done|done|done|]. intros p Hp. apply Hd, elem_of_app. by right.
  - intros p Hp. apply lookup_union_None. split; [|apply Hd, elem_of_app; by left].
    apply not_elem_of_list_to_map_1. by apply Hx.
Qed.

Lemma frees_block p b : frees [(p, b)] (c_dealloc (owner b) p).
Proof.
  intros w h Hw _ Hd. unfold c_dealloc, blocks in *. simpl in Hw. rewrite <- insert_union_l, (left_id_L ∅ (∪)) in Hw.
  rewrite Hw, lookup_insert_eq, decide_True by done. rewrite delete_insert_id; [done|]. apply Hd. left.
Qed.

Lemma reads_frees {A} bs bs' (m : M world A) a (k : A -> M world unit) :
  reads bs m a -> (forall x, x ∈ bs -> x ∈ bs') -> frees bs' (k a) -> frees bs' (x ← m; k x).
Proof.
  intros Hm Hs Hk w h Hw Hn Hd. unfold mbind, M_bind. rewrite Hm; [by apply Hk|].
  intros p b Hp. by eapply owned_lookup, Hs.
Qed.


End owned.

(** ** Strings *)

Lemma substring_all b : String.substring 0 (String.length b) b = b.
Proof. induction b as [|c b IH]; simpl; [done|by rewrite IH]. Qed.

Lemma sprefix_all b : sprefix (slen b) b = b.
Proof. unfold sprefix, slen. rewrite Nat2Z.id. apply substring_all. Qed.

Lemma slen_nil b : slen b = 0 <-> b = "".
Proof. unfold slen. destruct b; simpl; split; (done || lia). Qed.

Lemma c_str_with_nul s : c_str (with_nul s) = Some (until_nul s).
Proof. unfold with_nul. induction s as [|c s IH]; simpl; [done|]. case_decide; [done|]. by rewrite IH. Qed.

Lemma until_strip s : until_nul (strip_nul s) = strip_nul s.
Proof. induction s as [|c s IH]; simpl; [done|]. case_decide; [done|]. simpl. rewrite decide_False by done. by rewrite IH. Qed.

Lemma i32_slen b : slen b < 2 ^ 31 -> i32 (slen b) = slen b.
Proof. intros Hb. unfold i32. pose proof (Nat2Z.is_nonneg (String.length b)). unfold slen in *. rewrite Z.mod_small; lia. Qed.

Section strings.
Context {H S : Type}.
Abbreviation world := (cworld H S).

(** A string of the library, at [p] *)
Definition cstr_rep (p : Z) (s : string) (bs : list (Z * block)) : Prop :=
  p ≠ 0 /\ until_nul s = s /\ bs = [(p, Bytes Rust_alloc (with_nul s))].

Lemma string_to_c_builds e : builds (H := H) (S := S) (fun p _ bs => cstr_rep p (strip_nul e) bs) (string_to_c e) (Ok tt).
Proof. apply builds_alloc. intros p Hp. split_and!; [lia|apply until_strip|done]. Qed.

Lemma read_bytes_reads p b a bs : (p, Bytes a b) ∈ bs -> reads (H := H) (S := S) bs (read_bytes p (slen b)) b.
Proof.
  intros Hin. eapply reads_bind; [by apply reads_block|]. simpl. rewrite decide_True, sprefix_all by lia. apply reads_ret.
Qed.

Lemma cstr_reads p s bs bs' : cstr_rep p s bs -> (forall x, x ∈ bs -> x ∈ bs') -> reads bs' (H := H) (S := S) (C_GoString p) s.
Proof.
  intros (Hp&Hs&->) Hin. unfold C_GoString. rewrite decide_False by done. eapply reads_bind; [apply reads_block, Hin; by left|].
  simpl. rewrite c_str_with_nul, Hs. apply reads_ret.
Qed.

Lemma cstr_frees p s bs : cstr_rep p s bs -> frees (H := H) (S := S) bs (free_c_string p).
Proof.
  intros (Hp&Hs&->). unfold free_c_string. rewrite decide_False by done.
  eapply (reads_frees _ _ (read_c_str p) s (fun _ => c_dealloc Rust_alloc p)); [|by intros x Hx; exact Hx|].
  - eapply reads_bind; [apply reads_block; by left|]. simpl. rewrite c_str_with_nul, Hs. apply reads_ret.
  - apply (frees_block p (Bytes Rust_alloc (with_nul s))).
Qed.

Lemma from_c_xdr_read (w : world) p a b : p ≠ 0 -> c_heap w !! p = Some (Bytes a b) -> from_c_xdr (MkXdr p (slen b)) w = (Ok b, w).
Proof.
  intros Hp Hb. unfold from_c_xdr. cbn [xdr_ptr xdr_len]. rewrite decide_False by done. case_decide as E.
  - apply slen_nil in E. by subst.
  - apply (read_bytes_reads _ _ a [(p, Bytes a b)]); [by left|]. by intros q b' [= -> ->]%list_elem_of_singleton.
Qed.

End strings.

(** ** Structures handed over

    A structure whose blocks were added to a memory that was kept, and the life
    of its box: allocated, read, freed. *)

Section given.
Context {H S : Type} (clean : Prop) {R V : Type} (rep : R -> V -> list (Z * block) -> Prop).
Abbreviation world := (cworld H S).
Abbreviation K := (@kept H S clean).
Implicit Types (L : gmap Z block) (hs : gmap Z H) (w : world) (s : S).

Definition given (r : R) (v : V) (w w' : world) : Prop :=
  exists wm bs, K w wm /\ fresh_world wm /\ grows wm bs w' /\ rep r v bs.

#[global] Instance given_absorbs : Absorbs K given.
Proof. intros r v w w1 w2 HK (wm&bs&?&?&?&?). exists wm, bs. split_and!; [by etrans|done..]. Qed.

Lemma grows_holds L hs w s bs w' : holds L hs w s -> grows w bs w' -> holds L hs w' s.
Proof.
  intros [Hf HL Hh Hs] Hg. pose proof (grows_leaks _ _ _ Hf Hg) as [Hl ? _ (Eh&_&Es)].
  split; [done|by etrans|by rewrite Eh|by rewrite Es].
Qed.

Lemma builds_refines L hs m spec :
  builds rep m spec -> (clean -> exists v, spec = Ok v) -> refines (holds L hs) K given m (of_res spec).
Proof.
  intros Hb Hc w s Hw. specialize (Hb w (holds_fresh _ _ _ _ Hw)). unfold of_res. destruct spec as [v|e|]; simpl; [| |done].
  - destruct Hb as (r&w'&bs&->&Hg&Hr). exists r, w'. split; [done|]. split; [by eapply grows_holds|].
    exists w, bs. split_and!; [done|apply Hw|done|done].
  - destruct Hb as (w'&->&[Hh ? ? (Eh&En&Es)]). destruct Hw as [Hf HL Hhs Hs]. exists w'. split; [done|].
    split; [split; [done|by etrans|by rewrite Eh|by rewrite Es]|]. split_and!; [done| |done|done|lia].
    intros HC. destruct (Hc HC) as [v [=]].
Qed.

(** A structure is built, left in a box, and [use] takes what [out] says from the
    box and frees it all. *)
Lemma refines_boxed {A} L hs m spec (wrap : R -> block) (use : Z -> M world A) (out : V -> Res A) :
  refines (holds L hs) K given m spec -> (forall v p, out v ≠ Panic p) ->
  (forall r v bs p w h, p ≠ 0 -> rep r v bs -> c_heap w = blocks (bs ++ [(p, wrap r)]) ∪ h ->
     NoDup (bs ++ [(p, wrap r)]).*1 -> (forall q, q ∈ (bs ++ [(p, wrap r)]).*1 -> h !! q = None) ->
     use p w = (out v, set_heap h w)) ->
  refines (holds L hs) K (same K) (p ← (r ← m; c_alloc (wrap r)); use p) (v ← spec; of_res (out v)).
Proof.
  intros Hm Hout Huse w s Hw. specialize (Hm w s Hw). unfold mbind, M_bind.
  destruct (spec s) as [[v|e|x] s']; [| |done]; [|destruct Hm as (w'&->&?&?); by exists w'].
  destruct Hm as (r&w1&->&Hw1&wm&bs&HK&Hf&Hg&Hr). pose proof (heap_next_fresh w1 (holds_fresh _ _ _ _ Hw1)) as Hx.
  set (box := wrap r). set (w2 := snd (c_alloc box w1)). change (c_alloc box w1) with (Ok (c_next w1), w2).
  destruct (holds_fresh _ _ _ _ Hw1) as (Hn1&_). pose proof (grows_range _ _ _ Hg) as Hrange. rewrite Forall_forall in Hrange.
  assert (c_heap w2 = blocks (bs ++ [(c_next w1, box)]) ∪ c_heap wm) as Hheap.
  { simpl. rewrite (grows_heap _ _ _ Hg). unfold blocks. rewrite list_to_map_app. simpl.
    rewrite <- (assoc_L (∪)), <- insert_union_l, (left_id_L ∅ (∪)), insert_union_r; [done|].
    apply not_elem_of_list_to_map_1. intros Hin. specialize (Hrange _ Hin). simpl in Hrange. lia. }
  rewrite (Huse r v bs (c_next w1) w2 (c_heap wm)); [|lia|done|done|..].
  - assert (holds L hs (set_heap (c_heap wm) w2) s' /\ K w (set_heap (c_heap wm) w2)) as [Hw2 HK2].
    { destruct Hw as [_ HL Hhs _], Hw1 as [_ _ _ Hs]. destruct Hg as [_ _ _ Hnx (Eh&En&Es)].
      destruct HK as (H1&H2&H3&H4&H5), Hf as (F1&F2&F3). split.
      + split; simpl; [|by etrans|by rewrite Eh, H3|done]. split_and!; simpl; [lia| |by rewrite Eh, En].
        intros p Hp. specialize (F2 p Hp). lia.
      + split_and!; simpl; [done|done|congruence|lia|lia]. }
    unfold of_res. destruct (out v) as [a|e|p] eqn:E; [by exists a, (set_heap (c_heap wm) w2)|by eexists _|by apply Hout in E].
  - rewrite fmap_app. apply NoDup_app. split_and!; [by apply (grows_nodup _ _ _ Hg)| |apply NoDup_singleton].
    intros p Hp Hq%list_elem_of_singleton. subst p. specialize (Hrange _ Hp). simpl in Hrange. lia.
  - intros p. rewrite fmap_app, elem_of_app. intros [Hp|Hq%list_elem_of_singleton]; [|subst p].
    + by eapply grows_disjoint.
    + simpl. apply eq_None_not_Some. intros Hp%(proj1 (proj2 Hf)). destruct Hg. lia.
Qed.

End given.
