(* ===== verification/HostLib.v ===== *)
(** * The preflight library (lib/preflight/src/lib.rs and shared.rs)

    The Rust side of a preflight: it decodes what the Go side passes, simulates
    the operation with the Soroban host of the protocol version, which reads
    ledger entries through a callback, and hands back a structure of C memory.
    The two versions of the Soroban crates are two instances of [Host.Soroban];
    a simulation is a tree of reads.  The code is written over [Ffi], the
    operations that cross the boundary, so that it can be run on the C memory
    and on plain values. *)

From Stdlib Require Import Ascii.
From S2P Require Import Prelude Cgo.

(** ** Rust *)

(** A value seen through [WriteXdr]: its bytes, or the [Debug] of the error. *)
Definition WriteXdr : Type := string + string.

(** The Rust crates: [anyhow::Error], [sha2], [rand]; [spawn_error] is the
    failure to start a worker thread, if it fails. *)
Class Rust := {
  AnyErr : Type;
  err_debug : AnyErr -> string; (* {e:?} *)
  err_msg : string -> AnyErr; (* anyhow!, bail! *)
  try_from_int_error : AnyErr;
  utf8_error_debug : string -> string;
  sha256 : string -> string;
  rng_seed : string;
  spawn_error : option string;
}.

(** The unwinding of a panic is an error of the computation; [None] is a payload
    that is not a [String]. *)
Definition rust_panic (payload : option string) : error :=
  match payload with Some m => EMsg m | None => EExt "" end.

Definition panic_payload (e : error) : option string :=
  match e with EMsg m => Some m | _ => None end.

(** [Result::unwrap], given the [Debug] of the error. *)
Definition unwrap {A} (r : A + string) : Res A :=
  match r with
  | inl a => Ok a
  | inr e => Err (rust_panic (Some ("called `Result::unwrap()` on an `Err` value: " +:+ e)))
  end.

(** [str::from_utf8]: whether the bytes are well-formed UTF-8. *)
Definition continuation (c : ascii) : bool :=
  let n := N_of_ascii c in (128 <=? n)%N && (n <=? 191)%N.

Definition between (a b : N) (c : ascii) : bool := let n := N_of_ascii c in (a <=? n)%N && (n <=? b)%N.

Fixpoint utf8_valid (s : string) : bool :=
  match s with
  | EmptyString => true
  | String c0 s0 =>
      if between 0 127 c0 then utf8_valid s0 else
      match s0 with
      | EmptyString => false
      | String c1 s1 =>
          if between 194 223 c0 then continuation c1 && utf8_valid s1 else
          match s1 with
          | EmptyString => false
          | String c2 s2 =>
              if between 224 239 c0 then
                between (if between 224 224 c0 then 160 else 128) (if between 237 237 c0 then 159 else 191) c1
                && continuation c2 && utf8_valid s2
              else
              match s2 with
              | EmptyString => false
              | String c3 s3 =>
                  between 240 244 c0
                  && between (if between 240 240 c0 then 144 else 128) (if between 244 244 c0 then 143 else 191) c1
                  && continuation c2 && continuation c3 && utf8_valid s3
              end
          end
      end
  end.

(** [from_c_string], given the bytes of the C string. *)
Definition to_str `{RS : Rust} (s : string) : Res string :=
  unwrap (if utf8_valid s then inl s else inr (utf8_error_debug s)).

(** ** The Soroban crates *)

Module Host.

(** A simulation: it returns, panics, or reads an entry and goes on. *)
Inductive host (Key Entry E A : Type) :=
  | HRet (a : A)
  | HPanic (payload : option string)
  | HGet (key : Key) (k : (option (Entry * option Z) + E) -> host Key Entry E A).
#[global] Arguments HRet {Key Entry E A}.
#[global] Arguments HPanic {Key Entry E A}.
#[global] Arguments HGet {Key Entry E A}.

(** Every value a simulation can return. *)
Fixpoint returns {Key Entry E A} (P : A -> Prop) (h : host Key Entry E A) : Prop :=
  match h with
  | HRet a => P a
  | HPanic _ => True
  | HGet _ k => forall answer, returns P (k answer)
  end.

Inductive op_body :=
  | ExtendFootprintTtl (extend_to : Z)
  | RestoreFootprint
  | OtherBody (discriminant : string).

(** [SorobanTransactionData] and its [resource_fee] *)
Record tx_data := MkTxData { td_xdr : WriteXdr; resource_fee : Z }.

(** [LedgerEntryDiff] *)
Record entry_diff := MkEntryDiff { state_before : option WriteXdr; state_after : option WriteXdr }.

(** [InvokeHostFunctionSimulationResult], with the error of [invoke_result]. *)
Record invoke_simulation (E : Type) := MkInvokeSimulation {
  sim_auth : list WriteXdr;
  sim_invoke_result : WriteXdr + E;
  sim_transaction_data : option tx_data;
  sim_diagnostic_events : list WriteXdr;
  sim_instructions : Z;
  sim_memory : Z;
  sim_modified_entries : list entry_diff;
}.
#[global] Arguments MkInvokeSimulation {E}.
#[global] Arguments sim_auth {E}.
#[global] Arguments sim_invoke_result {E}.
#[global] Arguments sim_transaction_data {E}.
#[global] Arguments sim_diagnostic_events {E}.
#[global] Arguments sim_instructions {E}.
#[global] Arguments sim_memory {E}.
#[global] Arguments sim_modified_entries {E}.

(** One version of soroban-env-host and soroban-simulation. *)
Class Soroban `{RS : Rust} := {
  PROTOCOL : Z;
  XdrError : Type;
  HostError : Type;
  HostFunction : Type;
  AuthEntry : Type;
  AccountId : Type;
  LedgerKey : Type;
  LedgerEntry : Type;
  NetworkConfig : Type;
  LedgerInfo : Type;
  Adjustment : Type;
  RecordingAuth : Type;
  AutoRestore : Type;
  xdr_debug : XdrError -> string;
  xdr_into : XdrError -> AnyErr;
  host_into : HostError -> AnyErr;
  storage_internal_error : HostError; (* (ScErrorType::Storage, ScErrorCode::InternalError) *)
  invoke_from_xdr : string -> (HostFunction * list AuthEntry) + XdrError;
  account_from_xdr : string -> AccountId + XdrError;
  body_from_xdr : string -> op_body + XdrError;
  footprint_from_xdr : string -> (list LedgerKey * list LedgerKey) + XdrError; (* read_only, read_write *)
  entry_from_xdr : string -> LedgerEntry + XdrError;
  key_to_xdr : LedgerKey -> string + XdrError;
  base_ledger_info : Z -> Z -> Z -> string -> Z -> LedgerInfo; (* protocol, sequence, time, network, reserve *)
  fill_config_fields : NetworkConfig -> LedgerInfo -> LedgerInfo;
  default_adjustment : Adjustment;
  additive_factor : Adjustment -> Z; (* of the instructions *)
  set_additive_factor : Z -> Adjustment -> Adjustment;
  Enforcing : list AuthEntry -> RecordingAuth;
  recording : bool -> bool -> RecordingAuth;
  load_from_snapshot : host LedgerKey LedgerEntry HostError (NetworkConfig + AnyErr);
  simulate_invoke_host_function_op :
    NetworkConfig -> Adjustment -> LedgerInfo -> HostFunction -> RecordingAuth -> AccountId -> string -> bool ->
    host LedgerKey LedgerEntry HostError (invoke_simulation HostError + AnyErr);
  simulate_restore_op :
    NetworkConfig -> Adjustment -> LedgerInfo -> list LedgerKey -> host LedgerKey LedgerEntry HostError (tx_data + AnyErr);
  auto_restore_new : LedgerInfo -> host LedgerKey LedgerEntry HostError (AutoRestore + AnyErr);
  simulate_extend_ttl_op :
    AutoRestore -> NetworkConfig -> Adjustment -> LedgerInfo -> list LedgerKey -> Z ->
    host LedgerKey LedgerEntry HostError ((tx_data + AnyErr) * AutoRestore);
  simulate_restore_keys_op :
    AutoRestore -> NetworkConfig -> Adjustment -> LedgerInfo ->
    host LedgerKey LedgerEntry HostError (option tx_data + AnyErr);
}.

End Host.
Import Host.

(** ** What crosses the boundary *)

(** The operations of the library that touch the memory or call back into Go:
    [from_c_xdr], the bytes of a C string, [get_xdr_internal], and the three
    constructors of a result. *)
Class Ffi `{RS : Rust} (W Buf Str Out : Type) := {
  ffi_xdr : Buf -> M W string;
  ffi_string : Str -> M W string;
  ffi_get : string -> M W (option (string * option Z));
  new_from_invoke : forall E, invoke_simulation E -> option tx_data -> string -> M W Out;
  new_from_transaction_data : option tx_data -> option tx_data -> string -> M W Out;
  preflight_error : string -> M W Out;
}.

(** [x ← m?; k]: the operator [?]. *)
Definition try_ {S A B E} (m : M S (A + E)) (k : A -> M S (B + E)) : M S (B + E) :=
  r ← m; match r with inl a => k a | inr e => mret (inr e) end.
Notation "x ←? m ; k" := (try_ m (fun x => k)) (at level 20, m at level 100, k at level 200, only parsing).

(** [AuthMode] and its conversion *)
Inductive AuthMode := Enforce | Record_ | RecordAllowNonroot.

Definition AuthMode_from (x : Z) : Res AuthMode :=
  if decide (x = 0) then Ok Enforce
  else if decide (x = 1) then Ok Record_
  else if decide (x = 2) then Ok RecordAllowNonroot
  else Err (rust_panic None).

(** ** shared.rs *)

(** A computation with the [internal_error] of a [GoLedgerStorage]. *)
Section storage.
Context `{RS : Rust} {W : Type} (get_xdr : string -> M W (option (string * option Z))).
Abbreviation MS := (M (W * option AnyErr)).

Definition set_internal_error (e : AnyErr) : MS unit := zoom2 (put (Some e)).

Context `{SB : !Soroban}.

(** The [SnapshotSource] of a simulation. *)
Definition get_fallible_from_go_ledger_storage (key : LedgerKey) : MS (option (LedgerEntry * option Z) + HostError) :=
  match key_to_xdr key with
  | inr e => set_internal_error (xdr_into e);; mret (inr storage_internal_error)
  | inl key_xdr =>
      r ← zoom1 (get_xdr key_xdr);
      match r with
      | None => mret (inl None)
      | Some (xdr, live_until_ledger_seq) =>
          match entry_from_xdr xdr with
          | inr e => set_internal_error (xdr_into e);; mret (inr storage_internal_error)
          | inl entry => mret (inl (Some (entry, live_until_ledger_seq)))
          end
      end
  end.

Fixpoint run_host {A} (h : host LedgerKey LedgerEntry HostError A) : MS A :=
  match h with
  | HRet a => mret a
  | HPanic payload => fail (rust_panic payload)
  | HGet key k => answer ← get_fallible_from_go_ledger_storage key; run_host (k answer)
  end.

(** The debug text of an error, or of the storage error behind it. *)
Definition extract_error_string {A} (simulation_result : A + AnyErr) : MS string :=
  match simulation_result with
  | inl _ => mret ""
  | inr e => gets (fun st => err_debug (default e (snd st)))
  end.

End storage.

(** [Rc::new(GoLedgerStorage::new(handle))] for the rest of the function *)
Definition with_storage `{RS : Rust} {W A} (m : M (W * option AnyErr) A) : M W A := fun w =>
  let '(r, (w', _)) := m (w, None) in (r, w').

Section shared.
Context `{RS : Rust} {W Buf Str Out : Type} `{FF : !Ffi W Buf Str Out}.
Context `{SB : !Soroban}.
Abbreviation MS := (M (W * option AnyErr)).
Abbreviation run := (run_host (W := W) ffi_get).

Definition fill_ledger_info (c_ledger_info : ledger_info_t Str) (network_config : NetworkConfig) : MS LedgerInfo :=
  bytes ← zoom1 (ffi_string (li_network_passphrase c_ledger_info));
  network_passphrase ← of_res (to_str bytes);
  mret (fill_config_fields network_config
    (base_ledger_info (li_protocol_version c_ledger_info) (li_sequence_number c_ledger_info)
       (li_timestamp c_ledger_info) (sha256 network_passphrase) (li_base_reserve c_ledger_info))).

(** [X::from_xdr(unsafe { from_c_xdr(buf) }, ...).unwrap()] *)
Definition from_xdr_unwrap {A} (from_xdr : string -> A + XdrError) (buf : Buf) : MS A :=
  bytes ← zoom1 (ffi_xdr buf);
  of_res (unwrap (match from_xdr bytes with inl a => inl a | inr e => inr (xdr_debug e) end)).

(** [X::from_xdr(unsafe { from_c_xdr(buf) }, ...)?] *)
Definition from_xdr {A} (from_xdr : string -> A + XdrError) (buf : Buf) : MS (A + AnyErr) :=
  bytes ← zoom1 (ffi_xdr buf);
  mret (match from_xdr bytes with inl a => inl a | inr e => inr (xdr_into e) end).

Definition preflight_invoke_hf_op_post_autorestore_or_maybe_panic (network_config : NetworkConfig)
    (adjustment_config : Adjustment) (ledger_info : LedgerInfo) (hf : HostFunction) (auth_mode : RecordingAuth)
    (source_account : AccountId) (enable_debug : bool) : MS (Out + AnyErr) :=
  invoke_hf_result ←? run (simulate_invoke_host_function_op network_config adjustment_config ledger_info hf
                             auth_mode source_account rng_seed enable_debug);
  error_str ← extract_error_string
    (match sim_invoke_result invoke_hf_result with inl v => inl v | inr e => inr (host_into e) end);
  result ← zoom1 (new_from_invoke _ invoke_hf_result None error_str);
  mret (inl result).

Definition preflight_invoke_hf_op_or_maybe_panic (invoke_hf_op source_account : Buf) (c_ledger_info : ledger_info_t Str)
    (instruction_leeway : Z) (enable_debug : bool) (auth_mode : AuthMode) (use_upgraded_auth : bool) : MS (Out + AnyErr) :=
  '(host_function, auth_entries) ← from_xdr_unwrap invoke_from_xdr invoke_hf_op;
  source_account ← from_xdr_unwrap account_from_xdr source_account;
  network_config ←? run load_from_snapshot;
  ledger_info ← fill_ledger_info c_ledger_info network_config;
  instruction_leeway ←? mret (if decide (instruction_leeway < 2 ^ 32) then inl instruction_leeway else inr try_from_int_error);
  let adjustment_config :=
    set_additive_factor (Z.max (additive_factor default_adjustment) instruction_leeway) default_adjustment in
  let auth_mode := match auth_mode with
                   | Enforce => Enforcing auth_entries
                   | Record_ => recording true use_upgraded_auth
                   | RecordAllowNonroot => recording false use_upgraded_auth
                   end in
  preflight_invoke_hf_op_post_autorestore_or_maybe_panic network_config adjustment_config ledger_info host_function
    auth_mode source_account enable_debug.

Definition preflight_extend_ttl_op (extend_to : Z) (keys_to_extend : list LedgerKey) (network_config : NetworkConfig)
    (ledger_info : LedgerInfo) : MS (Out + AnyErr) :=
  auto_restore_snapshot ←? run (auto_restore_new ledger_info);
  '(simulation_result, auto_restore_snapshot) ←
    run (simulate_extend_ttl_op auto_restore_snapshot network_config default_adjustment ledger_info keys_to_extend extend_to);
  '(maybe_transaction_data, maybe_restore_result) ←
    match simulation_result with
    | inl transaction_data =>
        restore ← run (simulate_restore_keys_op auto_restore_snapshot network_config default_adjustment ledger_info);
        mret (Some transaction_data, restore)
    | inr e => mret (None, inr e)
    end;
  error_str ← extract_error_string maybe_restore_result;
  result ← zoom1 (new_from_transaction_data maybe_transaction_data
                    (match maybe_restore_result with inl p => p | inr _ => None end) error_str);
  mret (inl result).

Definition preflight_restore_op (keys_to_restore : list LedgerKey) (network_config : NetworkConfig)
    (ledger_info : LedgerInfo) : MS Out :=
  simulation_result ← run (simulate_restore_op network_config default_adjustment ledger_info keys_to_restore);
  error_str ← extract_error_string simulation_result;
  zoom1 (new_from_transaction_data (match simulation_result with inl d => Some d | inr _ => None end) None error_str).

Definition preflight_footprint_ttl_op_or_maybe_panic (op_body footprint : Buf) (c_ledger_info : ledger_info_t Str)
    : MS (Out + AnyErr) :=
  op_body ←? from_xdr body_from_xdr op_body;
  footprint ←? from_xdr footprint_from_xdr footprint;
  network_config ←? run load_from_snapshot;
  ledger_info ← fill_ledger_info c_ledger_info network_config;
  match op_body with
  | ExtendFootprintTtl extend_to => preflight_extend_ttl_op extend_to (fst footprint) network_config ledger_info
  | RestoreFootprint => result ← preflight_restore_op (snd footprint) network_config ledger_info; mret (inl result)
  | OtherBody discriminant =>
      mret (inr (err_msg ("encountered unsupported operation type: '" +:+ discriminant +:+
                          "', instead of 'ExtendFootprintTtl' or 'RestoreFootprint' operations.")))
  end.

End shared.

(** ** lib.rs *)

Section lib.
Context `{RS : Rust} {W Buf Str Out : Type} `{FF : !Ffi W Buf Str Out}.
Context (curr prev : Soroban).

(** The worker thread, and what becomes of a panic in it. *)
Definition catch_preflight_panic (op : M W (Out + AnyErr)) : M W Out :=
  match spawn_error with
  | Some e => preflight_error ("failed to spawn preflight worker thread: " +:+ e)
  | None =>
      res ← attempt op;
      match res with
      | inl (inl r) => mret r
      | inl (inr e) => preflight_error (err_debug e)
      | inr panic =>
          match panic_payload panic with
          | Some panic_msg => preflight_error ("panic during preflight() call: " +:+ panic_msg)
          | None => preflight_error "panic during preflight() call: unknown cause"
          end
      end
  end.

(** The host of a protocol version *)
Definition by_protocol (proto : Z) (op : Soroban -> M W (Out + AnyErr)) : M W (Out + AnyErr) :=
  if decide (proto <= PROTOCOL (Soroban := prev)) then op prev
  else if decide (proto = PROTOCOL (Soroban := curr)) then op curr
  else mret (inr (err_msg ("unsupported protocol version: " +:+ pretty proto))).

Definition preflight_invoke_hf_op (invoke_hf_op source_account : Buf) (ledger_info : ledger_info_t Str)
    (instruction_leeway : Z) (enable_debug : bool) (auth_mode : Z) (use_upgraded_auth : bool) : M W Out :=
  catch_preflight_panic (by_protocol (li_protocol_version ledger_info) (fun sb =>
    auth_mode ← of_res (AuthMode_from auth_mode);
    with_storage (preflight_invoke_hf_op_or_maybe_panic (SB := sb) invoke_hf_op source_account ledger_info
      instruction_leeway enable_debug auth_mode use_upgraded_auth))).

Definition preflight_footprint_ttl_op (op_body footprint : Buf) (ledger_info : ledger_info_t Str) : M W Out :=
  catch_preflight_panic (by_protocol (li_protocol_version ledger_info) (fun sb =>
    with_storage (preflight_footprint_ttl_op_or_maybe_panic (SB := sb) op_body footprint ledger_info))).

End lib.

(** ** The C memory of a result *)

Section memory.
Context `{RS : Rust} {H S : Type}.
Abbreviation world := (cworld H S).

(** [vec_to_c_array]: an empty vector has no block but a dangling pointer. *)
Definition bytes_to_c (v : string) : M world xdr_t :=
  if decide (v = "") then mret (MkXdr 1 0) else ptr ← c_alloc (Bytes Rust_alloc v); mret (MkXdr ptr (slen v)).

Definition xdrs_to_c (v : list xdr_t) : M world vector_t :=
  match v with
  | [] => mret (MkVector 8 0)
  | _ => ptr ← c_alloc (XdrArray v); mret (MkVector ptr (zlen v))
  end.

Definition diffs_to_c (v : list xdr_diff_t) : M world vector_t :=
  match v with
  | [] => mret (MkVector 8 0)
  | _ => ptr ← c_alloc (DiffArray v); mret (MkVector ptr (zlen v))
  end.

Definition xdr_to_c (v : WriteXdr) : M world xdr_t := xdr ← of_res (unwrap v); bytes_to_c xdr.

Definition option_xdr_to_c (v : option WriteXdr) : M world xdr_t :=
  match v with None => mret null_xdr | Some v => xdr_to_c v end.

Definition ledger_entry_diff_to_c (v : entry_diff) : M world xdr_diff_t :=
  before ← option_xdr_to_c (state_before v);
  after ← option_xdr_to_c (state_after v);
  mret (MkXdrDiff before after).

Definition xdr_vec_to_c (v : list WriteXdr) : M world vector_t := c_v ← mapM xdr_to_c v; xdrs_to_c c_v.

Definition ledger_entry_diff_vec_to_c (modified_entries : list entry_diff) : M world vector_t :=
  c_diffs ← mapM ledger_entry_diff_to_c modified_entries; diffs_to_c c_diffs.

(** [CPreflightResult::default()]: an empty error and no data. *)
Definition default_result (error : Z) : preflight_result_t :=
  MkPreflightResult error (MkVector 0 0) null_xdr null_xdr 0 (MkVector 0 0) 0 0 null_xdr 0 (MkVector 0 0).

Definition default_preflight_result : M world preflight_result_t := error ← string_to_c ""; mret (default_result error).

Definition with_error (error : Z) (r : preflight_result_t) : preflight_result_t :=
  MkPreflightResult error (pr_auth r) (pr_result r) (pr_transaction_data r) (pr_min_fee r) (pr_events r)
    (pr_cpu_instructions r) (pr_memory_bytes r) (pr_pre_restore_transaction_data r) (pr_pre_restore_min_fee r)
    (pr_ledger_entry_diff r).

Definition set_error (result : preflight_result_t) (error : string) : M world preflight_result_t :=
  free_c_string (pr_error result);; error ← string_to_c error; mret (with_error error result).

(** [if let Some(p) = restore_preamble] of both constructors *)
Definition set_preamble (result : preflight_result_t) (restore_preamble : option tx_data) : M world preflight_result_t :=
  match restore_preamble with
  | None => mret result
  | Some p =>
      data ← xdr_to_c (td_xdr p);
      mret (MkPreflightResult (pr_error result) (pr_auth result) (pr_result result) (pr_transaction_data result)
              (pr_min_fee result) (pr_events result) (pr_cpu_instructions result) (pr_memory_bytes result)
              data (resource_fee p) (pr_ledger_entry_diff result))
  end.

Definition min_fee_of (transaction_data : option tx_data) : Z := from_option resource_fee 0 transaction_data.

Definition new_cpreflight_result_from_invoke_host_function {E} (r : invoke_simulation E)
    (restore_preamble : option tx_data) (error : string) : M world preflight_result_t :=
  error ← string_to_c error;
  auth ← xdr_vec_to_c (sim_auth r);
  result ← option_xdr_to_c (match sim_invoke_result r with inl v => Some v | inr _ => None end);
  transaction_data ← option_xdr_to_c (td_xdr <$> sim_transaction_data r);
  events ← xdr_vec_to_c (sim_diagnostic_events r);
  ledger_entry_diff ← ledger_entry_diff_vec_to_c (sim_modified_entries r);
  set_preamble (MkPreflightResult error auth result transaction_data (min_fee_of (sim_transaction_data r)) events
                  (sim_instructions r) (sim_memory r) null_xdr 0 ledger_entry_diff) restore_preamble.

Definition new_cpreflight_result_from_transaction_data (transaction_data : option tx_data)
    (restore_preamble : option tx_data) (error : string) : M world preflight_result_t :=
  data ← option_xdr_to_c (td_xdr <$> transaction_data);
  d ← default_preflight_result;
  result ← set_error (MkPreflightResult (pr_error d) (pr_auth d) (pr_result d) data (min_fee_of transaction_data)
                        (pr_events d) 0 0 (pr_pre_restore_transaction_data d) 0 (pr_ledger_entry_diff d)) error;
  set_preamble result restore_preamble.

Definition preflight_error_c (str : string) : M world preflight_result_t :=
  result ← default_preflight_result; set_error result str.

(** *** The destructors *)

(** A vector and its elements: the size of the allocation is its length. *)
Definition free_c_xdr (xdr : xdr_t) : M world unit :=
  if decide (xdr_ptr xdr = 0 \/ xdr_len xdr = 0) then mret tt
  else
    v ← c_read (xdr_ptr xdr);
    match v with
    | Bytes _ b => if decide (slen b = xdr_len xdr) then c_dealloc Rust_alloc (xdr_ptr xdr) else panic "wrong layout"
    | _ => panic "wrong layout"
    end.

Definition free_c_xdr_diff (diff : xdr_diff_t) : M world unit := free_c_xdr (xd_before diff);; free_c_xdr (xd_after diff).

Definition free_c_xdr_array (xdr_array : vector_t) : M world unit :=
  if decide (vec_array xdr_array = 0 \/ vec_len xdr_array = 0) then mret tt
  else
    v ← c_read (vec_array xdr_array);
    match v with
    | XdrArray l => if decide (zlen l = vec_len xdr_array)
                    then for_each l free_c_xdr;; c_dealloc Rust_alloc (vec_array xdr_array) else panic "wrong layout"
    | _ => panic "wrong layout"
    end.

Definition free_c_xdr_diff_array (xdr_array : vector_t) : M world unit :=
  if decide (vec_array xdr_array = 0 \/ vec_len xdr_array = 0) then mret tt
  else
    v ← c_read (vec_array xdr_array);
    match v with
    | DiffArray l => if decide (zlen l = vec_len xdr_array)
                     then for_each l free_c_xdr_diff;; c_dealloc Rust_alloc (vec_array xdr_array) else panic "wrong layout"
    | _ => panic "wrong layout"
    end.

(** A result behind a pointer *)
Definition read_result (result : Z) : M world preflight_result_t :=
  b ← c_read result; match b with ResultBox r => mret r | _ => panic "not a result" end.

Definition free_preflight_result (result : Z) : M world unit :=
  if decide (result = 0) then mret tt
  else
    boxed ← read_result result;
    free_c_string (pr_error boxed);;
    free_c_xdr_array (pr_auth boxed);;
    free_c_xdr (pr_result boxed);;
    free_c_xdr (pr_transaction_data boxed);;
    free_c_xdr_array (pr_events boxed);;
    free_c_xdr (pr_pre_restore_transaction_data boxed);;
    free_c_xdr_diff_array (pr_ledger_entry_diff boxed);;
    c_dealloc Rust_alloc result.

(** *** [GoLedgerStorage] and the exported functions *)

Context (SnapshotSourceGet : Z -> xdr_t -> M world ledger_entry_and_ttl_t).
Context (FreeGoLedgerEntryAndTTL : ledger_entry_and_ttl_t -> M world unit).

Definition get_xdr_internal (golang_handle : Z) (key_c_xdr : xdr_t) : M world (option (string * option Z)) :=
  res ← SnapshotSourceGet golang_handle key_c_xdr;
  if decide (xdr_ptr (le_entry res) = 0) then mret None
  else
    v ← from_c_xdr (le_entry res);
    FreeGoLedgerEntryAndTTL res;;
    if decide (le_ttl res < 0) then mret (Some (v, None))
    else if decide (le_ttl res < 2 ^ 32) then mret (Some (v, Some (le_ttl res)))
    else mret None.

(** The vector of the key lives for the time of the call. *)
Definition get_by_key (golang_handle : Z) (key_xdr : string) : M world (option (string * option Z)) :=
  key_c_xdr ← bytes_to_c key_xdr;
  deferred (free_c_xdr key_c_xdr) (get_xdr_internal golang_handle key_c_xdr).

Definition c_ffi (golang_handle : Z) : Ffi world xdr_t Z preflight_result_t := {|
  ffi_xdr := from_c_xdr;
  ffi_string := read_c_str;
  ffi_get := get_by_key golang_handle;
  new_from_invoke := @new_cpreflight_result_from_invoke_host_function;
  new_from_transaction_data := new_cpreflight_result_from_transaction_data;
  preflight_error := preflight_error_c;
|}.

Context (curr prev : Soroban).

(** The exported functions leave the result in a box that the caller frees. *)
Definition C_preflight_invoke_hf_op (handle : Z) (invoke_hf_op source_account : xdr_t) (ledger_info : ledger_info_t Z)
    (instruction_leeway : Z) (enable_debug : bool) (auth_mode : Z) (use_upgraded_auth : bool) : M world Z :=
  r ← preflight_invoke_hf_op (FF := c_ffi handle) curr prev invoke_hf_op source_account ledger_info
        instruction_leeway enable_debug auth_mode use_upgraded_auth;
  c_alloc (ResultBox r).

Definition C_preflight_footprint_ttl_op (handle : Z) (op_body footprint : xdr_t) (ledger_info : ledger_info_t Z) : M world Z :=
  r ← preflight_footprint_ttl_op (FF := c_ffi handle) curr prev op_body footprint ledger_info;
  c_alloc (ResultBox r).

End memory.

(** ** An instance of the crates *)

#[local] Instance ex_rust : Rust := {|
  AnyErr := string;
  err_debug := fun e => e;
  err_msg := fun e => e;
  try_from_int_error := "out of range integral type conversion attempted";
  utf8_error_debug := fun _ => "Utf8Error";
  sha256 := fun s => s;
  rng_seed := "seed";
  spawn_error := None;
|}.
