(* ===== verification/HostRefines.v ===== *)
(** * The preflight library over two interfaces

    The code of shared.rs and lib.rs does the same over two implementations of
    [Ffi] that do the same (a simulation): every answer, error and effect on the
    store, and the memory kept.  [returns] says what is known of the results of
    the Soroban crates. *)

From Stdlib Require Import Ascii.
From S2P Require Import Prelude Cgo CgoLogic HostLib.
Import Host.

(** ** What simulations return *)

Section returns.
Context {Key Entry E A : Type}.
Implicit Types h : host Key Entry E A.

Lemma returns_impl (c : Prop) (P : A -> Prop) h : (c -> returns P h) -> returns (fun a => c -> P a) h.
Proof. induction h as [a|p|key k IH]; simpl; intros Hc; [done|done|]. intros x. apply IH. auto. Qed.

Lemma returns_and (P Q : A -> Prop) h : returns P h -> returns Q h -> returns (fun a => P a /\ Q a) h.
Proof. induction h as [a|p|key k IH]; simpl; intros; [done|done|]. apply IH; auto. Qed.

Lemma returns_mono (P Q : A -> Prop) h : (forall a, P a -> Q a) -> returns P h -> returns Q h.
Proof. induction h as [a|p|key k IH]; simpl; intros; auto. Qed.

Lemma returns_true h : returns (fun _ => True) h.
Proof. induction h; simpl; auto. Qed.

End returns.

(** Every XDR value of a result satisfies [P]. *)
Record each_xdr (P : WriteXdr -> Prop) {E} (r : invoke_simulation E) : Prop := {
  each_auth : Forall P (sim_auth r);
  each_result : forall v, sim_invoke_result r = inl v -> P v;
  each_data : forall d, sim_transaction_data r = Some d -> P (td_xdr d);
  each_events : Forall P (sim_diagnostic_events r);
  each_before : forall d v, d ∈ sim_modified_entries r -> state_before d = Some v -> P v;
  each_after : forall d v, d ∈ sim_modified_entries r -> state_after d = Some v -> P v;
}.

Definition each_data_of (P : WriteXdr -> Prop) (d : option tx_data) : Prop := forall x, d = Some x -> P (td_xdr x).

(** The XDR values in the results of one version of the crates. *)
Record results_satisfy `{RS : Rust} (P : WriteXdr -> Prop) (SB : Soroban) : Prop := {
  sat_invoke nc adj li hf auth acc seed debug :
    returns (fun r => forall x, r = inl x -> each_xdr P x) (simulate_invoke_host_function_op nc adj li hf auth acc seed debug);
  sat_restore nc adj li keys :
    returns (fun r => forall x, r = inl x -> P (td_xdr x)) (simulate_restore_op nc adj li keys);
  sat_extend ar nc adj li keys to :
    returns (fun r => forall x, fst r = inl x -> P (td_xdr x)) (simulate_extend_ttl_op ar nc adj li keys to);
  sat_restore_keys ar nc adj li :
    returns (fun r => forall d, r = inl d -> each_data_of P d) (simulate_restore_keys_op ar nc adj li);
}.

(** What is written under the limits of the crates has a length that a C int
    holds. *)
Definition xdr_bounded (v : WriteXdr) : Prop := forall b, v = inl b -> slen b < 2 ^ 31.
Definition xdr_writes (v : WriteXdr) : Prop := exists b, v = inl b.

Class SorobanLaws `{RS : Rust} (SB : Soroban) : Prop := {
  results_bounded : results_satisfy xdr_bounded SB;
  keys_bounded : forall key, forall b, key_to_xdr key = inl b -> slen b < 2 ^ 31;
}.

(** The crates can write whatever they return. *)
Definition results_write `{RS : Rust} (SB : Soroban) : Prop := results_satisfy xdr_writes SB.

(** ** Two interfaces *)

Section simulation.
Context `{RS : Rust} {W T Buf1 Buf2 Str1 Str2 Out1 Out2 : Type}.
Context (R : W -> T -> Prop) (K : relation W) `{!PreOrder K} (clean : Prop).
Context (post : Out1 -> Out2 -> W -> W -> Prop) `{HA : !Absorbs K post}.
Context (buf_rel : Buf1 -> Buf2 -> Prop) (str_rel : Str1 -> Str2 -> Prop).

(** The XDR values of a result can be handed over, and are written if [clean]. *)
Definition invoke_good {E} (r : invoke_simulation E) : Prop := each_xdr xdr_bounded r /\ (clean -> each_xdr xdr_writes r).
Definition data_good (d : option tx_data) : Prop := each_data_of xdr_bounded d /\ (clean -> each_data_of xdr_writes d).

Class FfiRefines (F1 : Ffi W Buf1 Str1 Out1) (F2 : Ffi T Buf2 Str2 Out2) : Prop := {
  fr_xdr x b : buf_rel x b -> refines R K (same K) (ffi_xdr x) (ffi_xdr b);
  fr_string x s : str_rel x s -> refines R K (same K) (ffi_string x) (ffi_string s);
  fr_get key : slen key < 2 ^ 31 -> refines R K (same K) (ffi_get key) (ffi_get key);
  fr_invoke E r p e : invoke_good r -> data_good p -> refines R K post (new_from_invoke E r p e) (new_from_invoke E r p e);
  fr_data d p e : data_good d -> data_good p -> refines R K post (new_from_transaction_data d p e) (new_from_transaction_data d p e);
  fr_error e : refines R K post (preflight_error e) (preflight_error e);
}.

Context {F1 : Ffi W Buf1 Str1 Out1} {F2 : Ffi T Buf2 Str2 Out2} `{FR : !FfiRefines F1 F2}.

(** *** With the internal error of the storage *)

Definition Rs (x : W * option AnyErr) (y : T * option AnyErr) : Prop := R (fst x) (fst y) /\ snd x = snd y.
Definition Ks : relation (W * option AnyErr) := fun x y => K (fst x) (fst y).

#[local] Instance Ks_preorder : PreOrder Ks.
Proof. split; [intros x|intros x y z]; unfold Ks; [done|apply PreOrder_Transitive]. Qed.

Definition lifted {A B} (p : A -> B -> W -> W -> Prop) (a : A) (b : B) (x y : W * option AnyErr) : Prop := p a b (fst x) (fst y).

#[local] Instance lifted_absorbs {A B} (p : A -> B -> W -> W -> Prop) `{!Absorbs K p} : Absorbs Ks (lifted p).
Proof. intros a b x y z HK Hp. unfold lifted. exact (absorb K _ _ _ _ _ HK Hp). Qed.

Lemma refines_zoom1 {A B} (p : A -> B -> W -> W -> Prop) m spec :
  refines R K p m spec -> refines Rs Ks (lifted p) (zoom1 m) (zoom1 spec).
Proof.
  intros Hm [w c] [t c'] [Hw Hc]. simpl in Hc. specialize (Hm w t Hw). unfold zoom1. simpl.
  destruct (spec t) as [[b|e|] t']; [| |done].
  - destruct Hm as (a&w'&->&?&?). by exists a, (w', c).
  - destruct Hm as (w'&->&?&?). by exists (w', c).
Qed.

Lemma refines_zoom1_same {A} (m : M W A) spec :
  refines R K (same K) m spec -> refines Rs Ks (same Ks) (zoom1 m) (zoom1 spec).
Proof. apply refines_zoom1. Qed.

Lemma refines_with_storage {A B} (p : A -> B -> W -> W -> Prop) m spec :
  refines Rs Ks (lifted p) m spec -> refines R K p (with_storage m) (with_storage spec).
Proof.
  intros Hm w t Hw. specialize (Hm (w, None) (t, None) (conj Hw eq_refl)). unfold with_storage.
  destruct (spec (t, None)) as [[b|e|] [t' c]]; [| |done].
  - destruct Hm as (a&[w' c']&->&[? _]&?). by exists a, w'.
  - destruct Hm as ([w' c']&->&[? _]&?). by exists w'.
Qed.

Lemma refines_try {A B C E} (p : A -> B -> _ -> _ -> Prop) `{!Absorbs Ks p} (P : C -> Prop)
    (m : M (W * option AnyErr) (C + E)) (spec : M (T * option AnyErr) (C + E)) k kspec :
  refines Rs Ks (same_with Ks (fun r => forall c, r = inl c -> P c)) m spec ->
  (forall c, P c -> refines Rs Ks (sum_post Ks (E := E) p) (k c) (kspec c)) ->
  refines Rs Ks (sum_post Ks p) (try_ m k) (try_ spec kspec).
Proof.
  intros Hm Hk. eapply refines_bind_with; [apply _|apply _|exact Hm|]. intros [c|e] HP; [auto|].
  intros w t Hw. by exists (inr e), w.
Qed.

Context `{SB : !Soroban} `{SL : !SorobanLaws SB}.

Lemma refines_set_internal e : refines Rs Ks (same Ks) (set_internal_error e) (set_internal_error e).
Proof. intros [w c] [t c'] [Hw Hc]. exists tt, (w, Some e). split; [done|]. split; [by split|]. by split; [|unfold Ks]. Qed.

Lemma refines_get key :
  refines Rs Ks (same Ks) (get_fallible_from_go_ledger_storage ffi_get key) (get_fallible_from_go_ledger_storage ffi_get key).
Proof.
  unfold get_fallible_from_go_ledger_storage. destruct (key_to_xdr key) as [b|e] eqn:Ek.
  - refines_call; [apply refines_zoom1_same, fr_get; by eapply keys_bounded|].
    intros [[xdr live]|]; [|refines_ret]. destruct (entry_from_xdr xdr); [refines_ret|].
    refines_call; [apply refines_set_internal|]. intros _. refines_ret.
  - refines_call; [apply refines_set_internal|]. intros _. refines_ret.
Qed.

Lemma refines_run {A} (P : A -> Prop) h :
  returns P h -> refines Rs Ks (same_with Ks P) (run_host ffi_get h) (run_host ffi_get h).
Proof.
  induction h as [a|p|key k IH]; simpl; intros HP.
  - intros w t Hw. exists a, w. by split_and!.
  - by apply refines_fail, _.
  - apply refines_bind; [apply _| |apply refines_get|]; [|intros x; by apply IH].
    intros a b w w1 w2 HK (->&?&?). split_and!; [done..|by etrans].
Qed.

Lemma refines_extract {A} (r : A + AnyErr) : refines Rs Ks (same Ks) (extract_error_string r) (extract_error_string r).
Proof.
  destruct r as [a|e]; simpl; [by apply refines_ret, _|]. intros [w c] [t c'] [Hw Hc]. simpl in Hc. subst c'.
  eexists _, (w, c). split; [done|]. split; [by split|]. by split; [|unfold Ks].
Qed.

(** *** shared.rs *)

Abbreviation out_post := (sum_post Ks (E := AnyErr) (lifted post)).

(** [m?] for a call of which nothing is asked. *)
Lemma refines_try_any {A B C} (p : A -> B -> _ -> _ -> Prop) `{!Absorbs Ks p}
    (m : M (W * option AnyErr) (C + AnyErr)) (spec : M (T * option AnyErr) (C + AnyErr)) k kspec :
  refines Rs Ks (same Ks) m spec ->
  (forall c, refines Rs Ks (sum_post Ks (E := AnyErr) p) (k c) (kspec c)) ->
  refines Rs Ks (sum_post Ks p) (try_ m k) (try_ spec kspec).
Proof. intros Hm Hk. refines_call; [done|]. intros [c|e]; [by apply Hk|]. intros w t Hw. by exists (inr e), w. Qed.

Lemma refines_run_any {A} (h : host LedgerKey LedgerEntry HostError A) :
  refines Rs Ks (same Ks) (run_host ffi_get h) (run_host ffi_get h).
Proof.
  intros w t Hw. pose proof (refines_run _ h (returns_true h) w t Hw) as Hr.
  destruct (run_host ffi_get h t) as [[b|e|p] t']; [|done..]. destruct Hr as (a&w'&?&?&?&_&?). by exists a, w'.
Qed.

Lemma refines_lift {A B} (p : A -> B -> W -> W -> Prop) m spec : refines R K p m spec ->
  refines Rs Ks (sum_post Ks (E := AnyErr) (lifted p)) (x ← zoom1 m; mret (inl x)) (x ← zoom1 spec; mret (inl x)).
Proof.
  intros Hm%refines_zoom1 w t Hw. specialize (Hm w t Hw). unfold mbind, M_bind, mret, M_ret.
  destruct (zoom1 spec t) as [[b|e|q] t']; [| |done].
  - destruct Hm as (a&w'&->&?&?). by exists (inl a), w'.
  - destruct Hm as (w'&->&?&?). by exists w'.
Qed.

Lemma refines_from_xdr_unwrap {A} (f : string -> A + XdrError) x b : buf_rel x b ->
  refines Rs Ks (same Ks) (from_xdr_unwrap f x) (from_xdr_unwrap f b).
Proof. intros Hb. refines_call; [by apply refines_zoom1_same, fr_xdr|]. intros bytes. by apply refines_of_res, _. Qed.

Lemma refines_from_xdr {A} (f : string -> A + XdrError) x b : buf_rel x b ->
  refines Rs Ks (same Ks) (from_xdr f x) (from_xdr f b).
Proof. intros Hb. refines_call; [by apply refines_zoom1_same, fr_xdr|]. intros bytes. refines_ret. Qed.

(** Two descriptions of the ledger that differ in their string only. *)
Definition same_ledger (a : ledger_info_t Str1) (b : ledger_info_t Str2) : Prop :=
  li_protocol_version a = li_protocol_version b /\ li_sequence_number a = li_sequence_number b /\
  li_timestamp a = li_timestamp b /\ li_base_reserve a = li_base_reserve b /\
  str_rel (li_network_passphrase a) (li_network_passphrase b).

Lemma refines_fill a b nc : same_ledger a b ->
  refines Rs Ks (same Ks) (fill_ledger_info a nc) (fill_ledger_info b nc).
Proof.
  intros (E1&E2&E3&E4&Hs). unfold fill_ledger_info. rewrite E1, E2, E3, E4.
  refines_call; [by apply refines_zoom1_same, fr_string|]. intros bytes.
  refines_call; [by apply refines_of_res, _|]. intros s. refines_ret.
Qed.

Section good_results.
Context (HC : clean -> results_write SB).

Lemma returns_good {A} (h : host LedgerKey LedgerEntry HostError A) (P : (WriteXdr -> Prop) -> A -> Prop) :
  (forall Q, results_satisfy Q SB -> returns (P Q) h) -> returns (fun a => P xdr_bounded a /\ (clean -> P xdr_writes a)) h.
Proof. intros Hr. apply returns_and; [apply Hr, results_bounded|]. apply returns_impl. intros Hc. by apply Hr, HC. Qed.

Lemma refines_post_autorestore nc adj li hf auth acc debug :
  refines Rs Ks out_post
    (preflight_invoke_hf_op_post_autorestore_or_maybe_panic (FF := F1) nc adj li hf auth acc debug)
    (preflight_invoke_hf_op_post_autorestore_or_maybe_panic (FF := F2) nc adj li hf auth acc debug).
Proof.
  unfold preflight_invoke_hf_op_post_autorestore_or_maybe_panic.
  apply (refines_try (lifted post) invoke_good).
  - apply refines_run. eapply returns_mono; [|apply (returns_good _ (fun Q r => forall x, r = inl x -> each_xdr Q x))].
    + intros r [H1 H2] c ->. split; [by apply H1|intros Hc; by apply H2].
    + intros Q HQ. apply HQ.
  - intros r Hr. refines_call; [apply refines_extract|]. intros s. apply refines_lift, fr_invoke; [done|].
    by split; intros.
Qed.

(** The data and the preamble of an extension *)
Definition restored_good (q : option tx_data * (option tx_data + AnyErr)) : Prop :=
  data_good (fst q) /\ forall d, snd q = inl d -> data_good d.

Lemma refines_extend to keys nc li :
  refines Rs Ks out_post (preflight_extend_ttl_op (FF := F1) to keys nc li) (preflight_extend_ttl_op (FF := F2) to keys nc li).
Proof.
  unfold preflight_extend_ttl_op. apply (refines_try_any (lifted post)); [apply refines_run_any|]. intros ar.
  apply (refines_bind_with Rs Ks (fun r => forall x, fst r = inl x -> xdr_bounded (td_xdr x) /\ (clean -> xdr_writes (td_xdr x))) out_post).
  { apply refines_run. eapply returns_mono; [|apply (returns_good _ (fun Q r => forall x, fst r = inl x -> Q (td_xdr x)))].
    - intros r [H1 H2] c Hc. split; [by apply H1|intros Hcl; by apply H2].
    - intros Q HQ. apply HQ. }
  intros [r ar'] Hr. simpl in Hr.
  apply (refines_bind_with Rs Ks restored_good out_post).
  - destruct r as [d|e].
    + apply (refines_bind_with Rs Ks (fun q => forall d, q = inl d -> data_good d) (same_with Ks restored_good)).
      * apply refines_run. eapply returns_mono; [|apply (returns_good _ (fun Q r => forall d, r = inl d -> each_data_of Q d))].
        -- intros q [H1 H2] c Hc. split; [by apply H1|intros Hcl; by apply H2].
        -- intros Q HQ. apply HQ.
      * intros q Hq w t Hw. eexists _, w. do 2 (split; [done|]). split; [done|]. split; [|done]. split; [|done].
        destruct (Hr d eq_refl) as [H1 H2]. split; [|intros Hc]; intros x [= <-]; auto.
    + intros w t Hw. eexists _, w. do 2 (split; [done|]). split; [done|]. split; [|done]. split; [|done].
      by split; intros.
  - intros [d q] [Hd Hq]. simpl in *. refines_call; [apply refines_extract|]. intros s.
    apply refines_lift, fr_data; [done|]. destruct q as [p|e]; [by apply Hq|by split; intros].
Qed.

Lemma refines_restore keys nc li :
  refines Rs Ks (lifted post) (preflight_restore_op (FF := F1) keys nc li) (preflight_restore_op (FF := F2) keys nc li).
Proof.
  unfold preflight_restore_op.
  apply (refines_bind_with Rs Ks (fun r => forall x, r = inl x -> xdr_bounded (td_xdr x) /\ (clean -> xdr_writes (td_xdr x))) (lifted post)).
  { apply refines_run. eapply returns_mono; [|apply (returns_good _ (fun Q r => forall x, r = inl x -> Q (td_xdr x)))].
    - intros r [H1 H2] c Hc. split; [by apply H1|intros Hcl; by apply H2].
    - intros Q HQ. apply HQ. }
  intros r Hr. refines_call; [apply refines_extract|]. intros s. apply refines_zoom1, fr_data; [|by split; intros].
  destruct r as [d|e]; [|by split; intros]. destruct (Hr d eq_refl). split; [|intros Hc]; intros x [= <-]; auto.
Qed.

Lemma refines_invoke_op x1 x2 a1 a2 l1 l2 leeway debug mode upgraded :
  buf_rel x1 x2 -> buf_rel a1 a2 -> same_ledger l1 l2 ->
  refines Rs Ks out_post
    (preflight_invoke_hf_op_or_maybe_panic (FF := F1) x1 a1 l1 leeway debug mode upgraded)
    (preflight_invoke_hf_op_or_maybe_panic (FF := F2) x2 a2 l2 leeway debug mode upgraded).
Proof.
  intros Hx Ha Hl. unfold preflight_invoke_hf_op_or_maybe_panic.
  refines_call; [by apply refines_from_xdr_unwrap|]. intros [hf entries].
  refines_call; [by apply refines_from_xdr_unwrap|]. intros acc.
  apply (refines_try_any (lifted post)); [apply refines_run_any|]. intros nc.
  refines_call; [by apply refines_fill|]. intros li.
  apply (refines_try_any (lifted post)); [refines_ret|]. intros lw. apply refines_post_autorestore.
Qed.

Lemma refines_footprint_op x1 x2 f1 f2 l1 l2 :
  buf_rel x1 x2 -> buf_rel f1 f2 -> same_ledger l1 l2 ->
  refines Rs Ks out_post
    (preflight_footprint_ttl_op_or_maybe_panic (FF := F1) x1 f1 l1)
    (preflight_footprint_ttl_op_or_maybe_panic (FF := F2) x2 f2 l2).
Proof.
  intros Hx Hf Hl. unfold preflight_footprint_ttl_op_or_maybe_panic.
  apply (refines_try_any (lifted post)); [by apply refines_from_xdr|]. intros body.
  apply (refines_try_any (lifted post)); [by apply refines_from_xdr|]. intros [ro rw].
  apply (refines_try_any (lifted post)); [apply refines_run_any|]. intros nc.
  refines_call; [by apply refines_fill|]. intros li. destruct body as [to| |d].
  - apply refines_extend.
  - intros w t Hw. pose proof (refines_restore rw nc li w t Hw) as Hr. simpl. unfold mbind, M_bind, mret, M_ret.
    destruct (preflight_restore_op (FF := F2) rw nc li t) as [[b|e|q] t']; [| |done].
    + destruct Hr as (a&w'&->&?&?). by exists (inl a), w'.
    + destruct Hr as (w'&->&?&?). by exists w'.
  - intros w t Hw. by eexists (inr _), w.
Qed.

End good_results.

End simulation.

(** ** lib.rs *)

Section lib.
Context `{RS : Rust} {W T Buf1 Buf2 Str1 Str2 Out1 Out2 : Type}.
Context (R : W -> T -> Prop) (K : relation W) `{!PreOrder K} (clean : Prop).
Context (post : Out1 -> Out2 -> W -> W -> Prop) `{HA : !Absorbs K post}.
Context (buf_rel : Buf1 -> Buf2 -> Prop) (str_rel : Str1 -> Str2 -> Prop).
Context {F1 : Ffi W Buf1 Str1 Out1} {F2 : Ffi T Buf2 Str2 Out2}.
Context `{FR : !FfiRefines R K clean post buf_rel str_rel F1 F2}.
Context (curr prev : Soroban) `{LC : !SorobanLaws curr} `{LP : !SorobanLaws prev}.
Context (HC : clean -> results_write curr /\ results_write prev).

Lemma refines_catch op spec :
  refines R K (sum_post K (E := AnyErr) post) op spec ->
  refines R K post (catch_preflight_panic op) (catch_preflight_panic spec).
Proof.
  intros Hop. unfold catch_preflight_panic. destruct spawn_error as [e|]; [by apply (fr_error R K clean post buf_rel str_rel)|].
  apply refines_attempt_post in Hop. intros w t Hw. specialize (Hop w t Hw). unfold mbind, M_bind.
  destruct (attempt spec t) as [[b|e|p] t1]; [| |done]; [|destruct Hop as (w1&->&?&?); by exists w1].
  destruct Hop as ([[a|e]|pa]&w1&->&Hw1&Hp); destruct b as [[b|e']|pb]; simpl in Hp; try done.
  - by eexists a, w1.
  - destruct Hp as [-> HK]. apply (answers_absorb R K _ _ w1 _ _ HK).
    by apply (fr_error R K clean post buf_rel str_rel).
  - destruct Hp as [-> HK]. apply (answers_absorb R K _ _ w1 _ _ HK).
    destruct (panic_payload pb); by apply (fr_error R K clean post buf_rel str_rel).
Qed.

Lemma refines_by_protocol proto op spec :
  (forall sb, SorobanLaws sb -> (clean -> results_write sb) -> refines R K (sum_post K (E := AnyErr) post) (op sb) (spec sb)) ->
  refines R K (sum_post K (E := AnyErr) post) (by_protocol curr prev proto op) (by_protocol curr prev proto spec).
Proof.
  intros Hop. unfold by_protocol.
  case_decide; [apply Hop; [done|intros; by apply HC]|]. case_decide; [apply Hop; [done|intros; by apply HC]|].
  intros w t Hw. by eexists (inr _), w.
Qed.

Lemma refines_with_storage_out m spec :
  refines (Rs R) (Ks K) (sum_post (Ks K) (E := AnyErr) (lifted post)) m spec ->
  refines R K (sum_post K (E := AnyErr) post) (with_storage m) (with_storage spec).
Proof. apply (refines_with_storage R K (sum_post K post)). Qed.

Lemma refines_preflight_invoke x1 x2 a1 a2 l1 l2 leeway debug mode upgraded :
  buf_rel x1 x2 -> buf_rel a1 a2 -> same_ledger str_rel l1 l2 ->
  refines R K post
    (preflight_invoke_hf_op (FF := F1) curr prev x1 a1 l1 leeway debug mode upgraded)
    (preflight_invoke_hf_op (FF := F2) curr prev x2 a2 l2 leeway debug mode upgraded).
Proof.
  intros Hx Ha Hl. apply refines_catch. rewrite (proj1 Hl). apply refines_by_protocol. intros sb Hlaws Hc.
  refines_call; [by apply refines_of_res, _|]. intros m.
  apply refines_with_storage_out. by eapply refines_invoke_op.
Qed.

Lemma refines_preflight_footprint x1 x2 f1 f2 l1 l2 :
  buf_rel x1 x2 -> buf_rel f1 f2 -> same_ledger str_rel l1 l2 ->
  refines R K post (preflight_footprint_ttl_op (FF := F1) curr prev x1 f1 l1) (preflight_footprint_ttl_op (FF := F2) curr prev x2 f2 l2).
Proof.
  intros Hx Hf Hl. apply refines_catch. rewrite (proj1 Hl). apply refines_by_protocol. intros sb Hlaws Hc.
  apply refines_with_storage_out. by eapply refines_footprint_op.
Qed.

End lib.
