(* ===== verification/Preflight.v ===== *)
(** * Preflights (internal/preflight/preflight.go)

    A preflight encodes its parameters into C memory, calls the Rust library,
    which asks for ledger entries through a cgo handle, and copies the result
    out.  [GetPreflight] is the code on the memory of Cgo.v; [GetPreflight_values]
    is what it computes, on plain values, with no memory to manage. *)

From Stdlib Require Import Ascii.
From S2P Require Import Prelude GoStd Sdk Tables DbTransaction DbLedger Db Protocol MethodJson GetTransactionsMethod Handlers LedgerEntries SimulateTransactionMethod Cgo HostLib.

(** The SDK's encodings of what is passed to the library *)
Class PreflightSdk `{SS : SimulateSdk} := {
  SafeUnmarshal_key : string -> Res LedgerKey;
  entry_MarshalBinary : LedgerEntry -> Res string;
  body_MarshalBinary : OperationBody -> Res string;
  invoke_MarshalBinary : OperationBody -> Res string; (* MustInvokeHostFunctionOp().MarshalBinary() *)
  account_MarshalBinary : AccountId -> Res string;
  footprint_MarshalBinary : LedgerFootprint -> Res string;
  InstructionLeeway : ResourceConfig -> Z;
}.

Section copy.
Context {H S : Type}.
Abbreviation world := (cworld H S).

(** ** Copying a result out *)

(** [unsafe.Slice(array, len)] *)
Definition GoXDRVector (xdrVector : vector_t) : M world (list string) :=
  if decide (vec_len xdrVector = 0) then mret []
  else
    inputSlice ← c_read (vec_array xdrVector);
    match inputSlice with
    | XdrArray l => if decide (vec_len xdrVector <= zlen l) then mapM GoXDR (take (Z.to_nat (vec_len xdrVector)) l)
                    else panic "heap overrun"
    | _ => panic "not an array"
    end.

Definition GoXDRDiff (v : xdr_diff_t) : M world XDRDiff :=
  before ← GoXDR (xd_before v);
  after ← GoXDR (xd_after v);
  mret (MkXDRDiff before after).

Definition GoXDRDiffVector (xdrDiffVector : vector_t) : M world (list XDRDiff) :=
  if decide (vec_len xdrDiffVector = 0) then mret []
  else
    inputSlice ← c_read (vec_array xdrDiffVector);
    match inputSlice with
    | DiffArray l => if decide (vec_len xdrDiffVector <= zlen l) then mapM GoXDRDiff (take (Z.to_nat (vec_len xdrDiffVector)) l)
                     else panic "heap overrun"
    | _ => panic "not an array"
    end.

(** The body of [GoPreflight] *)
Definition copy_result (result : Z) : M world Preflight :=
  r ← read_result result;
  error ← C_GoString (pr_error r);
  events ← GoXDRVector (pr_events r);
  transactionData ← GoXDR (pr_transaction_data r);
  res ← GoXDR (pr_result r);
  auth ← GoXDRVector (pr_auth r);
  preRestoreTransactionData ← GoXDR (pr_pre_restore_transaction_data r);
  ledgerEntryDiff ← GoXDRDiffVector (pr_ledger_entry_diff r);
  mret {|
    PF_Error := error;
    PF_Events := events;
    PF_TransactionData := transactionData;
    PF_MinFee := pr_min_fee r;
    PF_Result := res;
    PF_Auth := auth;
    PF_CPUInstructions := pr_cpu_instructions r;
    PF_MemoryBytes := pr_memory_bytes r;
    PF_PreRestoreTransactionData := preRestoreTransactionData;
    PF_PreRestoreMinFee := pr_pre_restore_min_fee r;
    PF_LedgerEntryDiff := ledgerEntryDiff;
  |}.

Definition GoPreflight (result : Z) : M world Preflight := deferred (free_preflight_result result) (copy_result result).

End copy.

Section Preflight.
Context `{ES : EntrySdk} `{X : Sdk} `{P : !RpcProtocol} `{CP : !CoreProtocol} `{SS : !SimulateSdk} `{PS : !PreflightSdk}.
Context `{RS : Rust} (curr prev : Host.Soroban).
Context {S : Type}.

(** [ledgerentries.LedgerEntryGetter], over the state [S] it reads *)
Definition LedgerEntryGetter : Type := list LedgerKey -> M S (list LedgerKeyAndEntry * Z).

(** The values behind handles: a [snapshotSourceHandle], or one of another type. *)
Inductive handle_value := HSnapshot (ledgerEntryGetter : LedgerEntryGetter) | HOther.

Abbreviation world := (cworld handle_value S).

Definition defaultBaseReserve : Z := 5000000.

Record Parameters := MkParameters {
  SourceAccount : AccountId;
  OpBody : OperationBody;
  Footprint : LedgerFootprint;
  Parameters_NetworkPassphrase : string;
  ParamsEntryGetter : LedgerEntryGetter;
  LedgerSeq : Z;
  LedgerTime : Z;
  BucketListSize : Z;
  Params_ResourceConfig : ResourceConfig;
  EnableDebug : bool;
  Params_AuthMode : string;
  Params_UseUpgradedAuth : bool;
  Params_ProtocolVersion : Z;
}.

(** ** The callbacks *)

(** The entry of a key and its time to live, a uint32: none when anything fails or
    there is not exactly one entry. *)
Definition snapshot_entry (getter : LedgerEntryGetter) (ledgerKeyXDR : string) : M S (option (string * option Z)) :=
  match SafeUnmarshal_key ledgerKeyXDR with
  | Panic m => panic m
  | Err _ => mret None
  | Ok ledgerKey =>
      r ← attempt (getter [ledgerKey]);
      match r with
      | inr _ => mret None
      | inl ([entry], _) =>
          match entry_MarshalBinary (LKE_Entry entry) with
          | Panic m => panic m
          | Err _ => mret None
          | Ok out => mret (Some (out, match LKE_LiveUntilLedgerSeq entry with Some seq => Some (u32 seq) | None => None end))
          end
      | inl _ => mret None
      end
  end.

Definition no_entry : ledger_entry_and_ttl_t := MkLedgerEntryAndTTL null_xdr 0.

Definition SnapshotSourceGet (handle : Z) (cLedgerKey : xdr_t) : M world ledger_entry_and_ttl_t :=
  v ← Handle_Value handle;
  match v with
  | HOther => panic "invalid handle type: expected snapshotSourceHandle"
  | HSnapshot getter =>
      ledgerKeyXDR ← GoXDR cLedgerKey;
      match SafeUnmarshal_key ledgerKeyXDR with
      | Panic m => panic m
      | Err _ => mret no_entry
      | Ok ledgerKey =>
          r ← attempt (on_store (getter [ledgerKey]));
          match r with
          | inr _ => mret no_entry
          | inl (entries, _) =>
              if decide (1 < zlen entries) then mret no_entry
              else match entries with
              | [] => mret no_entry
              | entry :: _ =>
                  match entry_MarshalBinary (LKE_Entry entry) with
                  | Panic m => panic m
                  | Err _ => mret no_entry
                  | Ok out =>
                      xdr ← CXDR out;
                      mret (MkLedgerEntryAndTTL xdr
                              (match LKE_LiveUntilLedgerSeq entry with Some seq => u32 seq | None => -1 end))
                  end
              end
          end
      end
  end.

Definition FreeGoLedgerEntryAndTTL (leTTL : ledger_entry_and_ttl_t) : M world unit := C_free (xdr_ptr (le_entry leTTL)).

(** ** [GetPreflight] *)

Definition getLedgerInfo (params : Parameters) : M world (ledger_info_t Z) :=
  network_passphrase ← C_CString (Parameters_NetworkPassphrase params);
  mret {| li_network_passphrase := network_passphrase;
          li_sequence_number := LedgerSeq params;
          li_protocol_version := Params_ProtocolVersion params;
          li_timestamp := LedgerTime params;
          li_base_reserve := defaultBaseReserve;
          li_bucket_list_size := BucketListSize params |}.

Definition freeLedgerInfo (ledgerInfo : ledger_info_t Z) : M world unit := C_free (li_network_passphrase ledgerInfo).

Definition getFootprintTTLPreflight (params : Parameters) : M world Preflight :=
  opBodyXDR ← of_res (body_MarshalBinary (OpBody params));
  opBodyCXDR ← CXDR opBodyXDR;
  deferred (FreeGoXDR opBodyCXDR) (
    footprintXDR ← map_err (EWrap "cannot marshal footprint") (of_res (footprint_MarshalBinary (Footprint params)));
    footprintCXDR ← CXDR footprintXDR;
    deferred (FreeGoXDR footprintCXDR) (
      handle ← NewHandle (HSnapshot (ParamsEntryGetter params));
      deferred (Handle_Delete handle) (
        ledgerInfo ← getLedgerInfo params;
        deferred (freeLedgerInfo ledgerInfo) (
          res ← C_preflight_footprint_ttl_op SnapshotSourceGet FreeGoLedgerEntryAndTTL curr prev
                  handle opBodyCXDR footprintCXDR ledgerInfo;
          GoPreflight res)))).

(** The number of an authorization mode on the Rust side *)
Definition auth_mode_number (mode : string) : Res Z :=
  if decide (mode = AuthModeEnforce) then Ok 0
  else if decide (mode = AuthModeRecord) then Ok 1
  else if decide (mode = AuthModeRecordAllowNonroot) then Ok 2
  else Err (EMsg ("invalid auth mode: '" +:+ mode +:+ "'")).

Definition getInvokeHostFunctionPreflight (params : Parameters) : M world Preflight :=
  invokeHostFunctionXDR ← of_res (invoke_MarshalBinary (OpBody params));
  invokeHostFunctionCXDR ← CXDR invokeHostFunctionXDR;
  deferred (FreeGoXDR invokeHostFunctionCXDR) (
    sourceAccountXDR ← of_res (account_MarshalBinary (SourceAccount params));
    sourceAccountCXDR ← CXDR sourceAccountXDR;
    deferred (FreeGoXDR sourceAccountCXDR) (
      handle ← NewHandle (HSnapshot (ParamsEntryGetter params));
      deferred (Handle_Delete handle) (
        authMode ← of_res (auth_mode_number (Params_AuthMode params));
        ledgerInfo ← getLedgerInfo params;
        deferred (freeLedgerInfo ledgerInfo) (
          res ← C_preflight_invoke_hf_op SnapshotSourceGet FreeGoLedgerEntryAndTTL curr prev
                  handle invokeHostFunctionCXDR sourceAccountCXDR ledgerInfo (InstructionLeeway (Params_ResourceConfig params))
                  (EnableDebug params) authMode (Params_UseUpgradedAuth params);
          GoPreflight res)))).

Definition GetPreflight (params : Parameters) : M world Preflight :=
  match body_Type (OpBody params) with
  | InvokeHostFunction => getInvokeHostFunctionPreflight params
  | ExtendFootprintTtl | RestoreFootprint => getFootprintTTLPreflight params
  | OtherOperation _ => fail (EMsg ("unsupported operation type: " +:+ OperationType_String (body_Type (OpBody params))))
  end.

(** ** The same on plain values *)

(** A result with nothing but an error *)
Definition error_preflight (error : string) : Preflight :=
  MkPreflight (strip_nul error) [] "" 0 "" [] 0 0 "" 0 [].

Definition unwrap_option (v : option WriteXdr) : Res string := match v with None => Ok "" | Some v => unwrap v end.

Definition unwrap_diff (d : Host.entry_diff) : Res XDRDiff :=
  before ← unwrap_option (Host.state_before d);
  after ← unwrap_option (Host.state_after d);
  Ok (MkXDRDiff before after).

(** The preamble: the data and the fee of the restore operation before. *)
Definition unwrap_preamble (p : option Host.tx_data) : Res (string * Z) :=
  match p with None => Ok ("", 0) | Some p => data ← unwrap (Host.td_xdr p); Ok (data, Host.resource_fee p) end.

Definition invoke_preflight {E} (r : Host.invoke_simulation E) (preamble : option Host.tx_data) (error : string) : Res Preflight :=
  auth ← res_map unwrap (Host.sim_auth r);
  result ← unwrap_option (match Host.sim_invoke_result r with inl v => Some v | inr _ => None end);
  transactionData ← unwrap_option (Host.td_xdr <$> Host.sim_transaction_data r);
  events ← res_map unwrap (Host.sim_diagnostic_events r);
  diffs ← res_map unwrap_diff (Host.sim_modified_entries r);
  '(preRestoreData, preRestoreFee) ← unwrap_preamble preamble;
  Ok (MkPreflight (strip_nul error) events transactionData (min_fee_of (Host.sim_transaction_data r)) result auth
        (Host.sim_instructions r) (Host.sim_memory r) preRestoreData preRestoreFee diffs).

Definition data_preflight (data : option Host.tx_data) (preamble : option Host.tx_data) (error : string) : Res Preflight :=
  transactionData ← unwrap_option (Host.td_xdr <$> data);
  '(preRestoreData, preRestoreFee) ← unwrap_preamble preamble;
  Ok (MkPreflight (strip_nul error) [] transactionData (min_fee_of data) "" [] 0 0 preRestoreData preRestoreFee []).

Definition value_ffi (getter : LedgerEntryGetter) : Ffi S string string Preflight := {|
  ffi_xdr := fun b => mret b;
  ffi_string := fun s => mret (until_nul s);
  ffi_get := snapshot_entry getter;
  new_from_invoke := fun E r p e => of_res (invoke_preflight r p e);
  new_from_transaction_data := fun d p e => of_res (data_preflight d p e);
  preflight_error := fun e => mret (error_preflight e);
|}.

Definition ledger_of (params : Parameters) : ledger_info_t string :=
  MkLedgerInfoC (Params_ProtocolVersion params) (LedgerSeq params) (LedgerTime params)
    (Parameters_NetworkPassphrase params) defaultBaseReserve (BucketListSize params).

Definition GetPreflight_values (params : Parameters) : M S Preflight :=
  let ffi := value_ffi (ParamsEntryGetter params) in
  match body_Type (OpBody params) with
  | InvokeHostFunction =>
      invokeHostFunctionXDR ← of_res (invoke_MarshalBinary (OpBody params));
      sourceAccountXDR ← of_res (account_MarshalBinary (SourceAccount params));
      authMode ← of_res (auth_mode_number (Params_AuthMode params));
      preflight_invoke_hf_op (FF := ffi) curr prev invokeHostFunctionXDR sourceAccountXDR (ledger_of params)
        (InstructionLeeway (Params_ResourceConfig params)) (EnableDebug params) authMode (Params_UseUpgradedAuth params)
  | ExtendFootprintTtl | RestoreFootprint =>
      opBodyXDR ← of_res (body_MarshalBinary (OpBody params));
      footprintXDR ← map_err (EWrap "cannot marshal footprint") (of_res (footprint_MarshalBinary (Footprint params)));
      preflight_footprint_ttl_op (FF := ffi) curr prev opBodyXDR footprintXDR (ledger_of params)
  | OtherOperation _ => fail (EMsg ("unsupported operation type: " +:+ OperationType_String (body_Type (OpBody params))))
  end.

End Preflight.

(** ** Behind the worker pool *)

Section pool.
Context `{ND : Nondet} `{ES : EntrySdk} `{FC : !FastCoreClient} `{X : Sdk} `{P : !RpcProtocol} `{CP : !CoreProtocol} `{SS : !SimulateSdk} `{PS : !PreflightSdk}.
Context `{RS : Rust} (curr prev : Host.Soroban) (networkPassphrase : string) (enableDebug : bool).

(** The parameters of a worker, in [WorkerPool.GetPreflight]; the wrapper of the
    getter answers what the getter does. *)
Definition preflightParams (params : GetterParameters) : Parameters (S := DB) :=
  {| SourceAccount := GP_SourceAccount params;
     OpBody := GP_OperationBody params;
     Parameters_NetworkPassphrase := networkPassphrase;
     ParamsEntryGetter := GetLedgerEntries (GP_LedgerEntryGetter params);
     LedgerSeq := GP_LedgerSeq params;
     LedgerTime := GP_LedgerTime params;
     BucketListSize := GP_BucketListSize params;
     Footprint := GP_Footprint params;
     Params_ResourceConfig := GP_ResourceConfig params;
     EnableDebug := enableDebug;
     Params_AuthMode := GP_AuthMode params;
     Params_UseUpgradedAuth := GP_UseUpgradedAuth params;
     Params_ProtocolVersion := GP_ProtocolVersion params |}.

(** The getter of simulateTransaction: its state is that of the entry getter. *)
Definition pool_getter (params : GetterParameters) : M DB Preflight :=
  GetPreflight_values curr prev (preflightParams params).

End pool.
