(* ===== verification/PreflightMemory.v ===== *)
(** * The memory of a preflight

    What the Rust library builds, what the Go code reads of it and what is
    freed, as owned blocks; then the refinement of the plain values by the code
    on memory. *)

From Stdlib Require Import Ascii.
From S2P Require Import Prelude GoStd Sdk Tables DbTransaction DbLedger Db Protocol MethodJson GetTransactionsMethod Handlers LedgerEntries SimulateTransactionMethod Cgo CgoLogic HostLib HostRefines Preflight.

(** ** What represents what *)

Section rep.
Context {H S : Type}.
Abbreviation world := (cworld H S).

Definition xdr_rep (x : xdr_t) (b : string) (bs : list (Z * block)) : Prop :=
  xdr_len x = slen b /\ slen b < 2 ^ 31 /\
  ((b = "" /\ bs = []) \/ (b ≠ "" /\ xdr_ptr x ≠ 0 /\ bs = [(xdr_ptr x, Bytes Rust_alloc b)])).

Definition diff_rep (d : xdr_diff_t) (v : XDRDiff) (bs : list (Z * block)) : Prop :=
  exists b1 b2, xdr_rep (xd_before d) (Before v) b1 /\ xdr_rep (xd_after d) (After v) b2 /\ bs ≡ₚ b1 ++ b2.

Inductive list_rep {A B} (rep : A -> B -> list (Z * block) -> Prop) : list A -> list B -> list (Z * block) -> Prop :=
  | list_rep_nil : list_rep rep [] [] []
  | list_rep_cons x y b xs ys bs bs' : rep x y b -> list_rep rep xs ys bs -> bs' ≡ₚ b ++ bs ->
      list_rep rep (x :: xs) (y :: ys) bs'.

Definition vec_rep {A B} (wrap : list A -> block) (rep : A -> B -> list (Z * block) -> Prop)
    (v : vector_t) (ys : list B) (bs : list (Z * block)) : Prop :=
  vec_len v = zlen ys /\
  ((ys = [] /\ bs = []) \/
   (ys ≠ [] /\ vec_array v ≠ 0 /\ exists xs bs', list_rep rep xs ys bs' /\ bs ≡ₚ bs' ++ [(vec_array v, wrap xs)])).

Lemma list_rep_length {A B} (rep : A -> B -> _ -> Prop) xs ys bs : list_rep rep xs ys bs -> length xs = length ys.
Proof. induction 1; simpl; congruence. Qed.

(** *** Building *)

Lemma bytes_to_c_builds v : slen v < 2 ^ 31 -> builds (H := H) (S := S) xdr_rep (bytes_to_c v) (Ok v).
Proof.
  intros Hv. unfold bytes_to_c. case_decide as E.
  - subst. apply builds_ret. split_and!; [done|done|by left].
  - apply (builds_bind (fun p _ bs => 16 <= p /\ bs = [(p, Bytes Rust_alloc v)]) _ (c_alloc (Bytes Rust_alloc v)) (Ok tt) _ (fun _ => Ok v)).
    + apply builds_alloc. done.
    + intros p _ bs1 [Hp ->]. apply builds_ret. split_and!; [done|done|right]. split_and!; [done|simpl; lia|done].
Qed.

Lemma xdr_to_c_builds v : xdr_bounded v -> builds (H := H) (S := S) xdr_rep (xdr_to_c v) (unwrap v).
Proof.
  intros Hv w Hf. unfold xdr_to_c, mbind, M_bind, of_res. destruct v as [b|e]; simpl.
  - by apply bytes_to_c_builds; [apply Hv|].
  - exists w. by repeat split; try apply Hf.
Qed.

Lemma option_xdr_to_c_builds v : (forall x, v = Some x -> xdr_bounded x) ->
  builds (H := H) (S := S) xdr_rep (option_xdr_to_c v) (unwrap_option v).
Proof.
  intros Hv. destruct v as [x|]; simpl; [by apply xdr_to_c_builds, Hv|].
  apply builds_ret. split_and!; [done|done|by left].
Qed.

Lemma diff_to_c_builds d :
  (forall v, Host.state_before d = Some v -> xdr_bounded v) -> (forall v, Host.state_after d = Some v -> xdr_bounded v) ->
  builds (H := H) (S := S) diff_rep (ledger_entry_diff_to_c d) (unwrap_diff d).
Proof.
  intros Hb Ha. eapply builds_bind; [by apply option_xdr_to_c_builds|]. intros x b bs1 H1.
  eapply builds_bind; [by apply option_xdr_to_c_builds|]. intros y a bs2 H2. apply builds_ret.
  exists bs1, bs2. split_and!; [done|done|]. apply Permutation_app_comm.
Qed.

Lemma mapM_builds {A A' B} (rep : A' -> B -> _ -> Prop) (f : A -> M world A') (g : A -> Res B) l :
  (forall x, x ∈ l -> builds rep (f x) (g x)) -> builds (list_rep rep) (mapM f l) (res_map g l).
Proof.
  induction l as [|x l IH]; intros Hl; [apply builds_ret; constructor|]. csimpl.
  eapply builds_bind; [apply Hl; left|]. intros a b bs1 H1.
  eapply builds_bind; [apply IH; intros y Hy; apply Hl; by right|]. intros xs ys bs2 H2. apply builds_ret.
  econstructor; [exact H1|exact H2|]. apply Permutation_app_comm.
Qed.

(** A list of what was built, in an array of its own. *)
Lemma array_builds {A A' B} (wrap : list A' -> block) (rep : A' -> B -> _ -> Prop) (f : A -> M world A') (g : A -> Res B)
    (to_c : list A' -> M world vector_t) l :
  (forall x, x ∈ l -> builds rep (f x) (g x)) ->
  (forall v, to_c v = match v with [] => mret (MkVector 8 0) | _ => p ← c_alloc (wrap v); mret (MkVector p (zlen v)) end) ->
  builds (vec_rep wrap rep) (v ← mapM f l; to_c v) (res_map g l).
Proof.
  intros Hl Hto w Hf.
  assert (builds (vec_rep wrap rep) (v ← mapM f l; to_c v) (ys ← res_map g l; Ok ys)) as Hb.
  { eapply builds_bind; [by apply mapM_builds|]. intros xs ys bs1 H1. rewrite Hto.
    pose proof (list_rep_length _ _ _ _ H1) as Hlen. destruct xs as [|x xs].
    - inversion H1; subst. apply builds_ret. split; [done|by left].
    - apply (builds_bind (fun p _ bs => 16 <= p /\ bs = [(p, wrap (x :: xs))]) _ (c_alloc (wrap (x :: xs))) (Ok tt) _ (fun _ => Ok ys)).
      + apply builds_alloc. done.
      + intros p _ bs2 [Hp ->]. apply builds_ret. split; [unfold zlen; cbn [vec_len]; by f_equal|]. right.
        split_and!; [by intros ->|simpl; lia|]. exists (x :: xs), bs1. split; [done|]. apply Permutation_app_comm. }
  specialize (Hb w Hf). by destruct (res_map g l).
Qed.

(** *** Reading *)

Lemma xdr_reads x b bs bs' : xdr_rep x b bs -> (forall y, y ∈ bs -> y ∈ bs') -> reads (H := H) (S := S) bs' (GoXDR x) b.
Proof.
  intros (Hl&Hb&Hr) Hin. unfold GoXDR, C_GoBytes. rewrite Hl, i32_slen by done.
  pose proof (Nat2Z.is_nonneg (String.length b)). rewrite decide_False by (unfold slen; lia).
  destruct Hr as [[-> ->]|(Hne&Hp&->)]; [rewrite decide_True by done; apply reads_ret|].
  rewrite decide_False by (by rewrite slen_nil). apply (read_bytes_reads _ _ Rust_alloc), Hin. by left.
Qed.

Lemma diff_reads d v bs bs' : diff_rep d v bs -> (forall y, y ∈ bs -> y ∈ bs') -> reads (H := H) (S := S) bs' (GoXDRDiff d) v.
Proof.
  intros (b1&b2&H1&H2&Hp) Hin.
  eapply reads_bind; [eapply xdr_reads; [exact H1|]; intros y Hy; apply Hin; rewrite Hp; apply elem_of_app; by left|].
  eapply reads_bind; [eapply xdr_reads; [exact H2|]; intros y Hy; apply Hin; rewrite Hp; apply elem_of_app; by right|].
  destruct v. apply reads_ret.
Qed.

Lemma mapM_reads {A B} (rep : A -> B -> _ -> Prop) (f : A -> M world B) bs' xs ys bs :
  (forall x y b, rep x y b -> (forall z, z ∈ b -> z ∈ bs') -> reads bs' (f x) y) ->
  list_rep rep xs ys bs -> (forall z, z ∈ bs -> z ∈ bs') -> reads bs' (mapM f xs) ys.
Proof.
  intros Hf Hl. induction Hl as [|x y b xs ys bs bs2 Hxy Hl IH Hp]; intros Hin; [apply reads_ret|]. csimpl.
  eapply reads_bind; [eapply Hf; [exact Hxy|]; intros z Hz; apply Hin; rewrite Hp; apply elem_of_app; by left|].
  eapply reads_bind; [apply IH; intros z Hz; apply Hin; rewrite Hp; apply elem_of_app; by right|]. apply reads_ret.
Qed.

Lemma zlen_0 {A} (l : list A) : zlen l = 0 -> l = [].
Proof. destruct l; [done|]. unfold zlen. simpl. lia. Qed.

Lemma vector_reads v ys bs bs' : vec_rep XdrArray xdr_rep v ys bs -> (forall z, z ∈ bs -> z ∈ bs') ->
  reads (H := H) (S := S) bs' (GoXDRVector v) ys.
Proof.
  intros (Hl&[[-> ->]|(Hne&Hp&xs&b&Hxs&Hb)]) Hin; unfold GoXDRVector; rewrite Hl; [apply reads_ret|].
  rewrite decide_False by (by intros ?%zlen_0).
  eapply reads_bind; [apply reads_block, Hin; rewrite Hb; apply elem_of_app; right; by left|]. simpl.
  pose proof (list_rep_length _ _ _ _ Hxs) as Hlen. rewrite decide_True by (unfold zlen; lia).
  rewrite take_ge by (unfold zlen; lia). eapply (mapM_reads xdr_rep); [intros; by eapply xdr_reads|exact Hxs|].
  intros z Hz. apply Hin. rewrite Hb. apply elem_of_app. by left.
Qed.

Lemma diff_vector_reads v ys bs bs' : vec_rep DiffArray diff_rep v ys bs -> (forall z, z ∈ bs -> z ∈ bs') ->
  reads (H := H) (S := S) bs' (GoXDRDiffVector v) ys.
Proof.
  intros (Hl&[[-> ->]|(Hne&Hp&xs&b&Hxs&Hb)]) Hin; unfold GoXDRDiffVector; rewrite Hl; [apply reads_ret|].
  rewrite decide_False by (by intros ?%zlen_0).
  eapply reads_bind; [apply reads_block, Hin; rewrite Hb; apply elem_of_app; right; by left|]. simpl.
  pose proof (list_rep_length _ _ _ _ Hxs) as Hlen. rewrite decide_True by (unfold zlen; lia).
  rewrite take_ge by (unfold zlen; lia). eapply (mapM_reads diff_rep); [intros; by eapply diff_reads|exact Hxs|].
  intros z Hz. apply Hin. rewrite Hb. apply elem_of_app. by left.
Qed.

(** *** Freeing *)

Lemma xdr_frees x b bs : xdr_rep x b bs -> frees (H := H) (S := S) bs (free_c_xdr x).
Proof.
  intros (Hl&Hb&Hr). unfold free_c_xdr. destruct Hr as [[-> ->]|(Hne&Hp&->)].
  - rewrite decide_True by (by right). apply frees_ret.
  - rewrite decide_False by (rewrite Hl, slen_nil; tauto).
    eapply reads_frees; [apply reads_block; by left|by intros z Hz; exact Hz|]. simpl. rewrite decide_True by done.
    apply (frees_block _ (Bytes Rust_alloc b)).
Qed.

Lemma diff_frees d v bs : diff_rep d v bs -> frees (H := H) (S := S) bs (free_c_xdr_diff d).
Proof. intros (b1&b2&H1&H2&->). apply frees_then; by eapply xdr_frees. Qed.

Lemma for_each_frees {A B} (rep : A -> B -> _ -> Prop) (f : A -> M world unit) xs ys bs :
  (forall x y b, rep x y b -> frees b (f x)) -> list_rep rep xs ys bs -> frees bs (for_each xs f).
Proof.
  intros Hf. induction 1 as [|x y b xs ys bs bs' Hxy Hl IH Hp]; [apply frees_ret|]. rewrite Hp.
  apply frees_then; [by eapply Hf|done].
Qed.

Lemma vector_frees v ys bs : vec_rep XdrArray xdr_rep v ys bs -> frees (H := H) (S := S) bs (free_c_xdr_array v).
Proof.
  intros (Hl&[[-> ->]|(Hne&Hp&xs&b&Hxs&Hb)]); unfold free_c_xdr_array; rewrite Hl.
  - rewrite decide_True by (by right). apply frees_ret.
  - rewrite decide_False by (intros [?|?%zlen_0]; done). rewrite Hb.
    eapply reads_frees; [apply reads_block, elem_of_app; right; by left|by intros z Hz; exact Hz|]. simpl.
    pose proof (list_rep_length _ _ _ _ Hxs) as Hlen. rewrite decide_True by (unfold zlen; lia).
    apply frees_then; [eapply (for_each_frees xdr_rep); [intros; by eapply xdr_frees|done]|apply (frees_block _ (XdrArray xs))].
Qed.

Lemma diff_vector_frees v ys bs : vec_rep DiffArray diff_rep v ys bs -> frees (H := H) (S := S) bs (free_c_xdr_diff_array v).
Proof.
  intros (Hl&[[-> ->]|(Hne&Hp&xs&b&Hxs&Hb)]); unfold free_c_xdr_diff_array; rewrite Hl.
  - rewrite decide_True by (by right). apply frees_ret.
  - rewrite decide_False by (intros [?|?%zlen_0]; done). rewrite Hb.
    eapply reads_frees; [apply reads_block, elem_of_app; right; by left|by intros z Hz; exact Hz|]. simpl.
    pose proof (list_rep_length _ _ _ _ Hxs) as Hlen. rewrite decide_True by (unfold zlen; lia).
    apply frees_then; [eapply (for_each_frees diff_rep); [intros; by eapply diff_frees|done]|apply (frees_block _ (DiffArray xs))].
Qed.

End rep.

(** ** Results *)

Section results.
Context {H S : Type}.
Abbreviation world := (cworld H S).

(** The parts of a result, in the order they are freed. *)
Definition result_rep (r : preflight_result_t) (v : Preflight) (bs : list (Z * block)) : Prop :=
  exists b1 b2 b3 b4 b5 b6 b7,
    cstr_rep (pr_error r) (PF_Error v) b1 /\ vec_rep XdrArray xdr_rep (pr_auth r) (PF_Auth v) b2 /\
    xdr_rep (pr_result r) (PF_Result v) b3 /\ xdr_rep (pr_transaction_data r) (PF_TransactionData v) b4 /\
    vec_rep XdrArray xdr_rep (pr_events r) (PF_Events v) b5 /\
    xdr_rep (pr_pre_restore_transaction_data r) (PF_PreRestoreTransactionData v) b6 /\
    vec_rep DiffArray diff_rep (pr_ledger_entry_diff r) (PF_LedgerEntryDiff v) b7 /\
    pr_min_fee r = PF_MinFee v /\ pr_cpu_instructions r = PF_CPUInstructions v /\
    pr_memory_bytes r = PF_MemoryBytes v /\ pr_pre_restore_min_fee r = PF_PreRestoreMinFee v /\
    bs ≡ₚ b1 ++ b2 ++ b3 ++ b4 ++ b5 ++ b6 ++ b7.

(** *** Building a result *)

Lemma null_xdr_rep : xdr_rep null_xdr "" [].
Proof. split_and!; [done|done|by left]. Qed.

Lemma null_vec_rep {A B} wrap (rep : A -> B -> _ -> Prop) p : vec_rep wrap rep (MkVector p 0) [] [].
Proof. split; [done|by left]. Qed.

(** The result with its preamble *)
Definition with_preamble (v : Preflight) (data : string) (fee : Z) : Preflight :=
  MkPreflight (PF_Error v) (PF_Events v) (PF_TransactionData v) (PF_MinFee v) (PF_Result v) (PF_Auth v)
    (PF_CPUInstructions v) (PF_MemoryBytes v) data fee (PF_LedgerEntryDiff v).

Lemma set_preamble_builds r p v bs0 :
  each_data_of xdr_bounded p -> pr_pre_restore_transaction_data r = null_xdr -> PF_PreRestoreTransactionData v = "" ->
  result_rep r v bs0 -> pr_pre_restore_min_fee r = 0 ->
  builds (H := H) (S := S) (fun r' v' bs => result_rep r' v' (bs ++ bs0)) (set_preamble r p)
    ('(data, fee) ← unwrap_preamble p; Ok (with_preamble v data fee)).
Proof.
  intros Hp Hr Hv (b1&b2&b3&b4&b5&b6&b7&H1&H2&H3&H4&H5&H6&H7&E1&E2&E3&E4&Hb) Hz.
  rewrite Hr, Hv in H6. destruct H6 as (_&_&[[_ ->]|(?&_)]); [|done].
  destruct p as [p|]; simpl.
  - assert (forall (A B C : Type) (m : Res A) (f : A -> B) (k : B -> Res C), (x ← (a ← m; Ok (f a)); k x) = (a ← m; k (f a))) as Ha.
    { intros. by destruct m. }
    rewrite (Ha _ _ _ _ (fun data => (data, Host.resource_fee p))).
    eapply builds_bind; [by apply xdr_to_c_builds, Hp|]. intros x data bs H6. apply builds_ret.
    exists b1, b2, b3, b4, b5, bs, b7. split_and!; try done. rewrite Hb. simpl. solve_Permutation.
  - apply builds_ret. exists b1, b2, b3, b4, b5, [], b7. split_and!; try done; [by rewrite Hr; apply null_xdr_rep].
Qed.

Lemma invoke_result_builds {E} (r : Host.invoke_simulation E) p e :
  each_xdr xdr_bounded r -> each_data_of xdr_bounded p ->
  builds (H := H) (S := S) result_rep (new_cpreflight_result_from_invoke_host_function r p e) (invoke_preflight r p e).
Proof.
  intros [Hauth Hres Hdata Hev Hbef Haft] Hp. rewrite Forall_forall in Hauth, Hev.
  unfold new_cpreflight_result_from_invoke_host_function.
  apply (builds_bind (fun p _ bs => cstr_rep p (strip_nul e) bs) _ _ (Ok tt) _ (fun _ => invoke_preflight r p e));
    [apply string_to_c_builds|]. intros pe _ b1 H1. unfold invoke_preflight.
  eapply builds_bind; [apply (array_builds XdrArray xdr_rep); [intros; by apply xdr_to_c_builds, Hauth|by intros []]|].
  intros va auth b2 H2.
  eapply builds_bind; [apply option_xdr_to_c_builds; intros x Hx; apply Hres; by destruct (Host.sim_invoke_result r); simplify_eq|].
  intros xr res b3 H3.
  eapply builds_bind; [apply option_xdr_to_c_builds; intros x (d&Hd&->)%fmap_Some; by apply Hdata|].
  intros xd data b4 H4.
  eapply builds_bind; [apply (array_builds XdrArray xdr_rep); [intros; by apply xdr_to_c_builds, Hev|by intros []]|].
  intros ve evs b5 H5.
  eapply builds_bind; [apply (array_builds DiffArray diff_rep); [|by intros []]; intros d Hd;
    apply diff_to_c_builds; intros x Hx; [by eapply Hbef|by eapply Haft]|].
  intros vd diffs b7 H7.
  eapply builds_mono; [|apply (set_preamble_builds _ p (MkPreflight (strip_nul e) evs data (min_fee_of (Host.sim_transaction_data r))
    res auth (Host.sim_instructions r) (Host.sim_memory r) "" 0 diffs) (b7 ++ b5 ++ b4 ++ b3 ++ b2 ++ b1)); [done|done|done| |done]].
  - intros a b bs Hr. by rewrite <- !(assoc_L (++)).
  - exists b1, b2, b3, b4, b5, [], b7. split_and!; try done; [apply null_xdr_rep|solve_Permutation].
Qed.

(** A default result whose error is set: the empty error is freed. *)
Lemma default_error_builds {A B} (g : preflight_result_t -> preflight_result_t) e (rep : A -> B -> _ -> Prop) k spec :
  (forall d, pr_error (g d) = pr_error d) ->
  (forall p p0 b, cstr_rep p (strip_nul e) b -> builds (fun a v bs => rep a v (bs ++ b)) (k (with_error p (g (default_result p0)))) spec) ->
  builds (H := H) (S := S) rep (d ← default_preflight_result; r ← set_error (g d) e; k r) spec.
Proof.
  intros Hg Hk w Hf. pose proof (heap_next_fresh w Hf) as Hx. pose proof Hf as (Hn&_&_).
  set (b := Bytes Rust_alloc (with_nul (strip_nul e))).
  set (w1 := MkCworld (<[c_next w + 1 := b]> (c_heap w)) (c_next w + 1 + 1) (c_handles w) (c_nextHandle w) (c_store w)).
  assert ((d ← default_preflight_result; r ← set_error (g d) e; k r) w =
    k (with_error (c_next w + 1) (g (default_result (c_next w)))) w1) as ->.
  { unfold default_preflight_result, set_error, free_c_string, string_to_c, read_c_str, c_read, c_alloc, c_dealloc.
    unfold mbind, M_bind, mret, M_ret. rewrite Hg. cbn [default_result pr_error c_next]. rewrite decide_False by lia. simpl.
    rewrite lookup_insert_eq. simpl. rewrite ?lookup_insert_eq. simpl. rewrite ?decide_True by done. unfold set_heap. simpl.
    by rewrite delete_insert_id. }
  assert (cstr_rep (c_next w + 1) (strip_nul e) [(c_next w + 1, b)]) as Hc by (split_and!; [lia|apply until_strip|done]).
  assert (grows w [(c_next w + 1, b)] w1) as Hg1.
  { split; simpl; [|by apply NoDup_singleton|apply Forall_singleton; lia|lia|done].
    unfold blocks. simpl. by rewrite <- insert_union_l, (left_id_L ∅ (∪)). }
  specialize (Hk _ (c_next w) _ Hc w1 (grows_fresh _ _ _ Hf Hg1)). destruct spec as [v|x|]; [| |done].
  - destruct Hk as (a&w2&bs&->&Hg2&Hr). eexists _, _, _. split; [done|]. split; [by eapply grows_trans|done].
  - destruct Hk as (w2&->&Hl). eexists. split; [done|]. eapply leaks_trans; [by eapply grows_leaks|done].
Qed.

Lemma error_result_builds e : builds (H := H) (S := S) result_rep (preflight_error_c e) (Ok (error_preflight e)).
Proof.
  intros w Hf. unfold preflight_error_c.
  assert (builds result_rep (d ← default_preflight_result (H := H) (S := S); r ← set_error d e; mret r) (Ok (error_preflight e))) as Hb.
  { apply (default_error_builds id); [done|]. intros p p0 b Hp. apply builds_ret.
    exists b, [], [], [], [], [], []. split_and!; try done; try apply null_vec_rep; try apply null_xdr_rep.
    simpl. by rewrite app_nil_r. }
  specialize (Hb w Hf). unfold mbind, M_bind, mret, M_ret in *. destruct (default_preflight_result w) as [[d|x|x] w1]; try done.
  by destruct (set_error d e w1) as [[r|x|x] w2].
Qed.

Lemma data_result_builds d p e :
  each_data_of xdr_bounded d -> each_data_of xdr_bounded p ->
  builds (H := H) (S := S) result_rep (new_cpreflight_result_from_transaction_data d p e) (data_preflight d p e).
Proof.
  intros Hd Hp. unfold new_cpreflight_result_from_transaction_data, data_preflight.
  eapply builds_bind; [apply option_xdr_to_c_builds; intros x (y&Hy&->)%fmap_Some; by apply Hd|].
  intros xd data b4 H4.
  apply (default_error_builds (fun r => MkPreflightResult (pr_error r) (pr_auth r) (pr_result r) xd (min_fee_of d)
    (pr_events r) 0 0 (pr_pre_restore_transaction_data r) 0 (pr_ledger_entry_diff r))); [done|]. intros pe p0 b1 H1.
  eapply builds_mono; [|apply (set_preamble_builds _ p (MkPreflight (strip_nul e) [] data (min_fee_of d) "" [] 0 0 "" 0 []) (b1 ++ b4));
    [done|done|done| |done]].
  - intros a b bs Hr. by rewrite <- !(assoc_L (++)).
  - exists b1, [], [], b4, [], [], []. split_and!; try done; try apply null_vec_rep; try apply null_xdr_rep.
    simpl. by rewrite !app_nil_r.
Qed.

(** *** Reading and freeing a result *)

Lemma read_result_reads bs p r : (p, ResultBox r) ∈ bs -> reads (H := H) (S := S) bs (read_result p) r.
Proof. intros Hp. unfold read_result. eapply reads_bind; [by apply reads_block|]. apply reads_ret. Qed.

Lemma result_reads p r v bs bs' : result_rep r v bs -> (p, ResultBox r) ∈ bs' -> (forall z, z ∈ bs -> z ∈ bs') ->
  reads (H := H) (S := S) bs' (copy_result p) v.
Proof.
  intros (b1&b2&b3&b4&b5&b6&b7&H1&H2&H3&H4&H5&H6&H7&E1&E2&E3&E4&Hb) Hr Hin.
  assert (forall z, z ∈ b1 ++ b2 ++ b3 ++ b4 ++ b5 ++ b6 ++ b7 -> z ∈ bs') as Hall by (intros z; rewrite <- Hb; apply Hin).
  repeat setoid_rewrite elem_of_app in Hall. unfold copy_result.
  eapply reads_bind; [by apply read_result_reads|].
  eapply reads_bind; [eapply cstr_reads; [exact H1|]; auto|].
  eapply reads_bind; [eapply vector_reads; [exact H5|]; auto 10|].
  eapply reads_bind; [eapply xdr_reads; [exact H4|]; auto 10|].
  eapply reads_bind; [eapply xdr_reads; [exact H3|]; auto 10|].
  eapply reads_bind; [eapply vector_reads; [exact H2|]; auto 10|].
  eapply reads_bind; [eapply xdr_reads; [exact H6|]; auto 10|].
  eapply reads_bind; [eapply diff_vector_reads; [exact H7|]; auto 10|].
  rewrite E1, E2, E3, E4. destruct v. apply reads_ret.
Qed.

Lemma result_frees p r v bs : p ≠ 0 -> result_rep r v bs ->
  frees (H := H) (S := S) (bs ++ [(p, ResultBox r)]) (free_preflight_result p).
Proof.
  intros Hp (b1&b2&b3&b4&b5&b6&b7&H1&H2&H3&H4&H5&H6&H7&E1&E2&E3&E4&Hb). rewrite Hb.
  unfold free_preflight_result. rewrite decide_False by done.
  eapply reads_frees; [apply read_result_reads, elem_of_app; right; by left|by intros z Hz; exact Hz|].
  rewrite <- !(assoc_L (++)).
  apply frees_then; [by eapply cstr_frees|]. apply frees_then; [by eapply vector_frees|].
  apply frees_then; [by eapply xdr_frees|]. apply frees_then; [by eapply xdr_frees|].
  apply frees_then; [by eapply vector_frees|]. apply frees_then; [by eapply xdr_frees|].
  apply frees_then; [by eapply diff_vector_frees|]. apply (frees_block p (ResultBox r)).
Qed.

(** A result is copied and its memory given back. *)
Lemma GoPreflight_exact w r v bs p h :
  c_heap w = blocks (bs ++ [(p, ResultBox r)]) ∪ h -> NoDup (bs ++ [(p, ResultBox r)]).*1 ->
  (forall q, q ∈ (bs ++ [(p, ResultBox r)]).*1 -> h !! q = None) -> p ≠ 0 -> result_rep r v bs ->
  GoPreflight p w = (Ok v, set_heap (H := H) (S := S) h w).
Proof.
  intros Hw Hn Hd Hp Hr. unfold GoPreflight, deferred. erewrite result_reads; [|exact Hr| | |].
  - by rewrite (result_frees p r v bs Hp Hr w h).
  - instantiate (1 := bs ++ [(p, ResultBox r)]). apply elem_of_app. right. by left.
  - intros z Hz. apply elem_of_app. by left.
  - intros q b Hq. by eapply owned_lookup.
Qed.

End results.
