(* ===== verification/PreflightRefines.v ===== *)
(** * The preflight on memory refines the preflight on values *)

From Stdlib Require Import Ascii.
From S2P Require Import Prelude GoStd Sdk Tables DbTransaction DbLedger Db Protocol ProtocolExample SdkExample MethodJson GetTransactionsMethod Handlers LedgerEntries SimulateTransactionMethod Cgo CgoLogic HostLib HostRefines Preflight PreflightMemory.

Section refines.
Context `{ES : EntrySdk} `{X : Sdk} `{P : !RpcProtocol} `{CP : !CoreProtocol} `{SS : !SimulateSdk} `{PS : !PreflightSdk}.
Context `{RS : Rust} {S : Type} (clean : Prop).
Abbreviation world := (cworld (handle_value (S := S)) S).
Abbreviation K := (@kept (handle_value (S := S)) S clean).
Implicit Types (L : gmap Z block) (hs : gmap Z (handle_value (S := S))) (w : world) (s : S).

(** *** Writes that cannot fail *)

Lemma unwrap_writes v : xdr_writes v -> exists b, unwrap v = Ok b.
Proof. intros [b ->]. by exists b. Qed.

Lemma unwrap_option_writes v : (forall x, v = Some x -> xdr_writes x) -> exists b, unwrap_option v = Ok b.
Proof. intros Hv. destruct v as [x|]; [by apply unwrap_writes, Hv|by exists ""]. Qed.

Lemma res_map_writes {A B} (f : A -> Res B) l : (forall x, x ∈ l -> exists y, f x = Ok y) -> exists ys, res_map f l = Ok ys.
Proof.
  induction l as [|x l IH]; intros Hl; [by exists []|]. destruct (Hl x) as [y Hy]; [left|].
  destruct IH as [ys Hys]; [intros z Hz; apply Hl; by right|]. csimpl. rewrite Hy. csimpl. rewrite Hys. by eexists.
Qed.

Lemma unwrap_preamble_writes p : each_data_of xdr_writes p -> exists q, unwrap_preamble p = Ok q.
Proof. intros Hp. destruct p as [d|]; [|by eexists]. destruct (unwrap_writes (Host.td_xdr d)) as [b Hb]; [by apply Hp|]. csimpl. rewrite Hb. by eexists. Qed.

Lemma invoke_preflight_writes {E} (r : Host.invoke_simulation E) p e :
  each_xdr xdr_writes r -> each_data_of xdr_writes p -> exists v, invoke_preflight r p e = Ok v.
Proof.
  intros [Ha Hr Hd He Hb Haf] Hp. rewrite Forall_forall in Ha, He. unfold invoke_preflight.
  destruct (res_map_writes unwrap (Host.sim_auth r)) as [x1 ->]; [intros; by apply unwrap_writes, Ha|]. csimpl.
  destruct (unwrap_option_writes (match Host.sim_invoke_result r with inl v => Some v | inr _ => None end)) as [x2 ->].
  { intros x Hx. apply Hr. by destruct (Host.sim_invoke_result r); simplify_eq. } csimpl.
  destruct (unwrap_option_writes (Host.td_xdr <$> Host.sim_transaction_data r)) as [x3 ->].
  { intros x (d&Hd'&->)%fmap_Some. by apply Hd. } csimpl.
  destruct (res_map_writes unwrap (Host.sim_diagnostic_events r)) as [x4 ->]; [intros; by apply unwrap_writes, He|]. csimpl.
  destruct (res_map_writes unwrap_diff (Host.sim_modified_entries r)) as [x5 ->].
  { intros d Hd'. unfold unwrap_diff. destruct (unwrap_option_writes (Host.state_before d)) as [y1 ->]; [intros; by eapply Hb|].
    destruct (unwrap_option_writes (Host.state_after d)) as [y2 ->]; [intros; by eapply Haf|]. by eexists. } csimpl.
  destruct (unwrap_preamble_writes p Hp) as [[x6 f] ->]. by eexists.
Qed.

Lemma data_preflight_writes d p e :
  each_data_of xdr_writes d -> each_data_of xdr_writes p -> exists v, data_preflight d p e = Ok v.
Proof.
  intros Hd Hp. unfold data_preflight. destruct (unwrap_option_writes (Host.td_xdr <$> d)) as [x ->].
  { intros x (y&Hy&->)%fmap_Some. by apply Hd. } csimpl.
  destruct (unwrap_preamble_writes p Hp) as [[x6 f] ->]. by eexists.
Qed.

(** *** Reading what is live *)

(** Bytes and strings that the Go side passes *)
Definition buffer L (x : xdr_t) (b : string) : Prop :=
  xdr_len x = slen b /\ (b = "" \/ exists a, L !! xdr_ptr x = Some (Bytes a b)).

Lemma GoXDR_buffer L hs w s x b : holds L hs w s -> buffer L x b -> slen b < 2 ^ 31 -> GoXDR x w = (Ok b, w).
Proof.
  intros Hw [Hl Hb] Hs. unfold GoXDR, C_GoBytes. rewrite Hl, i32_slen by done.
  pose proof (Nat2Z.is_nonneg (String.length b)). rewrite decide_False by (unfold slen; lia). case_decide as E.
  - apply slen_nil in E. by subst.
  - destruct Hb as [->|[a Ha]]; [done|]. apply (read_bytes_reads _ _ a [(xdr_ptr x, Bytes a b)]); [by left|].
    intros p b' [= -> ->]%list_elem_of_singleton. by eapply holds_lookup.
Qed.

(** *** The callbacks *)

(** An entry handed over in C memory, as the last block allocated. *)
Definition entry_given (le : ledger_entry_and_ttl_t) (v : option (string * option Z)) (w w' : world) : Prop :=
  match v with
  | None => le = no_entry /\ K w w'
  | Some (out, ttl) => exists wm, K w wm /\ fresh_world wm /\ w' = snd (c_alloc (Bytes C_malloc out) wm) /\
      le = MkLedgerEntryAndTTL (MkXdr (c_next wm) (slen out)) (default (-1) ttl) /\ (forall t, ttl = Some t -> is_u32 t)
  end.

#[local] Instance entry_given_absorbs : Absorbs K entry_given.
Proof.
  intros le [[out ttl]|] w w1 w2 HK; simpl.
  - intros (wm&?&?&?&?&?). exists wm. split_and!; [by etrans|done..].
  - intros [-> ?]. split; [done|by etrans].
Qed.

Lemma no_entry_refines L hs : refines (holds L hs) K entry_given (mret no_entry) (mret None).
Proof. intros w s Hw. by exists no_entry, w. Qed.

Lemma entry_refines L hs out live :
  refines (holds L hs) K entry_given
    (xdr ← CXDR out; mret (MkLedgerEntryAndTTL xdr (match live with Some seq => u32 seq | None => -1 end)))
    (mret (Some (out, match live with Some seq => Some (u32 seq) | None => None end))).
Proof.
  intros w s [Hf HL Hh Hs]. exists (MkLedgerEntryAndTTL (MkXdr (c_next w) (slen out)) (match live with Some seq => u32 seq | None => -1 end)).
  exists (snd (c_alloc (Bytes C_malloc out) w)). split; [done|]. split.
  - split; [by apply fresh_alloc| |done|done]. etrans; [exact HL|]. by apply insert_subseteq, heap_next_fresh.
  - exists w. split_and!; [done..| |]; [by destruct live|]. intros t Ht. destruct live; simplify_eq. apply u32_range.
Qed.

Lemma SnapshotSourceGet_refines L hs h getter x key :
  hs !! h = Some (HSnapshot getter) -> buffer L x key -> slen key < 2 ^ 31 ->
  refines (holds L hs) K entry_given (SnapshotSourceGet h x) (snapshot_entry getter key).
Proof.
  intros Hh Hx Hk. unfold SnapshotSourceGet.
  apply (refines_step _ _ _ _ (HSnapshot getter)).
  { intros w s Hw. exists w. split; [|done]. unfold Handle_Value.
    by rewrite (lookup_weaken _ _ _ _ Hh (holds_handles _ _ _ _ Hw)). }
  apply (refines_step _ _ _ _ key); [intros w s Hw; exists w; split; [by eapply GoXDR_buffer|done]|].
  unfold snapshot_entry. destruct (SafeUnmarshal_key key) as [k|e|m]; [|apply no_entry_refines|by apply refines_panic].
  refines_call; [apply refines_attempt, holds_on_store|]. intros [[[|entry [|entry' entries]] seq]|e].
  - apply no_entry_refines.
  - simpl. destruct (entry_MarshalBinary _) as [out|e|m]; [apply entry_refines|apply no_entry_refines|by apply refines_panic].
  - rewrite decide_True by (unfold zlen; simpl; lia). apply no_entry_refines.
  - apply no_entry_refines.
Qed.

(** The end of a block that was allocated last *)
Lemma free_last w b : fresh_world w ->
  C_free (c_next w) (snd (c_alloc (Bytes C_malloc b) w)) =
    (Ok tt, set_heap (c_heap w) (snd (c_alloc (Bytes C_malloc b) w))).
Proof.
  intros Hf. pose proof (heap_next_fresh w Hf) as Hx. destruct Hf as (Hn&_). unfold C_free. rewrite decide_False by lia.
  unfold c_dealloc. simpl. rewrite lookup_insert_eq. simpl. by rewrite delete_insert_id.
Qed.

Lemma get_xdr_internal_refines L hs h getter x key :
  hs !! h = Some (HSnapshot getter) -> buffer L x key -> slen key < 2 ^ 31 ->
  refines (holds L hs) K (same K) (get_xdr_internal SnapshotSourceGet FreeGoLedgerEntryAndTTL h x) (snapshot_entry getter key).
Proof.
  intros Hh Hx Hk w s Hw. pose proof (SnapshotSourceGet_refines L hs h getter x key Hh Hx Hk w s Hw) as Hr.
  unfold get_xdr_internal, mbind, M_bind. destruct (snapshot_entry getter key s) as [[v|e|m] s']; [| |done];
    [|destruct Hr as (w1&->&?&?); by exists w1].
  destruct Hr as (le&w1&->&Hw1&Hle). destruct v as [[out ttl]|]; simpl in Hle.
  - destruct Hle as (wm&HK&Hf&->&->&Ht). cbn [le_entry le_ttl xdr_ptr].
    assert (16 <= c_next wm) as Hn by apply Hf. rewrite decide_False by lia.
    rewrite (from_c_xdr_read _ _ C_malloc out) by (lia || apply lookup_insert_eq).
    unfold FreeGoLedgerEntryAndTTL. cbn [le_entry xdr_ptr]. rewrite (free_last wm out Hf : C_free (c_next wm) (MkCworld _ _ _ _ _) = _).
    set (w2 := set_heap (c_heap wm) _). assert (holds L hs w2 s' /\ K w w2) as [Hw2 HK2].
    { destruct Hw as [_ HL Hhs _], Hw1 as [_ _ _ Hs]. destruct HK as (H1&H2&H3&H4&H5). split.
      - destruct Hf as (?&Hfh&Hfg). split; [split_and!; simpl; [lia| |done]|simpl; by etrans|simpl; by rewrite H3|done].
        intros p Hp. specialize (Hfh p Hp). lia.
      - split_and!; simpl; [done|done|done|lia|done]. }
    destruct ttl as [t|]; simpl.
    + specialize (Ht t eq_refl). destruct Ht as [Ht1 Ht2]. rewrite decide_False by lia. rewrite decide_True by lia.
      by exists (Some (out, Some t)), w2.
    + by exists (Some (out, None)), w2.
  - destruct Hle as [-> HK]. by exists None, w1.
Qed.

Lemma get_by_key_refines L hs h getter key :
  hs !! h = Some (HSnapshot getter) -> slen key < 2 ^ 31 ->
  refines (holds L hs) K (same K) (get_by_key SnapshotSourceGet FreeGoLedgerEntryAndTTL h key) (snapshot_entry getter key).
Proof.
  intros Hh Hk. unfold get_by_key, bytes_to_c. case_decide as E.
  - subst key. intros w s Hw.
    pose proof (get_xdr_internal_refines L hs h getter (MkXdr 1 0) "" Hh (conj eq_refl (or_introl eq_refl)) Hk w s Hw) as Hr.
    unfold mbind, M_bind, mret, M_ret, deferred. unfold free_c_xdr. rewrite decide_True by (by right).
    destruct (snapshot_entry getter "" s) as [[v|e|m] s']; [| |done].
    + destruct Hr as (a&w'&->&?&?). by exists a, w'.
    + destruct Hr as (w'&->&?&?). by exists w'.
  - apply (refines_ext _ _ _ _ (p ← c_alloc (Bytes Rust_alloc key);
      deferred (free_c_xdr (MkXdr p (slen key))) (get_xdr_internal SnapshotSourceGet FreeGoLedgerEntryAndTTL h (MkXdr p (slen key)))));
      [done|].
    apply refines_with_block.
    + intros p w Hp Hb. unfold free_c_xdr. cbn [xdr_ptr xdr_len]. rewrite decide_False by (intros [?|?%slen_nil]; [lia|done]).
      unfold mbind, M_bind, c_read. rewrite Hb. by rewrite decide_True.
    + intros p Hp HL. apply get_xdr_internal_refines; [done| |done]. split; [done|]. right. exists Rust_alloc. by simpl; rewrite lookup_insert_eq.
Qed.

(** *** The two interfaces of the library *)

Definition c_buffer L (x : xdr_t) (b : string) : Prop :=
  xdr_ptr x ≠ 0 /\ xdr_len x = slen b /\ L !! xdr_ptr x = Some (Bytes C_malloc b).

Definition c_string L (p : Z) (str : string) : Prop := L !! p = Some (Bytes C_malloc (with_nul str)).

Lemma c_ffi_refines L hs h getter :
  hs !! h = Some (HSnapshot getter) ->
  FfiRefines (holds L hs) K clean (given clean result_rep) (c_buffer L) (c_string L)
    (c_ffi SnapshotSourceGet FreeGoLedgerEntryAndTTL h) (value_ffi getter).
Proof.
  intros Hh. split.
  - intros [ptr len] b (Hp&Hl&Hb) w s Hw. cbn [xdr_ptr xdr_len] in *. subst len. exists b, w. split; [|done].
    by apply (from_c_xdr_read w ptr C_malloc b Hp), (holds_lookup _ _ _ _ _ _ Hw).
  - intros p str Hp w s Hw. exists (until_nul str), w. split; [|done].
    simpl. unfold read_c_str, c_read, mbind, M_bind. rewrite (holds_lookup _ _ _ _ _ _ Hw Hp). by rewrite c_str_with_nul.
  - intros key Hk. by apply get_by_key_refines.
  - intros E r p e [Hr1 Hr2] [Hp1 Hp2]. apply builds_refines; [by apply invoke_result_builds|].
    intros HC. by apply invoke_preflight_writes; [apply Hr2|apply Hp2].
  - intros d p e [Hd1 Hd2] [Hp1 Hp2]. apply builds_refines; [by apply data_result_builds|].
    intros HC. by apply data_preflight_writes; [apply Hd2|apply Hp2].
  - intros e. apply (builds_refines clean result_rep L hs _ (Ok (error_preflight e))); [apply error_result_builds|by eexists].
Qed.

(** A result in its box, copied and freed *)
Lemma refines_preflight_box L hs m spec :
  refines (holds L hs) K (given clean result_rep) m spec ->
  refines (holds L hs) K (same K) (res ← (r ← m; c_alloc (ResultBox r)); GoPreflight res) spec.
Proof.
  intros Hm. apply (refines_ext_spec _ _ _ _ _ (v ← spec; of_res (Ok v))).
  { intros s. unfold mbind, M_bind. by destruct (spec s) as [[]]. }
  apply (refines_boxed _ result_rep _ _ _ _ ResultBox _ Ok Hm); [done|].
  intros r v bs p w h Hp Hr Hw Hn Hd. by apply (GoPreflight_exact w r v bs p h).
Qed.

(** *** Brackets of the Go code *)

(** The ledger passed to the library, its string at [p] *)
Definition ledger_at (params : Parameters (S := S)) (p : Z) : ledger_info_t Z :=
  MkLedgerInfoC (Params_ProtocolVersion params) (LedgerSeq params) (LedgerTime params) p defaultBaseReserve (BucketListSize params).

Lemma refines_with_ledger {A} L hs params (rest : ledger_info_t Z -> M world A) spec :
  (forall p, 16 <= p -> L !! p = None ->
     refines (holds (<[p := Bytes C_malloc (with_nul (Parameters_NetworkPassphrase params))]> L) hs) K (same K)
       (rest (ledger_at params p)) spec) ->
  refines (holds L hs) K (same K) (li ← getLedgerInfo params; deferred (freeLedgerInfo li) (rest li)) spec.
Proof.
  intros Hr. apply (refines_ext _ _ _ _ (p ← c_alloc (Bytes C_malloc (with_nul (Parameters_NetworkPassphrase params)));
    deferred (C_free p) (rest (ledger_at params p)))); [done|].
  apply refines_with_block; [|done]. intros p w Hp _. by apply C_free_dealloc.
Qed.

Lemma c_buffer_there L p q b v : p ≠ 0 -> p ≠ q -> L !! p = Some (Bytes C_malloc b) -> c_buffer (<[q := v]> L) (MkXdr p (slen b)) b.
Proof. intros. split_and!; [done|done|]. cbn [xdr_ptr]. by rewrite lookup_insert_ne. Qed.

Context (curr prev : Host.Soroban) `{LC : !SorobanLaws curr} `{LP : !SorobanLaws prev}.
Context (HC : clean -> results_write curr /\ results_write prev).

Lemma footprint_refines params L hs :
  refines (holds L hs) K (same K) (getFootprintTTLPreflight curr prev params)
    (opBodyXDR ← of_res (body_MarshalBinary (OpBody params));
     footprintXDR ← map_err (EWrap "cannot marshal footprint") (of_res (footprint_MarshalBinary (Footprint params)));
     preflight_footprint_ttl_op (FF := value_ffi (ParamsEntryGetter params)) curr prev opBodyXDR footprintXDR (ledger_of params)).
Proof.
  unfold getFootprintTTLPreflight. refines_call; [by apply refines_of_res, _|]. intros body.
  apply refines_with_CXDR. intros p1 Hp1 Hl1. refines_call; [by apply refines_map_err, refines_of_res, _|]. intros fp.
  apply refines_with_CXDR. intros p2 Hp2 Hl2. apply refines_with_handle. intros h.
  apply refines_with_ledger. intros p3 Hp3 Hl3. apply refines_preflight_box.
  apply lookup_insert_None in Hl2 as [_ N1]. apply lookup_insert_None in Hl3 as [Hl3 N2]. apply lookup_insert_None in Hl3 as [_ N3].
  match goal with |- refines (holds ?L' ?hs') _ _ _ _ =>
    pose proof (c_ffi_refines L' hs' h (ParamsEntryGetter params) (lookup_insert_eq _ _ _)) as FR end.
  apply (refines_preflight_footprint _ _ clean (given clean result_rep) (c_buffer _) (c_string _) curr prev HC).
  - apply c_buffer_there; [lia|done|]. by rewrite lookup_insert_ne, lookup_insert_eq.
  - apply c_buffer_there; [lia|done|]. by rewrite lookup_insert_eq.
  - split_and!; try done. apply lookup_insert_eq.
Qed.

Lemma invoke_refines params L hs :
  refines (holds L hs) K (same K) (getInvokeHostFunctionPreflight curr prev params)
    (invokeXDR ← of_res (invoke_MarshalBinary (OpBody params));
     accountXDR ← of_res (account_MarshalBinary (SourceAccount params));
     authMode ← of_res (auth_mode_number (Params_AuthMode params));
     preflight_invoke_hf_op (FF := value_ffi (ParamsEntryGetter params)) curr prev invokeXDR accountXDR (ledger_of params)
       (InstructionLeeway (Params_ResourceConfig params)) (EnableDebug params) authMode (Params_UseUpgradedAuth params)).
Proof.
  unfold getInvokeHostFunctionPreflight. refines_call; [by apply refines_of_res, _|]. intros invoke.
  apply refines_with_CXDR. intros p1 Hp1 Hl1. refines_call; [by apply refines_of_res, _|]. intros account.
  apply refines_with_CXDR. intros p2 Hp2 Hl2. apply refines_with_handle. intros h.
  refines_call; [by apply refines_of_res, _|]. intros mode.
  apply refines_with_ledger. intros p3 Hp3 Hl3. apply refines_preflight_box.
  apply lookup_insert_None in Hl2 as [_ N1]. apply lookup_insert_None in Hl3 as [Hl3 N2]. apply lookup_insert_None in Hl3 as [_ N3].
  match goal with |- refines (holds ?L' ?hs') _ _ _ _ =>
    pose proof (c_ffi_refines L' hs' h (ParamsEntryGetter params) (lookup_insert_eq _ _ _)) as FR end.
  apply (refines_preflight_invoke _ _ clean (given clean result_rep) (c_buffer _) (c_string _) curr prev HC).
  - apply c_buffer_there; [lia|done|]. by rewrite lookup_insert_ne, lookup_insert_eq.
  - apply c_buffer_there; [lia|done|]. by rewrite lookup_insert_eq.
  - split_and!; try done. apply lookup_insert_eq.
Qed.

Lemma GetPreflight_holds params L hs :
  refines (holds L hs) K (same K) (GetPreflight curr prev params) (GetPreflight_values curr prev params).
Proof.
  unfold GetPreflight, GetPreflight_values. destruct (body_Type (OpBody params));
    [apply invoke_refines|apply footprint_refines|apply footprint_refines|by apply refines_fail, _].
Qed.

End refines.

(** ** The theorems *)

Section theorems.
Context `{ES : EntrySdk} `{X : Sdk} `{P : !RpcProtocol} `{CP : !CoreProtocol} `{SS : !SimulateSdk} `{PS : !PreflightSdk}.
Context `{RS : Rust} (curr prev : Host.Soroban) {S : Type}.

(** C28: a preflight on C memory answers exactly what the preflight on plain
    values answers, errors of every stage included (encoding, unknown protocol
    version, panics of the host, entries that cannot be found), with the same
    effects on the store that its callback reads; it never reads or frees memory
    that is not live, nor by the wrong allocator; afterwards its handle is gone,
    no block of the caller's is gone, and nothing is leaked as long as the host
    can write the values it returns. *)
Theorem GetPreflight_refines `{LC : !SorobanLaws curr} `{LP : !SorobanLaws prev} (params : Parameters (S := S)) w :
  fresh_world w ->
  match GetPreflight_values curr prev params (c_store w) with
  | (Panic _, _) => True
  | (r, s') => exists w', GetPreflight curr prev params w = (r, w') /\ c_store w' = s' /\
      c_handles w' = c_handles w /\ c_heap w ⊆ c_heap w' /\
      (results_write curr /\ results_write prev -> c_heap w' = c_heap w)
  end.
Proof.
  intros Hw. pose proof (GetPreflight_holds (results_write curr /\ results_write prev) curr prev id params ∅ ∅ w (c_store w)) as Hr.
  assert (holds ∅ ∅ w (c_store w)) as H0 by (split; [done|apply map_empty_subseteq..|done]).
  specialize (Hr H0). destruct (GetPreflight_values curr prev params (c_store w)) as [[v|e|m] s']; [| |done].
  - destruct Hr as (a&w'&->&[_ _ _ Hs]&->&(?&?&?&?&?)). by exists w'.
  - destruct Hr as (w'&->&[_ _ _ Hs]&(?&?&?&?&?)). by exists w'.
Qed.

(** The size of the live state is passed to the library, which does not use it. *)
Definition set_BucketListSize (n : Z) (p : Parameters (S := S)) : Parameters :=
  MkParameters (SourceAccount p) (OpBody p) (Footprint p) (Parameters_NetworkPassphrase p) (ParamsEntryGetter p) (LedgerSeq p)
    (LedgerTime p) n (Params_ResourceConfig p) (EnableDebug p) (Params_AuthMode p) (Params_UseUpgradedAuth p)
    (Params_ProtocolVersion p).

Lemma BucketListSize_unused n params :
  GetPreflight_values curr prev (set_BucketListSize n params) = GetPreflight_values curr prev params.
Proof. reflexivity. Qed.

End theorems.

Section Witnesses.

#[local] Existing Instance ex_core.
#[local] Existing Instance ex_simulate_sdk.
#[local] Existing Instance ex_rust.

#[local] Instance ex_preflight_sdk : PreflightSdk (SS := ex_simulate_sdk) := {|
  SafeUnmarshal_key := fun s => if decide (s = "bad") then Err (EExt "EOF") else Ok s;
  entry_MarshalBinary := fun e => Ok e;
  body_MarshalBinary := fun b => Ok b;
  invoke_MarshalBinary := fun b => Ok b;
  account_MarshalBinary := fun a => Ok a;
  footprint_MarshalBinary := fun f => Ok f;
  InstructionLeeway := fun c => c;
|}.

(** A host whose network configuration is the entry of "a", and whose simulation
    reads the key that the operation names; [data] is what it returns. *)
Definition ex_soroban (protocol : Z) (data : Host.tx_data) : Host.Soroban (RS := ex_rust) := {|
  Host.PROTOCOL := protocol;
  Host.XdrError := string;
  Host.HostError := string;
  Host.HostFunction := string;
  Host.AuthEntry := string;
  Host.AccountId := string;
  Host.LedgerKey := string;
  Host.LedgerEntry := string;
  Host.NetworkConfig := string;
  Host.LedgerInfo := string;
  Host.Adjustment := Z;
  Host.RecordingAuth := string;
  Host.AutoRestore := unit;
  Host.xdr_debug := fun e => e;
  Host.xdr_into := fun e => e;
  Host.host_into := fun e => e;
  Host.storage_internal_error := "InternalError";
  Host.invoke_from_xdr := fun b => if decide (b = "junk") then inr "Invalid" else inl (b, ["signed"]);
  Host.account_from_xdr := fun b => inl b;
  Host.body_from_xdr := fun b => inl (Host.ExtendFootprintTtl 100);
  Host.footprint_from_xdr := fun b => inl ([b], []);
  Host.entry_from_xdr := fun b => inl b;
  Host.key_to_xdr := fun k => if decide (slen k < 2 ^ 31) then inl k else inr "LengthLimitExceeded";
  Host.base_ledger_info := fun _ _ _ network _ => network;
  Host.fill_config_fields := fun _ li => li;
  Host.default_adjustment := 0;
  Host.additive_factor := fun a => a;
  Host.set_additive_factor := fun z _ => z;
  Host.Enforcing := fun _ => "enforcing";
  Host.recording := fun _ _ => "recording";
  Host.load_from_snapshot := Host.HGet "a" (fun r => Host.HRet (match r with inl (Some (e, _)) => inl e | _ => inr "no network config" end));
  Host.simulate_invoke_host_function_op := fun nc _ li hf auth acc _ _ =>
    Host.HGet hf (fun r => match r with
      | inl (Some (e, ttl)) => Host.HRet (inl {|
          Host.sim_auth := [inl "auth"];
          Host.sim_invoke_result := inl (inl (if decide (e = "entry c") then "c" else "other"));
          Host.sim_transaction_data := Some data;
          Host.sim_diagnostic_events := [inl "event"];
          Host.sim_instructions := 7;
          Host.sim_memory := 8;
          Host.sim_modified_entries := [Host.MkEntryDiff None (Some (inl "new")); Host.MkEntryDiff (Some (inl "old")) None];
        |})
      | inl None => Host.HRet (inr "missing entry")
      | inr e => Host.HPanic (Some e)
      end);
  Host.simulate_restore_op := fun _ _ _ _ => Host.HRet (inl data);
  Host.auto_restore_new := fun _ => Host.HRet (inl tt);
  Host.simulate_extend_ttl_op := fun ar _ _ _ _ _ => Host.HRet (inl data, ar);
  Host.simulate_restore_keys_op := fun _ _ _ _ => Host.HRet (inl (Some data));
|}.

Lemma ex_satisfy (P : WriteXdr -> Prop) protocol data :
  P (Host.td_xdr data) -> Forall P (inl <$> ["auth"; "c"; "other"; "event"; "new"; "old"]) ->
  results_satisfy P (ex_soroban protocol data).
Proof.
  intros Hd Hf. rewrite Forall_forall in Hf.
  assert (forall b, b ∈ ["auth"; "c"; "other"; "event"; "new"; "old"] -> P (inl b)) as Hb by (intros b Hb; apply Hf, list_elem_of_fmap_2, Hb).
  clear Hf. split; simpl.
  - intros. destruct answer as [[[e ttl]|]|e]; simpl; [|done..]. intros x [= <-].
    split; simpl; [by constructor; [apply Hb; set_solver|constructor]| |by intros d [= <-]|by constructor; [apply Hb; set_solver|constructor]|..].
    + intros v [= <-]. case_decide; apply Hb; set_solver.
    + intros d v [->|[->|[]%elem_of_nil]%elem_of_cons]%elem_of_cons; simpl; [done|]. intros [= <-]. apply Hb. set_solver.
    + intros d v [->|[->|[]%elem_of_nil]%elem_of_cons]%elem_of_cons; simpl; [|done]. intros [= <-]. apply Hb. set_solver.
  - by intros ?????[= <-].
  - by intros ??????? [= <-].
  - intros ????? [= <-] x [= <-]. done.
Qed.

#[local] Instance ex_soroban_laws protocol b fee : slen b < 2 ^ 31 -> SorobanLaws (ex_soroban protocol (Host.MkTxData (inl b) fee)).
Proof.
  intros Hb. split.
  - apply ex_satisfy; [by intros c [= <-]|]. repeat constructor; intros c [= <-]; done.
  - intros key b' Hk. simpl in Hk. case_decide; by simplify_eq.
Qed.

Lemma ex_results_write protocol b fee : results_write (ex_soroban protocol (Host.MkTxData (inl b) fee)).
Proof. apply ex_satisfy; [by eexists|]. repeat constructor; by eexists. Qed.

Definition ex_data : Host.tx_data := Host.MkTxData (inl "data") 100.
Definition ex_curr := ex_soroban 23 ex_data.
Definition ex_prev := ex_soroban 22 ex_data.

(** The invocation "c", on the core of LedgerEntries.v at ledger 3. *)
Definition ex_params (body mode : string) (protocol : Z) : Parameters (SS := ex_simulate_sdk) (S := DB) :=
  MkParameters (SS := ex_simulate_sdk) "source" body "footprint" "Test network"
    (GetLedgerEntries (X := ex_sdk) (NewLedgerEntryAtGetter 3)) 3 15 1000 3000000 false mode false protocol.

(** A process with a block and a handle of others *)
Definition ex_world : cworld (handle_value (S := DB)) DB :=
  MkCworld {[17 := Bytes C_malloc "mine"]} 20 {[1 := HOther]} 2 ex_db.

Definition ex_answer : Preflight :=
  MkPreflight "" ["event"] "data" 100 "c" ["auth"] 7 8 "" 0 [MkXDRDiff "" "new"; MkXDRDiff "old" ""].

Lemma ex_world_fresh : fresh_world ex_world.
Proof.
  split_and!; simpl; [done|..]; intros p [x [<- _]%lookup_singleton_Some]; done.
Qed.

Lemma ex_values : GetPreflight_values ex_curr ex_prev (ex_params "c" "enforce" 23) ex_db = (Ok ex_answer, ex_db).
Proof. vm_compute. reflexivity. Qed.

Lemma ex_clean : results_write ex_curr /\ results_write ex_prev.
Proof. split; apply ex_results_write. Qed.

Lemma ex_laws protocol : SorobanLaws (ex_soroban protocol ex_data).
Proof. by apply ex_soroban_laws. Qed.

Lemma GetPreflight_refines_witness :
  exists w', GetPreflight ex_curr ex_prev (ex_params "c" "enforce" 23) ex_world = (Ok ex_answer, w') /\
    c_store w' = ex_db /\ c_heap w' = c_heap ex_world.
Proof.
  pose proof (GetPreflight_refines (LC := ex_laws 23) (LP := ex_laws 22) ex_curr ex_prev (ex_params "c" "enforce" 23) ex_world ex_world_fresh) as Hr.
  change (c_store ex_world) with ex_db in Hr. rewrite ex_values in Hr. destruct Hr as (w'&Hr&Hs&_&_&Hh).
  exists w'. split; [exact Hr|]. split; [exact Hs|]. exact (Hh ex_clean).
Defined.

(** The same by running the code, and its failures: a key without an entry, an
    operation that does not decode, an unknown protocol, an unknown mode. *)
Definition ex_run (body mode : string) (protocol : Z) : Res string * bool :=
  let '(r, w) := GetPreflight ex_curr ex_prev (ex_params body mode protocol) ex_world in
  (match r with Ok v => Ok (PF_Error v) | Err e => Err e | Panic m => Panic m end,
   bool_decide (dom (c_heap w) = dom (c_heap ex_world)) && bool_decide (dom (c_handles w) = dom (c_handles ex_world))).

Example preflight_runs :
  ex_run "c" "enforce" 23 = (Ok "", true) /\
  ex_run "nothing" "record" 22 = (Ok "missing entry", true) /\
  ex_run "junk" "enforce" 23 =
    (Ok "panic during preflight() call: called `Result::unwrap()` on an `Err` value: Invalid", true) /\
  ex_run "c" "enforce" 24 = (Ok "unsupported protocol version: 24", true) /\
  ex_run "c" "other" 23 = (Err (EMsg "invalid auth mode: 'other'"), true) /\
  ex_run "extend" "" 23 = (Ok "", true).
Proof. vm_compute. by split_and!. Qed.

(** A value of the host that cannot be written leaves the error string and the
    vectors built before it behind. *)
Example preflight_leaks :
  let host := ex_soroban 23 (Host.MkTxData (inr "LengthLimitExceeded") 100) in
  let '(r, w) := GetPreflight host host (ex_params "c" "enforce" 23) ex_world in
  r = Ok (error_preflight "panic during preflight() call: called `Result::unwrap()` on an `Err` value: LengthLimitExceeded") /\
  size (c_heap w) = (size (c_heap ex_world) + 4)%nat.
Proof. vm_compute. by split. Qed.

(** simulateTransaction with this preflight behind it *)
Example simulate_with_preflight :
  fst (NewSimulateTransactionHandler (P := ex_protocol) (SS := ex_simulate_sdk)
         (pool_getter (SS := ex_simulate_sdk) ex_curr ex_prev "Test network" false) (ex_simulate "c" "") (ex_db, ex_db)) =
  Ok {| SM_Error := PF_Error ex_answer;
        SM_TransactionDataXDR := base64_EncodeToString (PF_TransactionData ex_answer); SM_TransactionDataJSON := "";
        SM_EventsXDR := base64EncodeSlice (PF_Events ex_answer); SM_EventsJSON := [];
        SM_MinResourceFee := PF_MinFee ex_answer;
        SM_Results := [MkSimulateHostFunctionResult (Some (base64_EncodeToString (PF_Result ex_answer))) ""
                         (Some (base64EncodeSlice (PF_Auth ex_answer))) []];
        SM_RestorePreamble := None;
        SM_StateChanges :=
          [MkLedgerEntryChange Created "key of new" "" None "" (Some (base64_EncodeToString "new")) "";
           MkLedgerEntryChange Deleted "key of old" "" (Some (base64_EncodeToString "old")) "" None ""];
        SM_LatestLedger := 3 |}.
Proof. vm_compute. reflexivity. Qed.

End Witnesses.
