(* ===== verification/Xdr2Json.v ===== *)
(** * The XDR to JSON converter (internal/xdr2json and lib/xdr2json)

    [convertAnyBytes] on C memory: the Go code, the Rust function behind it with
    its panics caught, and the proof that the two answer what MethodJson.v
    assumes of them and leave the memory as they found it. *)

From Stdlib Require Import Ascii.
From S2P Require Import Prelude Sdk SdkExample MethodJson Cgo CgoLogic HostLib.

(** The stellar-xdr and serde_json crates: the type of a name, the reader of a
    whole buffer and the printer, with the [Display] or [Debug] of their errors. *)
Class XdrCrates := {
  XType : Type;
  XValue : Type;
  TypeVariant_from_str : string -> XType + string;
  read_xdr_to_end : XType -> string -> XValue + string;
  serde_to_string : XValue -> string + string;
}.

Section convert.
Context `{RS : Rust} `{XC : XdrCrates} {H S : Type}.
Abbreviation world := (cworld H S).

(** ** lib/xdr2json/src/lib.rs *)

(** [RustConversionResult] *)
Definition conversion : Type := string * string.

(** The decoding of a type's bytes, printed *)
Definition json_of (the_type : XType) (type_str xdr : string) : Res conversion :=
  match read_xdr_to_end the_type xdr with
  | inr e => Err (rust_panic (Some ("couldn't read " +:+ type_str +:+ ": " +:+ e)))
  | inl t => json ← unwrap (serde_to_string t); Ok (json, "")
  end.

Definition no_type (type_str e : string) : error :=
  rust_panic (Some ("couldn't match type " +:+ type_str +:+ ": " +:+ e)).

(** The closure of [xdr_to_json] *)
Definition convert_or_panic (typename : Z) (xdr : xdr_t) : M world conversion :=
  name ← read_c_str typename;
  type_str ← of_res (to_str name);
  match TypeVariant_from_str type_str with
  | inr e => fail (no_type type_str e)
  | inl the_type => xdr_bytearray ← from_c_xdr xdr; of_res (json_of the_type type_str xdr_bytearray)
  end.

(** [catch_json_to_xdr_panic]; no closure returns an error. *)
Definition caught (r : conversion + error) : conversion :=
  match r with
  | inl c => c
  | inr e => match panic_payload e with
             | Some panic_msg => ("{}", "xdr_to_json() failed: " +:+ panic_msg)
             | None => ("{}", "xdr_to_json() failed: unknown cause")
             end
  end.

Definition conversion_to_c (c : conversion) : M world conversion_result_t :=
  json ← string_to_c (fst c); error ← string_to_c (snd c); mret (MkConversionResult json error).

Definition C_xdr_to_json (typename : Z) (xdr : xdr_t) : M world Z :=
  result ← attempt (convert_or_panic typename xdr);
  r ← conversion_to_c (caught result);
  c_alloc (ConversionBox r).

Definition read_conversion (ptr : Z) : M world conversion_result_t :=
  b ← c_read ptr; match b with ConversionBox r => mret r | _ => panic "not a conversion result" end.

Definition free_conversion_result (ptr : Z) : M world unit :=
  if decide (ptr = 0) then mret tt
  else
    r ← read_conversion ptr;
    free_c_string (cr_json r);;
    free_c_string (cr_error r);;
    c_dealloc Rust_alloc ptr.

(** ** conversion.go *)

(** What [convertAnyBytes] does with the result, which it frees in the end *)
Definition use_result (result : Z) : M world string :=
  deferred (free_conversion_result result) (
    r ← read_conversion result;
    jsonStr ← C_GoString (cr_json r);
    errStr ← C_GoString (cr_error r);
    if decide (errStr <> "") then fail (EMsg errStr) else mret jsonStr).

Definition C_convertAnyBytes (xdrTypeName field : string) : M world string :=
  goRawXdr ← CXDR field;
  deferred (FreeGoXDR goRawXdr) (
    b ← C_CString xdrTypeName;
    deferred (C_free b) (result ← C_xdr_to_json b goRawXdr; use_result result)).

(** ** What it computes *)

Definition convert_values (typename xdr : string) : Res conversion :=
  type_str ← to_str (until_nul typename);
  match TypeVariant_from_str type_str with
  | inr e => Err (no_type type_str e)
  | inl the_type => json_of the_type type_str xdr
  end.

(** The document and the error text, as Go strings *)
Definition xdr_to_json_values (typename xdr : string) : string * string :=
  let c := caught (match convert_values typename xdr with Ok c => inl c | Err e => inr e | Panic m => inr (EMsg m) end) in
  (strip_nul (fst c), strip_nul (snd c)).

Definition json_or_error (c : string * string) : Res string :=
  if decide (snd c <> "") then Err (EMsg (snd c)) else Ok (fst c).

End convert.

Section refinement.
Context `{RS : Rust} `{XC : XdrCrates} {H S : Type} (clean : Prop).
Abbreviation world := (cworld H S).
Abbreviation K := (@kept H S clean).
Implicit Types (L : gmap Z block) (hs : gmap Z H) (w : world) (s : S).

Definition conversion_rep (r : conversion_result_t) (c : string * string) (bs : list (Z * block)) : Prop :=
  exists b1 b2, cstr_rep (cr_json r) (fst c) b1 /\ cstr_rep (cr_error r) (snd c) b2 /\ bs ≡ₚ b1 ++ b2.

Lemma conversion_builds c :
  builds (H := H) (S := S) conversion_rep (conversion_to_c c) (Ok (strip_nul (fst c), strip_nul (snd c))).
Proof.
  set (v := (strip_nul (fst c), strip_nul (snd c))).
  apply (builds_bind (fun p _ bs => cstr_rep p (fst v) bs) _ _ (Ok tt) _ (fun _ => Ok v)); [apply string_to_c_builds|].
  intros p _ b1 H1.
  apply (builds_bind (fun p _ bs => cstr_rep p (snd v) bs) _ _ (Ok tt) _ (fun _ => Ok v)); [apply string_to_c_builds|].
  intros q _ b2 H2. apply builds_ret. exists b1, b2. split_and!; [done|done|]. apply Permutation_app_comm.
Qed.

Lemma read_conversion_reads bs p r : (p, ConversionBox r) ∈ bs -> reads (H := H) (S := S) bs (read_conversion p) r.
Proof. intros Hp. unfold read_conversion. eapply reads_bind; [by apply reads_block|]. apply reads_ret. Qed.

Lemma conversion_frees p r c bs : p ≠ 0 -> conversion_rep r c bs ->
  frees (H := H) (S := S) (bs ++ [(p, ConversionBox r)]) (free_conversion_result p).
Proof.
  intros Hp (b1&b2&H1&H2&Hb). rewrite Hb. unfold free_conversion_result. rewrite decide_False by done.
  eapply reads_frees; [apply read_conversion_reads, elem_of_app; right; by left|by intros z Hz; exact Hz|].
  rewrite <- (assoc_L (++)). apply frees_then; [by eapply cstr_frees|]. apply frees_then; [by eapply cstr_frees|].
  apply (frees_block p (ConversionBox r)).
Qed.

Lemma use_result_exact r c bs p (w : world) h :
  p ≠ 0 -> conversion_rep r c bs -> c_heap w = blocks (bs ++ [(p, ConversionBox r)]) ∪ h ->
  NoDup (bs ++ [(p, ConversionBox r)]).*1 -> (forall q, q ∈ (bs ++ [(p, ConversionBox r)]).*1 -> h !! q = None) ->
  use_result p w = (json_or_error c, set_heap h w).
Proof.
  intros Hp Hr Hw Hn Hd. pose proof Hr as (b1&b2&H1&H2&Hb). unfold use_result, deferred.
  assert (forall q b, (q, b) ∈ bs ++ [(p, ConversionBox r)] -> c_heap w !! q = Some b) as Hl by (intros; by eapply owned_lookup).
  assert (forall z, z ∈ b1 ++ b2 -> z ∈ bs ++ [(p, ConversionBox r)]) as Hin by (intros z Hz; apply elem_of_app; left; by rewrite Hb).
  unfold mbind, M_bind. rewrite (read_conversion_reads _ p r (proj2 (elem_of_app _ _ _) (or_intror (list_elem_of_here _ _))) w Hl).
  rewrite (cstr_reads _ _ _ _ H1 (fun z Hz => Hin z (proj2 (elem_of_app _ _ _) (or_introl Hz))) w Hl).
  rewrite (cstr_reads _ _ _ _ H2 (fun z Hz => Hin z (proj2 (elem_of_app _ _ _) (or_intror Hz))) w Hl).
  unfold json_or_error. destruct (decide (snd c <> "")); simpl; by rewrite (conversion_frees p r c bs Hp Hr w h).
Qed.

Lemma convert_refines L hs p name q field :
  q ≠ 0 -> L !! p = Some (Bytes C_malloc (with_nul name)) -> L !! q = Some (Bytes C_malloc field) ->
  refines (holds L hs) K (same K) (convert_or_panic p (MkXdr q (slen field))) (of_res (convert_values name field)).
Proof.
  intros Hq0 Hp Hq. unfold convert_or_panic.
  apply (refines_step _ _ _ _ (until_nul name)).
  { intros w s Hw. exists w. split; [|done]. unfold read_c_str, c_read, mbind, M_bind.
    rewrite (holds_lookup _ _ _ _ _ _ Hw Hp). by rewrite c_str_with_nul. }
  unfold convert_values. apply (refines_ext_spec _ _ _ _ _ (type_str ← of_res (to_str (until_nul name));
    of_res (match TypeVariant_from_str type_str with inr e => Err (no_type type_str e) | inl t => json_of t type_str field end))).
  { intros s. unfold mbind, M_bind, of_res, Res_bind. by destruct (to_str (until_nul name)). }
  refines_call; [by apply refines_of_res, _|]. intros ty. destruct (TypeVariant_from_str ty) as [t|e]; [|by apply refines_fail, _].
  apply (refines_step _ _ _ _ field); [|by apply refines_of_res, _].
  intros w s Hw. exists w. split; [|done]. by apply (from_c_xdr_read w q C_malloc field Hq0), (holds_lookup _ _ _ _ _ _ Hw).
Qed.

(** A conversion unwinds but does not crash. *)
Lemma convert_values_no_crash name field m : convert_values name field <> Panic m.
Proof.
  assert (forall A (r : A + string) m, unwrap r <> Panic m) as Hu by (by intros A [a|e]).
  unfold convert_values, to_str, json_of, mbind, Res_bind. intros Hm. revert Hm.
  destruct (unwrap _) as [ty|e|x] eqn:E; [|done|by apply Hu in E]. destruct (TypeVariant_from_str ty); [|done].
  destruct (read_xdr_to_end _ field); [|done]. destruct (unwrap (serde_to_string _)) as [j|e|y] eqn:E2; [done|done|by apply Hu in E2].
Qed.

Lemma convertAnyBytes_holds L hs name field :
  refines (holds L hs) K (same K) (C_convertAnyBytes name field) (of_res (json_or_error (xdr_to_json_values name field))).
Proof.
  unfold C_convertAnyBytes. apply refines_with_CXDR. intros q Hq Hlq.
  apply (refines_with_block _ _ _ (Bytes C_malloc (with_nul name)) C_free); [intros p w Hp _; by apply C_free_dealloc|].
  intros p Hp Hlp. unfold C_xdr_to_json.
  apply (refines_ext _ _ _ _ (result ← attempt (convert_or_panic p (MkXdr q (slen field)));
    r ← (c ← conversion_to_c (caught result); c_alloc (ConversionBox c)); use_result r)).
  { intros w. unfold mbind, M_bind. by destruct (attempt _ w) as [[]]. }
  apply lookup_insert_None in Hlp as [_ Hne].
  set (r := match convert_values name field with Ok c => inl c | Err e => inr e | Panic m => inr (EMsg m) end).
  set (spec := attempt (of_res (S := S) (convert_values name field))).
  assert (refines (holds (<[p:=Bytes C_malloc (with_nul name)]> (<[q:=Bytes C_malloc field]> L)) hs) K (same K)
    (result ← attempt (convert_or_panic p (MkXdr q (slen field)));
     r ← (c ← conversion_to_c (caught result); c_alloc (ConversionBox c)); use_result r)
    (result ← spec; v ← of_res (Ok (strip_nul (fst (caught result)), strip_nul (snd (caught result)))); of_res (json_or_error v))) as Hr.
  { refines_call.
    - apply refines_attempt, convert_refines; [lia|apply lookup_insert_eq|].
      by rewrite lookup_insert_ne, lookup_insert_eq.
    - intros result. apply (refines_boxed _ conversion_rep _ _ _ _ ConversionBox _ json_or_error).
      + apply builds_refines; [apply conversion_builds|by eexists].
      + intros v m. unfold json_or_error. by case_decide.
      + intros. by eapply use_result_exact. }
  intros w s Hw. specialize (Hr w s Hw). unfold spec, xdr_to_json_values in *.
  unfold attempt, of_res, mbind, M_bind in *. pose proof (convert_values_no_crash name field) as Hc.
  destruct (convert_values name field) as [c|e|m]; [exact Hr|exact Hr|by destruct (Hc m)].
Qed.

End refinement.

(** ** The theorem *)

(** C29: where the converter that MethodJson.v takes from the SDK is the Rust
    function, the code on C memory answers what [MethodJson.convertAnyBytes]
    does, the errors of its caught panics included, and leaves the memory, the
    handles and the store as they were. *)
Theorem convertAnyBytes_refines `{RS : Rust} `{XC : XdrCrates} `{X : Sdk} {H S : Type} name field (w : cworld H S) :
  fresh_world w -> xdr_to_json name field = xdr_to_json_values name field ->
  exists w', C_convertAnyBytes name field w = (convertAnyBytes name field, w') /\
    c_heap w' = c_heap w /\ c_handles w' = c_handles w /\ c_store w' = c_store w.
Proof.
  intros Hf Hx. assert (holds ∅ ∅ w (c_store w)) as H0 by (split; [done|apply map_empty_subseteq..|done]).
  pose proof (convertAnyBytes_holds True ∅ ∅ name field w (c_store w) H0) as Hr.
  assert (convertAnyBytes name field = json_or_error (xdr_to_json_values name field)) as ->.
  { unfold convertAnyBytes, json_or_error. rewrite Hx. by destruct (xdr_to_json_values name field). }
  unfold of_res, json_or_error in *. destruct (decide (snd (xdr_to_json_values name field) <> "")).
  - destruct Hr as (w'&->&[_ _ _ Hs]&(_&Hh&Hd&_)). exists w'. split_and!; [done|by apply Hh|done|done].
  - destruct Hr as (a&w'&->&[_ _ _ Hs]&->&(_&Hh&Hd&_)). exists w'. split_and!; [done|by apply Hh|done|done].
Qed.

Section Witnesses.

#[local] Existing Instance ex_rust.
#[local] Existing Instance ex_sdk.

(** One type, whose values print as themselves. *)
#[local] Instance ex_crates : XdrCrates := {|
  XType := unit;
  XValue := string;
  TypeVariant_from_str := fun s => if decide (s = "LedgerKey") then inl tt else inr "unknown type";
  read_xdr_to_end := fun _ b => if decide (b = "bad") then inr "invalid" else inl b;
  serde_to_string := fun v => inl v;
|}.

Definition ex_memory : cworld unit unit := MkCworld {[17 := Bytes C_malloc "mine"]} 20 ∅ 1 tt.

Lemma ex_memory_fresh : fresh_world ex_memory.
Proof. split_and!; simpl; [done|..]; [intros p [x [<- _]%lookup_singleton_Some]; done|by intros h [x Hx]]. Qed.

Lemma ex_converts : xdr_to_json "LedgerKey" "key" = xdr_to_json_values "LedgerKey" "key".
Proof. vm_compute. reflexivity. Qed.

Lemma convertAnyBytes_refines_witness :
  exists w', C_convertAnyBytes "LedgerKey" "key" ex_memory = (Ok "key", w') /\ c_heap w' = c_heap ex_memory.
Proof.
  destruct (convertAnyBytes_refines "LedgerKey" "key" ex_memory ex_memory_fresh ex_converts) as (w'&Hr&Hh&_).
  exists w'. split; [exact Hr|exact Hh].
Defined.

(** A name that is no type, bytes that do not decode. *)
Example conversion_fails :
  fst (C_convertAnyBytes "Unknown" "key" ex_memory) =
    Err (EMsg "xdr_to_json() failed: couldn't match type Unknown: unknown type") /\
  fst (C_convertAnyBytes "LedgerKey" "bad" ex_memory) =
    Err (EMsg "xdr_to_json() failed: couldn't read LedgerKey: invalid").
Proof. vm_compute. by split. Qed.

End Witnesses.
