(* ===== verification/Config.v ===== *)
(** * The configuration engine: config/option.go, parse.go, flags.go, toml.go,
    log_format.go and main.go

    An option describes one field of the configuration: where it can be set
    (command line, environment, file), its default, how a value of a source is
    stored in the field and how the field is validated.  The [Config] struct is
    a map from the Go field's name to its value, a missing entry being the zero
    value; [ConfigKey], the pointer into the struct, is the field's name with the
    type it points to.  The interface values the sources deliver are [any].

    Taken as parameters: the TOML library (its trees, its reader and its
    decoder into structs), pflag's flag sets, logrus' levels, the case
    conversion of the SDK's strutils, and the calls to the operating system. *)

From S2P Require Import Prelude GoStd GoText.

(** ** Values *)

(** Widths of the integer types; [Word] is that of [int] and [uint], 64 bits on
    the platforms the server is built for. *)
Inductive width := Word | W8 | W16 | W32 | W64.

#[global] Instance width_eq_dec : EqDecision width.
Proof. solve_decision. Defined.

Definition bits (w : width) : Z :=
  match w with Word | W64 => 64 | W8 => 8 | W16 => 16 | W32 => 32 end.

(** The types of the fields; [KOther] is any other type, named for errors. *)
Inductive kind :=
  | KBool | KInt (w : width) | KUint (w : width) | KString | KStrings | KDuration
  | KOther (type : string).

#[global] Instance kind_eq_dec : EqDecision kind.
Proof. solve_decision. Defined.

(** What the TOML library and its users pass around: trees, and the values of
    the struct-typed fields they are decoded into. *)
Class TomlTypes := {
  Tree : Type;
  Struct : Type;
}.

(** The value of a field. *)
Inductive value `{TomlTypes} :=
  | VBool (b : bool) | VNum (z : Z) | VString (s : string) | VStrings (l : list string)
  | VStruct (s : Struct).

(** An element of a [[]interface{}]: a string, or something else with its rendering. *)
Inductive element := EStr (s : string) | EOther (v : string).

(** An interface value.  [AOther] is a value of a type no parser looks for (a
    float, a date), with the name of its type and its rendering. *)
Inductive any `{TomlTypes} :=
  | ANil | ABool (b : bool) | AInt (w : width) (z : Z) | AUint (w : width) (z : Z)
  | AString (s : string) | AStrings (l : list string) | AAnys (l : list element)
  | ADuration (d : Z) | ALevel (l : Z) | AFormat (f : Z) | ATree (t : Tree) | AOther (type v : string).

(** [networkConfig]: the configuration the SDK embeds for a network. *)
Record networkConfig := MkNetworkConfig {
  configFile : string;
  historyArchiveURLs : list string;
  networkPassphrase : string;
}.

(** The libraries. *)
Class ConfigSdk `{TomlTypes} := {
  KebabToConstantCase : string -> string;
  LoadReader : string -> Res (list (string * any));
  Tree_String : Tree -> string;
  toml_Marshal : Tree -> Res string;
  toml_Unmarshal : string -> M Struct unit;
  zero_struct : string -> Struct;
  ParseLevel : string -> Res Z;
  Level_String : Z -> string;
  InfoLevel : Z;
  TestnetParams : networkConfig;
  PubnetParams : networkConfig;
  FuturenetParams : networkConfig;
}.

(** pflag: a set of flags that can be extended, and read after the command line
    was parsed.  [Flag_Get k] is the getter of the flag type of [k]. *)
Class Pflag `{TomlTypes} := {
  FlagSet : Type;
  Flag_Declare : kind -> string -> any -> string -> FlagSet -> Res FlagSet;
  Flag_Changed : FlagSet -> string -> bool;
  Flag_Get : kind -> FlagSet -> string -> Res any;
}.

(** The operating system: the files made so far decide the next temporary name. *)
Class Os := {
  NumCPU : Z;
  LookPath : string -> string;
  Getwd : Res string;
  os_Open : string -> Res string;
  CreateTemp : list (string * string) -> Res string;
  os_Write : string -> Res unit;
}.

(** ** The configuration *)

Section config.
Context `{TT : TomlTypes}.

Record Config := MkConfig {
  fields : gmap string value;
  temp_files : list (string * string);
}.

Definition set_field (f : string) (v : value) (cfg : Config) : Config :=
  MkConfig (<[f := v]> (fields cfg)) (temp_files cfg).

(** Reading a field of a type: the zero value when it was never written. *)
Definition bool_field (f : string) (cfg : Config) : bool :=
  match fields cfg !! f with Some (VBool b) => b | _ => false end.
Definition num_field (f : string) (cfg : Config) : Z :=
  match fields cfg !! f with Some (VNum z) => z | _ => 0 end.
Definition string_field (f : string) (cfg : Config) : string :=
  match fields cfg !! f with Some (VString s) => s | _ => "" end.
Definition strings_field (f : string) (cfg : Config) : list string :=
  match fields cfg !! f with Some (VStrings l) => l | _ => [] end.

(** The part of [Option] the parsers and validators are given. *)
Record OptionInfo := MkOptionInfo {
  Name : string;
  EnvVar : string;
  TomlKey : string;
  Usage : string;
  ConfigKey : string * kind;
}.

(** The error of a validator: a missing required option is collected, anything
    else ends the validation. *)
Inductive validation_error :=
  | MissingRequired (strErr usage : string)
  | InvalidValue (e : error).

(** [Option]; [flag] tells whether the option was attached to a flag.  The
    [MarshalTOML] hook is [MarshalTOML_hook] of ConfigRender.v. *)
Record Option := MkOption {
  info :> OptionInfo;
  DefaultValue : any;
  CustomSetValue : option (OptionInfo -> any -> M Config unit);
  Validate : option (OptionInfo -> Config -> option validation_error * Config);
  flag : bool;
}.

Definition with_default (v : any) (o : Option) : Option :=
  MkOption (info o) v (CustomSetValue o) (Validate o) (flag o).
Definition with_flag (o : Option) : Option :=
  MkOption (info o) (DefaultValue o) (CustomSetValue o) (Validate o) true.

(** The field and the type behind [ConfigKey] *)
Definition key_field (o : OptionInfo) : string := fst (ConfigKey o).
Definition key_kind (o : OptionInfo) : kind := snd (ConfigKey o).
End config.

Arguments Config {_}.
Arguments Option {_}.

(** ** Rendering interface values ([%v] and [%T]) *)

Section rendering.
Context `{TT : TomlTypes} `{CS : !ConfigSdk}.

Definition width_name (w : width) : string :=
  match w with Word => "" | W8 => "8" | W16 => "16" | W32 => "32" | W64 => "64" end.

Definition render_element (e : element) : string := match e with EStr s => s | EOther v => v end.

Definition Sprint (i : any) : string :=
  match i with
  | ANil => "<nil>"
  | ABool b => if b then "true" else "false"
  | AInt _ z | AUint _ z | AFormat z => FormatInt z
  | AString s => s
  | AStrings l => "[" +:+ Join l " " +:+ "]"
  | AAnys l => "[" +:+ Join (render_element <$> l) " " +:+ "]"
  | ADuration d => Duration_String d
  | ALevel l => Level_String l
  | ATree t => Tree_String t
  | AOther _ v => v
  end.

Definition type_name (i : any) : string :=
  match i with
  | ANil => "<nil>"
  | ABool _ => "bool"
  | AInt w _ => "int" +:+ width_name w
  | AUint w _ => "uint" +:+ width_name w
  | AString _ => "string"
  | AStrings _ => "[]string"
  | AAnys _ => "[]interface {}"
  | ADuration _ => "time.Duration"
  | ALevel _ => "logrus.Level"
  | AFormat _ => "config.LogFormat"
  | ATree _ => "*toml.Tree"
  | AOther t _ => t
  end.

Definition kind_name (k : kind) : string :=
  match k with
  | KBool => "*bool"
  | KInt w => "*int" +:+ width_name w
  | KUint w => "*uint" +:+ width_name w
  | KString => "*string"
  | KStrings => "*[]string"
  | KDuration => "*time.Duration"
  | KOther t => "*" +:+ t
  end.
End rendering.

(** ** parse.go

    A parser delivers what it stores through [ConfigKey]: [Ok None] leaves the
    field as it is.  A failed type assertion or a reflection on the wrong kind
    panics. *)

Section parse.
Context `{TT : TomlTypes} `{CS : !ConfigSdk}.

(** The assertion that the key points to a bool, and the store *)
Definition store_bool (o : OptionInfo) (b : bool) : Res (option value) :=
  match key_kind o with
  | KBool => Ok (Some (VBool b))
  | k => Panic ("interface conversion: interface {} is " +:+ kind_name k +:+ ", not *bool")
  end.

(** [reflect.ValueOf(option.ConfigKey).Elem().SetInt(z)]: the low bits of the
    field's width are kept. *)
Definition SetInt (o : OptionInfo) (z : Z) : Res (option value) :=
  match key_kind o with
  | KInt w => Ok (Some (VNum ((z + 2 ^ (bits w - 1)) mod 2 ^ bits w - 2 ^ (bits w - 1))))
  | k => Panic ("reflect: call of reflect.Value.SetInt on " +:+ kind_name k +:+ " Value")
  end.

(** [reflect.ValueOf(option.ConfigKey).Elem().SetUint(z)] *)
Definition SetUint (o : OptionInfo) (z : Z) : Res (option value) :=
  match key_kind o with
  | KUint w => Ok (Some (VNum (z mod 2 ^ bits w)))
  | k => Panic ("reflect: call of reflect.Value.SetUint on " +:+ kind_name k +:+ " Value")
  end.

Definition parseBool (o : OptionInfo) (i : any) : Res (option value) :=
  match i with
  | ANil => Ok None
  | ABool v => store_bool o v
  | AString v =>
      match ParseBool (ToLower v) with
      | Ok b => store_bool o b
      | _ => Err (EMsg ("invalid boolean value " +:+ Name o +:+ ": " +:+ v))
      end
  | _ => Err (EMsg ("could not parse boolean " +:+ Name o +:+ ": " +:+ Sprint i))
  end.

(** The string case of [parseInt], which the integer cases come back to. *)
Definition parseInt_string (o : OptionInfo) (v : string) : Res (option value) :=
  parsed ← ParseInt v 64; SetInt o parsed.

Definition parseInt (o : OptionInfo) (i : any) : Res (option value) :=
  match i with
  | ANil => Ok None
  | AString v => parseInt_string o v
  | AInt _ _ | AUint _ _ => parseInt_string o (Sprint i)
  | _ => Err (EMsg ("could not parse int " +:+ Name o +:+ ": " +:+ Sprint i))
  end.

Definition parseUint_string (o : OptionInfo) (v : string) : Res (option value) :=
  parsed ← ParseUint v 64; SetUint o parsed.

Definition parseUint (o : OptionInfo) (i : any) : Res (option value) :=
  match i with
  | ANil => Ok None
  | AString v => parseUint_string o v
  | AInt _ z =>
      if decide (z < 0) then Err (EMsg (Name o +:+ " cannot be negative"))
      else parseUint_string o (Sprint i)
  | AUint _ _ => parseUint_string o (Sprint i)
  | _ => Err (EMsg ("could not parse uint " +:+ Name o +:+ ": " +:+ Sprint i))
  end.

Definition parseUint32_string (o : OptionInfo) (v : string) : Res (option value) :=
  parsed ← ParseUint v 64;
  if decide (2 ^ 32 - 1 < parsed) then Err (EMsg (Name o +:+ " overflows uint32"))
  else SetUint o parsed.

Definition parseUint32 (o : OptionInfo) (i : any) : Res (option value) :=
  match i with
  | ANil => Ok None
  | AString v => parseUint32_string o v
  | AInt _ z =>
      if decide (z < 0) then Err (EMsg (Name o +:+ " cannot be negative"))
      else parseUint32_string o (Sprint i)
  | AUint _ _ => parseUint32_string o (Sprint i)
  | _ => Err (EMsg ("could not parse uint32 " +:+ Name o +:+ ": " +:+ Sprint i))
  end.

Definition parseString (o : OptionInfo) (i : any) : Res (option value) :=
  match i with
  | ANil => Ok None
  | AString v =>
      if decide (key_kind o = KString) then Ok (Some (VString v))
      else Err (EMsg ("invalid type for " +:+ Name o +:+ ": expected *string"))
  | _ => Err (EMsg ("could not parse string " +:+ Name o +:+ ": " +:+ Sprint i))
  end.

Definition parseDuration (o : OptionInfo) (i : any) : Res (option value) :=
  if decide (key_kind o ≠ KDuration)
  then Err (EMsg ("invalid type for " +:+ Name o +:+ ": expected *time.Duration"))
  else match i with
  | ANil => Ok None
  | AString v =>
      match ParseDuration v with
      | Ok d => Ok (Some (VNum d))
      | Err e => Err (EWrap ("could not parse duration: " +:+ quoted v) e)
      | Panic m => Panic m
      end
  | ADuration v => Ok (Some (VNum v))
  | _ => Err (EMsg (Name o +:+ " is not a duration"))
  end.

(** The conversion of a [[]interface{}] into strings; [n] numbers the elements. *)
Fixpoint string_elements (o : OptionInfo) (n : Z) (l : list element) : Res (list string) :=
  match l with
  | [] => Ok []
  | EStr s :: l => r ← string_elements o (n + 1) l; Ok (s :: r)
  | EOther _ :: _ =>
      Err (EMsg ("could not parse " +:+ Name o +:+ ": element " +:+ FormatInt n +:+ " is not a string"))
  end.

Definition parseStringSlice (o : OptionInfo) (i : any) : Res (option value) :=
  if decide (key_kind o ≠ KStrings)
  then Err (EMsg ("invalid type for " +:+ Name o +:+ ": expected *[]string"))
  else match i with
  | ANil => Ok None
  | AString v => Ok (Some (VStrings (if decide (v = "") then [] else Split (char 44) v)))
  | AStrings v => Ok (Some (VStrings v))
  | AAnys v => result ← string_elements o 0 v; Ok (Some (VStrings result))
  | _ => Err (EMsg ("could not parse " +:+ Name o +:+ ": " +:+ Sprint i))
  end.

(** ** option.go *)

(** [getEnvKey]: [None] when the option is omitted from the environment *)
Definition getEnvKey (o : OptionInfo) : option string :=
  if decide (EnvVar o = "-" \/ EnvVar o = "_") then None
  else if decide (EnvVar o ≠ "") then Some (EnvVar o)
  else Some (KebabToConstantCase (Name o)).

Definition getTomlKey (o : OptionInfo) : option string :=
  if decide (TomlKey o = "-" \/ TomlKey o = "_") then None
  else if decide (TomlKey o ≠ "") then Some (TomlKey o)
  else match getEnvKey o with
  | Some envVar => Some envVar
  | None => Some (KebabToConstantCase (Name o))
  end.

(** The parser [setValue] picks from the type of the field.  No field of
    [Config] is a float, so [parseFloat] is not among them. *)
Definition parser (o : OptionInfo) (i : any) : Res (option value) :=
  match key_kind o with
  | KBool => parseBool o i
  | KInt _ => parseInt o i
  | KUint W64 => parseUint o i
  | KUint _ => parseUint32 o i
  | KString => parseString o i
  | KStrings => parseStringSlice o i
  | KDuration => parseDuration o i
  | KOther _ => Err (EMsg ("no parser for flag " +:+ Name o))
  end.

(** Storing what a parser delivered *)
Definition store (o : OptionInfo) (v : option value) : M Config unit :=
  match v with Some v => modify (set_field (key_field o) v) | None => mret tt end.

(** The deferred [recover] of [setValue]: a run-time error becomes the error. *)
Definition recover_error {A} (r : Res A) : Res A :=
  match r with Panic m => Err (EExt m) | r => r end.

Definition setValue (o : Option) (i : any) : M Config unit :=
  match CustomSetValue o with
  | Some f => f (info o) i
  | None => v ← of_res (recover_error (parser o i)); store o v
  end.
End parse.

(** ** log_format.go *)

Definition LogFormatText : Z := 0.
Definition LogFormatJSON : Z := 1.

Definition LogFormat_String (f : Z) : Res string :=
  if decide (f = LogFormatText) then Ok "text"
  else if decide (f = LogFormatJSON) then Ok "json"
  else Err (EMsg ("unknown log format: " +:+ FormatInt f)).

Definition LogFormat_UnmarshalText (text : string) : Res Z :=
  if decide (text = "text") then Ok LogFormatText
  else if decide (text = "json") then Ok LogFormatJSON
  else Err (EMsg ("unknown log format: " +:+ text)).

(** ** flags.go *)

Section flags.
Context `{TT : TomlTypes} `{CS : !ConfigSdk} `{PF : !Pflag}.

(** The type assertion on the default: [any_has_kind k i] when the dynamic type
    of [i] is the type [k] points to. *)
Definition any_has_kind (k : kind) (i : any) : bool :=
  match k, i with
  | KBool, ABool _ | KString, AString _ | KStrings, AStrings _ | KDuration, ADuration _ => true
  | KInt w, AInt w' _ | KUint w, AUint w' _ => bool_decide (w = w')
  | _, _ => false
  end.

Definition UsageText (o : OptionInfo) : string :=
  match getEnvKey o with
  | Some envVar => Usage o +:+ " (" +:+ envVar +:+ ")"
  | None => Usage o
  end.

(** [AddFlag]: the option with the default and the flag it was given, and the
    flag set.  The slices of integers, the addresses and the floats have flag
    types too, but no field of [Config] has one of these types. *)
Definition AddFlag (o : Option) (fs : FlagSet) : Res (Option * FlagSet) :=
  if decide (Name o = "") then Ok (o, fs)
  else match CustomSetValue o with
  | Some _ =>
      let o := match DefaultValue o with ANil => with_default (AString "") o | _ => o end in
      fs ← Flag_Declare KString (Name o) (AString (Sprint (DefaultValue o))) (UsageText o) fs;
      Ok (with_flag o, fs)
  | None =>
      match key_kind o with
      | KOther _ => Err (EMsg ("unexpected option type: " +:+ kind_name (key_kind o)))
      | k =>
          let o := match k, DefaultValue o with
                   | KString, ANil => with_default (AString "") o
                   | KStrings, ANil => with_default (AStrings []) o
                   | _, _ => o
                   end in
          if any_has_kind k (DefaultValue o)
          then fs ← Flag_Declare k (Name o) (DefaultValue o) (UsageText o) fs; Ok (with_flag o, fs)
          else Panic ("interface conversion: interface {} is " +:+ type_name (DefaultValue o))
      end
  end.

(** [AddFlags] over the options of the configuration *)
Fixpoint AddFlags (opts : list Option) (fs : FlagSet) : Res (list Option * FlagSet) :=
  match opts with
  | [] => Ok ([], fs)
  | o :: opts =>
      '(o, fs) ← AddFlag o fs;
      '(opts, fs) ← AddFlags opts fs;
      Ok (o :: opts, fs)
  end.

Definition GetFlag (o : Option) (fs : FlagSet) : Res any :=
  match CustomSetValue o with
  | Some _ => Flag_Get KString fs (Name o)
  | None =>
      match key_kind o with
      | KOther _ => Err (EMsg ("unexpected option type: " +:+ kind_name (key_kind o)))
      | k => Flag_Get k fs (Name o)
      end
  end.
End flags.

(** ** main.go and toml.go: loading the sources *)

Section load.
Context `{TT : TomlTypes} `{CS : !ConfigSdk} `{PF : !Pflag} `{OS : Os}.

Definition Version : string := "0.0.0".

Definition loadDefaults (opts : list Option) : M Config unit :=
  for_each opts (fun o =>
    match DefaultValue o with ANil => mret tt | v => setValue o v end);;
  modify (set_field "HistoryArchiveUserAgent" (VString ("stellar-rpc/" +:+ Version))).

Definition loadEnv (lookupEnv : string -> option string) (opts : list Option) : M Config unit :=
  for_each opts (fun o =>
    match getEnvKey o with
    | None => mret tt
    | Some key =>
        match lookupEnv key with
        | None => mret tt
        | Some v => setValue o (AString v)
        end
    end).

Definition loadFlags (fs : FlagSet) (opts : list Option) : M Config unit :=
  for_each opts (fun o =>
    if negb (flag o) || negb (Flag_Changed fs (Name o)) then mret tt
    else v ← of_res (GetFlag o fs); setValue o v).

(** [tree.Get] of a top-level key, and [tree.Keys] *)
Fixpoint tree_Get (tree : list (string * any)) (key : string) : option any :=
  match tree with
  | [] => None
  | (k, v) :: tree => if decide (k = key) then Some v else tree_Get tree key
  end.

Definition load_tree (tree : list (string * any)) (opts : list Option) : M Config unit :=
  for_each opts (fun o =>
    match getTomlKey o with
    | None => mret tt
    | Some key =>
        match tree_Get tree key with
        | None | Some ANil => mret tt
        | Some v => setValue o v
        end
    end).

(** [validKeys] *)
Definition valid_keys (opts : list Option) : list string := omap (fun o : Option => getTomlKey o) opts.

Definition unexpected_keys (tree : list (string * any)) (opts : list Option) : list string :=
  filter (fun key => key ∉ valid_keys opts) tree.*1.

Definition parseToml (content : string) (strict : bool) (opts : list Option) : M Config unit :=
  tree ← of_res (LoadReader content);
  load_tree tree opts;;
  strict' ← gets (bool_field "Strict");
  if strict' || strict then
    match unexpected_keys tree opts with
    | [] => mret tt
    | key :: _ => fail (EMsg ("invalid config: unexpected entry specified in toml file " +:+ quoted key))
    end
  else mret tt.

Definition loadConfigPath (opts : list Option) : M Config unit :=
  path ← gets (string_field "ConfigPath");
  content ← of_res (os_Open path);
  strict ← gets (bool_field "Strict");
  parseToml content strict opts.

Definition SetValues (lookupEnv : string -> option string) (fs : FlagSet) (opts : list Option) : M Config unit :=
  loadDefaults opts;;
  loadEnv lookupEnv opts;;
  loadFlags fs opts;;
  path ← gets (string_field "ConfigPath");
  if decide (path ≠ "") then
    loadConfigPath opts;;
    loadEnv lookupEnv opts;;
    loadFlags fs opts
  else mret tt.

(** [ExtendedUserAgent] *)
Definition ExtendedUserAgent (extension : string) (cfg : Config) : string :=
  let agent := string_field "HistoryArchiveUserAgent" cfg in
  if decide (agent = "") then extension else agent +:+ "/" +:+ extension.

(** ** Validation *)

Definition missing_line (m : string * string) : string :=
  String (char 10) "*" +:+ String (char 9) (fst m) +:+ String (char 10) " " +:+ String (char 9) (snd m).

(** [Options.Validate]: the missing options are collected, any other error ends
    the loop. *)
Fixpoint validate_loop (opts : list Option) (missing : list (string * string)) (cfg : Config) :
    option error * Config :=
  match opts with
  | [] =>
      match missing with
      | [] => (None, cfg)
      | _ => (Some (EMsg ("The following required configuration parameters are missing:" +:+
                Join (missing_line <$> missing) "")), cfg)
      end
  | o :: opts =>
      match Validate o with
      | None => validate_loop opts missing cfg
      | Some validate =>
          match validate (info o) cfg with
          | (None, cfg) => validate_loop opts missing cfg
          | (Some (MissingRequired strErr usage), cfg) => validate_loop opts (missing ++ [(strErr, usage)]) cfg
          | (Some (InvalidValue e), cfg) => (Some (EWrap ("invalid config value for " +:+ Name o) e), cfg)
          end
      end
  end.

Definition Options_Validate (opts : list Option) (cfg : Config) : option error * Config :=
  validate_loop opts [] cfg.
End load.

(** ** What a source contributes to a field *)

Section sources.
Context `{TT : TomlTypes} `{CS : !ConfigSdk} `{PF : !Pflag} `{OS : Os}.

(** The value a plain option stores for an interface value, if any *)
Definition stored (o : OptionInfo) (i : any) : option value :=
  match parser o i with Ok v => v | _ => None end.

Definition default_value (o : Option) : option value := stored o (DefaultValue o).

Definition env_value (lookupEnv : string -> option string) (o : Option) : option value :=
  key ← getEnvKey o; v ← lookupEnv key; stored o (AString v).

Definition flag_value (fs : FlagSet) (o : Option) : option value :=
  if flag o && Flag_Changed fs (Name o) then
    match GetFlag o fs with Ok v => stored o v | _ => None end
  else None.

(** The file at [path], when there is one *)
Definition file_tree (path : string) : option (list (string * any)) :=
  if decide (path = "") then None
  else match (content ← os_Open path; LoadReader content) with Ok tree => Some tree | _ => None end.

Definition tree_value (tree : list (string * any)) (o : Option) : option value :=
  key ← getTomlKey o; v ← tree_Get tree key; stored o v.

Definition file_value (path : string) (o : Option) : option value :=
  tree ← file_tree path; tree_value tree o.

(** A call that leaves a field alone, whether it fails or not *)
Definition leaves {A} (f : string) (m : M Config A) : Prop :=
  forall s, fields (m s).2 !! f = fields s !! f.

(** A call that, when it succeeds, stores [v] in the field if there is one *)
Definition puts (f : string) (v : option value) (m : M Config unit) : Prop :=
  forall s s', m s = (Ok tt, s') -> fields s' !! f = v ∪ fields s !! f.

Lemma leaves_puts f m : leaves f m -> puts f None m.
Proof.
  intros H s s' E. pose proof (H s) as Hs. rewrite E in Hs. simpl in Hs. rewrite Hs.
  by destruct (fields s !! f).
Qed.

Lemma leaves_ret {A} f (a : A) : leaves f (mret a).
Proof. by intros s. Qed.
Lemma leaves_fail {A} f e : leaves f (@fail Config A e).
Proof. by intros s. Qed.
Lemma leaves_panic {A} f m : leaves f (@panic Config A m).
Proof. by intros s. Qed.
Lemma leaves_gets {A} f (g : Config -> A) : leaves f (gets g).
Proof. by intros s. Qed.
Lemma leaves_of_res {A} f (r : Res A) : leaves f (of_res r).
Proof. by intros s. Qed.
Lemma leaves_attempt_res {A} f (r : Res A) : leaves f (attempt (of_res r)).
Proof. intros s. unfold attempt, of_res. by destruct r. Qed.
Lemma leaves_bind {A B} f (m : M Config A) (k : A -> M Config B) :
  leaves f m -> (forall a, leaves f (k a)) -> leaves f (a ← m; k a).
Proof.
  intros Hm Hk s. unfold mbind, M_bind. pose proof (Hm s) as E. destruct (m s) as [[] ?]; [|done..].
  simpl in *. rewrite <- E. apply Hk.
Qed.
Lemma leaves_map_err {A} f g (m : M Config A) : leaves f m -> leaves f (map_err g m).
Proof. intros Hm s. unfold map_err. specialize (Hm s). by destruct (m s) as [[] ?]. Qed.
Lemma leaves_set f g v : f ≠ g -> leaves f (modify (set_field g v)).
Proof. intros Hf s. simpl. by rewrite lookup_insert_ne. Qed.

Lemma puts_ret f : puts f None (mret tt).
Proof. intros s s' [= <-]. by destruct (fields s !! f). Qed.

(** Later writes win. *)
Lemma puts_bind f v w m k : puts f v m -> puts f w k -> puts f (w ∪ v) (m ;; k).
Proof.
  intros Hm Hk s s'. unfold mbind, M_bind. destruct (m s) as [[[]| |] s1] eqn:E; [|done..].
  intros E'. rewrite (Hk _ _ E'), (Hm _ _ E). by destruct w, v, (fields s !! f).
Qed.

Lemma puts_get {A} f v (g : M Config A) (k : A -> M Config unit) :
  (forall s, (g s).2 = s) -> (forall a s, g s = (Ok a, s) -> puts f v (k a)) -> puts f v (a ← g; k a).
Proof.
  intros Hg Hk s s'. unfold mbind, M_bind. pose proof (Hg s) as E. destruct (g s) as [[a| |] s1] eqn:E1; [|done..].
  simpl in E. subst s1. intros H. by apply (Hk a s).
Qed.

Lemma puts_modify f g v : puts f (if decide (f = g) then Some v else None) (modify (set_field g v)).
Proof.
  intros s s' [= <-]. simpl. case_decide; subst.
  - rewrite lookup_insert_eq. by destruct (fields s !! g).
  - rewrite lookup_insert_ne by done. by destruct (fields s !! f).
Qed.

Lemma puts_for_each_none f body (l : list Option) :
  (forall o, o ∈ l -> puts f None (body o)) -> puts f None (for_each l body).
Proof.
  induction l as [|o l IH]; intros H; [apply puts_ret|]. simpl.
  apply (puts_bind f None None); [apply H|apply IH; intros; apply H]; set_solver.
Qed.

(** In a loop over the options only one of them is about a field. *)
Lemma puts_for_each f v body (l1 : list Option) o l2 :
  (forall o', o' ∈ l1 ++ l2 -> puts f None (body o')) -> puts f v (body o) ->
  puts f v (for_each (l1 ++ o :: l2) body).
Proof.
  intros Hothers Ho s s' H. rewrite for_each_app in H. revert s s' H.
  assert (puts f ((None ∪ v) ∪ None) (for_each l1 body;; (body o ;; for_each l2 body))) as Hp.
  { apply puts_bind; [apply puts_for_each_none; intros; apply Hothers; set_solver|].
    apply puts_bind; [done|apply puts_for_each_none; intros; apply Hothers; set_solver]. }
  destruct v; done.
Qed.

(** A nil value stores nothing. *)
Lemma stored_nil o : stored o ANil = None.
Proof.
  unfold stored, parser. destruct (key_kind o) as [|w|[]| | | |] eqn:Ek; try done;
    unfold parseDuration, parseStringSlice; rewrite Ek; try done; by rewrite decide_False by naive_solver.
Qed.

Lemma puts_setValue o i :
  CustomSetValue o = None -> puts (key_field o) (stored o i) (setValue o i).
Proof.
  intros Hc s s'. unfold setValue, stored. rewrite Hc. unfold_m. destruct (parser o i) as [[v|]|e|m]; simpl; [| |done..].
  - intros H. apply (puts_modify (key_field o) (key_field o) v) in H. by rewrite decide_True in H.
  - apply puts_ret.
Qed.

(** A plain option writes its own field only. *)
Lemma leaves_setValue f o i :
  CustomSetValue o = None -> f ≠ key_field o -> leaves f (setValue o i).
Proof.
  intros Hc Hf s. unfold setValue. rewrite Hc. unfold_m. unfold recover_error.
  destruct (parser o i) as [[v|]|e|m]; simpl; [|done..]. by rewrite lookup_insert_ne.
Qed.

(** ** The precedence of the sources, for one plain option among others *)

(** The sources that are read before the file *)
Definition first_pass (lookupEnv : string -> option string) (fs : FlagSet) (opts : list Option) : M Config unit :=
  loadDefaults opts;; loadEnv lookupEnv opts;; loadFlags fs opts.

Lemma SetValues_split lookupEnv fs opts s :
  SetValues lookupEnv fs opts s = (first_pass lookupEnv fs opts;; path ← gets (string_field "ConfigPath");
    if decide (path ≠ "") then loadConfigPath opts;; loadEnv lookupEnv opts;; loadFlags fs opts else mret tt) s.
Proof.
  unfold SetValues, first_pass, mbind, M_bind. by destruct (loadDefaults opts s) as [[] ?];
    [destruct (loadEnv lookupEnv opts _) as [[] ?]|..].
Qed.

Section precedence.
Context (lookupEnv : string -> option string) (fs : FlagSet) (l1 l2 : list Option) (o : Option).
Let opts := l1 ++ o :: l2.
Hypothesis plain : CustomSetValue o = None.
Hypothesis own_field : forall o' i, o' ∈ l1 ++ l2 -> leaves (key_field o) (setValue o' i).
Hypothesis not_agent : key_field o ≠ "HistoryArchiveUserAgent".

Lemma loadDefaults_puts : puts (key_field o) (default_value o) (loadDefaults opts).
Proof.
  unfold loadDefaults. intros s s' H.
  pose proof (puts_bind (key_field o) (default_value o) None
    (for_each opts (fun o => match DefaultValue o with ANil => mret tt | v => setValue o v end))
    (modify (set_field "HistoryArchiveUserAgent" (VString ("stellar-rpc/" +:+ Version))))) as Hb.
  assert (forall v : option value, None ∪ v = v) as Hn by by intros [].
  rewrite Hn in Hb. eapply Hb; [| |exact H].
  - apply puts_for_each.
    + intros o' Ho'. destruct (DefaultValue o'); first [apply puts_ret|by apply leaves_puts, own_field].
    + unfold default_value. destruct (DefaultValue o) eqn:E; try by apply puts_setValue.
      rewrite stored_nil. apply puts_ret.
  - intros s1 s2 Hs. pose proof (puts_modify (key_field o) _ _ _ _ Hs) as Hm. by rewrite decide_False in Hm.
Qed.

Lemma loadEnv_puts : puts (key_field o) (env_value lookupEnv o) (loadEnv lookupEnv opts).
Proof.
  apply puts_for_each.
  - intros o' Ho'. destruct (getEnvKey o') as [key|]; [|apply puts_ret].
    destruct (lookupEnv key); [by apply leaves_puts, own_field|apply puts_ret].
  - unfold env_value. destruct (getEnvKey o) as [key|]; simpl; [|apply puts_ret].
    destruct (lookupEnv key); simpl; [by apply puts_setValue|apply puts_ret].
Qed.

Lemma loadFlags_puts : puts (key_field o) (flag_value fs o) (loadFlags fs opts).
Proof.
  apply puts_for_each.
  - intros o' Ho'. destruct (_ || _); [apply puts_ret|].
    apply puts_get; [done|]. intros v _ _. by apply leaves_puts, own_field.
  - unfold flag_value. destruct (flag o), (Flag_Changed fs (Name o)); simpl; try apply puts_ret.
    destruct (GetFlag o fs) eqn:E; [by apply puts_setValue|by intros ??..].
Qed.

Lemma load_tree_puts tree : puts (key_field o) (tree_value tree o) (load_tree tree opts).
Proof.
  apply puts_for_each.
  - intros o' Ho'. destruct (getTomlKey o') as [key|]; [|apply puts_ret].
    destruct (tree_Get tree key) as [[]|]; first [apply puts_ret|by apply leaves_puts, own_field].
  - unfold tree_value. destruct (getTomlKey o) as [key|]; simpl; [|apply puts_ret].
    destruct (tree_Get tree key) as [v|]; simpl; [|apply puts_ret].
    destruct v eqn:E; try by apply puts_setValue.
    rewrite stored_nil. apply puts_ret.
Qed.

Lemma first_pass_puts :
  puts (key_field o) (flag_value fs o ∪ env_value lookupEnv o ∪ default_value o)
    (first_pass lookupEnv fs opts).
Proof.
  apply puts_bind; [apply loadDefaults_puts|]. apply puts_bind; [apply loadEnv_puts|apply loadFlags_puts].
Qed.

Lemma loadConfigPath_field s s' :
  string_field "ConfigPath" s ≠ "" -> loadConfigPath opts s = (Ok tt, s') ->
  fields s' !! key_field o = file_value (string_field "ConfigPath" s) o ∪ fields s !! key_field o.
Proof.
  intros Hp. unfold loadConfigPath, parseToml, file_value, file_tree. rewrite decide_False by done.
  unfold gets, of_res, mbind, M_bind, option_bind, Res_bind.
  destruct (os_Open (string_field "ConfigPath" s)) as [content| |]; [|done..].
  destruct (LoadReader content) as [tree| |]; [|done..].
  destruct (load_tree tree opts s) as [[[]| |] s1] eqn:E; [|done..].
  apply load_tree_puts in E. rewrite <- E. destruct (_ || _); [|by intros [= <-]].
  destruct (unexpected_keys tree opts); [by intros [= <-]|done].
Qed.

(** Flags override the environment, the environment the file, the file the
    defaults, and what the field held before is kept when no source has it. *)
Lemma SetValues_field s s' :
  SetValues lookupEnv fs opts s = (Ok tt, s') ->
  fields s' !! key_field o =
    flag_value fs o ∪ env_value lookupEnv o ∪ file_value (string_field "ConfigPath" (first_pass lookupEnv fs opts s).2) o ∪
    default_value o ∪ fields s !! key_field o.
Proof.
  intros H. pose proof first_pass_puts as Hfirst. specialize (Hfirst s).
  rewrite SetValues_split in H. unfold mbind at 1, M_bind at 1 in H.
  destruct (first_pass lookupEnv fs opts s) as [[[]| |] s1] eqn:E1; [|done..]. specialize (Hfirst s1 eq_refl).
  simpl. unfold gets at 1, mbind at 1, M_bind at 1 in H. destruct (decide (string_field "ConfigPath" s1 ≠ "")) as [Hp|Hp].
  - unfold mbind at 1, M_bind at 1 in H. destruct (loadConfigPath opts s1) as [[[]| |] s2] eqn:E2; [|done..].
    apply loadConfigPath_field in E2; [|done].
    apply (puts_bind (key_field o) _ _ _ _ loadEnv_puts loadFlags_puts) in H. rewrite H, E2, Hfirst.
    destruct (flag_value fs o), (env_value lookupEnv o), (file_value _ o), (default_value o), (fields s !! _); done.
  - injection H as <-. rewrite Hfirst. apply dec_stable in Hp. unfold file_value, file_tree. rewrite decide_True by done.
    destruct (flag_value fs o), (env_value lookupEnv o), (default_value o), (fields s !! _); done.
Qed.
End precedence.
End sources.

Create HintDb leaves.
#[export] Hint Resolve leaves_ret leaves_fail leaves_panic leaves_gets leaves_of_res leaves_attempt_res leaves_bind
  leaves_map_err leaves_set : leaves.

(** ** What attaching an option to a flag keeps *)

Section attach.
Context `{TT : TomlTypes} `{CS : !ConfigSdk} `{PF : !Pflag}.

Record same_option (o o' : Option) : Prop := {
  same_info : info o' = info o;
  same_custom : CustomSetValue o' = CustomSetValue o;
  same_validate : Validate o' = Validate o;
  same_default : DefaultValue o' = DefaultValue o \/
    DefaultValue o = ANil /\ (DefaultValue o' = AString "" \/ DefaultValue o' = AStrings []);
}.

Lemma AddFlag_same o fs o' fs' : AddFlag o fs = Ok (o', fs') -> same_option o o'.
Proof.
  unfold AddFlag. intros H. destruct (decide (Name o = "")) as [|Hn]; [injection H as <- _; split; auto|].
  destruct (CustomSetValue o) eqn:Ec.
  - destruct (DefaultValue o) eqn:Ed; revert H; unfold mbind, Res_bind;
      (destruct (Flag_Declare _ _ _ _ _); [|done..]); intros [= <- _]; split; csimpl; auto.
  - destruct (key_kind o) eqn:Ek, (DefaultValue o) eqn:Ed; simpl in H; try done; revert H;
      rewrite ?Ed; unfold mbind, Res_bind; csimpl; repeat case_decide; repeat case_bool_decide; try done;
      (destruct (Flag_Declare _ _ _ _ _); [|done..]); intros [= <- _]; split; csimpl; auto.
Qed.

Lemma AddFlags_same opts fs opts' fs' : AddFlags opts fs = Ok (opts', fs') -> Forall2 same_option opts opts'.
Proof.
  revert fs opts' fs'. induction opts as [|o opts IH]; intros fs opts' fs'; simpl; [by intros [= <- _]|].
  unfold mbind, Res_bind. destruct (AddFlag o fs) as [[o' fs1]| |] eqn:E1; [|done..].
  destruct (AddFlags opts fs1) as [[opts1 fs2]| |] eqn:E2; [|done..].
  intros [= <- _]. constructor; [by eapply AddFlag_same|by eapply IH].
Qed.

Lemma Forall2_same_elem opts opts' (o' : Option) :
  Forall2 same_option opts opts' -> o' ∈ opts' -> exists o : Option, o ∈ opts /\ same_option o o'.
Proof. induction 1 as [|o1 o2 l l' H _ IH]; [set_solver|]. intros [->|Hin]%elem_of_cons; set_solver. Qed.

Lemma same_options_fields opts opts' :
  Forall2 same_option opts opts' -> (fun o : Option => key_field o) <$> opts' = (fun o : Option => key_field o) <$> opts.
Proof. induction 1 as [|o o' l l' H _ IH]; csimpl; [done|]. by rewrite IH, (same_info _ _ H). Qed.
End attach.

(** ** The types of the fields *)

Section types.
Context `{TT : TomlTypes} `{CS : !ConfigSdk}.

(** The values of a type: integers within their width, durations of 64 bits.  An
    [uint] is read by [parseUint32], so it has 32 bits whatever its width. *)
Definition value_ok (k : kind) (v : value) : Prop :=
  match k, v with
  | KBool, VBool _ | KString, VString _ | KStrings, VStrings _ => True
  | KInt w, VNum z => - 2 ^ (bits w - 1) <= z < 2 ^ (bits w - 1)
  | KUint w, VNum z => 0 <= z < 2 ^ bits w /\ (w = Word -> z < 2 ^ 32)
  | KDuration, VNum z => - 2 ^ 63 <= z < 2 ^ 63
  | KOther type, VNum z => type = "logrus.Level" \/ type = "config.LogFormat" /\ (z = 0 \/ z = 1)
  | KOther type, VStruct _ => type ∉ ["logrus.Level"; "config.LogFormat"]
  | _, _ => False
  end.

(** An interface value a source can hold: a duration of 64 bits, a known format *)
Definition any_ok (i : any) : Prop :=
  match i with
  | ADuration d => - 2 ^ 63 <= d < 2 ^ 63
  | AFormat f => f = LogFormatText \/ f = LogFormatJSON
  | _ => True
  end.

Lemma bits_pos w : 0 < bits w.
Proof. by destruct w. Qed.

Lemma SetInt_ok o z v : SetInt o z = Ok (Some v) -> value_ok (key_kind o) v.
Proof.
  unfold SetInt. destruct (key_kind o) as [|w|w| | | |] eqn:Ek; try done. intros [= <-]. simpl.
  pose proof (bits_pos w). assert (2 ^ bits w = 2 * 2 ^ (bits w - 1)) as E
    by (rewrite <- Z.pow_succ_r by lia; f_equal; lia).
  pose proof (Z.mod_pos_bound (z + 2 ^ (bits w - 1)) (2 ^ bits w) ltac:(lia)). lia.
Qed.

Lemma SetUint_ok o z v :
  (key_kind o = KUint Word -> 0 <= z < 2 ^ 32) -> SetUint o z = Ok (Some v) -> value_ok (key_kind o) v.
Proof.
  unfold SetUint. destruct (key_kind o) as [|w|w| | | |]; try done. intros Hz [= <-]. simpl.
  pose proof (bits_pos w). split; [apply Z.mod_pos_bound; lia|]. intros ->. specialize (Hz eq_refl).
  simpl. rewrite Z.mod_small; lia.
Qed.

Lemma ParseUint_nonneg s b z : ParseUint s b = Ok z -> 0 <= z.
Proof. unfold ParseUint. case_decide; [done|]. destruct (parse_digits s 0); [|done]. case_decide; [|done]. intros [= <-]. lia. Qed.

(** What a parser delivers has the type of the field. *)
Lemma parser_ok o i v : any_ok i -> parser o i = Ok (Some v) -> value_ok (key_kind o) v.
Proof.
  intros Hi. unfold parser. destruct (key_kind o) as [|w|w| | | |] eqn:Ek.
  - unfold parseBool, store_bool. rewrite Ek. destruct i; try done; [by intros [= <-]|].
    destruct (ParseBool _); try done. by intros [= <-].
  - rewrite <- Ek. unfold parseInt, parseInt_string. destruct i; try done; unfold mbind, Res_bind;
      (destruct (ParseInt _ _); [|done..]); apply SetInt_ok.
  - rewrite <- Ek. intros H. assert (w ≠ Word /\ parseUint o i = Ok (Some v) \/ parseUint32 o i = Ok (Some v)) as [[Hw H']|H']
      by (destruct w; auto); revert H'; clear H.
    + unfold parseUint, parseUint_string. destruct i; try done; try case_decide; try done; unfold mbind, Res_bind;
        (destruct (ParseUint _ _); [|done..]); apply SetUint_ok; congruence.
    + unfold parseUint32, parseUint32_string. destruct i; try done; repeat (try case_decide; try done);
        unfold mbind, Res_bind; (destruct (ParseUint _ _) eqn:Ep; [|done..]); (case_decide; [done|]);
        apply SetUint_ok; apply ParseUint_nonneg in Ep; lia.
  - unfold parseString. rewrite Ek. destruct i; try done. rewrite decide_True by done. by intros [= <-].
  - unfold parseStringSlice. rewrite Ek, decide_False by (intros []; done). destruct i; try done.
    + by intros [= <-].
    + by intros [= <-].
    + unfold mbind, Res_bind. destruct (string_elements _ _ _); try done. by intros [= <-].
  - unfold parseDuration. rewrite Ek, decide_False by (intros []; done). destruct i; try done.
    + destruct (ParseDuration s) as [d| |] eqn:Ed; try done. intros [= <-]. by apply (ParseDuration_range s).
    + by intros [= <-].
  - done.
Qed.
End types.
