(* ===== verification/ConfigOptions.v ===== *)
(** * The options of the server: config/options.go

    The table of [Config.options], its custom setters and its validators.  An
    option that is not given a name has no flag, and one that is given a TOML key
    only can be set in the file only.  Numbers of CPUs, the path of stellar-core
    and the working directory come from the operating system; the struct-typed
    options are decoded by the TOML library. *)

From S2P Require Import Prelude GoStd GoText Config.

Definition OneDayOfLedgers : Z := 17280.
Definition SevenDayOfLedgers : Z := OneDayOfLedgers * 7.
Definition MaxFeeStatsRetentionWindow : Z := 1000.
Definition defaultHTTPEndpoint : string := "localhost:8000".
Definition defaultCaptiveCoreHTTPPort : Z := 11626.
Definition defaultCaptiveCoreHTTPQueryPort : Z := 11628.

(** ** Validators *)

Section validators.
Context `{TT : TomlTypes} `{CS : !ConfigSdk}.

(** [positive] *)
Definition positive (o : OptionInfo) (cfg : Config) : option validation_error * Config :=
  match key_kind o with
  | KInt _ | KUint _ =>
      if decide (num_field (key_field o) cfg <= 0)
      then (Some (InvalidValue (EMsg (Name o +:+ " must be positive"))), cfg) else (None, cfg)
  | _ => (Some (InvalidValue (EMsg (Name o +:+ " is not a positive integer"))), cfg)
  end.

Definition feeStatsRetentionWindowValidator (o : OptionInfo) (cfg : Config) : option validation_error * Config :=
  match positive o cfg with
  | (Some e, cfg) => (Some e, cfg)
  | (None, cfg) =>
      if decide (key_kind o ≠ KUint W32)
      then (Some (InvalidValue (EMsg (Name o +:+ " is not a uint32"))), cfg)
      else
        let v := num_field (key_field o) cfg in
        if decide (MaxFeeStatsRetentionWindow < v)
        then (Some (InvalidValue (EMsg (Name o +:+ " cannot exceed " +:+ FormatInt MaxFeeStatsRetentionWindow +:+
                " ledgers (got " +:+ FormatInt v +:+ ")"))), cfg)
        else (None, cfg)
  end.

(** [isSet]: a slice with elements, or a value that is not the zero value *)
Definition is_set (o : OptionInfo) (cfg : Config) : bool :=
  let f := key_field o in
  match key_kind o with
  | KBool => bool_field f cfg
  | KInt _ | KUint _ | KDuration => negb (bool_decide (num_field f cfg = 0))
  | KString => negb (bool_decide (string_field f cfg = ""))
  | KStrings => negb (bool_decide (strings_field f cfg = []))
  | KOther _ => bool_decide (is_Some (fields cfg !! f))
  end.

(** [waysToSet] *)
Definition ways_to_set (o : OptionInfo) : list string :=
  (if decide (Name o ≠ "" /\ Name o ≠ "-") then ["specify --" +:+ Name o +:+ " on the command line"] else []) ++
  (if decide (EnvVar o ≠ "" /\ EnvVar o ≠ "-") then ["set the " +:+ EnvVar o +:+ " environment variable"] else []) ++
  (match getTomlKey o with Some tomlKey => ["set " +:+ tomlKey +:+ " in the config file"] | None => [] end).

Definition required (o : OptionInfo) (cfg : Config) : option validation_error * Config :=
  if is_set o cfg then (None, cfg)
  else
    let advice := match ways_to_set o with
                  | [a] => " Please " +:+ a +:+ "."
                  | [a; b] => " Please " +:+ a +:+ " or " +:+ b +:+ "."
                  | [a; b; c] => " Please " +:+ a +:+ ", " +:+ b +:+ ", or " +:+ c +:+ "."
                  | _ => ""
                  end in
    (Some (MissingRequired (Name o +:+ " is required." +:+ advice) (Usage o)), cfg).

(** The validator of [stellar-core-url], which sets a default *)
Definition default_core_url (o : OptionInfo) (cfg : Config) : option validation_error * Config :=
  (None, if decide (string_field "StellarCoreURL" cfg = "")
         then set_field "StellarCoreURL"
                (VString ("http://localhost:" +:+ FormatInt (num_field "CaptiveCoreHTTPPort" cfg))) cfg
         else cfg).

(** The validator of [backfill] *)
Definition backfill_needs_datastore (o : OptionInfo) (cfg : Config) : option validation_error * Config :=
  if bool_field "Backfill" cfg && negb (bool_field "ServeLedgersFromDatastore" cfg)
  then (Some (InvalidValue (EMsg ("backfill requires serving ledgers from datastore to be enabled. " +:+
          "See the `--serve-ledgers-from-datastore` flag"))), cfg)
  else (None, cfg).

(** The validators of the default limits: [what] is events, transactions or ledgers. *)
Definition default_within_max (what default max : string) (o : OptionInfo) (cfg : Config) :
    option validation_error * Config :=
  if decide (num_field max cfg < num_field default cfg)
  then (Some (InvalidValue (EMsg ("default-" +:+ what +:+ "-limit (" +:+ FormatInt (num_field default cfg) +:+
          ") cannot exceed max-" +:+ what +:+ "-limit (" +:+ FormatInt (num_field max cfg) +:+ ")"))), cfg)
  else (None, cfg).
End validators.

(** ** Custom setters *)

Section setters.
Context `{TT : TomlTypes} `{CS : !ConfigSdk} `{OS : Os}.

(** [log-level] *)
Definition set_log_level (o : OptionInfo) (i : any) : M Config unit :=
  match i with
  | ANil => mret tt
  | AString v =>
      match ParseLevel v with
      | Ok ll => modify (set_field "LogLevel" (VNum ll))
      | Err _ => fail (EMsg ("could not parse " +:+ Name o +:+ ": " +:+ quoted v))
      | Panic m => panic m
      end
  | ALevel v => modify (set_field "LogLevel" (VNum v))
  | _ => fail (EMsg ("could not parse " +:+ Name o +:+ ": " +:+ quoted (Sprint i)))
  end.

(** [log-format] *)
Definition set_log_format (o : OptionInfo) (i : any) : M Config unit :=
  match i with
  | ANil => mret tt
  | AString v =>
      map_err (EWrap ("could not parse " +:+ Name o))
        (f ← of_res (LogFormat_UnmarshalText v); modify (set_field "LogFormat" (VNum f)))
  | AFormat v => modify (set_field "LogFormat" (VNum v))
  | _ => fail (EMsg ("could not parse " +:+ Name o +:+ ": " +:+ quoted (Sprint i)))
  end.

Definition getwd : M Config string :=
  map_err (EWrap "unable to determine the current directory") (of_res Getwd).

(** [captive-core-storage-path] *)
Definition set_storage_path (o : OptionInfo) (i : any) : M Config unit :=
  match i with
  | AString v =>
      v ← (if decide (v = "" \/ v = ".") then getwd else mret v);
      modify (set_field "CaptiveCoreStoragePath" (VString v))
  | ANil => cwd ← getwd; modify (set_field "CaptiveCoreStoragePath" (VString cwd))
  | _ => fail (EMsg ("could not parse " +:+ Name o +:+ ": " +:+ Sprint i))
  end.

Definition add_temp_file (name content : string) (cfg : Config) : Config :=
  MkConfig (fields cfg) (temp_files cfg ++ [(name, content)]).

(** [writeEmbeddedCaptiveCore]: a file that could not be written stays behind, empty. *)
Definition writeEmbeddedCaptiveCore (coreEmbedding : string) : M Config string :=
  files ← gets temp_files;
  name ← map_err (EWrap "error creating captive core container file") (of_res (CreateTemp files));
  written ← attempt (of_res (os_Write coreEmbedding));
  match written with
  | inl _ => modify (add_temp_file name coreEmbedding);; mret name
  | inr e => modify (add_temp_file name "");; fail (EWrap "error writing captive core file" e)
  end.

Definition network_conflict : error :=
  EMsg "network option conflicts with values provided for passphrase and/or history archive URLs".

Definition setForNetwork (p : networkConfig) : M Config unit :=
  urls ← gets (strings_field "HistoryArchiveURLs");
  passphrase ← gets (string_field "NetworkPassphrase");
  if decide (urls = historyArchiveURLs p /\ passphrase = networkPassphrase p) then mret tt
  else if decide (urls ≠ [] \/ passphrase ≠ "") then fail network_conflict
  else
    path ← map_err (EWrap "unable to create captive core file") (writeEmbeddedCaptiveCore (configFile p));
    modify (set_field "CaptiveCoreConfigPath" (VString path));;
    modify (set_field "HistoryArchiveURLs" (VStrings (historyArchiveURLs p)));;
    modify (set_field "NetworkPassphrase" (VString (networkPassphrase p))).

(** The [switch] on the name of the network *)
Definition network_params (v : string) : option networkConfig :=
  if decide (v = "testnet") then Some TestnetParams
  else if decide (v = "pubnet") then Some PubnetParams
  else if decide (v = "futurenet") then Some FuturenetParams
  else None.

(** [network] *)
Definition set_network (o : OptionInfo) (i : any) : M Config unit :=
  match i with
  | AString v =>
      if decide (v = "") then mret tt
      else match network_params v with
      | None => fail (EMsg ("could not parse " +:+ Name o +:+ ": " +:+ quoted v +:+ ", invalid network"))
      | Some p =>
          map_err (EWrap ("could not parse " +:+ Name o +:+ ": " +:+ quoted v)) (setForNetwork p);;
          modify (set_field "Network" (VString v))
      end
  | _ => fail (EMsg ("could not parse " +:+ Name o +:+ ": " +:+ quoted (Sprint i) +:+
           ", network must be of type string"))
  end.

(** The struct behind a field, and the update of it by the decoder, which keeps
    what it had decoded when it fails. *)
Definition struct_field (f : string) (cfg : Config) : Struct :=
  match fields cfg !! f with Some (VStruct s) => s | _ => zero_struct f end.

Definition unmarshalTOMLTree (tree : any) (field configName : string) : M Config unit :=
  match tree with
  | ATree t =>
      tomlBytes ← map_err (EWrap ("failed to marshal TOML tree for " +:+ configName)) (of_res (toml_Marshal t));
      zoom (struct_field field) (fun s => set_field field (VStruct s)) (toml_Unmarshal tomlBytes)
  | _ => fail (EMsg ("expected TOML table for " +:+ configName +:+ ", got " +:+ type_name tree))
  end.

Definition set_struct (configName : string) (o : OptionInfo) (i : any) : M Config unit :=
  unmarshalTOMLTree i (key_field o) configName.
End setters.

(** ** The table *)

Section options.
Context `{TT : TomlTypes} `{CS : !ConfigSdk} `{OS : Os}.

Definition defaultUintCPU : Z := u64 NumCPU.
Definition defaultUint16CPU : Z := NumCPU mod 2 ^ 16.
Definition defaultStellarCoreBinaryPath : string := LookPath "stellar-core".

(** An option before it is attached to a flag *)
Definition opt (name envVar tomlKey usage field : string) (k : kind) (default : any)
    (custom : option (OptionInfo -> any -> M Config unit))
    (validate : option (OptionInfo -> Config -> option validation_error * Config)) : Option :=
  MkOption (MkOptionInfo name envVar tomlKey usage (field, k)) default custom validate false.

(** Endpoints, stellar-core ports and timeouts. *)
Definition server_options : list Option :=
  [
    opt "config-path" "SOROBAN_RPC_CONFIG_PATH" "-"
      "File path to the toml configuration file"
      "ConfigPath" KString ANil None None;
    opt "config-strict" "SOROBAN_RPC_CONFIG_STRICT" "STRICT"
      "Enable strict toml configuration file parsing. This will prevent unknown fields in the config toml from being parsed."
      "Strict" KBool (ABool false) None None;
    opt "endpoint" "" ""
      "Endpoint to listen and serve on"
      "Endpoint" KString (AString defaultHTTPEndpoint) None None;
    opt "admin-endpoint" "" ""
      ("Admin endpoint to listen and serve on. WARNING: this should not be accessible from the Internet and does not use TLS. " +:+ quoted "" +:+ " (default) disables the admin server")
      "AdminEndpoint" KString ANil None None;
    opt "stellar-core-url" "" ""
      "URL used to query Stellar Core (local captive core by default)"
      "StellarCoreURL" KString ANil None (Some default_core_url);
    opt "backfill" "" ""
      "Populates database with `history-retention-window` ledgers synchronously on startup. This defaults to a week of ledgers if unspecified"
      "Backfill" KBool (ABool false) None (Some backfill_needs_datastore);
    opt "stellar-core-timeout" "" ""
      "Timeout used when submitting requests to stellar-core"
      "CoreRequestTimeout" KDuration (ADuration (2 * Second)) None None;
    opt "stellar-captive-core-http-port" "" ""
      "HTTP port for Captive Core to listen on (0 disables the HTTP server)"
      "CaptiveCoreHTTPPort" (KUint W16) (AUint W16 defaultCaptiveCoreHTTPPort) None None;
    opt "stellar-captive-core-http-query-port" "" ""
      "HTTP port for Captive Core to listen on for high-performance queries like /getledgerentry (must not conflict with CAPTIVE_CORE_HTTP_PORT)"
      "CaptiveCoreHTTPQueryPort" (KUint W16) (AUint W16 defaultCaptiveCoreHTTPQueryPort) None (Some positive);
    opt "stellar-captive-core-http-query-thread-pool-size" "" ""
      "Number of threads to use by Captive Core's high-performance query server"
      "CaptiveCoreHTTPQueryThreadPoolSize" (KUint W16) (AUint W16 defaultUint16CPU) None None;
    opt "stellar-captive-core-http-query-snapshot-ledgers" "" ""
      "Size of ledger history in Captive Core's high-performance query server (don't touch unless you know what you are doing)"
      "CaptiveCoreHTTPQuerySnapshotLedgers" (KUint W16) (AUint W16 4) None None
  ].

(** Logging. *)
Definition logging_options : list Option :=
  [
    opt "log-level" "" ""
      "minimum log severity (debug, info, warn, error) to log"
      "LogLevel" (KOther "logrus.Level") (ALevel InfoLevel) (Some set_log_level) None;
    opt "log-format" "" ""
      "format used for output logs (json or text)"
      "LogFormat" (KOther "config.LogFormat") (AFormat LogFormatText) (Some set_log_format) None
  ].

(** Captive core, history archives and the network passphrase. *)
Definition core_options : list Option :=
  [
    opt "stellar-core-binary-path" "" ""
      "path to stellar core binary"
      "StellarCoreBinaryPath" KString (AString defaultStellarCoreBinaryPath) None (Some required);
    opt "captive-core-config-path" "" ""
      "path to additional configuration for the Stellar Core configuration file used by captive core. It must, at least, include enough details to define a quorum set"
      "CaptiveCoreConfigPath" KString ANil None (Some required);
    opt "captive-core-storage-path" "" ""
      "Storage location for Captive Core bucket data"
      "CaptiveCoreStoragePath" KString ANil (Some set_storage_path) None;
    opt "history-archive-urls" "" ""
      "comma-separated list of stellar history archives to connect with"
      "HistoryArchiveURLs" KStrings ANil None (Some required);
    opt "friendbot-url" "" ""
      "The friendbot URL to be returned by getNetwork endpoint"
      "FriendbotURL" KString ANil None None;
    opt "network-passphrase" "" ""
      ("Network passphrase of the Stellar network transactions should be signed for. Commonly used values are " +:+ quoted (networkPassphrase FuturenetParams) +:+ ", " +:+ quoted (networkPassphrase TestnetParams) +:+ " and " +:+ quoted (networkPassphrase PubnetParams))
      "NetworkPassphrase" KString ANil None (Some required)
  ].

(** The network. *)
Definition network_options : list Option :=
  [
    opt "network" "" ""
      "Specifies the desired Stellar network, 'pubnet', 'testnet', or 'futurenet'."
      "Network" KString ANil (Some set_network) None
  ].

(** Database, ingestion and the retention windows. *)
Definition window_options : list Option :=
  [
    opt "db-path" "" ""
      "SQLite DB path"
      "SQLiteDBPath" KString (AString "soroban_rpc.sqlite") None None;
    opt "ingestion-timeout" "" ""
      "Ingestion Timeout when bootstrapping data (checkpoint and in-memory initialization) and preparing ledger reads"
      "IngestionTimeout" KDuration (ADuration (50 * Minute)) None None;
    opt "checkpoint-frequency" "" ""
      "establishes how many ledgers exist between checkpoints, do NOT change this unless you really know what you are doing"
      "CheckpointFrequency" (KUint W32) (AUint W32 64) None None;
    opt "history-retention-window" "" ""
      ("configures history retention window for transactions and events, expressed in number of ledgers, the default value is " +:+ FormatInt SevenDayOfLedgers +:+ " which corresponds to about 7 days of history")
      "HistoryRetentionWindow" (KUint W32) (AUint W32 SevenDayOfLedgers) None (Some positive);
    opt "classic-fee-stats-retention-window" "" ""
      "configures classic fee stats retention window expressed in number of ledgers"
      "ClassicFeeStatsLedgerRetentionWindow" (KUint W32) (AUint W32 10) None (Some feeStatsRetentionWindowValidator);
    opt "soroban-fee-stats-retention-window" "" ""
      "configures soroban inclusion fee stats retention window expressed in number of ledgers"
      "SorobanFeeStatsLedgerRetentionWindow" (KUint W32) (AUint W32 50) None (Some feeStatsRetentionWindowValidator)
  ].

(** Limits of the responses, health and preflight. *)
Definition limit_options : list Option :=
  [
    opt "max-events-limit" "" ""
      "Maximum amount of events allowed in a single getEvents response"
      "MaxEventsLimit" (KUint Word) (AUint Word 10000) None None;
    opt "default-events-limit" "" ""
      "Default cap on the amount of events included in a single getEvents response"
      "DefaultEventsLimit" (KUint Word) (AUint Word 100) None (Some (default_within_max "events" "DefaultEventsLimit" "MaxEventsLimit"));
    opt "max-transactions-limit" "" ""
      "Maximum amount of transactions allowed in a single getTransactions response"
      "MaxTransactionsLimit" (KUint Word) (AUint Word 200) None None;
    opt "default-transactions-limit" "" ""
      "Default cap on the amount of transactions included in a single getTransactions response"
      "DefaultTransactionsLimit" (KUint Word) (AUint Word 50) None (Some (default_within_max "transactions" "DefaultTransactionsLimit" "MaxTransactionsLimit"));
    opt "max-ledgers-limit" "" ""
      "Maximum amount of ledgers allowed in a single getLedgers response"
      "MaxLedgersLimit" (KUint Word) (AUint Word 200) None None;
    opt "default-ledgers-limit" "" ""
      "Default cap on the amount of ledgers included in a single getLedgers response"
      "DefaultLedgersLimit" (KUint Word) (AUint Word 50) None (Some (default_within_max "ledgers" "DefaultLedgersLimit" "MaxLedgersLimit"));
    opt "max-healthy-ledger-latency" "" ""
      "maximum ledger latency (i.e. time elapsed since the last known ledger closing time) considered to be healthy (used for the /health endpoint)"
      "MaxHealthyLedgerLatency" KDuration (ADuration (30 * Second)) None None;
    opt "preflight-worker-count" "" ""
      "Number of workers (read goroutines) used to compute preflights for the simulateTransaction endpoint. Defaults to the number of CPUs."
      "PreflightWorkerCount" (KUint Word) (AUint Word defaultUintCPU) None (Some positive);
    opt "preflight-worker-queue-size" "" ""
      "Maximum number of outstanding preflight requests for the simulateTransaction endpoint. Defaults to the number of CPUs."
      "PreflightWorkerQueueSize" (KUint Word) (AUint Word defaultUintCPU) None (Some positive);
    opt "preflight-enable-debug" "" ""
      "Enable debug information in preflighting (provides more detailed errors). It should not be enabled in production deployments."
      "PreflightEnableDebug" KBool (ABool true) None None
  ].

(** The queue limits of the request limiters. *)
Definition queue_options : list Option :=
  [
    opt "" "" (KebabToConstantCase "request-backlog-global-queue-limit")
      "Maximum number of outstanding requests"
      "RequestBacklogGlobalQueueLimit" (KUint Word) (AUint Word 5000) None (Some positive);
    opt "" "" (KebabToConstantCase "request-backlog-get-health-queue-limit")
      "Maximum number of outstanding GetHealth requests"
      "RequestBacklogGetHealthQueueLimit" (KUint Word) (AUint Word 1000) None (Some positive);
    opt "" "" (KebabToConstantCase "request-backlog-get-events-queue-limit")
      "Maximum number of outstanding GetEvents requests"
      "RequestBacklogGetEventsQueueLimit" (KUint Word) (AUint Word 1000) None (Some positive);
    opt "" "" (KebabToConstantCase "request-backlog-get-network-queue-limit")
      "Maximum number of outstanding GetNetwork requests"
      "RequestBacklogGetNetworkQueueLimit" (KUint Word) (AUint Word 1000) None (Some positive);
    opt "" "" (KebabToConstantCase "request-backlog-get-version-info-queue-limit")
      "Maximum number of outstanding GetVersionInfo requests"
      "RequestBacklogGetVersionInfoQueueLimit" (KUint Word) (AUint Word 1000) None (Some positive);
    opt "" "" (KebabToConstantCase "request-backlog-get-latest-ledger-queue-limit")
      "Maximum number of outstanding GetLatestsLedger requests"
      "RequestBacklogGetLatestLedgerQueueLimit" (KUint Word) (AUint Word 1000) None (Some positive);
    opt "" "" (KebabToConstantCase "request-backlog-get-ledger-entries-queue-limit")
      "Maximum number of outstanding GetLedgerEntries requests"
      "RequestBacklogGetLedgerEntriesQueueLimit" (KUint Word) (AUint Word 1000) None (Some positive);
    opt "" "" (KebabToConstantCase "request-backlog-get-transaction-queue-limit")
      "Maximum number of outstanding GetTransaction requests"
      "RequestBacklogGetTransactionQueueLimit" (KUint Word) (AUint Word 1000) None (Some positive);
    opt "" "" (KebabToConstantCase "request-backlog-get-transactions-queue-limit")
      "Maximum number of outstanding GetTransactions requests"
      "RequestBacklogGetTransactionsQueueLimit" (KUint Word) (AUint Word 1000) None (Some positive);
    opt "" "" (KebabToConstantCase "request-backlog-get-ledgers-queue-limit")
      "Maximum number of outstanding getLedgers requests"
      "RequestBacklogGetLedgersQueueLimit" (KUint Word) (AUint Word 1000) None (Some positive);
    opt "" "" (KebabToConstantCase "request-backlog-send-transaction-queue-limit")
      "Maximum number of outstanding SendTransaction requests"
      "RequestBacklogSendTransactionQueueLimit" (KUint Word) (AUint Word 500) None (Some positive);
    opt "" "" (KebabToConstantCase "request-backlog-simulate-transaction-queue-limit")
      "Maximum number of outstanding SimulateTransaction requests"
      "RequestBacklogSimulateTransactionQueueLimit" (KUint Word) (AUint Word 100) None (Some positive);
    opt "" "" (KebabToConstantCase "request-backlog-get-fee-stats-queue-limit")
      "Maximum number of outstanding GetFeeStats requests"
      "RequestBacklogGetFeeStatsTransactionQueueLimit" (KUint Word) (AUint Word 100) None (Some positive)
  ].

(** The execution times of the request limiters. *)
Definition duration_options : list Option :=
  [
    opt "" "" (KebabToConstantCase "request-execution-warning-threshold")
      "The request execution warning threshold is the predetermined maximum duration of time that a request can take to be processed before a warning would be generated"
      "RequestExecutionWarningThreshold" KDuration (ADuration (5 * Second)) None None;
    opt "" "" (KebabToConstantCase "max-request-execution-duration")
      "The max request execution duration is the predefined maximum duration of time allowed for processing a request. When that time elapses, the server would return 504 and abort the request's execution"
      "MaxRequestExecutionDuration" KDuration (ADuration (25 * Second)) None None;
    opt "" "" (KebabToConstantCase "max-get-health-execution-duration")
      "The maximum duration of time allowed for processing a getHealth request. When that time elapses, the rpc server would return -32001 and abort the request's execution"
      "MaxGetHealthExecutionDuration" KDuration (ADuration (5 * Second)) None None;
    opt "" "" (KebabToConstantCase "max-get_events-execution-duration")
      "The maximum duration of time allowed for processing a getEvents request. When that time elapses, the rpc server would return -32001 and abort the request's execution"
      "MaxGetEventsExecutionDuration" KDuration (ADuration (10 * Second)) None None;
    opt "" "" (KebabToConstantCase "max-get-network-execution-duration")
      "The maximum duration of time allowed for processing a getNetwork request. When that time elapses, the rpc server would return -32001 and abort the request's execution"
      "MaxGetNetworkExecutionDuration" KDuration (ADuration (5 * Second)) None None;
    opt "" "" (KebabToConstantCase "max-get-version-info-execution-duration")
      "The maximum duration of time allowed for processing a getVersionInfo request. When that time elapses, the rpc server would return -32001 and abort the request's execution"
      "MaxGetVersionInfoExecutionDuration" KDuration (ADuration (5 * Second)) None None;
    opt "" "" (KebabToConstantCase "max-get-latest-ledger-execution-duration")
      "The maximum duration of time allowed for processing a getLatestLedger request. When that time elapses, the rpc server would return -32001 and abort the request's execution"
      "MaxGetLatestLedgerExecutionDuration" KDuration (ADuration (5 * Second)) None None;
    opt "" "" (KebabToConstantCase "max-get_ledger-entries-execution-duration")
      "The maximum duration of time allowed for processing a getLedgerEntries request. When that time elapses, the rpc server would return -32001 and abort the request's execution"
      "MaxGetLedgerEntriesExecutionDuration" KDuration (ADuration (5 * Second)) None None;
    opt "" "" (KebabToConstantCase "max-get-transaction-execution-duration")
      "The maximum duration of time allowed for processing a getTransaction request. When that time elapses, the rpc server would return -32001 and abort the request's execution"
      "MaxGetTransactionExecutionDuration" KDuration (ADuration (5 * Second)) None None;
    opt "" "" (KebabToConstantCase "max-get-transactions-execution-duration")
      "The maximum duration of time allowed for processing a getTransactions request. When that time elapses, the rpc server would return -32001 and abort the request's execution"
      "MaxGetTransactionsExecutionDuration" KDuration (ADuration (5 * Second)) None None;
    opt "" "" (KebabToConstantCase "max-get-ledgers-execution-duration")
      "The maximum duration of time allowed for processing a getLedgers request. When that time elapses, the rpc server would return -32001 and abort the request's execution"
      "MaxGetLedgersExecutionDuration" KDuration (ADuration (10 * Second)) None None;
    opt "" "" (KebabToConstantCase "max-send-transaction-execution-duration")
      "The maximum duration of time allowed for processing a sendTransaction request. When that time elapses, the rpc server would return -32001 and abort the request's execution"
      "MaxSendTransactionExecutionDuration" KDuration (ADuration (15 * Second)) None None;
    opt "" "" (KebabToConstantCase "max-simulate-transaction-execution-duration")
      "The maximum duration of time allowed for processing a simulateTransaction request. When that time elapses, the rpc server would return -32001 and abort the request's execution"
      "MaxSimulateTransactionExecutionDuration" KDuration (ADuration (15 * Second)) None None;
    opt "" "" (KebabToConstantCase "max-get-fee-stats-execution-duration")
      "The maximum duration of time allowed for processing a getFeeStats request. When that time elapses, the rpc server would return -32001 and abort the request's execution"
      "MaxGetFeeStatsExecutionDuration" KDuration (ADuration (5 * Second)) None None
  ].

(** The datastore and load testing. *)
Definition datastore_options : list Option :=
  [
    opt "serve-ledgers-from-datastore" "" (KebabToConstantCase "serve-ledgers-from-datastore")
      "Fetch historical ledgers from the datastore if they're not available locally."
      "ServeLedgersFromDatastore" KBool (ABool false) None None;
    opt "" "" "buffered_storage_backend_config"
      "Buffered storage backend configuration for reading ledgers from the datastore."
      "BufferedStorageBackendConfig" (KOther "ledgerbackend.BufferedStorageBackendConfig") ANil (Some (set_struct "buffered_storage_backend_config")) None;
    opt "" "" "datastore_config"
      "External datastore configuration including type, bucket name and schema."
      "DataStoreConfig" (KOther "datastore.DataStoreConfig") ANil (Some (set_struct "datastore_config")) None;
    opt "" "" "ingest_load_test_config"
      "Load testing configuration: replay pre-generated .xdr.zstd ledger bundles through ingestion. Subkeys: files (list of bundle paths), frequency (duration; defaults to 2s), max_ledgers_per_file (0 = all). WARNING: destructive to your database."
      "IngestLoadTest" (KOther "config.IngestLoadTestConfig") ANil (Some (set_struct "ingest_load_test_config")) None
  ].

(** [cfg.options()] *)
Definition options : list Option :=
  server_options ++ logging_options ++ core_options ++ network_options ++ window_options ++
  limit_options ++ queue_options ++ duration_options ++ datastore_options.
End options.

(** ** Validation *)

Section validation.
Context `{TT : TomlTypes} `{CS : !ConfigSdk} `{OS : Os}.

(** An option passes, with the configuration its validator leaves. *)
Definition passes (o : Option) (cfg : Config) : option Config :=
  match Validate o with
  | None => Some cfg
  | Some validate => match validate (info o) cfg with (None, cfg) => Some cfg | _ => None end
  end.

Fixpoint all_pass (opts : list Option) (cfg : Config) : option Config :=
  match opts with
  | [] => Some cfg
  | o :: opts => passes o cfg ≫= all_pass opts
  end.

(** The loop has no error exactly when every option passes. *)
Lemma validate_loop_None opts missing cfg cfg' :
  validate_loop opts missing cfg = (None, cfg') <-> missing = [] /\ all_pass opts cfg = Some cfg'.
Proof.
  revert missing cfg. induction opts as [|o opts IH]; intros missing cfg; simpl; [destruct missing; naive_solver|].
  unfold passes. destruct (Validate o) as [validate|]; [|apply IH].
  destruct (validate (info o) cfg) as [[[strErr usage|e]|] cfg1]; simpl; [|naive_solver|apply IH].
  rewrite IH. split; [|naive_solver]. intros [H _]. by destruct missing.
Qed.

Lemma all_pass_attached opts opts' cfg : Forall2 same_option opts opts' -> all_pass opts' cfg = all_pass opts cfg.
Proof.
  intros H. revert cfg. induction H as [|o o' l l' Hs _ IH]; intros cfg; [done|]. simpl.
  assert (passes o' cfg = passes o cfg) as -> by (unfold passes; by rewrite (same_validate _ _ Hs), (same_info _ _ Hs)).
  destruct (passes o cfg); simpl; auto.
Qed.

Lemma all_pass_app l k cfg : all_pass (l ++ k) cfg = (all_pass l cfg ≫= all_pass k).
Proof. revert cfg. induction l as [|o l IH]; intros cfg; [done|]. simpl. destruct (passes o cfg); simpl; auto. Qed.

(** A validator's verdict against its condition *)
Ltac verdict := unfold key_field in *; cbn in *; split; [intros ?; simplify_eq; try lia; split; (lia || naive_solver)|
                        intros [? ?]; simplify_eq; try lia; naive_solver].

(** The shapes of validators of the table *)
Lemma pass_plain n e t u f k d c l cfg cfg' :
  all_pass (opt n e t u f k d c None :: l) cfg = Some cfg' <-> True /\ all_pass l cfg = Some cfg'.
Proof. split; [done|by intros [_ ?]]. Qed.

Lemma pass_positive n e t u f w d c l cfg cfg' :
  all_pass (opt n e t u f (KUint w) d c (Some positive) :: l) cfg = Some cfg' <->
  0 < num_field f cfg /\ all_pass l cfg = Some cfg'.
Proof. simpl. unfold passes, positive. simpl. case_decide; simpl; verdict. Qed.

Lemma pass_fee_window n e t u f d c l cfg cfg' :
  all_pass (opt n e t u f (KUint W32) d c (Some feeStatsRetentionWindowValidator) :: l) cfg = Some cfg' <->
  0 < num_field f cfg <= MaxFeeStatsRetentionWindow /\ all_pass l cfg = Some cfg'.
Proof.
  simpl. unfold passes, feeStatsRetentionWindowValidator, positive. simpl.
  case_decide; simpl; [verdict|]. case_decide; simpl; verdict.
Qed.

Lemma pass_required_string n e t u f d c l cfg cfg' :
  all_pass (opt n e t u f KString d c (Some required) :: l) cfg = Some cfg' <->
  string_field f cfg ≠ "" /\ all_pass l cfg = Some cfg'.
Proof. simpl. unfold passes, required, is_set. simpl. case_bool_decide; simpl; verdict. Qed.

Lemma pass_required_strings n e t u f d c l cfg cfg' :
  all_pass (opt n e t u f KStrings d c (Some required) :: l) cfg = Some cfg' <->
  strings_field f cfg ≠ [] /\ all_pass l cfg = Some cfg'.
Proof. simpl. unfold passes, required, is_set. simpl. case_bool_decide; simpl; verdict. Qed.

Lemma pass_backfill n e t u f k d c l cfg cfg' :
  all_pass (opt n e t u f k d c (Some backfill_needs_datastore) :: l) cfg = Some cfg' <->
  (bool_field "Backfill" cfg = true -> bool_field "ServeLedgersFromDatastore" cfg = true) /\
  all_pass l cfg = Some cfg'.
Proof.
  simpl. unfold passes, backfill_needs_datastore. simpl.
  destruct (bool_field "Backfill" cfg), (bool_field "ServeLedgersFromDatastore" cfg); simpl; verdict.
Qed.

Lemma pass_default n e t u f k d c what dflt max l cfg cfg' :
  all_pass (opt n e t u f k d c (Some (default_within_max what dflt max)) :: l) cfg = Some cfg' <->
  num_field dflt cfg <= num_field max cfg /\ all_pass l cfg = Some cfg'.
Proof. simpl. unfold passes, default_within_max. simpl. case_decide; simpl; verdict. Qed.

(** The configuration with the default of [stellar-core-url] *)
Definition with_core_url (cfg : Config) : Config :=
  (default_core_url (MkOptionInfo "stellar-core-url" "" "" "" ("StellarCoreURL", KString)) cfg).2.

Lemma pass_core_url n e t u f k d c l cfg cfg' :
  all_pass (opt n e t u f k d c (Some default_core_url) :: l) cfg = Some cfg' <->
  all_pass l (with_core_url cfg) = Some cfg'.
Proof. done. Qed.

Lemma with_core_url_fields f cfg : f ≠ "StellarCoreURL" -> fields (with_core_url cfg) !! f = fields cfg !! f.
Proof. intros Hf. unfold with_core_url, default_core_url. simpl. case_decide; [simpl; by rewrite lookup_insert_ne|done]. Qed.

(** The fields that have to be positive *)
Definition positive_fields : list string :=
  ["CaptiveCoreHTTPQueryPort"; "HistoryRetentionWindow"; "PreflightWorkerCount"; "PreflightWorkerQueueSize";
   "RequestBacklogGlobalQueueLimit"; "RequestBacklogGetHealthQueueLimit"; "RequestBacklogGetEventsQueueLimit";
   "RequestBacklogGetNetworkQueueLimit"; "RequestBacklogGetVersionInfoQueueLimit";
   "RequestBacklogGetLatestLedgerQueueLimit"; "RequestBacklogGetLedgerEntriesQueueLimit";
   "RequestBacklogGetTransactionQueueLimit"; "RequestBacklogGetTransactionsQueueLimit";
   "RequestBacklogGetLedgersQueueLimit"; "RequestBacklogSendTransactionQueueLimit";
   "RequestBacklogSimulateTransactionQueueLimit"; "RequestBacklogGetFeeStatsTransactionQueueLimit"].

(** What the rest of the server relies on *)
Record valid_config (cfg : Config) : Prop := {
  valid_backfill : bool_field "Backfill" cfg = true -> bool_field "ServeLedgersFromDatastore" cfg = true;
  valid_required : Forall (fun f => string_field f cfg ≠ "")
                     ["StellarCoreBinaryPath"; "CaptiveCoreConfigPath"; "NetworkPassphrase"];
  valid_archives : strings_field "HistoryArchiveURLs" cfg ≠ [];
  valid_positive : Forall (fun f => 0 < num_field f cfg) positive_fields;
  valid_fee_windows : Forall (fun f => 1 <= num_field f cfg <= 1000)
                        ["ClassicFeeStatsLedgerRetentionWindow"; "SorobanFeeStatsLedgerRetentionWindow"];
  valid_limits : Forall (fun p => num_field p.1 cfg <= num_field p.2 cfg)
                   [("DefaultEventsLimit", "MaxEventsLimit");
                    ("DefaultTransactionsLimit", "MaxTransactionsLimit");
                    ("DefaultLedgersLimit", "MaxLedgersLimit")];
}.

Lemma num_field_core_url f cfg : f ≠ "StellarCoreURL" -> num_field f (with_core_url cfg) = num_field f cfg.
Proof. intros. unfold num_field. by rewrite with_core_url_fields. Qed.
Lemma string_field_core_url f cfg : f ≠ "StellarCoreURL" -> string_field f (with_core_url cfg) = string_field f cfg.
Proof. intros. unfold string_field. by rewrite with_core_url_fields. Qed.
Lemma strings_field_core_url f cfg : f ≠ "StellarCoreURL" -> strings_field f (with_core_url cfg) = strings_field f cfg.
Proof. intros. unfold strings_field. by rewrite with_core_url_fields. Qed.
Lemma bool_field_core_url f cfg : f ≠ "StellarCoreURL" -> bool_field f (with_core_url cfg) = bool_field f cfg.
Proof. intros. unfold bool_field. by rewrite with_core_url_fields. Qed.

Lemma pass_nil cfg cfg' : all_pass [] cfg = Some cfg' <-> cfg' = cfg.
Proof. simpl. naive_solver. Qed.

Lemma iff_and_trans (A B C Q : Prop) : (A <-> B /\ C) -> (C <-> Q) -> (A <-> B /\ Q).
Proof. tauto. Qed.

(** Collecting the conditions of a table, option by option *)
Ltac read_table :=
  lazymatch goal with
  | |- all_pass [] _ = _ <-> _ => apply pass_nil
  | |- all_pass (opt _ _ _ _ _ _ _ _ ?v :: _) _ = _ <-> _ =>
      lazymatch v with
      | None => eapply iff_and_trans; [apply pass_plain|read_table]
      | Some positive => eapply iff_and_trans; [apply pass_positive|read_table]
      | Some feeStatsRetentionWindowValidator => eapply iff_and_trans; [apply pass_fee_window|read_table]
      | Some required =>
          eapply iff_and_trans; [first [apply pass_required_string|apply pass_required_strings]|read_table]
      | Some backfill_needs_datastore => eapply iff_and_trans; [apply pass_backfill|read_table]
      | Some (default_within_max _ _ _) => eapply iff_and_trans; [apply pass_default|read_table]
      | Some default_core_url => eapply iff_trans; [apply pass_core_url|read_table]
      end
  end.

Lemma options_pass cfg cfg' :
  all_pass options cfg = Some cfg' <-> valid_config cfg /\ cfg' = with_core_url cfg.
Proof.
  unfold options, server_options, logging_options, core_options, network_options, window_options, limit_options,
    queue_options, duration_options, datastore_options. cbn [app].
  eapply iff_trans; [read_table|].
  rewrite !num_field_core_url, !string_field_core_url, !strings_field_core_url, !bool_field_core_url by done.
  unfold MaxFeeStatsRetentionWindow. split.
  - intros H. destruct_and! H. split; [|simpl in *; congruence]. split; try done;
      repeat constructor; simpl; try done; lia.
  - intros [[Hb Hr Ha Hp Hf Hl] ->]. unfold positive_fields in Hp.
    repeat match goal with H : Forall _ (_ :: _) |- _ => apply Forall_cons in H as [? ?] end.
    simpl in *. split_and!; try done; lia.
Qed.

(** C32: Validation accepts exactly the configurations the rest of the server
    relies on: backfilling only with a datastore, the required paths, archives
    and passphrase set, every queue limit, the retention window, the query port
    and the preflight pool positive, fee windows of 1 to 1000 ledgers, default
    page sizes within the maximal ones; and its only effect is the default of
    the core's URL. *)
Theorem Validate_exact opts cfg cfg' :
  Forall2 same_option options opts ->
  Options_Validate opts cfg = (None, cfg') <-> valid_config cfg /\ cfg' = with_core_url cfg.
Proof.
  intros Hadd. unfold Options_Validate. rewrite validate_loop_None, (all_pass_attached _ _ _ Hadd), options_pass.
  naive_solver.
Qed.
End validation.
