(* ===== verification/ConfigLoad.v ===== *)
(** * Loading the options: the precedence of the sources, the types of the fields,
    the flags and the network option

    The theorems about the table of config/options.go and the engine of Config.v
    together. *)

From S2P Require Import Prelude GoStd GoText Config ConfigOptions.

(** ** The table: distinct fields, and the fields the custom setters write *)

Section table.
Context `{TT : TomlTypes} `{CS : !ConfigSdk} `{PF : !Pflag} `{OS : Os}.

(** The fields the network option writes besides its own *)
Definition network_fields : list string := ["CaptiveCoreConfigPath"; "HistoryArchiveURLs"; "NetworkPassphrase"].

Lemma options_fields_NoDup : NoDup ((fun o : Option => key_field o) <$> options).
Proof. apply (bool_decide_unpack _). vm_compute. exact I. Qed.

Lemma options_agent (o : Option) : o ∈ options -> key_field o ≠ "HistoryArchiveUserAgent".
Proof.
  intros Ho E. assert ("HistoryArchiveUserAgent" ∈ ((fun o : Option => key_field o) <$> options)) as Hin.
  { apply list_elem_of_fmap. by exists o. }
  revert Hin. apply (bool_decide_unpack _). vm_compute. exact I.
Qed.

Lemma leaves_getwd f : leaves f getwd.
Proof. unfold getwd. auto with leaves. Qed.

Lemma leaves_add_temp_file f name content : leaves f (modify (add_temp_file name content)).
Proof. by intros s. Qed.
#[local] Hint Resolve leaves_getwd leaves_add_temp_file : leaves.

Lemma leaves_writeEmbedded f content : leaves f (writeEmbeddedCaptiveCore content).
Proof.
  unfold writeEmbeddedCaptiveCore. repeat (apply leaves_bind; [auto with leaves|intros []]); auto with leaves.
Qed.
#[local] Hint Resolve leaves_writeEmbedded : leaves.

Lemma leaves_setForNetwork f p : f ∉ network_fields -> leaves f (setForNetwork p).
Proof.
  unfold network_fields. intros Hf. unfold setForNetwork.
  apply leaves_bind; [auto with leaves|intros urls]. apply leaves_bind; [auto with leaves|intros pass].
  repeat case_decide; auto with leaves.
  apply leaves_bind; [auto with leaves|intros path]. repeat (apply leaves_bind; [|intros _]); apply leaves_set; set_solver.
Qed.
#[local] Hint Resolve leaves_setForNetwork : leaves.

Lemma leaves_set_struct f c o i : f ≠ key_field o -> leaves f (set_struct c o i).
Proof.
  intros Hf. unfold set_struct, unmarshalTOMLTree. destruct i; auto with leaves.
  apply leaves_bind; [auto with leaves|]. intros bytes s. unfold zoom. destruct (toml_Unmarshal _ _). simpl.
  by rewrite lookup_insert_ne.
Qed.

(** A custom setter writes its own field, and the network fields. *)
Definition framed (o : Option) : Prop :=
  forall custom f i, CustomSetValue o = Some custom -> f ≠ key_field o -> f ∉ network_fields ->
  leaves f (custom (info o) i).

Lemma framed_plain o : CustomSetValue o = None -> framed o.
Proof. intros E custom f i. by rewrite E. Qed.

Lemma options_framed : Forall framed options.
Proof.
  unfold options. repeat (apply Forall_app_2 || apply Forall_cons_2 || apply Forall_nil_2);
    try by apply framed_plain.
  all: intros custom f i [= <-] Hf Hn; cbn in Hf.
  - unfold set_log_level. destruct i; auto with leaves. destruct (ParseLevel _); auto with leaves.
  - unfold set_log_format. destruct i; auto with leaves.
  - unfold set_storage_path. destruct i; auto with leaves.
    apply leaves_bind; [|auto with leaves]. case_decide; auto with leaves.
  - unfold set_network. destruct i; auto with leaves. case_decide; auto with leaves.
    destruct (network_params _); auto with leaves.
  - by apply leaves_set_struct.
  - by apply leaves_set_struct.
  - by apply leaves_set_struct.
Qed.

(** ** The precedence of the sources *)

(** A field that the other options of an attached table leave alone *)
Lemma others_leave opts l1 (o : Option) l2 :
  Forall2 same_option options opts -> opts = l1 ++ o :: l2 -> key_field o ∉ network_fields ->
  forall (o' : Option) i, o' ∈ l1 ++ l2 -> leaves (key_field o) (setValue o' i).
Proof.
  intros Hsame -> Hn o' i Ho'.
  assert (key_field o ≠ key_field o') as Hne.
  { pose proof options_fields_NoDup as Hd. rewrite <- (same_options_fields _ _ Hsame) in Hd.
    rewrite fmap_app in Hd. csimpl in Hd. rewrite <- Permutation_middle, <- fmap_app in Hd.
    apply NoDup_cons in Hd as [Hd _]. intros E. apply Hd, list_elem_of_fmap. by exists o'. }
  destruct (CustomSetValue o') as [custom|] eqn:Ec; [|by apply leaves_setValue].
  unfold setValue. rewrite Ec.
  destruct (Forall2_same_elem _ _ o' Hsame) as (o0&Ho0&Hs); [set_solver|].
  rewrite (same_info _ _ Hs) in Hne |- *. rewrite (same_custom _ _ Hs) in Ec.
  pose proof options_framed as Hframed. rewrite Forall_forall in Hframed. by apply (Hframed o0).
Qed.

(** An option of the table, found again in the attached table *)
Lemma attached_option opts (P : Option -> Prop) (Hadd : Forall2 same_option options opts) :
  (forall o o' : Option, same_option o o' -> P o -> P o') -> Exists P options -> exists o : Option, o ∈ opts /\ P o.
Proof.
  intros HP. revert Hadd. generalize options. intros l Hadd Hex. induction Hadd as [|o o' l l' Hs _ IH]; inversion Hex; subst.
  - exists o'. split; [by left|by apply (HP o)].
  - destruct IH as (o1&?&?); [done|]. exists o1. split; [by right|done].
Qed.

(** C30: When the sources were loaded without error, a field that only a plain
    option writes holds the flag's value if the flag was given; otherwise the
    environment's; otherwise the one of the file the loaded [ConfigPath] names;
    otherwise the default; otherwise what it held before. *)
Theorem SetValues_precedence fs0 opts fs1 fs lookupEnv cfg cfg' (o : Option) :
  AddFlags options fs0 = Ok (opts, fs1) -> o ∈ opts -> CustomSetValue o = None -> key_field o ∉ network_fields ->
  SetValues lookupEnv fs opts cfg = (Ok tt, cfg') ->
  fields cfg' !! key_field o =
    flag_value fs o ∪ env_value lookupEnv o ∪ file_value (string_field "ConfigPath" cfg') o ∪
    default_value o ∪ fields cfg !! key_field o.
Proof.
  intros Hadd Ho Hplain Hn Hset. apply AddFlags_same in Hadd.
  assert (forall o : Option, o ∈ opts -> CustomSetValue o = None -> key_field o ∉ network_fields ->
    fields cfg' !! key_field o = flag_value fs o ∪ env_value lookupEnv o ∪
      file_value (string_field "ConfigPath" (first_pass lookupEnv fs opts cfg).2) o ∪
      default_value o ∪ fields cfg !! key_field o) as Hfield.
  { clear o Ho Hplain Hn. intros o Ho Hplain Hn.
    destruct (Forall2_same_elem _ _ o Hadd Ho) as (o0&Ho0&Hs).
    apply list_elem_of_split in Ho as (l1&l2&->). apply SetValues_field; [done|by apply (others_leave _ _ _ _ Hadd)| |done].
    rewrite (same_info _ _ Hs). by apply options_agent. }
  rewrite (Hfield o) by done. do 4 f_equal. unfold string_field.
  (* The option of the path itself is not read from the file. *)
  destruct (attached_option _ (fun o => key_field o = "ConfigPath" /\ CustomSetValue o = None /\ getTomlKey o = None) Hadd)
    as (oc&Hoc&Hf&Hc&Ht).
  { intros o1 o2 Hs. by rewrite (same_info _ _ Hs), (same_custom _ _ Hs). }
  { unfold options, server_options. apply Exists_cons_hd. done. }
  pose proof (Hfield oc Hoc Hc) as Hpath. rewrite Hf in Hpath.
  rewrite Hpath by (apply (bool_decide_unpack _); done). clear Hpath Hfield.
  rewrite SetValues_split in Hset. unfold mbind at 1, M_bind at 1 in Hset.
  destruct (first_pass lookupEnv fs opts cfg) as [[[]| |] s1] eqn:E1; [|done..].
  pose proof Hoc as Hin. apply list_elem_of_split in Hoc as (l1&l2&->).
  apply first_pass_puts in E1; [|done| |by rewrite Hf].
  2:{ intros. eapply (others_leave _ l1 oc l2 Hadd); [done|by rewrite Hf; apply (bool_decide_unpack _)|done]. }
  rewrite Hf in E1. cbn [snd]. rewrite E1. unfold file_value, tree_value. rewrite Ht.
  by destruct (flag_value fs oc), (env_value lookupEnv oc), (default_value oc), (file_tree _).
Qed.
End table.

(** ** The types of the fields are kept *)

(** What the libraries deliver: flags and TOML values are values of Go. *)
Class ConfigLaws `{TT : TomlTypes} `{CS : !ConfigSdk} `{PF : !Pflag} := {
  Flag_Get_ok k fs n v : Flag_Get k fs n = Ok v -> any_ok v;
  LoadReader_ok content tree : LoadReader content = Ok tree -> Forall any_ok tree.*2;
}.

Section typing.
Context `{TT : TomlTypes} `{CS : !ConfigSdk} `{PF : !Pflag} `{OS : Os} `{CL : !ConfigLaws}.

(** The fields of [Config] that options write, with their types *)
Definition field_types : list (string * kind) := (fun o : Option => ConfigKey o) <$> options.

Definition typed (cfg : Config) : Prop :=
  forall f k v, (f, k) ∈ field_types -> fields cfg !! f = Some v -> value_ok k v.

(** A call that keeps the types, whether it fails or not *)
Definition keeps_types {A} (m : M Config A) : Prop := forall cfg, typed cfg -> typed (m cfg).2.

(** The type of a field, read off the table *)
Definition has_type (f : string) (k : kind) : Prop := Forall (fun p => p.1 = f -> p.2 = k) field_types.

Lemma typed_set f k v : has_type f k -> value_ok k v -> keeps_types (modify (set_field f v)).
Proof.
  intros Hf Hv cfg Hcfg f' k' v' Hin. simpl. rewrite lookup_insert. case_decide; [|by apply Hcfg].
  intros [= <-]. unfold has_type in Hf. rewrite Forall_forall in Hf. pose proof (Hf _ Hin) as Hk. simpl in Hk.
  rewrite Hk; [done|congruence].
Qed.

Lemma typed_bind {A B} (m : M Config A) (k : A -> M Config B) :
  keeps_types m -> (forall a cfg, (m cfg).1 = Ok a -> keeps_types (k a)) -> keeps_types (a ← m; k a).
Proof.
  intros Hm Hk cfg Hcfg. unfold mbind, M_bind. pose proof (Hm cfg Hcfg) as H. specialize (Hk).
  destruct (m cfg) as [[a| |] cfg1] eqn:E; [|done..]. apply (Hk a cfg); [by rewrite E|done].
Qed.

(** A call that writes no field *)
Lemma typed_same {A} (m : M Config A) : (forall cfg, fields (m cfg).2 = fields cfg) -> keeps_types m.
Proof. intros H cfg Hcfg f k v. rewrite H. apply Hcfg. Qed.

Lemma typed_map_err {A} g (m : M Config A) : keeps_types m -> keeps_types (map_err g m).
Proof. intros Hm cfg Hcfg. unfold map_err. specialize (Hm cfg Hcfg). by destruct (m cfg) as [[] ?]. Qed.

Lemma typed_for_each (l : list Option) body :
  (forall o : Option, o ∈ l -> keeps_types (body o)) -> keeps_types (for_each l body).
Proof.
  induction l as [|o l IH]; intros H; simpl; [by apply typed_same|].
  apply typed_bind; [apply H; set_solver|]. intros _ _ _. apply IH. intros. apply H. set_solver.
Qed.

Lemma typed_setForNetwork p : keeps_types (setForNetwork p).
Proof.
  unfold setForNetwork. apply typed_bind; [by apply typed_same|intros urls _ _].
  apply typed_bind; [by apply typed_same|intros pass _ _].
  repeat case_decide; [by apply typed_same..|].
  apply typed_bind.
  { apply typed_map_err, typed_same. intros cfg. unfold writeEmbeddedCaptiveCore. unfold_m.
    destruct (CreateTemp _); [|done..]. by destruct (os_Write _). }
  intros path _ _.
  apply typed_bind; [apply (typed_set _ KString)|intros _ _ _; apply typed_bind;
    [apply (typed_set _ KStrings)|intros _ _ _; apply (typed_set _ KString)]]; try done;
    apply (bool_decide_unpack _); vm_compute; exact I.
Qed.

(** A custom setter keeps the types. *)
Definition typed_option (o : Option) : Prop :=
  forall custom i, CustomSetValue o = Some custom -> any_ok i -> keeps_types (custom (info o) i).

Lemma typed_plain o : CustomSetValue o = None -> typed_option o.
Proof. intros E custom i. by rewrite E. Qed.

Lemma typed_struct c o i type :
  has_type (key_field o) (KOther type) -> type ∉ ["logrus.Level"; "config.LogFormat"] -> keeps_types (set_struct c o i).
Proof.
  intros Ht Hn. unfold set_struct, unmarshalTOMLTree. destruct i; try by apply typed_same.
  apply typed_bind; [apply typed_map_err; by apply typed_same|]. intros bytes _ _ cfg Hcfg. unfold zoom.
  destruct (toml_Unmarshal bytes _) as [r s]. by apply (typed_set (key_field o) (KOther type) (VStruct s)).
Qed.

Ltac field_type := apply (bool_decide_unpack _); vm_compute; exact I.

Lemma options_typed : Forall typed_option options.
Proof.
  unfold options. repeat (apply Forall_app_2 || apply Forall_cons_2 || apply Forall_nil_2);
    try by apply typed_plain.
  all: intros custom i [= <-] Hi.
  - unfold set_log_level. destruct i; try by apply typed_same.
    + destruct (ParseLevel _); try by apply typed_same. apply (typed_set _ (KOther "logrus.Level")); [field_type|by left].
    + apply (typed_set _ (KOther "logrus.Level")); [field_type|by left].
  - unfold set_log_format. destruct i; try by apply typed_same.
    + apply typed_map_err, typed_bind; [by apply typed_same|]. intros f cfg Hf.
      apply (typed_set _ (KOther "config.LogFormat")); [field_type|]. right. split; [done|].
      unfold of_res, LogFormat_UnmarshalText in Hf. simpl in Hf. repeat case_decide; simplify_eq; auto.
    + apply (typed_set _ (KOther "config.LogFormat")); [field_type|]. by right.
  - unfold set_storage_path. destruct i; try by apply typed_same.
    + apply typed_bind; [by apply typed_same; intros ?; unfold getwd; unfold_m; destruct Getwd|]. intros cwd _ _.
      apply (typed_set _ KString); [field_type|done].
    + apply typed_bind; [case_decide; apply typed_same; [intros ?; unfold getwd; unfold_m; by destruct Getwd|done]|].
      intros cwd _ _. apply (typed_set _ KString); [field_type|done].
  - unfold set_network. destruct i; try by apply typed_same. case_decide; [by apply typed_same|].
    destruct (network_params _) as [p|]; [|by apply typed_same].
    apply typed_bind; [apply typed_map_err, typed_setForNetwork|]. intros _ _ _.
    apply (typed_set _ KString); [field_type|done].
  - apply (typed_struct _ _ _ "ledgerbackend.BufferedStorageBackendConfig"); [field_type|set_solver].
  - apply (typed_struct _ _ _ "datastore.DataStoreConfig"); [field_type|set_solver].
  - apply (typed_struct _ _ _ "config.IngestLoadTestConfig"); [field_type|set_solver].
Qed.

Lemma options_has_type (o : Option) : o ∈ options -> has_type (key_field o) (key_kind o).
Proof.
  intros Ho. apply Forall_forall. intros [f k] Hin Hf. simpl in *. subst f. unfold field_types in Hin.
  apply list_elem_of_fmap in Hin as (o'&E&Ho'). unfold key_field, key_kind in *.
  pose proof options_fields_NoDup as Hd. apply list_elem_of_lookup in Ho as [i Hi], Ho' as [j Hj].
  assert (i = j) as ->.
  { eapply (NoDup_lookup _ _ _ (key_field o) Hd); rewrite list_lookup_fmap, ?Hi, ?Hj; simpl; [done|].
    unfold key_field. by rewrite <- E. }
  rewrite Hi in Hj. simplify_eq. by rewrite <- E.
Qed.

Lemma typed_setValue opts (o : Option) i :
  Forall2 same_option options opts -> o ∈ opts -> any_ok i -> keeps_types (setValue o i).
Proof.
  intros Hadd Ho Hi. destruct (Forall2_same_elem _ _ o Hadd Ho) as (o0&Ho0&Hs).
  unfold setValue. rewrite (same_custom _ _ Hs), (same_info _ _ Hs).
  destruct (CustomSetValue o0) as [custom|] eqn:Ec.
  - pose proof options_typed as H. rewrite Forall_forall in H. by apply (H o0).
  - apply typed_bind; [by apply typed_same|]. intros [v|] cfg E; [|by apply typed_same].
    apply (typed_set _ (key_kind o0)); [by apply options_has_type|].
    apply (parser_ok _ i); [done|]. unfold of_res, recover_error in E. simpl in E. by destruct (parser _ _).
Qed.

Lemma default_ok opts (o : Option) : Forall2 same_option options opts -> o ∈ opts -> any_ok (DefaultValue o).
Proof.
  intros Hadd Ho. destruct (Forall2_same_elem _ _ o Hadd Ho) as (o0&Ho0&Hs).
  assert (any_ok (DefaultValue o0)) as H0.
  { assert (Forall (fun o : Option => any_ok (DefaultValue o)) options) as H; [|rewrite Forall_forall in H; by apply H].
    unfold options. repeat (apply Forall_app_2 || apply Forall_cons_2 || apply Forall_nil_2);
      simpl; unfold Minute, Second, LogFormatText; try done; try lia; auto. }
  destruct (same_default _ _ Hs) as [->|[_ [->| ->]]]; done.
Qed.

Lemma tree_Get_ok tree key v : Forall any_ok tree.*2 -> tree_Get tree key = Some v -> any_ok v.
Proof.
  induction tree as [|[k w] tree IH]; csimpl; [done|]. intros [Hw Ht]%Forall_cons. case_decide; [by intros [= <-]|auto].
Qed.

Lemma SetValues_keeps_types opts lookupEnv fs :
  Forall2 same_option options opts -> keeps_types (SetValues lookupEnv fs opts).
Proof.
  intros Hadd.
  assert (keeps_types (loadEnv lookupEnv opts)) as Henv.
  { apply typed_for_each. intros o Ho. destruct (getEnvKey o); [|by apply typed_same].
    destruct (lookupEnv _); [by eapply typed_setValue|by apply typed_same]. }
  assert (keeps_types (loadFlags fs opts)) as Hflags.
  { apply typed_for_each. intros o Ho. destruct (_ || _); [by apply typed_same|].
    apply typed_bind; [by apply typed_same|]. intros v cfg E. eapply typed_setValue; [done..|].
    unfold of_res, GetFlag in E. simpl in E.
    destruct (CustomSetValue o); [by eapply Flag_Get_ok|]. destruct (key_kind o); try done; by eapply Flag_Get_ok. }
  unfold SetValues. apply typed_bind; [|intros _ _ _].
  { apply typed_bind; [|intros _ _ _; by apply (typed_set _ KString); [field_type|]].
    apply typed_for_each. intros o Ho. pose proof (default_ok _ _ Hadd Ho) as Hd.
    destruct (DefaultValue o); first [by apply typed_same|by eapply typed_setValue]. }
  apply typed_bind; [done|intros _ _ _]. apply typed_bind; [done|intros _ _ _].
  apply typed_bind; [by apply typed_same|intros path _ _]. case_decide; [|by apply typed_same].
  apply typed_bind; [|intros _ _ _; by apply typed_bind].
  apply typed_bind; [by apply typed_same|intros p _ _]. apply typed_bind; [by apply typed_same|intros content _ _].
  apply typed_bind; [by apply typed_same|intros strict _ _].
  apply typed_bind; [by apply typed_same|intros tree cfg E].
  apply LoadReader_ok in E. apply typed_bind.
  - apply typed_for_each. intros o Ho. destruct (getTomlKey o) as [key|]; [|by apply typed_same].
    destruct (tree_Get tree key) as [v|] eqn:Ev; [|by apply typed_same]. apply tree_Get_ok in Ev; [|done].
    destruct v; first [by apply typed_same|by eapply typed_setValue].
  - intros _ _ _. apply typed_bind; [by apply typed_same|]. intros s _ _. destruct (_ || _); [|by apply typed_same].
    by destruct (unexpected_keys _ _); apply typed_same.
Qed.
(** C31: Loading the configuration keeps it well typed, whatever the sources hold
    and even when it fails: an integer option is within its width (an [uint16]
    port that is given a larger number leaves its low bits) and a limit within 32
    bits, a duration fits 64
    bits, the log format is a known one. *)
Theorem SetValues_typed opts lookupEnv fs cfg :
  Forall2 same_option options opts -> typed cfg -> typed (SetValues lookupEnv fs opts cfg).2.
Proof. intros Hadd. by apply SetValues_keeps_types. Qed.
End typing.

(** ** Attaching the options to flags, and the defaults *)

(** pflag's documented behaviour: a flag of a name that is not taken can be
    declared with a default of its type. *)
Class PflagLaws `{TT : TomlTypes} `{PF : !Pflag} := {
  declared : FlagSet -> list string;
  Flag_Declare_ok k name v usage fs :
    name ∉ declared fs -> any_has_kind k v = true ->
    exists fs', Flag_Declare k name v usage fs = Ok fs' /\ declared fs' = name :: declared fs;
}.

Section attaching.
Context `{TT : TomlTypes} `{CS : !ConfigSdk} `{PF : !Pflag} `{OS : Os} `{PL : !PflagLaws}.

(** The option [AddFlag] leaves: a missing default of a text option becomes an
    empty one. *)
Definition attached (o : Option) : Option :=
  if decide (Name o = "") then o
  else with_flag match CustomSetValue o, key_kind o, DefaultValue o with
                 | Some _, _, ANil | None, KString, ANil => with_default (AString "") o
                 | None, KStrings, ANil => with_default (AStrings []) o
                 | _, _, _ => o
                 end.

(** An option whose flag can be declared *)
Definition attachable (o : Option) : Prop :=
  Name o = "" \/ is_Some (CustomSetValue o) \/
  (forall t, key_kind o ≠ KOther t) /\ any_has_kind (key_kind o) (DefaultValue (attached o)) = true.

Lemma AddFlag_total (o : Option) fs :
  attachable o -> Name o = "" \/ Name o ∉ declared fs ->
  exists fs', AddFlag o fs = Ok (attached o, fs') /\
    declared fs' = (if decide (Name o = "") then [] else [Name o]) ++ declared fs.
Proof.
  intros Ho Hn. unfold AddFlag, attachable, attached in *. destruct (decide (Name o = "")) as [|Hne]; [by exists fs|].
  destruct Hn as [|Hn]; [done|]. destruct (CustomSetValue o) eqn:Ec.
  - destruct (Flag_Declare_ok KString (Name o) (AString (Sprint (DefaultValue
      match DefaultValue o with ANil => with_default (AString "") o | _ => o end))) (UsageText o) fs) as (fs'&E&Hd); [done..|].
    exists fs'. destruct (DefaultValue o) eqn:Ed; simpl in *; rewrite ?Ed in *; simpl in *; by rewrite E.
  - destruct Ho as [|[[? ?]|[Hk Hd]]]; [done..|].
    destruct (key_kind o) eqn:Ek; [..|by destruct (Hk type)]; cbn [DefaultValue with_flag] in Hd;
      match type of Hd with any_has_kind ?k ?v = true =>
        destruct (Flag_Declare_ok k (Name o) v (UsageText o) fs) as (fs'&E&Hdecl); [done..|]; exists fs';
        destruct (DefaultValue o) eqn:Ed; simpl in *; rewrite ?Ed in *; simpl in *; try done; by rewrite ?Hd, E
      end.
Qed.

Definition named (opts : list Option) : list string :=
  filter (fun n => n ≠ "") ((fun o : Option => Name o) <$> opts).

Lemma AddFlags_attached opts fs :
  Forall attachable opts -> NoDup (named opts) -> (forall n, n ∈ named opts -> n ∉ declared fs) ->
  exists fs', AddFlags opts fs = Ok (attached <$> opts, fs') /\ declared fs' ≡ₚ named opts ++ declared fs.
Proof.
  revert fs. induction opts as [|o opts IH]; intros fs Ho Hd Hf; [by exists fs|].
  apply Forall_cons in Ho as [Ho Hopts]. unfold named in *. csimpl in *. rewrite filter_cons in Hd, Hf |- *.
  destruct (AddFlag_total o fs Ho) as (fs1&E1&D1).
  { destruct (decide (Name o = "")) as [|Hne]; [by left|right]. apply Hf.
    destruct (decide (Name o ≠ "")); [by left|done]. }
  simpl. rewrite E1. simpl. destruct (decide (Name o ≠ "")) as [Hn|Hn].
  - apply NoDup_cons in Hd as [Hni Hd]. rewrite decide_False in D1 by done.
    destruct (IH fs1) as (fs2&E2&D2); [done..| |].
    { intros n Hin. rewrite D1. simpl. apply not_elem_of_cons. split; [by intros ->|]. apply Hf. by right. }
    exists fs2. rewrite E2. split; [done|]. rewrite D2, D1. simpl. by rewrite Permutation_middle.
  - apply dec_stable in Hn. rewrite decide_True in D1 by done. destruct (IH fs1) as (fs2&E2&D2); [done|done| |].
    { intros n Hin. rewrite D1. by apply Hf. }
    exists fs2. rewrite E2. split; [done|]. by rewrite D2, D1.
Qed.

Lemma options_attachable : Forall attachable options.
Proof.
  unfold options. repeat (apply Forall_app_2 || apply Forall_cons_2 || apply Forall_nil_2);
    first [by left|right; left; by eexists|right; right; by split].
Qed.

(** Loading the default of one option *)
Definition load_default (o : Option) : M Config unit :=
  match DefaultValue o with ANil => mret tt | v => setValue o v end.

Definition succeeds (m : M Config unit) : Prop := forall cfg, exists cfg', m cfg = (Ok tt, cfg').

Lemma for_each_succeeds (l : list Option) body : Forall (fun o => succeeds (body o)) l -> succeeds (for_each l body).
Proof.
  induction 1 as [|o l Ho _ IH]; intros cfg; [by exists cfg|]. simpl. unfold mbind, M_bind.
  destruct (Ho cfg) as [cfg1 ->]. apply IH.
Qed.

(** The default of the option of the table, attached or not for want of a name *)
Definition default_loads (o : Option) : Prop := succeeds (load_default (attached o)).

Lemma load_uint n e t u f w z v :
  w ≠ W64 -> 0 <= z < 2 ^ 32 -> default_loads (opt n e t u f (KUint w) (AUint w z) None v).
Proof.
  intros Hw Hz cfg. unfold attached, load_default, setValue, parser. cbn -[parseUint32].
  assert (forall o, key_kind o = KUint w -> exists v, parseUint32 o (AUint w z) = Ok (Some v)) as H.
  { intros o Ho. unfold parseUint32, parseUint32_string, Sprint. change (FormatInt z) with (FormatUint z).
    rewrite ParseUint_FormatUint by lia. unfold mbind, Res_bind. rewrite decide_False by lia.
    unfold SetUint. rewrite Ho. by eexists. }
  destruct (H (MkOptionInfo n e t u (f, KUint w)) eq_refl) as [x Hx].
  case_decide; destruct w; try done; cbn -[parseUint32]; rewrite Hx; unfold_m; simpl; by eexists.
Qed.

Lemma load_bool n e t u f x v : default_loads (opt n e t u f KBool (ABool x) None v).
Proof. intros cfg. unfold attached. case_decide; by eexists. Qed.

Lemma load_duration n e t u f d v : default_loads (opt n e t u f KDuration (ADuration d) None v).
Proof. intros cfg. unfold attached. case_decide; by eexists. Qed.

Lemma load_string n e t u f s v : default_loads (opt n e t u f KString (AString s) None v).
Proof. intros cfg. unfold attached. case_decide; by eexists. Qed.

Lemma load_missing n e t u f k v : k = KString \/ k = KStrings -> default_loads (opt n e t u f k ANil None v).
Proof. intros Hk cfg. unfold attached. case_decide; destruct Hk as [-> | ->]; by eexists. Qed.

Lemma load_nameless e t u f k c v : default_loads (opt "" e t u f k ANil c v).
Proof. intros cfg. by eexists. Qed.

Lemma load_level n e t u f k l v : default_loads (opt n e t u f k (ALevel l) (Some set_log_level) v).
Proof. intros cfg. unfold attached. case_decide; by eexists. Qed.

Lemma load_format n e t u f k l v : default_loads (opt n e t u f k (AFormat l) (Some set_log_format) v).
Proof. intros cfg. unfold attached. case_decide; by eexists. Qed.

Lemma load_network n e t u f k v : default_loads (opt n e t u f k ANil (Some set_network) v).
Proof. intros cfg. unfold attached. case_decide; by eexists. Qed.

Lemma load_storage_path n e t u f k v cwd :
  Getwd = Ok cwd -> default_loads (opt n e t u f k ANil (Some set_storage_path) v).
Proof.
  intros Hcwd cfg. unfold attached. case_decide; [by eexists|]. unfold load_default, setValue. cbn.
  unfold getwd. unfold_m. rewrite Hcwd. by eexists.
Qed.

Lemma options_defaults cwd : Getwd = Ok cwd -> 0 <= NumCPU < 2 ^ 16 -> Forall default_loads options.
Proof.
  intros Hcwd Hcpu.
  assert (0 <= defaultUintCPU < 2 ^ 32) as Hu by (unfold defaultUintCPU, u64; rewrite Z.mod_small; lia).
  assert (0 <= defaultUint16CPU < 2 ^ 32) as H16 by (unfold defaultUint16CPU; rewrite Z.mod_small; lia).
  unfold options. repeat (apply Forall_app_2 || apply Forall_cons_2 || apply Forall_nil_2).
  all: lazymatch goal with
       | |- default_loads (opt _ _ _ _ _ (KUint _) _ _ _) => apply load_uint; [done|first [assumption|done|idtac]]
       | |- default_loads (opt _ _ _ _ _ KBool _ _ _) => apply load_bool
       | |- default_loads (opt _ _ _ _ _ KDuration _ _ _) => apply load_duration
       | |- default_loads (opt _ _ _ _ _ _ (AString _) _ _) => apply load_string
       | |- default_loads (opt _ _ _ _ _ _ (ALevel _) _ _) => apply load_level
       | |- default_loads (opt _ _ _ _ _ _ (AFormat _) _ _) => apply load_format
       | |- default_loads (opt _ _ _ _ _ _ ANil None _) => apply load_missing; auto
       | |- default_loads (opt "" _ _ _ _ _ ANil _ _) => apply load_nameless
       | |- default_loads (opt _ _ _ _ _ _ ANil (Some set_network) _) => apply load_network
       | |- _ => by eapply load_storage_path
       end.
Qed.

(** Every named option can be attached to a flag of its own on an empty flag
    set, no default has the wrong type and no name is taken twice; and the
    defaults of the attached options load without error. *)
Theorem AddFlags_total fs cwd cfg :
  declared fs = [] -> Getwd = Ok cwd -> 0 <= NumCPU < 2 ^ 16 ->
  exists fs' cfg', AddFlags options fs = Ok (attached <$> options, fs') /\ declared fs' ≡ₚ named options /\
    loadDefaults (attached <$> options) cfg = (Ok tt, cfg').
Proof.
  intros Hfs Hcwd Hcpu. destruct (AddFlags_attached options fs options_attachable) as (fs'&E&Hd).
  - apply (bool_decide_unpack _). vm_compute. exact I.
  - rewrite Hfs. intros n _. apply not_elem_of_nil.
  - destruct (for_each_succeeds (attached <$> options) load_default) with cfg as [cfg1 E1].
    { apply Forall_fmap. by apply (options_defaults cwd). }
    exists fs', (set_field "HistoryArchiveUserAgent" (VString ("stellar-rpc/" +:+ Version)) cfg1).
    split; [done|]. split; [by rewrite Hd, Hfs, app_nil_r|].
    unfold loadDefaults, mbind, M_bind. change (for_each _ _) with (for_each (attached <$> options) load_default).
    by rewrite E1.
Qed.
End attaching.

(** ** The network option *)

Section network.
Context `{TT : TomlTypes} `{CS : !ConfigSdk} `{OS : Os}.

(** Neither archives nor a passphrase, or the network's own *)
Definition network_agrees (p : networkConfig) (cfg : Config) : Prop :=
  strings_field "HistoryArchiveURLs" cfg = [] /\ string_field "NetworkPassphrase" cfg = "" \/
  strings_field "HistoryArchiveURLs" cfg = historyArchiveURLs p /\
  string_field "NetworkPassphrase" cfg = networkPassphrase p.

(** What [setForNetwork] does to the fields: nothing, or the conflict, or the
    three fields of the network. *)
Lemma setForNetwork_cases p cfg :
  (forall files, exists name, CreateTemp files = Ok name) -> os_Write (configFile p) = Ok tt ->
  (network_agrees p cfg /\ exists cfg', setForNetwork p cfg = (Ok tt, cfg') /\
     strings_field "HistoryArchiveURLs" cfg' = historyArchiveURLs p /\
     string_field "NetworkPassphrase" cfg' = networkPassphrase p) \/
  (~ network_agrees p cfg /\ setForNetwork p cfg = (Err network_conflict, cfg)).
Proof.
  intros Htemp Hwrite. unfold setForNetwork, network_agrees. unfold_m.
  destruct (decide (_ /\ _)) as [[Hu Hp]|Hown].
  { left. split; [by right|]. by exists cfg. }
  destruct (decide (_ \/ _)) as [Hset|Hset]; [right; split; [tauto|done]|].
  left. assert (strings_field "HistoryArchiveURLs" cfg = [] /\ string_field "NetworkPassphrase" cfg = "") as [Hu Hp].
  { split; apply dec_stable; intros ?; apply Hset; auto. }
  split; [by left|]. unfold writeEmbeddedCaptiveCore. unfold_m.
  destruct (Htemp (temp_files cfg)) as [name ->]. rewrite Hwrite. cbn.
  eexists. split; [done|]. unfold strings_field, string_field. simpl. by simplify_map_eq.
Qed.

(** Once a configuration agrees with the network, naming it again changes nothing. *)
Lemma set_network_again o v p cfg :
  v ≠ "" -> network_params v = Some p ->
  fields cfg !! "Network" = Some (VString v) -> strings_field "HistoryArchiveURLs" cfg = historyArchiveURLs p ->
  string_field "NetworkPassphrase" cfg = networkPassphrase p -> set_network o (AString v) cfg = (Ok tt, cfg).
Proof.
  intros Hv Hp Hn Hu Hpass. unfold set_network. rewrite decide_False, Hp by done.
  unfold setForNetwork, map_err, gets, modify, mbind, M_bind. rewrite decide_True by done. cbn.
  unfold set_field. rewrite insert_id by done. by destruct cfg.
Qed.

Lemma network_params_named v p : network_params v = Some p -> v ≠ "".
Proof. unfold network_params. intros H ->. by repeat case_decide. Qed.

(** Naming a network either leaves the configuration with its archives and
    its passphrase, the three fields it did not find set included, or it fails
    because other archives or another passphrase are configured, and then it
    writes no field; a second naming of the same network writes no second
    configuration file. *)
Theorem set_network_exclusive o v p cfg :
  network_params v = Some p ->
  (forall files, exists name, CreateTemp files = Ok name) -> os_Write (configFile p) = Ok tt ->
  let '(r, cfg') := set_network o (AString v) cfg in
  (r = Ok tt <-> network_agrees p cfg) /\
  (r = Ok tt -> fields cfg' !! "Network" = Some (VString v) /\ strings_field "HistoryArchiveURLs" cfg' = historyArchiveURLs p /\
     string_field "NetworkPassphrase" cfg' = networkPassphrase p /\
     set_network o (AString v) cfg' = (Ok tt, cfg')) /\
  (r ≠ Ok tt -> cfg' = cfg).
Proof.
  intros Hp Htemp Hwrite. pose proof (network_params_named _ _ Hp) as Hv.
  destruct (set_network o (AString v) cfg) as [r cfg'] eqn:E. unfold set_network in E.
  rewrite decide_False, Hp in E by done. unfold map_err, modify, mbind, M_bind in E.
  destruct (setForNetwork_cases p cfg Htemp Hwrite) as [(Ha&cfg1&E1&Hu&Hpass)|[Hna E1]]; rewrite E1 in E;
    injection E as <- <-.
  - split_and!; [naive_solver| |done]. intros _.
    assert (strings_field "HistoryArchiveURLs" (set_field "Network" (VString v) cfg1) = historyArchiveURLs p) as Hu'
      by (unfold strings_field; simpl; by rewrite lookup_insert_ne).
    assert (string_field "NetworkPassphrase" (set_field "Network" (VString v) cfg1) = networkPassphrase p) as Hp'
      by (unfold string_field; simpl; by rewrite lookup_insert_ne).
    split_and!; [by simplify_map_eq|done..|]. apply (set_network_again o v p); [done..|by simplify_map_eq|done|done].
  - split_and!; [|done|done]. split; [done|]. intros. done.
Qed.
End network.

(** ** A concrete instance: a server given a flag, an environment and a file *)

#[local] Instance ex_toml_types : TomlTypes := { Tree := unit; Struct := unit }.

Fixpoint ex_constant_case (s : string) : string :=
  match s with
  | EmptyString => ""
  | String c s =>
      let n := Ascii.nat_of_ascii c in
      String (if decide (n = 45)%nat then char 95 else if decide (97 <= n /\ n <= 122)%nat then char (n - 32) else c)
        (ex_constant_case s)
  end.

#[local] Instance ex_config_sdk : ConfigSdk := {
  KebabToConstantCase := ex_constant_case;
  LoadReader c := if decide (c = "bad") then Err (EExt "toml: bad")
                  else Ok [("ENDPOINT", AString "file:1"); ("LOG_FORMAT", AString "json");
                           ("MAX_EVENTS_LIMIT", AInt W64 70); ("STELLAR_CAPTIVE_CORE_HTTP_PORT", AInt W64 70000)];
  Tree_String _ := "";
  toml_Marshal _ := Ok "";
  toml_Unmarshal _ := mret tt;
  zero_struct _ := tt;
  ParseLevel s := if decide (s = "debug") then Ok 5 else Err (EExt "not a valid logrus Level");
  Level_String _ := "info";
  InfoLevel := 4;
  TestnetParams := MkNetworkConfig "TESTNET CORE" ["https://testnet"] "Test SDF Network";
  PubnetParams := MkNetworkConfig "PUBNET CORE" ["https://pubnet"] "Public Network";
  FuturenetParams := MkNetworkConfig "FUTURENET CORE" ["https://futurenet"] "Future Network";
}.

#[local] Instance ex_pflag : Pflag := {
  FlagSet := list (string * (kind * any * bool));
  Flag_Declare k n v _ fs :=
    if decide (n ∈ fs.*1) then Panic ("flag redefined: " +:+ n) else Ok ((n, (k, v, false)) :: fs);
  Flag_Changed fs n := existsb (fun p => bool_decide (p.1 = n) && p.2.2) fs;
  Flag_Get k fs n :=
    match list_find (fun p => p.1 = n) fs with
    | Some (_, (_, (k', v, _))) => if decide (k = k') then Ok (match v with ADuration d => ADuration (i64 d) | AFormat _ => ANil | v => v end)
                                   else Err (EExt "trying to get a flag of another type")
    | None => Err (EExt "flag accessed but not defined")
    end;
}.

#[local] Instance ex_os : Os := {
  NumCPU := 8;
  LookPath _ := "/usr/bin/stellar-core";
  Getwd := Ok "/srv";
  os_Open p := if decide (p = "rpc.toml") then Ok "good" else Err (EExt "no such file or directory");
  CreateTemp files := Ok ("/tmp/captiveCoreTemp-" +:+ FormatInt (zlen files) +:+ ".cfg");
  os_Write _ := Ok tt;
}.

#[local] Instance ex_pflag_laws : PflagLaws.
Proof.
  refine {| declared := fun fs : FlagSet => fs.*1 |}.
  intros k n v u fs Hn Hv. simpl in *. rewrite decide_False by done. by eexists.
Defined.

#[local] Instance ex_config_laws : ConfigLaws.
Proof.
  split.
  - intros k fs n v. simpl. destruct (list_find _ _) as [[i [n' [[k' v'] b]]]|]; [|done]. case_decide; [|done].
    intros [= <-]. destruct v'; try done. simpl. unfold i64. pose proof (Z.mod_pos_bound (d + 2 ^ 63) (2 ^ 64) ltac:(lia)). lia.
  - intros c tree. simpl. case_decide; [done|]. intros [= <-]. by repeat constructor.
Defined.

Definition ex_opts : list Option := attached <$> options.
Definition ex_declared : FlagSet := match AddFlags options [] with Ok (_, fs) => fs | _ => [] end.

(** The command line [--config-path rpc.toml --network testnet --max-events-limit 300] *)
Definition ex_flags : FlagSet :=
  (fun p : string * (kind * any * bool) =>
     if decide (p.1 = "config-path") then (p.1, (KString, AString "rpc.toml", true))
     else if decide (p.1 = "network") then (p.1, (KString, AString "testnet", true))
     else if decide (p.1 = "max-events-limit") then (p.1, (KUint Word, AUint Word 300, true)) else p) <$> ex_declared.

Definition ex_env (key : string) : option string :=
  if decide (key = "ENDPOINT") then Some "env:2" else if decide (key = "MAX_EVENTS_LIMIT") then Some "200" else None.

Definition ex_empty : Config := MkConfig ∅ [].
Definition ex_loaded : Config := (SetValues ex_env ex_flags ex_opts ex_empty).2.
Definition ex_option (i : nat) : Option :=
  match ex_opts !! i with Some o => o | None => opt "" "" "" "" "" KBool ANil None None end.

Lemma ex_added : AddFlags options [] = Ok (ex_opts, ex_declared).
Proof.
  destruct (AddFlags_attached (PF := ex_pflag) options [] options_attachable) as (fs'&E&_).
  - apply (bool_decide_unpack _). vm_compute. exact I.
  - intros n _. simpl. apply not_elem_of_nil.
  - unfold ex_declared. by rewrite E.
Qed.
Lemma ex_attached : Forall2 same_option options ex_opts.
Proof. by eapply AddFlags_same, ex_added. Qed.

(** The flag wins for the limit, the environment for the endpoint, the file for
    the log format (a custom option), the default for the rest; the port of the
    file, 70000, keeps its low 16 bits. *)
Example ex_loads :
  string_field "Endpoint" ex_loaded = "env:2" /\ num_field "MaxEventsLimit" ex_loaded = 300 /\
  num_field "LogFormat" ex_loaded = LogFormatJSON /\ num_field "CaptiveCoreHTTPPort" ex_loaded = 4464 /\
  num_field "MaxLedgersLimit" ex_loaded = 200 /\ string_field "NetworkPassphrase" ex_loaded = "Test SDF Network" /\
  temp_files ex_loaded = [("/tmp/captiveCoreTemp-0.cfg", "TESTNET CORE")] /\
  (SetValues ex_env ex_flags ex_opts ex_empty).1 = Ok tt /\
  (Options_Validate ex_opts ex_loaded).1 = None.
Proof. vm_compute. done. Qed.

Lemma ex_key : key_field (ex_option 2) = "Endpoint".
Proof. vm_compute. reflexivity. Qed.
Lemma ex_in : ex_option 2 ∈ ex_opts.
Proof. apply (list_elem_of_lookup_2 _ 2). unfold ex_option. destruct (ex_opts !! 2%nat) eqn:E; [done|]. by vm_compute in E. Qed.
Lemma ex_set_ok : SetValues ex_env ex_flags ex_opts ex_empty = (Ok tt, ex_loaded).
Proof.
  unfold ex_loaded. rewrite (surjective_pairing (SetValues _ _ _ _)) at 1. by f_equal.
Qed.

Lemma SetValues_precedence_witness : fields ex_loaded !! "Endpoint" = Some (VString "env:2").
Proof.
  rewrite <- ex_key.
  rewrite (SetValues_precedence (PF := ex_pflag) [] ex_opts ex_declared ex_flags ex_env ex_empty ex_loaded (ex_option 2)
    ex_added ex_in).
  - vm_compute. reflexivity.
  - vm_compute. reflexivity.
  - rewrite ex_key. apply (bool_decide_unpack _). vm_compute. exact I.
  - apply ex_set_ok.
Defined.

Lemma SetValues_typed_witness :
  typed ex_loaded /\ fields ex_loaded !! "CaptiveCoreHTTPPort" = Some (VNum (70000 mod 2 ^ 16)).
Proof.
  split; [|vm_compute; reflexivity].
  apply (SetValues_typed (PF := ex_pflag) ex_opts ex_env ex_flags ex_empty ex_attached). intros f k v _. done.
Defined.

Lemma ex_typed : typed ex_loaded.
Proof. apply (SetValues_keeps_types (PF := ex_pflag) ex_opts ex_env ex_flags ex_attached). intros f k v _. done. Qed.

Lemma ex_validates : (Options_Validate ex_opts ex_loaded).1 = None.
Proof. vm_compute. reflexivity. Qed.

Lemma ex_valid_config : valid_config ex_loaded.
Proof.
  apply (options_pass ex_loaded (Options_Validate ex_opts ex_loaded).2).
  rewrite <- (all_pass_attached _ _ _ ex_attached). apply (validate_loop_None ex_opts [] ex_loaded).
  rewrite <- ex_validates. apply surjective_pairing.
Qed.

Lemma Validate_exact_witness : valid_config ex_loaded /\ Options_Validate ex_opts ex_loaded = (None, with_core_url ex_loaded).
Proof.
  assert (valid_config ex_loaded /\ (Options_Validate ex_opts ex_loaded).2 = with_core_url ex_loaded) as [H E].
  { apply (Validate_exact ex_opts ex_loaded _ ex_attached). rewrite <- ex_validates. apply surjective_pairing. }
  split; [exact H|]. rewrite <- E, <- ex_validates. apply surjective_pairing.
Defined.

Lemma AddFlags_total_witness : exists fs' cfg', AddFlags options [] = Ok (attached <$> options, fs') /\
  loadDefaults (attached <$> options) ex_empty = (Ok tt, cfg').
Proof.
  destruct (AddFlags_total (PF := ex_pflag) [] "/srv" ex_empty) as (fs'&cfg'&H1&_&H2); [reflexivity|reflexivity|simpl; lia|].
  exists fs', cfg'. by split.
Defined.

Lemma ex_temp files : exists name, CreateTemp files = Ok name.
Proof. by eexists. Qed.

Lemma set_network_exclusive_witness :
  let '(r, cfg') := set_network (MkOptionInfo "network" "" "" "" ("Network", KString)) (AString "pubnet") ex_loaded in
  r ≠ Ok tt /\ cfg' = ex_loaded.
Proof.
  pose proof (set_network_exclusive (MkOptionInfo "network" "" "" "" ("Network", KString)) "pubnet" PubnetParams ex_loaded
    eq_refl ex_temp eq_refl) as H.
  destruct (set_network _ _ ex_loaded) as [r cfg'] eqn:E. destruct H as (H1&_&H3).
  assert (r ≠ Ok tt) as Hr; [|split; [exact Hr|exact (H3 Hr)]].
  intros Hok. apply H1 in Hok. unfold network_agrees in Hok.
  destruct Hok as [[_ Hok]|[_ Hok]]; vm_compute in Hok; discriminate Hok.
Defined.
