(* ===== verification/ConfigRender.v ===== *)
(** * Rendering a configuration file: config/toml.go and the MarshalTOML hooks

    [MarshalTOML] writes every option that a file can set: its usage, wrapped,
    as a comment, then its value, commented out when it is the zero value of its
    type.  The TOML library, which builds and writes the tree, is a parameter;
    what is assumed of it is that it reads back what it wrote. *)

From S2P Require Import Prelude GoStd GoText GoStrings Config ConfigOptions ConfigLoad.

(** ** Comments *)

(** The loop of [wordWrap] over the words after the first one: what it appends *)
Fixpoint wrap_words (lineWidth spaceLeft : Z) (words : list string) : string :=
  match words with
  | [] => ""
  | word :: words =>
      if decide (spaceLeft < strlen word + 1)
      then String (char 10) (word +:+ wrap_words lineWidth (lineWidth - strlen word) words)
      else String (char 32) (word +:+ wrap_words lineWidth (spaceLeft - (1 + strlen word)) words)
  end.

Definition wordWrap (text : string) (lineWidth : Z) : string :=
  match Fields (TrimSpace text) with
  | [] => text
  | word :: words => word +:+ wrap_words lineWidth (lineWidth - strlen word) words
  end.

(** A line that fits, or one word longer than a line *)
Definition fits (width : Z) (line : string) : Prop := strlen line <= width \/ spaceless line = true.

Lemma Fields_wrap_words w width left words :
  word w -> Forall word words -> Fields (w +:+ wrap_words width left words) = w :: words.
Proof.
  intros Hw Hws. revert w Hw left. induction Hws as [|v words Hv _ IH]; intros w Hw left.
  - simpl. rewrite app_string_nil. by apply Fields_word.
  - simpl. case_decide; (rewrite Fields_space; [by rewrite IH|done|done]).
Qed.

Lemma wrap_words_lines width line words :
  no_newline line = true -> fits width line -> Forall word words ->
  Forall (fits width) (Split (char 10) (line +:+ wrap_words width (width - strlen line) words)).
Proof.
  intros Hl Hf Hw. revert line Hl Hf. induction Hw as [|w words [_ Hw] _ IH]; intros line Hl Hf.
  - simpl. rewrite app_string_nil, Split_no_newline by done. by apply Forall_singleton.
  - cbn [wrap_words]. pose proof (spaceless_no_newline _ Hw) as Hn. case_decide as Hd.
    + rewrite Split_newline by done. constructor; [done|]. apply IH; [done|by right].
    + replace (line +:+ String (char 32) (w +:+ wrap_words width (width - strlen line - (1 + strlen w)) words))
        with ((line +:+ String (char 32) w) +:+ wrap_words width (width - strlen (line +:+ String (char 32) w)) words).
      * apply IH.
        -- rewrite no_newline_app, Hl. simpl. by rewrite Hn.
        -- left. rewrite strlen_app. unfold strlen in *. simpl String.length. lia.
      * rewrite app_string_assoc, string_cons_app. do 4 f_equal. rewrite strlen_app. unfold strlen. simpl String.length. lia.
Qed.

(** Wrapping keeps the words and breaks the text into lines that fit or hold one
    word; a text without words is left as it is. *)
Theorem wordWrap_spec text width :
  Fields (wordWrap text width) = Fields text /\
  (Fields text ≠ [] -> Forall (fits width) (Split (char 10) (wordWrap text width))).
Proof.
  unfold wordWrap. rewrite Fields_TrimSpace. pose proof (Fields_words text) as Hw.
  destruct (Fields text) as [|w words] eqn:E; [done|]. apply Forall_cons in Hw as [[Hn Hw] Hws]. split.
  - by apply Fields_wrap_words.
  - intros _. apply wrap_words_lines; [by apply spaceless_no_newline|by right|done].
Qed.

(** ** The TOML library *)

(** [toml.SetOptions] *)
Record SetOptions := MkSetOptions { Comment : string; Commented : bool }.

(** A value put in a tree: an interface value, the bytes of one that is written
    as they are, or a struct. *)
Inductive toml_value `{TomlTypes} := TAny (i : any) | TRaw (bytes : string) | TStruct (s : Struct).

(** The tree under construction, [toml.Marshal] of a struct, [toml.LoadBytes];
    [reflect]'s [IsZero] of a struct and the literals of the three struct types. *)
Class TomlWriter `{TomlTypes} := {
  TomlDoc : Type;
  TreeFromMap : list (string * any) -> Res TomlDoc;
  SetWithOptions : TomlDoc -> string -> SetOptions -> toml_value -> TomlDoc;
  Doc_Marshal : TomlDoc -> Res string;
  struct_Marshal : Struct -> Res string;
  LoadBytes : string -> Res Tree;
  struct_IsZero : Struct -> bool;
  BufferedStorageBackendConfig_lit : forall BufferSize NumWorkers RetryLimit RetryWait : Z, Struct;
  DataStoreConfig_lit : forall (Type_ : string) (Params : list (string * string)) (LedgersPerFile FilesPerPartition : Z), Struct;
  IngestLoadTestConfig_lit : forall Frequency : Z, Struct;
}.

(** ** MarshalTOML *)

Section render.
Context `{TT : TomlTypes} `{CS : !ConfigSdk} `{OS : Os} `{TW : !TomlWriter}.

Definition defaultBufferedStorageBackendConfig : Struct := BufferedStorageBackendConfig_lit 100 10 0 (0 * Second).
Definition defaultDataStoreConfig : Struct :=
  DataStoreConfig_lit "GCS" [("destination_bucket_path", "path_to_bucket")] 1 64000.
Definition DefaultIngestLoadTestFrequency : Z := 2 * Second.
Definition defaultIngestLoadTestConfig : Struct := IngestLoadTestConfig_lit DefaultIngestLoadTestFrequency.

Definition marshalTOMLTree (v : Struct) (configName : string) : Res toml_value :=
  match struct_Marshal v with
  | Err e => Err (EWrap ("failed to marshal " +:+ configName) e)
  | Panic m => Panic m
  | Ok tomlBytes => t ← LoadBytes tomlBytes; Ok (TAny (ATree t))
  end.

(** The [MarshalTOML] hooks of the table of options, by the field they are for *)
Definition MarshalTOML_hook (o : OptionInfo) (cfg : Config) : option (Res toml_value) :=
  let f := key_field o in
  if decide (f = "LogLevel") then Some (Ok (TAny (AString (Level_String (num_field "LogLevel" cfg)))))
  else if decide (f = "LogFormat") then Some (s ← LogFormat_String (num_field "LogFormat" cfg); Ok (TAny (AString s)))
  else if decide (f = "BufferedStorageBackendConfig")
    then Some (marshalTOMLTree defaultBufferedStorageBackendConfig "buffered_storage_backend_config")
  else if decide (f = "DataStoreConfig") then Some (marshalTOMLTree defaultDataStoreConfig "datastore_config")
  else if decide (f = "IngestLoadTest") then Some (marshalTOMLTree defaultIngestLoadTestConfig "ingest_load_test_config")
  else None.

(** [marshalTOML] of option.go *)
Definition marshalTOML (o : OptionInfo) (cfg : Config) : Res toml_value :=
  let f := key_field o in
  match MarshalTOML_hook o cfg with
  | Some v => v
  | None =>
      match key_kind o with
      | KInt _ => Ok (TRaw (FormatInt (num_field f cfg)))
      | KUint _ => Ok (TRaw (FormatUint (num_field f cfg)))
      | KDuration => Ok (TAny (AString (Duration_String (num_field f cfg))))
      | KBool => Ok (TAny (ABool (bool_field f cfg)))
      | KString => Ok (TAny (AString (string_field f cfg)))
      | KStrings => Ok (TAny (AStrings (strings_field f cfg)))
      | KOther _ => Ok (TStruct (struct_field f cfg))
      end
  end.

(** [value.(toml.Marshaler)]: a log format is one. *)
Definition as_Marshaler (value : toml_value) : Res toml_value :=
  match value with
  | TAny (AFormat f) => s ← LogFormat_String f; Ok (TRaw s)
  | _ => Ok value
  end.

(** [reflect.ValueOf(option.ConfigKey).Elem().IsZero()].  A slice without elements
    is zero when it is nil, which the configuration of the model does not tell:
    [nil] does. *)
Definition is_zero (nil : string -> bool) (o : OptionInfo) (cfg : Config) : bool :=
  match fields cfg !! key_field o with
  | None => true
  | Some (VBool b) => negb b
  | Some (VNum z) => bool_decide (z = 0)
  | Some (VString s) => bool_decide (s = "")
  | Some (VStrings l) => bool_decide (l = []) && nil (key_field o)
  | Some (VStruct s) => struct_IsZero s
  end.

Definition maxLineWidth : Z := 80.
Definition commentIndent : Z := 2.

(** [strings.ReplaceAll(s, from, to)] for one byte [from] *)
Fixpoint ReplaceAll (s : string) (from : Ascii.ascii) (to : string) : string :=
  match s with
  | EmptyString => ""
  | String c s => if decide (c = from) then to +:+ ReplaceAll s from to else String c (ReplaceAll s from to)
  end.

Definition comment (o : OptionInfo) : string :=
  ReplaceAll (wordWrap (Usage o) (maxLineWidth - commentIndent)) (char 10) (String (char 10) " ").

Definition set_options (nil : string -> bool) (o : OptionInfo) (cfg : Config) : SetOptions :=
  MkSetOptions (comment o) (is_zero nil o cfg).

(** The loop over the options *)
Fixpoint marshal_options (nil : string -> bool) (opts : list Option) (cfg : Config) (tree : TomlDoc) : Res TomlDoc :=
  match opts with
  | [] => Ok tree
  | o :: opts =>
      match getTomlKey o with
      | None => marshal_options nil opts cfg tree
      | Some key =>
          value ← marshalTOML o cfg;
          value ← as_Marshaler value;
          marshal_options nil opts cfg (SetWithOptions tree key (set_options nil o cfg) value)
      end
  end.

Definition MarshalTOML (nil : string -> bool) (opts : list Option) (cfg : Config) : Res string :=
  tree ← TreeFromMap [];
  tree ← marshal_options nil opts cfg tree;
  Doc_Marshal tree.

End render.

(** ** The library reads back what it writes *)

(** Text that TOML carries unchanged: the printable characters of ASCII.  A
    comment may have several lines. *)
Fixpoint ascii_text (s : string) : bool :=
  match s with
  | String c s => bool_decide (32 <= Ascii.nat_of_ascii c < 127)%nat && ascii_text s
  | EmptyString => true
  end.

Fixpoint comment_text (s : string) : bool :=
  match s with
  | String c s =>
      bool_decide (32 <= Ascii.nat_of_ascii c < 127 \/ Ascii.nat_of_ascii c = 10)%nat && comment_text s
  | EmptyString => true
  end.

Fixpoint bare_key (s : string) : bool :=
  match s with
  | String c s =>
      let n := Ascii.nat_of_ascii c in
      bool_decide ((48 <= n <= 57 \/ 65 <= n <= 90 \/ 97 <= n <= 122) \/ n = 95 \/ n = 45)%nat && bare_key s
  | EmptyString => true
  end.

(** What is read back for a value: integers as [int64], lists as [[]interface{}]. *)
Inductive read_as `{TomlTypes} : toml_value -> any -> Prop :=
  | read_bool b : read_as (TAny (ABool b)) (ABool b)
  | read_string s : ascii_text s = true -> read_as (TAny (AString s)) (AString s)
  | read_strings l : Forall (fun s => ascii_text s = true) l -> read_as (TAny (AStrings l)) (AAnys (EStr <$> l))
  | read_int z : 0 <= z < 2 ^ 63 -> read_as (TRaw (FormatInt z)) (AInt W64 z).

(** A value the library can write *)
Definition writable `{TomlTypes} (v : toml_value) : Prop :=
  (exists i, read_as v i) \/ exists t, v = TAny (ATree t).

Class TomlWriterLaws `{TT : TomlTypes} `{CS : !ConfigSdk} `{TW : !TomlWriter} := {
  doc_entries : TomlDoc -> list (string * SetOptions * toml_value);
  TreeFromMap_empty : exists d, TreeFromMap [] = Ok d /\ doc_entries d = [];
  SetWithOptions_new d key opts v :
    bare_key key = true -> key ∉ (doc_entries d).*1.*1 ->
    doc_entries (SetWithOptions d key opts v) = doc_entries d ++ [(key, opts, v)];
  Doc_Marshal_reads d :
    Forall (fun e => bare_key e.1.1 = true /\ comment_text (Comment e.1.2) = true /\ writable e.2 /\
                     (Commented e.1.2 = false -> exists i, read_as e.2 i)) (doc_entries d) ->
    NoDup (doc_entries d).*1.*1 ->
    exists out tree, Doc_Marshal d = Ok out /\ LoadReader out = Ok tree /\ NoDup tree.*1 /\
      forall key i, (key, i) ∈ tree <->
        exists opts v, (key, opts, v) ∈ doc_entries d /\ Commented opts = false /\ read_as v i;
  struct_Marshal_loads s : exists b t, struct_Marshal s = Ok b /\ LoadBytes b = Ok t;
  Level_String_text l : ascii_text (Level_String l) = true;
  ParseLevel_String l : 0 <= l <= 6 -> ParseLevel (Level_String l) = Ok l;
}.
