(* ===== verification/ConfigRoundtrip.v ===== *)
(** * A rendered configuration file is read back

    The round trip of ConfigRender.v's [MarshalTOML] through [parseToml]: option by
    option, then the whole file, and what it leaves out. *)

From S2P Require Import Prelude GoStd GoText GoStrings Config ConfigOptions ConfigLoad ConfigRender.

(** ** Reading one option back *)

Section roundtrip.
Context `{TT : TomlTypes} `{CS : !ConfigSdk} `{OS : Os} `{TW : !TomlWriter} `{TL : !TomlWriterLaws}.
Context (nil : string -> bool).

(** What has to hold of a configuration for its rendering to be read back: text
    is printable ASCII, durations are whole seconds, the level is one of logrus', and the
    options whose setter does more than store their value do not need it: no
    network is named, the storage path is not the working directory, and the
    structs, which are rendered with their default, are not set. *)
Record renderable (cfg : Config) : Prop := {
  rd_string f s : fields cfg !! f = Some (VString s) -> ascii_text s = true;
  rd_strings f l : fields cfg !! f = Some (VStrings l) -> Forall (fun s => ascii_text s = true) l;
  rd_duration (o : Option) z : o ∈ options -> key_kind o = KDuration -> fields cfg !! key_field o = Some (VNum z) ->
    0 <= z /\ z mod Second = 0;
  rd_level : 0 <= num_field "LogLevel" cfg <= 6;
  rd_network : string_field "Network" cfg = "";
  rd_path : string_field "CaptiveCoreStoragePath" cfg ≠ ".";
  rd_struct f s : fields cfg !! f = Some (VStruct s) -> struct_IsZero s = true;
}.

(** An option is rendered, and reading its value back stores it again. *)
Definition restored (cfg : Config) (o : Option) : Prop :=
  exists v, (v ← marshalTOML o cfg; as_Marshaler v) = Ok v /\ writable v /\
    (is_zero nil o cfg = false -> exists w, fields cfg !! key_field o = Some w /\ (exists i, read_as v i) /\
       forall i s, read_as v i -> setValue o i s = (Ok tt, set_field (key_field o) w s)).

Lemma read_as_int z i : 0 <= z -> read_as (TRaw (FormatInt z)) i -> i = AInt W64 z.
Proof. intros Hz H. inversion H as [| | |z' Hz' E]. f_equal. unfold FormatInt in E. by apply (inj pretty) in E. Qed.

(** The kinds of the plain options *)
Definition plain_kind (k : kind) : bool :=
  match k with KBool | KString | KStrings | KDuration | KUint Word | KUint W16 | KUint W32 => true | _ => false end.

Lemma whole_seconds z : 0 <= z < 2 ^ 63 -> z mod Second = 0 -> ParseDuration (Duration_String z) = Ok z.
Proof.
  intros Hz Hm. apply Z.div_exact in Hm; [|done]. rewrite Z.mul_comm in Hm. rewrite Hm.
  apply ParseDuration_String; [apply Z.div_pos; unfold Second in *; lia|lia].
Qed.

Lemma ascii_text_app s t : ascii_text (s +:+ t) = ascii_text s && ascii_text t.
Proof. induction s as [|c s IH]; [done|]. rewrite string_cons_app. simpl. by rewrite IH, andb_assoc. Qed.

Lemma ascii_pretty_N_go x s : ascii_text s = true -> ascii_text (pretty_N_go x s) = true.
Proof.
  revert s. induction (N.lt_wf_0 x) as [x _ IH]; intros s Hs.
  destruct (decide (x = 0)%N) as [->|Hx]; [by rewrite pretty_N_go_0|].
  rewrite pretty_N_go_step by lia. apply IH; [apply N.div_lt; lia|]. simpl. rewrite Hs, andb_true_r.
  pose proof (N.mod_lt x 10 ltac:(lia)) as Hd. apply bool_decide_true.
  pose proof (digit_of_pretty _ Hd) as Hc. unfold digit_of in Hc. case_decide as Hn; [|done].
  unfold Ascii.nat_of_ascii. lia.
Qed.

Lemma ascii_pretty z : 0 <= z -> ascii_text (pretty z) = true.
Proof.
  intros Hz. destruct z as [|p|p]; [done| |lia].
  change (pretty (Zpos p)) with (pretty (Npos p)). by apply ascii_pretty_N_go.
Qed.

Lemma ascii_duration z : 0 <= z -> z mod Second = 0 -> ascii_text (Duration_String z) = true.
Proof.
  intros Hz Hm. apply Z.div_exact in Hm; [|done]. rewrite Z.mul_comm in Hm.
  assert (0 <= z / Second) as Hq by (apply Z.div_pos; unfold Second in *; lia). revert Hm Hq. generalize (z / Second).
  intros q -> Hq. unfold Second in *. unfold Duration_String. rewrite Z.abs_eq by lia.
  destruct (decide (q = 0)) as [->|Hne]; [reflexivity|].
  rewrite !decide_False by lia. change 1000000000 with (10 ^ Z.of_nat 9) at 1. rewrite fmt_frac_zeros.
  repeat case_decide; rewrite ?ascii_text_app, !ascii_pretty; try done;
    repeat apply Z.div_pos; try lia; by apply Z.mod_pos_bound.
Qed.

(** ** The plain options *)

Lemma setValue_plain (o : Option) i w s :
  CustomSetValue o = None -> parser o i = Ok (Some w) -> setValue o i s = (Ok tt, set_field (key_field o) w s).
Proof. intros Hc Hp. unfold setValue. by rewrite Hc, Hp. Qed.

Lemma parse_uint_back o w z :
  key_kind o = KUint w -> w ≠ W64 -> 0 <= z < 2 ^ bits w -> z < 2 ^ 32 -> parser o (AInt W64 z) = Ok (Some (VNum z)).
Proof.
  intros Hk Hw Hz H32. unfold parser. rewrite Hk.
  assert (parseUint32 o (AInt W64 z) = Ok (Some (VNum z))) as Hp; [|by destruct w].
  unfold parseUint32, parseUint32_string, Sprint. rewrite decide_False by lia. change (FormatInt z) with (FormatUint z).
  rewrite ParseUint_FormatUint by lia. unfold mbind, Res_bind. rewrite decide_False by lia.
  unfold SetUint. rewrite Hk. by rewrite Z.mod_small.
Qed.

Lemma string_elements_back o n l : string_elements o n (EStr <$> l) = Ok l.
Proof. revert n. induction l as [|s l IH]; intros n; [done|]. csimpl. by rewrite IH. Qed.

Lemma restored_plain cfg (o : Option) :
  renderable cfg -> typed cfg -> o ∈ options -> CustomSetValue o = None -> plain_kind (key_kind o) = true ->
  MarshalTOML_hook o cfg = None -> restored cfg o.
Proof.
  intros Hr Ht Ho Hc Hk Hh.
  assert (forall w, fields cfg !! key_field o = Some w -> value_ok (key_kind o) w) as Hok.
  { intros w. apply Ht. unfold field_types. apply list_elem_of_fmap. exists o. split; [|done]. unfold key_field, key_kind. by destruct (ConfigKey o). }
  unfold restored, marshalTOML. rewrite Hh. unfold is_zero, bool_field, num_field, string_field, strings_field.
  destruct (fields cfg !! key_field o) as [w|] eqn:Ew.
  - specialize (Hok w eq_refl). destruct (key_kind o) as [| |w'| | | |] eqn:Ek; try done; destruct w as [b|z|t|l|t]; try done; simpl in Hok.
    + eexists. split; [done|]. split; [left; eexists; constructor|]. intros _. exists (VBool b). split; [done|].
      split; [eexists; constructor|]. intros i s Hi. inversion Hi. subst. apply setValue_plain; [done|].
      unfold parser. rewrite Ek. unfold parseBool, store_bool. by rewrite Ek.
    + assert (w' ≠ W64 /\ z < 2 ^ 32) as [Hw H32].
      { destruct w'; try done; (split; [done|]); destruct Hok as [Hb H32]; simpl in *; auto; lia. }
      eexists. split; [done|]. assert (exists i, read_as (TRaw (FormatUint z)) i) as Hread by (exists (AInt W64 z); constructor; lia).
      split; [by left|]. intros _. exists (VNum z). split; [done|]. split; [done|]. intros i s Hi.
      apply read_as_int in Hi as ->; [|lia]. apply setValue_plain; [done|]. destruct Hok as [Hb _]. by apply (parse_uint_back _ w').
    + eexists. split; [done|]. pose proof (rd_string _ Hr _ _ Ew) as Ha.
      split; [left; eexists; by constructor|]. intros _. exists (VString t). split; [done|].
      split; [eexists; by constructor|]. intros i s Hi. inversion Hi. subst. apply setValue_plain; [done|].
      unfold parser. rewrite Ek. unfold parseString. by rewrite decide_True.
    + eexists. split; [done|]. pose proof (rd_strings _ Hr _ _ Ew) as Ha.
      split; [left; eexists; by constructor|]. intros _. exists (VStrings l). split; [done|].
      split; [eexists; by constructor|]. intros i s Hi. inversion Hi. subst. apply setValue_plain; [done|].
      unfold parser. rewrite Ek. unfold parseStringSlice. rewrite decide_False by (by rewrite Ek; intros []). by rewrite string_elements_back.
    + eexists. split; [done|]. destruct (rd_duration _ Hr o z Ho Ek Ew) as [Hz Hm].
      pose proof (ascii_duration _ Hz Hm) as Ha.
      split; [left; eexists; by constructor|]. intros _. exists (VNum z). split; [done|].
      split; [eexists; by constructor|]. intros i s Hi. inversion Hi. subst. apply setValue_plain; [done|].
      unfold parser. rewrite Ek. unfold parseDuration. rewrite decide_False by (by rewrite Ek; intros []).
      by rewrite whole_seconds by lia.
  - destruct (key_kind o) as [| |w'| | | |] eqn:Ek; try done; (eexists; split; [done|]; split; [|done]);
      left; eexists; try by constructor.
Qed.

(** ** The other options *)

Lemma restored_level cfg (o : Option) :
  renderable cfg -> typed cfg -> o ∈ options -> ConfigKey o = ("LogLevel", KOther "logrus.Level") ->
  CustomSetValue o = Some set_log_level -> restored cfg o.
Proof.
  intros Hr Ht Ho Hk Hc. unfold restored, marshalTOML, MarshalTOML_hook, is_zero, key_field. rewrite Hk. cbn [fst].
  rewrite decide_True by done. pose proof (Level_String_text (num_field "LogLevel" cfg)) as Ha.
  eexists. split; [done|]. split; [left; eexists; by constructor|].
  destruct (fields cfg !! "LogLevel") as [w|] eqn:Ew; [|done]. intros _.
  assert (value_ok (KOther "logrus.Level") w) as Hw.
  { apply (Ht "LogLevel"); [|done]. unfold field_types. apply list_elem_of_fmap. by exists o. }
  destruct w as [|z| | |t]; try done; [|by destruct Hw; left].
  exists (VNum z). split; [done|]. split; [eexists; by constructor|]. intros i s Hi. inversion Hi. subst.
  unfold setValue. rewrite Hc. unfold set_log_level.
  rewrite ParseLevel_String by apply (rd_level _ Hr). unfold num_field. by rewrite Ew.
Qed.

Lemma restored_format cfg (o : Option) :
  typed cfg -> o ∈ options -> ConfigKey o = ("LogFormat", KOther "config.LogFormat") ->
  CustomSetValue o = Some set_log_format -> restored cfg o.
Proof.
  intros Ht Ho Hk Hc. unfold restored, marshalTOML, MarshalTOML_hook, is_zero, key_field. rewrite Hk. cbn [fst].
  rewrite decide_False, decide_True by done.
  assert (fields cfg !! "LogFormat" = None \/ fields cfg !! "LogFormat" = Some (VNum 0) \/
          fields cfg !! "LogFormat" = Some (VNum 1)) as [Ew|[Ew|Ew]].
  { destruct (fields cfg !! "LogFormat") as [w|] eqn:Ew; [right|by left].
    assert (value_ok (KOther "config.LogFormat") w) as Hw.
    { apply (Ht "LogFormat"); [|done]. unfold field_types. apply list_elem_of_fmap. by exists o. }
    destruct w as [|z| | |t]; try done; simpl in Hw.
    - destruct Hw as [|[_ [->| ->]]]; auto. done.
    - exfalso. apply Hw. right. by left. }
  all: unfold num_field; rewrite Ew; (eexists; split; [done|]); (split; [left; eexists; by constructor|]); try done.
  intros _. exists (VNum 1). split; [done|]. split; [eexists; by constructor|]. intros i s Hi. inversion Hi. subst.
  unfold setValue. by rewrite Hc.
Qed.

Lemma restored_path cfg (o : Option) :
  renderable cfg -> typed cfg -> o ∈ options -> ConfigKey o = ("CaptiveCoreStoragePath", KString) ->
  CustomSetValue o = Some set_storage_path -> restored cfg o.
Proof.
  intros Hr Ht Ho Hk Hc. unfold restored, marshalTOML, MarshalTOML_hook, is_zero, key_field, key_kind. rewrite Hk.
  cbn [fst snd]. rewrite !decide_False by done. pose proof (rd_path _ Hr) as Hp. unfold string_field in *.
  destruct (fields cfg !! "CaptiveCoreStoragePath") as [w|] eqn:Ew.
  - assert (value_ok KString w) as Hw.
    { apply (Ht "CaptiveCoreStoragePath"); [|done]. unfold field_types. apply list_elem_of_fmap. by exists o. }
    destruct w as [|z|t| |]; try done. pose proof (rd_string _ Hr _ _ Ew) as Ha.
    eexists. split; [done|]. split; [left; eexists; by constructor|]. intros Hz%bool_decide_eq_false_1.
    exists (VString t). split; [done|]. split; [eexists; by constructor|]. intros i s Hi. inversion Hi. subst.
    unfold setValue. rewrite Hc. unfold set_storage_path. by rewrite decide_False by (by intros [->| ->]).
  - eexists. split; [done|]. by split; [left; eexists; by constructor|].
Qed.

(** An option that is commented out *)
Lemma restored_network cfg (o : Option) :
  renderable cfg -> typed cfg -> o ∈ options -> ConfigKey o = ("Network", KString) -> restored cfg o.
Proof.
  intros Hr Ht Ho Hk. unfold restored, marshalTOML, MarshalTOML_hook, is_zero, key_field, key_kind. rewrite Hk.
  cbn [fst snd]. rewrite !decide_False by done. pose proof (rd_network _ Hr) as Hn. rewrite Hn.
  eexists. split; [done|]. split; [left; eexists; by constructor|]. intros Hz. exfalso. unfold string_field in Hn.
  destruct (fields cfg !! "Network") as [w|] eqn:Ew; [|done].
  assert (value_ok KString w) as Hw.
  { apply (Ht "Network"); [|done]. unfold field_types. apply list_elem_of_fmap. by exists o. }
  destruct w; try done. by subst.
Qed.

Lemma restored_struct cfg (o : Option) type :
  renderable cfg -> typed cfg -> o ∈ options -> key_kind o = KOther type -> type ∉ ["logrus.Level"; "config.LogFormat"] ->
  (exists s c, MarshalTOML_hook o cfg = Some (marshalTOMLTree s c)) -> restored cfg o.
Proof.
  intros Hr Ht Ho Hk Hn (s&c&Hh). unfold restored, marshalTOML. rewrite Hh. unfold marshalTOMLTree.
  destruct (struct_Marshal_loads s) as (b&t&->&->). simpl.
  eexists. split; [done|]. split; [right; by eexists|]. unfold is_zero. intros Hz. exfalso.
  destruct (fields cfg !! key_field o) as [w|] eqn:Ew; [|done].
  assert (value_ok (KOther type) w) as Hw.
  { apply (Ht (key_field o)); [|done]. unfold field_types. apply list_elem_of_fmap. exists o. split; [|done].
    rewrite <- Hk. unfold key_field, key_kind. by destruct (ConfigKey o). }
  destruct w; try done; simpl in *.
  { apply Hn. destruct Hw as [->|[-> _]]; [by left|right; by left]. }
  by rewrite (rd_struct _ Hr _ _ Ew) in Hz.
Qed.

Lemma options_restored cfg : renderable cfg -> typed cfg -> Forall (restored cfg) options.
Proof.
  intros Hr Ht.
  assert (Forall (fun o : Option => o ∈ options -> restored cfg o) options) as H;
    [|rewrite !Forall_forall in *; intros o Ho; by apply H].
  unfold options at 2. repeat (apply Forall_app_2 || apply Forall_cons_2 || apply Forall_nil_2); intros Ho.
  all: lazymatch goal with
       | |- restored _ (opt _ _ _ _ _ _ _ None _) => by apply restored_plain
       | |- restored _ (opt _ _ _ _ _ _ _ (Some set_log_level) _) => by apply restored_level
       | |- restored _ (opt _ _ _ _ _ _ _ (Some set_log_format) _) => by apply restored_format
       | |- restored _ (opt _ _ _ _ _ _ _ (Some set_storage_path) _) => by apply restored_path
       | |- restored _ (opt _ _ _ _ _ _ _ (Some set_network) _) => by apply restored_network
       | |- _ => idtac
       end.
  - eapply restored_struct; [done..|by apply (bool_decide_unpack _)|by eexists _, _].
  - eapply restored_struct; [done..|by apply (bool_decide_unpack _)|by eexists _, _].
  - eapply restored_struct; [done..|by apply (bool_decide_unpack _)|by eexists _, _].
Qed.

(** ** The whole file *)

(** What the loop adds to the tree for an option *)
Definition entry (cfg : Config) (o : Option) : option (string * SetOptions * toml_value) :=
  key ← getTomlKey o;
  match (v ← marshalTOML o cfg; as_Marshaler v) with
  | Ok v => Some (key, set_options nil o cfg, v)
  | _ => None
  end.

Lemma marshal_options_entries cfg opts d :
  Forall (restored cfg) opts -> Forall (fun key => bare_key key = true) (valid_keys opts) ->
  NoDup ((doc_entries d).*1.*1 ++ valid_keys opts) ->
  exists d', marshal_options nil opts cfg d = Ok d' /\ doc_entries d' = doc_entries d ++ omap (entry cfg) opts /\
    (omap (entry cfg) opts).*1.*1 = valid_keys opts.
Proof.
  intros Hr. revert d. induction Hr as [|o opts (v&Hv&_) _ IH]; intros d Hb Hd.
  { exists d. by rewrite app_nil_r. }
  assert (entry cfg o = match getTomlKey o with Some key => Some (key, set_options nil o cfg, v) | None => None end) as Eo.
  { unfold entry. destruct (getTomlKey o); [|done]. simpl. by rewrite Hv. }
  unfold valid_keys in *. csimpl in *. rewrite Eo. destruct (getTomlKey o) as [key|]; [|by apply IH].
  apply Forall_cons in Hb as [Hb1 Hb]. unfold mbind, Res_bind in Hv |- *.
  destruct (marshalTOML o cfg) as [v0| |]; [|done..]. rewrite Hv.
  pose proof Hd as (_&Hnew&_)%NoDup_app. rewrite cons_middle, app_assoc in Hd.
  destruct (IH (SetWithOptions d key (set_options nil o cfg) v)) as (d'&E&He&Hk); [done| |].
  { rewrite SetWithOptions_new; [by rewrite !fmap_app|done|]. intros Hin. apply (Hnew key Hin). by left. }
  rewrite SetWithOptions_new in He by (done || intros Hin; apply (Hnew key Hin); by left).
  exists d'. split; [done|]. split; [by rewrite He, <- app_assoc|]. csimpl. by rewrite Hk.
Qed.

Lemma tree_Get_elem tree key i : NoDup tree.*1 -> (key, i) ∈ tree -> tree_Get tree key = Some i.
Proof.
  induction tree as [|[k v] tree IH]; csimpl; [by intros _ ?%elem_of_nil|]. intros [Hk Hd]%NoDup_cons [E|Hin]%elem_of_cons.
  - simplify_eq. by rewrite decide_True.
  - rewrite decide_False; [by apply IH|]. intros ->. apply Hk, list_elem_of_fmap. by exists (key, i).
Qed.

Lemma tree_Get_none tree key : (forall i, (key, i) ∉ tree) -> tree_Get tree key = None.
Proof.
  induction tree as [|[k v] tree IH]; [done|]. intros H. simpl. rewrite decide_False.
  - apply IH. intros i Hin. apply (H i). by right.
  - intros ->. apply (H v). by left.
Qed.

(** An option the rendered file sets *)
Definition in_file (o : OptionInfo) (cfg : Config) : bool :=
  match getTomlKey o with Some _ => negb (is_zero nil o cfg) | None => false end.

(** A tree that has exactly the values of the options that are not zero *)
Definition tree_of (cfg : Config) (o : Option) (tree : list (string * any)) : Prop :=
  forall key, getTomlKey o = Some key ->
    if is_zero nil o cfg then tree_Get tree key = None
    else exists v i, (v ← marshalTOML o cfg; as_Marshaler v) = Ok v /\ read_as v i /\ tree_Get tree key = Some i.

Lemma load_tree_restores cfg tree opts s :
  Forall (restored cfg) opts -> Forall (fun o => tree_of cfg o tree) opts ->
  NoDup ((fun o : Option => key_field o) <$> opts) ->
  exists s', load_tree tree opts s = (Ok tt, s') /\ temp_files s' = temp_files s /\
    (forall o : Option, o ∈ opts -> fields s' !! key_field o = fields (if in_file o cfg then cfg else s) !! key_field o) /\
    (forall f, f ∉ ((fun o : Option => key_field o) <$> opts) -> fields s' !! f = fields s !! f).
Proof.
  unfold load_tree. intros Hr Ht Hd. revert s. induction opts as [|o opts IH]; intros s.
  { exists s. split_and!; [done|done|by intros o ?%elem_of_nil|done]. }
  apply Forall_cons in Hr as [(v&Hv&_&Hr1) Hr], Ht as [Ht1 Ht]. csimpl in Hd. apply NoDup_cons in Hd as [Hnew Hd].
  assert (exists s1, (match getTomlKey o with
                      | None => mret tt
                      | Some key => match tree_Get tree key with None | Some ANil => mret tt | Some v => setValue o v end
                      end) s = (Ok tt, s1) /\ temp_files s1 = temp_files s /\
            fields s1 !! key_field o = fields (if in_file o cfg then cfg else s) !! key_field o /\
            forall f, f ≠ key_field o -> fields s1 !! f = fields s !! f) as (s1&E1&T1&F1&O1).
  { unfold in_file. unfold tree_of in Ht1. destruct (getTomlKey o) as [key|]; [|by exists s]. specialize (Ht1 key eq_refl).
    destruct (is_zero nil o cfg); simpl.
    - rewrite Ht1. by exists s.
    - destruct Ht1 as (v'&i&Hv'&Hi&->). rewrite Hv in Hv'. injection Hv' as <-.
      destruct (Hr1 eq_refl) as (w&Hw&_&Hset). exists (set_field (key_field o) w s).
      split; [rewrite <- (Hset i s Hi); by destruct Hi|]. split; [done|]. split; simpl; [by rewrite lookup_insert_eq|].
      intros f Hf. by rewrite lookup_insert_ne. }
  destruct (IH Hr Ht Hd s1) as (s2&E2&T2&F2&O2). exists s2.
  split; [simpl; unfold mbind, M_bind; by rewrite E1|]. split; [congruence|]. split.
  - intros o' [->|Ho']%elem_of_cons; [by rewrite O2|]. rewrite F2 by done. destruct (in_file o' cfg); [done|].
    apply O1. intros E. apply Hnew, list_elem_of_fmap. by exists o'.
  - intros f Hf. csimpl in Hf. apply not_elem_of_cons in Hf as [Hf1 Hf2]. rewrite O2 by done. by apply O1.
Qed.

(** What the table has to be for the library: keys it can write, all different,
    and comments that are text. *)
Record table_renders : Prop := {
  tb_keys : NoDup (valid_keys options);
  tb_bare : Forall (fun key => bare_key key = true) (valid_keys options);
  tb_comments : Forall (fun o : Option => comment_text (comment o) = true) options;
}.

Lemma restored_same cfg (o o' : Option) : same_option o o' -> restored cfg o -> restored cfg o'.
Proof. intros Hs. unfold restored, setValue. by rewrite (same_info _ _ Hs), (same_custom _ _ Hs). Qed.

Lemma same_valid_keys opts opts' : Forall2 same_option opts opts' -> valid_keys opts' = valid_keys opts.
Proof. unfold valid_keys. induction 1 as [|o o' l l' Hs _ IH]; [done|]. csimpl. by rewrite IH, (same_info _ _ Hs). Qed.

(** A key belongs to one option. *)
Lemma valid_keys_inj opts key (o o' : Option) :
  NoDup (valid_keys opts) -> o ∈ opts -> o' ∈ opts -> getTomlKey o = Some key -> getTomlKey o' = Some key -> o = o'.
Proof.
  unfold valid_keys. induction opts as [|op opts IH]; [by intros _ ?%elem_of_nil|]. csimpl. intros Hd Ho Ho' Hk Hk'.
  assert (forall o1 : Option, o1 ∈ opts -> getTomlKey o1 = Some key -> getTomlKey op = Some key -> False) as Hop.
  { intros o1 Ho1 H1 H2. rewrite H2 in Hd. apply NoDup_cons in Hd as [Hd _]. apply Hd, list_elem_of_omap. by exists o1. }
  assert (NoDup (omap (fun o : Option => getTomlKey o) opts)) as Hd'.
  { destruct (getTomlKey op); [by apply NoDup_cons in Hd as [_ Hd]|done]. }
  apply elem_of_cons in Ho as [->|Ho], Ho' as [->|Ho']; [done| | |by apply IH]; exfalso; by eapply Hop.
Qed.

(** The entries of the tree *)
Definition writes_entry (opts : list Option) (cfg : Config) (key : string) (so : SetOptions) (v : toml_value) : Prop :=
  exists o : Option, o ∈ opts /\ getTomlKey o = Some key /\ so = set_options nil o cfg /\
    (v ← marshalTOML o cfg; as_Marshaler v) = Ok v.

Lemma elem_entry opts cfg key so v : (key, so, v) ∈ omap (entry cfg) opts <-> writes_entry opts cfg key so v.
Proof.
  unfold writes_entry. rewrite list_elem_of_omap. unfold entry. split.
  - intros (o&Ho&E'). exists o. split; [done|]. destruct (getTomlKey o); [|done]. simpl in E'.
    destruct (mbind _ _) as [v'| |] eqn:Ev; simplify_eq; done.
  - intros (o&Ho&Ek&->&Ev). exists o. split; [done|]. rewrite Ek. simpl. by rewrite Ev.
Qed.

(** The file that is written for a configuration, and what is read of it *)
Lemma MarshalTOML_writes opts cfg :
  Forall2 same_option options opts -> typed cfg -> renderable cfg -> table_renders ->
  Forall (restored cfg) opts /\
  exists out tree, MarshalTOML nil opts cfg = Ok out /\ LoadReader out = Ok tree /\
    Forall (fun o => tree_of cfg o tree) opts /\ unexpected_keys tree opts = [].
Proof.
  intros Hadd Ht Hr Htab. pose proof (same_valid_keys _ _ Hadd) as Hvk.
  assert (Forall (restored cfg) opts) as Hres.
  { apply Forall_forall. intros o Ho. destruct (Forall2_same_elem _ _ o Hadd Ho) as (o0&Ho0&Hs).
    apply (restored_same _ _ _ Hs). pose proof (options_restored _ Hr Ht) as H. rewrite Forall_forall in H. by apply H. }
  split; [done|]. destruct TreeFromMap_empty as (d0&E0&D0).
  destruct (marshal_options_entries cfg opts d0 Hres) as (d&E&De&Dk); [rewrite Hvk; apply tb_bare, Htab|rewrite D0, Hvk; apply tb_keys, Htab|].
  rewrite D0 in De. simpl in De.
  assert (forall key o v, (key, o, v) ∈ doc_entries d <-> writes_entry opts cfg key o v) as Hin
    by (intros; rewrite De; apply elem_entry).
  destruct (Doc_Marshal_reads d) as (out&tree&Em&El&Hd&Htree).
  { apply Forall_forall. intros [[key o] v] (op&Hop&Ek&->&Ev)%Hin. simpl.
    rewrite Forall_forall in Hres. destruct (Hres _ Hop) as (v'&Hv'&Hw&Hread). rewrite Ev in Hv'. injection Hv' as <-.
    destruct (Forall2_same_elem _ _ op Hadd Hop) as (o0&Ho0&Hs). split_and!.
    - pose proof (tb_bare Htab) as H. rewrite Forall_forall in H. apply H. rewrite <- Hvk. apply list_elem_of_omap. by exists op.
    - pose proof (tb_comments Htab) as H. rewrite Forall_forall in H. rewrite (same_info _ _ Hs). by apply H.
    - done.
    - intros Hz. by destruct (Hread Hz) as (w&_&?&_). }
  { rewrite De, Dk, Hvk. apply tb_keys, Htab. }
  exists out, tree. split; [unfold MarshalTOML; rewrite E0; simpl; rewrite E; exact Em|]. split; [done|]. split.
  - apply Forall_forall. intros op Hop key Ek. rewrite Forall_forall in Hres. destruct (Hres _ Hop) as (v&Hv&_&Hread).
    destruct (is_zero nil op cfg) eqn:Ez.
    + apply tree_Get_none. intros i (o&v'&(op'&Hop'&Ek'&->&_)%Hin&Hc&_)%Htree. simpl in Hc.
      assert (op' = op) as ->; [|congruence].
      apply (valid_keys_inj opts key); [rewrite Hvk; apply tb_keys, Htab|done..].
    + destruct (Hread eq_refl) as (w&_&[i Hi]&_). exists v, i. split; [done|]. split; [done|]. apply tree_Get_elem; [done|].
      apply Htree. exists (set_options nil op cfg), v. split; [|done]. apply Hin. by exists op.
  - unfold unexpected_keys. apply filter_none. intros key ([k i]&->&Hki)%list_elem_of_fmap Hno. simpl in Hno.
    apply Hno. apply Htree in Hki as (o&v&(op&Hop&Ek&_)%Hin&_). apply list_elem_of_omap. by exists op.
Qed.

(** C33: The file rendered for a configuration with printable ASCII texts, whole
    seconds as durations, a known log level, no network named, a storage path
    other than the working directory's "." and no structure set loads without
    error, in strict mode too, over any configuration: every option the file
    sets then has the value it had in the rendered one.  The options at the zero
    value of their type are commented out, and keep the value of the
    configuration the file is loaded over; so does every field that is not an
    option's.  (A structure that is set is rendered as the default one, and a
    named network also writes the options it implies: they are excluded.) *)
Theorem MarshalTOML_roundtrip opts cfg cfg0 strict :
  Forall2 same_option options opts -> typed cfg -> renderable cfg -> table_renders ->
  exists out cfg1, MarshalTOML nil opts cfg = Ok out /\ parseToml out strict opts cfg0 = (Ok tt, cfg1) /\
    temp_files cfg1 = temp_files cfg0 /\
    (forall o : Option, o ∈ opts -> fields cfg1 !! key_field o = fields (if in_file o cfg then cfg else cfg0) !! key_field o) /\
    (forall f, f ∉ ((fun o : Option => key_field o) <$> options) -> fields cfg1 !! f = fields cfg0 !! f).
Proof.
  intros Hadd Ht Hr Htab. destruct (MarshalTOML_writes opts cfg) as (Hres&out&tree&Em&El&Htree&Hu); [done..|].
  destruct (load_tree_restores cfg tree opts cfg0) as (cfg1&E1&T1&F1&O1); [done|done| |].
  { rewrite (same_options_fields _ _ Hadd). apply options_fields_NoDup. }
  exists out, cfg1. split; [done|]. split; [|split_and!; [done|done|by rewrite <- (same_options_fields _ _ Hadd)]].
  unfold parseToml, mbind, M_bind, of_res, gets. rewrite El, E1, Hu. by destruct (_ || _).
Qed.
End roundtrip.

(** ** A concrete instance: a writer whose text is the number of the tree *)

#[local] Existing Instance ex_toml_types.
#[local] Existing Instance ex_os.

Definition levels : list string := ["panic"; "fatal"; "error"; "warning"; "info"; "debug"; "trace"].

Definition code : Type := bool + string + list string + Z.
Definition decoded (c : code) : any :=
  match c with inl (inl (inl b)) => ABool b | inl (inl (inr s)) => AString s
             | inl (inr l) => AAnys (EStr <$> l) | inr z => AInt W64 z end.
Definition coded (v : toml_value) : option code :=
  match v with
  | TAny (ABool b) => Some (inl (inl (inl b)))
  | TAny (AString s) => Some (inl (inl (inr s)))
  | TAny (AStrings l) => Some (inl (inr l))
  | TRaw s => match ParseUint s 63 with Ok z => Some (inr z) | _ => None end
  | _ => None
  end.

Definition as_text (l : list (string * code)) : string := pretty (Zpos (encode l)).
Definition of_text (s : string) : option (list (string * code)) :=
  match parse_digits s 0 with Some (Npos p) => decode p | _ => None end.

Lemma of_as_text l : of_text (as_text l) = Some l.
Proof. unfold of_text, as_text. rewrite parse_digits_pretty by lia. simpl. apply decode_encode. Qed.

#[local] Instance ex_toml_sdk : ConfigSdk := {
  KebabToConstantCase := ex_constant_case;
  LoadReader c := match of_text c with Some l => Ok ((fun e => (e.1, decoded e.2)) <$> l) | None => Err (EExt "toml: bad") end;
  Tree_String _ := "";
  toml_Marshal _ := Ok "";
  toml_Unmarshal _ := mret tt;
  zero_struct _ := tt;
  ParseLevel s := match list_find (fun l => l = s) levels with Some (i, _) => Ok (Z.of_nat i) | None => Err (EExt "not a valid logrus Level") end;
  Level_String l := default "unknown" (levels !! Z.to_nat l);
  InfoLevel := 4;
  TestnetParams := MkNetworkConfig "TESTNET CORE" ["https://testnet"] "Test SDF Network";
  PubnetParams := MkNetworkConfig "PUBNET CORE" ["https://pubnet"] "Public Network";
  FuturenetParams := MkNetworkConfig "FUTURENET CORE" ["https://futurenet"] "Future Network";
}.

Definition uncommented (e : string * SetOptions * toml_value) : option (string * code) :=
  if Commented e.1.2 then None else c ← coded e.2; Some (e.1.1, c).

#[local] Instance ex_writer : TomlWriter := {
  TomlDoc := list (string * SetOptions * toml_value);
  TreeFromMap _ := Ok [];
  SetWithOptions d key opts v := d ++ [(key, opts, v)];
  Doc_Marshal d := Ok (as_text (omap uncommented d));
  struct_Marshal _ := Ok "";
  LoadBytes _ := Ok tt;
  struct_IsZero _ := true;
  BufferedStorageBackendConfig_lit _ _ _ _ := tt;
  DataStoreConfig_lit _ _ _ _ := tt;
  IngestLoadTestConfig_lit _ := tt;
}.

Lemma coded_reads v i : read_as v i -> exists c, coded v = Some c /\ decoded c = i.
Proof.
  destruct 1 as [b|s|l|z Hz]; simpl; try by eexists.
  change (FormatInt z) with (FormatUint z). rewrite ParseUint_FormatUint by lia. by eexists.
Qed.

Lemma coded_writable v c : writable v -> coded v = Some c -> read_as v (decoded c).
Proof.
  intros [[i Hi]|[t ->]] Hc; [|done]. destruct (coded_reads v i Hi) as (c'&Hc'&<-). by simplify_eq.
Qed.

Lemma uncommented_keys d : (omap uncommented d).*1 `sublist_of` d.*1.*1.
Proof.
  induction d as [|[[k so] v] d IH]; [constructor|]. csimpl. unfold uncommented. simpl.
  destruct (Commented so); [by constructor|]. destruct (coded v); simpl; by constructor.
Qed.

#[local] Instance ex_writer_laws : TomlWriterLaws.
Proof.
  refine {| doc_entries := fun d : TomlDoc => d |}.
  - by exists [].
  - done.
  - intros d Hd Hk. eexists (as_text (omap uncommented d)), ((fun e => (e.1, decoded e.2)) <$> omap uncommented d).
    split; [done|]. split; [simpl; by rewrite of_as_text|]. split.
    { rewrite <- list_fmap_compose. change (NoDup (omap uncommented d).*1).
      by eapply sublist_NoDup; [|apply uncommented_keys]. }
    intros key i. rewrite list_elem_of_fmap. setoid_rewrite list_elem_of_omap. rewrite Forall_forall in Hd. split.
    + intros ([k c]&[= -> ->]&[[k' so] v]&Hin&Hu). unfold uncommented in Hu. simpl in Hu.
      destruct (Commented so) eqn:Ec; [done|]. destruct (coded v) as [c'|] eqn:Ev; [|done]. simpl in Hu. simplify_eq.
      exists so, v. split_and!; [done|done|]. apply coded_writable; [|done]. by destruct (Hd _ Hin) as (_&_&Hw&_).
    + intros (so&v&Hin&Hc&Hr). destruct (coded_reads v i Hr) as (c&Hcv&<-).
      exists (key, c). split; [done|]. exists (key, so, v). split; [done|]. unfold uncommented. simpl. by rewrite Hc, Hcv.
  - intros s. by exists "", tt.
  - intros l. simpl. destruct (levels !! Z.to_nat l) as [s|] eqn:E; [|done]. simpl.
    assert (Forall (fun s => ascii_text s = true) levels) as H by by repeat constructor.
    rewrite Forall_forall in H. by apply H, (list_elem_of_lookup_2 _ (Z.to_nat l)).
  - intros l Hl.
    assert (l = 0 \/ l = 1 \/ l = 2 \/ l = 3 \/ l = 4 \/ l = 5 \/ l = 6) as Hc by lia.
    by repeat destruct Hc as [->|Hc]; [..|subst].
Defined.

Definition ex_rendered : Config := MkConfig
  (<["Endpoint" := VString "0.0.0.0:9000"]> (<["MaxEventsLimit" := VNum 300]>
   (<["HistoryArchiveURLs" := VStrings ["https://a"; "https://b"]]> (<["LogLevel" := VNum 5]>
   (<["LogFormat" := VNum LogFormatJSON]> (<["MaxHealthyLedgerLatency" := VNum (90 * Second)]>
   (<["CaptiveCoreStoragePath" := VString "/srv"]> (<["PreflightEnableDebug" := VBool false]> ∅)))))))) [].

(** What the file is loaded over: a default the rendered configuration cleared *)
Definition ex_over : Config := MkConfig
  (<["PreflightEnableDebug" := VBool true]> (<["Endpoint" := VString defaultHTTPEndpoint]> ∅)) [].

Lemma ex_fields f v : fields ex_rendered !! f = Some v ->
  (f, v) ∈ [("Endpoint", VString "0.0.0.0:9000"); ("MaxEventsLimit", VNum 300);
    ("HistoryArchiveURLs", VStrings ["https://a"; "https://b"]); ("LogLevel", VNum 5); ("LogFormat", VNum LogFormatJSON);
    ("MaxHealthyLedgerLatency", VNum (90 * Second)); ("CaptiveCoreStoragePath", VString "/srv");
    ("PreflightEnableDebug", VBool false)].
Proof.
  simpl. rewrite !lookup_insert. repeat case_decide; subst; try (intros [= <-]; repeat (by left) || right; fail).
  all: rewrite ?lookup_empty; try done.
  all: intros [= <-]; repeat (first [by left|right]).
Qed.

(** A property of the fields of the example, one by one *)
Lemma ex_each (P : string -> value -> Prop) :
  P "Endpoint" (VString "0.0.0.0:9000") -> P "MaxEventsLimit" (VNum 300) ->
  P "HistoryArchiveURLs" (VStrings ["https://a"; "https://b"]) -> P "LogLevel" (VNum 5) ->
  P "LogFormat" (VNum LogFormatJSON) -> P "MaxHealthyLedgerLatency" (VNum (90 * Second)) ->
  P "CaptiveCoreStoragePath" (VString "/srv") -> P "PreflightEnableDebug" (VBool false) ->
  forall f v, fields ex_rendered !! f = Some v -> P f v.
Proof.
  intros ???????? f v Hf%ex_fields.
  repeat (apply elem_of_cons in Hf as [Hf|Hf]; [by injection Hf as -> ->|]). by apply elem_of_nil in Hf.
Qed.

Lemma ex_typed_rendered : typed ex_rendered.
Proof.
  assert (forall f v, fields ex_rendered !! f = Some v -> exists k, has_type f k /\ value_ok k v) as H.
  { apply ex_each.
    - exists KString. split; [apply (bool_decide_unpack _); vm_compute; exact I|done].
    - exists (KUint Word). split; [apply (bool_decide_unpack _); vm_compute; exact I|done].
    - exists KStrings. split; [apply (bool_decide_unpack _); vm_compute; exact I|done].
    - exists (KOther "logrus.Level"). split; [apply (bool_decide_unpack _); vm_compute; exact I|by left].
    - exists (KOther "config.LogFormat"). split; [apply (bool_decide_unpack _); vm_compute; exact I|right; auto].
    - exists KDuration. split; [apply (bool_decide_unpack _); vm_compute; exact I|done].
    - exists KString. split; [apply (bool_decide_unpack _); vm_compute; exact I|done].
    - exists KBool. split; [apply (bool_decide_unpack _); vm_compute; exact I|done]. }
  intros f k v Hk Hf. destruct (H f v Hf) as (k'&Ht&Hv). unfold has_type in Ht. rewrite Forall_forall in Ht.
  pose proof (Ht _ Hk eq_refl) as E. simpl in E. by subst.
Qed.

Lemma ex_renderable : renderable ex_rendered.
Proof.
  split.
  - intros f s Hf. revert f s Hf.
    assert (forall f v, fields ex_rendered !! f = Some v -> forall s, v = VString s -> ascii_text s = true) as H
      by (apply (ex_each (fun _ v => forall s, v = VString s -> ascii_text s = true)); intros s; try done; by intros [= <-]).
    intros f s Hf. by eapply H.
  - assert (forall f v, fields ex_rendered !! f = Some v -> forall l, v = VStrings l -> Forall (fun s => ascii_text s = true) l) as H
      by (apply (ex_each (fun _ v => forall l, v = VStrings l -> Forall (fun s => ascii_text s = true) l));
          intros s; try done; intros [= <-]; by repeat constructor).
    intros f l Hf. by eapply H.
  - assert (forall f v, fields ex_rendered !! f = Some v -> forall z, v = VNum z ->
      f = "MaxHealthyLedgerLatency" /\ z = 90 * Second \/ Forall (fun p => p.1 = f -> p.2 ≠ KDuration) field_types) as H.
    { apply (ex_each (fun f v => forall z, v = VNum z ->
        f = "MaxHealthyLedgerLatency" /\ z = 90 * Second \/ Forall (fun p => p.1 = f -> p.2 ≠ KDuration) field_types)); intros z; try done; intros [= <-]; try (by left); right; apply (bool_decide_unpack _); vm_compute; exact I. }
    intros o z Ho Hk Hf. destruct (H _ _ Hf z eq_refl) as [[_ ->]|Hn]; [done|]. exfalso. rewrite Forall_forall in Hn.
    apply (Hn (ConfigKey o)); [|done|done]. unfold field_types. apply list_elem_of_fmap. by exists o.
  - vm_compute. by split.
  - vm_compute. done.
  - vm_compute. done.
  - intros f s _. done.
Qed.

Lemma Forall2_same_refl opts : Forall2 same_option opts opts.
Proof. induction opts; constructor; [split; auto|done]. Qed.

Lemma ex_table : table_renders.
Proof.
  split.
  - apply (bool_decide_unpack _). vm_compute. exact I.
  - apply (bool_decide_unpack _). vm_compute. exact I.
  - apply (bool_decide_unpack _). vm_compute. exact I.
Qed.

(** The option of a field *)
Definition ex_find (f : string) : Option :=
  default (opt "" "" "" "" "" KBool ANil None None) (head (filter (fun o : Option => key_field o = f) options)).

Lemma ex_find_in f : f ∈ ((fun o : Option => key_field o) <$> options) -> ex_find f ∈ options /\ key_field (ex_find f) = f.
Proof.
  intros (o&->&Ho)%list_elem_of_fmap. unfold ex_find.
  destruct (filter _ options) as [|o' l] eqn:E.
  - exfalso. apply (not_elem_of_nil o). rewrite <- E. by apply list_elem_of_filter.
  - simpl. assert (o' ∈ filter (fun o1 : Option => key_field o1 = key_field o) options) as H by (rewrite E; by left).
    by apply list_elem_of_filter in H as [? ?].
Qed.

Lemma MarshalTOML_roundtrip_witness :
  exists out cfg1, MarshalTOML (fun _ => true) options ex_rendered = Ok out /\
    parseToml out true options ex_over = (Ok tt, cfg1) /\
    fields cfg1 !! "Endpoint" = Some (VString "0.0.0.0:9000") /\
    fields cfg1 !! "MaxHealthyLedgerLatency" = Some (VNum (90 * Second)) /\
    fields cfg1 !! "PreflightEnableDebug" = Some (VBool true).
Proof.
  destruct (MarshalTOML_roundtrip (fun _ => true) options ex_rendered ex_over true) as (out&cfg1&H1&H2&_&H3&_).
  - apply Forall2_same_refl.
  - exact ex_typed_rendered.
  - exact ex_renderable.
  - exact ex_table.
  - exists out, cfg1. split; [exact H1|]. split; [exact H2|].
    assert (forall f b, f ∈ ((fun o : Option => key_field o) <$> options) -> in_file (fun _ => true) (ex_find f) ex_rendered = b ->
      fields cfg1 !! f = fields (if b then ex_rendered else ex_over) !! f) as H.
    { intros f b Hf <-. destruct (ex_find_in f Hf) as [Hin Hk]. pose proof (H3 _ Hin) as H. rewrite Hk in H. exact H. }
    split_and!.
    + apply (H "Endpoint" true); [apply (bool_decide_unpack _); vm_compute; exact I|vm_compute; reflexivity].
    + apply (H "MaxHealthyLedgerLatency" true); [apply (bool_decide_unpack _); vm_compute; exact I|vm_compute; reflexivity].
    + apply (H "PreflightEnableDebug" false); [apply (bool_decide_unpack _); vm_compute; exact I|vm_compute; reflexivity].
Defined.
