(* ===== verification/JsonRpc.v ===== *)
(** * The JSON-RPC handler of the server: jsonrpc.go

    [NewJSONRPCHandler] builds, from the configuration, one handler per method
    behind a queue limiter and a duration limiter, and puts all of them behind
    the limiters of the HTTP server.  A method's own handler is represented by its
    constructor and the part of the configuration it is given (the handlers are
    the Method files of this library); the limiters are those of Network.v. *)

From S2P Require Import Prelude GoStd GoText Config ConfigOptions ConfigLoad Network.

(** The method names are constants of the SDK's protocol package. *)
Class MethodNames := {
  GetHealthMethodName : string;
  GetEventsMethodName : string;
  GetNetworkMethodName : string;
  GetVersionInfoMethodName : string;
  GetLatestLedgerMethodName : string;
  GetLedgersMethodName : string;
  GetLedgerEntriesMethodName : string;
  GetTransactionMethodName : string;
  GetTransactionsMethodName : string;
  SendTransactionMethodName : string;
  SimulateTransactionMethodName : string;
  GetFeeStatsMethodName : string;
}.

Definition method_names `{MethodNames} : list string :=
  [GetHealthMethodName; GetEventsMethodName; GetNetworkMethodName; GetVersionInfoMethodName;
   GetLatestLedgerMethodName; GetLedgersMethodName; GetLedgerEntriesMethodName; GetTransactionMethodName;
   GetTransactionsMethodName; SendTransactionMethodName; SimulateTransactionMethodName; GetFeeStatsMethodName].

(** ** Metrics *)

Definition is_upper (c : Ascii.ascii) : bool :=
  let n := Ascii.nat_of_ascii c in bool_decide (65 <= n /\ n <= 90)%nat.

(** The loop of [toSnakeCase], which writes an underscore before a capital *)
Fixpoint snake_loop (s : string) : string :=
  match s with
  | EmptyString => ""
  | String c s => if is_upper c then String (char 95) (String c (snake_loop s)) else String c (snake_loop s)
  end.

(** [toSnakeCase] on ASCII text *)
Definition toSnakeCase (s : string) : string := ToLower (snake_loop s).

(** [prometheusLabelReplacer]: spaces and dashes become underscores, parentheses
    are dropped. *)
Fixpoint label_replace (s : string) : string :=
  match s with
  | EmptyString => ""
  | String c s =>
      if decide (c = char 32 \/ c = char 45) then String (char 95) (label_replace s)
      else if decide (c = char 40 \/ c = char 41) then label_replace s
      else String c (label_replace s)
  end.

(** [errors.As(err, &jsonRPCErr)]: the code of the first [jrpc2.Error] of the chain *)
Fixpoint jrpc_code_of (e : error) : option jrpc_code :=
  match e with
  | EJrpc c _ => Some c
  | EWrap _ e => jrpc_code_of e
  | EJoin e1 e2 => match jrpc_code_of e1 with Some c => Some c | None => jrpc_code_of e2 end
  | _ => None
  end.

Section decorate.
Context {D : Type}.

(** The text of a code is jrpc2's; [simulation_error] is the [Error] field of a
    result that is a [SimulateTransactionResponse]. *)
Variable Code_String : jrpc_code -> string.
Variable simulation_error : D -> option string.

(** The [status] label of a request *)
Definition request_status (result : D + error) : string :=
  let simulation := match result with inl d => simulation_error d | inr _ => None end in
  match simulation with
  | Some e => if decide (e ≠ "") then "error" else "ok"
  | None =>
      match result with
      | inr err => match jrpc_code_of err with Some c => label_replace (Code_String c) | None => "ok" end
      | inl _ => "ok"
      end
  end.

(** One decorated call: the result of the handler, and the observation it adds
    to the metric (the endpoint, the status and the duration). *)
Definition decorated (method : string) (duration : Z) (result : D + error)
    (observations : list (string * string * Z)) : (D + error) * list (string * string * Z) :=
  (result, observations ++ [(method, request_status result, duration)]).
End decorate.

(** ** The handlers and their limiters *)

Definition maxHTTPRequestSize : Z := 512 * 1024.
Definition warningThresholdDenominator : Z := 3.
Definition ledgerKeyDecodeMaxMemory : Z := 16 * 1024.
Definition transactionDecodeMaxMemory : Z := 1024 * 1024.

(** The underlying handlers, with what the configuration gives them. *)
Inductive underlying :=
  | NewHealthCheck (retentionWindow maxHealthyLedgerLatency : Z)
  | NewGetEventsHandler (maxLimit defaultLimit : Z)
  | NewGetNetworkHandler (networkPassphrase friendbotURL : string)
  | NewGetVersionInfoHandler
  | NewGetLatestLedgerHandler
  | NewGetLedgersHandler (maxLimit defaultLimit : Z)
  | NewGetLedgerEntriesHandler (maxMemoryBytes : Z)
  | NewGetTransactionHandler
  | NewGetTransactionsHandler (maxLimit defaultLimit : Z) (networkPassphrase : string)
  | NewSendTransactionHandler (networkPassphrase : string) (maxMemoryBytes : Z)
  | NewSimulateTransactionHandler (maxMemoryBytes : Z)
  | NewGetFeeStatsHandler.

(** A row of the table of handlers *)
Record method_row := MkMethodRow {
  methodName : string;
  underlyingHandler : underlying;
  longName : string;
  queueLimit : Z;
  requestDurationLimit : Z;
}.

(** A method as it is registered: its handler behind its two limiters, and the
    names of its metrics. *)
Record endpoint := MkEndpoint {
  e_handler : underlying;
  e_queueLimiter : backlogQLimiter;
  e_durationLimiter : requestDurationLimiter;
  e_gaugeName : string;
  e_warnCounterName : string;
  e_limitCounterName : string;
}.

(** The server: the methods, and what every HTTP request goes through first, the
    size limit, the global duration limiter and the global queue limiter. *)
Record Handler := MkHandler {
  h_methods : gmap string endpoint;
  h_maxBytes : Z;
  h_durationLimiter : requestDurationLimiter;
  h_queueLimiter : backlogQLimiter;
}.

Section handlers.
Context `{TT : TomlTypes} `{MN : MethodNames}.

Definition row (name : string) (h : underlying) (queue duration : string) (cfg : Config) : method_row :=
  MkMethodRow name h (toSnakeCase name) (num_field queue cfg) (num_field duration cfg).

(** The table of handlers *)
Definition method_rows (cfg : Config) : list method_row :=
  let retentionWindow := num_field "HistoryRetentionWindow" cfg in
  let passphrase := string_field "NetworkPassphrase" cfg in
  [ row GetHealthMethodName (NewHealthCheck retentionWindow (num_field "MaxHealthyLedgerLatency" cfg))
      "RequestBacklogGetHealthQueueLimit" "MaxGetHealthExecutionDuration" cfg;
    row GetEventsMethodName (NewGetEventsHandler (num_field "MaxEventsLimit" cfg) (num_field "DefaultEventsLimit" cfg))
      "RequestBacklogGetEventsQueueLimit" "MaxGetEventsExecutionDuration" cfg;
    row GetNetworkMethodName (NewGetNetworkHandler passphrase (string_field "FriendbotURL" cfg))
      "RequestBacklogGetNetworkQueueLimit" "MaxGetNetworkExecutionDuration" cfg;
    row GetVersionInfoMethodName NewGetVersionInfoHandler
      "RequestBacklogGetVersionInfoQueueLimit" "MaxGetVersionInfoExecutionDuration" cfg;
    row GetLatestLedgerMethodName NewGetLatestLedgerHandler
      "RequestBacklogGetLatestLedgerQueueLimit" "MaxGetLatestLedgerExecutionDuration" cfg;
    row GetLedgersMethodName (NewGetLedgersHandler (num_field "MaxLedgersLimit" cfg) (num_field "DefaultLedgersLimit" cfg))
      "RequestBacklogGetLedgersQueueLimit" "MaxGetLedgersExecutionDuration" cfg;
    row GetLedgerEntriesMethodName (NewGetLedgerEntriesHandler ledgerKeyDecodeMaxMemory)
      "RequestBacklogGetLedgerEntriesQueueLimit" "MaxGetLedgerEntriesExecutionDuration" cfg;
    row GetTransactionMethodName NewGetTransactionHandler
      "RequestBacklogGetTransactionQueueLimit" "MaxGetTransactionExecutionDuration" cfg;
    row GetTransactionsMethodName
      (NewGetTransactionsHandler (num_field "MaxTransactionsLimit" cfg) (num_field "DefaultTransactionsLimit" cfg) passphrase)
      "RequestBacklogGetTransactionsQueueLimit" "MaxGetTransactionsExecutionDuration" cfg;
    row SendTransactionMethodName (NewSendTransactionHandler passphrase transactionDecodeMaxMemory)
      "RequestBacklogSendTransactionQueueLimit" "MaxSendTransactionExecutionDuration" cfg;
    row SimulateTransactionMethodName (NewSimulateTransactionHandler transactionDecodeMaxMemory)
      "RequestBacklogSimulateTransactionQueueLimit" "MaxSimulateTransactionExecutionDuration" cfg;
    row GetFeeStatsMethodName NewGetFeeStatsHandler
      "RequestBacklogGetFeeStatsTransactionQueueLimit" "MaxGetFeeStatsExecutionDuration" cfg ].

(** The body of the loop over the table; [time.Duration] divides towards zero. *)
Definition make_endpoint (r : method_row) : endpoint :=
  MkEndpoint (underlyingHandler r)
    (MakeBacklogQueueLimiter (Some 0) (queueLimit r))
    (MakeRequestDurationLimiter (Z.quot (requestDurationLimit r) warningThresholdDenominator) (requestDurationLimit r)
       (Some 0) (Some 0))
    (longName r +:+ "_inflight_requests")
    (longName r +:+ "_execution_threshold_warning")
    (longName r +:+ "_execution_threshold_limit").

Definition handlersMap (rows : list method_row) : gmap string endpoint :=
  foldl (fun m r => <[methodName r := make_endpoint r]> m) ∅ rows.

Definition NewJSONRPCHandler (cfg : Config) : Handler :=
  MkHandler (handlersMap (method_rows cfg)) maxHTTPRequestSize
    (MakeRequestDurationLimiter (num_field "RequestExecutionWarningThreshold" cfg)
       (num_field "MaxRequestExecutionDuration" cfg) (Some 0) (Some 0))
    (MakeBacklogQueueLimiter (Some 0) (num_field "RequestBacklogGlobalQueueLimit" cfg)).
End handlers.

(** ** The table as a map *)

Lemma foldl_insert_lookup (rows : list method_row) (m : gmap string endpoint) r :
  NoDup (methodName <$> rows) -> r ∈ rows ->
  foldl (fun m r => <[methodName r := make_endpoint r]> m) m rows !! methodName r = Some (make_endpoint r).
Proof.
  revert m. induction rows as [|r0 rows IH]; intros m Hd Hr; [set_solver|].
  csimpl in *. apply NoDup_cons in Hd as [Hn Hd]. apply elem_of_cons in Hr as [->|Hr]; [|by apply IH].
  clear IH Hd. assert (forall m : gmap string endpoint, m !! methodName r0 = Some (make_endpoint r0) ->
    foldl (fun m r => <[methodName r := make_endpoint r]> m) m rows !! methodName r0 = Some (make_endpoint r0)) as H.
  { clear m. induction rows as [|r1 rows IH]; intros m Hm; [done|]. csimpl in *. apply not_elem_of_cons in Hn as [Hne Hn].
    apply IH; [done|]. by rewrite lookup_insert_ne. }
  apply H. by rewrite lookup_insert_eq.
Qed.

Lemma foldl_insert_dom (rows : list method_row) (m : gmap string endpoint) n :
  foldl (fun m r => <[methodName r := make_endpoint r]> m) m rows !! n ≠ None -> m !! n ≠ None \/ n ∈ methodName <$> rows.
Proof.
  revert m. induction rows as [|r rows IH]; intros m H; [by left|]. csimpl in *.
  destruct (IH _ H) as [H'|H']; [|right; by right].
  destruct (decide (n = methodName r)) as [->|Hne]; [right; by left|]. rewrite lookup_insert_ne in H' by done. by left.
Qed.

(** ** The limits of a validated server *)

Section limits.
Context `{TT : TomlTypes} `{CS : !ConfigSdk} `{MN : MethodNames} `{OS : Os}.

(** The methods as the server documents them, apart from the table of the code. *)
Inductive method_kind :=
  | GetHealth | GetEvents | GetNetwork | GetVersionInfo | GetLatestLedger | GetLedgers | GetLedgerEntries
  | GetTransaction | GetTransactions | SendTransaction | SimulateTransaction | GetFeeStats.

Definition method_kinds : list method_kind :=
  [GetHealth; GetEvents; GetNetwork; GetVersionInfo; GetLatestLedger; GetLedgers; GetLedgerEntries;
   GetTransaction; GetTransactions; SendTransaction; SimulateTransaction; GetFeeStats].

Definition kind_name (m : method_kind) : string :=
  match m with
  | GetHealth => GetHealthMethodName | GetEvents => GetEventsMethodName | GetNetwork => GetNetworkMethodName
  | GetVersionInfo => GetVersionInfoMethodName | GetLatestLedger => GetLatestLedgerMethodName
  | GetLedgers => GetLedgersMethodName | GetLedgerEntries => GetLedgerEntriesMethodName
  | GetTransaction => GetTransactionMethodName | GetTransactions => GetTransactionsMethodName
  | SendTransaction => SendTransactionMethodName | SimulateTransaction => SimulateTransactionMethodName
  | GetFeeStats => GetFeeStatsMethodName
  end.

Definition kind_title (m : method_kind) : string :=
  match m with
  | GetHealth => "GetHealth" | GetEvents => "GetEvents" | GetNetwork => "GetNetwork"
  | GetVersionInfo => "GetVersionInfo" | GetLatestLedger => "GetLatestLedger" | GetLedgers => "GetLedgers"
  | GetLedgerEntries => "GetLedgerEntries" | GetTransaction => "GetTransaction"
  | GetTransactions => "GetTransactions" | SendTransaction => "SendTransaction"
  | SimulateTransaction => "SimulateTransaction" | GetFeeStats => "GetFeeStats"
  end.

(** The options of a method are named after it; one of them is not quite. *)
Definition queue_option (m : method_kind) : string :=
  "RequestBacklog" +:+ (kind_title m +:+ (if m is GetFeeStats then "Transaction" else "")) +:+ "QueueLimit".
Definition duration_option (m : method_kind) : string := "Max" +:+ kind_title m +:+ "ExecutionDuration".

(** What each method must be served by *)
Definition serves (cfg : Config) (m : method_kind) (h : underlying) : Prop :=
  match m, h with
  | GetHealth, NewHealthCheck window latency =>
      window = num_field "HistoryRetentionWindow" cfg /\ latency = num_field "MaxHealthyLedgerLatency" cfg
  | GetEvents, NewGetEventsHandler maxLimit defaultLimit =>
      maxLimit = num_field "MaxEventsLimit" cfg /\ defaultLimit = num_field "DefaultEventsLimit" cfg /\
      defaultLimit <= maxLimit
  | GetLedgers, NewGetLedgersHandler maxLimit defaultLimit =>
      maxLimit = num_field "MaxLedgersLimit" cfg /\ defaultLimit = num_field "DefaultLedgersLimit" cfg /\
      defaultLimit <= maxLimit
  | GetTransactions, NewGetTransactionsHandler maxLimit defaultLimit passphrase =>
      maxLimit = num_field "MaxTransactionsLimit" cfg /\ defaultLimit = num_field "DefaultTransactionsLimit" cfg /\
      defaultLimit <= maxLimit /\ passphrase = string_field "NetworkPassphrase" cfg
  | GetNetwork, NewGetNetworkHandler passphrase friendbot =>
      passphrase = string_field "NetworkPassphrase" cfg /\ friendbot = string_field "FriendbotURL" cfg
  | GetLedgerEntries, NewGetLedgerEntriesHandler maxMemory => maxMemory = 16384
  | SendTransaction, NewSendTransactionHandler passphrase maxMemory =>
      passphrase = string_field "NetworkPassphrase" cfg /\ maxMemory = 1048576
  | SimulateTransaction, NewSimulateTransactionHandler maxMemory => maxMemory = 1048576
  | GetVersionInfo, NewGetVersionInfoHandler | GetLatestLedger, NewGetLatestLedgerHandler
  | GetTransaction, NewGetTransactionHandler | GetFeeStats, NewGetFeeStatsHandler => True
  | _, _ => False
  end.

(** A queue limiter admits exactly [limit] requests at a time: in every
    interleaving no more are in the handler, and only a request that found
    [limit] others there is turned away. *)
Definition admits (limit : Z) (q : backlogQLimiter) : Prop :=
  forall (A : Type) (refusals : list (outcome A)) (s : system),
    let start := ((fun o => (o, Arrived)) <$> refusals, q) in
    zlen refusals < 2 ^ 64 -> rtc system_step start s ->
    tally in_handler s.1 <= limit /\
    (forall i r, s.1 !! i = Some r -> turned_away limit r -> found_full start limit i s).

Lemma MakeBacklogQueueLimiter_admits limit : 0 < limit < 2 ^ 32 -> admits limit (MakeBacklogQueueLimiter (Some 0) limit).
Proof.
  intros Hl A refusals s start Hn Hr. change (rtc system_step (initial_system (Some 0) limit refusals) s) in Hr.
  assert (limit <> RequestBacklogQueueNoLimit) as Hne by (unfold RequestBacklogQueueNoLimit; lia). split.
  - pose proof (limiter_inv_reachable (Some 0) limit refusals s ltac:(lia) Hne Hn Hr) as Hi.
    etrans; [|exact (li_admitted _ _ _ _ Hi)]. apply tally_le. intros [? []]; unfold in_handler, is_admitted; simpl; tauto.
  - intros i r. apply (turned_away_found_full (Some 0) limit refusals s); [lia|done..].
Qed.

Lemma typed_uint f cfg : has_type f (KUint Word) -> f ∈ field_types.*1 -> typed cfg -> num_field f cfg < 2 ^ 32.
Proof.
  intros Hf Hin Hcfg. apply list_elem_of_fmap in Hin as ([f' k]&->&Hin). simpl in *.
  unfold has_type in Hf. rewrite Forall_forall in Hf. pose proof (Hf _ Hin eq_refl) as Hk. simpl in Hk. subst k.
  unfold num_field. destruct (fields cfg !! f') as [v|] eqn:E; [|lia].
  pose proof (Hcfg _ _ _ Hin E) as Hv. destruct v; try lia. simpl in Hv. destruct Hv as [_ Hv]. by apply Hv.
Qed.

Lemma positive_limits cfg f :
  valid_config cfg -> typed cfg -> f ∈ positive_fields -> has_type f (KUint Word) -> f ∈ field_types.*1 ->
  0 < num_field f cfg < 2 ^ 32.
Proof.
  intros [_ _ _ Hp _ _] Ht H1 H2 H3. rewrite Forall_forall in Hp. split; [by apply Hp|by apply typed_uint].
Qed.

(** The row of the code's table for a method *)
Definition kind_row (cfg : Config) (m : method_kind) : option method_row :=
  method_rows cfg !! (match list_find (fun k => kind_title k = kind_title m) method_kinds with
                      | Some (i, _) => i | None => 12%nat end).

Lemma kind_row_ok cfg m :
  valid_config cfg -> exists r, r ∈ method_rows cfg /\ methodName r = kind_name m /\
    serves cfg m (underlyingHandler r) /\ queueLimit r = num_field (queue_option m) cfg /\
    requestDurationLimit r = num_field (duration_option m) cfg.
Proof.
  intros [_ _ _ _ _ Hl].
  repeat match goal with H : Forall _ (_ :: _) |- _ => apply Forall_cons in H as [? ?] end. simpl in *.
  destruct (kind_row cfg m) as [r|] eqn:E; [|by destruct m]. exists r.
  split; [by eapply list_elem_of_lookup_2|]. unfold kind_row in E.
  destruct m; vm_compute list_find in E; injection E as <-; simpl; done.
Qed.

Lemma kind_queue_limit cfg m :
  valid_config cfg -> typed cfg -> 0 < num_field (queue_option m) cfg < 2 ^ 32.
Proof.
  intros Hv Ht. apply positive_limits; [done|done|..]; destruct m; apply (bool_decide_unpack _); vm_compute; exact I.
Qed.

(** C34: With distinct method names and a validated, well typed configuration the
    server has exactly its twelve methods, each served by its own handler with
    the configured passphrases, page sizes and decoding limits, behind limiters
    made from the options named after it: the duration limiter has the method's
    limit and, if that is positive, warns at a third of it; the queue limiter
    admits, in every interleaving of concurrent requests, the configured number,
    and turns away only requests that find that many.  Before that an HTTP
    request passes the size limit and the global limiters. *)
Theorem NewJSONRPCHandler_limits cfg :
  NoDup method_names -> valid_config cfg -> typed cfg ->
  let server := NewJSONRPCHandler cfg in
  (forall n, h_methods server !! n ≠ None <-> exists m, n = kind_name m) /\
  (forall m, exists e, h_methods server !! kind_name m = Some e /\ serves cfg m (e_handler e) /\
     limitThreshold (e_durationLimiter e) = num_field (duration_option m) cfg /\
     (0 < num_field (duration_option m) cfg ->
        warningThreshold (e_durationLimiter e) = num_field (duration_option m) cfg / 3) /\
     admits (num_field (queue_option m) cfg) (e_queueLimiter e)) /\
  h_maxBytes server = 524288 /\
  limitThreshold (h_durationLimiter server) = num_field "MaxRequestExecutionDuration" cfg /\
  admits (num_field "RequestBacklogGlobalQueueLimit" cfg) (h_queueLimiter server).
Proof.
  intros Hnames Hvalid Htyped. cbv zeta.
  assert (methodName <$> method_rows cfg = method_names) as Enames by done.
  assert (forall r, r ∈ method_rows cfg -> h_methods (NewJSONRPCHandler cfg) !! methodName r = Some (make_endpoint r)) as Hlook.
  { intros r Hr. apply foldl_insert_lookup; [by rewrite Enames|done]. }
  split_and!; [| |done| |].
  - intros n. split.
    + intros H. destruct (foldl_insert_dom _ _ _ H) as [H'|H']; [by rewrite lookup_empty in H'|].
      change (n ∈ kind_name <$> method_kinds) in H'. apply list_elem_of_fmap in H' as (m&->&_). by exists m.
    + intros [m ->]. destruct (kind_row_ok cfg m Hvalid) as (r&Hr&<-&_). by rewrite Hlook.
  - intros m. destruct (kind_row_ok cfg m Hvalid) as (r&Hr&Hname&Hs&Hq&Hd). exists (make_endpoint r).
    rewrite <- Hname, <- Hq, <- Hd. split_and!; [by apply Hlook|done|done| |].
    + intros Hpos. simpl. rewrite Z.quot_div_nonneg by (unfold warningThresholdDenominator; lia).
      unfold warningThresholdDenominator. rewrite decide_False; [done|].
      pose proof (Z.div_lt (requestDurationLimit r) 3 Hpos ltac:(lia)). lia.
    + apply MakeBacklogQueueLimiter_admits. rewrite Hq. by apply kind_queue_limit.
  - done.
  - apply MakeBacklogQueueLimiter_admits.
    apply positive_limits; [done|done|..]; apply (bool_decide_unpack _); vm_compute; exact I.
Qed.
End limits.

(** ** A concrete server *)

#[local] Existing Instances ex_toml_types ex_config_sdk ex_os.

#[local] Instance ex_method_names : MethodNames := {
  GetHealthMethodName := "getHealth"; GetEventsMethodName := "getEvents"; GetNetworkMethodName := "getNetwork";
  GetVersionInfoMethodName := "getVersionInfo"; GetLatestLedgerMethodName := "getLatestLedger";
  GetLedgersMethodName := "getLedgers"; GetLedgerEntriesMethodName := "getLedgerEntries";
  GetTransactionMethodName := "getTransaction"; GetTransactionsMethodName := "getTransactions";
  SendTransactionMethodName := "sendTransaction"; SimulateTransactionMethodName := "simulateTransaction";
  GetFeeStatsMethodName := "getFeeStats";
}.

Example ex_metrics :
  toSnakeCase "getLatestLedger" = "get_latest_ledger" /\ label_replace "invalid params (-1)" = "invalid_params__1" /\
  request_status (D := unit) (fun _ => "[-32602] invalid parameters") (fun _ => None)
    (inr (EWrap "wrapped" (EJrpc InvalidParams "bad"))) = "[_32602]_invalid_parameters" /\
  (* The refusal of a queue limiter is not a [jrpc2.Error]: it is counted as ok. *)
  request_status (D := unit) (fun _ => "") (fun _ => None)
    (inr (EMsg "rpc queue for getHealth surpassed queue limit of 1000 requests")) = "ok".
Proof. vm_compute. done. Qed.

Lemma NewJSONRPCHandler_limits_witness :
  exists e, h_methods (NewJSONRPCHandler ex_loaded) !! "getHealth" = Some e /\
    e_handler e = NewHealthCheck 120960 (30 * Second) /\ warningThreshold (e_durationLimiter e) = 5 * Second / 3 /\
    admits 1000 (e_queueLimiter e).
Proof.
  destruct (NewJSONRPCHandler_limits (CS := ex_config_sdk) ex_loaded) as (_&H&_).
  - apply (bool_decide_unpack _). vm_compute. exact I.
  - exact ex_valid_config.
  - exact ex_typed.
  - destruct (H GetHealth) as (e&He&Hh&_&Hw&Ha). exists e. split; [exact He|]. split; [|split].
    + destruct (e_handler e) as [w l| | | | | | | | | | |]; simpl in Hh; try destruct Hh as []; subst; vm_compute; reflexivity.
    + rewrite Hw; vm_compute; reflexivity.
    + exact Ha.
Defined.
