(* ===== verification/Metrics.v ===== *)
(** * Metrics and the core client (daemon/metrics.go)

    The client of stellar-core that the handlers are given records every
    submission, and the parts of the daemon register their metrics in one
    registry, which panics when two have the same name. *)

From S2P Require Import Prelude GoStd GoText GoStrings GoCodec GoJson Sdk SdkExample LedgerBucketWindow Tables DbTransaction DbLedger Db FeeWindow Protocol ProtocolExample MethodJson GetTransactionsMethod Config ConfigOptions ConfigLoad Network JsonRpc Handlers.

(** ** The registry *)

(** A collector of client_golang: its full name is made of three parts. *)
Record Collector := MkCollector { c_Namespace : string; c_Subsystem : string; c_Name : string; c_Labels : list string }.

Definition BuildFQName (c : Collector) : string :=
  c_Namespace c +:+ "_" +:+ c_Subsystem c +:+ "_" +:+ c_Name c.

(** The registry of client_golang.  Registering new and different names succeeds
    and adds them; the collectors of libraries are known by their names only. *)
Class PrometheusRegistry := {
  Registry : Type;
  NewRegistry : Registry;
  MustRegister : list string -> M Registry unit;
  registered : Registry -> list string
}.

Class RegistryLaws `{PR : PrometheusRegistry} : Prop := {
  NewRegistry_empty : registered NewRegistry = [];
  MustRegister_new : forall names r, NoDup names -> (forall n, n ∈ names -> n ∉ registered r) ->
    exists r', MustRegister names r = (Ok tt, r') /\
      forall n, n ∈ registered r' <-> n ∈ names \/ n ∈ registered r
}.

Definition PrometheusNamespace : string := "soroban_rpc".

Definition submitMetric : Collector := MkCollector PrometheusNamespace "txsub" "submission_duration_seconds" ["status"].
Definition opCountMetric : Collector := MkCollector PrometheusNamespace "txsub" "operation_count" ["status"].
Definition buildInfoGauge : Collector :=
  MkCollector PrometheusNamespace "build" "info" ["version"; "goversion"; "commit"; "branch"; "build_timestamp"].
Definition txDurationMetric : Collector :=
  MkCollector PrometheusNamespace "transactions" "operation_duration_seconds" ["operation"].
Definition txCountMetric : Collector := MkCollector PrometheusNamespace "transactions" "count" [].

(** The collectors of ingest/service.go and of preflight/pool.go *)
Definition ingest_collectors : list Collector := [
  MkCollector PrometheusNamespace "ingest" "ledger_ingestion_duration_seconds" ["type"];
  MkCollector PrometheusNamespace "ingest" "local_latest_ledger" [];
  MkCollector PrometheusNamespace "ingest" "ledger_stats_total" ["type"]].

Definition preflight_collectors : list Collector := [
  MkCollector PrometheusNamespace "preflight_pool" "queue_length" [];
  MkCollector PrometheusNamespace "preflight_pool" "concurrent_requests" [];
  MkCollector PrometheusNamespace "preflight_pool" "queue_full_errors" [];
  MkCollector PrometheusNamespace "preflight_pool" "request_ledger_get_duration_seconds" ["status"; "type"];
  MkCollector PrometheusNamespace "preflight_pool" "request_ledger_entries_fetched" []].

(** [decorateHandlers] *)
Definition requestMetric : Collector :=
  MkCollector PrometheusNamespace "json_rpc" "request_duration_seconds" ["endpoint"; "status"].

Section Startup.
Context `{PR : PrometheusRegistry}.
(** The names of the collectors of libraries: the database session, the log
    hook, the Go runtime and the process. *)
Context (session_names hook_names runtime_names process_names : list string).

Definition register (cs : list Collector) : M Registry unit := MustRegister (BuildFQName <$> cs).

Definition newCoreClientWithMetrics : M Registry unit := register [submitMetric; opCountMetric].
Definition NewReadWriter_metrics : M Registry unit := register [txDurationMetric; txCountMetric].
Definition newService_metrics : M Registry unit := register ingest_collectors.
Definition NewPreflightWorkerPool_metrics : M Registry unit := register preflight_collectors.
Definition decorateHandlers_metrics : M Registry unit := register [requestMetric].

(** [Daemon.registerMetrics]: a counter per log level, one call each *)
Definition registerMetrics : M Registry unit :=
  for_each hook_names (fun n => MustRegister [n]) ;;
  MustRegister runtime_names ;;
  MustRegister process_names ;;
  register [buildInfoGauge].

(** The registrations of [MustNew], in the order in which it makes them *)
Definition MustNew_metrics : M Registry unit :=
  MustRegister session_names ;;
  newCoreClientWithMetrics ;;
  NewReadWriter_metrics ;;
  newService_metrics ;;
  NewPreflightWorkerPool_metrics ;;
  decorateHandlers_metrics ;;
  registerMetrics.

Definition own_collectors : list Collector :=
  [submitMetric; opCountMetric] ++ [txDurationMetric; txCountMetric] ++ ingest_collectors ++
  preflight_collectors ++ [requestMetric; buildInfoGauge].

Definition library_names : list string := session_names ++ hook_names ++ runtime_names ++ process_names.
Definition all_names : list string := library_names ++ (BuildFQName <$> own_collectors).
End Startup.

(** The limiters' metrics, as jsonrpc.go makes them: per method, and global *)
Definition limiter_collectors (e : endpoint) : list Collector :=
  [MkCollector PrometheusNamespace "network" (e_gaugeName e) [];
   MkCollector PrometheusNamespace "network" (e_warnCounterName e) [];
   MkCollector PrometheusNamespace "network" (e_limitCounterName e) []].
Definition global_limiter_collectors : list Collector :=
  [MkCollector PrometheusNamespace "network" "global_inflight_requests" [];
   MkCollector PrometheusNamespace "network" "global_request_execution_duration_threshold_warning" [];
   MkCollector PrometheusNamespace "network" "global_request_execution_duration_threshold_limit" []].

(** ** Every name is registered once *)

Section StartupLemmas.
Context `{PR : PrometheusRegistry} `{RL : !RegistryLaws}.
Context (session_names hook_names runtime_names process_names : list string).

(** [m] registers exactly [names] on any registry that has none of them. *)
Definition registers (m : M Registry unit) (names : list string) : Prop :=
  forall r, NoDup names -> (forall n, n ∈ names -> n ∉ registered r) ->
    exists r', m r = (Ok tt, r') /\ forall n, n ∈ registered r' <-> n ∈ names \/ n ∈ registered r.

Lemma registers_must names : registers (MustRegister names) names.
Proof. intros r. apply MustRegister_new. Qed.

Lemma registers_seq m1 m2 l1 l2 : registers m1 l1 -> registers m2 l2 -> registers (m1 ;; m2) (l1 ++ l2).
Proof.
  intros H1 H2 r (Hd1 & Hdis & Hd2)%NoDup_app Hnew. destruct (H1 r) as (r1 & E1 & Hr1);
    [done|intros n Hn; apply Hnew; rewrite elem_of_app; by left|].
  destruct (H2 r1) as (r2 & E2 & Hr2); [done| |].
  { intros n Hn. rewrite Hr1. intros [?|?]; [by eapply Hdis|]. eapply Hnew; [|done]. rewrite elem_of_app. by right. }
  exists r2. split; [unfold mbind, M_bind; by rewrite E1|]. intros n. rewrite Hr2, Hr1, elem_of_app. tauto.
Qed.

Lemma registers_each names : registers (for_each names (fun n => MustRegister [n])) names.
Proof.
  induction names as [|n names IH]; cbn [for_each].
  - intros r _ _. exists r. split; [done|]. intros n. rewrite elem_of_nil. tauto.
  - apply (registers_seq _ _ [n] names); [apply registers_must|exact IH].
Qed.

Lemma registers_perm m l1 l2 : l1 ≡ₚ l2 -> registers m l1 -> registers m l2.
Proof.
  intros Hp Hm r Hd Hnew. destruct (Hm r) as (r' & E & Hr); [by rewrite Hp|intros n; rewrite Hp; auto|].
  exists r'. split; [done|]. intros n. by rewrite Hr, Hp.
Qed.

Lemma MustNew_registers :
  registers (MustNew_metrics session_names hook_names runtime_names process_names)
    (all_names session_names hook_names runtime_names process_names).
Proof.
  set (own := fun cs : list Collector => BuildFQName <$> cs).
  apply (registers_perm _ (session_names ++ own [submitMetric; opCountMetric] ++ own [txDurationMetric; txCountMetric] ++
    own ingest_collectors ++ own preflight_collectors ++ own [requestMetric] ++
    hook_names ++ runtime_names ++ process_names ++ own [buildInfoGauge])).
  - unfold all_names, library_names, own, own_collectors. rewrite !fmap_app, <-!app_assoc. apply Permutation_app_head.
    change (BuildFQName <$> [requestMetric; buildInfoGauge]) with
      ((BuildFQName <$> [requestMetric]) ++ (BuildFQName <$> [buildInfoGauge])).
    set (x := (BuildFQName <$> [submitMetric; opCountMetric]) ++ (BuildFQName <$> [txDurationMetric; txCountMetric]) ++
      (BuildFQName <$> ingest_collectors) ++ (BuildFQName <$> preflight_collectors) ++ (BuildFQName <$> [requestMetric])).
    set (y := hook_names ++ runtime_names ++ process_names). set (b := BuildFQName <$> [buildInfoGauge]).
    transitivity (x ++ y ++ b); [unfold x, y; by rewrite <-!app_assoc|].
    transitivity (y ++ x ++ b); [|unfold x, y; by rewrite <-!app_assoc].
    rewrite !app_assoc. apply Permutation_app_tail, Permutation_app_comm.
  - unfold MustNew_metrics, registerMetrics, own. repeat (apply registers_seq; [apply registers_must|]).
    apply registers_seq; [apply registers_each|]. repeat (apply registers_seq; [apply registers_must|]).
    apply registers_must.
Qed.

(** The daemon's own names are different, and none is a limiter's. *)
Lemma own_names_nodup : NoDup (BuildFQName <$> own_collectors).
Proof. apply (bool_decide_unpack _). by vm_compute. Qed.

Definition network_prefix : string := PrometheusNamespace +:+ "_network_".

Lemma own_names_not_network : Forall (fun n => CutPrefix network_prefix n = None) (BuildFQName <$> own_collectors).
Proof. apply (bool_decide_unpack _). by vm_compute. Qed.

Lemma limiter_names_network e c : c ∈ limiter_collectors e ++ global_limiter_collectors ->
  exists r, CutPrefix network_prefix (BuildFQName c) = Some r.
Proof.
  assert (Forall (fun c => c_Namespace c = PrometheusNamespace /\ c_Subsystem c = "network")
    (limiter_collectors e ++ global_limiter_collectors)) as HF by repeat constructor.
  intros Hc. rewrite Forall_forall in HF. destruct (HF c Hc) as [Hn Hs].
  exists (c_Name c). unfold BuildFQName. rewrite Hn, Hs. by apply CutPrefix_app.
Qed.

(** C35: When the libraries' metrics have names of their own, start-up registers
    every metric of the daemon once and no registration panics; but the gauges and
    counters of the request limiters, which have names and help texts, are
    registered nowhere, so that they are never exported. *)
Theorem MustNew_metrics_once :
  let libs := library_names session_names hook_names runtime_names process_names in
  NoDup libs -> Forall (fun n => n ∉ BuildFQName <$> own_collectors) libs ->
  exists r, MustNew_metrics session_names hook_names runtime_names process_names NewRegistry = (Ok tt, r) /\
    (forall n, n ∈ registered r <-> n ∈ BuildFQName <$> own_collectors \/ n ∈ libs) /\
    forall e c, c ∈ limiter_collectors e ++ global_limiter_collectors ->
      BuildFQName c ∉ libs -> BuildFQName c ∉ registered r.
Proof.
  intros libs Hd Hf. rewrite Forall_forall in Hf.
  destruct (MustNew_registers NewRegistry) as (r & E & Hr).
  - apply NoDup_app. split_and!; [done|apply Hf|apply own_names_nodup].
  - intros n _. rewrite NewRegistry_empty. apply not_elem_of_nil.
  - exists r. assert (forall n, n ∈ registered r <-> n ∈ BuildFQName <$> own_collectors \/ n ∈ libs) as Hn.
    { intros n. rewrite Hr, NewRegistry_empty, elem_of_nil. unfold all_names. rewrite elem_of_app. fold libs. tauto. }
    split_and!; [done|done|]. intros e c Hc Hl Hin. apply Hn in Hin as [Hin|Hin]; [|done].
    apply limiter_names_network in Hc as [x Hx]. pose proof own_names_not_network as Ho. rewrite Forall_forall in Ho.
    specialize (Ho _ Hin). congruence.
Qed.
End StartupLemmas.

(** ** The client of the core *)


Section CoreClient.
Context `{X : Sdk} `{CP : !CoreProtocol}.
Context (Operations : TransactionEnvelope -> Z).
Context {S : Type} (submit : string -> M S CoreResponse) (duration : Z).




End CoreClient.

(** ** sendTransaction through the wrapper *)

Section SendMetered.
Context `{X : Sdk} `{P : !RpcProtocol} `{ND : Nondet} `{CP : !CoreProtocol}.
Context (Operations : TransactionEnvelope -> Z).
(** The bare client, with any state of its own *)
Context {S : Type} (submit : string -> M S CoreResponse) (duration : Z).

(** What the bare client was sent and what it returned, call by call *)
Abbreviation exchanges := (list (string * (CoreResponse + error))).




End SendMetered.

(** ** A registry *)

#[export] Instance ex_registry : PrometheusRegistry := {|
  Registry := list string;
  NewRegistry := [];
  MustRegister := fun names r =>
    if decide (NoDup names /\ Forall (fun n => n ∉ r) names) then (Ok tt, names ++ r)
    else (Panic "duplicate metrics collector registration attempted", r);
  registered := fun r => r
|}.

#[export] Instance ex_registry_laws : RegistryLaws.
Proof.
  split; [done|]. intros names r Hd Hn. exists (names ++ r). split.
  - cbn. rewrite decide_True; [done|]. split; [done|]. by apply Forall_forall.
  - intros n. apply elem_of_app.
Qed.

Definition ex_libs : list string := ["soroban_rpc_db_query_duration_seconds"].
Definition ex_hooks : list string := ["soroban_rpc_log_info_total"; "soroban_rpc_log_error_total"].

(** Two read-writers on one registry would have panicked. *)
Example ex_twice : (NewReadWriter_metrics ;; NewReadWriter_metrics) NewRegistry =
  (Panic "duplicate metrics collector registration attempted", BuildFQName <$> [txDurationMetric; txCountMetric]).
Proof. by vm_compute. Qed.

Lemma MustNew_metrics_once_witness :
  let libs := library_names ex_libs ex_hooks ["go_goroutines"] ["process_open_fds"] in
  exists r, MustNew_metrics ex_libs ex_hooks ["go_goroutines"] ["process_open_fds"] NewRegistry = (Ok tt, r) /\
    (forall n, n ∈ registered r <-> n ∈ BuildFQName <$> own_collectors \/ n ∈ libs) /\
    forall e c, c ∈ limiter_collectors e ++ global_limiter_collectors ->
      BuildFQName c ∉ libs -> BuildFQName c ∉ registered r.
Proof.
  apply (MustNew_metrics_once ex_libs ex_hooks ["go_goroutines"] ["process_open_fds"]);
    apply (bool_decide_unpack _); by vm_compute.
Defined.
