(* ===== verification/Frames.v ===== *)
(** * Frames: what the database writers leave alone

    The writers of transactions and events, whatever statement of theirs fails,
    leave every part of the tables they do not write, set flags stay set, and the
    schedule of failures only advances.  The lemmas are stated for an arbitrary
    part [f] of the tables. *)

From S2P Require Import Prelude GoText Sdk LedgerBucketWindow Tables DbTransaction DbEvent DbLedger Db.

(** The metadata key is recorded as true. *)
Definition is_true (t : tables) (key : string) : Prop :=
  exists v, t_meta t !! key = Some v /\ ParseBool v = Ok true.

(** The outcomes of a sequence of calls. *)
Lemma bind_inv {S A B} (m : M S A) (k : A -> M S B) s r s' :
  (m ≫= k) s = (r, s') ->
  (exists a s1, m s = (Ok a, s1) /\ k a s1 = (r, s')) \/
  (exists r1, m s = (r1, s') /\ (forall a, r1 <> Ok a) /\ forall b, r <> Ok b).
Proof.
  unfold mbind, M_bind. destruct (m s) as [[a|e|p] s1]; [by eauto|..]; intros [= <- <-]; right; eexists; by split_and!.
Qed.

(** ** What the writers leave alone *)

Section Frames.
Context {B : Type} (f : tables -> B).

(** The part [f] of the tables stays, flags that are set stay set, and the
    schedule of failures only advances. *)
Definition frames (s s' : session) : Prop :=
  f (s_tab s') = f (s_tab s) /\ (forall k, is_true (s_tab s) k -> is_true (s_tab s') k) /\
  s_faults s' `suffix_of` s_faults s.

#[global] Instance frames_preorder : PreOrder frames.
Proof.
  split; [by intros s; split_and!|]. intros a b c (A1&A2&A3) (B1&B2&B3).
  split_and!; [congruence|auto|by etrans].
Qed.

(** A writer and its session. *)
Definition frames2 {H} (p q : H * session) : Prop := frames (snd p) (snd q).

#[global] Instance frames2_preorder {H} : PreOrder (@frames2 H).
Proof. split; [intros p; apply frames_preorder|intros p q r; apply frames_preorder]. Qed.

Lemma frames_statement {A} (x : tables -> Res (A * tables)) :
  (forall t a t', x t = Ok (a, t') -> f t' = f t /\ forall k, is_true t k -> is_true t' k) ->
  keeps frames (statement x).
Proof.
  intros Hx s r s'. unfold statement, next_fault. intros H.
  assert (forall fs, fs `suffix_of` s_faults s -> frames s (MkSession (s_tab s) fs)) as Hsame by by (intros fs Hfs; split_and!; auto).
  assert (match s_faults s with [] => [] | _ :: fs => fs end `suffix_of` s_faults s) as Htail.
  { destruct (s_faults s) as [|? fs]; [done|]. by apply suffix_cons_r. }
  destruct (s_faults s) as [|[e|] fs] eqn:Hf; [|simplify_eq; by apply Hsame|].
  all: destruct (x (s_tab s)) as [[a t']|e|m] eqn:E; simplify_eq; [|by apply Hsame..].
  all: destruct (Hx _ _ _ E) as [H1 H2]; split_and!; [exact H1|exact H2|by rewrite Hf].
Qed.

Lemma frames_select {A} (q : tables -> A) : keeps frames (sql_select q).
Proof. apply frames_statement. by intros t a t' [= _ <-]. Qed.

Lemma frames_exec (x : tables -> Res tables) :
  (forall t t', x t = Ok t' -> f t' = f t /\ t_meta t' = t_meta t) -> keeps frames (sql_exec x).
Proof.
  intros Hx. apply frames_statement. intros t a t'. unfold mbind, Res_bind.
  destruct (x t) as [t1|e|m] eqn:E; [|done..]. intros [= _ <-]. destruct (Hx _ _ E) as [H1 H2].
  split; [done|]. unfold is_true. by rewrite H2.
Qed.

(** Running a statement on the session of a writer. *)
Lemma frames_zoom2 {H A} (m : M session A) : keeps frames m -> keeps (@frames2 H) (zoom2 m).
Proof. intros Hm. by eapply keeps_zoom2; [exact Hm|]. Qed.

Lemma frames_zoom1 {H A} (m : M H A) : keeps (@frames2 H) (zoom1 m).
Proof. eapply (keeps_zoom1 _ (fun _ _ => True)); [by intros ???|]. intros s s' t _. change (frames t t). reflexivity. Qed.

Lemma frames_batches {H} fuel (len : H * session -> nat) max flush :
  (forall n, keeps (@frames2 H) (flush n)) -> keeps (@frames2 H) (flush_full_batches fuel len max flush).
Proof.
  intros Hf. induction fuel as [|fuel IH]; intros s r s'; simpl; case_decide; try (by intros [= <- <-]).
  intros E. by eapply (keeps_bind _ (flush max) (fun _ => flush_full_batches fuel len max flush)).
Qed.

End Frames.

(** Follows the combinators of a call, down to its own statements. *)
Ltac frames_tac :=
  repeat lazymatch goal with
    | |- keeps _ (mret _) => apply keeps_ret; apply _
    | |- keeps _ (fail _) => apply keeps_fail; apply _
    | |- keeps _ (panic _) => apply keeps_panic; apply _
    | |- keeps _ (of_res _) => apply keeps_of_res; apply _
    | |- keeps _ get => apply keeps_get; apply _
    | |- keeps _ (gets _) => apply keeps_gets; apply _
    | |- keeps _ (mbind _ _) => apply keeps_bind; [apply _| |intros]
    | |- keeps _ (map_err _ _) => apply keeps_map_err
    | |- keeps _ (attempt _) => apply keeps_attempt
    | |- keeps _ (zoom1 _) => apply frames_zoom1
    | |- keeps _ (zoom2 _) => apply frames_zoom2
    | |- keeps _ (sql_select _) => apply frames_select
    | |- keeps _ (flush_full_batches _ _ _ _) => apply frames_batches; intros
    | |- keeps _ (match ?x with _ => _ end) => destruct x
    end.

Section Writers.
Context `{X : Sdk} `{ND : Nondet} {B : Type} (f : tables -> B).
Context (f_txs : forall x t, f (set_txs x t) = f t) (f_events : forall x t, f (set_events x t) = f t).

Lemma frames_flush_txs n : keeps (frames2 f) (flush_txs n).
Proof.
  unfold flush_txs. frames_tac. apply frames_exec. intros t1 t2 ->%insert_tx_rows_inv. split; [apply f_txs|done].
Qed.

Lemma frames_flush_evs n : keeps (frames2 f) (flush_evs n).
Proof.
  unfold flush_evs. frames_tac. apply frames_exec. intros t1 t2 Ht%bind_limited_ok. revert Ht.
  case_match; intros [= <-]. split; [apply f_events|done].
Qed.

Lemma frames_flushPending_txs : keeps (frames2 f) flushPending_txs.
Proof. unfold flushPending_txs. frames_tac. apply frames_flush_txs. Qed.

Lemma frames_flushPending_evs : keeps (frames2 f) flushPending_evs.
Proof. unfold flushPending_evs. frames_tac. apply frames_flush_evs. Qed.

Lemma frames_InsertTransactions lcm : keeps (frames2 f) (InsertTransactions lcm).
Proof. unfold InsertTransactions. frames_tac. apply frames_flush_txs. Qed.

Lemma frames_insert_events_loop lcm indices reader : keeps (frames2 f) (insert_events_loop lcm indices reader).
Proof.
  revert indices. induction reader as [|[tx|e|m] reader IH]; intros indices; simpl; [by frames_tac| |by frames_tac..].
  apply keeps_bind; [apply _|by frames_tac|]. intros allEvents. case_match.
  unfold append_pending. frames_tac; [apply frames_flush_evs|apply IH].
Qed.

Lemma frames_InsertEvents lcm : keeps (frames2 f) (InsertEvents lcm).
Proof. unfold InsertEvents. frames_tac. apply frames_insert_events_loop. Qed.

End Writers.

(** ** Calls on the shared handle *)

Section DbFrames.
Context `{X : Sdk} `{ND : Nondet}.

Definition frames_db {B} (f : tables -> B) (d d' : DB) : Prop := frames f (d_sess d) (d_sess d').

#[global] Instance frames_db_preorder {B} (f : tables -> B) : PreOrder (frames_db f).
Proof. split; [intros d; apply frames_preorder|intros a b c; apply frames_preorder]. Qed.

Lemma frames_on_session {B A} (f : tables -> B) (m : M session A) : keeps (frames f) m -> keeps (frames_db f) (on_session m).
Proof. intros Hm. by apply (keeps_zoom _ (frames f)). Qed.

Lemma frames_on_cache {B} (f : tables -> B) g : keeps (frames_db f) (on_cache g).
Proof. apply keeps_modify. intros d. change (frames f (d_sess d) (d_sess d)). reflexivity. Qed.

Lemma frames_GetLedgerRange {B} (f : tables -> B) : keeps (frames_db f) GetLedgerRange_db.
Proof.
  assert (forall msg q, keeps (frames f) (select_ledgers msg q)) as Hsel by (intros; unfold select_ledgers; frames_tac).
  unfold GetLedgerRange_db, getLedgerRangeWithCache, getLedgerRangeWithoutCache. frames_tac;
    try apply frames_on_cache; apply frames_on_session; frames_tac; apply Hsel.
Qed.

End DbFrames.
