(* ===== verification/Daemon.v ===== *)
(** * The daemon's storage (daemon/daemon.go)

    What the daemon does to its database between opening it and starting the
    ingestion service: the fee windows and pending migrations are filled from the
    stored ledgers, a backfill brings the database up to the datastore, and the
    schema of a bulk load is restored.  A failure ends the process ([Fatal]), at
    any statement, and the next start finds what was committed. *)

From S2P Require Import Prelude GoText Sdk SdkExample LedgerBucketWindow Tables DbTransaction DbEvent DbLedger Db FeeWindow Migration Ingest Backfill Frames.

(** The fields of [config.Config] that decide it; [cfg_IngestLoadTest] is
    [IngestLoadTest.Enabled()]. *)
Record StorageConfig := MkStorageConfig {
  cfg_ClassicFeeStatsLedgerRetentionWindow : Z;
  cfg_SorobanFeeStatsLedgerRetentionWindow : Z;
  cfg_HistoryRetentionWindow : Z;
  cfg_NetworkPassphrase : string;
  cfg_CheckpointFrequency : Z;
  cfg_IngestLoadTest : bool;
  cfg_Backfill : bool;
}.

(** ** The handle, shared by migrations and readers

    [d.db]: the session, which may be inside the transaction of the migrations,
    and the cache of the ledger range. *)
Record storage := MkStorage { st_handle : mdb; st_cache : dbCache }.

Definition set_st_handle (h : mdb) (st : storage) : storage := MkStorage h (st_cache st).

Definition set_m_view (s : session) (h : mdb) : mdb :=
  match m_tx h with
  | Some _ => MkMdb (m_committed h) (Some (s_tab s)) (s_faults s)
  | None => MkMdb (s_tab s) None (s_faults s)
  end.

(** The handle as the readers see it: inside a transaction, its working copy. *)
Definition st_DB (st : storage) : DB :=
  MkDB (MkSession (m_view (st_handle st)) (m_faults (st_handle st))) (st_cache st).
Definition set_st_DB (d : DB) (st : storage) : storage :=
  MkStorage (set_m_view (d_sess d) (st_handle st)) (d_cache d).

Definition on_handle {A} : M mdb A -> M storage A := zoom st_handle set_st_handle.
Definition on_db {A} : M DB A -> M storage A := zoom st_DB set_st_DB.

(** [d.logger.WithError(err).Fatal(msg)]: the process ends. *)
Definition Fatal {S A} (msg : string) (err : error) : M S A :=
  panic (msg +:+ ": " +:+ error_message err).

Definition must {S A} (msg : string) (m : M S A) : M S A :=
  r ← attempt m;
  match r with inl a => mret a | inr err => Fatal msg err end.

(** Running a call with a local variable [s]; its last value is the result. *)
Definition with_local {S T} (s : S) (m : M (S * T) unit) : M T S := fun t =>
  match m (s, t) with
  | (Ok _, (s', t')) => (Ok s', t')
  | (Err e, (_, t')) => (Err e, t')
  | (Panic p, (_, t')) => (Panic p, t')
  end.

Section Daemon.
Context `{X : Sdk} `{ND : Nondet}.
Context (cfg : StorageConfig).

(** ** Initialising the storage *)

Definition buildMigrations (retentionRange : LedgerSeqRange) (feeWindows : FeeWindows)
    : M storage MultiMigration :=
  let maxFeeRetentionWindow := Z.max (cfg_ClassicFeeStatsLedgerRetentionWindow cfg)
                                     (cfg_SorobanFeeStatsLedgerRetentionWindow cfg) in
  (if decide (cfg_HistoryRetentionWindow cfg < maxFeeRetentionWindow) then
     panic ("Fee stat analysis window (" +:+ pretty maxFeeRetentionWindow
            +:+ ") cannot exceed history retention window ("
            +:+ pretty (cfg_HistoryRetentionWindow cfg) +:+ ").")
   else mret tt) ;;
  dataMigrations ← must "could not build migrations"
                     (on_handle (BuildMigrations (cfg_NetworkPassphrase cfg) retentionRange));
  feeStatsRange ← must "could not get ledger range for fee stats"
                    (on_db (GetMigrationLedgerRange maxFeeRetentionWindow));
  mret (Append_mm dataMigrations (AsMigration feeWindows feeStatsRange)).

(** The callback of the stream: the migrations run on the handle that streams. *)
Definition apply_ledger (txMeta : LedgerCloseMeta) : M (MultiMigration * storage) unit :=
  '(mm, _) ← get;
  '(err, mm) ← zoom2 (on_handle (Apply_mm mm txMeta));
  zoom1 (put mm) ;;
  match err with
  | None => mret tt
  | Some err => Fatal ("could not apply migration for ledger " +:+ pretty (LedgerSequence txMeta)) err
  end.

(** [StreamLedgerRange] with that callback. *)
Definition stream_migrations (r : LedgerSeqRange) : M (MultiMigration * storage) unit :=
  q ← zoom2 (on_handle (on_mdb (sql_select (fun t =>
        (filter (in_range (First r) (Last r)) (ledger_rows t)).*2))));
  stream_rows q apply_ledger.

(** The fee windows of the daemon are the ones their migration points to. *)
Definition windows_of (mm : MultiMigration) (fw : FeeWindows) : FeeWindows :=
  foldl (fun fw m => match migration m with feeWindowMigration _ _ w => w | _ => fw end) fw mm.

Definition mustInitializeStorage : M storage FeeWindows :=
  let feeWindows := NewFeeWindows (cfg_ClassicFeeStatsLedgerRetentionWindow cfg)
                      (cfg_SorobanFeeStatsLedgerRetentionWindow cfg) (cfg_NetworkPassphrase cfg) in
  if cfg_IngestLoadTest cfg then mret feeWindows
  else
    retentionRange ← must "could not get ledger range for migration"
                       (on_db (GetMigrationLedgerRange (cfg_HistoryRetentionWindow cfg)));
    dataMigrations ← buildMigrations retentionRange feeWindows;
    let ledgerSeqRange := ApplicableRange_mm dataMigrations in
    dataMigrations ← must "Could not obtain txmeta cache from the database"
                       (with_local dataMigrations (stream_migrations ledgerSeqRange));
    '(err, dataMigrations) ← on_handle (Commit_mm dataMigrations);
    match err with
    | Some err => Fatal "Could not commit data migrations" err
    | None => mret (windows_of dataMigrations feeWindows)
    end.

(** ** Backfill and the bulk-load schema *)

(** The daemon while it starts: its storage, the windows it shares with the
    service, the service's latest ledger, and the schedules of the transactions
    and of the datastore's answers to come. *)
Record Daemon := MkDaemon {
  dm_storage : storage;
  dm_feeWindows : FeeWindows;
  dm_latestIngestedSeq : Z;
  dm_tx_faults : list (list (option error));
  dm_tips : list (Res Z); (* FindLatestLedgerSequence *)
  dm_oldest : list (Res Z); (* FindOldestLedgerSequence *)
}.

Definition set_dm_storage (st : storage) (d : Daemon) : Daemon :=
  MkDaemon st (dm_feeWindows d) (dm_latestIngestedSeq d) (dm_tx_faults d) (dm_tips d) (dm_oldest d).
Definition set_dm_feeWindows (fw : FeeWindows) (d : Daemon) : Daemon :=
  MkDaemon (dm_storage d) fw (dm_latestIngestedSeq d) (dm_tx_faults d) (dm_tips d) (dm_oldest d).
Definition on_storage {A} : M storage A -> M Daemon A := zoom dm_storage set_dm_storage.

(** The service of the daemon, which works on the same handle and windows. *)
Definition dm_backfill (d : Daemon) : bf_state :=
  (MkService (st_DB (dm_storage d)) (dm_feeWindows d) (dm_latestIngestedSeq d) (dm_tx_faults d), dm_tips d).
Definition set_dm_backfill (b : bf_state) (d : Daemon) : Daemon :=
  MkDaemon (set_st_DB (sv_db (fst b)) (dm_storage d)) (sv_feeWindows (fst b)) (latestIngestedSeq (fst b))
    (sv_tx_faults (fst b)) (snd b) (dm_oldest d).

Definition next_oldest : M Daemon (Res Z) := fun d =>
  match dm_oldest d with
  | [] => (Ok (Err (EExt "datastore is empty")), d)
  | r :: rest => (Ok r, MkDaemon (dm_storage d) (dm_feeWindows d) (dm_latestIngestedSeq d)
                          (dm_tx_faults d) (dm_tips d) rest)
  end.

Context `{IJ : IndexJson} {DS : DataStore}.
Context (ledgersPerFile : Z).

Definition mustBackfill : M Daemon unit :=
  oldest ← next_oldest;
  backfillMeta ← must "failed to create backfill metadata"
                   (on_storage (on_db (NewBackfillMeta oldest ledgersPerFile)));
  must "failed to backfill ledgers"
    (zoom dm_backfill set_dm_backfill
       (RunBackfill (cfg_HistoryRetentionWindow cfg) (cfg_CheckpointFrequency cfg)
          (cfg_NetworkPassphrase cfg) backfillMeta)) ;;
  on_storage (on_db ResetCache) ;;
  modify (fun d => set_dm_feeWindows (Reset_fws (dm_feeWindows d)) d).

(** On a fresh database, the schema is reshaped for the bulk load. *)
Definition prepare_if_empty : M Daemon unit :=
  r ← attempt (on_storage (on_db GetLedgerRange_db));
  match r with
  | inl _ => mret tt
  | inr err =>
      if errors_Is err ErrEmptyDB then
        must "failed to prepare database for backfill bulk-load" (on_storage (on_db (on_session PrepareBulkLoad)))
      else Fatal "failed to check database emptiness for backfill" err
  end.

(** [MustNew], from the storage to the start of the ingestion service. *)
Definition MustNew : M Daemon unit :=
  feewindows ← on_storage mustInitializeStorage;
  modify (set_dm_feeWindows feewindows) ;;
  (if cfg_Backfill cfg then prepare_if_empty ;; mustBackfill else mret tt) ;;
  must "failed to finalize backfill bulk-load" (on_storage (on_db (on_session FinalizeBulkLoad))) ;;
  if cfg_Backfill cfg then mustBackfill else mret tt.

End Daemon.

(** ** The fees of the newest ledgers *)

Section FeeLemmas.
Context `{X : Sdk}.

(** The newest [n] elements of a list, oldest first. *)
Definition newest_of {A} (n : Z) (l : list A) : list A := drop (length l - Z.to_nat n) l.

Lemma newest_of_small {A} n (l : list A) : zlen l <= n -> newest_of n l = l.
Proof. intros Hn. unfold newest_of, zlen in *. replace (_ - _)%nat with 0%nat by lia. apply drop_0. Qed.

Lemma zlen_newest_of {A} n (l : list A) : 0 <= n -> zlen (newest_of n l) = Z.min n (zlen l).
Proof. intros Hn. unfold newest_of, zlen. rewrite length_drop. lia. Qed.

Lemma newest_of_fmap {A B} (f : A -> B) n l : newest_of n (f <$> l) = f <$> newest_of n l.
Proof. unfold newest_of. by rewrite length_fmap, fmap_drop. Qed.

Lemma newest_of_drop {A} n k (l : list A) :
  k = 0%nat \/ n <= zlen l - Z.of_nat k -> 0 <= n -> newest_of n (drop k l) = newest_of n l.
Proof.
  unfold newest_of, zlen. intros [->|Hn] ?; [by rewrite drop_0|]. rewrite drop_drop, length_drop. f_equal. lia.
Qed.

(** Queueing one more ledger keeps the newest. *)
Lemma queue_append_newest {T} n (q : list (LedgerBucket T)) b :
  0 < n -> snd (queue_append n (newest_of n q) b) = newest_of n (q ++ [b]).
Proof.
  intros Hn. unfold queue_append. rewrite zlen_newest_of by lia. unfold newest_of, zlen. rewrite length_app. simpl.
  case_decide; simpl.
  - replace (length q - _)%nat with 0%nat by lia. replace (length q + 1 - _)%nat with 0%nat by lia. by rewrite !drop_0.
  - rewrite drop_app_le by lia. f_equal.
    replace (tail (drop (length q - Z.to_nat n) q)) with (drop 1 (drop (length q - Z.to_nat n) q))
      by (by destruct (drop _ q)).
    rewrite drop_drop. f_equal. lia.
Qed.

(** The buckets of consecutive ledgers from [lo] on. *)
Definition run_from {T} (lo : Z) (q : list (LedgerBucket T)) : Prop :=
  forall i b, q !! i = Some b -> LedgerSeq b = lo + Z.of_nat i.

Lemma newest_accepts {T} n lo (q : list (LedgerBucket T)) b :
  0 < n -> 0 <= lo -> run_from lo q -> LedgerSeq b = lo + zlen q -> is_u32 (LedgerSeq b) ->
  queue_accepts (newest_of n q) b.
Proof.
  intros Hn Hlo Hq Hb Hu. pose proof (zlen_newest_of n q) as Hlen. unfold newest_of in *.
  destruct (drop _ q) as [|h l] eqn:E; [done|]. simpl.
  assert (q !! (length q - Z.to_nat n)%nat = Some h) as Hh.
  { by rewrite <- (Nat.add_0_r (_ - _)), <- lookup_drop, E. }
  rewrite (Hq _ _ Hh), Hlen by lia. unfold zlen in *. rewrite u32_small; unfold_ints; lia.
Qed.

(** The fees of a ledger, Soroban and classic. *)
Definition ledger_fees (pass : string) (lcm : LedgerCloseMeta) : Res (list Z * list Z) :=
  rd ← NewLedgerTransactionReader pass lcm;
  ingest_fees_loop rd [] [].

(** The buckets of a history: ledgers with the fees [sel] picks. *)
Definition fee_buckets (sel : list Z * list Z -> list Z) (h : list (LedgerCloseMeta * (list Z * list Z)))
    : list (LedgerBucket (list Z)) :=
  (fun p => fee_bucket (fst p) (sel (snd p))) <$> h.

(** The window of capacity [n] holds the newest ledgers of [h], with the
    distribution of their fees. *)
Definition window_holds (n : Z) (sel : list Z * list Z -> list Z)
    (h : list (LedgerCloseMeta * (list Z * list Z))) (fw : FeeWindow) : Prop :=
  fee_inv fw /\ bcap (feesPerLedger fw) = n /\ view (feesPerLedger fw) = newest_of n (fee_buckets sel h).

Definition windows_hold (classic soroban : Z) (pass : string)
    (h : list (LedgerCloseMeta * (list Z * list Z))) (f : FeeWindows) : Prop :=
  networkPassPhrase f = pass /\ window_holds classic snd h (ClassicFeeWindow f) /\
  window_holds soroban fst h (SorobanInclusionFeeWindow f).

(** A history of consecutive ledgers from [lo] on, with their fees, which fit
    the counters. *)
Record history (pass : string) (lo : Z) (h : list (LedgerCloseMeta * (list Z * list Z))) : Prop := {
  hs_seq : forall i p, h !! i = Some p -> LedgerSequence (fst p) = lo + Z.of_nat i;
  hs_fees : forall p, p ∈ h -> ledger_fees pass (fst p) = Ok (snd p);
  hs_bounds : 0 < lo /\ lo + zlen h <= 2 ^ 31;
  hs_soroban : zlen (concat ((fst ∘ snd) <$> h)) < 2 ^ 32;
  hs_classic : zlen (concat ((snd ∘ snd) <$> h)) < 2 ^ 32;
}.

Lemma zlen_concat_drop {A} k (l : list (list A)) : zlen (concat (drop k l)) <= zlen (concat l).
Proof.
  rewrite <- (take_drop k l) at 2. rewrite concat_app, zlen_app. pose proof (zlen_nonneg (concat (take k l))). lia.
Qed.

Lemma fee_buckets_run sel pass lo h : history pass lo h -> run_from lo (fee_buckets sel h).
Proof.
  intros H i b Hb. apply list_lookup_fmap_Some in Hb as (p&->&Hp). simpl. by apply (hs_seq _ _ _ H).
Qed.

Lemma history_app pass lo h p : history pass lo (h ++ [p]) ->
  history pass lo h /\ LedgerSequence (fst p) = lo + zlen h /\ ledger_fees pass (fst p) = Ok (snd p).
Proof.
  intros [H1 H2 [H3 H3'] H4 H5]. rewrite fmap_app, concat_app, zlen_app in H4, H5. rewrite zlen_app in H3'.
  pose proof (zlen_nonneg h). csimpl in H4. csimpl in H5. rewrite app_nil_r in H4, H5.
  pose proof (zlen_nonneg (fst (snd p))). pose proof (zlen_nonneg (snd (snd p))).
  split_and!.
  - split; [|intros q Hq; apply H2; set_solver| |lia..].
    + intros i q Hq. apply H1. by apply lookup_app_l_Some.
    + rewrite zlen_cons, zlen_nil in H3'. lia.
  - rewrite (H1 (length h) p); [done|]. by rewrite lookup_app_r, Nat.sub_diag.
  - apply H2. set_solver.
Qed.

(** The next ledger is taken by a window. *)
Lemma window_takes n sel pass lo h p fw :
  0 < n -> history pass lo (h ++ [p]) -> zlen (concat ((sel ∘ snd) <$> (h ++ [p]))) < 2 ^ 32 ->
  window_holds n sel h fw -> takes fw (fst p) (sel (snd p)).
Proof.
  intros Hn Hh Hsz (Hi&Hc&Hv). destruct (history_app _ _ _ _ Hh) as (Hh'&Hs&_).
  pose proof (hs_bounds _ _ _ Hh) as [Hlo Hhi]. rewrite zlen_app, zlen_cons, zlen_nil in Hhi.
  pose proof (zlen_nonneg h).
  split_and!; [done| |].
  - rewrite Hv. apply (newest_accepts n lo); simpl; [done|lia|by eapply fee_buckets_run| |unfold_ints; lia].
    rewrite Hs. unfold fee_buckets, zlen. by rewrite length_fmap.
  - unfold window_fees. rewrite Hv. unfold newest_of. rewrite fmap_drop.
    rewrite fmap_app, concat_app, zlen_app in Hsz. csimpl in Hsz. rewrite app_nil_r in Hsz.
    pose proof (zlen_concat_drop (length (fee_buckets sel h) - Z.to_nat n) (BucketContent <$> fee_buckets sel h)) as Hd.
    unfold fee_buckets in Hd at 3. rewrite <- list_fmap_compose in Hd. unfold compose in *. simpl in *. lia.
Qed.

Lemma window_took n sel h p fw fw' :
  0 < n -> window_holds n sel h fw -> took fw fw' (fst p) (sel (snd p)) -> window_holds n sel (h ++ [p]) fw'.
Proof.
  intros Hn (Hi&Hc&Hv) (Hi'&Hv'&Hc'). split_and!; [done|congruence|].
  rewrite Hv', Hv, Hc, queue_append_newest by done. unfold fee_buckets. by rewrite fmap_app.
Qed.

(** Feeding both windows the next ledger of the history. *)
Lemma IngestFees_next {D} (rb : M D unit) classic soroban pass lo h p f d :
  0 < classic -> 0 < soroban -> history pass lo (h ++ [p]) -> windows_hold classic soroban pass h f ->
  exists f', IngestFees rb (fst p) (f, d) = (Ok tt, (f', d)) /\ windows_hold classic soroban pass (h ++ [p]) f'.
Proof.
  intros Hc Hs Hh (Hp&Hwc&Hws). destruct (history_app _ _ _ _ Hh) as (_&Hseq&Hfees).
  pose proof (hs_bounds _ _ _ Hh) as [Hlo Hhi]. rewrite zlen_app, zlen_cons, zlen_nil in Hhi. pose proof (zlen_nonneg h).
  unfold ledger_fees, mbind, Res_bind in Hfees. destruct (NewLedgerTransactionReader pass (fst p)) as [rd| |] eqn:Hrd; try done.
  destruct (IngestFees_ok rb (fst p) f d rd (fst (snd p)) (snd (snd p))) as (f'&Hrun&Hp'&Ht1&Ht2).
  - rewrite Hseq. unfold_ints. lia.
  - by rewrite Hp.
  - rewrite Hfees. by destruct (snd p).
  - apply (window_takes soroban fst pass lo h); [done|done|exact (hs_soroban _ _ _ Hh)|done].
  - apply (window_takes classic snd pass lo h); [done|done|exact (hs_classic _ _ _ Hh)|done].
  - exists f'. split; [done|]. split_and!; [congruence|by eapply (window_took _ snd)|by eapply (window_took _ fst)].
Qed.

Lemma NewFeeWindows_hold classic soroban pass :
  0 < classic <= 2 ^ 31 -> 0 < soroban <= 2 ^ 31 ->
  windows_hold classic soroban pass [] (NewFeeWindows classic soroban pass).
Proof.
  intros Hc Hs. split_and!; [done|..]; by (split_and!; [apply NewFeeWindow_inv|..]).
Qed.

End FeeLemmas.

(** ** Starting on a migrated database *)

Section WarmStart.
Context `{X : Sdk} `{ND : Nondet}.

(** The key [newGuardedDataMigration] derives from a name. *)
Definition done_key (name : string) : string := "Migration" +:+ name +:+ "Done".

(** Every registered migration is recorded as done. *)
Definition migrated (t : tables) : Prop :=
  forall name, name ∈ currentMigrations.*1 -> is_true t (done_key name).

Lemma run_bind {S A B} (m : M S A) (k : A -> M S B) s a s' : m s = (Ok a, s') -> (m ≫= k) s = k a s'.
Proof. intros H. unfold mbind, M_bind. by rewrite H. Qed.

Lemma run_must {S A} msg (m : M S A) s a s' : m s = (Ok a, s') -> must msg m s = (Ok a, s').
Proof. intros H. unfold must, attempt, mbind, M_bind. by rewrite H. Qed.

Lemma on_mdb_read {A} (m : M session A) d r :
  m_faults d = [] -> m (MkSession (m_view d) []) = (r, MkSession (m_view d) []) -> on_mdb m d = (r, d).
Proof.
  intros Hf Hm. unfold on_mdb. rewrite Hf, Hm. unfold m_view in *. destruct d as [c [t|] f]; simpl in *; by subst.
Qed.

Lemma getMetaBool_true key d :
  m_faults d = [] -> is_true (m_view d) key -> on_mdb (getMetaBool key) d = (Ok true, d).
Proof.
  intros Hf (v&Hk&Hv). apply on_mdb_read; [done|].
  unfold getMetaBool, getMetaValue, sql_select, statement, mbind, M_bind, of_res. simpl. by rewrite Hk, <- Hv.
Qed.

Lemma build_loop_done pass r todo mm d :
  m_faults d = [] ->
  (forall p, p ∈ todo -> is_true (m_view d) (done_key (fst p))) ->
  build_loop pass r todo mm d = (Ok mm, d).
Proof.
  intros Hf. revert mm. induction todo as [|[name f] todo IH]; intros mm Hk; [done|]. simpl.
  assert (newGuardedDataMigration name (f pass r) d = (Ok None, d)) as E.
  { unfold newGuardedDataMigration, mbind, M_bind, attempt. rewrite getMetaBool_true; [done|done|].
    apply (Hk (name, f)). by left. }
  unfold mbind at 1, M_bind at 1, attempt. rewrite E. apply IH. intros p Hp. apply Hk. by right.
Qed.

Lemma BuildMigrations_done pass r t :
  migrated t -> BuildMigrations pass r (MkMdb t None []) = (Ok [], MkMdb t (Some t) []).
Proof.
  intros Ht. unfold BuildMigrations, mbind at 1, M_bind at 1, attempt, db_Begin, mbind at 1, M_bind at 1.
  rewrite (on_mdb_read _ _ (Ok tt)); [|done..]. simpl. apply build_loop_done; [done|].
  intros [name f] Hp. rewrite range_map_perm in Hp. apply Ht. by apply (list_elem_of_fmap_2 fst) in Hp.
Qed.

(** The newest stored sequence, 0 when there is none. *)
Definition tip (t : tables) (hi : Z) : Prop :=
  (t_ledgers t = ∅ /\ hi = 0) \/ exists i, newest t i /\ Sequence i = hi.

(** The range of [GetMigrationLedgerRange]. *)
Definition migration_range (w hi : Z) : LedgerSeqRange :=
  {| First := if decide (w < hi) then hi - w else firstLedger; Last := hi |}.

Lemma GetMigrationLedgerRange_ok w hi d :
  cache_ok d -> s_faults (d_sess d) = [] -> tip (d_tab d) hi -> 0 <= w -> hi < 2 ^ 32 ->
  exists d', GetMigrationLedgerRange w d = (Ok (migration_range w hi), d') /\
    d_sess d' = d_sess d /\ cache_ok d'.
Proof.
  intros Hok Hf Htip Hw Hhi.
  assert (forall d', d_tab d' = d_tab d -> s_faults (d_sess d') = [] -> d_sess d' = d_sess d) as Hs.
  { intros [[] ?] H1 H2. unfold d_tab in H1. destruct (d_sess d). simpl in *. congruence. }
  assert (migration_range w hi = {| First := if decide (w < hi) then u32 (hi - w) else firstLedger; Last := hi |}) as ->.
  { unfold migration_range. case_decide; [|done]. rewrite u32_small; [done|]. unfold_ints. lia. }
  unfold GetMigrationLedgerRange, mbind, M_bind, attempt. destruct Htip as [[He ->]|(i&Hi&<-)].
  - unfold getLatestLedgerSequence, mbind, M_bind, gets. rewrite decide_False.
    2: { intros Hl. destruct Hok as (_&H&_). by apply H, newest_nonempty in Hl. }
    destruct (GetLedgerRange_db d) as [r d1] eqn:E.
    pose proof (GetLedgerRange_db_faults _ _ _ E Hf) as Hf1.
    apply GetLedgerRange_db_spec in E as (Ht&_&Hok1&Hr); [|done]. rewrite Hf in Hr.
    destruct Hr as [(lr&_&_&Hlr)|[[_ ->]|(?&_&?&[=])]]; [by apply newest_nonempty in Hlr|].
    exists d1. simpl. auto.
  - destruct (getLatestLedgerSequence_newest d i) as (d1&->&Ht&Hf1&Hok1); [done..|].
    exists d1. simpl. auto.
Qed.

Lemma on_db_GetMigrationLedgerRange w hi st :
  cache_ok (st_DB st) -> m_faults (st_handle st) = [] -> tip (m_view (st_handle st)) hi -> 0 <= w -> hi < 2 ^ 32 ->
  exists c, on_db (GetMigrationLedgerRange w) st = (Ok (migration_range w hi), MkStorage (st_handle st) c) /\
    cache_ok (st_DB (MkStorage (st_handle st) c)).
Proof.
  intros Hok Hf Htip Hw Hhi.
  destruct (GetMigrationLedgerRange_ok w hi (st_DB st)) as (d'&E&Hs&Hok'); [done..|].
  exists (d_cache d'). unfold on_db, zoom. rewrite E. unfold set_st_DB. rewrite Hs.
  destruct st as [[c [t|] f] ca]; (split; [done|]); destruct d'; simpl in *; by subst.
Qed.

Section Configured.
Context (cfg : StorageConfig).
#[local] Abbreviation classic := (cfg_ClassicFeeStatsLedgerRetentionWindow cfg).
#[local] Abbreviation soroban := (cfg_SorobanFeeStatsLedgerRetentionWindow cfg).
#[local] Abbreviation pass := (cfg_NetworkPassphrase cfg).

(** Windows the storage can start with: validation bounds the first two, and
    [buildMigrations] panics without the third. *)
Definition windows_ok : Prop :=
  0 < classic <= 2 ^ 31 /\ 0 < soroban <= 2 ^ 31 /\ Z.max classic soroban <= cfg_HistoryRetentionWindow cfg.

Lemma buildMigrations_done t c hi r fw :
  windows_ok -> cache_ok (MkDB (MkSession t []) c) -> migrated t -> tip t hi -> hi < 2 ^ 32 ->
  exists c', buildMigrations cfg r fw (MkStorage (MkMdb t None []) c) =
    (Ok [AsMigration fw (migration_range (Z.max classic soroban) hi)], MkStorage (MkMdb t (Some t) []) c') /\
    cache_ok (MkDB (MkSession t []) c').
Proof.
  intros (Hc&Hs&Hm) Hok Hmig Htip Hhi. unfold buildMigrations, mbind at 1, M_bind at 1.
  rewrite decide_False by lia. unfold mret, M_ret, mbind at 1, M_bind at 1.
  unfold must at 1, mbind at 1, M_bind at 1, attempt, on_handle, zoom at 1. simpl.
  rewrite BuildMigrations_done by done. unfold mret, M_ret, mbind, M_bind, must, mbind, M_bind, attempt.
  destruct (on_db_GetMigrationLedgerRange (Z.max classic soroban) hi
    (set_st_handle (MkMdb t (Some t) []) (MkStorage (MkMdb t None []) c))) as (c'&->&Hok'); [done..|lia|done|].
  exists c'. split; [|done]. unfold Append_mm, ApplicableRange_g, Empty. simpl.
  rewrite bool_decide_eq_false_2; [done|]. unfold firstLedger. case_decide; lia.
Qed.

(** Streaming the rest of a history into the fee windows. *)
Lemma stream_fees r lo past todo blobs fw st :
  0 < classic -> 0 < soroban -> history pass lo (past ++ todo) ->
  Forall2 (fun b p => lcm_Unmarshal b = Ok (fst p)) blobs todo ->
  Forall (fun p => First r <= LedgerSequence (fst p) <= Last r) todo ->
  windows_hold classic soroban pass past fw ->
  exists fw', stream_rows blobs apply_ledger ([AsMigration fw r], st) = (Ok tt, ([AsMigration fw' r], st)) /\
    windows_hold classic soroban pass (past ++ todo) fw'.
Proof.
  intros Hc Hs Hh HB. revert past fw Hh. induction HB as [|b p blobs todo Hb HB IH]; intros past fw Hh HF Hw.
  - exists fw. rewrite app_nil_r. split; [done|exact Hw].
  - apply Forall_cons in HF as [Hp HF]. rewrite cons_middle, app_assoc in Hh |- *.
    assert (history pass lo (past ++ [p])) as Hh1.
    { clear -Hh. induction todo as [|q todo IH] using rev_ind; [by rewrite app_nil_r in Hh|].
      rewrite app_assoc in Hh. apply IH. by apply history_app in Hh as [? _]. }
    destruct (IngestFees_next db_Rollback classic soroban pass lo past p fw (st_handle st)) as (fw1&Hrun&Hw1); [done..|].
    destruct (IH (past ++ [p]) fw1) as (fw'&Hst&Hw'); [done..|].
    exists fw'. split; [|done]. rewrite <- Hst. simpl. unfold mbind at 1, M_bind at 1, of_res. rewrite Hb.
    assert (apply_ledger (fst p) ([AsMigration fw r], st) = (Ok tt, ([AsMigration fw1 r], st))) as E.
    { unfold apply_ledger, Apply_mm, mm_loop, zoom1, zoom2, on_handle, zoom, mbind, M_bind, get. simpl.
      replace (IsLedgerIncluded _ _) with true by (symmetry; by apply included_spec).
      unfold Apply_g, applier_Apply, applier_run, mbind, M_bind. simpl. rewrite Hrun. simpl. by destruct st. }
    unfold mbind, M_bind. by rewrite E.
Qed.

Lemma ApplicableRange_fees fw r : ApplicableRange_mm [AsMigration fw r] = r.
Proof.
  change (Merge (MkLedgerSeqRange (First r) (Last r)) {| First := 0; Last := 0 |} = r).
  unfold Merge. destruct r as [f l]. simpl. destruct (Empty _) eqn:E; [|done]. by apply Empty_spec in E.
Qed.

(** The stored ledgers are those of the history, in order. *)
Definition stores (t : tables) (h : list (LedgerCloseMeta * (list Z * list Z))) : Prop :=
  Forall2 (fun row p => lcm_Unmarshal (snd row) = Ok (fst p) /\ fst row = LedgerSequence (fst p)) (ledger_rows t) h.

Lemma stores_seq t lo h i row : history pass lo h -> stores t h -> ledger_rows t !! i = Some row ->
  fst row = lo + Z.of_nat i.
Proof.
  intros Hh Hst Hi. destruct (Forall2_lookup_l _ _ _ _ _ Hst Hi) as (p&Hp&_&->). by eapply hs_seq.
Qed.

Lemma stores_tip t lo h : history pass lo h -> stores t h ->
  tip t (if decide (h = []) then 0 else lo + zlen h - 1).
Proof.
  intros Hh Hst. pose proof (Forall2_length _ _ _ Hst) as Hlen. case_decide as E.
  - left. split; [|done]. apply ledger_rows_nil. subst. by apply Forall2_nil_inv_r in Hst.
  - right. destruct h as [|p h _] using rev_ind; [done|].
    apply Forall2_app_inv_r in Hst as (rows&last_rows&Hr&Hl&Heq).
    apply Forall2_cons_inv_r in Hl as ([k b]&l'&[Hb Hk]&->%Forall2_nil_inv_r&->). simpl in *.
    exists (info_of (fst p)). split; [exists k, b, (fst p); by rewrite Heq, last_snoc|].
    simpl. apply history_app in Hh as (_&->&_). rewrite zlen_app, zlen_cons, zlen_nil. lia.
Qed.

(** The rows of the range of the fee windows: all but the oldest of them. *)
Lemma rows_of_range (rows : list (Z * string)) lo f l :
  (forall i row, rows !! i = Some row -> fst row = lo + Z.of_nat i) -> lo + zlen rows - 1 <= l ->
  filter (in_range f l) rows = drop (Z.to_nat (f - lo)) rows.
Proof.
  intros Hseq Hl. rewrite <- (take_drop (Z.to_nat (f - lo)) rows) at 1. rewrite filter_app.
  rewrite filter_none, filter_all; [done|..].
  - intros row (i&Hi)%list_elem_of_lookup. rewrite lookup_drop in Hi.
    pose proof (lookup_lt_Some _ _ _ Hi). apply Hseq in Hi. unfold in_range, zlen in *. lia.
  - intros row (i&Hi)%list_elem_of_lookup. apply lookup_take_Some in Hi as [Hi Hlt].
    apply Hseq in Hi. unfold in_range. lia.
Qed.

Lemma fee_window_rows t lo h w hi :
  history pass lo h -> stores t h -> h <> [] -> hi = lo + zlen h - 1 -> firstLedger <= lo -> 0 <= w ->
  let r := migration_range w hi in
  exists k, filter (in_range (First r) (Last r)) (ledger_rows t) = drop k (ledger_rows t) /\
    (k = 0%nat \/ w <= zlen h - Z.of_nat k) /\
    Forall (fun p => First r <= LedgerSequence (fst p) <= Last r) (drop k h).
Proof.
  intros Hh Hst Hne -> Hlo Hw r. pose proof (Forall2_length _ _ _ Hst) as Hlen.
  exists (Z.to_nat (First r - lo)). split_and!.
  - apply rows_of_range; [by intros; eapply stores_seq|]. subst r. simpl. unfold zlen. rewrite Hlen. lia.
  - subst r. simpl. case_decide; lia.
  - apply Forall_forall. intros p (i&Hi)%list_elem_of_lookup. rewrite lookup_drop in Hi.
    pose proof (lookup_lt_Some _ _ _ Hi). rewrite (hs_seq _ _ _ Hh _ _ Hi).
    change (Last r) with (lo + zlen h - 1). unfold zlen. lia.
Qed.

Lemma history_drop lo h k : history pass lo h -> (k <= length h)%nat -> history pass (lo + Z.of_nat k) (drop k h).
Proof.
  intros [H1 H2 [H3 H3'] H4 H5] Hk. split.
  - intros i p Hp. rewrite lookup_drop in Hp. rewrite (H1 _ _ Hp). lia.
  - intros p Hp. apply list_elem_of_lookup in Hp as (i&Hi). rewrite lookup_drop in Hi.
    apply H2. by eapply list_elem_of_lookup_2.
  - unfold zlen in *. rewrite length_drop. lia.
  - rewrite fmap_drop. eapply Z.le_lt_trans; [apply zlen_concat_drop|done].
  - rewrite fmap_drop. eapply Z.le_lt_trans; [apply zlen_concat_drop|done].
Qed.

Lemma windows_hold_drop h k w fw :
  Z.max classic soroban <= w -> 0 < classic -> 0 < soroban -> k = 0%nat \/ w <= zlen h - Z.of_nat k ->
  windows_hold classic soroban pass (drop k h) fw -> windows_hold classic soroban pass h fw.
Proof.
  intros Hw Hc Hs Hk (Hp&Hwc&Hws).
  assert (forall n sel fw, 0 < n <= w -> window_holds n sel (drop k h) fw -> window_holds n sel h fw) as Hd.
  { intros n sel fw1 Hn (H1&H2&H3). split_and!; [done..|]. rewrite H3. unfold fee_buckets.
    rewrite fmap_drop, newest_of_drop; [done| |lia]. unfold zlen in *. rewrite length_fmap. lia. }
  split_and!; [done|apply Hd; [lia|done]|apply Hd; [lia|done]].
Qed.

(** C13: Started on a database whose migrations are done, the daemon changes
    nothing in it and fills its fee windows from it: each window holds the fees of
    the newest ledgers of the database, as many as it retains, with their
    distribution, whatever range the other window and the migrations need. *)
Theorem mustInitializeStorage_warm st lo h :
  cfg_IngestLoadTest cfg = false -> windows_ok ->
  m_tx (st_handle st) = None -> m_faults (st_handle st) = [] -> cache_ok (st_DB st) ->
  migrated (m_committed (st_handle st)) -> stores (m_committed (st_handle st)) h ->
  history pass lo h -> firstLedger <= lo ->
  exists fw c, mustInitializeStorage cfg st = (Ok fw, MkStorage (st_handle st) c) /\
    cache_ok (st_DB (MkStorage (st_handle st) c)) /\
    windows_hold classic soroban pass h fw.
Proof.
  destruct st as [[t tx fs] c0]. simpl. intros Hlt Hok -> -> Hc0 Hmig Hst Hh Hlo.
  pose proof (stores_tip t lo h Hh Hst) as Htip. set (hi := if decide (h = []) then 0 else lo + zlen h - 1) in *.
  pose proof (hs_bounds _ _ _ Hh) as Hb.
  assert (hi < 2 ^ 32) as Hhi by (subst hi; case_decide; lia).
  pose proof Hok as (Hc&Hs&Hm). unfold mustInitializeStorage. rewrite Hlt.
  destruct (on_db_GetMigrationLedgerRange (cfg_HistoryRetentionWindow cfg) hi (MkStorage (MkMdb t None []) c0))
    as (c1&E1&Hc1); [done..|lia|done|].
  rewrite (run_bind _ _ _ _ _ (run_must _ _ _ _ _ E1)). cbv beta. simpl st_handle.
  set (fw0 := NewFeeWindows _ _ _).
  destruct (buildMigrations_done t c1 hi (migration_range (cfg_HistoryRetentionWindow cfg) hi) fw0)
    as (c2&E2&Hc2); [done..|].
  rewrite (run_bind _ _ _ _ _ E2). cbv zeta.
  set (r := migration_range (Z.max classic soroban) hi) in *.
  rewrite ApplicableRange_fees.
  set (st := MkStorage (MkMdb t (Some t) []) c2).
  assert (exists fw, with_local [AsMigration fw0 r] (stream_migrations r) st = (Ok [AsMigration fw r], st) /\
    windows_hold classic soroban pass h fw) as (fw&E3&Hw).
  { unfold with_local, stream_migrations.
    set (q := fun t => (filter (in_range (First r) (Last r)) (ledger_rows t)).*2).
    assert (zoom2 (on_handle (on_mdb (sql_select q))) ([AsMigration fw0 r], st) = (Ok (q t), ([AsMigration fw0 r], st)))
      as E by done.
    rewrite (run_bind _ _ _ _ _ E). subst q. cbv beta.
    destruct (decide (h = [])) as [->|Hne].
    - apply Forall2_nil_inv_r in Hst as ->. exists fw0. split; [done|]. by apply NewFeeWindows_hold.
    - destruct (fee_window_rows t lo h (Z.max classic soroban) hi) as (k&Hk&Hkn&HF);
        [done|done|done|by subst hi; repeat case_decide|done|lia|].
      fold r in Hk, HF. rewrite Hk.
      assert (k <= length h)%nat as Hkl.
      { destruct Hkn as [->|?]; unfold zlen in *; lia. }
      destruct (stream_fees r (lo + Z.of_nat k) [] (drop k h) (drop k (ledger_rows t)).*2 fw0 st) as (fw&Hrun&Hw);
        [lia|lia|by apply history_drop| |done|by apply NewFeeWindows_hold|].
      + apply Forall2_fmap_l. eapply Forall2_impl; [by apply Forall2_drop|]. by intros row p [? _].
      + exists fw. rewrite Hrun. split; [done|].
        eapply windows_hold_drop; [|lia|lia|exact Hkn|exact Hw]. lia. }
  rewrite (run_bind _ _ _ _ _ (run_must _ _ _ _ _ E3)).
  assert (on_handle (Commit_mm [AsMigration fw r]) st = (Ok (None, [AsMigration fw r]), MkStorage (MkMdb t None []) c2)) as E4
    by done.
  rewrite (run_bind _ _ _ _ _ E4).
  exists fw, c2. by split_and!.
Qed.

End Configured.
End WarmStart.

(** ** Witness *)

Section Witnesses.

#[local] Opaque bits.

Definition ex_storage_config : StorageConfig := MkStorageConfig 2 1 3 "" 64 false false.

(** A database of three ledgers whose migrations are done. *)
Definition ex_stored : tables :=
  set_meta {["MigrationTransactionsTableDone" := "true"; "MigrationEventsTableDone" := "true"]}
    (set_ledgers {[3 := bits 32 3; 4 := bits 32 4; 5 := bits 32 5]} empty_tables).

Definition ex_history : list (@LedgerCloseMeta ex_types * (list Z * list Z)) :=
  [(3, ([50], [200])); (4, ([50], [200])); (5, ([50], [200]))].

Definition ex_warm : storage := MkStorage (MkMdb ex_stored None []) zeroCache.

Lemma ex_stored_ledgers k b : t_ledgers ex_stored !! k = Some b -> 3 <= k <= 5 /\ b = bits 32 k.
Proof.
  unfold ex_stored. cbn [t_ledgers set_meta set_ledgers].
  rewrite !lookup_insert_Some, lookup_singleton_Some. intros [[<- <-]|[? [[<- <-]|[? [<- <-]]]]]; split; try done; lia.
Qed.

Lemma ex_warm_ok : cache_ok (X := ex_sdk) (st_DB ex_warm).
Proof.
  split; [|by split]. intros k b [Hk ->]%ex_stored_ledgers. split; [lia|].
  exists k. split; [|done]. apply ex_unmarshal. lia.
Qed.

Lemma ex_migrated : migrated (ST := ex_types) ex_stored.
Proof.
  assert (is_true ex_stored "MigrationTransactionsTableDone" /\ is_true ex_stored "MigrationEventsTableDone") as [H1 H2].
  { split; exists "true"; done. }
  intros name. simpl. rewrite !elem_of_cons. intros [->|[->|[]%elem_of_nil]]; [exact H1|exact H2].
Qed.

Lemma ex_stores : stores (X := ex_sdk) ex_stored ex_history.
Proof.
  unfold stores. assert (ledger_rows ex_stored = [(3, bits 32 3); (4, bits 32 4); (5, bits 32 5)]) as ->.
  { vm_compute. reflexivity. }
  repeat constructor; simpl; apply ex_unmarshal; lia.
Qed.

Lemma ex_history_ok : history (X := ex_sdk) "" 3 ex_history.
Proof.
  split.
  - intros i p Hp. do 3 (destruct i as [|i]; [by simplify_eq/=|]). done.
  - intros p. unfold ex_history. rewrite !elem_of_cons. intros [->|[->|[->|[]%elem_of_nil]]]; vm_compute; reflexivity.
  - split; [lia|vm_compute; discriminate].
  - vm_compute. reflexivity.
  - vm_compute. reflexivity.
Qed.

Lemma mustInitializeStorage_warm_witness :
  exists fw c, mustInitializeStorage (X := ex_sdk) ex_storage_config ex_warm = (Ok fw, MkStorage (st_handle ex_warm) c) /\
    view (feesPerLedger (ClassicFeeWindow fw)) = [MkLedgerBucket 4 20 [200]; MkLedgerBucket 5 25 [200]] /\
    view (feesPerLedger (SorobanInclusionFeeWindow fw)) = [MkLedgerBucket 5 25 [50]].
Proof.
  destruct (mustInitializeStorage_warm (X := ex_sdk) ex_storage_config ex_warm 3 ex_history)
    as (fw&c&Hrun&_&_&(_&_&Hc)&(_&_&Hs)).
  - reflexivity.
  - vm_compute. repeat split; discriminate.
  - reflexivity.
  - reflexivity.
  - apply ex_warm_ok.
  - apply ex_migrated.
  - apply ex_stores.
  - apply ex_history_ok.
  - vm_compute. discriminate.
  - exists fw, c. split; [exact Hrun|split; [exact Hc|exact Hs]].
Defined.

End Witnesses.
