(* ===== verification/DaemonMigrations.v ===== *)
(** * What the migrations of a start-up leave behind

    [mustInitializeStorage] of Daemon.v, whatever statement fails: every step
    inside the transaction leaves the committed tables and only grows the working
    copy, every step outside it changes at most guards, and the only step that
    publishes rows is the commit. *)

From S2P Require Import Prelude GoText Sdk SdkExample LedgerBucketWindow Tables DbTransaction DbEvent DbLedger Db FeeWindow Migration Frames Daemon.

Lemma must_inv {S A} msg (m : M S A) s r s' :
  must msg m s = (r, s') ->
  (exists a, r = Ok a /\ m s = (Ok a, s')) \/ (exists r1, m s = (r1, s') /\ forall a, r <> Ok a).
Proof.
  unfold must, Fatal, attempt, mbind, M_bind. destruct (m s) as [[a|e|p] s1]; intros [= <- <-]; eauto.
  all: right; eexists; by split.
Qed.

Section Handle.
Context `{X : Sdk} `{ND : Nondet}.

(** What no migration changes, committed or not. *)
Definition mig_frame (t : tables) :=
  (t_ledgers t, t_indexes t, t_hash_pk t, t_meta t !! pendingIndexesMetaKey).

Definition grows (t t' : tables) : Prop :=
  mig_frame t' = mig_frame t /\ forall k, is_true t k -> is_true t' k.

#[global] Instance grows_preorder : PreOrder grows.
Proof. split; [by intros t; split|]. intros a b c [A1 A2] [B1 B2]. split; [congruence|auto]. Qed.

(** A step inside the transaction. *)
Definition within (d d' : mdb) : Prop :=
  m_committed d' = m_committed d /\ m_faults d' `suffix_of` m_faults d /\
  forall t, m_tx d = Some t -> exists t', m_tx d' = Some t' /\ grows t t'.

#[global] Instance within_preorder : PreOrder within.
Proof.
  split; [intros d; split_and!; [done..|]; intros t Ht; by exists t|].
  intros a b c (A1&A2&A3) (B1&B2&B3). split_and!; [congruence|by etrans|]. intros t Ht.
  destruct (A3 _ Ht) as (t1&Ht1&G1). destruct (B3 _ Ht1) as (t2&Ht2&G2). exists t2. split; [done|by etrans].
Qed.

(** The done-guard of a registered migration. *)
Definition done_guard (key : string) : Prop := exists name, name ∈ currentMigrations.*1 /\ key = done_key name.

Lemma done_guard_pending key : done_guard key -> key <> pendingIndexesMetaKey.
Proof. by intros (name&_&->). Qed.

(** What the failure of a migration leaves of what is committed: every row, the
    schema and the metadata, the record of a bulk load included, but for
    done-guards that may have been written. *)
Definition kept (t t' : tables) : Prop :=
  content t' = content t /\ t_indexes t' = t_indexes t /\
  forall key, t_meta t' !! key = t_meta t !! key \/ (done_guard key /\ t_meta t' !! key = Some "true").

#[global] Instance kept_preorder : PreOrder kept.
Proof.
  split; [intros t; split_and!; [done..|by left]|]. intros a b c (A1&A2&A3) (B1&B2&B3).
  split_and!; [congruence..|]. intros key. destruct (B3 key) as [->|?]; [done|by right].
Qed.

Lemma kept_frame t t' : kept t t' -> mig_frame t' = mig_frame t.
Proof.
  intros (H1&H2&H3). unfold content in H1. unfold mig_frame. rewrite H2.
  destruct (H3 pendingIndexesMetaKey) as [->|[H _]]; [by simplify_eq; f_equal; congruence|].
  by apply done_guard_pending in H.
Qed.

Definition settles (d d' : mdb) : Prop :=
  kept (m_committed d) (m_committed d') /\ m_faults d' `suffix_of` m_faults d.

#[global] Instance settles_preorder : PreOrder settles.
Proof. split; [by intros d|]. intros a b c [A1 A2] [B1 B2]. split; by etrans. Qed.

Lemma within_settles d d' : within d d' -> settles d d'.
Proof. intros (H1&H2&_). split; [by rewrite H1|done]. Qed.

Lemma within_open d d' : within d d' -> m_tx d <> None -> m_tx d' <> None.
Proof. intros (_&_&H) Ho. destruct (m_tx d) as [t|]; [|done]. by destruct (H t) as (t'&->&_). Qed.

#[local] Hint Resolve within_settles within_open : core.

Lemma within_mdb {A} (m : M session A) d r d' :
  keeps (frames mig_frame) m -> m_tx d <> None -> on_mdb m d = (r, d') -> within d d'.
Proof.
  intros Hm Ho. unfold on_mdb, m_view. destruct (m_tx d) as [t|] eqn:Ht; [|done]. simpl.
  destruct (m _) as [r1 s1] eqn:E. intros [= <- <-]. apply Hm in E as (H1&H2&H3). simpl in *.
  split_and!; [done..|]. intros t1 [= <-]%(eq_trans (eq_sym Ht)). exists (s_tab s1). by split_and!.
Qed.

Lemma settles_select {A} (q : tables -> A) d r d' : on_mdb (sql_select q) d = (r, d') ->
  settles d d' /\ m_committed d' = m_committed d /\ m_tx d' = m_tx d.
Proof.
  unfold on_mdb, m_view. destruct (sql_select q _) as [r1 s1] eqn:E.
  apply (frames_select (fun t => t)) in E as (H1&_&H3). simpl in *.
  destruct (m_tx d) as [t|] eqn:Ht; intros [= <- <-]; simpl in *; rewrite ?Ht, H1; by split_and!.
Qed.

Lemma within_mtx {H A} (m : M (H * session) A) h d r h' d' :
  keeps (frames2 mig_frame) m -> on_mtx m (h, d) = (r, (h', d')) -> within d d'.
Proof.
  intros Hm. unfold on_mtx. destruct (m_tx d) as [t|] eqn:Ht.
  - destruct (m _) as [r1 [h1 s1]] eqn:E. intros [= <- <- <-]. apply Hm in E as (H1&H2&H3). simpl in *.
    split_and!; [done..|]. intros t1 [= <-]%(eq_trans (eq_sym Ht)). exists (s_tab s1). by split_and!.
  - destruct (m _) as [r1 [h1 s1]] eqn:E. intros [= <- <- <-]. reflexivity.
Qed.

Lemma settles_Rollback r d d' : db_Rollback d = (r, d') -> settles d d'.
Proof.
  unfold db_Rollback. intros [(a&d1&[= <- <-]&H)|(r1&[= <- <-]&Hr&_)]%bind_inv; [|by destruct (Hr d)].
  destruct (m_tx d) eqn:Ht; [|by injection H as _ <-].
  apply bind_inv in H as [([]&d2&(Hs&_&_)%settles_select&[= _ <-])|(r1&(Hs&_&_)%settles_select&_)]; done.
Qed.

(** Reading a guard. *)
Lemma getMetaBool_inv key s v s' : getMetaBool key s = (Ok v, s') ->
  exists str, t_meta (s_tab s) !! key = Some str /\ ParseBool str = Ok v.
Proof.
  unfold getMetaBool. rewrite bind_ok. intros (str&s1&H1&H2). unfold getMetaValue in H1. rewrite bind_ok in H1.
  destruct H1 as (rows&s2&[_ [[= ->]|[? ?]]]%sql_select_inv&H1); [|done].
  destruct (t_meta (s_tab s) !! key) as [x|]; [|done]. simpl in H1. injection H1 as -> _.
  exists str. split; [done|]. by injection H2.
Qed.

Lemma frames_getMetaBool {B} (f : tables -> B) key : keeps (frames f) (getMetaBool key).
Proof. unfold getMetaBool, getMetaValue. frames_tac. Qed.

(** Setting a flag other than the record of a bulk load. *)
Lemma frames_setMetaBool key : key <> pendingIndexesMetaKey -> keeps (frames mig_frame) (setMetaBool key true).
Proof.
  intros Hk. unfold setMetaBool, sql_exec. apply frames_statement. intros t a t' [= _ <-].
  unfold mig_frame, is_true. simpl. split; [by rewrite lookup_insert_ne by done|].
  intros k (v&Hv&Hp). destruct (decide (k = key)) as [->|]; [exists "true"; by rewrite lookup_insert_eq|].
  exists v. by rewrite lookup_insert_ne.
Qed.

Lemma done_key_pending name : done_key name <> pendingIndexesMetaKey.
Proof. done. Qed.

(** The guard of a migration, which operations on it keep. *)
Definition guard_of (m : guardedMigration) : option string * bool := (guardMetaKey m, alreadyMigrated m).

Definition guard_ok (m : guardedMigration) : Prop := forall key, guardMetaKey m = Some key -> done_guard key.

(** The migration of [name] is done, or one of [mm] that will record it. *)
Definition tracked (t : tables) (mm : MultiMigration) (name : string) : Prop :=
  is_true t (done_key name) \/ (Some (done_key name), false) ∈ guard_of <$> mm.

Lemma newGuarded_within name factory d r d' :
  (forall d0 r1 d1, m_tx d0 <> None -> factory d0 = (r1, d1) -> within d0 d1) ->
  m_tx d <> None -> newGuardedDataMigration name factory d = (r, d') ->
  within d d' /\ (forall g, r = Ok g -> match g with
    | None => is_true (m_view d') (done_key name)
    | Some m => guard_of m = (Some (done_key name), false) end).
Proof.
  intros Hf Ho. unfold newGuardedDataMigration. fold (done_key name).
  unfold mbind at 1, M_bind at 1, attempt.
  destruct (on_mdb (getMetaBool (done_key name)) d) as [r1 d1] eqn:E1.
  pose proof (within_mdb _ _ _ _ (frames_getMetaBool _ _) Ho E1) as W1.
  assert (m_tx d1 <> None) as Ho1 by eauto.
  set (build := (applier ← factory;
    mret (Some {| guardMetaKey := Some (done_key name); migration := applier; alreadyMigrated := false |}))
    : M mdb (option guardedMigration)).
  assert (forall r d', build d1 = (r, d') ->
    within d d' /\ (forall g, r = Ok g -> match g with None => is_true (m_view d') (done_key name)
      | Some m => guard_of m = (Some (done_key name), false) end)) as Hfac.
  { intros r0 d0 [(a&d2&H1&[= <- <-])|(r2&H1&_&H2)]%bind_inv; (split; [etrans; [exact W1|by eapply Hf]|]).
    - by intros g [= <-].
    - intros g ->. by destruct (H2 g). }
  destruct r1 as [[]|e|p].
  - intros [= <- <-]. split; [done|]. intros g [= <-].
    destruct W1 as (_&_&W). unfold on_mdb in E1. unfold m_view in *. destruct (m_tx d) as [t|] eqn:Ht; [|done]. simpl in *.
    destruct (getMetaBool _ _) as [r2 s2] eqn:E2. injection E1 as -> <-. simpl.
    apply getMetaBool_inv in E2 as (str&H1&H2). simpl in *.
    destruct (W t eq_refl) as (t'&[= <-]&_&Hg). apply Hg. by exists str.
  - intros H. by apply Hfac.
  - unfold mbind at 1, M_bind at 1. destruct (errors_Is e ErrEmptyDB); [intros H; by apply Hfac|].
    intros [= <- <-]. by split.
  - intros [= <- <-]. by split.
Qed.

Lemma factories_within name g pass r d r1 d1 :
  (name, g) ∈ currentMigrations -> m_tx d <> None -> g pass r d = (r1, d1) -> within d d1.
Proof.
  unfold currentMigrations. rewrite !elem_of_cons. intros Hin Ho Hrun.
  destruct Hin as [[= -> ->]|[[= -> ->]|[]%elem_of_nil]].
  - unfold newTransactionTableMigration in Hrun.
    assert (forall r2 d2, map_err (EWrap "couldn't delete table transactions")
      (on_mdb (sql_exec (fun t => Ok (set_txs [] t)))) d = (r2, d2) -> within d d2) as Hx.
    { intros r2 d2. unfold map_err. destruct (on_mdb _ d) as [r3 d3] eqn:E. intros H2.
      assert (d3 = d2) as <- by (destruct r3; by simplify_eq). eapply within_mdb; [|done..].
      apply frames_exec. by intros t t' [= <-]. }
    by apply bind_inv in Hrun as [([]&d2&H1&[= _ <-])|(r2&H1&_)]; apply Hx in H1.
  - by injection Hrun as _ <-.
Qed.

Lemma build_loop_within pass r todo mm d res d' :
  (forall p, p ∈ todo -> p ∈ currentMigrations) -> m_tx d <> None ->
  build_loop pass r todo mm d = (res, d') ->
  settles d d' /\ (forall mm', res = Ok mm' -> within d d' /\
    (exists new, mm' = mm ++ new /\ Forall guard_ok new /\ forall p, p ∈ todo -> tracked (m_view d') mm' (fst p))).
Proof.
  revert mm d. induction todo as [|[name f] todo IH]; intros mm d Hin Ho; simpl.
  { intros [= <- <-]. split; [done|]. intros mm' [= <-]. split; [done|]. exists [].
    rewrite app_nil_r. split_and!; [done|constructor|by intros p ?%elem_of_nil]. }
  unfold mbind at 1, M_bind at 1, attempt.
  destruct (newGuardedDataMigration name (f pass r) d) as [r1 d1] eqn:E1.
  apply newGuarded_within in E1 as [W1 Hg]; [| |done].
  2: { intros. eapply (factories_within name f); [|done..]. apply Hin. by left. }
  assert (m_tx d1 <> None) as Ho1 by eauto.
  destruct r1 as [[g|]|e|p]; [| | |intros [= <- <-]; split; [eauto|done]].
  - specialize (Hg _ eq_refl) as Hg. simpl in Hg. intros H2. apply IH in H2 as [S2 Hok]; [|intros; apply Hin; by right|done].
    split; [etrans; eauto|]. intros mm' ->. destruct (Hok mm' eq_refl) as (W2&new&->&HF&Ht).
    split; [by etrans|]. exists (g :: new). rewrite <- app_assoc in *. simpl in *. split_and!; [done| |].
    + constructor; [|done]. intros key Hk. unfold guard_of in Hg. rewrite Hk in Hg. injection Hg as -> _. exists name. split; [|done].
      apply (list_elem_of_fmap_2 fst _ (name, f)), Hin. by left.
    + intros p [->|Hp]%elem_of_cons; [|by apply Ht]. right. simpl. rewrite fmap_app. csimpl. rewrite Hg. apply elem_of_app. right. by left.
  - specialize (Hg _ eq_refl) as Hg. simpl in Hg. intros H2. apply IH in H2 as [S2 Hok]; [|intros; apply Hin; by right|done].
    split; [etrans; eauto|]. intros mm' ->. destruct (Hok mm' eq_refl) as (W2&new&->&HF&Ht).
    split; [by etrans|]. exists new. split_and!; [done..|].
    intros p [->|Hp]%elem_of_cons; [|by apply Ht]. left. simpl.
    destruct W2 as (_&_&W2). unfold m_view in *. destruct (m_tx d1) as [t|]; [|done].
    destruct (W2 t eq_refl) as (t'&->&_&G). by apply G.
  - unfold mbind, M_bind. destruct (db_Rollback d1) as [r2 d2] eqn:E2. apply settles_Rollback in E2.
    assert (settles d d2) by (etrans; eauto).
    destruct r2; intros [= <- <-]; split; done.
Qed.

Lemma BuildMigrations_within pass r d res d' :
  m_tx d = None -> BuildMigrations pass r d = (res, d') ->
  settles d d' /\ (forall mm, res = Ok mm -> m_committed d' = m_committed d /\
    (exists t, m_tx d' = Some t /\ grows (m_committed d) t) /\ Forall guard_ok mm /\
    forall name, name ∈ currentMigrations.*1 -> tracked (m_view d') mm name).
Proof.
  intros Ho. unfold BuildMigrations, db_Begin, mbind at 1, M_bind at 1, attempt, mbind at 1, M_bind at 1.
  destruct (on_mdb _ d) as [r1 d1] eqn:E1. apply settles_select in E1 as (S1&C1&T1).
  destruct r1 as [[]|e|p]; [| |intros [= <- <-]; by split].
  - unfold modify. intros H. apply build_loop_within in H as [S2 Hok]; [| |done].
    2: { intros p Hp. by rewrite range_map_perm in Hp. }
    split; [etrans; [exact S1|exact S2]|]. intros mm Hmm. destruct (Hok mm Hmm) as (W&new&->&HF&Ht).
    destruct W as (W1&_&W2). simpl in *. destruct (W2 _ eq_refl) as (t'&Ht'&G). split_and!; [congruence| |done|].
    + exists t'. split; [done|]. by rewrite <- C1.
    + intros name Hn. change (name ∈ currentMigrations.*1) in Hn.
      apply list_elem_of_fmap in Hn as (p&->&Hp). apply Ht. by rewrite range_map_perm.
  - unfold mbind, M_bind. destruct (db_Rollback d1) as [r2 d2] eqn:E2. apply settles_Rollback in E2.
    assert (settles d d2) by (by etrans). destruct r2; intros [= <- <-]; split; done.
Qed.

(** The rollbacks of a failed ingestion of fees. *)
Lemma with_rollback_inv {S D A} (rb : M D unit) (m : M S A) s d r s' d' :
  with_rollback rb m (s, d) = (r, (s', d')) -> d' = d \/ ((forall a, r <> Ok a) /\ d' = snd (rb d)).
Proof.
  unfold with_rollback. simpl. destruct (m s) as [[a|e|p] s1]; try (intros [= _ _ <-]; by left).
  destruct (rb d) as [[[]|e'|p] d1]; intros [= <- _ <-]; by right.
Qed.

Lemma IngestFees_handle {D} (rb : M D unit) meta f d r f' d' :
  IngestFees rb meta (f, d) = (r, (f', d')) -> d' = d \/ (r <> Ok tt /\ d' = snd (rb d)).
Proof.
  unfold IngestFees. intros [(x&[f1 d1]&[= <- <- <-]&H)|(r1&[= <- <- <-]&Hr&_)]%bind_inv; [|by destruct (Hr _ eq_refl)].
  assert (forall A B (m : M FeeWindows A) (k : A -> M (FeeWindows * D) B) g r g' e,
    (with_rollback rb m ≫= k) (g, d) = (r, (g', e)) ->
    (exists a g1, k a (g1, d) = (r, (g', e))) \/ e = d \/ ((forall b, r <> Ok b) /\ e = snd (rb d))) as Hstep.
  { intros A B m k g r0 g' e [(a&[g1 d1]&H1&H2)|(r1&H1&H2&H3)]%bind_inv.
    - apply with_rollback_inv in H1 as [->|[Ha _]]; [left; eauto|by destruct (Ha a)].
    - right. apply with_rollback_inv in H1 as [->|[_ ->]]; [by left|by right]. }
  apply Hstep in H as [(rd&f1&H)|[?|[Hr ?]]]; [|by left|right; by split].
  apply Hstep in H as [([sf cf]&f2&H)|[?|[Hr ?]]]; [|by left|right; by split].
  apply Hstep in H as [([]&f3&H)|[?|[Hr ?]]]; [|by left|right; by split].
  apply with_rollback_inv in H as [?|[Hr ?]]; [by left|right; by split].
Qed.

(** An operation on one migration: it never fails itself, keeps the guard, stays
    inside the transaction when it succeeds, and never loses committed rows. *)
Definition step_ok (op : guardedMigration -> M mdb (Res unit * guardedMigration)) : Prop :=
  forall m d r d', guard_ok m -> op m d = (r, d') ->
    settles d d' /\
    (forall x m', r = Ok (x, m') -> guard_of m' = guard_of m) /\
    (forall m', m_tx d <> None -> r = Ok (Ok tt, m') -> within d d').

Lemma applier_step_ok m op :
  (forall a d r d', op a d = (r, d') -> settles d d' /\ (forall a', r = Ok (Ok tt, a') -> within d d')) ->
  forall d r d', (('(r, a) ← op (migration m); mret (r, set_migration a m)) : M mdb (Res unit * guardedMigration)) d = (r, d') ->
  settles d d' /\ (forall x m', r = Ok (x, m') -> guard_of m' = guard_of m) /\
  (forall m', r = Ok (Ok tt, m') -> within d d').
Proof.
  intros Hop d r d' [([x a]&d1&H1&[= <- <-])|(r1&H1&_&Hr)]%bind_inv; apply Hop in H1 as [S1 W1].
  - split_and!; [done|by intros x0 m' [= <- <-]|]. intros m' [= -> _]. eauto.
  - split_and!; [done|intros x m' ->; by destruct (Hr (x, m'))|intros m' ->; by destruct (Hr (Ok tt, m'))].
Qed.

Lemma applier_run_ok a tx ev fee d r d' :
  keeps (frames2 mig_frame) tx -> keeps (frames2 mig_frame) ev ->
  (forall f d r f' d', fee (f, d) = (r, (f', d')) -> settles d d' /\ (r = Ok tt -> within d d')) ->
  applier_run a (on_mtx tx) (on_mtx ev) fee d = (r, d') ->
  settles d d' /\ (forall a', r = Ok (Ok tt, a') -> within d d').
Proof.
  intros Htx Hev Hfee. unfold applier_run. destruct a as [f l w|f l w|f l w].
  - destruct (on_mtx tx (w, d)) as [r1 [w1 d1]] eqn:E. intros [= <- <-]. apply within_mtx in E; eauto.
  - destruct (on_mtx ev (w, d)) as [r1 [w1 d1]] eqn:E. intros [= <- <-]. apply within_mtx in E; eauto.
  - destruct (fee (w, d)) as [r1 [w1 d1]] eqn:E. intros [= <- <-]. apply Hfee in E as [H1 H2].
    split; [done|]. intros a' [= -> _]. auto.
Qed.

Lemma Apply_g_ok meta : step_ok (fun m => if IsLedgerIncluded (ApplicableRange_g m) (LedgerSequence meta)
  then Apply_g m meta else mret (Ok tt, m)).
Proof.
  intros m d r d' Hm. destruct (IsLedgerIncluded _ _).
  2: { intros [= <- <-]. split_and!; [done|by intros ?? [= _ <-]|done]. }
  unfold Apply_g. destruct (alreadyMigrated m) eqn:Ha.
  { intros [= <- <-]. split_and!; [done|by intros ?? [= _ <-]|done]. }
  intros H. apply (applier_step_ok m (fun a => applier_Apply a meta)) in H as (H1&H2&H3); [split_and!; [exact H1|exact H2|intros; by eapply H3]|].
  clear. intros a d r d'. apply applier_run_ok.
  - apply frames_InsertTransactions. by intros.
  - apply frames_InsertEvents. by intros.
  - intros f d0 r0 f' d1 [->|[Hr ->]]%IngestFees_handle; [by split|]. split; [|done].
    destruct (db_Rollback d0) eqn:E. by apply settles_Rollback in E.
Qed.

Lemma settles_setMetaBool key d r d' : done_guard key ->
  on_mdb (setMetaBool key true) d = (r, d') -> settles d d'.
Proof.
  intros Hk H. destruct (m_tx d) as [t|] eqn:Ht.
  { apply within_settles.
    eapply within_mdb; [by apply frames_setMetaBool, done_guard_pending|by rewrite Ht|done]. }
  revert H. unfold on_mdb, m_view. rewrite Ht. simpl. destruct (setMetaBool key true _) as [r1 s1] eqn:E.
  intros [= <- <-]. unfold settles. simpl.
  pose proof (frames_setMetaBool _ (done_guard_pending _ Hk) _ _ _ E) as (_&_&HF). split; [|done].
  apply sql_exec_inv in E as [(t&_&[= <-]&->)|[_ ->]]; [|done].
  split_and!; [done..|]. intros k. simpl.
  destruct (decide (k = key)) as [->|]; [right; by rewrite lookup_insert_eq|left; by rewrite lookup_insert_ne].
Qed.

Lemma Commit_g_step_ok : step_ok Commit_g.
Proof.
  intros m d r d' Hm. unfold Commit_g. destruct (alreadyMigrated m) eqn:Ha.
  { intros [= <- <-]. split_and!; [done|by intros ?? [= _ <-]|done]. }
  destruct (guardMetaKey m) as [key|] eqn:Hk.
  2: { intros [= <- <-]. split_and!; [done|by intros ?? [= _ <-]|done]. }
  assert (forall r1 d1, applier_flushPending (migration m) d = (r1, d1) ->
    settles d d1 /\ (forall a', r1 = Ok (Ok tt, a') -> within d d1)) as Hf.
  { intros r1 d1. apply applier_run_ok; [apply frames_flushPending_txs; by intros|apply frames_flushPending_evs; by intros|].
    by intros f d0 r0 f' d2 [= _ _ <-]. }
  intros [([x a]&d1&H1&H2)|(r1&H1&_&Hr)]%bind_inv; apply Hf in H1 as [S1 W1].
  2: { split_and!; [done|intros x m' ->; by destruct (Hr (x, m'))|intros m' _ ->; by destruct (Hr (Ok tt, m'))]. }
  destruct x as [[]|e|p]; try (injection H2 as <- <-; split_and!; [done|by intros ?? [= _ <-]|done]).
  unfold observe, mbind, M_bind in H2. destruct (on_mdb _ d1) as [r2 d2] eqn:E2. injection H2 as <- <-.
  split_and!; [etrans; [done|]; eapply settles_setMetaBool; eauto|by intros ?? [= _ <-]|].
  intros m' Ho _. etrans; [by eapply W1|]. eapply within_mdb; [apply frames_setMetaBool; by apply done_guard_pending, Hm| |done].
  eapply within_open; [by eapply W1|done].
Qed.

Lemma guard_of_ok m m' : guard_of m' = guard_of m -> guard_ok m -> guard_ok m'.
Proof. intros [= Hk _] Hm key E. apply Hm. congruence. Qed.

Lemma guards_ok mm mm' : guard_of <$> mm' = guard_of <$> mm -> Forall guard_ok mm -> Forall guard_ok mm'.
Proof.
  revert mm'. induction mm as [|m mm IH]; intros [|m' mm'] E HF; try done. csimpl in E.
  apply Forall_cons in HF as [H1 H2]. injection E as E1 E2 E3. constructor; [|by apply IH].
  eapply guard_of_ok; [|exact H1]. unfold guard_of. congruence.
Qed.

(** A loop of such operations over the migrations. *)
Lemma mm_loop_step_ok op err mm d r d' :
  step_ok op -> Forall guard_ok mm -> mm_loop op err mm d = (r, d') ->
  settles d d' /\ (forall err' mm', r = Ok (err', mm') -> guard_of <$> mm' = guard_of <$> mm) /\
  (forall mm', m_tx d <> None -> r = Ok (None, mm') -> within d d').
Proof.
  intros Hop. revert err d r d'. induction mm as [|m mm IH]; intros err d r d' HF; simpl.
  { intros [= <- <-]. split_and!; [done|by intros ?? [= _ <-]|done]. }
  apply Forall_cons in HF as [Hm HF].
  intros [([x m1]&d1&H1&H)|(r1&H1&_&Hr)]%bind_inv; destruct (Hop _ _ _ _ Hm H1) as (S1&G1&W1).
  2: { split_and!; [done|intros e mm' ->; by destruct (Hr (e, mm'))|intros mm' _ ->; by destruct (Hr (None, mm'))]. }
  specialize (G1 _ _ eq_refl).
  assert (exists err1 d2, (match x with Ok _ => mret err | Err e => join_rollback err e | Panic p => panic p end) d1
      = (err1, d2) /\ settles d1 d2 /\ (x <> Ok tt -> forall e, err1 = Ok e -> e <> None) /\
      (x = Ok tt -> err1 = Ok err /\ d2 = d1)) as (err1&d2&E2&S2&Hne&Hsame).
  { destruct x as [[]|e|p]; [by eexists _, _|..|by eexists _, _].
    unfold join_rollback, attempt, mbind, M_bind. destruct (db_Rollback d1) as [[[]|e'|p] d2] eqn:E;
      apply settles_Rollback in E; eexists _, _; (split; [reflexivity|]); split_and!; try done;
      intros _ e0 [= <-]; by destruct err. }
  apply bind_inv in H as [(err2&d3&H2&H)|(r2&H2&_&Hr)]; rewrite E2 in H2; injection H2 as -> <-.
  2: { split_and!; [by etrans|intros e mm' ->; by destruct (Hr (e, mm'))|intros mm' _ ->; by destruct (Hr (None, mm'))]. }
  apply bind_inv in H as [([err3 mm3]&d3&H3&[= <- <-])|(r3&H3&_&Hr)]; pose proof (IH _ _ _ _ HF H3) as (S3&G3&W3).
  - split_and!; [by do 2 (etrans; [done|])|intros e mm' [= _ <-]; csimpl; by rewrite G1, (G3 _ _ eq_refl)|].
    intros mm' Ho [= -> _]. assert (err2 = None) as ->.
    { destruct err2 as [e2|]; [|done]. by apply mm_loop_some in H3. }
    assert (x = Ok tt) as ->.
    { destruct x as [[]|e|p]; [done|exfalso; by eapply Hne..]. }
    destruct (Hsame eq_refl) as [_ ->]. etrans; [by eapply W1|]. eapply W3; [|done].
    eapply within_open; [by eapply W1|done].
  - split_and!; [by do 2 (etrans; [done|])|intros e mm' ->; by destruct (Hr (e, mm'))|intros mm' _ ->; by destruct (Hr (None, mm'))].
Qed.

Lemma Apply_mm_ok mm meta d r d' :
  Forall guard_ok mm -> Apply_mm mm meta d = (r, d') ->
  settles d d' /\ (forall err mm', r = Ok (err, mm') -> guard_of <$> mm' = guard_of <$> mm) /\
  (forall mm', m_tx d <> None -> r = Ok (None, mm') -> within d d').
Proof. apply mm_loop_step_ok, Apply_g_ok. Qed.

Lemma guard_set_true t m name :
  guard_set t m -> guard_of m = (Some (done_key name), false) -> is_true t (done_key name).
Proof.
  intros [H|[H|(key&H1&H2)]] [= Hk Ha]; [congruence..|]. exists "true". split; [|done]. congruence.
Qed.

(** A commit publishes the transaction with the guards set, or loses no committed row. *)
Lemma Commit_mm_ok mm d t r d' :
  m_tx d = Some t -> Forall guard_ok mm -> Commit_mm mm d = (r, d') ->
  m_faults d' `suffix_of` m_faults d /\
  ((exists mm', r = Ok (None, mm') /\ guard_of <$> mm' = guard_of <$> mm /\ m_tx d' = None /\
      grows t (m_committed d') /\ forall m, m ∈ mm -> guard_set (m_committed d') m) \/
   ((forall mm', r <> Ok (None, mm')) /\ settles d d')).
Proof.
  intros Ht HF. unfold Commit_mm.
  intros [([err mm1]&d1&H1&H)|(r1&H1&_&Hr)]%bind_inv;
    destruct (mm_loop_step_ok _ _ _ _ _ _ Commit_g_step_ok HF H1) as (S1&G1&W1); pose proof S1 as [_ F1].
  2: { split; [done|]. right. split; [|done]. intros mm'. apply Hr. }
  destruct err as [e|]; [injection H as <- <-; split; [done|]; right; by split|].
  assert (m_tx d <> None) as Ho by (by rewrite Ht).
  pose proof (W1 _ Ho eq_refl) as (C1&_&Hg). destruct (Hg t Ht) as (t1&Ht1&Gt).
  destruct (commit_loop_ok _ _ _ _ Ho H1) as (_&_&Hset).
  revert H. unfold attempt, db_Commit, get, mbind, M_bind. rewrite Ht1.
  destruct (on_mdb _ d1) as [r2 d2] eqn:E2. apply settles_select in E2 as (S2&C2&T2).
  assert (m_faults d2 `suffix_of` m_faults d) as F2 by (destruct S2; by etrans).
  destruct r2 as [[]|e|p]; simpl; intros [= <- <-]; (split; [done|]); [left|right..].
  - exists mm1. unfold m_view. rewrite T2, Ht1. simpl. split_and!; [done|by apply (G1 None)|done|done|]. intros m Hm. by apply (Hset t1).
  - split; [done|]. by etrans.
  - split; [done|]. by etrans.
Qed.

(** ** The calls of the storage *)

Lemma frames_GetMigrationLedgerRange {B} (f : tables -> B) w : keeps (frames_db f) (GetMigrationLedgerRange w).
Proof.
  unfold GetMigrationLedgerRange, getLatestLedgerSequence.
  frames_tac; first [apply frames_GetLedgerRange|apply frames_on_cache].
Qed.

(** A call that only reads leaves the handle. *)
Lemma on_db_reads {A} (m : M DB A) st r st' :
  keeps (frames_db (fun t => t)) m -> on_db m st = (r, st') ->
  m_committed (st_handle st') = m_committed (st_handle st) /\ m_tx (st_handle st') = m_tx (st_handle st) /\
  m_faults (st_handle st') `suffix_of` m_faults (st_handle st).
Proof.
  intros Hm. unfold on_db, zoom. destruct (m (st_DB st)) as [r1 d1] eqn:E. intros [= <- <-].
  apply Hm in E as (H1&_&H3). unfold set_st_DB, set_m_view. simpl in *. unfold m_view in H1.
  destruct (m_tx (st_handle st)) as [t|] eqn:Ht; simpl in *; by rewrite H1.
Qed.

Lemma on_handle_inv {A} (m : M mdb A) st r st' :
  on_handle m st = (r, st') -> m (st_handle st) = (r, st_handle st').
Proof. unfold on_handle, zoom. destruct (m (st_handle st)) as [r1 h1]. by intros [= <- <-]. Qed.

(** ** Initialising the storage *)

Definition st_settles (st st' : storage) : Prop := settles (st_handle st) (st_handle st').
Definition st_within (st st' : storage) : Prop := within (st_handle st) (st_handle st').

Lemma apply_ledger_ok meta mm st r mm' st' :
  Forall guard_ok mm -> m_tx (st_handle st) <> None ->
  apply_ledger meta (mm, st) = (r, (mm', st')) ->
  st_settles st st' /\ (r = Ok tt -> st_within st st' /\ guard_of <$> mm' = guard_of <$> mm).
Proof.
  intros HF Ho. unfold apply_ledger, get, zoom1, zoom2, put, mbind, M_bind. simpl.
  destruct (on_handle (Apply_mm mm meta) st) as [r1 st1] eqn:E1. apply on_handle_inv in E1.
  destruct (Apply_mm_ok _ _ _ _ _ HF E1) as (S1&G1&W1).
  destruct r1 as [[err mm1]|e|p]; [|by intros [= <- <- <-]..]. simpl.
  destruct err as [err|]; intros [= <- <- <-]; [by split|]. split; [done|]. intros _. split; [by eapply W1|by eapply G1].
Qed.

Lemma stream_ok q mm st r mm' st' :
  Forall guard_ok mm -> m_tx (st_handle st) <> None ->
  stream_rows q apply_ledger (mm, st) = (r, (mm', st')) ->
  st_settles st st' /\ (r = Ok tt -> st_within st st' /\ guard_of <$> mm' = guard_of <$> mm).
Proof.
  revert mm st. induction q as [|b q IH]; intros mm st HF Ho; simpl.
  { intros [= <- <- <-]. split; [done|]. intros _. split; [unfold st_within; reflexivity|done]. }
  unfold mbind at 1, M_bind at 1, of_res. destruct (lcm_Unmarshal b) as [lcm|e|p]; [|intros [= <- <- <-]; by split..].
  unfold mbind, M_bind. destruct (apply_ledger lcm (mm, st)) as [r1 [mm1 st1]] eqn:E1.
  destruct (apply_ledger_ok _ _ _ _ _ _ HF Ho E1) as [S1 W1].
  destruct r1 as [[]|e|p]; [|intros [= <- <- <-]; by split..].
  destruct (W1 eq_refl) as [W1' G1]. intros E2.
  apply IH in E2 as [S2 W2]; [|by eapply guards_ok|by eapply within_open].
  split; [unfold st_settles in *; by etrans|]. intros ->. destruct (W2 eq_refl) as [W2' G2].
  split; [unfold st_within in *; by etrans|congruence].
Qed.

Lemma stream_migrations_ok rg mm st r st' :
  Forall guard_ok mm -> m_tx (st_handle st) <> None ->
  with_local mm (stream_migrations rg) st = (r, st') ->
  st_settles st st' /\ (forall mm', r = Ok mm' -> st_within st st' /\ guard_of <$> mm' = guard_of <$> mm).
Proof.
  intros HF Ho. unfold with_local, stream_migrations, mbind, M_bind, zoom2. simpl.
  destruct (on_handle _ st) as [r1 st1] eqn:E1. apply on_handle_inv in E1.
  pose proof (within_mdb _ _ _ _ (frames_select _ _) Ho E1) as W1.
  assert (st_settles st st1) as S1 by (by apply within_settles).
  destruct r1 as [q|e|p]; [|intros [= <- <-]; by split..].
  match goal with |- context [stream_rows q ?f ?s] => destruct (stream_rows q f s) as [r2 [mm2 st2]] eqn:E2 end.
  apply stream_ok in E2 as [S2 W2]; [|done|by eapply within_open].
  assert (st_settles st st2) by (unfold st_settles in *; by etrans).
  destruct r2 as [[]|e|p]; simpl; intros [= <- <-]; (split; [done|]); [|done..].
  intros mm' [= <-]. destruct (W2 eq_refl) as [W3 G3]. split; [unfold st_within in *; by etrans|done].
Qed.

Lemma AsMigration_tracked t mm fw r name : tracked t mm name -> tracked t (Append_mm mm (AsMigration fw r)) name.
Proof.
  unfold Append_mm. destruct (Empty _); [done|]. intros [?|Hin]; [by left|right]. rewrite fmap_app. apply elem_of_app. by left.
Qed.

Lemma AsMigration_guards mm fw r : Forall guard_ok mm -> Forall guard_ok (Append_mm mm (AsMigration fw r)).
Proof.
  intros HF. unfold Append_mm. destruct (Empty _); [done|]. apply Forall_app. split; [done|]. by constructor.
Qed.

Lemma buildMigrations_ok cfg rg fw st r st' :
  m_tx (st_handle st) = None -> buildMigrations cfg rg fw st = (r, st') ->
  st_settles st st' /\ (forall mm, r = Ok mm -> m_committed (st_handle st') = m_committed (st_handle st) /\
    (exists t, m_tx (st_handle st') = Some t /\ grows (m_committed (st_handle st)) t /\
       forall name, name ∈ currentMigrations.*1 -> tracked t mm name) /\ Forall guard_ok mm).
Proof.
  intros Ho. unfold buildMigrations. intros [([]&st1&H1&H)|(r1&H1&Hn&Hr)]%bind_inv.
  2: { revert H1 Hn. case_decide; intros [= <- <-] Hn; [|by destruct (Hn tt)].
       split; [unfold st_settles; reflexivity|]. by intros mm ?%Hr. }
  assert (st1 = st) as -> by (revert H1; case_decide; by intros [= <-]).
  apply bind_inv in H as [(mm&st2&H2&H)|(r2&H2&_&Hr)].
  2: { apply must_inv in H2 as [(mm&->&H2)|(r3&H2&_)]; apply on_handle_inv in H2;
         apply BuildMigrations_within in H2 as [S2 _]; try done; (split; [done|]); by intros mm1 ?%Hr. }
  apply must_inv in H2 as [(mm0&[= <-]&H2)|(r3&_&H2)]; [|by destruct (H2 mm)].
  apply on_handle_inv, BuildMigrations_within in H2 as [S2 W2]; [|done].
  destruct (W2 mm eq_refl) as (C2&(t&Ht&G)&HF&Htr).
  apply bind_inv in H as [(frange&st3&H3&[= <- <-])|(r3&H3&_&Hr)];
    apply must_inv in H3 as [(?&_&H3)|(?&H3&_)]; apply on_db_reads in H3 as (C3&T3&F3);
    try apply frames_GetMigrationLedgerRange;
    (split; [destruct S2 as [S2 F2]; split; [by rewrite C3|by etrans]|]); try (by intros mm0 ?%Hr);
    intros mm1 [= <-]; (split_and!; [congruence| |by apply AsMigration_guards]);
    (exists t; split_and!; [congruence|done|]); intros name Hn; apply AsMigration_tracked;
    specialize (Htr name Hn); unfold m_view in Htr; by rewrite Ht in Htr.
Qed.

(** Two steps that settle. *)
Lemma settles_reads {A} (m : M DB A) st r st' :
  keeps (frames_db (fun t => t)) m -> on_db m st = (r, st') -> st_settles st st'.
Proof. intros Hm H. destruct (on_db_reads _ _ _ _ Hm H) as (H1&_&H3). split; [by rewrite H1|done]. Qed.

(** The last step: the commit and its result. *)
Lemma commit_storage mm fw t st r st' :
  m_tx (st_handle st) = Some t -> Forall guard_ok mm ->
  ('(err, dataMigrations) ← on_handle (Commit_mm mm);
   match err with
   | Some err => Fatal "Could not commit data migrations" err
   | None => mret (windows_of dataMigrations fw)
   end) st = (r, st') ->
  m_faults (st_handle st') `suffix_of` m_faults (st_handle st) /\
  (((exists fw', r = Ok fw') /\ m_tx (st_handle st') = None /\ grows t (m_committed (st_handle st')) /\
      forall m, m ∈ mm -> guard_set (m_committed (st_handle st')) m) \/
   ((forall fw', r <> Ok fw') /\ st_settles st st')).
Proof.
  intros Ht HF [([err mm']&st1&H1&H2)|(r1&H1&Hn&Hr)]%bind_inv; apply on_handle_inv in H1;
    destruct (Commit_mm_ok _ _ _ _ _ Ht HF H1) as [F [(mm2&E&_&T&G&Hs)|[Hne S]]].
  - injection E as -> ->. injection H2 as <- <-. split; [done|]. left. split_and!; eauto.
  - destruct err as [err|]; [|by destruct (Hne mm')]. injection H2 as <- <-. split; [done|]. by right.
  - subst. by destruct (Hn (None, mm2)).
  - split; [done|]. by right.
Qed.

Lemma tracked_done t t' mm name :
  tracked t mm name -> grows t t' -> (forall m, m ∈ mm -> guard_set t' m) -> is_true t' (done_key name).
Proof.
  intros [Ht|(m&E&Hm)%list_elem_of_fmap] [_ G] Hs; [by apply G|]. eapply guard_set_true; [by apply Hs|done].
Qed.

Lemma tracked_guards t mm mm' name : guard_of <$> mm' = guard_of <$> mm -> tracked t mm name -> tracked t mm' name.
Proof. intros E [?|?]; [by left|right; by rewrite E]. Qed.

Lemma tracked_grows t t' mm name : grows t t' -> tracked t mm name -> tracked t' mm name.
Proof. intros [_ G] [?|?]; [left; auto|by right]. Qed.

(** What a start-up leaves, and that its schedule only advances. *)
Lemma mustInitializeStorage_ok cfg st r st' :
  cfg_IngestLoadTest cfg = false -> m_tx (st_handle st) = None ->
  mustInitializeStorage cfg st = (r, st') ->
  m_faults (st_handle st') `suffix_of` m_faults (st_handle st) /\
  (((exists fw, r = Ok fw) /\ m_tx (st_handle st') = None /\ migrated (m_committed (st_handle st')) /\
      grows (m_committed (st_handle st)) (m_committed (st_handle st'))) \/
   ((forall fw, r <> Ok fw) /\ kept (m_committed (st_handle st)) (m_committed (st_handle st')))).
Proof.
  intros Hlt Ho. unfold mustInitializeStorage. rewrite Hlt.
  assert (forall st1, st_settles st st1 -> (forall fw, r <> Ok fw) -> st_settles st1 st' ->
    m_faults (st_handle st') `suffix_of` m_faults (st_handle st) /\
    (((exists fw, r = Ok fw) /\ m_tx (st_handle st') = None /\ migrated (m_committed (st_handle st')) /\
        grows (m_committed (st_handle st)) (m_committed (st_handle st'))) \/
     ((forall fw, r <> Ok fw) /\ kept (m_committed (st_handle st)) (m_committed (st_handle st'))))) as Hfail.
  { intros st1 S1 Hr S2. assert (st_settles st st') as [S F] by (unfold st_settles in *; by etrans). split; [done|]. by right. }
  intros [(rg&st1&H1&H)|(r1&H1&_&Hr)]%bind_inv.
  2: { apply must_inv in H1 as [(?&_&H1)|(?&H1&_)]; apply settles_reads in H1;
         try apply frames_GetMigrationLedgerRange; by apply (Hfail st'). }
  apply must_inv in H1 as [(rg'&_&H1)|(r1&_&H1)]; [|by destruct (H1 rg)].
  pose proof (settles_reads _ _ _ _ (frames_GetMigrationLedgerRange _ _) H1) as S1.
  apply on_db_reads in H1 as (C1&T1&_); [|apply frames_GetMigrationLedgerRange].
  set (fw0 := NewFeeWindows _ _ _) in *.
  apply bind_inv in H as [(mm&st2&H2&H)|(r2&H2&_&Hr)]; destruct (buildMigrations_ok _ _ _ _ _ _ (eq_trans T1 Ho) H2) as [S2 W2].
  2: { by apply (Hfail st1). }
  destruct (W2 mm eq_refl) as (C2&(t&Ht&G&Htr)&HF). assert (m_tx (st_handle st2) <> None) as Ho2 by (by rewrite Ht).
  assert (st_settles st st2) as S12 by (unfold st_settles in *; by etrans).
  apply bind_inv in H as [(mm'&st3&H3&H)|(r3&H3&_&Hr)].
  2: { apply must_inv in H3 as [(?&_&H3)|(?&H3&_)]; apply stream_migrations_ok in H3 as [S3 _]; try done; by apply (Hfail st2). }
  apply must_inv in H3 as [(mm2&[= <-]&H3)|(r3&_&H3)]; [|by destruct (H3 mm')].
  apply stream_migrations_ok in H3 as [S3 W3]; [|done|done]. destruct (W3 mm' eq_refl) as [W G3].
  assert (st_settles st st3) as S13 by (unfold st_settles in *; by etrans).
  destruct W as (C3&_&W). destruct (W t Ht) as (t3&Ht3&Gt).
  destruct (commit_storage mm' fw0 t3 st3 r st' Ht3 (guards_ok _ _ G3 HF) H) as [F [((fw&->)&T&G4&Hs)|[Hr S4]]];
    [|by apply (Hfail st3)].
  split; [destruct S13 as [_ F3]; by etrans|]. left. split_and!; [eauto|done| |].
  - intros name Hn. eapply (tracked_done t3); [|done|done]. apply (tracked_grows t); [done|].
    eapply tracked_guards; [done|by apply Htr].
  - rewrite <- C1. by do 2 (etrans; [done|]).
Qed.

(** C14: Initialising the storage loses nothing, whatever statement fails:
    either it succeeds and, in one step, every registered migration is recorded as
    done, with the ledgers, the schema and a pending bulk load untouched; or the
    process ends and every committed row and the schema are what they were, and so
    is the metadata but for done-guards of registered migrations, which may have
    been set: when a migration fails to commit, the rollback ends the transaction
    and the guards of the migrations after it are written outside of it.  (No
    transaction is open, as at start-up, and the process is not in load-test
    mode, which skips the migrations.) *)
Theorem mustInitializeStorage_keeps cfg st r st' :
  cfg_IngestLoadTest cfg = false -> m_tx (st_handle st) = None ->
  mustInitializeStorage cfg st = (r, st') ->
  ((exists fw, r = Ok fw) /\ m_tx (st_handle st') = None /\ migrated (m_committed (st_handle st')) /\
     mig_frame (m_committed (st_handle st')) = mig_frame (m_committed (st_handle st))) \/
  ((forall fw, r <> Ok fw) /\ kept (m_committed (st_handle st)) (m_committed (st_handle st'))).
Proof.
  intros Hlt Ho H. destruct (mustInitializeStorage_ok _ _ _ _ Hlt Ho H) as [_ [(H1&H2&H3&H4&_)|H1]]; [left|by right].
  by split_and!.
Qed.

End Handle.

(** ** Witness *)

Section Witnesses.

(** Three stored ledgers whose migrations have not run. *)
Definition ex_cold : storage :=
  MkStorage (MkMdb (set_ledgers {[3 := bits 32 3; 4 := bits 32 4; 5 := bits 32 5]} empty_tables) None []) zeroCache.

Lemma mustInitializeStorage_keeps_witness :
  exists fw st', mustInitializeStorage (X := ex_sdk) ex_storage_config ex_cold = (Ok fw, st') /\
    migrated (ST := ex_types) (m_committed (st_handle st')) /\
    length (t_txs (m_committed (st_handle st'))) = 9%nat /\
    mig_frame (m_committed (st_handle st')) = mig_frame (m_committed (st_handle ex_cold)).
Proof.
  destruct (mustInitializeStorage (X := ex_sdk) ex_storage_config ex_cold) as [r st'] eqn:E.
  assert (length (t_txs (m_committed (st_handle st'))) = 9%nat /\ exists fw, r = Ok fw) as [Hl [fw Hr]].
  { pose proof (f_equal fst E) as E1. pose proof (f_equal (fun x => length (t_txs (m_committed (st_handle (snd x))))) E) as E2.
    vm_compute in E1, E2. simpl in E2. split; [symmetry; exact E2|]. eexists. symmetry. exact E1. }
  destruct (mustInitializeStorage_keeps (X := ex_sdk) ex_storage_config ex_cold r st') as [(_&_&Hm&Hf)|[Hn _]].
  - reflexivity.
  - reflexivity.
  - exact E.
  - exists fw, st'. rewrite <- Hr. split; [reflexivity|split; [exact Hm|split; [exact Hl|exact Hf]]].
  - destruct (Hn fw Hr).
Defined.

End Witnesses.
