(* ===== verification/DaemonRestart.v ===== *)
(** * Restarting the daemon

    The start-up of Daemon.v can end at any statement.  This file shows what the
    next start finds: a bulk load that was interrupted is still recorded, and a
    start-up that succeeds leaves a schema with all its indexes. *)

From S2P Require Import Prelude GoText Sdk SdkExample LedgerBucketWindow Tables DbTransaction DbEvent DbLedger Db FeeWindow Migration Ingest Backfill Frames Daemon DaemonMigrations.

(** ** The schema across a start-up *)

Section Schema.
Context `{X : Sdk} `{ND : Nondet} `{IJ : IndexJson} `{IJL : !IndexJsonLaws}.

(** The lookups of the readers have their indexes, and hashes are unique. *)
Definition usable (t : tables) : Prop :=
  hash_unique t = true /\ "idx_id_contract_id" ∈ t_indexes t /\ "idx_id_topic1" ∈ t_indexes t.

(** A bulk load is recorded with all the indexes it deferred. *)
Definition recorded (t : tables) : Prop :=
  exists json, t_meta t !! pendingIndexesMetaKey = Some json /\ index_Unmarshal json = Ok deferredIndexes.

Definition schema_ok (t : tables) : Prop :=
  recorded t \/ (t_meta t !! pendingIndexesMetaKey = None /\ usable t).

(** All that decides it. *)
Definition schema (t : tables) := (t_meta t !! pendingIndexesMetaKey, t_indexes t, t_hash_pk t).

Lemma schema_ok_same t t' : schema t' = schema t -> schema_ok t -> schema_ok t'.
Proof.
  intros [= H1 H2 H3] [(j&?&?)|[? (?&?&?)]].
  - left. exists j. split; congruence.
  - right. split; [congruence|]. unfold usable, hash_unique in *. by rewrite H2, H3.
Qed.

(** The schedule only advances. *)
Definition advances (s s' : session) : Prop := s_faults s' `suffix_of` s_faults s.

#[global] Instance advances_preorder : PreOrder advances.
Proof. split; [intros s; unfold advances; reflexivity|]. intros a b c H1 H2. unfold advances in *. by etrans. Qed.

Lemma advances_statement {A} (x : tables -> Res (A * tables)) : keeps advances (statement x).
Proof.
  intros s r s'. unfold statement, next_fault, advances.
  destruct (s_faults s) as [|[e|] fs]; [|intros [= _ <-]; by apply suffix_cons_r|];
    destruct (x (s_tab s)) as [[a t]|e|m]; intros [= _ <-]; simpl; try done; by apply suffix_cons_r.
Qed.

Lemma sql_faults_suffix fs fs' : fs' `suffix_of` fs -> sql_faults fs -> sql_faults fs'.
Proof. intros [k ->] H e He. apply H. apply elem_of_app. by right. Qed.

Lemma advances_in_transaction begin_msg commit_msg body :
  keeps advances body -> keeps advances (in_transaction begin_msg commit_msg body).
Proof.
  intros Hb s r s'. unfold in_transaction.
  destruct (map_err (EWrap begin_msg) _ s) as [r1 s1] eqn:E1.
  apply (keeps_map_err _ _ _ (advances_statement _)) in E1.
  destruct r1 as [[]|e|p]; [|by intros [= <- <-]..].
  match goal with |- context [match ?m s1 with _ => _ end] => destruct (m s1) as [r2 s2] eqn:E2 end.
  assert (advances s1 s2) as H2.
  { revert E2. apply keeps_bind; [apply _|exact Hb|]. intros _. apply keeps_map_err, advances_statement. }
  destruct r2 as [[]|e|p]; intros [= <- <-]; unfold advances in *; simpl; by etrans.
Qed.

Lemma advances_PrepareBulkLoad : keeps advances PrepareBulkLoad.
Proof.
  unfold PrepareBulkLoad. apply keeps_bind; [apply _|apply keeps_map_err, keeps_of_res, _|]. intros pending.
  apply advances_in_transaction. unfold prepare_step.
  repeat lazymatch goal with
    | |- keeps _ (mbind _ _) => apply keeps_bind; [apply _| |intros]
    | |- keeps _ (for_each _ _) => apply keeps_for_each; [apply _|intros]
    | |- keeps _ (map_err _ _) => apply keeps_map_err
    | |- keeps _ (sql_exec _) => apply advances_statement
    end.
Qed.

(** Building indexes. *)
Definition builds (s s' : session) : Prop :=
  t_meta (s_tab s') = t_meta (s_tab s) /\ t_hash_pk (s_tab s') = t_hash_pk (s_tab s) /\
  t_indexes (s_tab s) ⊆ t_indexes (s_tab s') /\ advances s s'.

#[global] Instance builds_preorder : PreOrder builds.
Proof.
  split; [by intros s; split_and!|]. intros a b c (A1&A2&A3&A4) (B1&B2&B3&B4).
  split_and!; [congruence|congruence|by etrans|by etrans].
Qed.

Lemma builds_statement {A} (x : tables -> Res (A * tables)) :
  (forall t a t', x t = Ok (a, t') -> t_meta t' = t_meta t /\ t_hash_pk t' = t_hash_pk t /\ t_indexes t ⊆ t_indexes t') ->
  keeps builds (statement x).
Proof.
  intros Hx s r s' H. pose proof (advances_statement _ _ _ _ H) as Ha. revert H. unfold statement, next_fault.
  destruct (s_faults s) as [|[e|] fs]; [|intros [= _ <-]; by split_and!|];
    destruct (x (s_tab s)) as [[a t]|e|m] eqn:E; intros [= _ <-]; try by split_and!.
  all: destruct (Hx _ _ _ E) as (?&?&?); by split_and!.
Qed.

Lemma builds_select {A} (q : tables -> A) : keeps builds (sql_select q).
Proof. apply builds_statement. by intros t a t' [= _ <-]. Qed.

Lemma builds_noop : keeps builds (sql_exec (fun t => Ok t)).
Proof. apply builds_statement. by intros t a t' [= _ <-]. Qed.

Lemma build_index_builds idx : idx ∈ deferredIndexes -> keeps builds (build_index idx).
Proof.
  intros Hin. unfold build_index. apply keeps_bind; [apply _|apply keeps_map_err, builds_select|]. intros n.
  case_decide; [apply keeps_ret, _|]. apply keeps_bind; [apply _| |intros; apply keeps_map_err, builds_noop].
  apply keeps_map_err. apply builds_statement. intros t a t'. rewrite deferred_ddl by done. unfold create_index, mbind, Res_bind.
  case_decide; [done|]. destruct (_ && negb _); [done|]. intros [= _ <-]. simpl. split_and!; [done..|apply union_subseteq_r].
Qed.

Lemma build_index_ok idx s s' : idx ∈ deferredIndexes -> build_index idx s = (Ok tt, s') -> Name idx ∈ t_indexes (s_tab s').
Proof.
  intros Hin. unfold build_index. rewrite bind_ok. intros (n&s1&[Ht [[= ->]|[? ?]]]%map_err_ok%sql_select_inv&Hrun); [|done].
  revert Hrun. destruct (decide (Name idx ∈ _)) as [Hi|Hi]; [rewrite decide_True by lia; intros [= <-]; by rewrite Ht|].
  rewrite decide_False by lia. rewrite bind_ok. intros ([]&s2&H1%map_err_ok%sql_exec_Ok_inv&H2%map_err_ok%sql_exec_Ok_inv).
  rewrite deferred_ddl in H1 by done. unfold create_index in H1. case_decide; [done|].
  destruct (_ && _) in H1; [done|]. injection H1 as H1. injection H2 as <-. rewrite <- H1. simpl. by apply elem_of_union_l, elem_of_singleton.
Qed.

Lemma build_all l s r s' :
  (forall idx, idx ∈ l -> idx ∈ deferredIndexes) -> for_each l build_index s = (r, s') ->
  builds s s' /\ (r = Ok tt -> forall idx, idx ∈ l -> Name idx ∈ t_indexes (s_tab s')).
Proof.
  revert s. induction l as [|idx l IH]; intros s Hl; simpl; [intros [= <- <-]; split; [done|]; by intros _ ? ?%elem_of_nil|].
  intros [([]&s1&H1&H2)|(r1&H1&_&Hr)]%bind_inv; pose proof (build_index_builds _ (Hl idx ltac:(by left)) _ _ _ H1) as B1.
  - apply build_index_ok in H1; [|apply Hl; by left].
    apply IH in H2 as [B2 H2]; [|intros; apply Hl; by right]. split; [by etrans|].
    intros -> i [->|Hi]%elem_of_cons; [|by apply H2]. destruct B2 as (_&_&Hsub&_). by apply Hsub.
  - split; [done|]. intros ->. by destruct (Hr tt).
Qed.

Lemma deferred_usable t : (forall idx, idx ∈ deferredIndexes -> Name idx ∈ t_indexes t) -> usable t.
Proof.
  intros Hall. rewrite <- Forall_forall in Hall. unfold deferredIndexes in Hall. rewrite !Forall_cons in Hall.
  destruct Hall as (H1&H2&H3&_). simpl in *. split_and!; [|done|done].
  unfold hash_unique. rewrite bool_decide_eq_true_2 by done. apply orb_true_r.
Qed.

(** Finalizing keeps the schema recoverable and, when it succeeds, usable. *)
Lemma FinalizeBulkLoad_schema s r s' :
  sql_faults (s_faults s) -> schema_ok (s_tab s) -> FinalizeBulkLoad s = (r, s') ->
  advances s s' /\ schema_ok (s_tab s') /\
  (r = Ok tt -> t_meta (s_tab s') !! pendingIndexesMetaKey = None /\ usable (s_tab s')).
Proof.
  intros Hsf Hok. unfold FinalizeBulkLoad, getMetaValue.
  unfold mbind at 1, M_bind at 1, attempt, mbind at 1, M_bind at 1.
  destruct (sql_select _ s) as [r1 s1] eqn:E1. pose proof (advances_statement _ _ _ _ E1) as A1.
  pose proof (sql_select_inv _ _ _ _ E1) as [T1 _].
  apply statement_read in E1 as [_ [->|(e&->&He)]].
  2: { rewrite (Hsf _ He). intros [= <- <-]. split_and!; [done|by rewrite T1|done]. }
  destruct Hok as [(json&Hj&Hu)|[Hn Hus]].
  2: { rewrite Hn. simpl. intros [= <- <-]. rewrite T1. split_and!; [done|by right|done]. }
  rewrite Hj. simpl. unfold mbind at 1, M_bind at 1, map_err at 1, of_res. rewrite Hu.
  assert (recorded (s_tab s1)) as Hrec by (rewrite T1; by exists json).
  assert (forall x, builds s1 x -> schema_ok (s_tab x)) as Hkeep.
  { intros x (M1&_). left. destruct Hrec as (j&?&?). exists j. by rewrite M1. }
  assert (forall (r : Res unit) x, builds s1 x -> r <> Ok tt -> advances s x /\ schema_ok (s_tab x) /\
    (r = Ok tt -> t_meta (s_tab x) !! pendingIndexesMetaKey = None /\ usable (s_tab x))) as Hfail.
  { intros r0 x Hb Hr. split_and!; [|by apply Hkeep|done]. destruct Hb as (_&_&_&A). by etrans. }
  intros [([]&s2&H2&H)|(r2&H2&_&Hr)]%bind_inv.
  all: assert (builds s1 s2) as B2 || assert (builds s1 s') as B2.
  all: try (revert H2; unfold openIndexBuildSession; apply keeps_bind; [apply _|apply keeps_map_err, builds_select|];
            intros; apply keeps_map_err, builds_noop).
  2: { apply Hfail; [done|]. intros ->. by destruct (Hr tt). }
  apply bind_inv in H as [([]&s3&H3&H)|(r3&H3&_&Hr)]; apply build_all in H3 as [B3 Hall]; try done.
  2: { apply Hfail; [by etrans|]. intros ->. by destruct (Hr tt). }
  assert (builds s1 s3) as B13 by (by etrans). specialize (Hall eq_refl).
  revert H. unfold map_err. destruct (sql_exec _ s3) as [r4 s4] eqn:E4. pose proof (advances_statement _ _ _ _ E4) as A4.
  destruct r4 as [[]|e|p].
  - intros [= <- <-]. apply sql_exec_Ok_inv in E4. injection E4 as E4.
    assert (t_meta (s_tab s4) !! pendingIndexesMetaKey = None /\ usable (s_tab s4)) as Hd.
    { rewrite <- E4. split; [simpl; by rewrite lookup_delete_eq|]. by apply deferred_usable. }
    split_and!; [|by right|done]. destruct B13 as (_&_&_&A3). etrans; [exact A1|]. etrans; [exact A3|exact A4].
  - intros [= <- <-]. apply statement_cases in E4 as [(e'&_&T4&_)|(_&[(?&[=]&_)|(_&[(?&_&[=])|(?&[=])])])].
    split_and!; [|by rewrite T4; apply Hkeep|done]. destruct B13 as (_&_&_&A3). etrans; [exact A1|]. etrans; [exact A3|exact A4].
  - apply statement_cases in E4 as [(e'&[=]&_)|(_&[(?&[=]&_)|(_&[(?&[=]&_)|(?&[=])])])].
Qed.

End Schema.

(** ** The backfill keeps the schema *)

(** Loops of a backfill over calls that keep a relation. *)
Section ChunkKeeps.
Context {S : Type} (R : relation S) `{!PreOrder R}.
Context (mk : M S unit) (prep fill : Z -> Z -> M S unit) (latest : M S Z) (prev : Z -> Z -> Z).
Context (Hmk : keeps R mk) (Hprep : forall l r, keeps R (prep l r)) (Hfill : forall l r, keeps R (fill l r)).
Context (Hlatest : keeps R latest).

Ltac chunk_tac :=
  repeat lazymatch goal with
    | |- keeps _ (mret _) => apply keeps_ret; apply _
    | |- keeps _ (fail _) => apply keeps_fail; apply _
    | |- keeps _ (panic _) => apply keeps_panic; apply _
    | |- keeps _ (mbind _ _) => apply keeps_bind; [apply _| |intros]
    | |- keeps _ (map_err _ _) => apply keeps_map_err
    | |- keeps _ mk => exact Hmk
    | |- keeps _ (prep _ _) => apply Hprep
    | |- keeps _ (fill _ _) => apply Hfill
    | |- keeps _ latest => exact Hlatest
    | |- keeps _ (match ?x with _ => _ end) => destruct x
    end.

Lemma keeps_backfill_loop fuel ds n i l r : keeps R (backfill_loop mk prep fill latest fuel ds n i l r).
Proof. revert i l r. induction fuel as [|fuel IH]; intros i l r; simpl; chunk_tac; apply IH. Qed.

Lemma keeps_frontfill_loop fuel l r : keeps R (frontfill_loop fill fuel l r).
Proof. revert l. induction fuel as [|fuel IH]; intros l; simpl; chunk_tac; apply IH. Qed.

Lemma keeps_setBounds b w c : keeps R (setBounds latest b w c).
Proof. unfold setBounds. chunk_tac. Qed.

Lemma keeps_runBackfill b bounds : keeps R (runBackfill mk prep fill latest b bounds).
Proof. unfold runBackfill, backfillChunks. chunk_tac. apply keeps_backfill_loop. Qed.

Lemma keeps_frontfill_once bounds : keeps R (frontfill_once mk prep fill latest prev bounds).
Proof. unfold frontfill_once, frontfillChunks. chunk_tac. apply keeps_frontfill_loop. Qed.

Lemma keeps_runFrontfill b bounds : keeps R (runFrontfill mk prep fill latest prev b bounds).
Proof. unfold runFrontfill. chunk_tac; apply keeps_frontfill_once. Qed.

End ChunkKeeps.

Section BackfillFrame.
Context `{X : Sdk} `{ND : Nondet}.

(** What ingestion leaves alone. *)
Definition bf_frame (t : tables) := (t_meta t, t_indexes t, t_hash_pk t).

Definition frames_sv (s s' : Service) : Prop := frames_db bf_frame (sv_db s) (sv_db s').

#[export] Instance frames_sv_preorder : PreOrder frames_sv.
Proof. split; [intros s; apply frames_db_preorder|intros a b c; apply frames_db_preorder]. Qed.

(** The tables of the write transaction. *)
Definition frames_w (w w' : writeTx) : Prop := bf_frame (s_tab (w_tx w')) = bf_frame (s_tab (w_tx w)).

#[export] Instance frames_w_preorder : PreOrder frames_w.
Proof. split; [by intros w|]. intros a b c. unfold frames_w. congruence. Qed.

Lemma frames_txWriter {A} (m : M (transactionHandler * session) A) :
  keeps (frames2 bf_frame) m -> keeps frames_w (with_txWriter m).
Proof. intros Hm. eapply keeps_zoom; [exact Hm|]. by intros w [h s] [H _]. Qed.

Lemma frames_eventWriter {A} (m : M (eventHandler * session) A) :
  keeps (frames2 bf_frame) m -> keeps frames_w (with_eventWriter m).
Proof. intros Hm. eapply keeps_zoom; [exact Hm|]. by intros w [h s] [H _]. Qed.

Lemma frames_ledgerWriter {A} (m : M session A) : keeps (frames bf_frame) m -> keeps frames_w (with_ledgerWriter m).
Proof. intros Hm. eapply keeps_zoom; [exact Hm|]. by intros w s [H _]. Qed.

Lemma frames_ingestLedger lcm : keeps frames_w (ingestLedgerCloseMeta lcm).
Proof.
  unfold ingestLedgerCloseMeta. apply keeps_bind; [apply _| |intros _; apply keeps_bind; [apply _| |intros _]].
  - apply frames_ledgerWriter, frames_exec. intros t t'. unfold insert_ledger_row, mbind, Res_bind.
    destruct (lcm_MarshalBinary lcm); [|done..]. case_match; intros [= <-]; done.
  - apply frames_txWriter, frames_InsertTransactions. by intros.
  - apply frames_eventWriter, frames_InsertEvents. by intros.
Qed.

Lemma frames_flush_trim seq : keeps frames_w (flushWriters ;; trimTables seq).
Proof.
  unfold flushWriters, trimTables, trimLedgers, trimTransactions, trimEvents.
  apply keeps_bind; [apply _| |intros _].
  - apply keeps_bind; [apply _|apply frames_txWriter, frames_flushPending_txs; by intros|intros _].
    apply frames_eventWriter, frames_flushPending_evs. by intros.
  - apply keeps_bind; [apply _|apply keeps_get, _|intros w].
    destruct (trim_cutoff _ _); repeat (apply keeps_bind; [apply _| |intros _]);
      first [apply frames_ledgerWriter|apply frames_txWriter|apply frames_eventWriter];
      try (apply keeps_ret, _); try apply frames_zoom2; apply frames_exec; by intros t t' [= <-].
Qed.

Lemma Commit_advances lcm w d r w' d' :
  Commit lcm (w, d) = (r, (w', d')) -> advances (d_sess d) (d_sess d').
Proof.
  intros H. change (advances (d_sess (snd (w, d))) (d_sess (snd (w', d')))). revert H.
  generalize (w, d), (w', d'). intros p p'. revert p r p'.
  change (keeps (fun p p' : writeTx * DB => advances (d_sess (snd p)) (d_sess (snd p'))) (Commit lcm)).
  assert (PreOrder (fun p p' : writeTx * DB => advances (d_sess (snd p)) (d_sess (snd p')))) as HP.
  { split; [intros p; reflexivity|intros a b c; apply transitivity]. }
  unfold Commit, commitAndUpdateCache, tx_Commit, postCommit.
  assert (forall A (m : M writeTx A), keeps (fun p p' : writeTx * DB => advances (d_sess (snd p)) (d_sess (snd p'))) (zoom1 m)) as H1.
  { intros A m. eapply (keeps_zoom1 _ (fun _ _ => True)); [by intros ???|]. intros; simpl; reflexivity. }
  assert (forall A (m : M DB A), keeps (fun d d' => advances (d_sess d) (d_sess d')) m ->
    keeps (fun p p' : writeTx * DB => advances (d_sess (snd p)) (d_sess (snd p'))) (zoom2 m)) as H2.
  { intros A m Hm. by eapply (keeps_zoom2 _ _ _ Hm). }
  repeat lazymatch goal with
    | |- keeps _ (mbind _ _) => apply keeps_bind; [done| |intros]
    | |- keeps _ get => apply keeps_get, HP
    | |- keeps _ (fail _) => apply keeps_fail, HP
    | |- keeps _ (zoom1 _) => apply H1
    | |- keeps _ (zoom2 _) => apply H2
    | |- keeps _ (match ?x with _ => _ end) => destruct x
    end.
  - apply keeps_modify. intros ?. unfold advances. simpl. reflexivity.
  - apply keeps_modify. intros ?. unfold advances. simpl. reflexivity.
  - eapply keeps_zoom; [apply advances_statement|]. done.
Qed.

(** A commit of a working copy that has the handle's schema. *)
Lemma Commit_frames lcm w d r w' d' :
  Commit lcm (w, d) = (r, (w', d')) -> bf_frame (s_tab (w_tx w)) = bf_frame (d_tab d) -> frames_db bf_frame d d'.
Proof.
  intros H Hf. pose proof (Commit_advances _ _ _ _ _ _ H) as Ha.
  assert (bf_frame (d_tab d') = bf_frame (d_tab d)) as Hd.
  { apply Commit_cases in H as [[_ ->]|(w1&H1&_&_&->&_)]; [done|]. apply frames_flush_trim in H1. unfold frames_w in H1. congruence. }
  split_and!; [done| |done]. injection Hd as Hm _ _. unfold is_true, d_tab in *. by rewrite Hm.
Qed.

Lemma with_new_tx_frames window pass body :
  (forall w s r w' s', body (w, s) = (r, (w', s')) -> bf_frame (s_tab (w_tx w)) = bf_frame (d_tab (sv_db s)) ->
     frames_sv s s') ->
  keeps frames_sv (with_new_tx window pass body).
Proof.
  intros Hb s r s'. unfold with_new_tx.
  set (fr := match sv_tx_faults s with [] => _ | _ => _ end). destruct fr as [faults rest0].
  unfold NewTx, mbind, M_bind, on_session, zoom. simpl.
  destruct (sql_select (fun t => t) (d_sess (sv_db s))) as [r0 s0] eqn:E0.
  pose proof (frames_select bf_frame _ _ _ _ E0) as F0. apply sql_select_inv in E0 as [T0 Hr0].
  destruct Hr0 as [->|[e ->]]; [|by intros [= <- <-]]. simpl.
  match goal with |- context [body ?p] => destruct (body p) as [r1 [w1 s1]] eqn:E1 end.
  destruct (Rollback w1). intros [= <- <-].
  apply Hb in E1; [|simpl; unfold d_tab; simpl; by rewrite T0].
  unfold frames_sv, frames_db in *. simpl in *. by etrans.
Qed.

Lemma ingest_fetched_frames fetches last :
  keeps (fun p p' : writeTx * Service => frames_w (fst p) (fst p') /\ snd p' = snd p) (ingest_fetched fetches last).
Proof.
  set (R := fun p p' : writeTx * Service => _).
  assert (PreOrder R) as HP.
  { split; [by intros p|]. intros a b c [A1 A2] [B1 B2]. split; [by etrans|congruence]. }
  revert last. induction fetches as [|[lcm|e|p] fetches IH]; intros last; simpl;
    [apply keeps_ret, _| |apply keeps_fail, _|apply keeps_panic, _].
  apply keeps_bind; [done| |intros _; apply IH].
  eapply keeps_zoom1; [apply frames_ingestLedger|]. by intros.
Qed.

Lemma frames_ingestRange window pass GetLedger from to : keeps frames_sv (ingestRange window pass GetLedger from to).
Proof.
  unfold ingestRange. apply keeps_bind; [apply _| |intros _; apply keeps_modify].
  2: { intros s. unfold frames_sv. case_decide; simpl; reflexivity. }
  apply with_new_tx_frames. intros w s r w' s' H Hf.
  apply bind_inv in H as [(last&[w1 s1]&[H1 H2]%ingest_fetched_frames&H)|(r1&[H1 H2]%ingest_fetched_frames&_)];
    simpl in *; subst; [|reflexivity].
  destruct last as [lcm|]; [|injection H as _ _ <-; reflexivity].
  unfold commit_tx, zoom in H. simpl in H. destruct (Commit lcm (w1, sv_db s)) as [r2 [w2 d2]] eqn:E.
  injection H as _ _ <-. unfold frames_sv. simpl. eapply Commit_frames; [done|]. unfold frames_w in H1. congruence.
Qed.

Context {DS : DataStore}.

Definition frames_bf (b b' : bf_state) : Prop := frames_sv (fst b) (fst b').

#[export] Instance frames_bf_preorder : PreOrder frames_bf.
Proof. split; [intros b; apply frames_sv_preorder|intros a b c; apply frames_sv_preorder]. Qed.

Lemma frames_verify : keeps (frames_db bf_frame) verifyDbGapless.
Proof.
  unfold verifyDbGapless, getLedgerCountInRange. frames_tac; first [apply frames_GetLedgerRange|apply frames_on_session; frames_tac].
Qed.

Lemma frames_RunBackfill window ckpt pass b : keeps frames_bf (RunBackfill window ckpt pass b).
Proof.
  assert (forall A (m : M Service A), keeps frames_sv m -> keeps frames_bf (zoom1 m)) as H1.
  { intros A m Hm. by eapply (keeps_zoom1 _ _ _ Hm). }
  assert (keeps frames_bf (zoom1 (zoom sv_db set_sv_db verifyDbGapless))) as Hverify.
  { apply H1. eapply keeps_zoom; [apply frames_verify|]. done. }
  assert (keeps frames_bf next_tip) as Htip.
  { intros [s [|x l]] r s'; unfold next_tip; simpl; intros [= <- <-]; unfold frames_bf; simpl; reflexivity. }
  assert (forall l r, keeps frames_bf (zoom1 (ingestRange window pass ds_GetLedger l r))) as Hfill.
  { intros l r. apply H1, frames_ingestRange. }
  unfold RunBackfill. cbv zeta.
  apply keeps_bind; [apply _|exact Hverify|intros _].
  apply keeps_bind; [apply _|apply keeps_map_err, keeps_setBounds; [apply _|done]|intros bounds].
  apply keeps_bind; [apply _|apply keeps_runBackfill; try apply _; intros; try apply keeps_of_res; try apply _; done|intros [b1 bounds1]].
  apply keeps_bind; [apply _|apply keeps_runFrontfill; try apply _; intros; try apply keeps_of_res; try apply _; done|intros [b2 bounds2]].
  apply keeps_bind; [apply _|exact Hverify|intros [lo hi]]. apply keeps_ret, _.
Qed.

End BackfillFrame.

(** ** The whole start-up *)

Section Startup.
Context `{X : Sdk} `{ND : Nondet} `{IJ : IndexJson} `{IJL : !IndexJsonLaws} {DS : DataStore}.
Context (cfg : StorageConfig) (ledgersPerFile : Z).

(** Outside a transaction, what the next start finds. *)
Definition restartable (d : Daemon) : Prop :=
  let h := st_handle (dm_storage d) in
  sql_faults (m_faults h) /\ m_tx h = None /\ schema_ok (m_committed h).

(** The session of the daemon's handle. *)
Definition dm_DB (d : Daemon) : DB := st_DB (dm_storage d).

(** Steps of the daemon outside a transaction. *)
Definition dm_frames (d d' : Daemon) : Prop :=
  m_tx (st_handle (dm_storage d)) = None ->
  m_tx (st_handle (dm_storage d')) = None /\ frames_db bf_frame (dm_DB d) (dm_DB d').

#[local] Instance dm_frames_preorder : PreOrder dm_frames.
Proof.
  split; [intros d Hn; split; [done|reflexivity]|]. intros a b c A B Hn.
  destruct (A Hn) as [Hb F1]. destruct (B Hb) as [Hc F2]. split; [done|by etrans].
Qed.

Lemma st_DB_set db st : m_tx (st_handle st) = None ->
  st_DB (set_st_DB db st) = db /\ m_tx (st_handle (set_st_DB db st)) = None.
Proof.
  intros Hn. unfold set_st_DB, set_m_view, st_DB, m_view. rewrite Hn. simpl. by destruct db as [[] ?].
Qed.

Lemma restartable_frames d d' : dm_frames d d' -> restartable d -> restartable d'.
Proof.
  intros F (Hf&Hn&Hs). destruct (F Hn) as [Hn' (H1&_&H3)].
  unfold dm_DB, st_DB, m_view in *. rewrite Hn, Hn' in *. simpl in *.
  split_and!; [by eapply sql_faults_suffix|done|]. eapply schema_ok_same; [|exact Hs].
  injection H1 as E1 E2 E3. unfold schema. congruence.
Qed.

(** A call on the handle, outside a transaction. *)
Lemma on_storage_db {A} (m : M DB A) d r d' :
  m_tx (st_handle (dm_storage d)) = None -> on_storage (on_db m) d = (r, d') ->
  m (dm_DB d) = (r, dm_DB d') /\ m_tx (st_handle (dm_storage d')) = None.
Proof.
  intros Hn. unfold on_storage, on_db, zoom, dm_DB. destruct (m (st_DB (dm_storage d))) as [r1 db] eqn:E.
  intros [= <- <-]. destruct (st_DB_set db (dm_storage d) Hn) as [E1 E2].
  cbn [dm_storage set_dm_storage]. by rewrite E1.
Qed.

Lemma dm_frames_db {A} (m : M DB A) : keeps (frames_db bf_frame) m -> keeps dm_frames (on_storage (on_db m)).
Proof. intros Hm d r d' H Hn. apply on_storage_db in H as [H Hn']; [|done]. split; [done|]. by eapply Hm. Qed.

Lemma keeps_must {S B} (R : relation S) `{!PreOrder R} msg (m : M S B) : keeps R m -> keeps R (must msg m).
Proof.
  intros Hm. unfold must. apply keeps_bind; [done|by apply keeps_attempt|]. intros [a|e]; [by apply keeps_ret|by apply keeps_panic].
Qed.

Lemma dm_frames_RunBackfill window ckpt pass b :
  keeps dm_frames (zoom dm_backfill set_dm_backfill (RunBackfill window ckpt pass b)).
Proof.
  eapply keeps_zoom; [apply frames_RunBackfill|]. intros d s F Hn.
  destruct (st_DB_set (sv_db (fst s)) (dm_storage d) Hn) as [E1 E2].
  unfold dm_DB. cbn [dm_storage set_dm_backfill]. rewrite E1. split; [done|exact F].
Qed.

Lemma dm_frames_mustBackfill : keeps dm_frames (mustBackfill cfg ledgersPerFile).
Proof.
  unfold mustBackfill.
  apply keeps_bind; [apply _| |intros oldest].
  { intros d r d'. unfold next_oldest. destruct (dm_oldest d); intros [= <- <-]; intros Hn; (split; [done|]);
      unfold dm_DB; simpl; reflexivity. }
  apply keeps_bind; [apply _| |intros b].
  { apply keeps_must; [apply _|]. apply dm_frames_db. unfold NewBackfillMeta. frames_tac; apply frames_GetLedgerRange. }
  apply keeps_bind; [apply _|apply keeps_must; [apply _|apply dm_frames_RunBackfill]|intros _].
  apply keeps_bind; [apply _|apply dm_frames_db, frames_on_cache|intros _].
  apply keeps_modify. intros d Hn. split; [done|]. unfold dm_DB. simpl. reflexivity.
Qed.

(** What a completed backfill resets. *)
Definition reset_done (d : Daemon) : Prop :=
  st_cache (dm_storage d) = zeroCache /\
  view (feesPerLedger (ClassicFeeWindow (dm_feeWindows d))) = [] /\
  view (feesPerLedger (SorobanInclusionFeeWindow (dm_feeWindows d))) = [].

Lemma mustBackfill_resets d d' : mustBackfill cfg ledgersPerFile d = (Ok tt, d') -> reset_done d'.
Proof.
  unfold mustBackfill. rewrite bind_ok. intros (o&d1&_&H). rewrite bind_ok in H. destruct H as (b&d2&_&H).
  rewrite bind_ok in H. destruct H as (x&d3&_&H). rewrite bind_ok in H. destruct H as ([]&d4&H1&[= <-]).
  unfold on_storage, on_db, ResetCache, on_cache, modify, zoom in H1. injection H1 as <-. by split_and!.
Qed.

(** Preparing the bulk load records it. *)
Lemma prepare_restartable d r d' : restartable d -> prepare_if_empty d = (r, d') -> restartable d'.
Proof.
  intros Hd. unfold prepare_if_empty. unfold mbind at 1, M_bind at 1, attempt.
  destruct (on_storage (on_db GetLedgerRange_db) d) as [r1 d1] eqn:E1.
  assert (restartable d1) as Hd1.
  { eapply restartable_frames; [|done]. eapply dm_frames_db; [|done]. apply frames_GetLedgerRange. }
  destruct r1 as [lr|e|p]; [by intros [= _ <-]| |by intros [= _ <-]].
  destruct (errors_Is e ErrEmptyDB); [|by intros [= _ <-]].
  intros H. assert (exists r2, on_storage (on_db (on_session PrepareBulkLoad)) d1 = (r2, d')) as [r2 H2].
  { apply must_inv in H as [(?&_&H)|(?&H&_)]; eauto. }
  destruct Hd1 as (Hf&Hn&Hs). apply on_storage_db in H2 as [H2 Hn']; [|done].
  unfold on_session, zoom in H2. destruct (PrepareBulkLoad (d_sess (dm_DB d1))) as [r3 s3] eqn:E3.
  injection H2 as _ E4 _. pose proof (advances_PrepareBulkLoad _ _ _ E3) as Ha.
  unfold m_view in E4. rewrite Hn' in E4. simpl in E4. subst s3.
  unfold dm_DB, st_DB, m_view, advances in *. rewrite Hn in *. simpl in *.
  split_and!; [by eapply sql_faults_suffix|done|].
  apply PrepareBulkLoad_atomic in E3 as [[_ Ht]|(_&(_&json&Hj&Hu)&_)]; simpl in *; [by rewrite Ht|left; by exists json].
Qed.

Lemma finalize_restartable d r d' :
  restartable d -> on_storage (on_db (on_session FinalizeBulkLoad)) d = (r, d') ->
  restartable d' /\ (r = Ok tt -> let t := m_committed (st_handle (dm_storage d')) in
    t_meta t !! pendingIndexesMetaKey = None /\ usable t).
Proof.
  intros (Hf&Hn&Hs) H. apply on_storage_db in H as [H Hn']; [|done].
  unfold on_session, zoom in H. destruct (FinalizeBulkLoad (d_sess (dm_DB d))) as [r1 s1] eqn:E.
  injection H as -> E1 _. unfold dm_DB, st_DB, m_view in E, E1. rewrite Hn in E. rewrite Hn' in E1. simpl in *. subst s1.
  apply FinalizeBulkLoad_schema in E as (Ha&Hok&Hus); [|done|done]. simpl in *.
  split; [|done]. split_and!; [by eapply sql_faults_suffix|done|done].
Qed.

(** Initialising the storage. *)
Lemma kept_schema t t' : kept t t' -> schema_ok t -> schema_ok t'.
Proof. intros [= ? E1 E2 E3]%kept_frame. apply schema_ok_same. unfold schema. congruence. Qed.

Lemma mig_frame_schema t t' : mig_frame t' = mig_frame t -> schema_ok t -> schema_ok t'.
Proof. intros [= ? E1 E2 E3]. apply schema_ok_same. unfold schema. congruence. Qed.

Lemma initialize_restartable d r d' :
  restartable d -> on_storage (mustInitializeStorage cfg) d = (r, d') ->
  schema_ok (m_committed (st_handle (dm_storage d'))) /\ ((exists fw, r = Ok fw) -> restartable d').
Proof.
  intros (Hf&Hn&Hs). unfold on_storage, zoom. destruct (mustInitializeStorage cfg (dm_storage d)) as [r1 st1] eqn:E.
  intros [= <- <-]. cbn [dm_storage set_dm_storage]. destruct (cfg_IngestLoadTest cfg) eqn:Hlt.
  { unfold mustInitializeStorage in E. rewrite Hlt in E. unfold mret, M_ret in E. injection E as <- <-. split; [done|]. intros _. by split_and!. }
  apply mustInitializeStorage_ok in E as [F [(_&Hn'&_&[G _])|[Hr G]]]; [| |done|done].
  - apply mig_frame_schema in G; [|done]. split; [done|]. intros _. split_and!; [by eapply sql_faults_suffix|done|done].
  - apply kept_schema in G; [|done]. split; [done|]. intros [fw E]. by destruct (Hr fw).
Qed.

(** C15: A start-up can be interrupted at any statement and started again.
    From a database outside any transaction whose schema is complete or recorded
    as being reshaped, whatever fails, the committed schema is still complete or
    recorded; and when the start-up succeeds, also after interrupted ones, nothing
    is recorded any more, transaction hashes are unique and the events have their
    indexes; after a backfill, the range cache and both fee windows are empty. *)
Theorem MustNew_restartable d r d' :
  restartable d -> MustNew cfg ledgersPerFile d = (r, d') ->
  let t := m_committed (st_handle (dm_storage d')) in
  schema_ok t /\
  (r = Ok tt -> restartable d' /\ t_meta t !! pendingIndexesMetaKey = None /\ usable t /\
     (cfg_Backfill cfg = true -> reset_done d')).
Proof.
  intros Hd. unfold MustNew.
  assert (forall d1, restartable d1 -> (r <> Ok tt) -> d1 = d' -> let t := m_committed (st_handle (dm_storage d')) in
    schema_ok t /\ (r = Ok tt -> restartable d' /\ t_meta t !! pendingIndexesMetaKey = None /\ usable t /\
     (cfg_Backfill cfg = true -> reset_done d'))) as Hfail.
  { intros d1 (_&_&H) Hr ->. by split. }
  intros [(fw&d1&H1&H)|(r1&H1&_&Hr)]%bind_inv; destruct (initialize_restartable _ _ _ Hd H1) as [S1 R1].
  2: { split; [done|]. intros ->. by destruct (Hr tt). }
  specialize (R1 (ex_intro _ fw eq_refl)). unfold mbind at 1, M_bind at 1, modify in H.
  assert (restartable (set_dm_feeWindows fw d1)) as R2 by done. revert R2 H. generalize (set_dm_feeWindows fw d1). clear d1 H1 S1 R1.
  intros d1 R1 [([]&d2&H2&H)|(r2&H2&_&Hr)]%bind_inv.
  all: assert (forall d0 r0 d3, restartable d0 -> (if cfg_Backfill cfg then prepare_if_empty ;; mustBackfill cfg ledgersPerFile
    else mret tt) d0 = (r0, d3) -> restartable d3) as Hfirst.
  1, 3: intros d0 r0 d3 Hd0; destruct (cfg_Backfill cfg); [|by intros [= _ <-]];
    intros [([]&d4&H3%prepare_restartable&H4%dm_frames_mustBackfill)|(r4&H3%prepare_restartable&_)]%bind_inv; try done;
    by eapply restartable_frames.
  2: { apply (Hfail d'); [by eapply Hfirst|apply Hr|done]. }
  apply Hfirst in H2; [|done]. clear Hfirst.
  apply bind_inv in H as [([]&d3&H3&H)|(r3&H3&_&Hr)].
  2: { apply (Hfail d'); [|apply Hr|done]. apply must_inv in H3 as [(?&_&H3)|(?&H3&_)]; by apply finalize_restartable in H3 as [? _]. }
  apply must_inv in H3 as [([]&_&H3)|(?&_&H3)]; [|by destruct (H3 tt)].
  apply finalize_restartable in H3 as [R3 U3]; [|done]. specialize (U3 eq_refl). cbv zeta in U3.
  destruct (cfg_Backfill cfg).
  - pose proof (dm_frames_mustBackfill _ _ _ H) as F. pose proof (restartable_frames _ _ F R3) as R4.
    split; [by destruct R4 as (_&_&?)|]. intros ->. split; [done|]. apply mustBackfill_resets in H.
    destruct R3 as (_&Hn3&_), R4 as (_&Hn4&_). destruct (F Hn3) as [_ (F1&_)].
    unfold dm_DB, st_DB, m_view in F1. rewrite Hn3, Hn4 in F1. simpl in F1. injection F1 as F1 F2 F3.
    destruct U3 as [U1 U2]. split_and!; [by rewrite F1| |done].
    unfold usable, hash_unique in U2 |- *. by rewrite F2, F3.
  - injection H as <- <-. split; [by destruct R3 as (_&_&?)|]. intros _. destruct U3. by split_and!.
Qed.

End Startup.

(** ** Witness *)

Section Witnesses.

(** A datastore whose tip cannot be read. *)
#[local] Instance ex_datastore : DataStore := {|
  ds_makeBackend := fun _ => Ok tt;
  ds_PrepareRange := fun _ _ => Ok tt;
  ds_GetLedger := fun l => Ok l;
  ds_PrevCheckpoint := fun _ l => l;
|}.

Definition ex_backfill_config (backfill : bool) : StorageConfig := MkStorageConfig 2 1 3 "" 64 false backfill.

(** A daemon on an empty database, and one that opens it again. *)
Definition ex_fresh : Daemon :=
  MkDaemon (MkStorage (MkMdb empty_tables None []) zeroCache) ex_windows 0 [] [] [Ok 3].
Definition ex_reopen (d : Daemon) : Daemon :=
  MkDaemon (MkStorage (MkMdb (m_committed (st_handle (dm_storage d))) None []) zeroCache) ex_windows 0 [] [] [].

Lemma ex_fresh_restartable : restartable ex_fresh.
Proof.
  split; [by intros e ?%elem_of_nil|split; [done|]]. right. split; [done|].
  split_and!; [done|..]; vm_compute; apply (bool_decide_unpack _); vm_compute; exact I.
Qed.

(** The first start prepares the bulk load and dies in the backfill; the second
    one, without a backfill, restores the schema. *)
Lemma MustNew_restartable_witness :
  let d1 := snd (MustNew (X := ex_sdk) (ex_backfill_config true) 64 ex_fresh) in
  hash_unique (m_committed (st_handle (dm_storage d1))) = false /\
  schema_ok (m_committed (st_handle (dm_storage d1))) /\
  exists d2, MustNew (X := ex_sdk) (ex_backfill_config false) 64 (ex_reopen d1) = (Ok tt, d2) /\
    usable (m_committed (st_handle (dm_storage d2))).
Proof.
  intros d1. subst d1. destruct (MustNew (X := ex_sdk) (ex_backfill_config true) 64 ex_fresh) as [r d1] eqn:E1.
  destruct (MustNew_restartable (X := ex_sdk) (ex_backfill_config true) 64 ex_fresh r d1) as [Hs _].
  - apply ex_fresh_restartable.
  - exact E1.
  - split; [|split; [exact Hs|]].
    + pose proof (f_equal (fun x => hash_unique (m_committed (st_handle (dm_storage (snd x))))) E1) as E.
      vm_compute in E. symmetry. exact E.
    + destruct (MustNew (X := ex_sdk) (ex_backfill_config false) 64 (ex_reopen d1)) as [r2 d2] eqn:E2.
      assert (r2 = Ok tt) as Hr.
      { pose proof (f_equal fst E2) as E. pose proof (f_equal snd E1) as E0. cbn [snd] in E0. rewrite <- E0 in E.
        vm_compute in E. symmetry. exact E. }
      exists d2. rewrite <- Hr. split; [exact E2|].
      destruct (MustNew_restartable (X := ex_sdk) (ex_backfill_config false) 64 (ex_reopen d1) r2 d2) as [_ H2].
      * split; [intros e He; apply elem_of_nil in He; destruct He|split; [reflexivity|exact Hs]].
      * exact E2.
      * destruct (H2 Hr) as (_&_&Hu&_). exact Hu.
Defined.

End Witnesses.
