(* ===== verification/DaemonWiring.v ===== *)
(** * What the daemon makes of its configuration (daemon/daemon.go)

    The captive core, the history archives, the clients of the core, the backend of
    the ingestion service and the preflight pool are set up from the fields of the
    loaded and validated configuration.  A failure ends the process. *)

From S2P Require Import Prelude GoStd GoText Sdk FeeWindow Config ConfigOptions ConfigLoad Daemon.

Section Wiring.
Context `{TT : TomlTypes} `{CS : !ConfigSdk} `{OS : Os}.

(** ** Captive core *)

(** [ledgerbackend.HTTPQueryServerParams], [CaptiveCoreTomlParams] *)
Record HTTPQueryServerParams := MkHTTPQueryServerParams { Port : Z; ThreadPoolSize : Z; SnapshotLedgers : Z }.

Record CaptiveCoreTomlParams := MkCaptiveCoreTomlParams {
  HTTPPort : Z;
  toml_HistoryArchiveURLs : list string;
  toml_NetworkPassphrase : string;
  toml_Strict : bool;
  EnforceSorobanDiagnosticEvents : bool;
  EnforceSorobanTransactionMetaExtV1 : bool;
  EmitUnifiedEvents : bool;
  EmitUnifiedEventsBeforeProtocol22 : bool;
  CoreBinaryPath : string;
  QueryServerParams : HTTPQueryServerParams;
}.

Definition queryServerParams (cfg : Config) : HTTPQueryServerParams :=
  {| Port := num_field "CaptiveCoreHTTPQueryPort" cfg;
     ThreadPoolSize := num_field "CaptiveCoreHTTPQueryThreadPoolSize" cfg;
     SnapshotLedgers := num_field "CaptiveCoreHTTPQuerySnapshotLedgers" cfg |}.

Definition captiveCoreTomlParams (cfg : Config) : CaptiveCoreTomlParams :=
  {| HTTPPort := num_field "CaptiveCoreHTTPPort" cfg;
     toml_HistoryArchiveURLs := strings_field "HistoryArchiveURLs" cfg;
     toml_NetworkPassphrase := string_field "NetworkPassphrase" cfg;
     toml_Strict := true;
     EnforceSorobanDiagnosticEvents := true;
     EnforceSorobanTransactionMetaExtV1 := true;
     EmitUnifiedEvents := true;
     EmitUnifiedEventsBeforeProtocol22 := false;
     CoreBinaryPath := string_field "StellarCoreBinaryPath" cfg;
     QueryServerParams := queryServerParams cfg |}.

(** The SDK: a parsed core configuration, a captive core, an archive pool. *)
Class CoreSdk := {
  CaptiveCoreToml : Type;
  CaptiveStellarCore : Type;
  ArchiveInterface : Type;
  NewCaptiveCoreTomlFromFile : string -> CaptiveCoreTomlParams -> Res CaptiveCoreToml;
  NewCaptive : forall (BinaryPath StoragePath NetworkPassphrase : string) (HistoryArchiveURLs : list string)
                      (CheckpointFrequency : Z) (Toml : CaptiveCoreToml) (UserAgent : string), Res CaptiveStellarCore;
  NewArchivePool : forall (archiveURLs : list string) (NetworkPassphrase : string) (CheckpointFrequency : Z)
                          (UserAgent : string), Res ArchiveInterface;
}.

(** [logger.WithError(err).Fatal(msg)] *)
Definition must_res {A} (msg : string) (r : Res A) : Res A :=
  match r with Err err => Panic (msg +:+ ": " +:+ error_message err) | r => r end.

Context `{CO : CoreSdk}.

Definition newCaptiveCore (cfg : Config) : Res CaptiveStellarCore :=
  captiveCoreToml ← must_res "Invalid captive core toml"
    (NewCaptiveCoreTomlFromFile (string_field "CaptiveCoreConfigPath" cfg) (captiveCoreTomlParams cfg));
  NewCaptive (string_field "StellarCoreBinaryPath" cfg) (string_field "CaptiveCoreStoragePath" cfg)
    (string_field "NetworkPassphrase" cfg) (strings_field "HistoryArchiveURLs" cfg) (num_field "CheckpointFrequency" cfg)
    captiveCoreToml (ExtendedUserAgent "captivecore" cfg).

Definition mustCreateCaptiveCore (cfg : Config) : Res CaptiveStellarCore :=
  must_res "could not create captive core" (newCaptiveCore cfg).

Definition mustCreateHistoryArchive (cfg : Config) : Res ArchiveInterface :=
  match strings_field "HistoryArchiveURLs" cfg with
  | [] => Panic "no history archives URLs were provided"
  | urls =>
      must_res "could not connect to history archive"
        (NewArchivePool urls (string_field "NetworkPassphrase" cfg) (num_field "CheckpointFrequency" cfg)
           (string_field "HistoryArchiveUserAgent" cfg))
  end.

(** ** The clients of the core *)

(** [stellarcore.Client]: its URL and the timeout of its requests *)
Record CoreClient := MkCoreClient { URL : string; Timeout : Z }.

Definition createStellarCoreClient (cfg : Config) : CoreClient :=
  MkCoreClient (string_field "StellarCoreURL" cfg) (num_field "CoreRequestTimeout" cfg).

Definition createHighperfStellarCoreClient (cfg : Config) : CoreClient :=
  MkCoreClient ("http://localhost:" +:+ FormatInt (num_field "CaptiveCoreHTTPQueryPort" cfg))
    (num_field "CoreRequestTimeout" cfg).

(** ** The backend of the ingestion service *)

(** The fields of [IngestLoadTestConfig] *)
Class LoadTestFields := {
  ILT_Files : Struct -> list string;
  ILT_Frequency : Struct -> Z;
  ILT_MaxLedgersPerFile : Struct -> Z;
}.

Context `{LT : !LoadTestFields}.

(** [IngestLoadTestConfig.Enabled] *)
Definition Enabled (s : Struct) : bool := negb (bool_decide (ILT_Files s = [])).

Inductive ingest_backend :=
  | CaptiveCoreBackend
  | LoadTestBackend (NetworkPassphrase : string) (LedgersFilePaths : list string)
      (LedgerCloseDuration MaxLedgersPerFile : Z).

(** The choice of the backend in [createIngestService]; 2s is
    [config.DefaultIngestLoadTestFrequency]. *)
Definition createIngestBackend (cfg : Config) : ingest_backend :=
  let loadTest := struct_field "IngestLoadTest" cfg in
  if Enabled loadTest then
    let frequency := if decide (ILT_Frequency loadTest = 0) then 2 * Second else ILT_Frequency loadTest in
    LoadTestBackend (string_field "NetworkPassphrase" cfg) (ILT_Files loadTest) frequency (ILT_MaxLedgersPerFile loadTest)
  else CaptiveCoreBackend.

(** ** The storage *)

(** The part of the configuration that decides the storage *)
Definition storage_config (cfg : Config) : StorageConfig :=
  {| cfg_ClassicFeeStatsLedgerRetentionWindow := num_field "ClassicFeeStatsLedgerRetentionWindow" cfg;
     cfg_SorobanFeeStatsLedgerRetentionWindow := num_field "SorobanFeeStatsLedgerRetentionWindow" cfg;
     cfg_HistoryRetentionWindow := num_field "HistoryRetentionWindow" cfg;
     cfg_NetworkPassphrase := string_field "NetworkPassphrase" cfg;
     cfg_CheckpointFrequency := num_field "CheckpointFrequency" cfg;
     cfg_IngestLoadTest := Enabled (struct_field "IngestLoadTest" cfg);
     cfg_Backfill := bool_field "Backfill" cfg |}.

(** ** What validation is for *)

(** After validation the daemon finds archives, both of its clients talk to the core
    it starts (unless another core is named), and the windows of the storage are
    as the storage needs them but for one thing that validation does not check:
    that the history is not shorter than the fee windows. *)
Theorem validated_wiring opts cfg cfg' :
  Forall2 same_option options opts -> Options_Validate opts cfg = (None, cfg') ->
  (exists url urls, strings_field "HistoryArchiveURLs" cfg' = url :: urls /\
     mustCreateHistoryArchive cfg' =
       must_res "could not connect to history archive"
         (NewArchivePool (url :: urls) (string_field "NetworkPassphrase" cfg') (num_field "CheckpointFrequency" cfg')
            (string_field "HistoryArchiveUserAgent" cfg'))) /\
  URL (createHighperfStellarCoreClient cfg') =
    "http://localhost:" +:+ FormatInt (Port (QueryServerParams (captiveCoreTomlParams cfg'))) /\
  0 < Port (QueryServerParams (captiveCoreTomlParams cfg')) /\
  (string_field "StellarCoreURL" cfg = "" ->
   URL (createStellarCoreClient cfg') = "http://localhost:" +:+ FormatInt (HTTPPort (captiveCoreTomlParams cfg'))) /\
  (windows_ok (storage_config cfg') <->
   Z.max (num_field "ClassicFeeStatsLedgerRetentionWindow" cfg) (num_field "SorobanFeeStatsLedgerRetentionWindow" cfg)
     <= num_field "HistoryRetentionWindow" cfg).
Proof.
  intros Hadd Hval. unfold Options_Validate in Hval.
  rewrite validate_loop_None, (all_pass_attached _ _ _ Hadd), options_pass in Hval. destruct Hval as (_&Hv&->).
  pose proof (valid_archives _ Hv) as Ha. pose proof (valid_positive _ Hv) as Hp. pose proof (valid_fee_windows _ Hv) as Hf.
  unfold positive_fields in Hp. rewrite !Forall_cons in Hp, Hf. destruct Hp as (Hq&Hh&_), Hf as (Hc&Hs&_).
  unfold mustCreateHistoryArchive, createHighperfStellarCoreClient, createStellarCoreClient, captiveCoreTomlParams,
    queryServerParams, storage_config, windows_ok. cbn [URL HTTPPort Port QueryServerParams
    cfg_ClassicFeeStatsLedgerRetentionWindow cfg_SorobanFeeStatsLedgerRetentionWindow cfg_HistoryRetentionWindow].
  rewrite strings_field_core_url by done. rewrite !num_field_core_url by done. split.
  { destruct (strings_field "HistoryArchiveURLs" cfg) as [|url urls]; [done|]. by exists url, urls. }
  split; [done|]. split; [done|]. split; [|lia].
  intros Hu. unfold with_core_url, default_core_url, string_field in *. simpl. rewrite decide_True by done.
  simpl. by rewrite lookup_insert_eq.
Qed.
End Wiring.

(** ** A history shorter than the fee windows *)

Section ShortHistory.
Context `{X : Sdk} `{ND : Nondet}.

(** The daemon does not start, and leaves its database alone. *)
Lemma short_history_panics cfg retentionRange feeWindows st :
  cfg_HistoryRetentionWindow cfg <
    Z.max (cfg_ClassicFeeStatsLedgerRetentionWindow cfg) (cfg_SorobanFeeStatsLedgerRetentionWindow cfg) ->
  exists m, buildMigrations cfg retentionRange feeWindows st = (Panic m, st).
Proof. intros Hh. eexists. unfold buildMigrations. unfold mbind at 1, M_bind at 1. by rewrite decide_True. Qed.
End ShortHistory.

#[local] Existing Instance ex_toml_types.
#[local] Existing Instance ex_config_sdk.
#[local] Existing Instance ex_os.

(** Validation accepts a history of 10 ledgers with a fee window of 50. *)
Example short_history_validates :
  let cfg := set_field "HistoryRetentionWindow" (VNum 10) ex_loaded in
  (Options_Validate ex_opts cfg).1 = None /\ num_field "SorobanFeeStatsLedgerRetentionWindow" cfg = 50.
Proof. vm_compute. done. Qed.
