(* ===== verification/PanicGroup.v ===== *)
(** * Goroutines that may panic (util/panicgroup.go)

    The server starts its goroutines through a panic group, which decides what a
    panic does: it is logged, printed, counted, and may end the process.  A panic
    value is its rendering ([%v]); the text of [debug.Stack()] and the name of the
    function are what the runtime gives. *)

From S2P Require Import Prelude GoText.

(** [strings.FieldsFunc]: the non-empty pieces between the bytes that satisfy [sep] *)
Fixpoint fields_func (sep : Ascii.ascii -> bool) (s field : string) : list string :=
  match s with
  | EmptyString => if decide (field = "") then [] else [field]
  | String c s =>
      if sep c
      then if decide (field = "") then fields_func sep s "" else field :: fields_func sep s ""
      else fields_func sep s (field +:+ String c "")
  end.

(** [strings.Contains] *)
Definition Contains (s sub : string) : bool := bool_decide (is_Some (String.index 0 sub s)).

Definition is_line_break (c : Ascii.ascii) : bool := bool_decide (c = char 10 \/ c = char 9).

(** The loop of [CallStack]: [i] numbers the line at the front *)
Fixpoint stack_lines (lastCallstackMethod : string) (unwindStackLines i : Z) (stackFields : list string) : list string :=
  match stackFields with
  | [] => []
  | callStackLine :: stackFields =>
      if decide (i < unwindStackLines) then stack_lines lastCallstackMethod unwindStackLines (i + 1) stackFields
      else callStackLine ::
           (if Contains callStackLine lastCallstackMethod then []
            else stack_lines lastCallstackMethod unwindStackLines (i + 1) stackFields)
  end.

Definition CallStack (stack recoverRes topLevelFunctionName lastCallstackMethod : string) (unwindStackLines : Z) : list string :=
  (if decide (topLevelFunctionName <> "") then recoverRes +:+ " when calling " +:+ topLevelFunctionName else recoverRes)
  :: stack_lines lastCallstackMethod unwindStackLines 0 (fields_func is_line_break stack "").

Definition getPanicCallStack (stack recoverRes functionName : string) : list string :=
  CallStack stack recoverRes functionName "(*PanicGroup).Go" 10.

(** [PanicGroup]; loggers and counters are known by name. *)
Record PanicGroup := MkPanicGroup {
  pg_log : option string;
  pg_logPanicsToStdErr : bool;
  pg_exitProcessOnPanic : bool;
  pg_panicsCounter : option string;
}.

Definition NewUnrecoverablePanicGroup : PanicGroup := MkPanicGroup None true true None.
Definition NewRecoverablePanicGroup : PanicGroup := MkPanicGroup None true false None.

Definition Log (log : option string) (pg : PanicGroup) : PanicGroup :=
  MkPanicGroup log (pg_logPanicsToStdErr pg) (pg_exitProcessOnPanic pg) (pg_panicsCounter pg).
Definition Counter (counter : option string) (pg : PanicGroup) : PanicGroup :=
  MkPanicGroup (pg_log pg) (pg_logPanicsToStdErr pg) (pg_exitProcessOnPanic pg) counter.

(** What a goroutine leaves behind: warnings by logger, the standard error, the
    counters, and the exit code of the process once it ended. *)
Record process := MkProcess {
  p_warnings : list (string * string);
  p_stderr : list string;
  p_counters : gmap string Z;
  p_exit : option Z;
}.

Definition Warn (log line : string) (p : process) : process :=
  MkProcess (p_warnings p ++ [(log, line)]) (p_stderr p) (p_counters p) (p_exit p).
Definition Fprintln (line : string) (p : process) : process :=
  MkProcess (p_warnings p) (p_stderr p ++ [line]) (p_counters p) (p_exit p).
Definition Inc (counter : string) (p : process) : process :=
  MkProcess (p_warnings p) (p_stderr p) (<[counter := default 0 (p_counters p !! counter) + 1]> (p_counters p)) (p_exit p).
Definition Exit (code : Z) (p : process) : process :=
  MkProcess (p_warnings p) (p_stderr p) (p_counters p) (Some code).

Definition recoverRoutine (pg : PanicGroup) (stack functionName : string) (recoverRes : option string) (p : process) : process :=
  match recoverRes with
  | None => p
  | Some recoverRes =>
      let cs := getPanicCallStack stack recoverRes functionName in
      if decide (cs = []) then p
      else
        let p := match pg_log pg with Some log => foldl (fun p line => Warn log line p) p cs | None => p end in
        let p := if pg_logPanicsToStdErr pg then foldl (fun p line => Fprintln line p) p cs else p in
        let p := match pg_panicsCounter pg with Some counter => Inc counter p | None => p end in
        if pg_exitProcessOnPanic pg then Exit 1 p else p
  end.

(** The goroutine [Go] starts: [fn] ends by itself or by a panic. *)
Definition Go (pg : PanicGroup) (stack functionName : string) (fn : process -> option string * process) (p : process) : process :=
  let '(panicked, p) := fn p in recoverRoutine pg stack functionName panicked p.

(** ** What is reported *)

(** Lines up to the first one that contains a text, that one included *)
Fixpoint up_to (text : string) (lines : list string) : list string :=
  match lines with
  | [] => []
  | line :: lines => line :: if Contains line text then [] else up_to text lines
  end.

Lemma up_to_spec text lines :
  exists rest, lines = up_to text lines ++ rest /\
    (forall i line, up_to text lines !! i = Some line -> Contains line text = true -> S i = length (up_to text lines)) /\
    (rest <> [] -> exists line, last (up_to text lines) = Some line /\ Contains line text = true).
Proof.
  induction lines as [|line lines (rest&E&Hfirst&Hlast)]; [by exists []|]. simpl.
  destruct (Contains line text) eqn:Ec.
  - exists lines. split_and!; [done| |by eexists]. by intros [|i] l Hl.
  - exists rest. split; [by rewrite E at 1|]. split.
    + intros [|i] l Hl Hc; [simpl in Hl; congruence|]. simpl in *. f_equal. by eapply Hfirst.
    + intros Hr. destruct (Hlast Hr) as (l&Hl&Hc). exists l. split; [|done]. rewrite last_cons. by rewrite Hl.
Qed.

Lemma stack_lines_up_to text n i fields :
  stack_lines text n i fields = up_to text (drop (Z.to_nat (n - i)) fields).
Proof.
  revert i. induction fields as [|line fields IH]; intros i; [by rewrite drop_nil|]. cbn [stack_lines]. case_decide.
  - rewrite IH. replace (Z.to_nat (n - i)) with (S (Z.to_nat (n - (i + 1)))) by lia. done.
  - replace (Z.to_nat (n - i)) with 0%nat by lia. simpl. destruct (Contains line text); [done|].
    rewrite IH. by replace (Z.to_nat (n - (i + 1))) with 0%nat by lia.
Qed.

Lemma foldl_Warn log cs p :
  foldl (fun p line => Warn log line p) p cs =
    MkProcess (p_warnings p ++ ((fun line => (log, line)) <$> cs)) (p_stderr p) (p_counters p) (p_exit p).
Proof.
  revert p. induction cs as [|c cs IH]; intros p; [destruct p; simpl; by rewrite app_nil_r|].
  csimpl. rewrite IH. unfold Warn. simpl. by rewrite <- app_assoc.
Qed.

Lemma foldl_Fprintln cs p :
  foldl (fun p line => Fprintln line p) p cs = MkProcess (p_warnings p) (p_stderr p ++ cs) (p_counters p) (p_exit p).
Proof.
  revert p. induction cs as [|c cs IH]; intros p; [destruct p; simpl; by rewrite app_nil_r|].
  csimpl. rewrite IH. unfold Fprintln. simpl. by rewrite <- app_assoc.
Qed.

(** What a panic of a goroutine does: its value, with the name of the function, and
    the stack from its eleventh line to the first one of the panic group go to the
    logger and to the standard error, when these are set, the counter is increased
    once and the process ends, when it has to.  A function that does not panic
    leaves nothing behind but what it did. *)
Theorem Go_reports pg stack name fn p :
  let '(panicked, p1) := fn p in
  Go pg stack name fn p =
    match panicked with
    | None => p1
    | Some v =>
        let cs := (if decide (name <> "") then v +:+ " when calling " +:+ name else v)
                  :: up_to "(*PanicGroup).Go" (drop 10 (fields_func is_line_break stack "")) in
        {| p_warnings := p_warnings p1 ++ from_option (fun log => (fun line => (log, line)) <$> cs) [] (pg_log pg);
           p_stderr := p_stderr p1 ++ (if pg_logPanicsToStdErr pg then cs else []);
           p_counters := from_option (fun c => <[c := default 0 (p_counters p1 !! c) + 1]> (p_counters p1)) (p_counters p1) (pg_panicsCounter pg);
           p_exit := if pg_exitProcessOnPanic pg then Some 1 else p_exit p1 |}
    end.
Proof.
  unfold Go. destruct (fn p) as [[v|] p1]; [|done]. unfold recoverRoutine, getPanicCallStack, CallStack.
  rewrite stack_lines_up_to. cbv zeta. rewrite decide_False by done. change (Z.to_nat (10 - 0)) with 10%nat.
  cbv zeta. generalize ((if decide (name <> "") then v +:+ " when calling " +:+ name else v)
    :: up_to "(*PanicGroup).Go" (drop 10 (fields_func is_line_break stack ""))). intros cs.
  destruct pg as [[log|] err ex counter]; cbn [pg_log]; rewrite ?foldl_Warn, foldl_Fprintln;
    destruct err, ex, counter, p1; simpl; by rewrite ?app_nil_r.
Qed.

(** A server's goroutine that panics ends the process; a recoverable group does not. *)
Example panic_groups :
  let stack := "goroutine 7:" +:+ String (char 10) "a" +:+ String (char 10) "b" +:+ String (char 10) "c" +:+ String (char 10)
    "d" +:+ String (char 10) "e" +:+ String (char 10) "f" +:+ String (char 10) "g" +:+ String (char 10) "h" +:+ String (char 10)
    "i" +:+ String (char 10) "main.fails(0)" +:+ String (char 10) (String (char 9) "main.go:3") +:+ String (char 10)
    "util.(*PanicGroup).Go.func1()" +:+ String (char 10) "created by main" in
  let fails (p : process) := (Some "boom", p) in
  let cs := ["boom when calling main.fails"; "main.fails(0)"; "main.go:3"; "util.(*PanicGroup).Go.func1()"] in
  let start := MkProcess [] [] {[ "panics" := 3 ]} None in
  Go (Log (Some "daemon") NewUnrecoverablePanicGroup) stack "main.fails" fails start =
    MkProcess ((fun line => ("daemon", line)) <$> cs) cs {[ "panics" := 3 ]} (Some 1) /\
  Go (Counter (Some "panics") NewRecoverablePanicGroup) stack "main.fails" fails start =
    MkProcess [] cs {[ "panics" := 4 ]} None.
Proof. vm_compute. done. Qed.
