(* ===== verification/Shutdown.v ===== *)
(** * Shutting the daemon down (daemon/daemon.go: [close], [Close])

    [Close] is called when a signal arrives and by whoever holds the daemon, and
    any number of goroutines may call it at once: [closeOnce] lets one of them run
    [close] while the others wait for it.  The parts to close are computations on
    the state [W] of the process. *)

From S2P Require Import Prelude.

Section Closing.
Context {W : Type}.

(** The fields of [Daemon] that are closed; the two that return no error can only
    return or panic. *)
Record handles := MkHandles {
  server_Shutdown : M W unit;
  adminServer_Shutdown : option (M W unit);
  ingestService_Close : M W unit;
  core_Close : M W unit;
  jsonRPCHandler_Close : W -> option string * W;
  db_Close : M W unit;
  preflightWorkerPool_Close : W -> option string * W;
  dataStore_Close : option (M W unit);
}.

Definition no_error (f : W -> option string * W) : M W unit := fun w =>
  match f w with (None, w) => (Ok tt, w) | (Some m, w) => (Panic m, w) end.

(** [if err := x.Close(); err != nil { ...; closeErrors = append(closeErrors, err) }] *)
Definition close_part (closeErrors : list error) (part : M W unit) : M W (list error) :=
  r ← attempt part;
  match r with inl _ => mret closeErrors | inr err => mret (closeErrors ++ [err]) end.

(** [errors.Join] *)
Definition errors_Join (errs : list error) : option error := foldr (fun e r => errors_Join2 (Some e) r) None errs.

(** [close], up to the assignment of [closeError] *)
Definition close (d : handles) : M W (option error) :=
  closeErrors ← close_part [] (server_Shutdown d);
  closeErrors ← match adminServer_Shutdown d with Some admin => close_part closeErrors admin | None => mret closeErrors end;
  closeErrors ← close_part closeErrors (ingestService_Close d);
  closeErrors ← close_part closeErrors (core_Close d);
  no_error (jsonRPCHandler_Close d) ;;
  closeErrors ← close_part closeErrors (db_Close d);
  no_error (preflightWorkerPool_Close d) ;;
  closeErrors ← match dataStore_Close d with Some store => close_part closeErrors store | None => mret closeErrors end;
  mret (errors_Join closeErrors).

(** The parts in the order they are closed *)
Definition parts (d : handles) : list (M W unit) :=
  [server_Shutdown d] ++ option_list (adminServer_Shutdown d) ++
  [ingestService_Close d; core_Close d; no_error (jsonRPCHandler_Close d); db_Close d; no_error (preflightWorkerPool_Close d)] ++
  option_list (dataStore_Close d).

Fixpoint close_parts (closeErrors : list error) (l : list (M W unit)) : M W (list error) :=
  match l with
  | [] => mret closeErrors
  | part :: l => closeErrors ← close_part closeErrors part; close_parts closeErrors l
  end.

(** ** Concurrent callers *)

(** [sync.Once]: the part the winner is at, and the errors it has collected *)
Inductive once := Fresh | Running (caller at_ : nat) (closeErrors : list error) | Finished.

Inductive caller := Waiting | Returned (closeError : option error) | Crashed (m : string).

Record system := MkSystem {
  sy_closeOnce : once;
  sy_closeError : option error;
  sy_done : nat; (* how often the channel was closed *)
  sy_closed : list nat; (* the parts that were closed, in order *)
  sy_world : W;
  sy_callers : gmap nat caller;
}.

Definition start (w : W) : system := MkSystem Fresh None 0 [] w ∅.

(** One part at a time is closed; a function that panics leaves the [Once] done. *)
Inductive step (d : handles) : system -> system -> Prop :=
  | step_call n o e dn l w cs :
      cs !! n = None -> step d (MkSystem o e dn l w cs) (MkSystem o e dn l w (<[n := Waiting]> cs))
  | step_win n e dn l w cs :
      cs !! n = Some Waiting -> step d (MkSystem Fresh e dn l w cs) (MkSystem (Running n 0 []) e dn l w cs)
  | step_close n k errs part errs' w' e dn l w cs :
      parts d !! k = Some part -> close_part errs part w = (Ok errs', w') ->
      step d (MkSystem (Running n k errs) e dn l w cs) (MkSystem (Running n (S k) errs') e dn (l ++ [k]) w' cs)
  | step_panic n k errs part m w' e dn l w cs :
      parts d !! k = Some part -> close_part errs part w = (Panic m, w') ->
      step d (MkSystem (Running n k errs) e dn l w cs) (MkSystem Finished e dn (l ++ [k]) w' (<[n := Crashed m]> cs))
  | step_end n k errs e dn l w cs :
      k = length (parts d) ->
      step d (MkSystem (Running n k errs) e dn l w cs)
             (MkSystem Finished (errors_Join errs) (S dn) l w (<[n := Returned (errors_Join errs)]> cs))
  | step_wait n e dn l w cs :
      cs !! n = Some Waiting -> step d (MkSystem Finished e dn l w cs) (MkSystem Finished e dn l w (<[n := Returned e]> cs)).

(** ** One run of [close], whoever runs it *)

Lemma close_part_cases errs (part : M W unit) w :
  (exists errs' w', close_part errs part w = (Ok errs', w')) \/ exists m w', close_part errs part w = (Panic m, w').
Proof. unfold close_part. unfold_m. destruct (part w) as [[[]|e|m] w']; eauto. Qed.

Lemma close_parts_app errs l1 l2 w :
  close_parts errs (l1 ++ l2) w = (errs ← close_parts errs l1; close_parts errs l2) w.
Proof.
  revert errs w. induction l1 as [|part l1 IH]; intros errs w; [done|]. simpl. unfold mbind, M_bind.
  destruct (close_part errs part w) as [[errs'|e|m] w']; [apply IH|done..].
Qed.

Lemma close_part_no_error errs f w : close_part errs (no_error f) w = (no_error f ;; mret errs) w.
Proof. unfold close_part, no_error. unfold_m. by destruct (f w) as [[]]. Qed.

Lemma close_is_parts d w : close d w = (errs ← close_parts [] (parts d); mret (errors_Join errs)) w.
Proof.
  unfold close, parts. destruct (adminServer_Shutdown d) as [admin|], (dataStore_Close d) as [store|]; simpl;
    unfold mbind, M_bind, mret, M_ret;
    repeat (rewrite ?close_part_no_error; unfold mbind, M_bind, mret, M_ret;
            match goal with |- context [match ?m with (_, _) => _ end] => destruct m as [[]] end; try done).
Qed.

(** ** The invariant *)

(** No caller has its answer yet. *)
Definition unanswered (cs : gmap nat caller) : Prop := forall n c, cs !! n = Some c -> c = Waiting.

Definition invariant (d : handles) (w0 : W) (s : system) : Prop :=
  match sy_closeOnce s with
  | Fresh => sy_world s = w0 /\ sy_closed s = [] /\ sy_done s = 0%nat /\ sy_closeError s = None /\ unanswered (sy_callers s)
  | Running n k errs =>
      close_parts [] (take k (parts d)) w0 = (Ok errs, sy_world s) /\ (k <= length (parts d))%nat /\
      sy_closed s = seq 0 k /\ sy_done s = 0%nat /\ sy_closeError s = None /\ unanswered (sy_callers s)
  | Finished =>
      (exists k, sy_closed s = seq 0 k /\ (k <= length (parts d))%nat) /\
      ((sy_closed s = seq 0 (length (parts d)) /\ close d w0 = (Ok (sy_closeError s), sy_world s) /\ sy_done s = 1%nat /\
        forall n c, sy_callers s !! n = Some c -> c = Waiting \/ c = Returned (sy_closeError s)) \/
       (sy_closeError s = None /\ sy_done s = 0%nat /\ exists n m, close d w0 = (Panic m, sy_world s) /\
        sy_callers s !! n = Some (Crashed m) /\
        forall n' c, sy_callers s !! n' = Some c -> c = Waiting \/ c = Returned None \/ n' = n))
  end.

Lemma close_parts_snoc d k part errs w0 w :
  parts d !! k = Some part -> close_parts [] (take k (parts d)) w0 = (Ok errs, w) ->
  close_parts [] (take (S k) (parts d)) w0 = close_part errs part w.
Proof.
  intros Hk E. rewrite (take_S_r _ _ _ Hk), close_parts_app. unfold mbind, M_bind. rewrite E. simpl.
  unfold mbind, M_bind. by destruct (close_part errs part w) as [[]].
Qed.

(** A part that panics ends the run of [close]. *)
Lemma close_panics d k part errs w0 w m w' :
  parts d !! k = Some part -> close_parts [] (take k (parts d)) w0 = (Ok errs, w) -> close_part errs part w = (Panic m, w') ->
  close d w0 = (Panic m, w').
Proof.
  intros Hk E Ep. rewrite close_is_parts, <- (take_drop (S k) (parts d)). unfold mbind at 1, M_bind at 1.
  rewrite close_parts_app. unfold mbind at 1, M_bind at 1. by rewrite (close_parts_snoc _ _ _ _ _ _ Hk E), Ep.
Qed.

Lemma unanswered_waiting cs n : unanswered cs -> unanswered (<[n := Waiting]> cs).
Proof. intros H n' c. rewrite lookup_insert. case_decide; [by intros [= <-]|apply H]. Qed.

Lemma invariant_step d w0 s s' : invariant d w0 s -> step d s s' -> invariant d w0 s'.
Proof.
  intros Hi Hs. destruct Hs as [n o e dn l w cs Hn|n e dn l w cs Hn|n k errs part errs' w' e dn l w cs Hk Ep|
    n k errs part m w' e dn l w cs Hk Ep|n k errs e dn l w cs ->|n e dn l w cs Hn]; unfold invariant in *; cbn [sy_closeOnce sy_closeError sy_done sy_closed sy_world sy_callers] in *.
  - destruct o as [|n0 k errs|].
    + destruct Hi as (?&?&?&?&?). split_and!; auto using unanswered_waiting.
    + destruct Hi as (?&?&?&?&?&?). split_and!; auto using unanswered_waiting.
    + destruct Hi as (?&[(?&?&?&Hc)|(?&?&n1&m&?&Hn1&Hc)]); (split; [done|]).
      * left. split_and!; [done..|]. intros n' c. rewrite lookup_insert. case_decide; [intros [= <-]; by left|apply Hc].
      * right. split; [done|]. split; [done|]. exists n1, m. split; [done|]. split.
        -- rewrite lookup_insert_ne; [done|]. intros ->. congruence.
        -- intros n' c. rewrite lookup_insert. case_decide; [intros [= <-]; by left|apply Hc].
  - destruct Hi as (->&->&->&->&Hu). split_and!; [done|lia|done..].
  - destruct Hi as (E&Hle&->&->&->&Hu). rewrite (close_parts_snoc _ _ _ _ _ _ Hk E).
    apply lookup_lt_Some in Hk. split_and!; [done|lia| |done..]. by rewrite seq_S.
  - destruct Hi as (E&Hle&->&->&->&Hu). pose proof (lookup_lt_Some _ _ _ Hk) as Hlt. split.
    { exists (S k). split; [by rewrite seq_S|lia]. }
    right. split_and!; [done..|]. exists n, m. split; [by apply (close_panics d k part errs w0 w)|].
    split; [by rewrite lookup_insert_eq|]. intros n' c. rewrite lookup_insert. case_decide; [auto|]. intros Hc. left. by eapply Hu.
  - destruct Hi as (E&Hle&->&->&->&Hu). split; [by eexists|]. left. rewrite firstn_all in E. split_and!; [done| |done|].
    + rewrite close_is_parts. unfold mbind, M_bind. by rewrite E.
    + intros n' c. rewrite lookup_insert. case_decide; [intros [= <-]; by right|]. intros Hc. left. by eapply Hu.
  - destruct Hi as (?&[(?&?&?&Hc)|(?&?&n1&m&?&Hn1&Hc)]); (split; [done|]).
    + left. split_and!; [done..|]. intros n' c. rewrite lookup_insert. case_decide; [intros [= <-]; by right|apply Hc].
    + right. split; [done|]. split; [done|]. exists n1, m. split; [done|]. split.
      * rewrite lookup_insert_ne; [done|]. intros ->. congruence.
      * intros n' c. rewrite lookup_insert. case_decide; [intros [= <-]; subst; auto|apply Hc].
Qed.

Lemma reachable_invariant d w0 s : rtc (step d) (start w0) s -> invariant d w0 s.
Proof.
  intros Hrun. assert (invariant d w0 (start w0)) as H0.
  { unfold invariant. simpl. split_and!; [done..|]. intros n c. by rewrite lookup_empty. }
  induction Hrun as [|s1 s2 s3 Hs _ IH]; [done|]. apply IH. by eapply invariant_step.
Qed.

(** Whatever goroutines call [Close] and however they interleave, [close] is run
    once, by one of them: every part is closed at most once and in order; a caller
    that returned has the joined errors of one sequential run of [close] that ended,
    and then every part was closed and [done] was closed exactly once; unless a
    part panicked: then the other callers return no error, although the parts
    behind it were not closed and [done] never is. *)
Theorem Close_once d w0 s :
  rtc (step d) (start w0) s ->
  (exists k, sy_closed s = seq 0 k /\ (k <= length (parts d))%nat) /\ (sy_done s <= 1)%nat /\
  forall n e, sy_callers s !! n = Some (Returned e) ->
    (close d w0 = (Ok e, sy_world s) /\ sy_closed s = seq 0 (length (parts d)) /\ sy_done s = 1%nat) \/
    (exists m, close d w0 = (Panic m, sy_world s) /\ e = None /\ sy_done s = 0%nat).
Proof.
  intros Hrun. pose proof (reachable_invariant _ _ _ Hrun) as Hi.
  clear Hrun. unfold invariant in Hi. destruct (sy_closeOnce s) as [|n k errs|].
  - destruct Hi as (_&->&->&_&Hu). split; [exists 0%nat; split; [done|lia]|]. split; [lia|]. intros n e Hn. by apply Hu in Hn.
  - destruct Hi as (_&Hk&->&->&_&Hu). split; [by eexists|]. split; [lia|]. intros n' e Hn. by apply Hu in Hn.
  - destruct Hi as (Hk&[(Hc&E&Hd&Hall)|(He&Hd&n&m&E&Hn&Hall)]); (split; [done|]); rewrite Hd; (split; [lia|]); intros n' e Hn'.
    + destruct (Hall _ _ Hn') as [|[= ->]]; [done|]. left. by split_and!.
    + destruct (Hall _ _ Hn') as [|[[= ->]| ->]]; [done| |congruence]. right. exists m. by split_and!.
Qed.

(** The winner's run ends, by the end of [close] or by a panic. *)
Lemma running_ends d n k errs e dn l w cs :
  (k <= length (parts d))%nat ->
  exists e' dn' l' w' cs', rtc (step d) (MkSystem (Running n k errs) e dn l w cs) (MkSystem Finished e' dn' l' w' cs') /\
    cs' !! n ≠ Some Waiting /\ forall n', n' ≠ n -> cs' !! n' = cs !! n'.
Proof.
  remember (length (parts d) - k)%nat as rest eqn:Hr. revert k errs l w Hr. induction rest as [|rest IH]; intros k errs l w Hr Hk.
  - do 5 eexists. split; [apply rtc_once, step_end; lia|]. split; [by rewrite lookup_insert_eq|].
    intros n' Hn. by rewrite lookup_insert_ne.
  - destruct (lookup_lt_is_Some_2 (parts d) k) as [part Hp]; [lia|].
    destruct (close_part_cases errs part w) as [(errs'&w'&E)|(m&w'&E)].
    + destruct (IH (S k) errs' (l ++ [k]) w') as (e'&dn'&l'&w''&cs'&Hrun&Hcs); [lia|lia|]. do 5 eexists.
      split; [|exact Hcs]. eapply rtc_l; [|exact Hrun]. by eapply step_close.
    + do 5 eexists. split; [by eapply rtc_once, step_panic|]. split; [by rewrite lookup_insert_eq|].
      intros n' Hn. by rewrite lookup_insert_ne.
Qed.

(** No caller waits for ever: from any reachable state it is answered by steps of
    the winner and one of its own. *)
Theorem Close_answers d w0 s n :
  rtc (step d) (start w0) s -> sy_callers s !! n = Some Waiting ->
  exists s', rtc (step d) s s' /\ sy_callers s' !! n ≠ Some Waiting.
Proof.
  intros Hi%reachable_invariant Hn. destruct s as [o e dn l w cs]. simpl in Hn.
  assert (forall n0 k errs, (k <= length (parts d))%nat ->
    exists s', rtc (step d) (MkSystem (Running n0 k errs) e dn l w cs) s' /\ sy_callers s' !! n ≠ Some Waiting) as Hrunning.
  { intros n0 k errs Hk. destruct (running_ends d n0 k errs e dn l w cs Hk) as (e'&dn'&l'&w'&cs'&Hrun&Hn0&Hcs).
    destruct (decide (n = n0)) as [->|Hne]; [by eexists|]. eexists. split.
    - eapply rtc_r; [exact Hrun|]. apply step_wait. by rewrite Hcs.
    - simpl. by rewrite lookup_insert_eq. }
  destruct o as [|n0 k errs|].
  - destruct (Hrunning n 0%nat [] ltac:(lia)) as (s'&Hrun&Hs'). exists s'. split; [|done].
    eapply rtc_l; [by apply step_win|exact Hrun].
  - apply Hrunning, Hi.
  - eexists. split; [by apply rtc_once, step_wait|]. simpl. by rewrite lookup_insert_eq.
Qed.
End Closing.

(** The core and the database fail to close: both errors are reported, and the
    parts after them are closed all the same. *)
Example close_reports :
  let part name : M (list string) unit := fun w => (Ok tt, w ++ [name]) in
  let bad name : M (list string) unit := fun w => (Err (EExt name), w ++ [name]) in
  let quiet name (w : list string) := (@None string, w ++ [name]) in
  let d := MkHandles (part "server") None (part "ingest") (bad "core") (quiet "jsonrpc") (bad "db") (quiet "preflight")
             (Some (part "datastore")) in
  close d [] = (Ok (Some (EJoin (EExt "core") (EExt "db"))),
                ["server"; "ingest"; "core"; "jsonrpc"; "db"; "preflight"; "datastore"]).
Proof. vm_compute. done. Qed.
