(* ===== verification/Server.v ===== *)
(** * The process: commands, HTTP servers and their end (main.go, daemon/daemon.go, db/db.go)

    What the commands of the binary do with the configuration, how the database is
    opened, what the two HTTP servers are made of, and [Daemon.Run], which ends
    with the shutdown of Shutdown.v. *)

From S2P Require Import Prelude GoStd GoText Sdk Tables Db FeeWindow Config ConfigOptions ConfigLoad ConfigRender ConfigRoundtrip Daemon DaemonWiring Network JsonRpc Shutdown.

(** ** Opening the database *)

Definition serveSQLitePragmas : string := "_journal_mode=WAL&_synchronous=NORMAL".
Definition indexBuildSQLitePragmas : string := serveSQLitePragmas +:+ "&_cache_size=-32768".

Section Open.
Context {W Session : Type}.
(** The database package and sql-migrate *)
Context (sql_Open : string -> M W Session) (ExecMax : Session -> M W unit) (session_Close : Session -> M W unit)
  (RegisterMetrics : Session -> M W Session).

Definition openSQLiteDB (dbFilePath : string) : M W Session :=
  session ← map_err (EWrap "open failed") (sql_Open ("file:" +:+ dbFilePath +:+ "?" +:+ serveSQLitePragmas));
  r ← attempt (ExecMax session);
  match r with
  | inr err => attempt (session_Close session) ;; fail (EWrap "could not run SQL migrations" err)
  | inl _ => mret session
  end.

(** The session and the empty cache of a [DB] *)
Definition OpenSQLiteDB (dbFilePath : string) : M W (Session * dbCache) :=
  session ← openSQLiteDB dbFilePath;
  mret (session, zeroCache).
Definition OpenSQLiteDBWithPrometheusMetrics (dbFilePath : string) : M W (Session * dbCache) :=
  session ← openSQLiteDB dbFilePath;
  session ← RegisterMetrics session;
  mret (session, zeroCache).
End Open.

(** ** The HTTP servers *)

Inductive Addr := TCPAddr (ip : string) (port : Z) | OtherAddr (name : string).

Inductive admin_route := PprofIndex | PprofCmdline | PprofProfile | PprofSymbol | PprofTrace
  | PprofHandler (profile : string) | MetricsHandler.

Record http_servers := MkServers {
  hs_listener : Addr;
  hs_ReadTimeout : Z;
  hs_routes : list (string * Handler);
  hs_admin : option (Addr * list (string * admin_route));
}.

Definition defaultReadTimeout : Z := 5 * Second.

Section Servers.
Context `{TT : TomlTypes} `{CS : !ConfigSdk} `{MN : MethodNames}.
(** The network and the profiles of the runtime *)
Context (Listen : string -> Res Addr) (Profiles : list string).

Definition createHTTPHandler (jsonRPCHandler : Handler) : list (string * Handler) := [("/", jsonRPCHandler)].

Definition createAdminMux : list (string * admin_route) :=
  [("/debug/pprof/", PprofIndex); ("/debug/pprof/cmdline", PprofCmdline); ("/debug/pprof/profile", PprofProfile);
   ("/debug/pprof/symbol", PprofSymbol); ("/debug/pprof/trace", PprofTrace)] ++
  ((fun profile => ("/debug/pprof/" +:+ profile, PprofHandler profile)) <$> Profiles) ++
  [("/metrics", MetricsHandler)].

Definition setupAdminServer (cfg : Config) : Res (Addr * list (string * admin_route)) :=
  adminListener ← must_res "cannot listen on admin endpoint" (Listen (string_field "AdminEndpoint" cfg));
  Ok (adminListener, createAdminMux).

Definition setupHTTPServers (cfg : Config) (jsonRPCHandler : Handler) : Res http_servers :=
  listener ← must_res "cannot listen on endpoint" (Listen (string_field "Endpoint" cfg));
  admin ← (if decide (string_field "AdminEndpoint" cfg <> "") then a ← setupAdminServer cfg; Ok (Some a) else Ok None);
  Ok {| hs_listener := listener; hs_ReadTimeout := defaultReadTimeout;
        hs_routes := createHTTPHandler jsonRPCHandler; hs_admin := admin |}.

(** The assertion that an address is one of TCP *)
Definition as_TCPAddr (a : Addr) : Res (string * Z) :=
  match a with TCPAddr ip port => Ok (ip, port) | OtherAddr _ => Panic "interface conversion" end.

Definition GetEndpointAddrs (d : http_servers) : Res ((string * Z) * option (string * Z)) :=
  addr ← as_TCPAddr (hs_listener d);
  match hs_admin d with
  | Some (a, _) => adminAddr ← as_TCPAddr a; Ok (addr, Some adminAddr)
  | None => Ok (addr, None)
  end.

(** ** The other parts made of the configuration *)

Record WorkerPoolConfig := MkWorkerPoolConfig { WorkerCount : Z; JobQueueCapacity : Z; EnableDebug : bool; pool_NetworkPassphrase : string }.

Definition createPreflightWorkerPool (cfg : Config) : WorkerPoolConfig :=
  {| WorkerCount := num_field "PreflightWorkerCount" cfg; JobQueueCapacity := num_field "PreflightWorkerQueueSize" cfg;
     EnableDebug := bool_field "PreflightEnableDebug" cfg; pool_NetworkPassphrase := string_field "NetworkPassphrase" cfg |}.

(** What [setupLogger] sets, the level and whether lines are JSON *)
Definition setupLogger (cfg : Config) : Z * bool :=
  (num_field "LogLevel" cfg, bool_decide (num_field "LogFormat" cfg = LogFormatJSON)).

Definition mustCreateDataStore {DS Schema} (NewDataStore : Struct -> Res DS) (LoadSchema : DS -> Struct -> Res Schema)
    (cfg : Config) : Res (DS * Schema) :=
  dataStore ← must_res "failed to initialize datastore" (NewDataStore (struct_field "DataStoreConfig" cfg));
  schema ← must_res "failed to retrieve datastore schema " (LoadSchema dataStore (struct_field "DataStoreConfig" cfg));
  Ok (dataStore, schema).

(** The passphrase of the readers of transactions and events, and the reader of
    old ledgers, given to the handler of jsonrpc.go *)
Definition createJSONRPCHandler {DS Schema R} (NewLedgerReader : Struct -> DS -> Schema -> R)
    (dataStore : DS) (schema : Schema) (cfg : Config) : Handler * string * option R :=
  (NewJSONRPCHandler cfg, string_field "NetworkPassphrase" cfg,
   if bool_field "ServeLedgersFromDatastore" cfg
   then Some (NewLedgerReader (struct_field "BufferedStorageBackendConfig" cfg) dataStore schema) else None).
End Servers.

(** ** Running *)

(** Where [Run] is; [Exited] is the process ended by [Fatal] or by a panic. *)
Inductive run_state := Selecting | InClose | Returned_run | Exited (code : Z).

Definition ErrServerClosed : error := EExt "http: Server closed".

Section Run.
Context {W : Type} (d : handles (W := W)).

Record program := MkProgram { pr_run : run_state; pr_daemon : system (W := W); pr_logged : list string }.

(** [Run] is caller 0 of [Close]; the other callers and the closing itself go on
    meanwhile.  The two servers end when they like: with an error of their own,
    the JSON-RPC server ends the process, the admin server is only logged. *)
Inductive run_step : program -> program -> Prop :=
  | run_daemon r s s' log :
      r <> Exited 1 -> step d s s' -> (sy_callers s !! 0%nat = None -> sy_callers s' !! 0%nat = None) ->
      run_step (MkProgram r s log) (MkProgram r s' log)
  | run_signal o e dn l w cs log :
      cs !! 0%nat = None ->
      run_step (MkProgram Selecting (MkSystem o e dn l w cs) log)
               (MkProgram InClose (MkSystem o e dn l w (<[0%nat := Waiting]> cs)) log)
  | run_done s log :
      (0 < sy_done s)%nat -> run_step (MkProgram Selecting s log) (MkProgram Returned_run s log)
  | run_closed s e log :
      sy_callers s !! 0%nat = Some (Returned e) -> run_step (MkProgram InClose s log) (MkProgram Returned_run s log)
  | run_serve r s err log :
      r <> Exited 1 -> err <> ErrServerClosed ->
      run_step (MkProgram r s log)
        (MkProgram (Exited 1) s (log ++ ["soroban JSON RPC server encountered fatal error: " +:+ error_message err]))
  | run_admin_serve r s err log :
      adminServer_Shutdown d <> None -> r <> Exited 1 -> err <> ErrServerClosed ->
      run_step (MkProgram r s log)
        (MkProgram r s (log ++ ["soroban admin server encountered fatal error: " +:+ error_message err])).

Definition running (w : W) : program := MkProgram Selecting (start w) [].

Lemma run_step_daemon p p' : run_step p p' -> rtc (step d) (pr_daemon p) (pr_daemon p').
Proof.
  intros [r s s' log _ H _|o e dn l w cs log H|s log _|s e log _|r s err log _ _|r s err log _ _ _]; cbn;
    [by apply rtc_once|by apply rtc_once, step_call|done..].
Qed.

Lemma run_reaches w p : rtc run_step (running w) p -> rtc (step d) (start w) (pr_daemon p).
Proof.
  intros H. change (start w) with (pr_daemon (running w)). revert H. generalize (running w). intros q H.
  induction H as [|q q' p Hs _ IH]; [done|]. etransitivity; [by apply run_step_daemon|exact IH].
Qed.

(** Closed to the end, with its joined errors, or as far as a part that panicked *)
Definition closed (w : W) (s : system) : Prop :=
  sy_closeOnce s = Finished /\
  ((close d w = (Ok (sy_closeError s), sy_world s) /\ sy_closed s = seq 0 (length (parts d)) /\ sy_done s = 1%nat) \/
   exists m, close d w = (Panic m, sy_world s)).

Lemma closed_when w s : invariant d w s ->
  (0 < sy_done s)%nat \/ (exists n e, sy_callers s !! n = Some (Returned e)) -> closed w s.
Proof.
  intros Hi Hw. unfold invariant in Hi. unfold closed. destruct (sy_closeOnce s) as [|n k errs|].
  - destruct Hi as (_ & _ & Hd & _ & Hu). destruct Hw as [|(n & e & Hn)]; [lia|]. by apply Hu in Hn.
  - destruct Hi as (_ & _ & _ & Hd & _ & Hu). destruct Hw as [|(n' & e & Hn)]; [lia|]. by apply Hu in Hn.
  - split; [done|]. destruct Hi as (_ & [(Hc & E & Hd & _)|(_ & _ & n & m & E & _)]); [by left|right; by exists m].
Qed.

(** Finished stays finished. *)
Lemma closed_stays w s s' : invariant d w s -> closed w s -> step d s s' -> closed w s'.
Proof.
  intros Hi [Hf Hc] Hs. pose proof (invariant_step _ _ _ _ Hi Hs) as Hi'.
  destruct Hs; cbn in *; try done.
Qed.

(** [Run] returns only when the daemon is closed: every part of it, once and in
    order, unless one panicked. *)
Theorem Run_returns_closed w p :
  rtc run_step (running w) p -> pr_run p = Returned_run -> closed w (pr_daemon p).
Proof.
  intros Hrun Hr.
  assert (forall p, rtc run_step (running w) p ->
    invariant d w (pr_daemon p) /\ (pr_run p = Returned_run -> closed w (pr_daemon p))) as H; [|by apply H].
  clear. intros p H. split; [by apply reachable_invariant, run_reaches|].
  revert p H. apply (rtc_ind_r (fun p => pr_run p = Returned_run -> closed w (pr_daemon p))); [done|].
  intros q p Hq Hs IH.
  assert (invariant d w (pr_daemon q)) as Hi by by apply reachable_invariant, run_reaches.
  destruct Hs as [r s s' log _ H _|o e dn l w' cs log H|s log Hd|s e log He|r s err log _ _|r s err log _ _ _];
    cbn in *; intros Hr; try done; [|apply closed_when; by auto|apply closed_when; eauto|by apply IH].
  eapply closed_stays; [exact Hi|by apply IH|done].
Qed.

(** A signal is answered: [Run] is then a caller of [Close], and its call ends. *)
Theorem Run_signal_closes w s log :
  rtc (step d) (start w) s -> sy_callers s !! 0%nat = None ->
  exists p s', run_step (MkProgram Selecting s log) p /\ pr_run p = InClose /\
    rtc (step d) (pr_daemon p) s' /\ sy_callers s' !! 0%nat <> Some Waiting.
Proof.
  intros Hs H0. destruct s as [o e dn l w' cs]. cbn in H0.
  exists (MkProgram InClose (MkSystem o e dn l w' (<[0%nat := Waiting]> cs)) log).
  destruct (Close_answers d w (MkSystem o e dn l w' (<[0%nat := Waiting]> cs)) 0) as (s' & Hr & Ha).
  - eapply rtc_r; [exact Hs|by apply step_call].
  - cbn. by rewrite lookup_insert_eq.
  - exists s'. split_and!; [by apply run_signal|done|done|done].
Qed.
End Run.

(** ** The commands *)

Record outcome := MkOutcome { o_stdout : list string; o_stderr : list string; o_exit : Z }.

Definition exit_with (err : string) : outcome := MkOutcome [] [err] 1.

Section Commands.
Context `{TT : TomlTypes} `{CS : !ConfigSdk} `{PF : !Pflag} `{OS : Os} `{TW : !TomlWriter}.
Context (lookupEnv : string -> option string).
(** The version constants, as set at build time and by the XDR package *)
Context (Version CommitHash Branch xdr_CommitHash RSSorobanEnvVersionPrev RSSorobanEnvVersionCurr : string).

(** The root command: the configuration the server is run with, or the end *)
Definition root_Run (fs : FlagSet) (opts : list Option) (cfg : Config) : Res (outcome + Config) :=
  match SetValues lookupEnv fs opts cfg with
  | (Err err, _) => Ok (inl (exit_with (error_message err)))
  | (Panic m, _) => Panic m
  | (Ok _, cfg) =>
      match Options_Validate opts cfg with
      | (Some err, _) => Ok (inl (exit_with (error_message err)))
      | (None, cfg) => Ok (inr cfg)
      end
  end.

Definition version_Run : outcome :=
  MkOutcome
    ((if decide (CommitHash = "") then "stellar-rpc dev"
      else "stellar-rpc " +:+ Version +:+ " (" +:+ CommitHash +:+ ") " +:+ (if decide (Branch = "main") then "" else Branch)) ::
     ["stellar-xdr " +:+ xdr_CommitHash; "soroban-env-host-prev " +:+ RSSorobanEnvVersionPrev;
      "soroban-env-host-curr " +:+ RSSorobanEnvVersionCurr]) [] 0.

(** Not validated: what is generated may be incomplete. *)
Definition gen_config_file_Run (is_nil : string -> bool) (fs : FlagSet) (opts : list Option) (cfg : Config) : Res outcome :=
  match SetValues lookupEnv fs opts cfg with
  | (Err err, _) => Ok (exit_with (error_message err))
  | (Panic m, _) => Panic m
  | (Ok _, cfg) =>
      match MarshalTOML is_nil opts cfg with
      | Ok out => Ok (MkOutcome [out] [] 0)
      | Err err => Ok (exit_with (error_message err))
      | Panic m => Panic m
      end
  end.

(** What cobra makes of the command line: a command and the flags, or an error *)
Inductive command := Root | VersionCmd | GenConfigFile (is_nil : string -> bool).

Definition main (declared : FlagSet) (Execute : FlagSet -> (command * FlagSet) + error) (cfg : Config)
    : Res (outcome + Config) :=
  match AddFlags options declared with
  | Err err => Ok (inl (exit_with ("could not parse config options: " +:+ error_message err)))
  | Panic m => Panic m
  | Ok (opts, fs) =>
      match Execute fs with
      | inr err => Ok (inl (exit_with ("could not run: " +:+ error_message err)))
      | inl (Root, fs) => root_Run fs opts cfg
      | inl (VersionCmd, _) => Ok (inl version_Run)
      | inl (GenConfigFile is_nil, fs) => out ← gen_config_file_Run is_nil fs opts cfg; Ok (inl out)
      end
  end.

(** The server is only run with a configuration every validator has accepted. *)
Lemma main_serves declared Execute cfg cfg' :
  main declared Execute cfg = Ok (inr cfg') ->
  exists opts fs fs' cfg1, AddFlags options declared = Ok (opts, fs) /\ Execute fs = inl (Root, fs') /\
    SetValues lookupEnv fs' opts cfg = (Ok tt, cfg1) /\ Options_Validate opts cfg1 = (None, cfg').
Proof.
  unfold main. destruct (AddFlags options declared) as [[opts fs]| |]; [|done..].
  destruct (Execute fs) as [[[| |is_nil] fs']|err] eqn:He; [|done| |done].
  - unfold root_Run. destruct (SetValues lookupEnv fs' opts cfg) as [[[]| |] cfg1] eqn:Es; [|done..].
    destruct (Options_Validate opts cfg1) as [[err|] cfg2] eqn:Ev; [done|]. intros [= <-].
    by exists opts, fs, fs', cfg1.
  - unfold mbind, Res_bind. by destruct (gen_config_file_Run _ _ _ _).
Qed.
End Commands.

(** ** A start and an end *)

#[local] Existing Instances ex_toml_types ex_config_sdk ex_os ex_pflag ex_writer.

Definition ex_Listen (endpoint : string) : Res Addr :=
  if decide (endpoint = "env:2") then Ok (TCPAddr "127.0.0.1" 8000) else Err (EExt "address in use").

Definition ex_handles : handles (W := list string) :=
  let part name : M (list string) unit := fun w => (Ok tt, w ++ [name]) in
  let quiet name (w : list string) := (@None string, w ++ [name]) in
  MkHandles (part "server") None (part "ingest") (part "core") (quiet "jsonrpc") (part "db") (quiet "preflight") None.

Definition ex_main (Execute : FlagSet -> (command * FlagSet) + error) : Res (outcome + Config) :=
  main ex_env "21" "abc" "main" "x" "p" "c" ([] : list (string * (kind * any * bool))) Execute ex_empty.

Definition ex_served : Config :=
  match ex_main (fun _ => inl (Root, ex_flags)) with Ok (inr cfg) => cfg | _ => ex_empty end.

Example ex_process :
  string_field "Endpoint" ex_served = "env:2" /\
  match setupAdminServer ex_Listen ["heap"] ex_served with
  | Panic m => m = "cannot listen on admin endpoint: address in use"
  | _ => False
  end /\
  (setupLogger ex_served).2 = true /\
  match ex_main (fun fs => inl (VersionCmd, fs)) with
  | Ok (inl out) => o_stdout out = ["stellar-rpc 21 (abc) "; "stellar-xdr x"; "soroban-env-host-prev p"; "soroban-env-host-curr c"]
  | _ => False
  end /\
  match ex_main (fun _ => inr (EMsg "unknown command")) with
  | Ok (inl out) => out = exit_with "could not run: unknown command"
  | _ => False
  end /\
  createAdminMux ["heap"] !! 5%nat = Some ("/debug/pprof/heap", PprofHandler "heap").
Proof. vm_compute. repeat split. Qed.

(** A signal on a running server: everything is closed, and [Run] returns. *)
Example ex_signal : exists p,
  rtc (run_step ex_handles) (running []) p /\ pr_run p = Returned_run /\
  sy_world (pr_daemon p) = ["server"; "ingest"; "core"; "jsonrpc"; "db"; "preflight"].
Proof.
  eexists. split; [|split].
  - eapply rtc_l; [by apply run_signal|].
    eapply rtc_l; [apply run_daemon; [done|by apply (step_win _ 0)|done]|].
    do 6 (eapply rtc_l; [apply run_daemon; [done|by eapply step_close|done]|]).
    eapply rtc_l; [apply run_daemon; [done|by apply step_end|done]|].
    eapply rtc_l; [by eapply run_closed|]. apply rtc_refl.
  - done.
  - by vm_compute.
Qed.
