(* ===== verification/PerfHarness.v ===== *)
(** * The harness of the performance evaluation
    (integrationtest/infrastructure/perf-eval/harness)

    A leg of the evaluation runs on a box of its own and reports through one
    object in S3, which a second program polls for.  The operating system, the
    object store and the remote shell are the class [Box]; what the harness does
    with them is translated call by call, and what a box publishes is shown to be
    what the gatherer relays. *)

From S2P Require Import Prelude GoStd GoText GoStrings GoFloat GoCodec GoJson.

(** ** The outside of a leg *)

(** Files, processes and clock (packages os, os/exec and time), the calls of the
    AWS SDK the harness makes, sha256 and zstd.  [Exec] gives the chunks the
    child wrote, on both its outputs; [ExecTo] appends its standard output to a
    file, [Output] returns it.  [OpenAppend] creates the file when there is none.  A [stream] is what can be read of a body
    and the error that ends it, if any. *)
Definition stream : Type := string * option error.

Class Box := {
  World : Type;
  Getenv : string -> string;
  Getwd : M World string;
  Now : M World Z;
  Sleep : Z -> M World unit;
  ReadFile : string -> M World string;
  WriteFile : string -> string -> M World unit;
  AppendFile : string -> string -> M World unit;
  Exec : string -> list string -> string -> list string -> World -> (list string * option error) * World;
  ExecTo : string -> string -> string -> list string -> M World unit;
  Output : string -> list string -> M World string;
  OpenAppend : string -> M World unit;
  MkdirAll : string -> M World unit;
  RemoveFile : string -> M World unit;
  RemoveAll : string -> M World unit;
  Chmod : string -> Z -> M World unit;
  StatSize : string -> M World Z;
  LoadDefaultConfig : string -> M World unit;
  GetObject : string -> string -> M World stream;
  HeadObject : string -> string -> M World (gmap string string);
  PutObject : string -> string -> string -> string -> M World unit;
  NoSuchKey : error -> bool;
  ErrorCode : error -> option string;
  SendCommand : string -> string -> M World string;
  WaitCommandExecuted : string -> string -> M World unit;
  GetCommandInvocation : string -> string -> M World string;
  sha256 : string -> string;
  zstd_NewReader : stream -> Res stream;
  CreateFile : string -> M World unit;
  SyncFile : string -> M World unit
}.

(** ** exec.go *)

(** [tailWriter] *)
Record tailWriter := { tw_max : Z; tw_buf : string }.

(** The last [n] characters of a string, [w.buf[len(w.buf)-n:]] *)
Fixpoint string_drop (n : nat) (s : string) : string :=
  match n, s with
  | S n, String _ s => string_drop n s
  | _, _ => s
  end.

(** [tailWriter.Write] *)
Definition Write (w : tailWriter) (p : string) : tailWriter :=
  let buf := tw_buf w +:+ p in
  {| tw_max := tw_max w;
     tw_buf := if decide (strlen buf > tw_max w) then string_drop (Z.to_nat (strlen buf - tw_max w)) buf else buf |}.

(** The cut set of [strings.TrimRight] and [strings.Trim] is one character. *)
Fixpoint TrimRightChar (c : Ascii.ascii) (s : string) : string :=
  match s with
  | EmptyString => ""
  | String x r => let r := TrimRightChar c r in if decide (x = c /\ r = "") then "" else String x r
  end.
Fixpoint TrimLeftChar (c : Ascii.ascii) (s : string) : string :=
  match s with String x r => if decide (x = c) then TrimLeftChar c r else s | EmptyString => "" end.

Definition newline : string := str1 (char 10).

Definition lastLines (s : string) (n : Z) : string :=
  let lines := Split (char 10) (TrimRightChar (char 10) s) in
  let lines := if decide (zlen lines > n) then drop (Z.to_nat (zlen lines - n)) lines else lines in
  Join lines newline.

Section Exec.
Context `{B : Box}.

Definition RunStreaming (dir : string) (env : list string) (tailN : Z) (name : string) (args : list string)
    : M World unit := fun w =>
  let '((chunks, err), w) := Exec dir env name args w in
  let tail := foldl Write {| tw_max := Z.shiftl 64 10; tw_buf := "" |} chunks in
  match err with
  | Some e => (Err (EMsg (error_message e +:+ newline +:+ lastLines (tw_buf tail) tailN)), w)
  | None => (Ok tt, w)
  end.

Definition fence : string := "```".

(** The error of [os.WriteFile] is dropped. *)
Definition BailInstance {A} (resultsFile title runID targetSHA msg : string) : M World A :=
  let body := "❌ **" +:+ title +:+ " failed** (run " +:+ runID +:+ " on `" +:+ targetSHA +:+ "`)" +:+ newline
    +:+ newline +:+ fence +:+ newline +:+ msg +:+ newline +:+ fence +:+ newline in
  attempt (WriteFile resultsFile body) ;;
  fail (EMsg msg).
End Exec.

(** ** harness.go *)

Section Env.
Context `{B : Box}.

Definition Env (key def : string) : string := if decide (Getenv key = "") then def else Getenv key.

Definition missing_env (keys : list string) : list string := filter (fun k => Getenv k = "") keys.

Definition missing_error (keys : list string) : error :=
  EMsg ("missing required env: " +:+ Join (missing_env keys) ", ").

Definition RequireEnv (keys : list string) : Res (list string) :=
  match missing_env keys with
  | [] => Ok (Getenv <$> keys)
  | _ => Err (missing_error keys)
  end.

Definition GetEnv : gmap string string := list_to_map [
  ("BUCKET", Env "BUCKET" "stellar-rpc-ci-load-test"); ("REGION", Env "REGION" "us-east-1");
  ("WORK_DIR", Env "WORK_DIR" "/data"); ("RESULTS_FILE", Env "RESULTS_FILE" "/tmp/results.md");
  ("RESULT_KEY", Getenv "RESULT_KEY"); ("TARGET_SHA", Getenv "TARGET_SHA");
  ("RUN_ID", Env "RUN_ID" "manual"); ("REPO", Env "REPO" "stellar/stellar-rpc") ].

(** [appendOutputs]: [fmt.Fprintln] of the lines to the file of step outputs *)
Definition appendOutputs (path : string) (lines : list string) : M World unit :=
  AppendFile path (Join lines newline +:+ newline).
End Env.

(** ** s3.go *)

(** [Result]; [R_Bench] is the raw JSON, empty when there is none. *)
Record Result := { R_SchemaVersion : Z; R_Verdict : string; R_Markdown : string; R_Bench : string;
                   R_RunID : string; R_TargetSHA : string }.
Definition zero_Result : Result :=
  {| R_SchemaVersion := 0; R_Verdict := ""; R_Markdown := ""; R_Bench := ""; R_RunID := ""; R_TargetSHA := "" |}.

(** The encoder compacts raw JSON and escapes the characters of HTML in it. *)
Fixpoint html_escape (s : string) : string :=
  match s with
  | EmptyString => ""
  | String c r =>
      if bool_decide (code c = 60 \/ code c = 62 \/ code c = 38)%N
      then esc_u 0 0 (hex_digit (code c / 16)) (hex_digit (code c mod 16)) +:+ html_escape r
      else match r with
      | String x (String y r2) =>
          if decide (c = char 226 /\ x = char 128 /\ (y = char 168 \/ y = char 169))
          then esc_u 2 0 (hex_digit 2) (hex_digit (code y mod 16)) +:+ html_escape r2
          else String c (html_escape r)
      | _ => String c (html_escape r)
      end
  end.

Fixpoint json_compact (j : json) : json :=
  match j with
  | JStr b => JStr (html_escape b)
  | JArr l => JArr (json_compact <$> l)
  | JObj l => JObj ((fun '(k, v) => (html_escape k, json_compact v)) <$> l)
  | _ => j
  end.

(** [json.Marshal] of a [Result]; raw JSON that is not JSON is an error. *)
Definition Result_members (r : Result) (bench : list (string * json)) : list (string * json) :=
  [("schemaVersion", json_int (R_SchemaVersion r)); ("verdict", json_string (R_Verdict r));
   ("markdown", json_string (R_Markdown r))] ++ bench ++
  [("runId", json_string (R_RunID r)); ("targetSha", json_string (R_TargetSHA r))].

Definition Result_Marshal (r : Result) : Res json :=
  if decide (R_Bench r = "") then Ok (JObj (Result_members r []))
  else match json_parse (R_Bench r) with
  | Some j => Ok (JObj (Result_members r [("bench", json_compact j)]))
  | None => Err invalid_json
  end.

(** [json.RawMessage] keeps the document, null included; here without the white
    space it may have had. *)
Definition fill_raw (old : string) (j : json) : option string := Some (json_print j).

Definition Result_fields : list (string * (Result -> json -> option Result)) := [
  ("schemaVersion", fun r j => x ← fill_int (R_SchemaVersion r) j;
     Some {| R_SchemaVersion := x; R_Verdict := R_Verdict r; R_Markdown := R_Markdown r; R_Bench := R_Bench r;
             R_RunID := R_RunID r; R_TargetSHA := R_TargetSHA r |});
  ("verdict", fun r j => x ← fill_string (R_Verdict r) j;
     Some {| R_SchemaVersion := R_SchemaVersion r; R_Verdict := x; R_Markdown := R_Markdown r; R_Bench := R_Bench r;
             R_RunID := R_RunID r; R_TargetSHA := R_TargetSHA r |});
  ("markdown", fun r j => x ← fill_string (R_Markdown r) j;
     Some {| R_SchemaVersion := R_SchemaVersion r; R_Verdict := R_Verdict r; R_Markdown := x; R_Bench := R_Bench r;
             R_RunID := R_RunID r; R_TargetSHA := R_TargetSHA r |});
  ("bench", fun r j => x ← fill_raw (R_Bench r) j;
     Some {| R_SchemaVersion := R_SchemaVersion r; R_Verdict := R_Verdict r; R_Markdown := R_Markdown r; R_Bench := x;
             R_RunID := R_RunID r; R_TargetSHA := R_TargetSHA r |});
  ("runId", fun r j => x ← fill_string (R_RunID r) j;
     Some {| R_SchemaVersion := R_SchemaVersion r; R_Verdict := R_Verdict r; R_Markdown := R_Markdown r;
             R_Bench := R_Bench r; R_RunID := x; R_TargetSHA := R_TargetSHA r |});
  ("targetSha", fun r j => x ← fill_string (R_TargetSHA r) j;
     Some {| R_SchemaVersion := R_SchemaVersion r; R_Verdict := R_Verdict r; R_Markdown := R_Markdown r;
             R_Bench := R_Bench r; R_RunID := R_RunID r; R_TargetSHA := x |})].

Section S3.
Context `{B : Box}.

Definition isNotFound (err : error) : bool :=
  NoSuchKey err ||
  match ErrorCode err with Some c => bool_decide (c = "NoSuchKey" \/ c = "NotFound") | None => false end.

Definition PublishResult (bucket key verdict runID targetSHA mdPath benchPath : string) : M World unit :=
  if decide (key = "") then mret tt
  else
    md ← map_err (EWrap ("reading result markdown " +:+ mdPath)) (ReadFile mdPath);
    bench ← (if decide (benchPath = "") then mret ""
             else b ← attempt (ReadFile benchPath); mret (match b with inl b => b | inr _ => "" end));
    body ← map_err (EWrap "marshaling result") (of_res (Result_Marshal
      {| R_SchemaVersion := 1; R_Verdict := verdict; R_Markdown := md; R_Bench := bench;
         R_RunID := runID; R_TargetSHA := targetSHA |}));
    map_err (EWrap "uploading result") (PutObject bucket key (json_print body) "application/json").

(** [io.ReadAll] *)
Definition ReadAll (body : stream) : M World string :=
  match body.2 with Some e => fail e | None => mret body.1 end.

Definition FetchResult (bucket key : string) : M World Result :=
  body ← map_err (fun e => if isNotFound e then ESentinel ErrResultNotReady else e) (GetObject bucket key);
  data ← ReadAll body;
  map_err (EWrap "decoding result object") (of_res (json_Unmarshal (fill_struct Result_fields) data zero_Result)).

(** [S3Fetcher.expectedSHA] *)
Definition expectedSHA (Bucket key : string) : M World string :=
  head ← attempt (HeadObject Bucket key);
  mret (match head with
        | inl metadata => default "" (metadata !! "sha256-raw")
        | inr _ => ""
        end).

(** [S3Fetcher.streamObject]: [io.Copy] writes what it reads to the file and to
    the hasher, up to the first error. *)
Definition streamObject (Bucket key dst : string) (zstdMode : bool) : M World string :=
  out ← GetObject Bucket key;
  src ← (if zstdMode then of_res (zstd_NewReader out) else mret out);
  CreateFile dst ;;
  AppendFile dst src.1 ;;
  data ← ReadAll src;
  SyncFile dst ;;
  mret (hex_EncodeToString (sha256 data)).

(** [S3Fetcher.FetchVerified] *)
Definition FetchVerified (Bucket key dst : string) (zstdMode : bool) (label : string) : M World unit :=
  expected ← expectedSHA Bucket key;
  got ← map_err (EWrap ("failed to download " +:+ label)) (streamObject Bucket key dst zstdMode);
  if decide (expected <> "" /\ expected <> got)
  then fail (EMsg (label +:+ " hash mismatch: expected " +:+ expected +:+ ", got " +:+ got))
  else mret tt.
End S3.

(** ** gather.go *)

(** [strconv.Atoi] on a 64-bit machine: the errors of [ParseInt] under its own name *)
Definition Atoi (s : string) : Res Z :=
  match ParseInt s 64 with
  | Err e => Err (if decide (e = range_error "ParseInt" s) then range_error "Atoi" s else syntax_error "Atoi" s)
  | r => r
  end.

Section Gather.
Context `{B : Box}.

(** [ssmRunner.capture], its three attempts to send the command: the identifier
    of the command, empty when there is none, and the last error. *)
Fixpoint send_attempts (n : nat) (instanceID command : string) (sendErr : option error)
    : M World (string * option error) :=
  match n with
  | O => mret ("", sendErr)
  | S n =>
      out ← attempt (SendCommand instanceID command);
      match out with
      | inl id => mret (id, sendErr)
      | inr err => Sleep (5 * Second) ;; send_attempts n instanceID command (Some err)
      end
  end.

Definition capture (instanceID command : string) : M World string :=
  '(id, sendErr) ← send_attempts 3 instanceID command None;
  if decide (id = "") then
    fail (match sendErr with
          | Some e => EWrap "ssm send-command failed" e
          | None => EMsg "ssm send-command failed: %!w(<nil>)"
          end)
  else
    attempt (WaitCommandExecuted instanceID id) ;;
    inv ← attempt (GetCommandInvocation instanceID id);
    mret (match inv with inl out => out | inr _ => "" end).

Definition debugTail (instanceID : string) (n : Z) : M World string :=
  out ← attempt (capture instanceID ("if [ -f /var/log/user-data.log ]; then tail -n " +:+ FormatInt n +:+
    " /var/log/user-data.log; else echo __NO_DEBUG_LOG__; fi"));
  mret (match out with
        | inl out => if decide (out = "") then "__DEBUG_TAIL_UNAVAILABLE__" else out
        | inr _ => "__DEBUG_TAIL_UNAVAILABLE__"
        end).

Definition workflow_line : string :=
  let srv := Getenv "GITHUB_SERVER_URL" in
  let repo := Getenv "GITHUB_REPOSITORY" in
  let run := Getenv "GITHUB_RUN_ID" in
  if decide (srv <> "" /\ repo <> "" /\ run <> "")
  then "Workflow run: " +:+ srv +:+ "/" +:+ repo +:+ "/actions/runs/" +:+ run +:+ newline else "".

Definition writeTimeoutComment (githubOutput instanceID : string) (resultsTimeout debugLogLines : Z) : M World unit :=
  tail ← debugTail instanceID debugLogLines;
  let b := "❌ Load test did not produce results within " +:+ FormatFixed 0 (Duration_Seconds resultsTimeout) +:+ "s." +:+
    newline +:+ newline +:+ "Instance: `" +:+ instanceID +:+ "`" +:+ newline +:+ workflow_line +:+
    (if decide (tail <> "") then
       newline +:+ "Last " +:+ FormatInt debugLogLines +:+ " lines of /var/log/user-data.log:" +:+ newline +:+ newline +:+
       fence +:+ newline +:+ tail +:+ newline +:+ fence +:+ newline else "") in
  WriteFile "/tmp/timeout-comment.md" b ;;
  appendOutputs githubOutput ["found=false"].

(** What the loop of [Gather] needs of the environment. *)
Record GatherConfig := { g_instanceID : string; g_githubOutput : string; g_bucket : string; g_resultKey : string;
  g_runID : string; g_resultsTimeout : Z; g_pollInterval : Z; g_debugLogLines : Z; g_debugEveryPolls : Z }.

Definition gather_keys : list string :=
  ["INSTANCE_ID"; "AWS_REGION"; "RESULTS_TIMEOUT"; "POLL_INTERVAL"; "GITHUB_OUTPUT";
   "DEBUG_LOG_LINES"; "DEBUG_LOG_EVERY_POLLS"; "BUCKET"; "RESULT_KEY"; "RUN_ID"].

Definition env_int (k : string) : Res Z :=
  match Atoi (Getenv k) with Err e => Err (EWrap k e) | r => r end.

Definition gather_config : Res GatherConfig :=
  match missing_env gather_keys with
  | _ :: _ => Err (missing_error gather_keys)
  | [] =>
      timeout ← env_int "RESULTS_TIMEOUT";
      interval ← env_int "POLL_INTERVAL";
      lines ← env_int "DEBUG_LOG_LINES";
      every ← env_int "DEBUG_LOG_EVERY_POLLS";
      Ok {| g_instanceID := Getenv "INSTANCE_ID"; g_githubOutput := Getenv "GITHUB_OUTPUT";
            g_bucket := Getenv "BUCKET"; g_resultKey := Getenv "RESULT_KEY"; g_runID := Getenv "RUN_ID";
            g_resultsTimeout := i64 (timeout * Second); g_pollInterval := i64 (interval * Second);
            g_debugLogLines := lines; g_debugEveryPolls := every |}
  end.

Inductive GatherOutcome := Relayed (passed : bool) | TimedOut.

Definition relay (g : GatherConfig) (res : Result) : M World GatherOutcome :=
  let passed := bool_decide (R_Verdict res = "ok") in
  WriteFile "/tmp/results.md" (R_Markdown res) ;;
  appendOutputs (g_githubOutput g) ["found=true"; "passed=" +:+ FormatBool passed] ;;
  mret (Relayed passed).

(** The end of an iteration that relays nothing. *)
Definition poll_again (g : GatherConfig) (pollCount : Z) : M World unit :=
  (if decide (g_debugEveryPolls g = 0) then panic "integer divide by zero"
   else if decide (Z.rem pollCount (g_debugEveryPolls g) = 0) then
     debugTail (g_instanceID g) (g_debugLogLines g) ;; mret tt
   else mret tt) ;;
  Sleep (g_pollInterval g).

(** The loop of [Gather]; [None] when the fuel runs out while it is polling. *)
Fixpoint gather_loop (fuel : nat) (g : GatherConfig) (deadline pollCount : Z) : M World (option GatherOutcome) :=
  match fuel with
  | O => mret None
  | S fuel =>
      now ← Now;
      if decide (now < deadline) then
        res ← attempt (FetchResult (g_bucket g) (g_resultKey g));
        match res with
        | inl res =>
            if decide (R_RunID res = g_runID g) then o ← relay g res; mret (Some o)
            else poll_again g pollCount ;; gather_loop fuel g deadline (pollCount + 1)
        | inr _ => poll_again g pollCount ;; gather_loop fuel g deadline (pollCount + 1)
        end
      else
        writeTimeoutComment (g_githubOutput g) (g_instanceID g) (g_resultsTimeout g) (g_debugLogLines g) ;;
        mret (Some TimedOut)
  end.

Definition Gather (fuel : nat) : M World (option GatherOutcome) :=
  g ← of_res gather_config;
  LoadDefaultConfig (Getenv "AWS_REGION") ;;
  now ← Now;
  gather_loop fuel g (now + g_resultsTimeout g) 1.
End Gather.

(** ** leg.go *)

(** [Leg]; the variables are read by env.Parse with these defaults. *)
Record Leg := { L_Title : string; L_Bucket : string; L_Region : string; L_WorkDir : string; L_ResultsFile : string;
  L_ResultKey : string; L_TargetSHA : string; L_RunID : string; L_RepoRoot : string }.

Section Leg.
Context `{B : Box}.

(** [Leg.Bail] *)
Definition Bail {A} (l : Leg) (msg : string) : M World A :=
  BailInstance (L_ResultsFile l) (L_Title l) (L_RunID l) (L_TargetSHA l) msg.

(** What env.Parse (a library) gives for a variable and its default. *)
Variable env_or : string -> string -> string.

Definition LegSetup (title : string) : M World Leg :=
  let l root := {| L_Title := title; L_Bucket := env_or "BUCKET" "stellar-rpc-ci-load-test";
    L_Region := env_or "REGION" "us-east-1"; L_WorkDir := env_or "WORK_DIR" "/data";
    L_ResultsFile := env_or "RESULTS_FILE" "/tmp/results.md"; L_ResultKey := env_or "RESULT_KEY" "";
    L_TargetSHA := env_or "TARGET_SHA" ""; L_RunID := env_or "RUN_ID" "manual"; L_RepoRoot := root |} in
  wd ← attempt Getwd;
  match wd with
  | inr e => Bail (l "") ("getwd: " +:+ error_message e)
  | inl root =>
      aws ← attempt (LoadDefaultConfig (L_Region (l root)));
      match aws with
      | inr e => Bail (l root) ("loading AWS config: " +:+ error_message e)
      | inl _ => mret (l root)
      end
  end.

(** [Leg.Publish] *)
Definition Publish (l : Leg) (benchPath : string) : M World unit :=
  PublishResult (L_Bucket l) (L_ResultKey l) "ok" (L_RunID l) (L_TargetSHA l) (L_ResultsFile l) benchPath.
End Leg.

(** ** health.go *)

Section Health.
Context `{B : Box}.
Context {Health : Type} (Status : Health -> string) (GetHealth : string -> M World Health).
(** The [select] of an iteration: [None] when the interval has passed first. *)
Variable done_or_after : Z -> M World (option error).

Fixpoint AwaitHealthy (fuel : nat) (url : string) (interval : Z) : M World (option Health) :=
  match fuel with
  | O => mret None
  | S fuel =>
      res ← attempt (GetHealth url);
      let again last :=
        sel ← done_or_after interval;
        match sel with
        | Some e => fail (EWrap (url +:+ " never reported healthy (last: " +:+ last +:+ ")") e)
        | None => AwaitHealthy fuel url interval
        end in
      match res with
      | inl h => if decide (Status h = "healthy") then mret (Some h) else again ("status " +:+ quoted (Status h))
      | inr e => again (error_message e)
      end
  end.
End Health.

(** ** The tail of a child's output *)

Lemma string_drop_app n s t : (n <= String.length s)%nat -> string_drop n (s +:+ t) = string_drop n s +:+ t.
Proof.
  revert s. induction n as [|n IH]; intros s H; [by destruct s|]. destruct s as [|c s]; simpl in H; [lia|].
  rewrite string_cons_app. simpl. apply IH. lia.
Qed.

Lemma string_drop_length n s : String.length (string_drop n s) = (String.length s - n)%nat.
Proof.
  revert s. induction n as [|n IH]; intros s; [destruct s; simpl; lia|]. destruct s as [|c s]; simpl; [lia|apply IH].
Qed.

Lemma string_drop_drop n m s : string_drop n (string_drop m s) = string_drop (m + n) s.
Proof.
  revert s. induction m as [|m IH]; intros s; [by destruct s|]. destruct s as [|c s]; [by destruct n|]. simpl. apply IH.
Qed.

Lemma string_drop_0 s : string_drop 0 s = s.
Proof. by destruct s. Qed.

(** The last [max] characters of a string *)
Definition last_chars (max : nat) (s : string) : string := string_drop (String.length s - max) s.

Lemma Write_last max s p :
  Write {| tw_max := Z.of_nat max; tw_buf := last_chars max s |} p =
  {| tw_max := Z.of_nat max; tw_buf := last_chars max (s +:+ p) |}.
Proof.
  unfold Write. cbn [tw_max tw_buf]. f_equal. unfold last_chars.
  rewrite !strlen_app. unfold strlen. rewrite string_drop_length, string_length_app.
  case_decide as Hd.
  - rewrite <-string_drop_app by lia. rewrite string_drop_drop. f_equal. lia.
  - rewrite <-string_drop_app by lia. f_equal. lia.
Qed.

(** Whatever the chunks, the writer holds the last [max] characters of them all. *)
Lemma Write_all max chunks s :
  foldl Write {| tw_max := Z.of_nat max; tw_buf := last_chars max s |} chunks =
  {| tw_max := Z.of_nat max; tw_buf := last_chars max (s +:+ concat_map id chunks) |}.
Proof.
  revert s. induction chunks as [|p chunks IH]; intros s; simpl.
  - by rewrite app_string_nil.
  - rewrite Write_last, IH. by rewrite app_string_assoc.
Qed.

(** The bound of the tail of [RunStreaming], 64 KiB *)
Definition tail_max : nat := Z.to_nat 65536.

Lemma RunStreaming_tail `{B : Box} dir env tailN name args w chunks err w' :
  Exec dir env name args w = ((chunks, err), w') ->
  RunStreaming dir env tailN name args w =
    (match err with
     | None => Ok tt
     | Some e => Err (EMsg (error_message e +:+ newline +:+
                   lastLines (last_chars tail_max (concat_map id chunks)) tailN))
     end, w').
Proof.
  intros E. unfold RunStreaming. rewrite E.
  pose proof (Write_all tail_max chunks "") as Hw.
  change (last_chars tail_max "") with "" in Hw. unfold tail_max in *. rewrite Z2Nat.id in Hw by done.
  change (Z.shiftl 64 10) with 65536. rewrite Hw. cbn [tw_buf]. by destruct err.
Qed.

(** ** The result object *)

Definition fix_Result (r : Result) : Result :=
  {| R_SchemaVersion := R_SchemaVersion r; R_Verdict := utf8_fix (R_Verdict r); R_Markdown := utf8_fix (R_Markdown r);
     R_Bench := R_Bench r; R_RunID := utf8_fix (R_RunID r); R_TargetSHA := utf8_fix (R_TargetSHA r) |}.

(** No bench results, or a file holding a document as [json.Marshal] prints it,
    which nests less than the scanner allows. *)
Definition bench_ok (b : string) : Prop :=
  b = "" \/ exists j, b = json_print j /\ json_wf j /\ json_compact j = j /\ (json_depth j < maxNestingDepth)%N.

Lemma json_print_nonempty j : json_wf j -> json_print j <> "".
Proof.
  intros Hj E. destruct (json_print_head j "" Hj) as (c & r & E' & _). by rewrite app_string_nil, E in E'.
Qed.

Lemma Result_roundtrip r : - 2 ^ 63 <= R_SchemaVersion r < 2 ^ 63 -> bench_ok (R_Bench r) ->
  exists j, Result_Marshal r = Ok j /\ good maxNestingDepth j /\
    fill_struct Result_fields zero_Result j = Some (fix_Result r).
Proof.
  intros Hv Hb. destruct r as [v verdict md bench run sha]. cbn [R_SchemaVersion R_Bench] in *.
  unfold Result_Marshal. cbn [R_Bench]. destruct Hb as [->|(j & -> & Hj & Hc & Hd)].
  - eexists. split; [done|]. split.
    + apply (good_le 1); [by vm_compute|]. apply (good_object 0). unfold Result_members. cbn. good_members.
    + unfold fill_struct, Result_members. cbn [app R_SchemaVersion R_Verdict R_Markdown R_RunID R_TargetSHA]. by fill_steps.
  - rewrite decide_False by by apply json_print_nonempty.
    rewrite json_parse_print, Hc by (done || lia). eexists. split; [done|]. split.
    + assert (good (1 + (maxNestingDepth - 1)) (JObj (Result_members
        {| R_SchemaVersion := v; R_Verdict := verdict; R_Markdown := md; R_Bench := json_print j; R_RunID := run;
           R_TargetSHA := sha |} [("bench", j)]))) as H; [|by eapply good_le; [|exact H]; vm_compute].
      apply good_object. unfold Result_members. cbn [app].
      assert (good (maxNestingDepth - 1) j) by (split; [done|lia]). good_members.
    + unfold fill_struct, Result_members.
      cbn [app R_SchemaVersion R_Verdict R_Markdown R_RunID R_TargetSHA]. fill_steps.
      unfold fill_raw. cbn [mbind option_bind]. by fill_steps.
Qed.

(** ** The store and the clock

    S3 reads back what was written last; the clock does not go back, and a pause
    lasts at least as long as it was asked to. *)

Class StoreLaws `{B : Box} : Prop := {
  put_get : forall b k body ct w w', PutObject b k body ct w = (Ok tt, w') ->
    exists w'', GetObject b k w' = (Ok (body, None), w'')
}.

Class ClockLaws `{B : Box} := {
  clock : World -> Z;
  Now_clock : forall w, Now w = (Ok (clock w), w);
  Sleep_clock : forall d w, exists w', Sleep d w = (Ok tt, w') /\ clock w + Z.max 0 d <= clock w';
  GetObject_clock : forall b k w, clock w <= clock (GetObject b k w).2;
  SendCommand_clock : forall i c w, clock w <= clock (SendCommand i c w).2;
  WaitCommandExecuted_clock : forall i c w, clock w <= clock (WaitCommandExecuted i c w).2;
  GetCommandInvocation_clock : forall i c w, clock w <= clock (GetCommandInvocation i c w).2
}.

Section Relay.
Context `{B : Box}.

Lemma FetchVerified_checked Bucket key dst z label w w' :
  FetchVerified Bucket key dst z label w = (Ok tt, w') ->
  exists expected w1 got, expectedSHA Bucket key w = (Ok expected, w1) /\
    streamObject Bucket key dst z w1 = (Ok got, w') /\ (expected = "" \/ expected = got).
Proof.
  unfold FetchVerified. unfold_m. intros H.
  destruct (expectedSHA Bucket key w) as [[expected| |] w1]; [|done..].
  destruct (streamObject Bucket key dst z w1) as [[got| |] w2] eqn:E; [|done..].
  case_decide as Hd; [done|]. injection H as ->. exists expected, w1, got. split_and!; [done..|].
  destruct (decide (expected = "")); [by left|right]. destruct (decide (expected = got)); [done|].
  exfalso. by apply Hd.
Qed.

(** The object [PublishResult] uploads. *)
Lemma PublishResult_puts bucket key verdict runID targetSHA mdPath benchPath w w' :
  key <> "" ->
  PublishResult bucket key verdict runID targetSHA mdPath benchPath w = (Ok tt, w') ->
  exists md bench body w1 w2,
    ReadFile mdPath w = (Ok md, w1) /\
    (if decide (benchPath = "") then bench = "" /\ w2 = w1
     else exists r, ReadFile benchPath w1 = (r, w2) /\ bench = match r with Ok b => b | _ => "" end) /\
    Result_Marshal {| R_SchemaVersion := 1; R_Verdict := verdict; R_Markdown := md; R_Bench := bench;
      R_RunID := runID; R_TargetSHA := targetSHA |} = Ok body /\
    PutObject bucket key (json_print body) "application/json" w2 = (Ok tt, w').
Proof.
  intros Hk. unfold PublishResult. rewrite decide_False by done. unfold_m. intros H.
  destruct (ReadFile mdPath w) as [[md| |] w1]; [|done..].
  exists md. case_decide as Hb.
  - destruct (Result_Marshal _) as [body| |] eqn:Em; [|done..]. exists "", body, w1, w1. split_and!; try done.
    by destruct (PutObject _ _ _ _ w1) as [[[]| |] w2].
  - destruct (ReadFile benchPath w1) as [[b|e|m] w2] eqn:Er; [| |done].
    + destruct (Result_Marshal _) as [body| |] eqn:Em; [|done..]. exists b, body, w1, w2. split_and!; try done.
      * exists (Ok b). auto.
      * by destruct (PutObject _ _ _ _ w2) as [[[]| |] w3].
    + destruct (Result_Marshal _) as [body| |] eqn:Em; [|done..]. exists "", body, w1, w2. split_and!; try done.
      * exists (Err e). auto.
      * by destruct (PutObject _ _ _ _ w2) as [[[]| |] w3].
Qed.

Lemma FetchResult_put `{!StoreLaws} bucket key r body ct w w' :
  - 2 ^ 63 <= R_SchemaVersion r < 2 ^ 63 -> bench_ok (R_Bench r) -> Result_Marshal r = Ok body ->
  PutObject bucket key (json_print body) ct w = (Ok tt, w') ->
  exists w'', FetchResult bucket key w' = (Ok (fix_Result r), w'').
Proof.
  intros Hv Hb Hm Hput. destruct (Result_roundtrip r Hv Hb) as (j & Hj & [Hwf Hd] & Hf).
  assert (j = body) as -> by congruence. destruct (put_get _ _ _ _ _ _ Hput) as [w'' Hg]. exists w''.
  unfold FetchResult. unfold_m. rewrite Hg. cbn. rewrite json_Unmarshal_print, Hf by done. done.
Qed.
End Relay.

(** ** Polling *)

Section Polling.
Context `{B : Box} `{CL : !ClockLaws}.

Definition clock_kept {A} (m : M World A) : Prop := forall w, clock w <= clock (m w).2.

Lemma kept_bind {A C} (m : M World A) (f : A -> M World C) :
  clock_kept m -> (forall a, clock_kept (f a)) -> clock_kept (m ≫= f).
Proof.
  intros Hm Hf w. unfold mbind, M_bind. specialize (Hm w). destruct (m w) as [[a| |] w1]; simpl in *; [|done..].
  specialize (Hf a w1). lia.
Qed.

Lemma kept_attempt {A} (m : M World A) : clock_kept m -> clock_kept (attempt m).
Proof. intros Hm w. specialize (Hm w). unfold attempt. by destruct (m w) as [[] w1]. Qed.

Lemma kept_map_err {A} g (m : M World A) : clock_kept m -> clock_kept (map_err g m).
Proof. intros Hm w. specialize (Hm w). unfold map_err. by destruct (m w) as [[] w1]. Qed.

Lemma kept_Sleep d : clock_kept (Sleep d).
Proof. intros w. destruct (Sleep_clock d w) as (w' & -> & H). simpl. lia. Qed.

Lemma kept_ret {A} (a : A) : clock_kept (mret a).
Proof. intros w. simpl. lia. Qed.

Lemma kept_fail {A} e : clock_kept (fail (A := A) e).
Proof. intros w. simpl. lia. Qed.

Lemma kept_of_res {A} (r : Res A) : clock_kept (of_res r).
Proof. intros w. simpl. lia. Qed.

Create HintDb kept.
#[local] Hint Resolve kept_bind kept_attempt kept_map_err kept_Sleep kept_ret kept_fail kept_of_res
  GetObject_clock SendCommand_clock WaitCommandExecuted_clock GetCommandInvocation_clock : kept.

Lemma FetchResult_kept bucket key : clock_kept (FetchResult bucket key).
Proof.
  unfold FetchResult, ReadAll. apply kept_bind; [apply kept_map_err; intros w; apply GetObject_clock|].
  intros body. apply kept_bind; [destruct (body.2); auto with kept|auto with kept].
Qed.

Lemma send_attempts_kept n i c e : clock_kept (send_attempts n i c e).
Proof.
  revert e. induction n as [|n IH]; intros e; simpl; [auto with kept|].
  apply kept_bind; [apply kept_attempt; intros w; apply SendCommand_clock|]. intros [id|err]; auto with kept.
Qed.

Lemma debugTail_kept i n : clock_kept (debugTail i n).
Proof.
  unfold debugTail, capture. apply kept_bind; [|auto with kept]. apply kept_attempt, kept_bind; [apply send_attempts_kept|].
  intros [id e]. case_decide; [auto with kept|].
  apply kept_bind; [apply kept_attempt; intros w; apply WaitCommandExecuted_clock|]. intros _.
  apply kept_bind; [apply kept_attempt; intros w; apply GetCommandInvocation_clock|auto with kept].
Qed.

(** An iteration that goes on takes at least the polling interval. *)
Lemma poll_again_advances g n w w' : poll_again g n w = (Ok tt, w') ->
  clock w + Z.max 0 (g_pollInterval g) <= clock w'.
Proof.
  unfold poll_again. intros H. unfold mbind at 1, M_bind at 1 in H.
  assert (forall w1, clock w <= clock w1 -> Sleep (g_pollInterval g) w1 = (Ok tt, w') ->
    clock w + Z.max 0 (g_pollInterval g) <= clock w') as Hs.
  { intros w1 H1 H2. destruct (Sleep_clock (g_pollInterval g) w1) as (w2 & E & Hc). rewrite H2 in E.
    injection E as <-. lia. }
  case_decide; [done|]. case_decide.
  - assert (clock_kept (debugTail (g_instanceID g) (g_debugLogLines g) ;; mret tt)) as Hk
      by (apply kept_bind; [apply debugTail_kept|auto with kept]).
    specialize (Hk w). destruct ((debugTail _ _ ;; mret tt) w) as [[[]| |] w1]; [|done..]. by eapply Hs.
  - simpl in H. eapply Hs; [|exact H]. lia.
Qed.

(** With a positive interval the loop reaches its deadline: the fuel that covers
    the time left is never used up. *)
Lemma gather_loop_fuel fuel g deadline n w :
  0 < g_pollInterval g -> (0 < fuel)%nat -> deadline - clock w <= (Z.of_nat fuel - 1) * g_pollInterval g ->
  (gather_loop fuel g deadline n w).1 <> Ok None.
Proof.
  intros Hi. revert n w. induction fuel as [|fuel IH]; intros n w H0 Hf; [lia|]. cbn [gather_loop].
  unfold mbind at 1, M_bind at 1. rewrite Now_clock. case_decide as Hd.
  2:{ unfold mbind, M_bind. by destruct (writeTimeoutComment _ _ _ _ w) as [[[]| |] w1]. }
  unfold mbind at 1, M_bind at 1. unfold attempt. pose proof (FetchResult_kept (g_bucket g) (g_resultKey g) w) as Hk.
  assert (forall w1, clock w <= clock w1 ->
    ((poll_again g n ;; gather_loop fuel g deadline (n + 1)) w1).1 <> Ok None) as Hagain.
  { intros w1 Hw. unfold mbind, M_bind. destruct (poll_again g n w1) as [[[]| |] w2] eqn:E; [|done..].
    apply poll_again_advances in E. apply IH; nia. }
  destruct (FetchResult (g_bucket g) (g_resultKey g) w) as [[res|e|m] w1]; cbn [snd] in Hk; [|auto|done].
  case_decide; [|auto]. unfold mbind, M_bind. by destruct (relay g res w1) as [[o| |] w2].
Qed.

(** What the loop ended with is justified by the run. *)
Definition outcome_of (g : GatherConfig) (deadline : Z) (o : GatherOutcome) (w' : World) : Prop :=
  match o with
  | Relayed passed =>
      exists w1 w2 res, clock w1 < deadline /\ FetchResult (g_bucket g) (g_resultKey g) w1 = (Ok res, w2) /\
        R_RunID res = g_runID g /\ passed = bool_decide (R_Verdict res = "ok") /\
        relay g res w2 = (Ok (Relayed passed), w')
  | TimedOut =>
      exists w1, deadline <= clock w1 /\
        writeTimeoutComment (g_githubOutput g) (g_instanceID g) (g_resultsTimeout g) (g_debugLogLines g) w1 = (Ok tt, w')
  end.

Lemma relay_passed g res w o w' : relay g res w = (Ok o, w') -> o = Relayed (bool_decide (R_Verdict res = "ok")).
Proof.
  unfold relay. unfold_m. destruct (WriteFile _ _ w) as [[[]| |] w1]; [|done..].
  destruct (appendOutputs _ _ w1) as [[[]| |] w2]; [|done..]. by intros [= <- _].
Qed.

Lemma gather_loop_outcome fuel g deadline n w o w' :
  gather_loop fuel g deadline n w = (Ok (Some o), w') -> outcome_of g deadline o w'.
Proof.
  revert n w. induction fuel as [|fuel IH]; intros n w; [done|]. cbn [gather_loop].
  unfold mbind at 1, M_bind at 1. rewrite Now_clock. case_decide as Hd.
  2:{ unfold mbind, M_bind. destruct (writeTimeoutComment _ _ _ _ w) as [[[]| |] w1] eqn:E; [|done..].
      intros [= <- <-]. exists w. split; [lia|done]. }
  assert (forall w1, (poll_again g n ;; gather_loop fuel g deadline (n + 1)) w1 = (Ok (Some o), w') ->
    outcome_of g deadline o w') as Hagain.
  { intros w1. unfold mbind, M_bind. destruct (poll_again g n w1) as [[[]| |] w2]; [|done..]. apply IH. }
  unfold mbind at 1, M_bind at 1. unfold attempt.
  destruct (FetchResult (g_bucket g) (g_resultKey g) w) as [[res|e|m] w1] eqn:Ef; [|apply Hagain|done].
  case_decide; [|apply Hagain]. unfold mbind, M_bind. destruct (relay g res w1) as [[o'| |] w2] eqn:Er; [|done..].
  intros [= <- <-]. pose proof (relay_passed _ _ _ _ _ Er) as ->. exists w, w1, res. done.
Qed.

(** [Gather] ends: with a positive polling interval a bounded number of polls
    is enough, and what it then says is either the verdict of a result object of
    its own run, fetched before the deadline, or that none came in time. *)
Theorem gather_ends g deadline n w : 0 < g_pollInterval g ->
  exists fuel, Z.of_nat fuel <= Z.max 0 (deadline - clock w) / g_pollInterval g + 2 /\
    (gather_loop fuel g deadline n w).1 <> Ok None /\
    forall o w', gather_loop fuel g deadline n w = (Ok (Some o), w') -> outcome_of g deadline o w'.
Proof.
  intros Hi. set (d := Z.max 0 (deadline - clock w)).
  pose proof (Z.div_pos d (g_pollInterval g) ltac:(lia) Hi) as Hq.
  exists (Z.to_nat (d / g_pollInterval g + 2)). split; [lia|]. split.
  - apply gather_loop_fuel; [done|lia|]. pose proof (Z.mul_succ_div_gt d (g_pollInterval g) Hi). lia.
  - intros o w'. apply gather_loop_outcome.
Qed.

(** The result a box publishes is what the gatherer of the same run relays at
    its next poll: the verdict and the report the box wrote, whatever other runs
    left under the key before. *)
Theorem published_is_relayed `{!StoreLaws} g fuel deadline n verdict sha mdPath benchPath w w' :
  g_resultKey g <> "" -> utf8_Valid (g_runID g) = true ->
  (benchPath <> "" -> forall md w1 b w2, ReadFile mdPath w = (Ok md, w1) ->
    ReadFile benchPath w1 = (Ok b, w2) -> bench_ok b) ->
  PublishResult (g_bucket g) (g_resultKey g) verdict (g_runID g) sha mdPath benchPath w = (Ok tt, w') ->
  clock w' < deadline ->
  exists md w1 w2 res, ReadFile mdPath w = (Ok md, w1) /\ R_Markdown res = utf8_fix md /\
    R_Verdict res = utf8_fix verdict /\
    gather_loop (S fuel) g deadline n w' = (o ← relay g res; mret (Some o)) w2.
Proof.
  intros Hk Hrun Hbench Hp Hd. apply PublishResult_puts in Hp as (md & bench & body & w1 & w2 & Hmd & Hb & Hm & Hput); [|done].
  assert (bench_ok bench) as Hok.
  { case_decide; [left; by destruct Hb|]. destruct Hb as ([b|e|p] & Hr & ->); [by eapply Hbench|by left..]. }
  set (r := {| R_SchemaVersion := 1; R_Verdict := verdict; R_Markdown := md; R_Bench := bench;
               R_RunID := g_runID g; R_TargetSHA := sha |}) in *.
  destruct (FetchResult_put (g_bucket g) (g_resultKey g) r body "application/json" w2 w') as [w3 Hf]; [cbn; lia|done..|].
  exists md, w1, w3, (fix_Result r). split_and!; [done..|]. cbn [gather_loop].
  unfold mbind at 1, M_bind at 1. rewrite Now_clock, decide_True by done.
  unfold mbind at 1, M_bind at 1. unfold attempt. rewrite Hf.
  by rewrite decide_True by by apply utf8_fix_Valid.
Qed.

End Polling.

(** ** A box

    A clock, the files and the store as maps; every child succeeds and writes
    nothing. *)

Record ex_world := MkWorld { ex_clock : Z; ex_files : gmap string string; ex_objects : gmap (string * string) string }.

Definition ex_file (path data : string) : M ex_world unit := fun w =>
  (Ok tt, MkWorld (ex_clock w) (<[path := data]> (ex_files w)) (ex_objects w)).

Definition ex_env : string -> string := fun k =>
  if decide (k = "BASELINE_REF") then "v1.0" else if decide (k = "RESULT_KEY") then "runs/1/result.json" else "5".

#[export] Instance ex_Box : Box := {|
  World := ex_world;
  Getenv := ex_env;
  Getwd := mret "/repo";
  Now := gets ex_clock;
  Sleep d := modify (fun w => MkWorld (ex_clock w + Z.max 0 d) (ex_files w) (ex_objects w));
  ReadFile p := fun w => (match ex_files w !! p with Some d => Ok d | None => Err (EExt "no such file") end, w);
  WriteFile := ex_file;
  AppendFile p d := fun w => ex_file p (default "" (ex_files w !! p) +:+ d) w;
  Exec _ _ _ _ w := (([], None), w);
  ExecTo f _ name args := fun w => ex_file f (default "" (ex_files w !! f) +:+ Join (name :: args) " " +:+ newline) w;
  Output _ _ := mret ("abc" +:+ newline);
  OpenAppend f := fun w => ex_file f (default "" (ex_files w !! f)) w;
  MkdirAll _ := mret tt;
  RemoveFile p := fun w => (Ok tt, MkWorld (ex_clock w) (delete p (ex_files w)) (ex_objects w));
  RemoveAll _ := mret tt;
  Chmod _ _ := mret tt;
  StatSize p := fun w => (Ok (strlen (default "" (ex_files w !! p))), w);
  LoadDefaultConfig _ := mret tt;
  GetObject b k := fun w =>
    (match ex_objects w !! (b, k) with Some d => Ok (d, None) | None => Err (EExt "NoSuchKey") end, w);
  HeadObject _ _ := mret ∅;
  PutObject b k d _ := fun w => (Ok tt, MkWorld (ex_clock w) (ex_files w) (<[(b, k) := d]> (ex_objects w)));
  NoSuchKey e := bool_decide (e = EExt "NoSuchKey");
  ErrorCode _ := None;
  SendCommand _ _ := mret "cmd";
  WaitCommandExecuted _ _ := mret tt;
  GetCommandInvocation _ _ := mret "log";
  sha256 s := s;
  zstd_NewReader s := Ok s;
  CreateFile p := ex_file p "";
  SyncFile _ := mret tt |}.

#[export] Instance ex_StoreLaws : StoreLaws.
Proof. constructor. intros b k body ct w w'. intros [= <-]. eexists. cbn. by rewrite lookup_insert_eq. Qed.

#[export] Instance ex_ClockLaws : ClockLaws.
Proof.
  refine {| clock := ex_clock : World -> Z |}; try (intros; cbn; lia).
  - done.
  - intros d w. eexists. split; [done|]. cbn. lia.
Defined.

Definition ex_gather : GatherConfig :=
  {| g_instanceID := "i-1"; g_githubOutput := "out"; g_bucket := "b"; g_resultKey := "k"; g_runID := "7-1";
     g_resultsTimeout := 60 * Second; g_pollInterval := 10 * Second; g_debugLogLines := 5; g_debugEveryPolls := 3 |}.

Definition ex_start : ex_world := MkWorld 0 {[ "md" := "# done" ]} ∅.

(** The report is published while an object of an older run is in its place. *)
Definition ex_stale : ex_world := MkWorld 0 {[ "md" := "# done" ]} {[ ("b", "k") := "{}" ]}.
Definition ex_published : ex_world := (PublishResult "b" "k" "ok" "7-1" "abc" "md" "" ex_stale).2.

Example ex_relayed :
  gather_loop 1 ex_gather (60 * Second) 1 ex_stale = (Ok None, MkWorld (10 * Second) (ex_files ex_stale) (ex_objects ex_stale)) /\
  (gather_loop 1 ex_gather (60 * Second) 1 ex_published).1 = Ok (Some (Relayed true)) /\
  ex_files (gather_loop 1 ex_gather (60 * Second) 1 ex_published).2 !! "/tmp/results.md" = Some "# done" /\
  (gather_loop 8 ex_gather (60 * Second) 1 ex_stale).1 = Ok (Some TimedOut).
Proof. vm_compute. repeat split. Qed.

Lemma published_is_relayed_witness : exists md w1 w2 res,
  ReadFile (Box := ex_Box) "md" ex_stale = (Ok md, w1) /\ R_Markdown res = utf8_fix md /\ R_Verdict res = utf8_fix "ok" /\
  gather_loop (B := ex_Box) 1 ex_gather (60 * Second) 1 ex_published = (o ← relay ex_gather res; mret (Some o)) w2.
Proof.
  apply (published_is_relayed (B := ex_Box) ex_gather 0 (60 * Second) 1 "ok" "abc" "md" "" ex_stale ex_published);
    [by vm_compute|by vm_compute|done|by vm_compute|by vm_compute].
Defined.

Lemma gather_ends_witness :
  exists fuel, Z.of_nat fuel <= Z.max 0 (60 * Second - clock (B := ex_Box) ex_stale) / g_pollInterval ex_gather + 2 /\
    (gather_loop (B := ex_Box) fuel ex_gather (60 * Second) 1 ex_stale).1 <> Ok None /\
    forall o w', gather_loop (B := ex_Box) fuel ex_gather (60 * Second) 1 ex_stale = (Ok (Some o), w') ->
      outcome_of (B := ex_Box) ex_gather (60 * Second) o w'.
Proof. apply (gather_ends (B := ex_Box) ex_gather (60 * Second) 1 ex_stale). by vm_compute. Defined.
