(* ===== verification/PerfComment.v ===== *)
(** * The comment of the performance evaluation
    (integrationtest/infrastructure/perf-eval/coordinator-runner.go)

    The coordinator keeps one comment on a pull request.  Its history is data: a
    base64 JSON blob on a line of the comment, which every render decodes,
    extends with the current run and renders again. *)

From S2P Require Import Prelude GoStd GoText GoStrings GoCodec GoJson PerfHarness.

Definition marker : string := "<!-- load-test-results -->".
Definition maxHistory : Z := 10.
Definition maxCommentLen : Z := 60000.

(** [leg], [legResult] and [runRecord]; [None] is the nil slice. *)
Record leg := { leg_Label : string; leg_Bucket : string; leg_Key : string }.
Record legResult := { lr_Label : string; lr_Verdict : string; lr_Markdown : string }.
Record runRecord := { run_Num : Z; run_TargetSHA : string; run_TargetRef : string; run_RunURL : string;
                      run_Legs : option (list legResult) }.

Definition zero_leg : leg := {| leg_Label := ""; leg_Bucket := ""; leg_Key := "" |}.
Definition zero_legResult : legResult := {| lr_Label := ""; lr_Verdict := ""; lr_Markdown := "" |}.
Definition zero_runRecord : runRecord :=
  {| run_Num := 0; run_TargetSHA := ""; run_TargetRef := ""; run_RunURL := ""; run_Legs := None |}.

(** ** The records as JSON *)

Definition leg_fields : list (string * (leg -> json -> option leg)) := [
  ("label", fun l j => x ← fill_string (leg_Label l) j;
     Some {| leg_Label := x; leg_Bucket := leg_Bucket l; leg_Key := leg_Key l |});
  ("bucket", fun l j => x ← fill_string (leg_Bucket l) j;
     Some {| leg_Label := leg_Label l; leg_Bucket := x; leg_Key := leg_Key l |});
  ("key", fun l j => x ← fill_string (leg_Key l) j;
     Some {| leg_Label := leg_Label l; leg_Bucket := leg_Bucket l; leg_Key := x |})].

Definition legResult_fields : list (string * (legResult -> json -> option legResult)) := [
  ("label", fun l j => x ← fill_string (lr_Label l) j;
     Some {| lr_Label := x; lr_Verdict := lr_Verdict l; lr_Markdown := lr_Markdown l |});
  ("verdict", fun l j => x ← fill_string (lr_Verdict l) j;
     Some {| lr_Label := lr_Label l; lr_Verdict := x; lr_Markdown := lr_Markdown l |});
  ("markdown", fun l j => x ← fill_string (lr_Markdown l) j;
     Some {| lr_Label := lr_Label l; lr_Verdict := lr_Verdict l; lr_Markdown := x |})].

Definition runRecord_fields : list (string * (runRecord -> json -> option runRecord)) := [
  ("num", fun r j => x ← fill_int (run_Num r) j;
     Some {| run_Num := x; run_TargetSHA := run_TargetSHA r; run_TargetRef := run_TargetRef r;
             run_RunURL := run_RunURL r; run_Legs := run_Legs r |});
  ("targetSha", fun r j => x ← fill_string (run_TargetSHA r) j;
     Some {| run_Num := run_Num r; run_TargetSHA := x; run_TargetRef := run_TargetRef r;
             run_RunURL := run_RunURL r; run_Legs := run_Legs r |});
  ("targetRef", fun r j => x ← fill_string (run_TargetRef r) j;
     Some {| run_Num := run_Num r; run_TargetSHA := run_TargetSHA r; run_TargetRef := x;
             run_RunURL := run_RunURL r; run_Legs := run_Legs r |});
  ("runUrl", fun r j => x ← fill_string (run_RunURL r) j;
     Some {| run_Num := run_Num r; run_TargetSHA := run_TargetSHA r; run_TargetRef := run_TargetRef r;
             run_RunURL := x; run_Legs := run_Legs r |});
  ("legs", fun r j => x ← fill_slice zero_legResult (fill_struct legResult_fields) (run_Legs r) j;
     Some {| run_Num := run_Num r; run_TargetSHA := run_TargetSHA r; run_TargetRef := run_TargetRef r;
             run_RunURL := run_RunURL r; run_Legs := x |})].

Definition legResult_json (l : legResult) : json :=
  JObj [("label", json_string (lr_Label l)); ("verdict", json_string (lr_Verdict l));
        ("markdown", json_string (lr_Markdown l))].

Definition runRecord_json (r : runRecord) : json :=
  JObj [("num", json_int (run_Num r)); ("targetSha", json_string (run_TargetSHA r));
        ("targetRef", json_string (run_TargetRef r)); ("runUrl", json_string (run_RunURL r));
        ("legs", match run_Legs r with Some l => JArr (legResult_json <$> l) | None => JNull end)].

(** [encodeHistory]: records of strings, numbers and slices always marshal. *)
Definition encodeHistory (hist : list runRecord) : string :=
  base64_EncodeToString (json_print (JArr (runRecord_json <$> hist))).

(** The match of [historyRe] on a line, and its group *)
Definition history_open : string := "<!-- perf-eval-history: ".
Definition history_close : string := " -->".

Fixpoint span_class (f : Ascii.ascii -> bool) (s : string) : string * string :=
  match s with
  | String c r => if f c then let '(b, t) := span_class f r in (String c b, t) else ("", s)
  | EmptyString => ("", "")
  end.

Definition historyRe (line : string) : option string :=
  r ← CutPrefix history_open line;
  let '(b, t) := span_class base64_class r in
  if decide (b <> "" /\ t = history_close) then Some b else None.

(** [parseHistory]: the first blob line decides. *)
Fixpoint parse_lines (lines : list string) : list runRecord :=
  match lines with
  | [] => []
  | line :: lines =>
      match historyRe line with
      | None => parse_lines lines
      | Some blob =>
          match base64_DecodeString blob with
          | Ok data =>
              match json_Unmarshal (fill_slice zero_runRecord (fill_struct runRecord_fields)) data None with
              | Ok (Some hist) => hist
              | _ => []
              end
          | _ => []
          end
      end
  end.

Definition parseHistory (prev : string) : list runRecord := parse_lines (Split (char 10) prev).

(** [strings.TrimSpace(s) == ""]: every rune is a space of [unicode.IsSpace]. *)
Definition rune_space (r : rune) : bool :=
  match r with
  | RBad => false
  | RBytes (String c EmptyString) => is_space c
  | RBytes b => bool_decide (b ∈ [str2 (char 194) (char 133); str2 (char 194) (char 160);
      str3 (char 225) (char 154) (char 128); str3 (char 226) (char 128) (char 168);
      str3 (char 226) (char 128) (char 169); str3 (char 226) (char 128) (char 175);
      str3 (char 226) (char 129) (char 159); str3 (char 227) (char 128) (char 128)] ++
      ((fun n => str3 (char 226) (char 128) (char n)) <$> seq 128 11))
  end.
Definition blank (s : string) : bool := forallb rune_space (runes s).

(** [parseLegs] *)
Definition parseLegs (s : string) : Res (option (list leg)) :=
  if blank s then Ok None else json_Unmarshal (fill_slice zero_leg (fill_struct leg_fields)) s None.

(** ** Rendering *)

(** [cmp.Or] of two strings *)
Definition Or (a b : string) : string := if decide (a = "") then b else a.

(** [s[:min(n, len(s))]] *)
Fixpoint string_take (n : nat) (s : string) : string :=
  match n, s with
  | S n, String c s => String c (string_take n s)
  | _, _ => ""
  end.

Definition renderLeg (l : legResult) : string :=
  let emoji := if decide (lr_Verdict l = "ok") then "✅" else "❌" in
  newline +:+ "### " +:+ emoji +:+ " " +:+ lr_Label l +:+ " — verdict: " +:+ Or (lr_Verdict l) "none" +:+ newline +:+ newline
  +:+ (if blank (lr_Markdown l)
       then "_No result object published (leg timed out or failed before publishing). See the run logs._" +:+ newline
       else TrimRightChar (char 10) (lr_Markdown l) +:+ newline).

Definition renderRun (r : runRecord) : string :=
  "## 🧪 Performance Evaluation Test #" +:+ FormatInt (run_Num r) +:+ newline +:+ newline +:+
  "**Commit:** `" +:+ string_take 12 (run_TargetSHA r) +:+ "` (`" +:+ run_TargetRef r +:+ "`)" +:+ newline +:+
  "**Run:** " +:+ run_RunURL r +:+ newline +:+
  concat_map renderLeg (default [] (run_Legs r)).

(** A prior run, folded *)
Definition renderFold (r : runRecord) : string :=
  newline +:+ "<details>" +:+ newline +:+ "<summary>Performance Evaluation Test #" +:+ FormatInt (run_Num r) +:+
  "</summary>" +:+ newline +:+ newline +:+
  TrimRightChar (char 10) (TrimLeftChar (char 10) (renderRun r)) +:+
  newline +:+ "</details>" +:+ newline.

Definition history_line (hist : list runRecord) : string :=
  history_open +:+ encodeHistory hist +:+ history_close.

Definition renderBody (hist : list runRecord) : Res string :=
  match hist with
  | [] => Panic "index out of range"
  | r :: rest =>
      Ok (marker +:+ newline +:+ history_line hist +:+ newline +:+ renderRun r +:+ concat_map renderFold rest)
  end.

(** The shedding loop of [renderComment] *)
Fixpoint shed (fuel : nat) (hist : list runRecord) (body : string) : Res string :=
  match fuel with
  | O => Ok body
  | S fuel =>
      if decide (strlen body > maxCommentLen /\ zlen hist > 1) then
        let hist := removelast hist in
        body ← renderBody hist;
        shed fuel hist body
      else Ok body
  end.

Definition set_Num (n : Z) (r : runRecord) : runRecord :=
  {| run_Num := n; run_TargetSHA := run_TargetSHA r; run_TargetRef := run_TargetRef r;
     run_RunURL := run_RunURL r; run_Legs := run_Legs r |}.

Definition number (hist : list runRecord) (cur : runRecord) : runRecord :=
  set_Num (match hist with r :: _ => i64 (run_Num r + 1) | [] => 1 end) cur.

(** The loop sheds one run an iteration, so the length of the history is fuel
    enough. *)
Definition renderComment (cur : runRecord) (prev : string) : Res string :=
  let hist := parseHistory prev in
  let hist := number hist cur :: hist in
  let hist := if decide (zlen hist > maxHistory) then take (Z.to_nat maxHistory) hist else hist in
  body ← renderBody hist;
  shed (length hist) hist body.

(** ** The program *)

Section Run.
Context `{B : Box}.
Context (ReadStdin : M World string) (WriteStdout : string -> M World unit).

(** The result of a leg; a leg without a readable object fails in the report. *)
Definition fetch_leg (l : leg) : M World legResult :=
  res ← attempt (FetchResult (leg_Bucket l) (leg_Key l));
  mret (match res with
        | inl res => {| lr_Label := leg_Label l; lr_Verdict := R_Verdict res; lr_Markdown := R_Markdown res |}
        | inr _ => {| lr_Label := leg_Label l; lr_Verdict := ""; lr_Markdown := "" |}
        end).

Fixpoint fetch_legs (legs : list leg) : M World (list legResult) :=
  match legs with
  | [] => mret []
  | l :: legs => r ← fetch_leg l; rs ← fetch_legs legs; mret (r :: rs)
  end.

Definition run : M World unit :=
  legs ← map_err (EWrap "parsing LEGS") (of_res (parseLegs (Getenv "LEGS")));
  prev ← map_err (EWrap "reading previous comment from stdin") ReadStdin;
  LoadDefaultConfig (Or (Getenv "AWS_REGION") "us-east-1") ;;
  results ← fetch_legs (default [] legs);
  body ← of_res (renderComment
    {| run_Num := 0; run_TargetSHA := Getenv "TARGET_SHA"; run_TargetRef := Getenv "TARGET_REF";
       run_RunURL := Getenv "RUN_URL"; run_Legs := Some results |} prev);
  WriteStdout body.
End Run.

(** ** The blob is read back *)

Definition fix_legResult (l : legResult) : legResult :=
  {| lr_Label := utf8_fix (lr_Label l); lr_Verdict := utf8_fix (lr_Verdict l); lr_Markdown := utf8_fix (lr_Markdown l) |}.

Definition fix_run (r : runRecord) : runRecord :=
  {| run_Num := run_Num r; run_TargetSHA := utf8_fix (run_TargetSHA r); run_TargetRef := utf8_fix (run_TargetRef r);
     run_RunURL := utf8_fix (run_RunURL r); run_Legs := option_map (map fix_legResult) (run_Legs r) |}.

(** The range of [int] *)
Definition num_ok (r : runRecord) : Prop := - 2 ^ 63 <= run_Num r < 2 ^ 63.

Lemma legResult_good l : good 1 (legResult_json l).
Proof. apply (good_object 0). good_members. Qed.

Lemma runRecord_good r : good 3 (runRecord_json r).
Proof.
  apply (good_object 2). unfold runRecord_json. good_members.
  destruct (run_Legs r) as [l|]; [|apply good_null].
  apply (good_array 1), Forall_fmap, Forall_forall. intros x _. apply legResult_good.
Qed.

Lemma fill_legResult l : fill_struct legResult_fields zero_legResult (legResult_json l) = Some (fix_legResult l).
Proof. unfold fill_struct, legResult_json. by fill_steps. Qed.

Lemma fill_runRecord r : num_ok r -> fill_struct runRecord_fields zero_runRecord (runRecord_json r) = Some (fix_run r).
Proof.
  intros Hn. unfold num_ok in Hn. unfold fill_struct, runRecord_json, fix_run. destruct (run_Legs r) as [l|].
  - fill_steps. cbn [fill_slice]. change (default [] (run_Legs _)) with (@nil legResult).
    rewrite (fill_list_json _ _ _ fix_legResult) by (apply Forall_forall; intros; apply fill_legResult).
    done.
  - by fill_steps.
Qed.


Lemma span_class_app f b t : string_forall f b = true ->
  match t with String c _ => f c = false | EmptyString => True end -> span_class f (b +:+ t) = (b, t).
Proof.
  intros Hb Ht. induction b as [|c b IH].
  - change ("" +:+ t) with t. destruct t as [|c t]; [done|]. simpl. by rewrite Ht.
  - simpl in Hb. apply andb_true_iff in Hb as [Hc Hb]. rewrite string_cons_app. simpl. by rewrite Hc, IH.
Qed.

Lemma blob_nonempty hist : encodeHistory hist <> "".
Proof. unfold encodeHistory. apply base64_EncodeToString_nonempty. done. Qed.

Lemma historyRe_line hist : historyRe (history_line hist) = Some (encodeHistory hist).
Proof.
  unfold historyRe, history_line. rewrite (proj2 (CutPrefix_app _ _ _) eq_refl). cbn [mbind option_bind].
  rewrite span_class_app; [|apply base64_class_all|done].
  rewrite decide_True; [done|]. split; [apply blob_nonempty|done].
Qed.

Lemma no_newline_class s : string_forall base64_class s = true -> no_newline s = true.
Proof.
  induction s as [|c s IH]; [done|]. simpl. rewrite !andb_true_iff. intros [Hc Hs]. split; [|auto].
  destruct (base64_class_plain c Hc) as (_ & _ & ?). by rewrite bool_decide_false.
Qed.

Lemma history_line_no_newline hist : no_newline (history_line hist) = true.
Proof.
  unfold history_line. rewrite !no_newline_app. by rewrite (no_newline_class (encodeHistory hist))
    by apply base64_class_all.
Qed.

(** Decoding the blob of a history *)
Lemma decode_history hist : Forall num_ok hist ->
  json_Unmarshal (fill_slice zero_runRecord (fill_struct runRecord_fields))
    (json_print (JArr (runRecord_json <$> hist))) None = Ok (Some (fix_run <$> hist)).
Proof.
  intros Hn. assert (good 4 (JArr (runRecord_json <$> hist))) as [Hwf Hd].
  { apply (good_array 3), Forall_fmap, Forall_forall. intros x _. apply runRecord_good. }
  rewrite json_Unmarshal_print; [|done|by etrans; [exact Hd|vm_compute]]. cbn [fill_slice].
  rewrite (fill_list_json _ _ _ fix_run); [done|]. eapply Forall_impl; [exact Hn|]. apply fill_runRecord.
Qed.

Lemma newline_app x : newline +:+ x = String (char 10) x.
Proof. done. Qed.

Lemma parse_renderBody hist body : Forall num_ok hist -> renderBody hist = Ok body ->
  parseHistory body = fix_run <$> hist.
Proof.
  intros Hn Hb. destruct hist as [|r hist]; [done|]. injection Hb as <-. unfold parseHistory. rewrite !(newline_app (_ +:+ _)).
  rewrite Split_newline by by vm_compute. rewrite Split_newline by apply history_line_no_newline. cbn [parse_lines].
  assert (historyRe marker = None) as -> by by vm_compute.
  rewrite historyRe_line. unfold encodeHistory. rewrite base64_DecodeString_Encode. by rewrite decode_history.
Qed.

(** ** What is parsed is well formed *)

Definition legResult_ok (l : legResult) : Prop :=
  utf8_Valid (lr_Label l) = true /\ utf8_Valid (lr_Verdict l) = true /\ utf8_Valid (lr_Markdown l) = true.

(** Numbers in range and valid text: such a record is its own reading. *)
Definition run_ok (r : runRecord) : Prop :=
  num_ok r /\ utf8_Valid (run_TargetSHA r) = true /\ utf8_Valid (run_TargetRef r) = true /\
  utf8_Valid (run_RunURL r) = true /\ Forall legResult_ok (default [] (run_Legs r)).

Ltac field_keeps :=
  let a := fresh in let j := fresh in let b := fresh in let Ha := fresh in
  intros a j b Ha; cbn [snd];
  match goal with |- (?m ≫= _) = _ -> _ => let E := fresh in destruct m eqn:E; [|done]; cbn [mbind option_bind];
    intros [= <-]; first [apply fill_string_keeps in E|apply fill_int_keeps in E|idtac] end;
  unfold legResult_ok, run_ok, num_ok in *; cbn; naive_solver.

Lemma legResult_keeps : fill_keeps legResult_ok (fill_struct legResult_fields).
Proof. apply fill_struct_keeps. repeat (apply Forall_cons_2; [field_keeps|]). apply Forall_nil_2. Qed.

Lemma runRecord_keeps : fill_keeps run_ok (fill_struct runRecord_fields).
Proof.
  apply fill_struct_keeps. repeat (apply Forall_cons_2; [first [field_keeps|idtac]|]); [|apply Forall_nil_2].
  intros a j b Ha. cbn [snd]. destruct (fill_slice _ _ _ j) as [x|] eqn:E; [|done].
  intros [= <-]. apply (fill_slice_keeps legResult_ok) in E; [|done|apply legResult_keeps|apply Ha].
  unfold run_ok, num_ok in *. cbn. naive_solver.
Qed.

Lemma parse_lines_ok lines : Forall run_ok (parse_lines lines).
Proof.
  induction lines as [|line lines IH]; [constructor|]. cbn [parse_lines].
  destruct (historyRe line) as [blob|]; [|done]. destruct (base64_DecodeString blob) as [data| |]; try constructor.
  destruct (json_Unmarshal _ data None) as [[hist|]| |] eqn:E; try constructor.
  apply (json_Unmarshal_keeps (fun o => Forall run_ok (default [] o))) in E; [done| |constructor].
  apply fill_slice_keeps; [|apply runRecord_keeps]. unfold run_ok, num_ok. cbn. split_and!; first [done|lia|constructor].
Qed.

Lemma parseHistory_ok prev : Forall run_ok (parseHistory prev).
Proof. apply parse_lines_ok. Qed.

Lemma map_fix_legs l : Forall legResult_ok l -> map fix_legResult l = l.
Proof.
  induction 1 as [|x l (H1 & H2 & H3) _ IH]; [done|]. simpl. rewrite IH. f_equal.
  destruct x. unfold fix_legResult. cbn [lr_Label lr_Verdict lr_Markdown] in *. by rewrite !utf8_fix_Valid.
Qed.

Lemma fix_run_ok r : run_ok r -> fix_run r = r.
Proof.
  intros (_ & H1 & H2 & H3 & Hl). destruct r as [n sha ref url [l|]]; unfold fix_run;
    cbn [run_Num run_TargetSHA run_TargetRef run_RunURL run_Legs default option_map] in *;
    rewrite !utf8_fix_Valid by done; [by rewrite map_fix_legs|done].
Qed.

Lemma fix_runs_ok l : Forall run_ok l -> fix_run <$> l = l.
Proof. induction 1 as [|x l Hx _ IH]; [done|]. cbn. by rewrite fix_run_ok, IH. Qed.

Lemma run_ok_num r : run_ok r -> num_ok r.
Proof. by intros [? _]. Qed.

(** ** The shedding loop *)

Lemma renderBody_total hist : hist <> [] -> exists body, renderBody hist = Ok body.
Proof. destruct hist; [done|]. intros _. by eexists. Qed.

Definition body_of (hist : list runRecord) : string := match renderBody hist with Ok b => b | _ => "" end.

Lemma removelast_take {A} (l : list A) : removelast l = take (length l - 1) l.
Proof.
  induction l as [|a l IH]; [done|]. destruct l as [|b l]; [done|].
  change (removelast (a :: b :: l)) with (a :: removelast (b :: l)). rewrite IH. simpl. by rewrite Nat.sub_0_r.
Qed.

(** The loop stops at the longest prefix that fits, or at one run. *)
Lemma shed_spec fuel hist : hist <> [] -> (length hist <= fuel)%nat ->
  exists k, (1 <= k <= length hist)%nat /\ shed fuel hist (body_of hist) = Ok (body_of (take k hist)) /\
    renderBody (take k hist) = Ok (body_of (take k hist)) /\
    (strlen (body_of (take k hist)) <= maxCommentLen \/ k = 1%nat) /\
    forall j, (k < j <= length hist)%nat -> maxCommentLen < strlen (body_of (take j hist)).
Proof.
  revert hist. induction fuel as [|fuel IH]; intros hist Hne Hl; [destruct hist; simpl in Hl; [done|lia]|].
  assert (forall k, (1 <= k)%nat -> renderBody (take k hist) = Ok (body_of (take k hist))) as Hb.
  { intros k Hk. destruct (renderBody_total (take k hist)) as [b E]; [destruct k, hist; simpl; (lia || done)|].
    unfold body_of. by rewrite E. }
  cbn [shed]. case_decide as Hd.
  - destruct Hd as [Hlen Hz]. unfold zlen in Hz. rewrite removelast_take.
    set (h := take (length hist - 1) hist).
    assert (length h = (length hist - 1)%nat) as Hh by (unfold h; rewrite length_take; lia).
    assert (h <> []) as Hhne by (intros E; rewrite E in Hh; simpl in Hh; lia).
    assert (renderBody h = Ok (body_of h)) as -> by (apply Hb; lia). cbn [mbind Res_bind].
    destruct (IH h Hhne) as (k & Hk & Hs & Hr & Hor & Hmax); [lia|].
    exists k. assert (forall j, (j <= length hist - 1)%nat -> take j h = take j hist) as Ht
      by (intros j Hj; unfold h; rewrite take_take; f_equal; lia).
    rewrite (Ht k) in * by lia. split_and!; [lia|lia|done|done|done|].
    intros j Hj. destruct (decide (j = length hist)) as [->|].
    + rewrite take_ge by lia. lia.
    + rewrite <-(Ht j) by lia. apply Hmax. lia.
  - exists (length hist). rewrite take_ge by lia. split_and!; [destruct hist; simpl; [done|lia]|lia|done| | |lia].
    + specialize (Hb (length hist)). rewrite take_ge in Hb by lia. apply Hb. destruct hist; simpl; [done|lia].
    + unfold zlen in Hd. destruct (decide (strlen (body_of hist) > maxCommentLen)); [right|left; lia].
      destruct hist as [|x [|y hist]]; [done|done|]. exfalso. apply Hd. split; [done|]. simpl. lia.
Qed.

Lemma number_ok hist cur : num_ok (number hist cur).
Proof.
  unfold num_ok, number, set_Num. cbn [run_Num]. destruct hist; [lia|]. unfold_ints.
  pose proof (Z.mod_pos_bound (run_Num r + 1 + 2 ^ 63) (2 ^ 64)). lia.
Qed.

(** The history [renderComment] starts from *)
Definition new_history (cur : runRecord) (prev : string) : list runRecord :=
  number (parseHistory prev) cur :: parseHistory prev.

Lemma new_history_num cur prev : Forall num_ok (new_history cur prev).
Proof.
  constructor; [apply number_ok|]. eapply Forall_impl; [apply parseHistory_ok|]. apply run_ok_num.
Qed.

Lemma fix_new_history cur prev :
  fix_run <$> new_history cur prev = fix_run (number (parseHistory prev) cur) :: parseHistory prev.
Proof. unfold new_history. rewrite fmap_cons. f_equal. apply fix_runs_ok, parseHistory_ok. Qed.

(** Rendering always gives a comment whose blob is read back as the current
    run, numbered one above the newest run of the prior comment, before the runs
    that comment held, oldest ones shed: at most ten runs, the comment within the
    size limit unless one run alone exceeds it, and no run shed that would have
    fitted. *)
Lemma renderComment_history cur prev :
  exists k body, (1 <= k <= Z.to_nat maxHistory)%nat /\ renderComment cur prev = Ok body /\
    parseHistory body = take k (fix_run (number (parseHistory prev) cur) :: parseHistory prev) /\
    (strlen body <= maxCommentLen \/ k = 1%nat) /\
    forall j, (k < j <= Z.to_nat maxHistory)%nat -> (j <= length (new_history cur prev))%nat ->
      maxCommentLen < strlen (body_of (take j (new_history cur prev))).
Proof.
  unfold renderComment. fold (new_history cur prev). set (h := new_history cur prev).
  set (h10 := if decide (zlen h > maxHistory) then take (Z.to_nat maxHistory) h else h).
  assert (h10 = take (Z.to_nat maxHistory) h) as E10.
  { unfold h10. case_decide as Hd; [done|]. rewrite take_ge; [done|]. unfold zlen, maxHistory in *. lia. }
  assert (h10 <> []) as Hne by by rewrite E10.
  destruct (renderBody_total h10 Hne) as [b Eb]. rewrite Eb. cbn [mbind Res_bind].
  assert (b = body_of h10) as -> by (unfold body_of; by rewrite Eb).
  destruct (shed_spec (length h10) h10 Hne) as (k & Hk & Hs & Hr & Hor & Hmax); [lia|].
  assert (length h10 <= Z.to_nat maxHistory)%nat as Hl10 by (rewrite E10, length_take; lia).
  assert (forall j, (j <= length h10)%nat -> take j h10 = take j h) as Ht
    by (intros j Hj; rewrite E10, take_take; f_equal; lia).
  exists k, (body_of (take k h10)). split_and!; [lia|lia|done| |done|].
  - rewrite (parse_renderBody (take k h10) _) by (done || (rewrite Ht by lia; apply Forall_take, new_history_num)).
    rewrite Ht, fmap_take by lia. unfold h. by rewrite fix_new_history.
  - intros j Hj Hlen. assert (j <= length h10)%nat by (rewrite E10, length_take; lia).
    rewrite <-Ht by done. apply Hmax. lia.
Qed.

(** ** A series of runs *)

(** Every run of the coordinator on one pull request, the first one without a
    comment *)
Definition series (runs : list runRecord) : Res string :=
  foldl (fun c cur => prev ← c; renderComment cur prev) (Ok "") runs.

(** The runs as the history has them, oldest first *)
Definition numbered (runs : list runRecord) : list runRecord :=
  imap (fun i r => fix_run (set_Num (Z.of_nat i + 1) r)) runs.

Lemma numbered_snoc runs cur :
  numbered (runs ++ [cur]) = numbered runs ++ [fix_run (set_Num (Z.of_nat (length runs) + 1) cur)].
Proof. unfold numbered. rewrite imap_app. simpl. by rewrite Nat.add_0_r. Qed.

Lemma numbered_length runs : length (numbered runs) = length runs.
Proof. apply length_imap. Qed.

Lemma numbered_last runs r rest : reverse (numbered runs) = r :: rest -> run_Num r = Z.of_nat (length runs).
Proof.
  destruct runs as [|cur runs _] using rev_ind; [done|]. rewrite numbered_snoc, reverse_snoc, length_app.
  intros [= <- _]. simpl. lia.
Qed.

Lemma number_next runs k hist cur : hist = take k (reverse (numbered runs)) -> (runs <> [] -> 1 <= k)%nat ->
  Z.of_nat (length runs) < 2 ^ 63 - 1 ->
  number hist cur = set_Num (Z.of_nat (length runs) + 1) cur.
Proof.
  intros -> Hk Hn. unfold number. destruct (reverse (numbered runs)) as [|r rest] eqn:E.
  - assert (length runs = 0%nat) as -> by (rewrite <-numbered_length, <-length_reverse; by rewrite E).
    by destruct k.
  - destruct runs as [|x runs]; [done|]. destruct k as [|k]; [specialize (Hk ltac:(done)); lia|].
    apply numbered_last in E. cbn [take]. rewrite E. f_equal. unfold_ints. rewrite Z.mod_small; lia.
Qed.

(** C39: However many runs a pull request has seen, the comment holds the newest of
    them, newest first, each with its own number (numbering goes on where runs
    are shed), at most ten, and within the size limit unless it is one run. *)
Theorem series_numbers runs : runs <> [] -> Z.of_nat (length runs) < 2 ^ 63 ->
  exists k body, (1 <= k <= Z.to_nat maxHistory)%nat /\ series runs = Ok body /\
    parseHistory body = take k (reverse (numbered runs)) /\ (strlen body <= maxCommentLen \/ k = 1%nat).
Proof.
  induction runs as [|cur runs IH] using rev_ind; [done|]. intros _ Hn. rewrite length_app in Hn. simpl in Hn.
  assert (exists k prev, (runs <> [] -> 1 <= k)%nat /\ series runs = Ok prev /\
    parseHistory prev = take k (reverse (numbered runs))) as (k & prev & Hk & Hs & Hp).
  { destruct (decide (runs = [])) as [->|Hne]; [by exists 0%nat, ""|].
    destruct IH as (k & prev & ? & ? & ? & _); [done|lia|]. exists k, prev. split_and!; [lia|done|done]. }
  destruct (renderComment_history cur prev) as (k' & body & Hk' & Hr & Hb & Hor & _).
  exists (k' `min` S k)%nat, body. split_and!; [lia|lia| | |destruct Hor; [by left|right; lia]].
  - unfold series. rewrite foldl_app. cbn [foldl]. change (foldl _ (Ok "") runs) with (series runs). by rewrite Hs.
  - rewrite Hb, Hp, numbered_snoc, reverse_snoc.
    rewrite (number_next runs k _ cur eq_refl) by (done || lia).
    destruct k' as [|k']; [lia|]. cbn [take]. f_equal. by rewrite take_take.
Qed.

(** ** Two runs *)

Definition ex_run (md : string) : runRecord :=
  {| run_Num := 0; run_TargetSHA := "abcdef1234567890"; run_TargetRef := "release/v1"; run_RunURL := "https://example/run";
     run_Legs := Some [{| lr_Label := "ingest"; lr_Verdict := "ok"; lr_Markdown := md |}] |}.

Definition ex_runs : list runRecord := [ex_run "a < b & c"; ex_run "second"].

Example ex_series :
  (parseHistory <$> series ex_runs) = Ok [set_Num 2 (ex_run "second"); set_Num 1 (ex_run "a < b & c")] /\
  parseHistory "" = [] /\ parseHistory (history_open +:+ "bm90LWpzb24=" +:+ history_close) = [] /\
  parseHistory (history_open +:+ "!!!" +:+ history_close) = [] /\
  parseLegs "  " = Ok None /\
  renderLeg {| lr_Label := "X"; lr_Verdict := ""; lr_Markdown := " " |} =
    newline +:+ "### ❌ X — verdict: none" +:+ newline +:+ newline +:+
    "_No result object published (leg timed out or failed before publishing). See the run logs._" +:+ newline.
Proof. vm_compute. repeat split. Qed.

Lemma series_numbers_witness :
  exists k body, (1 <= k <= Z.to_nat maxHistory)%nat /\ series ex_runs = Ok body /\
    parseHistory body = take k (reverse (numbered ex_runs)) /\ (strlen body <= maxCommentLen \/ k = 1%nat).
Proof. apply (series_numbers ex_runs); [done|by vm_compute]. Defined.
