(* ===== verification/PerfBench.v ===== *)
(** * The legs of the performance evaluation
    (integrationtest/infrastructure/perf-eval/go-bench, .../ingest-load-test)

    The runners of the Go benchmarks and of the ingestion benchmark, call by
    call over the box of PerfHarness.v: what they run, what they publish, and how
    they fail. *)

From S2P Require Import Prelude GoStd GoText GoStrings GoFloat GoCodec GoJson Sdk SdkExample PerfHarness PerfComment.

(** ** Lines and paths *)

(** [bufio.ScanLines]: a carriage return before the line break is dropped. *)
Definition drop_cr (line : string) : string :=
  let n := String.length line in
  if decide (string_drop (n - 1) line = str1 (char 13)) then string_take (n - 1) line else line.

(** The tokens of a scanner whose buffer holds at most a mebibyte: it stops at a
    line that does not fit, and does not report an empty last one. *)
Definition maxToken : Z := 1024 * 1024.

Fixpoint scanned (lines : list string) : list string :=
  match lines with
  | [] => []
  | [l] => if decide (l = "" \/ strlen l >= maxToken) then [] else [drop_cr l]
  | l :: lines => if decide (strlen l >= maxToken) then [] else drop_cr l :: scanned lines
  end.

Definition scan_lines (s : string) : list string := scanned (Split (char 10) s).

(** [path.Clean]: the elements of the result, the last one first *)
Definition clean_step (rooted : bool) (acc : list string) (c : string) : list string :=
  if decide (c = "" \/ c = ".") then acc
  else if decide (c = "..") then
    match acc with
    | x :: rest => if decide (x = "..") then ".." :: acc else rest
    | [] => if rooted then [] else [".."]
    end
  else c :: acc.

Definition slash : Ascii.ascii := char 47.
Definition is_rooted (p : string) : bool :=
  match p with String c _ => bool_decide (c = slash) | EmptyString => false end.

Definition path_Clean (p : string) : string :=
  let s := Join (reverse (foldl (clean_step (is_rooted p)) [] (Split slash p))) "/" in
  if is_rooted p then "/" +:+ s else if decide (s = "") then "." else s.

(** [path.Dir], [filepath.Base] and [filepath.Join] of two elements, on Unix *)
Definition path_Dir (p : string) : string :=
  match removelast (Split slash p) with
  | [] => path_Clean ""
  | l => path_Clean (Join l "/" +:+ "/")
  end.
Definition filepath_Base (p : string) : string :=
  if decide (p = "") then "."
  else let s := TrimRightChar slash p in
    if decide (s = "") then "/" else default "" (last (Split slash s)).
Definition filepath_Join (a b : string) : string :=
  match filter (fun s => s <> "") [a; b] with [] => "" | l => path_Clean (Join l "/") end.

Example ex_paths :
  path_Dir "runs/42/result.json" = "runs/42" /\ path_Dir "result.json" = "." /\ path_Dir "/a//b/../c" = "/a" /\
  filepath_Base "/tmp/baseline.txt" = "baseline.txt" /\ filepath_Join "/data/" "stellar-rpc-bin" = "/data/stellar-rpc-bin" /\
  path_Clean "../a/./b/.." = "../a" /\ scan_lines ("a" +:+ newline +:+ "b" +:+ newline) = ["a"; "b"].
Proof. vm_compute. repeat split. Qed.

(** ** go-bench *)

Definition legTitle : string := "Go endpoint benchmarks".
Definition benchDenylist : list string := ["BenchmarkGetLedgerEntries"; "BenchmarkTransactionFetch"].

Record benchReport := { b_BaselineRef : string; b_BaselineSHA : string; b_TargetSHA : string; b_Count : Z;
  b_BaselineFails : list string; b_CandidateFails : list string; b_Benchstat : string;
  b_RawLogsPrefix : string; b_RawLogs : list string }.

Section Bench.
Context `{B : Box}.

(** [git] in a directory, with the failing command in the error *)
Fixpoint git_all (dir : string) (cmds : list (list string)) : M World unit :=
  match cmds with
  | [] => mret tt
  | args :: cmds =>
      map_err (EWrap ("git " +:+ Join args " ")) (RunStreaming dir [] 20 "git" args) ;;
      git_all dir cmds
  end.

Definition checkoutBaseline (dir repo ref : string) : M World string :=
  MkdirAll dir ;;
  git_all dir [["init"; "-q"]; ["remote"; "add"; "origin"; "https://github.com/" +:+ repo +:+ ".git"];
               ["fetch"; "--depth"; "1"; "origin"; ref]; ["checkout"; "--detach"; "FETCH_HEAD"]] ;;
  out ← map_err (EWrap "git rev-parse") (Output "git" ["-C"; dir; "rev-parse"; "HEAD"]);
  mret (TrimSpace out).

(** The packages of the FAIL lines of a bench output *)
Definition failed_pkg (line : string) : option string :=
  match Fields line with
  | f :: pkg :: _ => if decide (f = "FAIL") then Some pkg else None
  | _ => None
  end.

Definition parseFailedPkgs (outFile : string) : M World (list string) :=
  f ← attempt (ReadFile outFile);
  mret (match f with inl data => omap failed_pkg (scan_lines data) | inr _ => [] end).

Definition suite_args (count : Z) : list string :=
  ["test"; "-run"; "^$"; "-bench"; "."; "-skip"; "^(" +:+ Join benchDenylist "|" +:+ ")$";
   "-benchmem"; "-count"; FormatInt count; "-timeout"; "30m"; "./..."].

(** The packages that failed: none exactly when the suite ran and succeeded. *)
Definition runSuite (dir outFile : string) (count : Z) : M World (list string) :=
  f ← attempt (OpenAppend outFile);
  match f with
  | inr _ => mret ["<suite>"]
  | inl _ =>
      err ← attempt (ExecTo outFile dir "go" (suite_args count));
      match err with
      | inl _ => mret []
      | inr _ =>
          failed ← parseFailedPkgs outFile;
          mret (match failed with [] => ["<suite>"] | _ => failed end)
      end
  end.

Definition runBenchstat (baselineOut candidateOut outFile : string) : M World unit :=
  OpenAppend outFile ;;
  ExecTo outFile (path_Dir baselineOut) "go"
    ["run"; "golang.org/x/perf/cmd/benchstat@latest"; filepath_Base baselineOut; filepath_Base candidateOut].

(** The loop of [uploadRawLogs], over the files in the order the map gives *)
Fixpoint upload_each (bucket prefix : string) (files : list (string * string)) : M World (list string) :=
  match files with
  | [] => mret []
  | (name, p) :: files =>
      body ← attempt (ReadFile p);
      match body with
      | inr _ => upload_each bucket prefix files
      | inl body =>
          put ← attempt (PutObject bucket (prefix +:+ "/" +:+ name) body "text/plain");
          rest ← upload_each bucket prefix files;
          mret (match put with inl _ => name :: rest | inr _ => rest end)
      end
  end.

Context `{ND : Nondet}.

(** [sort.Strings] *)
Definition sort_strings (l : list string) : list string := merge_sort String.le l.

Definition uploadRawLogs (bucket resultKey : string) (files : list (string * string)) : M World (list string) :=
  if decide (resultKey = "") then mret []
  else
    uploaded ← upload_each bucket (path_Dir resultKey) (range_map files);
    mret (sort_strings uploaded).

(** [renderMarkdown] *)
Definition renderMarkdown (r : benchReport) : string :=
  "**Baseline** `" +:+ b_BaselineRef r +:+ "` (`" +:+ string_take 12 (b_BaselineSHA r) +:+ "`) vs **candidate** `" +:+
  string_take 12 (b_TargetSHA r) +:+ "` — `-benchmem -count=" +:+ FormatInt (b_Count r) +:+
  "`, both refs sequentially on one box." +:+ newline +:+
  concat_map (fun pkg => newline +:+ "❌ Candidate bench run failed in `" +:+ pkg +:+ "`; see the box log." +:+ newline)
    (b_CandidateFails r) +:+
  concat_map (fun pkg => newline +:+ "❌ Baseline bench run failed in `" +:+ pkg +:+ "`; its rows lack a base column." +:+
    newline) (b_BaselineFails r) +:+
  newline +:+ "<details>" +:+ newline +:+ "<summary>benchstat: baseline vs candidate</summary>" +:+ newline +:+ newline +:+
  fence +:+ newline +:+ TrimRightChar (char 10) (b_Benchstat r) +:+ newline +:+ fence +:+ newline +:+ newline +:+
  "</details>" +:+ newline +:+
  (if decide (b_RawLogs r <> []) then
     newline +:+ "Raw benchmark logs (`" +:+ b_RawLogsPrefix r +:+ "`): " +:+ Join (b_RawLogs r) ", " +:+ newline
   else "").

(** [json.Marshal] of a report: empty lists of failures are left out. *)
Definition strings_json (l : list string) : json := JArr (json_string <$> l).
Definition omitempty (name : string) (l : list string) : list (string * json) :=
  match l with [] => [] | _ => [(name, strings_json l)] end.
Definition benchReport_json (r : benchReport) : json :=
  JObj ([("baselineRef", json_string (b_BaselineRef r)); ("baselineSha", json_string (b_BaselineSHA r));
         ("targetSha", json_string (b_TargetSHA r)); ("count", json_int (b_Count r))] ++
        omitempty "baselineFails" (b_BaselineFails r) ++ omitempty "candidateFails" (b_CandidateFails r)).

Definition env (k : string) : string := default "" (GetEnv !! k).

(** [publishOK] *)
Definition publishOK (r : benchReport) (benchResults : string) : M World unit :=
  map_err (EWrap "writing bench metadata") (WriteFile benchResults (json_print (benchReport_json r))) ;;
  PublishResult (env "BUCKET") (env "RESULT_KEY") "ok" (env "RUN_ID") (b_TargetSHA r) (env "RESULTS_FILE") benchResults.

(** [return bail(...)]: a failed call is reported in the results file. *)
Definition or_bail {A} (title msg : string) (m : M World A) : M World A := fun w =>
  match m w with
  | (Err e, w) => BailInstance (env "RESULTS_FILE") title (env "RUN_ID") (env "TARGET_SHA") (msg +:+ error_message e) w
  | r => r
  end.
Definition bail {A} (title msg : string) : M World A :=
  BailInstance (env "RESULTS_FILE") title (env "RUN_ID") (env "TARGET_SHA") msg.

Fixpoint build_libs (dirs : list string) : M World unit :=
  match dirs with
  | [] => mret tt
  | dir :: dirs =>
      or_bail legTitle ("make build-libs failed in " +:+ dir +:+ ": ") (RunStreaming dir [] 40 "make" ["build-libs"]) ;;
      build_libs dirs
  end.

Definition baselineOut : string := "/tmp/baseline.txt".
Definition candidateOut : string := "/tmp/candidate.txt".
Definition benchstatOut : string := "/tmp/benchstat.txt".
Definition benchResults : string := "/tmp/bench-results.json".
Definition raw_logs : list (string * string) :=
  [("baseline.txt", baselineOut); ("candidate.txt", candidateOut); ("benchstat.txt", benchstatOut)].

(** What follows the benchmarks: the comparison, the report and the verdict *)
Definition conclude (baselineRef baselineSHA : string) (count : Z) (baselineFails candidateFails : list string)
    : M World unit :=
  or_bail legTitle "benchstat failed: " (runBenchstat baselineOut candidateOut benchstatOut) ;;
  benchstat ← or_bail legTitle "reading benchstat output: " (ReadFile benchstatOut);
  uploaded ← uploadRawLogs (env "BUCKET") (env "RESULT_KEY") raw_logs;
  let rawLogsPrefix :=
    match uploaded with [] => "" | _ => "s3://" +:+ env "BUCKET" +:+ "/" +:+ path_Dir (env "RESULT_KEY") +:+ "/" end in
  let report := {| b_BaselineRef := baselineRef; b_BaselineSHA := baselineSHA; b_TargetSHA := env "TARGET_SHA";
    b_Count := count; b_BaselineFails := baselineFails; b_CandidateFails := candidateFails; b_Benchstat := benchstat;
    b_RawLogsPrefix := rawLogsPrefix; b_RawLogs := uploaded |} in
  or_bail legTitle "writing results markdown: " (WriteFile (env "RESULTS_FILE") (renderMarkdown report)) ;;
  match candidateFails with
  | _ :: _ => fail (EMsg ("candidate benchmarks failed in " +:+ Join candidateFails ", "))
  | [] => or_bail legTitle "publishing result: " (publishOK report benchResults)
  end.

(** [instantiate] *)
Definition instantiate : M World unit :=
  let baselineRef := Getenv "BASELINE_REF" in
  let countStr := Env "BENCH_COUNT" "10" in
  repoRoot ← Getwd;
  match Atoi countStr with
  | Ok count =>
      if decide (count < 1) then bail legTitle ("invalid BENCH_COUNT " +:+ quoted countStr)
      else if decide (baselineRef = "") then
        bail legTitle "BASELINE_REF unset; the coordinator resolves it from the latest release"
      else
        or_bail legTitle "loading AWS config: " (LoadDefaultConfig (env "REGION")) ;;
        let baselineDir := filepath_Join (env "WORK_DIR") "stellar-rpc-baseline" in
        baselineSHA ← or_bail legTitle ("checking out baseline " +:+ baselineRef +:+ ": ")
                        (checkoutBaseline baselineDir (env "REPO") baselineRef);
        build_libs [baselineDir; repoRoot] ;;
        baselineFails ← runSuite baselineDir baselineOut count;
        candidateFails ← runSuite repoRoot candidateOut count;
        conclude baselineRef baselineSHA count baselineFails candidateFails
  | _ => bail legTitle ("invalid BENCH_COUNT " +:+ quoted countStr)
  end.
End Bench.

(** ** ingest-load-test *)

Definition ledgerScenarios : list string := ["oz"; "sac"; "soroswap"].
Definition curVersion : string := "v27".

Section IngestLeg.
Context `{B : Box}.

(** The golden database of the first prefix that has a sound one: the seconds its
    download took, [None] when no prefix has one. *)
Fixpoint fetch_golden (bucket goldenDB : string) (prefixes : list string) : M World (option Z) :=
  match prefixes with
  | [] => mret None
  | pfx :: prefixes =>
      start ← Now;
      err ← attempt (FetchVerified bucket (pfx +:+ "/golden.sqlite.zst") goldenDB true "golden DB");
      match err with
      | inr _ => attempt (RemoveFile goldenDB) ;; fetch_golden bucket goldenDB prefixes
      | inl _ => now ← Now; mret (Some (int_of_float (Duration_Seconds (now - start))))
      end
  end.

Definition bundle_name (sc : string) : string := "load-test-ledgers-" +:+ curVersion +:+ "-" +:+ sc +:+ ".xdr.zstd".

Fixpoint fetch_bundles (bucket : string) (scenarios : list string) : M World (list string) :=
  match scenarios with
  | [] => mret []
  | sc :: scenarios =>
      let bundlePath := "/tmp/" +:+ bundle_name sc in
      FetchVerified bucket ("ledgers/" +:+ bundle_name sc) bundlePath false ("ledger bundle (" +:+ sc +:+ ")") ;;
      rest ← fetch_bundles bucket scenarios;
      mret (bundlePath :: rest)
  end.

Definition corePath : string := "/usr/local/bin/stellar-core".

Definition fetchCorpus (bucket goldenDB : string) : M World (list string * Z) :=
  golden ← fetch_golden bucket goldenDB ["current"; "prev1"; "prev2"];
  match golden with
  | None => fail (EMsg "no golden.sqlite.zst in current/, prev1/, or prev2/")
  | Some secs =>
      if decide (secs < 0) then fail (EMsg "no golden.sqlite.zst in current/, prev1/, or prev2/")
      else
        FetchVerified bucket "core/stellar-core.zst" corePath true "stellar-core" ;;
        map_err (EWrap "chmod stellar-core") (Chmod corePath 493) ;;
        bundlePaths ← fetch_bundles bucket ledgerScenarios;
        mret (bundlePaths, secs)
  end.

Definition ingestTitle : string := "Ingest load test".

Definition ingest_instantiate : M World unit :=
  let goldenDB := Env "GOLDEN_DB" (filepath_Join (env "WORK_DIR") "golden.sqlite") in
  let benchResults := Env "BENCH_RESULTS" "/tmp/bench-results.json" in
  repoRoot ← Getwd;
  or_bail ingestTitle "loading AWS config: " (LoadDefaultConfig (env "REGION")) ;;
  '(bundlePaths, goldenFetchSecs) ← or_bail ingestTitle "" (fetchCorpus (env "BUCKET") goldenDB);
  or_bail ingestTitle "make build-libs failed: " (RunStreaming repoRoot [] 40 "make" ["build-libs"]) ;;
  or_bail ingestTitle ("benchmark failed:" +:+ newline) (RunStreaming repoRoot
    ["LOADTEST_INGEST_LEDGER_PATH=" +:+ Join bundlePaths ",";
     "LOADTEST_INGEST_DEADLINE=" +:+ Env "LOADTEST_INGEST_DEADLINE" "150m";
     "LOADTEST_SQLITE_PATH=" +:+ goldenDB;
     "PERF_RESULTS_PATH=" +:+ benchResults;
     "PERF_RESULTS_MD_PATH=" +:+ env "RESULTS_FILE";
     "PERF_TARGET_SHA=" +:+ env "TARGET_SHA";
     "PERF_RUN_ID=" +:+ env "RUN_ID";
     "PERF_REPO=" +:+ env "REPO";
     "PERF_GOLDEN_FETCH_SECONDS=" +:+ FormatInt goldenFetchSecs;
     "STELLAR_RPC_INTEGRATION_TESTS_ENABLED=true"] 80 "go"
    ["test"; "-run"; "TestIngestSyntheticLedgers"; "-timeout"; "170m"; "-v";
     "./cmd/stellar-rpc/internal/integrationtest/"]) ;;
  fi ← attempt (StatSize (env "RESULTS_FILE"));
  match fi with
  | inl size =>
      if decide (size = 0) then bail ingestTitle ("benchmark succeeded but did not emit " +:+ env "RESULTS_FILE")
      else or_bail ingestTitle "publishing result: "
        (PublishResult (env "BUCKET") (env "RESULT_KEY") "ok" (env "RUN_ID") (env "TARGET_SHA") (env "RESULTS_FILE") benchResults)
  | inr _ => bail ingestTitle ("benchmark succeeded but did not emit " +:+ env "RESULTS_FILE")
  end.
End IngestLeg.

(** ** What succeeded, when a leg succeeds *)

Section Verdicts.
Context `{B : Box} `{ND : Nondet}.

Lemma bind_Ok {S A C} (m : M S A) (f : A -> M S C) s c s' :
  (m ≫= f) s = (Ok c, s') <-> exists a s1, m s = (Ok a, s1) /\ f a s1 = (Ok c, s').
Proof.
  unfold mbind, M_bind. destruct (m s) as [[a|e|p] s1]; split; try done.
  - intros H. by exists a, s1.
  - by intros (? & ? & [= <- <-] & H).
  - by intros (? & ? & [=] & _).
  - by intros (? & ? & [=] & _).
Qed.

Lemma attempt_Ok {S A} (m : M S A) s r s' :
  attempt m s = (Ok r, s') <-> m s = (match r with inl a => Ok a | inr e => Err e end, s').
Proof.
  unfold attempt. destruct (m s) as [[a|e|p] s1]; split; try done.
  - by intros [= <- <-].
  - destruct r; by intros [= <- <-].
  - by intros [= <- <-].
  - destruct r; by intros [= <- <-].
  - by destruct r.
Qed.

Lemma ret_Ok {S A} (a b : A) (s s' : S) : (mret a : M S A) s = (Ok b, s') <-> a = b /\ s = s'.
Proof. split; [by intros [= <- <-]|by intros [-> ->]]. Qed.

Lemma bail_fails {A} title msg w (a : A) w' : bail title msg w <> (Ok a, w').
Proof.
  unfold bail, BailInstance. intros H. apply bind_Ok in H as (x & w1 & _ & H). done.
Qed.

Lemma or_bail_Ok {A} title msg (m : M World A) w a w' : or_bail title msg m w = (Ok a, w') -> m w = (Ok a, w').
Proof.
  unfold or_bail. destruct (m w) as [[x|e|p] w1]; try done. intros H. by apply (bail_fails title (msg +:+ error_message e)) in H.
Qed.

(** What a run of the suite reports: nothing if it succeeded, otherwise the
    packages its output names as failed, or the suite itself if it names none. *)
Definition suite_args_spec (count : Z) : list string :=
  ["test"; "-run"; "^$"; "-bench"; "."; "-skip"; "^(BenchmarkGetLedgerEntries|BenchmarkTransactionFetch)$";
   "-benchmem"; "-count"; FormatInt count; "-timeout"; "30m"; "./..."].

Definition named_failures (log : string) : list string :=
  match omap failed_pkg (scan_lines log) with [] => ["<suite>"] | pkgs => pkgs end.

Definition suite_ran (dir outFile : string) (count : Z) (failed : list string) (w w' : World) : Prop :=
  (exists e, OpenAppend outFile w = (Err e, w') /\ failed = ["<suite>"]) \/
  exists w1, OpenAppend outFile w = (Ok tt, w1) /\
    ((ExecTo outFile dir "go" (suite_args_spec count) w1 = (Ok tt, w') /\ failed = []) \/
     exists e w2, ExecTo outFile dir "go" (suite_args_spec count) w1 = (Err e, w2) /\
       ((exists log, ReadFile outFile w2 = (Ok log, w') /\ failed = named_failures log) \/
        (exists e', ReadFile outFile w2 = (Err e', w') /\ failed = ["<suite>"]))).

Lemma runSuite_ran dir outFile count failed w w' :
  runSuite dir outFile count w = (Ok failed, w') -> suite_ran dir outFile count failed w w'.
Proof.
  unfold runSuite. intros H. apply bind_Ok in H as ([[]|e] & w1 & Hf & H); apply attempt_Ok in Hf.
  2: { apply ret_Ok in H as [<- <-]. left. by exists e. }
  right. exists w1. split; [done|]. apply bind_Ok in H as ([[]|e] & w2 & He & H); apply attempt_Ok in He.
  - apply ret_Ok in H as [<- <-]. by left.
  - right. exists e, w2. split; [done|]. apply bind_Ok in H as (l & w3 & Hp & H). apply ret_Ok in H as [<- <-].
    unfold parseFailedPkgs in Hp. apply bind_Ok in Hp as ([log|e'] & w4 & Hr & Hp); apply attempt_Ok in Hr;
      apply ret_Ok in Hp as [<- <-]; [left; exists log|right; exists e']; (split; [exact Hr|]); unfold named_failures; by try destruct (omap _ _).
Qed.

Lemma suite_ran_ok dir outFile count w w' : suite_ran dir outFile count [] w w' ->
  exists w1, OpenAppend outFile w = (Ok tt, w1) /\ ExecTo outFile dir "go" (suite_args_spec count) w1 = (Ok tt, w').
Proof.
  intros [(e & _ & [=])|(w1 & Ho & Hr)]. destruct Hr as [[He _]|(e & w2 & _ & [(log & _ & Hn)|(e' & _ & [=])])]; [by exists w1|].
  exfalso. unfold named_failures in Hn. by destruct (omap _ _).
Qed.

Lemma map_err_Ok {S A} f (m : M S A) s a s' : map_err f m s = (Ok a, s') <-> m s = (Ok a, s').
Proof. unfold map_err. destruct (m s) as [[x|e|p] s1]; naive_solver. Qed.

(** What a leg that ends well has done, up to its report: it took the checkout it
    was started in as the candidate and cloned the baseline beside it, built both,
    ran the suite in the one and in the other, in this order and with different
    outputs, compared the two outputs, and wrote the report of exactly these runs;
    none of the candidate's packages failed. *)
Definition baseline_dir : string := filepath_Join (env "WORK_DIR") "stellar-rpc-baseline".

Record leg_ran (r : benchReport) (w w' : World) : Prop := {
  lr_target : b_TargetSHA r = env "TARGET_SHA";
  lr_baseline : b_BaselineRef r = Getenv "BASELINE_REF" /\ b_BaselineRef r <> "";
  lr_count : Atoi (Env "BENCH_COUNT" "10") = Ok (b_Count r) /\ 1 <= b_Count r;
  lr_candidate : b_CandidateFails r = [];
  lr_runs : exists root out w1 w2 w3 w4 w5 w6 w7 w8 w9 w10 w11 w12 w13 w14 w15,
    Getwd w = (Ok root, w1) /\ LoadDefaultConfig (env "REGION") w1 = (Ok tt, w2) /\
    MkdirAll baseline_dir w2 = (Ok tt, w3) /\
    git_all baseline_dir
      [["init"; "-q"]; ["remote"; "add"; "origin"; "https://github.com/" +:+ env "REPO" +:+ ".git"];
       ["fetch"; "--depth"; "1"; "origin"; b_BaselineRef r]; ["checkout"; "--detach"; "FETCH_HEAD"]] w3 = (Ok tt, w4) /\
    Output "git" ["-C"; baseline_dir; "rev-parse"; "HEAD"] w4 = (Ok out, w5) /\ b_BaselineSHA r = TrimSpace out /\
    RunStreaming baseline_dir [] 40 "make" ["build-libs"] w5 = (Ok tt, w6) /\
    RunStreaming root [] 40 "make" ["build-libs"] w6 = (Ok tt, w7) /\
    suite_ran baseline_dir "/tmp/baseline.txt" (b_Count r) (b_BaselineFails r) w7 w8 /\
    OpenAppend "/tmp/candidate.txt" w8 = (Ok tt, w9) /\
    ExecTo "/tmp/candidate.txt" root "go" (suite_args_spec (b_Count r)) w9 = (Ok tt, w10) /\
    OpenAppend "/tmp/benchstat.txt" w10 = (Ok tt, w11) /\
    ExecTo "/tmp/benchstat.txt" "/tmp" "go"
      ["run"; "golang.org/x/perf/cmd/benchstat@latest"; "baseline.txt"; "candidate.txt"] w11 = (Ok tt, w12) /\
    ReadFile "/tmp/benchstat.txt" w12 = (Ok (b_Benchstat r), w13) /\
    uploadRawLogs (env "BUCKET") (env "RESULT_KEY") raw_logs w13 = (Ok (b_RawLogs r), w14) /\
    WriteFile (env "RESULTS_FILE") (renderMarkdown r) w14 = (Ok tt, w15) /\ w15 = w'
}.

Lemma checkoutBaseline_Ok dir repo ref sha w w' : checkoutBaseline dir repo ref w = (Ok sha, w') ->
  exists w1 w2 out, MkdirAll dir w = (Ok tt, w1) /\
    git_all dir [["init"; "-q"]; ["remote"; "add"; "origin"; "https://github.com/" +:+ repo +:+ ".git"];
      ["fetch"; "--depth"; "1"; "origin"; ref]; ["checkout"; "--detach"; "FETCH_HEAD"]] w1 = (Ok tt, w2) /\
    Output "git" ["-C"; dir; "rev-parse"; "HEAD"] w2 = (Ok out, w') /\ sha = TrimSpace out.
Proof.
  unfold checkoutBaseline. intros H. apply bind_Ok in H as ([] & w1 & H1 & H). apply bind_Ok in H as ([] & w2 & H2 & H).
  apply bind_Ok in H as (out & w3 & H3 & H). apply map_err_Ok in H3. apply ret_Ok in H as [<- <-]. by exists w1, w2, out.
Qed.

(** A leg that ends well publishes its report last. *)
Lemma instantiate_ok w w' : instantiate w = (Ok tt, w') ->
  exists r w1, leg_ran r w w1 /\ publishOK r benchResults w1 = (Ok tt, w').
Proof.
  unfold instantiate. intros H. apply bind_Ok in H as (root & w1 & Hroot & H).
  destruct (Atoi (Env "BENCH_COUNT" "10")) as [count| |] eqn:Ecount; [|by apply bail_fails in H..].
  case_decide; [by apply bail_fails in H|]. case_decide; [by apply bail_fails in H|].
  apply bind_Ok in H as ([] & w2 & Haws%or_bail_Ok & H). apply bind_Ok in H as (sha & w5 & Hbase%or_bail_Ok & H).
  apply checkoutBaseline_Ok in Hbase as (w3 & w4 & out & Hmk & Hgit & Hout & ->).
  apply bind_Ok in H as ([] & w7 & Hlibs & H). cbn [build_libs] in Hlibs.
  apply bind_Ok in Hlibs as ([] & w6 & Hb1%or_bail_Ok & Hlibs). apply bind_Ok in Hlibs as ([] & w7' & Hb2%or_bail_Ok & Hlibs).
  apply ret_Ok in Hlibs as [_ ->].
  apply bind_Ok in H as (bf & w8 & Hbf%runSuite_ran & H). apply bind_Ok in H as (cf & w10 & Hcf%runSuite_ran & H).
  unfold conclude in H. apply bind_Ok in H as ([] & w12 & Hstat%or_bail_Ok & H).
  unfold runBenchstat in Hstat. apply bind_Ok in Hstat as ([] & w11 & Ho & Hstat).
  apply bind_Ok in H as (benchstat & w13 & Hread%or_bail_Ok & H). apply bind_Ok in H as (uploaded & w14 & Hup & H).
  apply bind_Ok in H as ([] & w15 & Hw%or_bail_Ok & H). destruct cf as [|c cf]; [|done]. apply or_bail_Ok in H.
  apply suite_ran_ok in Hcf as (w9 & Ho9 & Hcf).
  eexists _, w15. split; [|exact H]. split; [done|done|split; [done|cbn; lia]|done|].
  exists root, out, w1, w2, w3, w4, w5, w6, w7, w8, w9, w10, w11, w12, w13, w14, w15. by split_and!.
Qed.

(** The golden database is that of the first prefix that verified. *)
Lemma fetch_golden_first bucket db prefixes w secs w' : fetch_golden bucket db prefixes w = (Ok (Some secs), w') ->
  exists before pfx after w1 w2, prefixes = before ++ pfx :: after /\
    FetchVerified bucket (pfx +:+ "/golden.sqlite.zst") db true "golden DB" w1 = (Ok tt, w2) /\
    Forall (fun p => exists w1 w2 e, FetchVerified bucket (p +:+ "/golden.sqlite.zst") db true "golden DB" w1 = (Err e, w2))
      before.
Proof.
  revert w. induction prefixes as [|p prefixes IH]; intros w H; [done|]. cbn [fetch_golden] in H.
  apply bind_Ok in H as (start & w1 & _ & H). apply bind_Ok in H as ([[]|e] & w2 & Hf & H); apply attempt_Ok in Hf.
  - exists [], p, prefixes, w1, w2. split_and!; [done|done|constructor].
  - apply bind_Ok in H as (x & w3 & _ & H). destruct (IH _ H) as (before & pfx & after & wa & wb & -> & Hok & Hb).
    exists (p :: before), pfx, after, wa, wb. split_and!; [done|done|]. constructor; [by exists w1, w2, e|done].
Qed.
End Verdicts.

(** ** The bench metadata are a document the harness can carry *)

Lemma html_char c r : ~ (code c = 60 \/ code c = 62 \/ code c = 38)%N -> c <> char 226 ->
  html_escape (String c r) = String c (html_escape r).
Proof.
  intros Hc Hn. cbn [html_escape]. rewrite bool_decide_false by done.
  destruct r as [|x [|y r]]; try done. rewrite decide_False; [done|]. by intros [? _].
Qed.

Definition html_plain (c : Ascii.ascii) : bool :=
  negb (bool_decide (code c = 60 \/ code c = 62 \/ code c = 38)%N) && negb (bool_decide (c = char 226)).

Lemma html_plain_app s r : string_forall html_plain s = true -> html_escape (s +:+ r) = s +:+ html_escape r.
Proof.
  induction s as [|c s IH]; [done|]. cbn [string_forall]. rewrite andb_true_iff. intros [Hc Hs].
  unfold html_plain in Hc. rewrite andb_true_iff, !negb_true_iff, !bool_decide_eq_false in Hc.
  rewrite !string_cons_app, html_char by apply Hc. by rewrite IH.
Qed.

Lemma quote_char_plain c : (code c < 128)%N -> string_forall html_plain (quote_char c) = true.
Proof. intros H. each_char c; first [by vm_compute in H|reflexivity]. Qed.

Lemma cont_plain c : cont c = true -> html_plain c = true.
Proof. each_char c; intros H; first [by vm_compute in H|reflexivity]. Qed.

(** A rune of several bytes: continuation bytes after the first *)
Lemma long_rune_tail a b : rune_width (String a b) = String.length (String a b) -> b <> "" ->
  string_forall cont b = true.
Proof.
  unfold rune_width. destruct (code a <? 128)%N; [by destruct b|]. intros H _. destruct b as [|x b]; [done|].
  assert (forall lo hi c, (128 <= lo)%N -> (hi <= 191)%N -> between lo hi c = true -> cont c = true) as Hb.
  { intros lo hi c Hlo Hhi. unfold cont, between. rewrite !andb_true_iff, !N.leb_le. lia. }
  destruct (between 194 223 a).
  { destruct (cont x) eqn:Ex; [|done]. destruct b; [|done]. cbn. by rewrite Ex. }
  destruct b as [|y b]; [done|]. destruct (between 224 239 a).
  { destruct (between _ _ x) eqn:Ex; [|done]. destruct (cont y) eqn:Ey; [|done]. destruct b; [|done].
    cbn. rewrite Ey, andb_true_r. eapply Hb; [| |exact Ex]; clear; destruct (code a =? _)%N; lia. }
  destruct b as [|z b]; [done|]. destruct (between 240 244 a); [|done].
  destruct (between _ _ x) eqn:Ex; [|done]. destruct (cont y) eqn:Ey; [|done]. destruct (cont z) eqn:Ez; [|done].
  destruct b; [|done]. cbn. rewrite Ey, Ez, !andb_true_r.
  eapply Hb; [| |exact Ex]; clear; destruct (code a =? _)%N; lia.
Qed.

Lemma conts_plain b : string_forall cont b = true -> string_forall html_plain b = true.
Proof. apply string_forall_impl, cont_plain. Qed.

Lemma high_plain a : (128 <= code a)%N -> a <> char 226 -> html_plain a = true.
Proof.
  intros Ha Hn. unfold html_plain. rewrite !bool_decide_false; [done|done|lia].
Qed.

Lemma html_226 x y t : ~ (x = char 128 /\ (y = char 168 \/ y = char 169)) ->
  html_escape (String (char 226) (String x (String y t))) = String (char 226) (html_escape (String x (String y t))).
Proof.
  intros H. unfold html_escape at 1. fold html_escape. rewrite bool_decide_false by (by vm_compute; intros [|[|]]).
  rewrite decide_False; [done|]. by intros (_ & ?).
Qed.

Lemma html_escape_rune r t : wf_rune r -> html_escape (quote_rune r +:+ t) = quote_rune r +:+ html_escape t.
Proof.
  destruct r as [b|]; [|by intros _; apply html_plain_app]. intros Hwf.
  destruct b as [|a [|x b]]; [by destruct Hwf|by apply html_plain_app, quote_char_plain, single_rune|].
  rewrite quote_rune_long by (simpl; lia).
  case_decide as E1; [by apply html_plain_app|]. case_decide as E2; [by apply html_plain_app|].
  destruct Hwf as [_ Hw]. pose proof (long_rune_tail a (String x b) Hw) as Ht.
  assert (128 <= code a)%N as Ha.
  { pose proof (rune_width_high _ Hw) as Hh. simpl in Hh. assert (high a = true) as Hx; [|by apply N.leb_le].
    specialize (Hh ltac:(lia)). by apply andb_true_iff in Hh as [? _]. }
  destruct (decide (a = char 226)) as [->|Hne].
  - assert (exists y, b = str1 y) as [y ->].
    { destruct b as [|y b]; [by change (0%nat = 2%nat) in Hw|]. exists y.
      change ((if between 128 191 x && cont y then 3%nat else 0%nat) = S (S (S (String.length b)))) in Hw.
      destruct (between 128 191 x && cont y); [|done]. by destruct b. }
    specialize (Ht ltac:(done)). cbn in Ht. rewrite andb_true_r, andb_true_iff in Ht. destruct Ht as [Hx Hy].
    change (String (char 226) (String x (str1 y)) +:+ t) with (String (char 226) (String x (String y t))).
    rewrite html_226 by (intros [-> [-> | ->]]; [by apply E1|by apply E2]).
    change (String x (String y t)) with (str2 x y +:+ t).
    rewrite (html_plain_app (str2 x y)); [done|]. cbn. by rewrite !cont_plain.
  - apply html_plain_app. change (html_plain a && string_forall html_plain (String x b) = true).
    rewrite high_plain by done. apply conts_plain. by apply Ht.
Qed.

Lemma html_escape_quoted s : html_escape (json_quote_body s) = json_quote_body s.
Proof.
  unfold json_quote_body. induction (runes_wf s) as [|r rs Hr _ IH]; [done|]. cbn [concat_map].
  by rewrite html_escape_rune, IH.
Qed.

Lemma strings_json_good l : good 1 (strings_json l).
Proof. apply (good_array 0), Forall_fmap, Forall_forall. intros s _. apply good_string. Qed.

Lemma strings_json_compact l : json_compact (strings_json l) = strings_json l.
Proof.
  unfold strings_json. cbn [json_compact]. f_equal. induction l as [|s l IH]; [done|]. cbn.
  by rewrite html_escape_quoted, IH.
Qed.

Definition compact (j : json) : Prop := json_compact j = j.

Lemma compact_string s : compact (json_string s).
Proof. unfold compact, json_string. cbn [json_compact]. by rewrite html_escape_quoted. Qed.

Lemma compact_object l : Forall (fun m => html_escape m.1 = m.1 /\ compact m.2) l -> compact (JObj l).
Proof.
  intros Hl. unfold compact. cbn [json_compact]. f_equal. induction Hl as [|[k v] l [Hk Hv] _ IH]; [done|].
  cbn [fst snd] in Hk, Hv. rewrite fmap_cons, IH. by rewrite Hk, Hv.
Qed.

Lemma omitempty_ok name l : html_escape name = name -> json_quote_body name = name ->
  Forall (fun m => wf_body m.1 /\ good 1 m.2) (omitempty name l) /\
  Forall (fun m => html_escape m.1 = m.1 /\ compact m.2) (omitempty name l).
Proof.
  intros Hn Hq. destruct l as [|x l]; [split; constructor|].
  split; (apply Forall_cons_2; [|constructor]); split; cbn [fst snd];
    [by apply wf_body_name|apply strings_json_good|done|apply strings_json_compact].
Qed.

(** The metadata [publishOK] writes can be published with the result. *)
Lemma benchReport_ok r : bench_ok (json_print (benchReport_json r)).
Proof.
  right. exists (benchReport_json r).
  destruct (omitempty_ok "baselineFails" (b_BaselineFails r)) as [Hb1 Hb2]; [by vm_compute..|].
  destruct (omitempty_ok "candidateFails" (b_CandidateFails r)) as [Hc1 Hc2]; [by vm_compute..|].
  assert (good 2 (benchReport_json r)) as [Hwf Hd].
  { apply (good_object 1). unfold benchReport_json. cbn [app]. good_members. by apply Forall_app. }
  split_and!; [done|done| |by eapply N.le_lt_trans; [exact Hd|vm_compute]].
  apply compact_object. cbn [app].
  repeat (apply Forall_cons_2; [split; cbn [fst snd]; [by vm_compute|first [apply compact_string|done]]|]).
  by apply Forall_app.
Qed.

(** ** From the suite to the gatherer *)

(** A file that was written is read back, writing a file changes no other, and
    reading changes none. *)
Class FileLaws `{B : Box} : Prop := {
  write_read : forall p d w w', WriteFile p d w = (Ok tt, w') -> (ReadFile p w').1 = Ok d;
  write_other : forall p q d w w', p <> q -> WriteFile p d w = (Ok tt, w') -> (ReadFile q w').1 = (ReadFile q w).1;
  read_kept : forall p q w, (ReadFile q (ReadFile p w).2).1 = (ReadFile q w).1
}.

Section EndToEnd.
Context `{B : Box} `{ND : Nondet} `{!StoreLaws} `{CL : !ClockLaws} `{!FileLaws}.

(** The gatherer that waits for the leg *)
Definition waits_for_leg (g : GatherConfig) : Prop :=
  g_bucket g = env "BUCKET" /\ g_resultKey g = env "RESULT_KEY" /\ g_runID g = env "RUN_ID".

(** C38: When the benchmark leg ends well it has run the whole suite, first in
    the clone of the baseline, then with success in the checkout it was started
    in, with the requested count, and compared the two outputs; and the
    gatherer of the same run relays a passed verdict at its next poll before the
    deadline.  What it relays are the report and the metadata of exactly these
    runs: the baseline's reference, commit and failed packages, the candidate's
    commit, the count and the output of benchstat.  (The leg has a result key, its
    results file is not the one its metadata is written to, and the run id is
    valid UTF-8.) *)
Theorem bench_leg_relayed g fuel deadline n w w' :
  waits_for_leg g -> env "RESULT_KEY" <> "" -> env "RESULTS_FILE" <> "/tmp/bench-results.json" ->
  utf8_Valid (env "RUN_ID") = true ->
  instantiate w = (Ok tt, w') -> clock w' < deadline ->
  exists r w1 res w2, leg_ran r w w1 /\
    gather_loop (S fuel) g deadline n w' = (o ← relay g res; mret (Some o)) w2 /\
    R_Verdict res = "ok" /\ R_TargetSHA res = utf8_fix (b_TargetSHA r) /\
    R_Markdown res = utf8_fix (renderMarkdown r) /\
    R_Bench res = json_print (JObj
      ([("baselineRef", json_string (b_BaselineRef r)); ("baselineSha", json_string (b_BaselineSHA r));
        ("targetSha", json_string (b_TargetSHA r)); ("count", json_int (b_Count r))] ++
       match b_BaselineFails r with [] => [] | l => [("baselineFails", JArr (json_string <$> l))] end)).
Proof.
  intros (Eb & Ek & Er) Hk Hfile Hrun Hi Hd.
  apply instantiate_ok in Hi as (r & wd & Hleg & Hp). pose proof (lr_candidate _ _ _ Hleg) as Hcand.
  pose proof (lr_runs _ _ _ Hleg) as Hruns.
  assert (exists wc, WriteFile (env "RESULTS_FILE") (renderMarkdown r) wc = (Ok tt, wd)) as [wc Hmdw].
  { destruct Hruns as (?&?&?&?&?&?&?&?&?&?&?&?&?&?&?&w14&?&_&_&_&_&_&_&_&_&_&_&_&_&_&_&_&Hw&->). by exists w14. }
  clear Hruns. unfold publishOK in Hp. apply bind_Ok in Hp as ([] & we & Hw'%map_err_Ok & Hp).
  apply PublishResult_puts in Hp as (md & bench & body & w1 & w2 & Hmd & Hb & Hm & Hput); [|done].
  rewrite decide_False in Hb by done. destruct Hb as (rd & Hrd & Hb).
  assert (rd = Ok (json_print (benchReport_json r))) as ->.
  { pose proof (read_kept (env "RESULTS_FILE") benchResults we) as Hkept. rewrite Hmd in Hkept. cbn [snd] in Hkept.
    rewrite Hrd in Hkept. cbn [fst] in Hkept. rewrite Hkept. by apply (write_read _ _ wd). }
  cbn in Hb. subst bench.
  assert (md = renderMarkdown r) as ->.
  { pose proof (write_other benchResults (env "RESULTS_FILE") _ _ _ ltac:(done) Hw') as Ho. rewrite Hmd in Ho.
    rewrite (write_read _ _ _ _ Hmdw) in Ho. by injection Ho. }
  set (res := {| R_SchemaVersion := 1; R_Verdict := "ok"; R_Markdown := renderMarkdown r; R_Bench := json_print (benchReport_json r);
                 R_RunID := env "RUN_ID"; R_TargetSHA := b_TargetSHA r |}) in *.
  destruct (FetchResult_put (env "BUCKET") (env "RESULT_KEY") res body "application/json" w2 w') as [w3 Hfetch];
    [cbn; lia|apply benchReport_ok|done..|].
  exists r, wd, (fix_Result res), w3. split; [done|].
  assert (benchReport_json r = JObj
    ([("baselineRef", json_string (b_BaselineRef r)); ("baselineSha", json_string (b_BaselineSHA r));
      ("targetSha", json_string (b_TargetSHA r)); ("count", json_int (b_Count r))] ++
     match b_BaselineFails r with [] => [] | l => [("baselineFails", JArr (json_string <$> l))] end)) as <-.
  { unfold benchReport_json. rewrite Hcand. cbn [omitempty]. rewrite app_nil_r. by destruct (b_BaselineFails r). }
  split; [|split_and!; done]. cbn [gather_loop].
  unfold mbind at 1, M_bind at 1. rewrite Now_clock, decide_True by done.
  unfold mbind at 1, M_bind at 1. unfold attempt. rewrite Eb, Ek, Hfetch.
  rewrite decide_True; [done|]. rewrite Er. by apply utf8_fix_Valid.
Qed.
End EndToEnd.

(** ** A leg *)

#[export] Instance ex_FileLaws : FileLaws.
Proof.
  split.
  - intros p d w w'. cbn. intros [= <-]. cbn. by rewrite lookup_insert_eq.
  - intros p q d w w' Hne. cbn. intros [= <-]. cbn. by rewrite lookup_insert_ne.
  - done.
Qed.

Definition ex_bench_gather : GatherConfig :=
  {| g_instanceID := "i-1"; g_githubOutput := "out"; g_bucket := "5"; g_resultKey := "runs/1/result.json"; g_runID := "5";
     g_resultsTimeout := 60 * Second; g_pollInterval := 10 * Second; g_debugLogLines := 5; g_debugEveryPolls := 3 |}.

Definition ex_bench_done : ex_world := (instantiate (B := ex_Box) ex_start).2.

Example ex_bench :
  (instantiate (B := ex_Box) ex_start).1 = Ok tt /\
  ex_objects ex_bench_done !! ("5", "runs/1/baseline.txt") <> None /\
  (gather_loop (B := ex_Box) 1 ex_bench_gather 10 1 ex_bench_done).1 = Ok (Some (Relayed true)) /\
  scan_lines ("ok a" +:+ newline +:+ "FAIL b [build failed]" +:+ newline +:+ "FAIL") =
    ["ok a"; "FAIL b [build failed]"; "FAIL"] /\
  omap failed_pkg ["ok a"; "FAIL b [build failed]"; "FAIL"] = ["b"].
Proof. vm_compute. repeat split; discriminate. Qed.

Lemma bench_leg_relayed_witness :
  exists r w1 res w2, leg_ran (B := ex_Box) r ex_start w1 /\
    gather_loop (B := ex_Box) 1 ex_bench_gather 10 1 ex_bench_done = (o ← relay ex_bench_gather res; mret (Some o)) w2 /\
    R_Verdict res = "ok" /\ R_Markdown res = utf8_fix (renderMarkdown r).
Proof.
  destruct (bench_leg_relayed (B := ex_Box) ex_bench_gather 0 10 1 ex_start ex_bench_done) as (r&w1&res&w2&H1&H2&H3&_&H4&_);
    [by vm_compute..|].
  exists r, w1, res, w2. split; [exact H1|]. split; [exact H2|]. split; [exact H3|exact H4].
Defined.
