(* ===== verification/PerfBackfill.v ===== *)
(** * The backfill leg of the performance evaluation
    (integrationtest/infrastructure/perf-eval/backfill-test/runner)

    The runner starts the server on a backfill configuration and times it by the
    lines the server logs (ingest/backfill.go, daemon/daemon.go): the line that
    ends the ingestion, with its range of ledgers, and the line that ends the
    restoration of the indexes. *)

From S2P Require Import Prelude GoStd GoText GoStrings GoFloat GoCodec GoJson Sdk SdkExample LedgerBucketWindow Tables DbTransaction DbEvent DbLedger Db FeeWindow Ingest Backfill PerfHarness PerfComment PerfBench.

(** ** The lines of the log *)

(** What follows the first match of a search over the suffixes of a line *)
Fixpoint search {A} (f : string -> option A) (s : string) : option A :=
  match f s with
  | Some a => Some a
  | None => match s with EmptyString => None | String _ r => search f r end
  end.

Definition done_text : string := "Backfill process complete, ledgers [".

(** [backfillDoneRe] at a position: its two groups *)
Definition done_here (s : string) : option (string * string) :=
  r ← CutPrefix done_text s;
  '(lo, r) ← digits1 r;
  r ← CutPrefix " -> " r;
  '(hi, r) ← digits1 r;
  CutPrefix "]" r ≫= fun _ => Some (lo, hi).

Definition backfillDoneRe : string -> option (string * string) := search done_here.

Definition finalize_text : string := "Bulk-load finalize complete".
Definition finalizeDoneRe : string -> option string := search (CutPrefix finalize_text).

(** The line of [BackfillMeta.verifyBounds] *)
Definition done_line (minSeq maxSeq : Z) : string :=
  done_text +:+ FormatInt minSeq +:+ " -> " +:+ FormatInt maxSeq +:+ "] are now in local DB".

(** ** os.Expand *)

Definition is_alnum (c : Ascii.ascii) : bool :=
  is_digit c || between 65 90 c || between 97 122 c || bool_decide (c = char 95).

Definition is_special_var (c : Ascii.ascii) : bool :=
  is_digit c || bool_decide (c ∈ [char 42; char 35; char 36; char 64; char 33; char 63; char 45]).

(** The text before a closing brace, and what follows it *)
Fixpoint to_brace (s : string) : option (string * string) :=
  match s with
  | EmptyString => None
  | String c r => if decide (c = char 125) then Some ("", r) else '(n, t) ← to_brace r; Some (String c n, t)
  end.

(** [getShellName] on what follows a dollar sign: the name, how much it consumed
    and whether it is bad syntax, which is dropped *)
Inductive shell_name := ShellName (name rest : string) | ShellBad (rest : string) | ShellNone.

Definition getShellName (s : string) : shell_name :=
  match s with
  | EmptyString => ShellNone
  | String c r =>
      if decide (c = char 123) then
        match r with
        | String v (String b r2) =>
            if is_special_var v && bool_decide (b = char 125) then ShellName (str1 v) r2
            else match to_brace r with
            | Some ("", t) => ShellBad t
            | Some (n, t) => ShellName n t
            | None => ShellBad r
            end
        | _ =>
            match to_brace r with
            | Some ("", t) => ShellBad t
            | Some (n, t) => ShellName n t
            | None => ShellBad r
            end
        end
      else if is_special_var c then ShellName (str1 c) r
      else match span_class is_alnum s with
      | ("", _) => ShellNone
      | (n, t) => ShellName n t
      end
  end.

(** [os.Expand]; the fuel is the length of the text *)
Fixpoint expand (fuel : nat) (mapping : string -> string) (s : string) : string :=
  match fuel, s with
  | S fuel, String c r =>
      if decide (c = char 36 /\ r <> "") then
        match getShellName r with
        | ShellName n t => mapping n +:+ expand fuel mapping t
        | ShellBad t => expand fuel mapping t
        | ShellNone => String c (expand fuel mapping r)
        end
      else String c (expand fuel mapping r)
  | _, _ => ""
  end.
Definition Expand (s : string) (mapping : string -> string) : string := expand (String.length s) mapping s.

(** ** The runner *)

Definition ledgerThreshold : Z := 384.

Record backfillEnv := { bf_Bucket : string; bf_Region : string; bf_WorkDir : string; bf_ResultsFile : string;
  bf_ResultKey : string; bf_TargetSHA : string; bf_RunID : string; bf_Retention : Z; bf_Deadline : Z; bf_ServeAfter : bool }.

Record phaseTimings := { pt_ingest : Z; pt_finalize : Z }.
Definition total (t : phaseTimings) : Z := i64 (pt_ingest t + pt_finalize t).

(** [scanUntil] over the lines still to come, each with the time it is read at:
    the match, the time, and the lines after it *)
Fixpoint scanUntil {A} (re : string -> option A) (lines : list (Z * string)) : option (A * Z * list (Z * string)) :=
  match lines with
  | [] => None
  | (t, line) :: lines => match re line with Some m => Some (m, t, lines) | None => scanUntil re lines end
  end.

(** The value of [strconv.Atoi] on digits, its error dropped: out of range, the
    greatest integer *)
Definition atoi_digits (s : string) : Z := match Atoi s with Ok z => z | _ => 2 ^ 63 - 1 end.

(** The daemon, started: the time, the lines it writes until it ends or the pipe
    fails, each with the time it is read at, and the error of the pipe, if any *)
Record daemon_run := { dr_start : Z; dr_lines : list (Z * string); dr_error : option error }.

(** The lines read before the watchdog kills the daemon *)
Fixpoint before_deadline (limit : Z) (lines : list (Z * string)) : list (Z * string) :=
  match lines with
  | [] => []
  | (t, line) :: lines => if decide (t < limit) then (t, line) :: before_deadline limit lines else []
  end.

(** The error of the closure [bail] of [runBackfill] *)
Definition killed (deadline : Z) (phase : string) (d : daemon_run) : error :=
  match dr_error d with
  | Some e => EWrap "reading daemon output" e
  | None => EMsg ("daemon exited or hit the " +:+ Duration_String deadline +:+ " deadline before " +:+ phase +:+ " completed")
  end.

(** The reading of [runBackfill]: the timings and the range *)
Definition read_phases (deadline : Z) (d : daemon_run) : Res (phaseTimings * Z * Z) :=
  let lines := before_deadline (dr_start d + deadline) (dr_lines d) in
  match scanUntil backfillDoneRe lines with
  | None => Err (killed deadline "backfill" d)
  | Some ((lo, hi), t, lines) =>
      match scanUntil finalizeDoneRe lines with
      | None => Err (killed deadline "bulk-load finalize" d)
      | Some (_, t', _) =>
          Ok ({| pt_ingest := t - dr_start d; pt_finalize := t' - t |}, atoi_digits lo, atoi_digits hi)
      end
  end.

(** [renderMarkdown] *)
Definition renderMarkdown (sha retention : string) (lo hi ingested : Z) (timings : phaseTimings) : string :=
  let s := Duration_Seconds (pt_ingest timings) in
  let lps := if decide (0 < pt_ingest timings) then float_div (float64 ingested) s else float64 0 in
  "### ⏳ Backfill ingestion — `" +:+ string_take 12 sha +:+ "`" +:+ newline +:+ newline +:+
  "| Metric | Value |" +:+ newline +:+ "|---|---|" +:+ newline +:+
  "| Ledgers ingested | " +:+ FormatInt ingested +:+ " (`[" +:+ FormatInt lo +:+ " -> " +:+ FormatInt hi +:+ "]`) |" +:+ newline +:+
  "| Retention window | " +:+ retention +:+ " |" +:+ newline +:+
  "| Wall-clock (total) | " +:+ Duration_String (Round_Second (total timings)) +:+ " |" +:+ newline +:+
  "| Ingest phase | " +:+ Duration_String (Round_Second (pt_ingest timings)) +:+ " |" +:+ newline +:+
  "| Bulk-load finalize phase | " +:+ Duration_String (Round_Second (pt_finalize timings)) +:+ " |" +:+ newline +:+
  "| Ledgers/sec (ingest) | " +:+ FormatFixed 1 lps +:+ " |" +:+ newline.

(** [ingested+ledgerThreshold < cfg.Retention] *)
Definition ingested_of (lo hi : Z) : Z := i64 (i64 (hi - lo) + 1).
Definition short_of (retention lo hi : Z) : bool :=
  bool_decide (i64 (ingested_of lo hi + ledgerThreshold) < retention).

Definition legDir : string := "cmd/stellar-rpc/internal/integrationtest/infrastructure/perf-eval/backfill-test".
Definition rpcPort : string := "8000".

(** The mapping of [renderConfig] *)
Definition config_mapping (workDir coreCfg retention endpoint name : string) : string :=
  if decide (name = "CAPTIVE_CORE_CONFIG_PATH") then coreCfg
  else if decide (name = "CAPTIVE_CORE_STORAGE_PATH") then filepath_Join workDir "core-storage"
  else if decide (name = "DB_PATH") then filepath_Join workDir "backfill.sqlite"
  else if decide (name = "STELLAR_CORE_BINARY_PATH") then corePath
  else if decide (name = "HISTORY_RETENTION_WINDOW") then retention
  else if decide (name = "ENDPOINT") then endpoint
  else "${" +:+ name +:+ "}".

Section Runner.
Context `{B : Box}.
(** The SDK's configuration of captive core; env.ParseAs; the start of the daemon
    and its [Stop]; the wait for the end of the context or of the ceiling. *)
Context (PubnetDefaultConfig : string) (ParseEnv : M World backfillEnv)
  (StartDaemon : string -> string -> M World daemon_run) (StopDaemon : M World unit)
  (ParseCeiling : Res Z) (ServeUntil : Z -> M World unit).

(** serve.go; the failures of the commands are only logged *)
Definition rescheduleShutdown (minutes : Z) (reason : string) : M World unit := fun w =>
  let '(_, w) := Exec "" [] "shutdown" ["-c"] w in
  let '(_, w) := Exec "" [] "shutdown" ["-P"; "+" +:+ FormatInt minutes; reason] w in
  (Ok tt, w).

Definition snapshotBoxLog (bucket key : string) : M World unit := fun w =>
  if decide (bucket = "" \/ key = "") then (Ok tt, w)
  else
    let dst := "s3://" +:+ bucket +:+ "/" +:+ path_Dir key +:+ "/user-data-serving.log" in
    let '(_, w) := Exec "" [] "aws" ["s3"; "cp"; "/var/log/user-data.log"; dst] w in
    (Ok tt, w).

Definition servePhase : M World unit :=
  deferred (rescheduleShutdown 1 "serve phase over") (deferred StopDaemon (
    let ceiling := match ParseCeiling with Ok d => d | _ => 6 * 3600 * Second end in
    rescheduleShutdown (int_of_float (Duration_Minutes ceiling)) "serve ceiling" ;;
    snapshotBoxLog (Getenv "BUCKET") (Getenv "RESULT_KEY") ;;
    ServeUntil ceiling)).

Definition prepareFixtures (bucket repoRoot workDir binaryPath : string) : M World string :=
  FetchVerified bucket "core/stellar-core.zst" corePath true "stellar-core" ;;
  map_err (EWrap "chmod stellar-core") (Chmod corePath 493) ;;
  map_err (EWrap "make build-libs failed") (RunStreaming repoRoot [] 40 "make" ["build-libs"]) ;;
  map_err (EWrap "go build failed") (RunStreaming repoRoot [] 40 "go" ["build"; "-o"; binaryPath; "./cmd/stellar-rpc"]) ;;
  let coreCfg := filepath_Join workDir "captive-core-pubnet.cfg" in
  map_err (EWrap "writing captive-core config") (WriteFile coreCfg PubnetDefaultConfig) ;;
  mret coreCfg.

Definition renderConfig (repoRoot workDir coreCfg retention endpoint : string) : M World string :=
  tmpl ← ReadFile (path_Clean (repoRoot +:+ "/" +:+ legDir +:+ "/testdata/backfill-pubnet.toml.tmpl"));
  let cfgPath := filepath_Join workDir "backfill-rpc.toml" in
  WriteFile cfgPath (Expand tmpl (config_mapping workDir coreCfg retention endpoint)) ;;
  mret cfgPath.

Definition bf_bail {A} (cfg : backfillEnv) (msg : string) : M World A :=
  BailInstance (bf_ResultsFile cfg) "Backfill ingestion" (bf_RunID cfg) (bf_TargetSHA cfg) msg.
Definition bf_or_bail {A} (cfg : backfillEnv) (msg : string) (m : M World A) : M World A := fun w =>
  match m w with (Err e, w) => bf_bail cfg (msg +:+ error_message e) w | r => r end.

(** [runBackfill]: the daemon is stopped when its output ends too early, and at
    the end unless it is kept to serve. *)
Definition runBackfill (deadline : Z) (binary cfgPath : string) (keepAlive : bool) : M World (phaseTimings * Z * Z) :=
  d ← StartDaemon binary cfgPath;
  r ← attempt (of_res (read_phases deadline d));
  match r with
  | inr e => StopDaemon ;; fail e
  | inl r => (if keepAlive then mret tt else StopDaemon) ;; mret r
  end.

(** What [instantiate] makes of a backfill: with a daemon kept for serving, the
    deferred stop runs however the rest ends. *)
Definition report_backfill (cfg : backfillEnv) (timings : phaseTimings) (lo hi : Z) : M World unit :=
  let ingested := ingested_of lo hi in
  let retention := FormatInt (bf_Retention cfg) in
  if short_of (bf_Retention cfg) lo hi then
    bf_bail cfg ("backfill reported complete but ingested " +:+ FormatInt ingested +:+ " of " +:+ retention +:+ " ledgers")
  else
    bf_or_bail cfg "writing results: "
      (WriteFile (bf_ResultsFile cfg) (renderMarkdown (bf_TargetSHA cfg) retention lo hi ingested timings)) ;;
    bf_or_bail cfg "publishing result: "
      (PublishResult (bf_Bucket cfg) (bf_ResultKey cfg) "ok" (bf_RunID cfg) (bf_TargetSHA cfg) (bf_ResultsFile cfg) "").

(** [instantiate] of the runner *)
Definition backfill_instantiate : M World unit :=
  cfg ← map_err (EWrap "parsing env") ParseEnv;
  let binaryPath := filepath_Join (bf_WorkDir cfg) "stellar-rpc-bin" in
  let retention := FormatInt (bf_Retention cfg) in
  repoRoot ← Getwd;
  bf_or_bail cfg "loading AWS config: " (LoadDefaultConfig (bf_Region cfg)) ;;
  coreCfg ← bf_or_bail cfg "" (prepareFixtures (bf_Bucket cfg) repoRoot (bf_WorkDir cfg) binaryPath);
  let endpoint := (if bf_ServeAfter cfg then "0.0.0.0:" else "localhost:") +:+ rpcPort in
  cfgPath ← bf_or_bail cfg "rendering config: " (renderConfig repoRoot (bf_WorkDir cfg) coreCfg retention endpoint);
  '(timings, lo, hi) ← bf_or_bail cfg "" (runBackfill (bf_Deadline cfg) binaryPath cfgPath (bf_ServeAfter cfg));
  if bf_ServeAfter cfg then
    deferred StopDaemon (report_backfill cfg timings lo hi ;; servePhase)
  else report_backfill cfg timings lo hi.
End Runner.

(** ** What the runner reads back *)

Lemma search_skip {A} (f : string -> option A) p s a :
  (forall c q, p = c +:+ q -> q <> "" -> f (q +:+ s) = None) -> f s = Some a -> search f (p +:+ s) = Some a.
Proof.
  intros Hn Hf. induction p as [|c p IH].
  - change ("" +:+ s) with s. destruct s; cbn [search]; by rewrite Hf.
  - pose proof (Hn "" (String c p) eq_refl ltac:(done)) as H. rewrite string_cons_app in H |- *.
    cbn [search]. rewrite H. apply IH. intros d q -> Hq. by apply (Hn (String c d)).
Qed.

(** No capital B before it: the search stops at the text of the daemon. *)
Definition no_B (s : string) : bool := string_forall (fun c => negb (bool_decide (c = char 66))) s.

Lemma done_here_B c s : c <> char 66 -> done_here (String c s) = None.
Proof. intros H. unfold done_here, done_text. cbn [CutPrefix]. by rewrite decide_False by (intros <-; by apply H). Qed.
Lemma finalize_B c s : c <> char 66 -> CutPrefix finalize_text (String c s) = None.
Proof. intros H. unfold finalize_text. cbn [CutPrefix]. by rewrite decide_False by (intros <-; by apply H). Qed.

Lemma search_no_B {A} (f : string -> option A) p s a :
  (forall c t, c <> char 66 -> f (String c t) = None) -> no_B p = true -> f s = Some a -> search f (p +:+ s) = Some a.
Proof.
  intros HB Hp Hf. apply search_skip; [|done]. intros c q -> Hq. destruct q as [|d q]; [done|].
  rewrite string_cons_app. apply HB. unfold no_B in Hp. rewrite string_forall_app in Hp.
  apply andb_true_iff in Hp as [_ Hp]. cbn [string_forall] in Hp. apply andb_true_iff in Hp as [Hp _].
  by intros ->.
Qed.

Lemma digits1_FormatInt z t : 0 <= z -> ends t -> digits1 (FormatInt z +:+ t) = Some (FormatInt z, t).
Proof.
  intros Hz Ht. destruct (FormatInt_digits z) as (m & d & E & Hm & Hd & Hh & _).
  assert (m = "") as ->.
  { destruct Hm as [->| ->]; [done|]. pose proof (pretty_starts_with_digit z Hz) as H. unfold FormatInt in E.
    rewrite E in H. destruct H as [? H]. by vm_compute in H. }
  rewrite E. change ("" +:+ d) with d. unfold digits1. rewrite span_digits_app by done.
  rewrite decide_False; [done|]. by destruct Hh as [->|(? & ? & -> & _)].
Qed.

Lemma done_here_line lo hi t : 0 <= lo -> 0 <= hi ->
  done_here (done_line lo hi +:+ t) = Some (FormatInt lo, FormatInt hi).
Proof.
  intros Hlo Hhi. unfold done_here, done_line. rewrite !app_string_assoc.
  rewrite (proj2 (CutPrefix_app _ _ _) eq_refl). cbn [mbind option_bind].
  rewrite digits1_FormatInt by (done || by vm_compute). cbn [mbind option_bind].
  rewrite (proj2 (CutPrefix_app _ _ _) eq_refl). cbn [mbind option_bind].
  rewrite digits1_FormatInt by (done || by vm_compute). cbn [mbind option_bind].
  change ("] are now in local DB" +:+ t) with ("]" +:+ (" are now in local DB" +:+ t)).
  by rewrite (proj2 (CutPrefix_app _ _ _) eq_refl).
Qed.

Lemma atoi_digits_FormatInt z : 0 <= z < 2 ^ 32 -> atoi_digits (FormatInt z) = z.
Proof. intros Hz. unfold atoi_digits, Atoi. by rewrite ParseInt_FormatInt by lia. Qed.

Lemma scanUntil_skip {A} (re : string -> option A) before t line a after :
  Forall (fun l => re l.2 = None) before -> re line = Some a ->
  scanUntil re (before ++ (t, line) :: after) = Some (a, t, after).
Proof.
  intros Hb Hl. induction Hb as [|[t' l] before Hn _ IH]; cbn; [by rewrite Hl|]. cbn in Hn. by rewrite Hn.
Qed.

Lemma before_deadline_all limit lines after : Forall (fun l => l.1 < limit) lines ->
  before_deadline limit (lines ++ after) = lines ++ before_deadline limit after.
Proof. induction 1 as [|[t l] lines Ht _ IH]; [done|]. cbn in *. by rewrite decide_True, IH by done. Qed.

(** ** The runner and the server it times *)

(** The line the server logs at the end of a backfill, as logrus writes it among
    its other fields *)
Definition log_line (prefix : string) (text : string) (suffix : string) : string := prefix +:+ text +:+ suffix.

(** The log of a backfill that completes: no line matches before the two the
    runner waits for, and all are read before the deadline. *)
Record completed (deadline lo hi t t' : Z) (d : daemon_run) : Prop := {
  c_log : exists before between after p1 s1 p2 s2,
    dr_lines d = before ++ (t, log_line p1 (done_line lo hi) s1) ::
                 between ++ (t', log_line p2 finalize_text s2) :: after /\
    no_B p1 = true /\ no_B p2 = true /\
    Forall (fun l => backfillDoneRe l.2 = None /\ l.1 < dr_start d + deadline) before /\
    Forall (fun l => finalizeDoneRe l.2 = None /\ l.1 < dr_start d + deadline) between;
  c_time : t < dr_start d + deadline /\ t' < dr_start d + deadline;
}.

Lemma read_phases_completed deadline lo hi t t' d :
  0 <= lo < 2 ^ 32 -> 0 <= hi < 2 ^ 32 -> completed deadline lo hi t t' d ->
  read_phases deadline d = Ok ({| pt_ingest := t - dr_start d; pt_finalize := t' - t |}, lo, hi).
Proof.
  intros Hlo Hhi [(before & between & after & p1 & s1 & p2 & s2 & Hl & H1 & H2 & Hb & Hm) [Ht Ht']].
  apply Forall_and in Hb as [Hb Hbt]. apply Forall_and in Hm as [Hm Hmt].
  unfold read_phases. rewrite Hl, before_deadline_all by done. cbn [before_deadline]. rewrite decide_True by done.
  rewrite before_deadline_all by done. cbn [before_deadline]. rewrite decide_True by done.
  rewrite (scanUntil_skip _ _ _ _ (FormatInt lo, FormatInt hi)); [|done|].
  2: { unfold backfillDoneRe, log_line. apply search_no_B; [apply done_here_B|done|]. apply done_here_line; lia. }
  rewrite (scanUntil_skip _ _ _ _ s2); [|done|].
  2: { unfold finalizeDoneRe, log_line. apply search_no_B; [apply finalize_B|done|]. by apply CutPrefix_app. }
  by rewrite !atoi_digits_FormatInt.
Qed.

Lemma i64_id z : - 2 ^ 63 <= z < 2 ^ 63 -> i64 z = z.
Proof. intros H. unfold i64. rewrite Z.mod_small; lia. Qed.

Lemma short_of_missing retention lo hi :
  0 <= lo <= hi -> hi < 2 ^ 32 - 385 -> short_of retention lo hi = bool_decide (hi - lo + 1 + 384 < retention).
Proof.
  intros Hlo Hhi. unfold short_of, ingested_of, ledgerThreshold.
  by rewrite (i64_id (hi - lo)), (i64_id (hi - lo + 1)), (i64_id (hi - lo + 1 + 384)) by lia.
Qed.

Lemma verifyBounds_missing nBackfill lo hi :
  0 <= lo <= hi -> hi < 2 ^ 32 - 385 ->
  Backfill.verifyBounds nBackfill lo hi = bool_decide (hi - lo + 1 + 384 < nBackfill).
Proof.
  intros Hlo Hhi. unfold Backfill.verifyBounds, Backfill.ledgerThreshold.
  assert (forall z, 0 <= z < 2 ^ 32 -> u32 z = z) as Hu by exact u32_small.
  by rewrite (Hu (hi - lo + 1)), Hu by lia.
Qed.

Section Verdict.
Context `{B : Box} (StartDaemon : string -> string -> M World daemon_run) (StopDaemon : M World unit).

(** C37: The runner's verdict on a backfill that completes, against the server's.
    Whatever fields surround the two log lines it keys off, it reads back from
    them the range of ledgers [BackfillMeta.verifyBounds] logged and times the
    two phases by them; it then reports the leg as failed exactly when more than
    384 ledgers of its retention window are missing, and otherwise publishes an
    ok verdict.  The server compares with the smaller of the window and the tip
    of the datastore: whenever it warned the leg fails, when the tip is at least
    the window the leg fails only then, and a leg that fails without a warning
    has a window the datastore cannot fill. *)
Theorem backfill_verdict cfg binary cfgPath tip lo hi t t' d w w1 w2 :
  0 <= lo <= hi -> hi < 2 ^ 32 - 385 -> completed (bf_Deadline cfg) lo hi t t' d ->
  StartDaemon binary cfgPath w = (Ok d, w1) -> StopDaemon w1 = (Ok tt, w2) ->
  let timings := {| pt_ingest := t - dr_start d; pt_finalize := t' - t |} in
  let warned := Backfill.verifyBounds (Z.min (bf_Retention cfg) tip) lo hi in
  let failed := bool_decide (hi - lo + 1 + 384 < bf_Retention cfg) in
  runBackfill StartDaemon StopDaemon (bf_Deadline cfg) binary cfgPath (bf_ServeAfter cfg) w =
    (Ok (timings, lo, hi), if bf_ServeAfter cfg then w1 else w2) /\
  report_backfill cfg timings lo hi =
    (if failed then
       bf_bail cfg ("backfill reported complete but ingested " +:+ FormatInt (hi - lo + 1) +:+ " of " +:+
                    FormatInt (bf_Retention cfg) +:+ " ledgers")
     else
       bf_or_bail cfg "writing results: " (WriteFile (bf_ResultsFile cfg)
         (renderMarkdown (bf_TargetSHA cfg) (FormatInt (bf_Retention cfg)) lo hi (hi - lo + 1) timings)) ;;
       bf_or_bail cfg "publishing result: "
         (PublishResult (bf_Bucket cfg) (bf_ResultKey cfg) "ok" (bf_RunID cfg) (bf_TargetSHA cfg) (bf_ResultsFile cfg) "")) /\
  (warned = true -> failed = true) /\
  (bf_Retention cfg <= tip -> warned = failed) /\
  (failed = true -> warned = false -> tip < bf_Retention cfg /\ tip <= hi - lo + 1 + 384).
Proof.
  intros Hlo Hhi Hc Hs He timings warned failed.
  assert (warned = bool_decide (hi - lo + 1 + 384 < Z.min (bf_Retention cfg) tip)) as Hw
    by (by apply verifyBounds_missing).
  split_and!.
  - unfold runBackfill, mbind, M_bind. rewrite Hs. unfold attempt, of_res.
    rewrite (read_phases_completed _ lo hi t t' d) by (done || lia). cbn.
    by destruct (bf_ServeAfter cfg); [|rewrite He].
  - unfold report_backfill. rewrite short_of_missing by done.
    assert (ingested_of lo hi = hi - lo + 1) as -> by (unfold ingested_of; rewrite (i64_id (hi - lo)), i64_id; lia).
    done.
  - rewrite Hw. unfold failed. rewrite !bool_decide_eq_true. lia.
  - intros Htip. rewrite Hw. unfold failed. apply bool_decide_ext. lia.
  - rewrite Hw. unfold failed. rewrite bool_decide_eq_true, bool_decide_eq_false. lia.
Qed.
End Verdict.

(** ** A backfill of a short window *)

Definition ex_daemon : daemon_run := {| dr_start := 0; dr_error := None; dr_lines := [
  (1 * Second, "level=info msg='starting'");
  (90 * Second, log_line "level=info msg='" (done_line 1001 9000) "' pid=7");
  (95 * Second, "level=info msg='building indexes'");
  (100 * Second, log_line "level=info msg='" finalize_text "'");
  (101 * Second, "level=info msg='serving'")] |}.

Definition ex_cfg (retention : Z) (serve : bool) : backfillEnv :=
  {| bf_Bucket := "b"; bf_Region := "r"; bf_WorkDir := "/data"; bf_ResultsFile := "/tmp/results.md";
     bf_ResultKey := "runs/1/result.json"; bf_TargetSHA := "abcdef1234567890"; bf_RunID := "1"; bf_Retention := retention;
     bf_Deadline := 4 * 3600 * Second; bf_ServeAfter := serve |}.

Definition ex_backfill (retention : Z) : Res unit * ex_world :=
  backfill_instantiate (B := ex_Box) "NETWORK" (mret (ex_cfg retention false)) (fun _ _ => mret ex_daemon) (mret tt)
    (Err (EMsg "unset")) (fun _ => mret tt)
    (MkWorld 0 (<["/repo/cmd/stellar-rpc/internal/integrationtest/infrastructure/perf-eval/backfill-test/testdata/backfill-pubnet.toml.tmpl" := "DB_PATH = ${DB_PATH} $X $"]> ∅)
               {[("b", "core/stellar-core.zst") := "core"]}).

Example ex_backfill_run :
  (ex_backfill 8000).1 = Ok tt /\ ex_objects (ex_backfill 8000).2 !! ("b", "runs/1/result.json") <> None /\
  ex_files (ex_backfill 8000).2 !! "/data/backfill-rpc.toml" = Some "DB_PATH = /data/backfill.sqlite ${X} $" /\
  (ex_backfill 9000).1 = Err (EMsg "backfill reported complete but ingested 8000 of 9000 ledgers") /\
  ex_objects (ex_backfill 9000).2 !! ("b", "runs/1/result.json") = None /\
  Expand "a${}b$*c${d" (fun n => "<" +:+ n +:+ ">") = "ab<*>cd" /\
  read_phases (99 * Second) ex_daemon =
    Err (EMsg "daemon exited or hit the 1m39s deadline before bulk-load finalize completed").
Proof. vm_compute. repeat split; discriminate. Qed.

Lemma ex_daemon_completed retention serve :
  completed (bf_Deadline (ex_cfg retention serve)) 1001 9000 (90 * Second) (100 * Second) ex_daemon.
Proof.
  split; [|by vm_compute].
  exists [(1 * Second, "level=info msg='starting'")], [(95 * Second, "level=info msg='building indexes'")],
    [(101 * Second, "level=info msg='serving'")], "level=info msg='", "' pid=7", "level=info msg='", "'".
  split_and!; [done|by vm_compute..|apply Forall_singleton; by vm_compute|apply Forall_singleton; by vm_compute].
Qed.

Lemma backfill_verdict_witness :
  let cfg := ex_cfg 9000 true in
  let timings := {| pt_ingest := 90 * Second; pt_finalize := 10 * Second |} in
  runBackfill (B := ex_Box) (fun _ _ => mret ex_daemon) (mret tt) (bf_Deadline cfg) "bin" "cfg" true (MkWorld 0 ∅ ∅) =
    (Ok (timings, 1001, 9000), MkWorld 0 ∅ ∅) /\
  report_backfill (B := ex_Box) cfg timings 1001 9000 =
    bf_bail cfg "backfill reported complete but ingested 8000 of 9000 ledgers" /\
  Backfill.verifyBounds (Z.min 9000 60000000) 1001 9000 = true.
Proof.
  destruct (backfill_verdict (B := ex_Box) (fun _ _ => mret ex_daemon) (mret tt) (ex_cfg 9000 true) "bin" "cfg" 60000000 1001 9000
    (90 * Second) (100 * Second) ex_daemon (MkWorld 0 ∅ ∅) (MkWorld 0 ∅ ∅) (MkWorld 0 ∅ ∅)) as (H1&H2&_&H3&_);
    [lia|by vm_compute|apply ex_daemon_completed|done|done|].
  split; [exact H1|]. split; [exact H2|]. etransitivity; [apply H3; vm_compute; discriminate|reflexivity].
Defined.
