(* ===== verification/PerfBlaster.v ===== *)
(** * The endpoint load test of the performance evaluation
    (integrationtest/infrastructure/perf-eval/endpoint-load-test/runner)

    The leg waits for the server the backfill leg left serving, has
    stellar-rpc-blaster sample its ledgers and load its endpoints one after the
    other, and reports the statistics of every endpoint. *)

From Stdlib Require Import Floats.SpecFloat.
From S2P Require Import Prelude GoStd GoText GoStrings GoFloat GoCodec GoJson Sdk SdkExample LedgerBucketWindow Tables DbTransaction DbEvent DbLedger Db Handlers PerfHarness PerfComment PerfBench.

(** ** results.go *)

(** What [json.Unmarshal] makes of a map, of a [uint64] and of a [float64].  An
    element of a map starts from the zero value, the one there was is replaced. *)
Fixpoint fill_entries {A} (zero : A) (fill : A -> json -> option A) (old : gmap string A) (l : list (string * json))
    : option (gmap string A) :=
  match l with
  | [] => Some old
  | (k, v) :: l =>
      name ← unquote k;
      a ← fill zero v;
      fill_entries zero fill (<[name := a]> old) l
  end.
Definition fill_map {A} (zero : A) (fill : A -> json -> option A) (old : gmap string A) (j : json)
    : option (gmap string A) :=
  match j with JNull => Some ∅ | JObj l => fill_entries zero fill old l | _ => None end.

Definition fill_uint64 (old : Z) (j : json) : option Z :=
  match j with JNull => Some old | JNum n => res_option (ParseUint n 64) | _ => None end.

(** The value of the digits of a signed exponent *)
Definition exponent (e : string) : Z :=
  match e with
  | String _ (String s _) => if decide (s = char 45) then - digits_value e 0 else digits_value e 0
  | _ => 0
  end.

(** [strconv.ParseFloat] of a number as JSON writes them: [None] out of range *)
Definition number_float (n : string) : option spec_float :=
  let '(m, r) := scan_sign n in
  '(i, r) ← scan_int r; '(f, r) ← scan_frac r; '(e, r) ← scan_exp r;
  match float_of_decimal (bool_decide (m <> "")) (digits_value (i +:+ f) 0)
          (exponent e - Z.of_nat (String.length f - 1)) with
  | S754_infinity _ => None
  | v => Some v
  end.

Definition fill_float64 (old : spec_float) (j : json) : option spec_float :=
  match j with JNull => Some old | JNum n => number_float n | _ => None end.

(** The anonymous structures of [summarize] *)
Record endpoint := { ep_TotalRequests : Z; ep_Errors : Z; ep_TargetRPS : spec_float; ep_Limit : Z;
                     ep_Percentiles : gmap string spec_float }.
Definition float_zero : spec_float := S754_zero false.
Definition zero_endpoint : endpoint :=
  {| ep_TotalRequests := 0; ep_Errors := 0; ep_TargetRPS := float_zero; ep_Limit := 0; ep_Percentiles := ∅ |}.

Definition endpoint_fields : list (string * (endpoint -> json -> option endpoint)) := [
  ("total_requests", fun e j => x ← fill_uint64 (ep_TotalRequests e) j;
     Some {| ep_TotalRequests := x; ep_Errors := ep_Errors e; ep_TargetRPS := ep_TargetRPS e; ep_Limit := ep_Limit e;
             ep_Percentiles := ep_Percentiles e |});
  ("errors", fun e j => x ← fill_uint64 (ep_Errors e) j;
     Some {| ep_TotalRequests := ep_TotalRequests e; ep_Errors := x; ep_TargetRPS := ep_TargetRPS e;
             ep_Limit := ep_Limit e; ep_Percentiles := ep_Percentiles e |});
  ("target_rps", fun e j => x ← fill_float64 (ep_TargetRPS e) j;
     Some {| ep_TotalRequests := ep_TotalRequests e; ep_Errors := ep_Errors e; ep_TargetRPS := x;
             ep_Limit := ep_Limit e; ep_Percentiles := ep_Percentiles e |});
  ("limit", fun e j => x ← fill_uint64 (ep_Limit e) j;
     Some {| ep_TotalRequests := ep_TotalRequests e; ep_Errors := ep_Errors e; ep_TargetRPS := ep_TargetRPS e;
             ep_Limit := x; ep_Percentiles := ep_Percentiles e |});
  ("percentiles_ms", fun e j => x ← fill_map float_zero fill_float64 (ep_Percentiles e) j;
     Some {| ep_TotalRequests := ep_TotalRequests e; ep_Errors := ep_Errors e; ep_TargetRPS := ep_TargetRPS e;
             ep_Limit := ep_Limit e; ep_Percentiles := x |})].

Definition results_fields : list (string * (gmap string endpoint -> json -> option (gmap string endpoint))) :=
  [("endpoints", fill_map zero_endpoint (fill_struct endpoint_fields))].

Record endpointStats := { es_Name : string; es_TargetRPS : spec_float; es_Limit : Z; es_Requests : Z; es_Errors : Z;
  es_P50 : spec_float; es_P95 : spec_float; es_P99 : spec_float; es_P999 : spec_float }.

Definition stats_of (name : string) (ep : endpoint) : endpointStats :=
  let p k := default float_zero (ep_Percentiles ep !! k) in
  {| es_Name := name; es_TargetRPS := ep_TargetRPS ep; es_Limit := ep_Limit ep; es_Requests := ep_TotalRequests ep;
     es_Errors := ep_Errors ep; es_P50 := p "p50.0"; es_P95 := p "p95.0"; es_P99 := p "p99.0"; es_P999 := p "p99.9" |}.

Definition name_le (a b : endpointStats) : Prop := String.le (es_Name a) (es_Name b).
#[export] Instance name_le_dec a b : Decision (name_le a b).
Proof. unfold name_le. apply _. Defined.
#[export] Instance name_le_total : Total name_le.
Proof. intros a b. unfold name_le. apply (total String.le). Qed.
#[export] Instance name_le_trans : Transitive name_le.
Proof. intros a b c. unfold name_le. apply (transitivity (R := String.le)). Qed.

(** The rows come in the order a map is ranged over, which is not specified;
    their names are distinct, so that the sort leaves one order. *)
Definition summarize (data : string) : Res (list endpointStats) :=
  endpoints ← json_Unmarshal (fill_struct results_fields) data ∅;
  if decide (endpoints = ∅) then Err (EMsg "blaster results hold no endpoints")
  else Ok (merge_sort name_le ((fun '(name, ep) => stats_of name ep) <$> map_to_list endpoints)).

Definition error_rate (r : endpointStats) : spec_float :=
  if decide (0 < es_Requests r)
  then float_mul (float_div (float64 (es_Errors r)) (float64 (es_Requests r))) (float64 100) else float_zero.

Definition renderRow (r : endpointStats) : string :=
  let name := if decide (0 < es_Limit r) then es_Name r +:+ " (limit=" +:+ FormatUint (es_Limit r) +:+ ")" else es_Name r in
  "| " +:+ name +:+ " | " +:+ FormatFixed 0 (es_TargetRPS r) +:+ " | " +:+ FormatUint (es_Requests r) +:+ " | " +:+
  FormatUint (es_Errors r) +:+ " (" +:+ FormatFixed 1 (error_rate r) +:+ "%) | " +:+ FormatFixed 1 (es_P50 r) +:+ " | " +:+
  FormatFixed 1 (es_P95 r) +:+ " | " +:+ FormatFixed 1 (es_P99 r) +:+ " | " +:+ FormatFixed 1 (es_P999 r) +:+ " |" +:+ newline.

Definition renderMarkdown (sha blasterSHA rampUp duration : string) (oldest latest handoffSecs : Z)
    (rows : list endpointStats) : string :=
  "### 🎯 Endpoint load test — `" +:+ string_take 12 sha +:+ "`" +:+ newline +:+ newline +:+
  "Serial blast per endpoint (ramp-up " +:+ rampUp +:+ ", duration " +:+ duration +:+ ", blaster `" +:+
  string_take 12 blasterSHA +:+ "`) against the backfilled RPC (ledgers `[" +:+ FormatUint oldest +:+ ", " +:+
  FormatUint latest +:+ "]`, handoff wait " +:+ FormatInt handoffSecs +:+ "s)." +:+ newline +:+ newline +:+
  "| Endpoint | Target RPS | Requests | Errors | p50 (ms) | p95 (ms) | p99 (ms) | p99.9 (ms) |" +:+ newline +:+
  "|---|---|---|---|---|---|---|---|" +:+ newline +:+ foldr (fun r s => renderRow r +:+ s) "" rows.

(** ** instantiate.go *)

Definition blasterCfg : string := "cmd/stellar-rpc-blaster/internal/config/config.example.toml".

Record blasterEnv := { bl_RampUp : string; bl_Duration : string; bl_Cooloff : string; bl_SeedCount : string;
  bl_BufferLow : Z; bl_BufferHigh : Z; bl_TargetRPC : string; bl_CatchupTimeout : Z; bl_BudgetMinutes : Z;
  bl_BlasterRepo : string }.

Record blastCall := { bc_bin : string; bc_url : string; bc_configPath : string; bc_seedPath : string;
  bc_resultsPath : string; bc_rampUp : string; bc_duration : string; bc_cooloff : string }.

Definition seed_args (c : blastCall) (lo hi : Z) (count : string) : list string :=
  ["generate"; "--rpc-url"; bc_url c; "--output"; bc_seedPath c; "--ledger-window";
   FormatInt lo +:+ "," +:+ FormatInt hi; "--count"; count].
Definition blast_args (c : blastCall) : list string :=
  ["run"; "--rpc-url"; bc_url c; "--config-path"; bc_configPath c; "--input-data-path"; bc_seedPath c; "--serial";
   "--ramp-up"; bc_rampUp c; "--duration"; bc_duration c; "--cooloff"; bc_cooloff c;
   "--test-output-path"; bc_resultsPath c].

Section Runner.
Context `{B : Box}.
(** env.Parse and env.ParseAs; the number [fmt.Sscanf] reads; the client of the
    target's getHealth. *)
Context (env_or : string -> string -> string) (ParseEnv : M World blasterEnv) (scan_float : string -> option spec_float)
  (GetHealth : string -> M World GetHealthResponse).

(** harness.go, [BootDeadline] *)
Definition BootDeadline (budgetMinutes margin : Z) : M World (option Z) :=
  if decide (budgetMinutes <= 0) then mret None
  else
    up ← attempt (ReadFile "/proc/uptime");
    match up with
    | inr _ => mret None
    | inl up =>
        match scan_float up with
        | None => mret None
        | Some uptimeSecs =>
            now ← Now;
            let boot := now + - int_of_float (float_mul uptimeSecs (float64 Second)) in
            mret (Some (boot + i64 (i64 (budgetMinutes * (60 * Second)) - margin)))
        end
    end.

(** The context with a timeout, under the context of the leg: its deadline; and
    the [select] on its end and on a timer. *)
Definition with_timeout (parent : option Z) (timeout : Z) : M World Z :=
  now ← Now;
  mret (match parent with Some d => Z.min d (now + timeout) | None => now + timeout end).
Definition done_or_after (deadline interval : Z) : M World (option error) :=
  now ← Now;
  if decide (now + Z.max 0 interval < deadline) then Sleep interval ;; mret None
  else Sleep (deadline - now) ;; mret (Some (ESentinel DeadlineExceeded)).

(** The wait for the target: enough polls for the timeout. *)
Definition await_fuel (timeout interval : Z) : nat := Z.to_nat (Z.max 0 timeout / interval + 2).
Definition await_target (deadline timeout interval : Z) (url : string) : M World GetHealthResponse :=
  r ← AwaitHealthy GH_Status GetHealth (done_or_after deadline) (await_fuel timeout interval) url interval;
  match r with Some h => mret h | None => panic "out of fuel" end.

Definition fetchBlaster (dir repo : string) : M World (string * string) :=
  RemoveAll dir ;;
  map_err (EWrap "git clone failed") (RunStreaming "" [] 20 "git"
    ["clone"; "-q"; "--depth"; "1"; "--branch"; "dev"; "https://github.com/" +:+ repo +:+ ".git"; dir]) ;;
  out ← map_err (EWrap "resolving blaster commit") (Output "git" ["-C"; dir; "rev-parse"; "HEAD"]);
  map_err (EWrap "blaster build failed") (RunStreaming dir [] 40 "make" ["build"]) ;;
  mret (filepath_Join dir "stellar-rpc-blaster", TrimSpace out).

Definition generateSeed (c : blastCall) (lo hi : Z) (count : string) : M World unit :=
  map_err (EWrap "blaster generate failed") (RunStreaming (path_Dir (bc_bin c)) [] 40 (bc_bin c) (seed_args c lo hi count)).
Definition blast (c : blastCall) : M World unit :=
  map_err (EWrap "blaster run failed") (RunStreaming (path_Dir (bc_bin c)) [] 80 (bc_bin c) (blast_args c)).

Definition leg_bail {A} (leg : Leg) (msg : string) (m : M World A) : M World A := fun w =>
  match m w with (Err e, w) => Bail leg (msg +:+ error_message e) w | r => r end.

(** The window of ledgers the requests are sampled from *)
Definition seed_window (cfg : blasterEnv) (h : GetHealthResponse) : Z * Z :=
  (i64 (GH_OldestLedger h + bl_BufferLow cfg), i64 (GH_LatestLedger h - bl_BufferHigh cfg)).

Definition blast_call (leg : Leg) (cfg : blasterEnv) (blasterDir blasterBin : string) : blastCall :=
  {| bc_bin := blasterBin; bc_url := bl_TargetRPC cfg; bc_configPath := filepath_Join blasterDir blasterCfg;
     bc_seedPath := filepath_Join (L_WorkDir leg) "blaster-seed.json";
     bc_resultsPath := filepath_Join (L_WorkDir leg) "blaster-results.json";
     bc_rampUp := bl_RampUp cfg; bc_duration := bl_Duration cfg; bc_cooloff := bl_Cooloff cfg |}.

(** What [instantiate] makes of a target that serves *)
Definition load (leg : Leg) (cfg : blasterEnv) (call : blastCall) (blasterSHA : string) (h : GetHealthResponse)
    (handoffSecs : Z) : M World unit :=
  let '(lo, hi) := seed_window cfg h in
  if decide (hi <= lo) then
    Bail leg ("ledger window [" +:+ FormatUint (GH_OldestLedger h) +:+ ", " +:+ FormatUint (GH_LatestLedger h) +:+
      "] leaves no room after buffers +" +:+ FormatInt (bl_BufferLow cfg) +:+ "/-" +:+ FormatInt (bl_BufferHigh cfg))
  else
    leg_bail leg "" (generateSeed call lo hi (bl_SeedCount cfg)) ;;
    leg_bail leg "" (blast call) ;;
    data ← leg_bail leg "reading blaster results: " (ReadFile (bc_resultsPath call));
    rows ← leg_bail leg "summarizing blaster results: " (of_res (summarize data));
    leg_bail leg "writing results: " (WriteFile (L_ResultsFile leg)
      (renderMarkdown (L_TargetSHA leg) blasterSHA (bl_RampUp cfg) (bl_Duration cfg) (GH_OldestLedger h)
        (GH_LatestLedger h) handoffSecs rows)) ;;
    leg_bail leg "publishing result: " (Publish leg (bc_resultsPath call)).

(** [instantiate] of the runner *)
Definition blaster_instantiate : M World unit :=
  leg ← LegSetup env_or "Endpoint load test";
  cfg ← leg_bail leg "parsing env: " ParseEnv;
  deadline ← BootDeadline (bl_BudgetMinutes cfg) (25 * 60 * Second);
  if decide (bl_TargetRPC cfg = "") then Bail leg "TARGET_RPC unset; nothing to blast"
  else
    let blasterDir := filepath_Join (L_WorkDir leg) "stellar-rpc-blaster" in
    '(blasterBin, blasterSHA) ← leg_bail leg "" (fetchBlaster blasterDir (bl_BlasterRepo cfg));
    catchup ← with_timeout deadline (bl_CatchupTimeout cfg);
    waitStart ← Now;
    h ← leg_bail leg ("target RPC " +:+ bl_TargetRPC cfg +:+ ": ")
          (await_target catchup (bl_CatchupTimeout cfg) (15 * Second) (bl_TargetRPC cfg));
    waitEnd ← Now;
    load leg cfg (blast_call leg cfg blasterDir blasterBin) blasterSHA h (int_of_float (Duration_Seconds (waitEnd - waitStart))).
End Runner.

(** ** The rows of the report *)

(** What the document of the blaster says of an endpoint *)
Record report := { rp_name : string; rp_requests : Z; rp_errors : Z; rp_target : spec_float; rp_limit : Z;
                   rp_percentiles : list (string * spec_float) }.

(** The members of an object that have one of the [names]; the others, whose
    names do not even fold to one of them, are somewhere between them. *)
Inductive members_of (names : list string) : list (string * json) -> list (string * json) -> Prop :=
  | mo_nil : members_of names [] []
  | mo_other k v name ms l : unquote k = Some name -> fold_name name ∉ fold_name <$> names ->
      members_of names ms l -> members_of names ((k, v) :: ms) l
  | mo_known m ms l : members_of names ms l -> members_of names (m :: ms) (m :: l).

Definition endpoint_names : list string := ["total_requests"; "errors"; "target_rps"; "limit"; "percentiles_ms"].

(** A member gives a report its value. *)
Definition member_gives (rp : report) (m : string * json) : Prop :=
  (m.1 = "total_requests" /\ exists n, m.2 = JNum n /\ ParseUint n 64 = Ok (rp_requests rp)) \/
  (m.1 = "errors" /\ exists n, m.2 = JNum n /\ ParseUint n 64 = Ok (rp_errors rp)) \/
  (m.1 = "target_rps" /\ exists n, m.2 = JNum n /\ number_float n = Some (rp_target rp)) \/
  (m.1 = "limit" /\ exists n, m.2 = JNum n /\ ParseUint n 64 = Ok (rp_limit rp)) \/
  (m.1 = "percentiles_ms" /\ exists l, m.2 = JObj l /\ NoDup (rp_percentiles rp).*1 /\
     Forall2 (fun q x => unquote q.1 = Some x.1 /\ exists n, q.2 = JNum n /\ number_float n = Some x.2) l (rp_percentiles rp)).

(** The entry of an endpoint: what it does not say is zero. *)
Definition entry_gives (e : string * json) (rp : report) : Prop :=
  unquote e.1 = Some (rp_name rp) /\
  exists ms known, e.2 = JObj ms /\ members_of endpoint_names ms known /\
    NoDup known.*1 /\ Forall (member_gives rp) known /\
    ("total_requests" ∉ known.*1 -> rp_requests rp = 0) /\ ("errors" ∉ known.*1 -> rp_errors rp = 0) /\
    ("target_rps" ∉ known.*1 -> rp_target rp = S754_zero false) /\ ("limit" ∉ known.*1 -> rp_limit rp = 0) /\
    ("percentiles_ms" ∉ known.*1 -> rp_percentiles rp = []).

(** A text that is a document with these reports, however it is laid out and
    whatever else it holds *)
Definition document_of (data : string) (reports : list report) : Prop :=
  NoDup (rp_name <$> reports) /\
  exists top entries, json_parse data = Some (JObj top) /\
    members_of ["endpoints"] top [("endpoints", JObj entries)] /\ Forall2 entry_gives entries reports.

(** The row of a report *)
Definition row_for (rp : report) : endpointStats :=
  let percentile k := default (S754_zero false) ((list_to_map (rp_percentiles rp) : gmap string spec_float) !! k) in
  {| es_Name := rp_name rp; es_TargetRPS := rp_target rp; es_Limit := rp_limit rp; es_Requests := rp_requests rp;
     es_Errors := rp_errors rp; es_P50 := percentile "p50.0"; es_P95 := percentile "p95.0";
     es_P99 := percentile "p99.0"; es_P999 := percentile "p99.9" |}.

(** *** Decoding the document *)

Lemma find_field_other {A} (fields : list (string * A)) name :
  fold_name name ∉ fold_name <$> fields.*1 -> find_field fields name = None.
Proof.
  intros Hn. unfold find_field.
  destruct (list_find _ fields) as [[i [k f]]|] eqn:E.
  { apply list_find_Some in E as (Hi & E & _). simpl in E. subst k. destruct Hn. apply list_elem_of_fmap. exists name.
    split; [done|]. apply list_elem_of_fmap. exists (name, f). split; [done|]. by eapply list_elem_of_lookup_2. }
  destruct (list_find (fun f => fold_name f.1 = fold_name name) fields) as [[i [k f]]|] eqn:E2; [|done].
  apply list_find_Some in E2 as (Hi & E2 & _). simpl in E2. destruct Hn. rewrite <- E2. apply list_elem_of_fmap. exists k.
  split; [done|]. apply list_elem_of_fmap. exists (k, f). split; [done|]. by eapply list_elem_of_lookup_2.
Qed.

Lemma fill_members_known {A} (fields : list (string * (A -> json -> option A))) old ms known :
  members_of fields.*1 ms known -> fill_members fields old ms = fill_members fields old known.
Proof.
  intros H. revert old. induction H as [|k v name ms l Hk Hn _ IH|[k v] ms l _ IH]; intros old; [done| |].
  - cbn [fill_members]. rewrite Hk. cbn [mbind option_bind]. rewrite find_field_other by done. apply IH.
  - cbn [fill_members]. destruct (unquote k); [|done]. cbn [mbind option_bind].
    destruct (match find_field fields s with Some fill => fill old v | None => Some old end); [|done].
    cbn [mbind option_bind]. apply IH.
Qed.

Lemma fill_entries_all {A B} (zero : A) fill (key : B -> string) (value : B -> A) (l : list (string * json)) (bs : list B) old :
  Forall2 (fun e b => unquote e.1 = Some (key b) /\ fill zero e.2 = Some (value b)) l bs ->
  fill_entries zero fill old l = Some (foldl (fun m b => <[key b := value b]> m) old bs).
Proof.
  intros H. revert old. induction H as [|[k v] b l bs [Hk Hv] _ IH]; intros old; [done|].
  cbn [fill_entries fst snd] in *. rewrite Hk. cbn [mbind option_bind]. rewrite Hv. cbn [mbind option_bind]. apply IH.
Qed.

Lemma foldl_insert_map {A B} (key : B -> string) (value : B -> A) (bs : list B) (old : gmap string A) :
  NoDup (key <$> bs) ->
  foldl (fun m b => <[key b := value b]> m) old bs = list_to_map ((fun b => (key b, value b)) <$> bs) ∪ old.
Proof.
  revert old. induction bs as [|b bs IH]; intros old Hd; csimpl in *; [by rewrite (left_id_L ∅ (∪))|].
  apply NoDup_cons in Hd as [Hb Hd]. rewrite IH by done. rewrite <- insert_union_r; [by rewrite insert_union_l|].
  apply not_elem_of_list_to_map_1. by rewrite <- list_fmap_compose.
Qed.

(** An endpoint with the members [ks] of a report *)
Definition ep_with (ks : list string) (rp : report) (e : endpoint) : endpoint :=
  {| ep_TotalRequests := if decide ("total_requests" ∈ ks) then rp_requests rp else ep_TotalRequests e;
     ep_Errors := if decide ("errors" ∈ ks) then rp_errors rp else ep_Errors e;
     ep_TargetRPS := if decide ("target_rps" ∈ ks) then rp_target rp else ep_TargetRPS e;
     ep_Limit := if decide ("limit" ∈ ks) then rp_limit rp else ep_Limit e;
     ep_Percentiles := if decide ("percentiles_ms" ∈ ks) then list_to_map (rp_percentiles rp) else ep_Percentiles e |}.

Lemma ep_with_cons k ks rp e : ep_with ks rp (ep_with [k] rp e) = ep_with (k :: ks) rp e.
Proof.
  unfold ep_with. f_equal; cbn [ep_TotalRequests ep_Errors ep_TargetRPS ep_Limit ep_Percentiles];
    repeat case_decide; set_solver.
Qed.

Lemma fill_percentiles old l (rps : list (string * spec_float)) :
  old = ∅ -> NoDup rps.*1 ->
  Forall2 (fun q x => unquote q.1 = Some x.1 /\ exists n, q.2 = JNum n /\ number_float n = Some x.2) l rps ->
  fill_map float_zero fill_float64 old (JObj l) = Some (list_to_map rps).
Proof.
  intros -> Hd Hl. cbn [fill_map]. rewrite (fill_entries_all _ _ fst snd l rps).
  - rewrite foldl_insert_map by done. rewrite (right_id_L ∅ (∪)). f_equal. f_equal.
    induction rps as [|[k x] rps IH] in |- *; [done|]. csimpl. by rewrite IH.
  - eapply Forall2_impl; [exact Hl|]. intros [k v] [name x] (Hk & n & Hv & Hx). cbn in *. by subst.
Qed.

Lemma fill_endpoint rp e known :
  NoDup known.*1 -> Forall (member_gives rp) known -> ("percentiles_ms" ∈ known.*1 -> ep_Percentiles e = ∅) ->
  fill_members endpoint_fields e known = Some (ep_with known.*1 rp e).
Proof.
  intros Hd Hm. revert e Hd. induction Hm as [|[k v] known Hk _ IH]; intros e Hd He; [by destruct e|].
  rewrite fmap_cons in Hd, He |- *. cbn [fst] in Hd, He |- *. apply NoDup_cons in Hd as [Hn Hd].
  assert (fill_members endpoint_fields e ((k, v) :: known) = fill_members endpoint_fields (ep_with [k] rp e) known) as ->.
  { unfold member_gives in Hk. cbn [fst snd] in Hk. destruct Hk as [(->&n&->&Hx)|[(->&n&->&Hx)|[(->&n&->&Hx)|[(->&n&->&Hx)|(->&l&->&Hl&Hx)]]]];
      (erewrite fill_members_step; [|by vm_compute|reflexivity]); cbv beta.
    1, 2, 4: unfold fill_uint64; rewrite Hx; reflexivity.
    - unfold fill_float64. rewrite Hx. reflexivity.
    - rewrite (fill_percentiles _ l (rp_percentiles rp)); [reflexivity|apply He; by left|done|done]. }
  rewrite IH; [by rewrite ep_with_cons|done|]. intros Hp. unfold ep_with. cbn [ep_Percentiles].
  rewrite decide_False; [apply He; by right|]. intros E%list_elem_of_singleton. by subst k.
Qed.

Definition endpoint_for (rp : report) : endpoint := ep_with endpoint_names rp zero_endpoint.

Lemma fill_entry e rp : entry_gives e rp ->
  unquote e.1 = Some (rp_name rp) /\ fill_struct endpoint_fields zero_endpoint e.2 = Some (endpoint_for rp).
Proof.
  intros (Hk & ms & known & -> & Hms & Hd & Hm & H1 & H2 & H3 & H4 & H5). split; [done|]. cbn [fill_struct].
  rewrite (fill_members_known endpoint_fields zero_endpoint ms known Hms), (fill_endpoint rp) by done. f_equal. unfold endpoint_for, ep_with.
  f_equal; (rewrite (decide_True (P := _ ∈ endpoint_names)) by (apply (bool_decide_unpack _); by vm_compute));
    case_decide as Hc; try done; symmetry; [apply H1|apply H2|apply H3|apply H4|]; try done. by rewrite H5.
Qed.

Lemma document_decodes data reports : document_of data reports ->
  json_Unmarshal (fill_struct results_fields) data ∅ =
    Ok (list_to_map ((fun rp => (rp_name rp, endpoint_for rp)) <$> reports) : gmap string endpoint).
Proof.
  intros (Hd & top & entries & Hp & Htop & He). unfold json_Unmarshal. rewrite Hp. cbn [mbind option_bind fill_struct].
  rewrite (fill_members_known results_fields ∅ top [("endpoints", JObj entries)] Htop).
  erewrite fill_members_step; [|by vm_compute|reflexivity]. cbn [fill_map].
  rewrite (fill_entries_all _ _ rp_name endpoint_for entries reports).
  - cbn [mbind option_bind fill_members]. rewrite foldl_insert_map by done. by rewrite (right_id_L ∅ (∪)).
  - eapply Forall2_impl; [exact He|]. intros e rp. apply fill_entry.
Qed.

Lemma stats_of_report rp : stats_of (rp_name rp) (endpoint_for rp) = row_for rp.
Proof. reflexivity. Qed.

(** Lists of the same rows, sorted by distinct names, are the same list. *)
Lemma sorted_rows_unique rows rows' :
  NoDup (es_Name <$> rows) -> rows' ≡ₚ rows -> StronglySorted name_le rows -> StronglySorted name_le rows' -> rows' = rows.
Proof.
  intros Hn Hr Hs Hs'. revert rows Hn Hr Hs. induction Hs' as [|a rows' Hs' IH Ha]; intros rows Hn Hr Hs.
  - symmetry. by apply Permutation_nil_r.
  - destruct Hs as [|b rows Hs Hb]; [by apply Permutation_nil_r in Hr|].
    assert (a = b) as ->.
    { destruct (elem_of_cons rows a b) as [[|Hab] _]; [rewrite <-Hr; by left|done|].
      destruct (elem_of_cons rows' b a) as [[|Hba] _]; [rewrite Hr; by left|done|].
      rewrite Forall_forall in Ha, Hb. exfalso. cbn in Hn. apply NoDup_cons in Hn as [Hn _]. apply Hn.
      replace (es_Name b) with (es_Name a); [by apply list_elem_of_fmap_2|].
      apply (anti_symm String.le); [by apply Ha|by apply Hb]. }
    f_equal. apply IH; [by apply NoDup_cons in Hn as [_ ?]|by apply Permutation_cons_inv in Hr|done].
Qed.

(** C40: For a JSON document of the blaster, however it is laid out and whatever
    other members it holds, the report of an endpoint load test has one row per
    endpoint: its requests, errors, target rate and page limit, and its 50th,
    95th, 99th and 99.9th percentiles, each read from its own member and zero
    when the document lacks it.  The rows are in the order of their names, the
    only such order, so that the order the map is ranged over does not matter; a
    document without endpoints is refused. *)
Theorem summarize_rows data reports :
  document_of data reports ->
  (reports = [] -> summarize data = Err (EMsg "blaster results hold no endpoints")) /\
  (reports <> [] -> exists rows, summarize data = Ok rows /\ rows ≡ₚ (row_for <$> reports) /\
    StronglySorted (fun a b => String.le (es_Name a) (es_Name b)) rows /\
    forall rows', rows' ≡ₚ (row_for <$> reports) ->
      StronglySorted (fun a b => String.le (es_Name a) (es_Name b)) rows' -> rows' = rows).
Proof.
  intros Hdoc. pose proof Hdoc as (Hd & _). apply document_decodes in Hdoc. unfold summarize. rewrite Hdoc.
  unfold mbind, Res_bind. set (l := (fun rp => (rp_name rp, endpoint_for rp)) <$> reports) in *.
  split; [by intros ->|]. intros Hne.
  rewrite decide_False by (unfold l; destruct reports; [done|]; apply insert_non_empty).
  assert (NoDup l.*1) as Hdl by (unfold l; by rewrite <- list_fmap_compose).
  assert (merge_sort name_le ((fun '(name, ep) => stats_of name ep) <$> map_to_list (list_to_map l : gmap string endpoint))
          ≡ₚ row_for <$> reports) as Hp.
  { rewrite merge_sort_Permutation, map_to_list_to_map by done. unfold l. rewrite <- list_fmap_compose.
    apply reflexive_eq, list_fmap_ext. intros _ rp _. apply stats_of_report. }
  assert (StronglySorted name_le (merge_sort name_le
    ((fun '(name, ep) => stats_of name ep) <$> map_to_list (list_to_map l : gmap string endpoint)))) as Hs
    by (apply StronglySorted_merge_sort; apply _).
  eexists. split; [reflexivity|]. split_and!; [exact Hp|exact Hs|]. intros rows' Hr' Hs'.
  apply sorted_rows_unique; [|by rewrite Hp|done|done].
  rewrite Hp, <- list_fmap_compose. exact Hd.
Qed.

(** ** The wait for the target *)

Section Await.
Context `{B : Box} `{CL : !ClockLaws} (GetHealth : string -> M World GetHealthResponse).
Hypothesis GetHealth_clock : forall url w, clock w <= clock (GetHealth url w).2.

Lemma done_or_after_advances deadline interval w w' : 0 <= interval ->
  done_or_after deadline interval w = (Ok None, w') -> clock w + interval <= clock w' /\ clock w + interval < deadline.
Proof.
  intros Hi. unfold done_or_after. unfold_m. rewrite Now_clock. case_decide as Hd.
  - destruct (Sleep_clock interval w) as (w1 & -> & Hc). intros [= <-]. lia.
  - by destruct (Sleep_clock (deadline - clock w) w) as (w1 & -> & Hc).
Qed.

(** The polls that fit between now and the deadline are covered by the fuel. *)
Lemma AwaitHealthy_fuel fuel deadline interval url w : 0 < interval -> (0 < fuel)%nat ->
  deadline - clock w <= (Z.of_nat fuel - 1) * interval ->
  (AwaitHealthy GH_Status GetHealth (done_or_after deadline) fuel url interval w).1 <> Ok None.
Proof.
  intros Hi. revert w. induction fuel as [|fuel IH]; intros w H0 Hf; [lia|]. cbn [AwaitHealthy].
  unfold mbind at 1, M_bind at 1. unfold attempt. pose proof (GetHealth_clock url w) as Hk.
  assert (forall w1 last, clock w <= clock w1 ->
    ((sel ← done_or_after deadline interval;
      match sel with
      | Some e => fail (EWrap (url +:+ " never reported healthy (last: " +:+ last +:+ ")") e)
      | None => AwaitHealthy GH_Status GetHealth (done_or_after deadline) fuel url interval
      end) w1).1 <> Ok None) as Hagain.
  { intros w1 last Hw. unfold mbind, M_bind.
    destruct (done_or_after deadline interval w1) as [[[e|]| |] w2] eqn:E; [done| |done..].
    apply done_or_after_advances in E as [Hc Hl]; [|lia]. apply IH; nia. }
  destruct (GetHealth url w) as [[h|e|m] w1]; cbn [snd] in Hk; [|by apply Hagain|done].
  case_decide; [done|by apply Hagain].
Qed.

(** What it returns was reported healthy. *)
Lemma AwaitHealthy_healthy fuel done_or url interval w h w' :
  AwaitHealthy GH_Status GetHealth done_or fuel url interval w = (Ok (Some h), w') -> GH_Status h = "healthy".
Proof.
  revert w. induction fuel as [|fuel IH]; intros w; [done|]. cbn [AwaitHealthy].
  unfold mbind at 1, M_bind at 1. unfold attempt.
  assert (forall w1 last, (sel ← done_or interval;
      match sel with
      | Some e => fail (EWrap (url +:+ " never reported healthy (last: " +:+ last +:+ ")") e)
      | None => AwaitHealthy GH_Status GetHealth done_or fuel url interval
      end) w1 = (Ok (Some h), w') -> GH_Status h = "healthy") as Hagain.
  { intros w1 last. unfold mbind, M_bind. destruct (done_or interval w1) as [[[e|]| |] w2]; [done| |done..]. apply IH. }
  destruct (GetHealth url w) as [[g|e|m] w1]; [|apply Hagain|done].
  case_decide; [|apply Hagain]. by intros [= <- <-].
Qed.

(** The polls of [await_fuel] are enough for the timeout of the wait. *)
Lemma await_fuel_enough parent timeout interval url w deadline w1 : 0 < interval ->
  with_timeout parent timeout w = (Ok deadline, w1) ->
  (AwaitHealthy GH_Status GetHealth (done_or_after deadline) (await_fuel timeout interval) url interval w1).1 <> Ok None.
Proof.
  intros Hi. unfold with_timeout. unfold_m. rewrite Now_clock. intros [= <- <-].
  pose proof (Z.div_pos (Z.max 0 timeout) interval ltac:(lia) Hi) as Hq.
  pose proof (Z.mul_succ_div_gt (Z.max 0 timeout) interval Hi).
  apply AwaitHealthy_fuel; unfold await_fuel; [done|lia|destruct parent; lia].
Qed.
End Await.

(** ** A test of two endpoints *)

Definition quote_ticks (s : string) : string :=
  String.string_of_list_ascii ((fun c => if decide (c = char 96) then char 34 else c) <$> String.list_ascii_of_string s).

Definition ex_results : string := quote_ticks ("{ `start`: `2026-07-10T00:00:00Z`, `endpoints`: {" +:+
  "`getLedgers`: {`total_requests`: 3600, `success`: 3591, `errors`: 9, `target_rps`: 20, `limit`: 1, " +:+
  "`percentiles_ms`: {`p50.0`: 3.2, `p95.0`: 9.8, `p99.0`: 21.5, `p99.9`: 60.1}, `timeline`: [{`target_rps`: 2}]}," +:+
  "`getHealth`: {`total_requests`: 18000, `errors`: 0, `target_rps`: 1e2, " +:+
  "`percentiles_ms`: {`p50.0`: 0.4, `p95.0`: 0.9, `p99.0`: 1.5, `p99.9`: 4.2}}}}").

Definition ex_health (status : string) : GetHealthResponse :=
  {| GH_Status := status; GH_LatestLedger := 20000; GH_LatestLedgerCloseTime := 0; GH_OldestLedger := 5000;
     GH_OldestLedgerCloseTime := 0; GH_LedgerRetentionWindow := 0 |}.

Definition ex_blaster (high timeout : Z) : blasterEnv :=
  {| bl_RampUp := "2m"; bl_Duration := "3m"; bl_Cooloff := "15s"; bl_SeedCount := "1000"; bl_BufferLow := 1000;
     bl_BufferHigh := high; bl_TargetRPC := "http://10.0.0.1:8000"; bl_CatchupTimeout := timeout; bl_BudgetMinutes := 120;
     bl_BlasterRepo := "stellar/stellar-rpc-blaster" |}.

(** The target reports healthy after half a minute. *)
Definition ex_GetHealth (url : string) : M ex_world GetHealthResponse := fun w =>
  (Ok (ex_health (if decide (ex_clock w < 30 * Second) then "catching up" else "healthy")), w).

Definition ex_load (high timeout : Z) : Res unit * ex_world :=
  blaster_instantiate (B := ex_Box) (fun k d => if decide (k = "RESULT_KEY") then "runs/1/result.json" else d)
    (mret (ex_blaster high timeout)) (fun _ => Some (float64 100)) ex_GetHealth
    (MkWorld 0 {["/data/blaster-results.json" := ex_results; "/proc/uptime" := "100.00 5.00"]} ∅).

Definition row_of (name : string) (rows : Res (list endpointStats)) : Res (list string) :=
  match rows with Ok l => Ok (renderRow <$> filter (fun r => es_Name r = name) l) | Err e => Err e | Panic m => Panic m end.

Example ex_blast :
  row_of "getLedgers" (summarize ex_results) =
    Ok ["| getLedgers (limit=1) | 20 | 3600 | 9 (0.2%) | 3.2 | 9.8 | 21.5 | 60.1 |" +:+ newline] /\
  row_of "getHealth" (summarize ex_results) = Ok ["| getHealth | 100 | 18000 | 0 (0.0%) | 0.4 | 0.9 | 1.5 | 4.2 |" +:+ newline] /\
  (match summarize ex_results with Ok l => es_Name <$> l | _ => [] end) = ["getHealth"; "getLedgers"] /\
  (ex_load 128 (60 * Second)).1 = Ok tt /\
  ex_objects (ex_load 128 (60 * Second)).2 !! ("stellar-rpc-ci-load-test", "runs/1/result.json") <> None /\
  (ex_load 14500 (60 * Second)).1 =
    Err (EMsg "ledger window [5000, 20000] leaves no room after buffers +1000/-14500") /\
  (exists m, (ex_load 128 (20 * Second)).1 = Err (EMsg m)) /\
  number_float "1e400" = None /\ number_float "-2.5E-1" = Some (float_of_decimal true 25 (-2)).
Proof. vm_compute. repeat split; try discriminate. by eexists. Qed.

(** What the document says *)
Definition ex_float (n : string) : spec_float := default (S754_zero false) (number_float n).
Definition ex_reports : list report := [
  {| rp_name := "getLedgers"; rp_requests := 3600; rp_errors := 9; rp_target := ex_float "20"; rp_limit := 1;
     rp_percentiles := [("p50.0", ex_float "3.2"); ("p95.0", ex_float "9.8"); ("p99.0", ex_float "21.5"); ("p99.9", ex_float "60.1")] |};
  {| rp_name := "getHealth"; rp_requests := 18000; rp_errors := 0; rp_target := ex_float "1e2"; rp_limit := 0;
     rp_percentiles := [("p50.0", ex_float "0.4"); ("p95.0", ex_float "0.9"); ("p99.0", ex_float "1.5"); ("p99.9", ex_float "4.2")] |}].

Ltac gives_number := eexists; split; [reflexivity|by vm_compute].
Ltac gives_percentiles :=
  eexists; split; [reflexivity|]; split; [apply (bool_decide_unpack _); by vm_compute|];
  repeat (apply Forall2_cons; split; [split; [by vm_compute|gives_number]|]); apply Forall2_nil_2.
Ltac gives_member := first
  [left; split; [reflexivity|gives_number]
  |right; left; split; [reflexivity|gives_number]
  |right; right; left; split; [reflexivity|gives_number]
  |right; right; right; left; split; [reflexivity|gives_number]
  |right; right; right; right; split; [reflexivity|gives_percentiles]].
Ltac picks_members :=
  repeat first [apply mo_nil
    |eapply mo_other; [vm_compute; reflexivity|apply (bool_decide_unpack _); vm_compute; exact I|]
    |apply mo_known].
Ltac gives_entry :=
  split; [by vm_compute|]; eexists _, _; split; [reflexivity|]; split; [picks_members|];
  split; [apply (bool_decide_unpack _); by vm_compute|].

Lemma ex_document : document_of ex_results ex_reports.
Proof.
  split; [apply (bool_decide_unpack _); by vm_compute|].
  destruct (json_parse ex_results) as [j|] eqn:E; [|by vm_compute in E]. vm_compute in E. injection E as <-.
  eexists _, _. split; [reflexivity|]. split; [picks_members|].
  apply Forall2_cons; split; [|apply Forall2_cons; split; [|apply Forall2_nil_2]]; gives_entry.
  - split_and!; try (intros Hn; exfalso; apply Hn; apply (bool_decide_unpack _); by vm_compute).
    repeat (apply Forall_cons_2; [gives_member|]); apply Forall_nil_2.
  - split_and!; try (intros Hn; first [reflexivity|exfalso; apply Hn; apply (bool_decide_unpack _); by vm_compute]).
    repeat (apply Forall_cons_2; [gives_member|]); apply Forall_nil_2.
Qed.

Lemma summarize_rows_witness :
  exists rows, summarize ex_results = Ok rows /\ rows ≡ₚ (row_for <$> ex_reports).
Proof.
  destruct (summarize_rows ex_results ex_reports ex_document) as [_ H]. destruct H as (rows&H1&H2&_); [discriminate|].
  exists rows. split; [exact H1|exact H2].
Defined.
